(* ===== verification/_CoqProject ===== *)
-Q . S2P
Prelude.v
Param.v
Bio.v
Log.v
Ide.v
Blocks.v
Txn.v
StringC.v
Spinlock.v
Kalloc.v
Pipe.v
Vm.v
Umalloc.v
Ulib.v
Proc.v
ProcInv.v
Percpu.v
Apic.v
Fs.v
FsBlocks.v
FsFile.v
FsInode.v
FsExample.v
Mkfs.v
FsDir.v
FsCache.v
MkfsImage.v
Syscall.v
File.v
FileInv.v
Exec.v
Trap.v
Console.v
Kbd.v
Graphic.v
Grep.v
Sh.v
ShRun.v
UserProgs.v
Net.v
Pci.v
MpUefi.v
Loader.v
