(* ===== verification/Prelude.v ===== *)
(** * Verification of the xv6-UEFI kernel (src/xv6edk2/xv6)

    The repository boots an xv6 kernel for x86 from UEFI: a loader built with
    EDK2 (vendored under src/edk2) starts the kernel under src/xv6edk2/xv6,
    which runs xv6's user programs from an IDE disk or a disk image in memory.
    This library translates the repository's own code into Rocq functions, one
    definition per C function with the name of the function where it is free,
    and proves what makes each part correct.

    ** How C is translated

    A C function is a function into [M S A], a state monad over the state [S]
    the code works on, whose outcomes are a result with a new state, a call of
    [panic], a fault (an access outside every object of the model), a block
    (a sleep nobody in the model can end) and an exhausted loop bound.  [wp]
    is total correctness: a [wp] theorem says that the code returns, so that
    panics, faults and infinite loops are excluded.  Integers are [Z] with
    [u8], [u16], [u32], [i32] where C converts; bytes are [Z] below 256; memory is
    a finite map from addresses to bytes ([mem], StringC.v); tables are lists.
    Loops that are not structural take a bound on their rounds; where the
    bound is computed from the input, a theorem that the code returns shows
    that it is enough.  What a component needs of another is a type class
    ([BlockDriver] of the buffer cache, [BlockLayer] and [TxLayer] of the file
    system, [FileLayer] of the process table), with the class of laws
    ([BlockDriverOk], [BlockLayerOk]) its theorems use; the layers below
    provide the instances.  A critical section under a spin lock is one step;
    code that sleeps in the middle is cut there, into one definition per
    stretch.

    ** Files, from the bottom up

    - Prelude.v: the monad, [wp], machine integers, byte buffers, list lemmas.
    - Param.v: param.h, fs.h, memlayout.h, mmu.h: constants and layout.
    - Bio.v: sleeplock.c, memide.c and bio.c: the disk image, buffers with
      reference counts, flags and locks, and the LRU list.
    - Ide.v: ide.c, the request queue and interrupt handler of the disk driver,
      over a drive given by the class [Drive]; an instance of [BlockDriver].
    - Log.v: log.c: the write-ahead log over the buffer cache, with the disk
      contents after every single write (crash states).
    - Blocks.v, Txn.v: the interface of logged blocks that fs.c uses, and its
      implementation by Log.v and Bio.v; concurrent transactions.
    - StringC.v: string.c over byte-addressed memory.
    - Spinlock.v: spinlock.c one memory access at a time on many CPUs.
    - Kalloc.v: kalloc.c, the free list threaded through the free pages.
    - Pipe.v: pipe.c, the ring buffer with sleeping readers and writers.
    - Vm.v: vm.c, two-level page tables in memory.
    - Umalloc.v: umalloc.c, the user heap in memory.  Ulib.v: ulib.c, printf.c.
    - Proc.v, ProcInv.v: proc.c, and the process table as a transition system.
    - Percpu.v: mycpu, scheduler, sched, yield and forkret of proc.c on the
      state of the processors, the segment and gate descriptors of mmu.h, and
      the code of vm.c and trap.c that fills and loads them, with pushcli,
      popcli and getcallerpcs of spinlock.c.
    - Apic.v: lapic.c, ioapic.c, picirq.c, uart.c and debug.c, over device
      registers given by the class [Hw] and a class of laws per device.
    - Fs.v: fs.c, all of it, over [BlockLayer].  FsBlocks.v: allocation of
      blocks.  FsFile.v: the block map and the copy loops.  FsInode.v: files as
      byte arrays.  FsDir.v: directories and paths.  FsCache.v: the references to
      the inode cache.  FsExample.v: a concrete disk the theorems apply to.
    - Mkfs.v, MkfsImage.v: mkfs.c, which makes the image on the build machine,
      and what the kernel finds in it.
    - Syscall.v: syscall.c.  File.v, FileInv.v: file.c and sysfile.c.  Exec.v:
      exec.c, loaduvm and sys_exec.  Trap.v: trap.c and sysproc.c.
    - Console.v: console.c with its input ring and its screen output.  Kbd.v:
      kbd.c.  Graphic.v: graphic.c and font.c, the frame buffer.
    - Net.v: eth.c, arp.c, ipv4.c, icmp.c, tcp.c, http.c, and the descriptor
      rings of the network card, i8254.c.  Pci.v: pci.c and i8254_init.
    - MpUefi.v: mp_uefi.c, the processors the firmware reports.  Loader.v:
      relocate.c, file_loader.c and set_gdt of the UEFI loader, over the
      firmware services of the class [Firmware].
    - Grep.v: grep.c.  Sh.v: the parser of sh.c.  ShRun.v: runcmd and main of
      sh.c, as trees of system calls on a descriptor table.  UserProgs.v: wc.c,
      cat.c, echo.c, ls.c, rm.c, mkdir.c, ln.c, kill.c and main of grep.c.

    ** What is proved

    - Durability: [Log.end_op_crash_atomic] (a crash between any two disk
      writes recovers to before or after the transaction) and
      [Txn.reservation_sound] (calls that log up to nine blocks never overflow
      the log mkfs makes; for the ten that begin_op reserves the log has to be
      one block longer, and [Txn.mkfs_log_one_short] shows that it is not).
    - Files: [FsInode.writei_correct], [FsInode.write_then_read],
      [FsBlocks.balloc_correct], [FsBlocks.bfree_correct],
      [FsDir.dirlookup_correct], [FsDir.skipelem_splits], all against any
      implementation of the block interface, with the number of blocks logged;
      [FsCache.icache_refs_exact] (a reference to the inode cache is the inode
      it was taken for, and the counts are the references);
      [FileInv.file_references_counted],
      [FileInv.filewrite_chunk_fits].  [MkfsImage.mkfs_image_ok]: the image mkfs
      makes satisfies what these theorems ask of a disk, and holds the files.
    - The disk: [Ide.ide_refines_queue] (calls and interrupts in any order serve
      the requests whole and in order, on a drive that takes commands only after
      its status said ready; that it takes the data of a write without a wait
      for DRQ is assumed, since the driver does not wait); [Ide.ide_driver_ok] makes every theorem
      about the buffer cache, the log and the file system one about this driver.
    - Processes: [ProcInv.process_table_invariant] of the abstract system, in
      which [nextpid] is an int that wraps around, [ProcInv.proc_ops_refine] that
      proc.c implements it, [Trap.killed_never_returns], [Trap.sleep_on_time];
      [Exec.exec_all_or_nothing] (a failed exec leaves the process structure and
      the address space of the CPU); [ProcInv.kill_zero_kills_next_child] is a
      defect.  [Percpu.yield_keeps_interrupts] (a thread that moves to another
      processor finds its interrupts as they were).
    - The hardware boundary: [Percpu.traps_enter_kernel] (the descriptors, as
      the processor decodes them, let user code in through the system call
      only), [Apic.cmostime_consistent] (the time read from a clock whose registers
      are undefined while it updates them),
      [Apic.ioapic_routes], [Pci.pci_init_finds].
    - Locks and memory: [Spinlock.lock_mutual_exclusion],
      [Kalloc.pages_conserved], [Vm.mappages_correct],
      [StringC.memmove_correct]; the user heap, [Umalloc.malloc_heap_sound].
    - Pipes, with writers and readers that are killed: [Pipe.pipe_fifo],
      [Pipe.pipe_no_missed_wakeup]; the wakeup a killed writer owes the readers
      is missed, [Pipe.killed_writer_misses_wakeup].
    - The user boundary: [Syscall.argptr_safe]; strings, [Syscall.argstr_correct].
    - Console and screen: [Console.console_refines_line] (the ring buffer
      implements a line editor, and its echo makes only drawing calls that the
      screen carries out), [Console.printint_exact], [Graphic.screen_shows] (the
      frame buffer shows what these calls mean).  For a byte that is not in the
      font, font.c reads the kernel image around its table: those words are the
      parameter [around].
    - The network: [Net.icmp_reply_correct].  Start-up:
      [Loader.RelocateELF_correct] (the kernel is in memory where its program
      headers say), [MpUefi.mpinit_finds_cpus].
    - User programs: [Grep.match_correct] against a regular-expression
      semantics, [Grep.grep_prints_matching_lines], [Sh.parsecmd_total],
      [Sh.parse_print], [ShRun.parsecmd_typed], [ShRun.runcmd_wires] (pipes and redirections are wired
      as the line reads, and no stray process holds a pipe open),
      [UserProgs.wc_counts], [UserProgs.cat_files_correct],
      [UserProgs.ls_lists_directory],
      [Ulib.printf_renders] (numbers as the numerals of the Standard Library),
      [Ulib.atoi_printf].

    Where the code does not do what it means to, a lemma or an example shows it
    next to the component (as [Umalloc.malloc_huge_faults],
    [Net.first_frame_out_of_ring], [Ide.failed_read_looks_valid],
    [MpUefi.madt_unknown_type_hangs]).

    Counters the code bounds otherwise are plain [Z]: [f_ref] of an open file is
    at most [NPROC * NOFILE] plus one per call in progress, [i_ref] of an inode
    at most the number of open files, directories and calls that hold it.

    ** Not modelled

    EDK2 (third-party code) and the loader's queries of the firmware (graphics
    mode, memory map); assembly (entry, context switch, trap entry); main.c,
    which orders the calls at start-up; bootmain.c, the loader of the boot block,
    which the UEFI loader replaces; [panic], [consoleinit]
    and [procdump], which print and stop; mp.c, which is not linked; test
    programs (usertests, forktest, stressfs) and programs of a few system calls
    (init, zombie).  What memory-mapped devices do is a hypothesis of the
    theorems about their drivers, in the classes [Drive], [Hw] with its laws,
    [PciBus] and [Firmware]; the laws that a theorem of the list above uses have
    an instance next to it. *)

From Stdlib Require Export ZArith Lia Bool.
From stdpp Require Export base numbers list list_numbers gmap strings.

#[export] Set Default Goal Selector "!".
#[global] Open Scope Z_scope.

(** [dlia]: linear arithmetic with division and remainder by constants. *)
Ltac dlia := Z.to_euclidean_division_equations; lia.
Ltac dnia := Z.to_euclidean_division_equations; nia.

(** ** Machine integers

    The kernel is built with -m32: [int] and [uint] are 32 bits wide, [short]
    16 and [char] 8.  A value of such a type is a [Z] in its range; the
    functions below are the conversions C inserts. *)

Definition u8 (x : Z) : Z := x mod 256.
Definition u16 (x : Z) : Z := x mod 65536.
Definition u32 (x : Z) : Z := x mod 4294967296.
Definition i32 (x : Z) : Z := (x + 2147483648) mod 4294967296 - 2147483648.
Definition i16 (x : Z) : Z := (x + 32768) mod 65536 - 32768.
Definition i8 (x : Z) : Z := (x + 128) mod 256 - 128.

Definition is_u8 (x : Z) : Prop := 0 <= x < 256.
Definition is_u16 (x : Z) : Prop := 0 <= x < 65536.
Definition is_u32 (x : Z) : Prop := 0 <= x < 4294967296.

Lemma u8_range x : 0 <= u8 x < 256.
Proof. unfold u8. dlia. Qed.

Lemma u16_range x : 0 <= u16 x < 65536.
Proof. unfold u16. dlia. Qed.

Lemma u32_range x : 0 <= u32 x < 4294967296.
Proof. unfold u32. dlia. Qed.

Lemma u8_id x : 0 <= x < 256 → u8 x = x.
Proof. apply Z.mod_small. Qed.

Lemma u16_id x : 0 <= x < 65536 → u16 x = x.
Proof. apply Z.mod_small. Qed.

Lemma u32_id x : 0 <= x < 4294967296 → u32 x = x.
Proof. apply Z.mod_small. Qed.

Lemma i32_id x : -2147483648 <= x < 2147483648 → i32 x = x.
Proof. unfold i32. dlia. Qed.

Lemma i32_u32 x : i32 (u32 x) = i32 x.
Proof. unfold i32, u32. dlia. Qed.

Lemma u32_i32 x : u32 (i32 x) = u32 x.
Proof. unfold i32, u32. dlia. Qed.

(** ** Outcomes

    A kernel function either returns a value in a new state, calls [panic]
    with a message, touches memory outside the object it names, sleeps on
    something nobody else in the model can signal, or exhausts the loop bound
    of the model. *)

Inductive outcome (S A : Type) : Type :=
| Ret (a : A) (s : S)
| Panic (msg : string)
| Fault
| Block
| Diverge.
Arguments Ret {S A} a s.
Arguments Panic {S A} msg.
Arguments Fault {S A}.
Arguments Block {S A}.
Arguments Diverge {S A}.

Definition M (S A : Type) : Type := S → outcome S A.

#[export] Instance M_ret (S : Type) : MRet (M S) := λ A a s, Ret a s.

#[export] Instance M_bind (S : Type) : MBind (M S) := λ A B f m s,
  match m s with
  | Ret a s' => f a s'
  | Panic msg => Panic msg
  | Fault => Fault
  | Block => Block
  | Diverge => Diverge
  end.

Section monad.
Context {S : Type}.

Definition get : M S S := λ s, Ret s s.
Definition gets {A} (f : S → A) : M S A := λ s, Ret (f s) s.
Definition modify (f : S → S) : M S unit := λ s, Ret tt (f s).
Definition panic {A} (msg : string) : M S A := λ _, Panic msg.
Definition fault {A} : M S A := λ _, Fault.
Definition wait_forever {A} : M S A := λ _, Block.
Definition diverge {A} : M S A := λ _, Diverge.
Definition when (c : bool) (m : M S unit) : M S unit :=
  if c then m else mret tt.
Definition of_option {A} (o : option A) : M S A :=
  match o with Some a => mret a | None => fault end.
End monad.

(** [for(i = i0; n more times; i++) body(i)]. *)
Fixpoint for_ {S} (n i : nat) (body : nat → M S unit) : M S unit :=
  match n with
  | O => mret tt
  | Datatypes.S n => body i ;; for_ n (Datatypes.S i) body
  end.

(** Total correctness: [wp m Q s] says [m] returns from [s], without a panic,
    a fault, a block or an exhausted bound, in a state that satisfies [Q]. *)
Definition wp {S A} (m : M S A) (Q : A → S → Prop) (s : S) : Prop :=
  match m s with Ret a s' => Q a s' | _ => False end.

Section wp.
Context {S : Type}.

Lemma wp_elim {A} (m : M S A) Q s :
  wp m Q s ↔ ∃ a s', m s = Ret a s' ∧ Q a s'.
Proof.
  unfold wp. split.
  - destruct (m s) as [a s'| | | |]; [|done..]. eauto.
  - by intros (a & s' & -> & HQ).
Qed.

Lemma wp_intro {A} (m : M S A) (Q : A → S → Prop) s a s' :
  m s = Ret a s' → Q a s' → wp m Q s.
Proof. intros H HQ. unfold wp. by rewrite H. Qed.

Lemma wp_mono {A} (m : M S A) (P Q : A → S → Prop) s :
  wp m P s → (∀ a s', P a s' → Q a s') → wp m Q s.
Proof. unfold wp. intros HP HPQ. destruct (m s); eauto. Qed.

Lemma wp_ret {A} (a : A) (Q : A → S → Prop) s : wp (mret a) Q s ↔ Q a s.
Proof. done. Qed.

Lemma wp_bind {A B} (m : M S A) (f : A → M S B) Q s :
  wp (m ≫= f) Q s ↔ wp m (λ a s', wp (f a) Q s') s.
Proof. unfold wp, mbind, M_bind. by destruct (m s). Qed.

Lemma wp_get (Q : S → S → Prop) s : wp get Q s ↔ Q s s.
Proof. done. Qed.

Lemma wp_gets {A} (f : S → A) (Q : A → S → Prop) s : wp (gets f) Q s ↔ Q (f s) s.
Proof. done. Qed.

Lemma wp_modify (f : S → S) Q s : wp (modify f) Q s ↔ Q tt (f s).
Proof. done. Qed.

Lemma wp_if {A} (c : bool) (m1 m2 : M S A) Q s :
  wp (if c then m1 else m2) Q s ↔ if c then wp m1 Q s else wp m2 Q s.
Proof. by destruct c. Qed.

Lemma wp_when (c : bool) (m : M S unit) Q s :
  wp (when c m) Q s ↔ if c then wp m Q s else Q tt s.
Proof. by destruct c. Qed.

Lemma wp_of_option {A} (o : option A) a (Q : A → S → Prop) s :
  o = Some a → Q a s → wp (of_option o) Q s.
Proof. by intros ->. Qed.

Lemma wp_for (I : nat → S → Prop) (body : nat → M S unit) n i s :
  I i s →
  (∀ j t, (i <= j < i + n)%nat → I j t → wp (body j) (λ _, I (Datatypes.S j)) t) →
  wp (for_ n i body) (λ _, I (i + n)%nat) s.
Proof.
  revert i s. induction n as [|n IH]; intros i s Hs Hb; simpl.
  { rewrite wp_ret. by rewrite Nat.add_0_r. }
  rewrite wp_bind. apply (wp_mono _ _ _ _ (Hb i s ltac:(lia) Hs)). intros _ t Ht.
  rewrite <- Nat.add_succ_comm. apply IH; [done|].
  intros j t' Hj. apply Hb. lia.
Qed.

Lemma bind_Ret {A B} (m : M S A) (f : A → M S B) s a s' :
  m s = Ret a s' → (m ≫= f) s = f a s'.
Proof. intros H. unfold mbind, M_bind. by rewrite H. Qed.

Lemma bind_inv {A B} (m : M S A) (f : A → M S B) s b s' :
  (m ≫= f) s = Ret b s' → ∃ a t, m s = Ret a t ∧ f a t = Ret b s'.
Proof. unfold mbind, M_bind. destruct (m s); [|done..]. eauto. Qed.
End wp.

(** Symbolic execution of monadic code under [wp]. *)
Ltac wp_step :=
  match goal with
  | |- wp (_ ≫= _) _ _ => rewrite wp_bind
  | |- wp (mret _) _ _ => rewrite wp_ret
  | |- wp get _ _ => rewrite wp_get
  | |- wp (gets _) _ _ => rewrite wp_gets
  | |- wp (modify _) _ _ => rewrite wp_modify
  | |- wp (when _ _) _ _ => rewrite wp_when
  end; cbn beta.
Ltac wp_steps := repeat wp_step.

(** Changing a list at an index that is in range. *)
Lemma alter_insert {A} (f : A → A) (l : list A) i x : l !! i = Some x → alter f i l = <[i := f x]> l.
Proof.
  intros Hi. apply list_eq. intros j. destruct (decide (i = j)) as [<-|Hne].
  - rewrite list_lookup_alter_eq, Hi, list_lookup_insert_eq; [done|]. by eapply lookup_lt_Some.
  - by rewrite list_lookup_alter_ne, list_lookup_insert_ne.
Qed.

Lemma alter_alter_insert {A} (g g' : A → A) i (l : list A) x :
  l !! i = Some x → alter g' i (alter g i l) = <[i := g' (g x)]> l.
Proof.
  intros Hi. rewrite (alter_insert g l i x Hi), (alter_insert g' _ i (g x)), list_insert_insert_eq; [done|].
  apply list_lookup_insert_eq. by eapply lookup_lt_Some.
Qed.

(** Numbers that share no bit add. *)
Lemma lor_low x n y : 0 <= n → 0 <= y < 2 ^ n → Z.lor (Z.shiftl x n) y = x * 2 ^ n + y.
Proof.
  intros Hn Hy. rewrite <- Z.shiftl_mul_pow2 by done.
  assert (H0 : Z.land (Z.shiftl x n) y = 0).
  { apply Z.bits_inj'. intros k Hk. rewrite Z.land_spec, Z.bits_0.
    destruct (decide (k < n)); [by rewrite Z.shiftl_spec_low by lia|].
    destruct (decide (y = 0)) as [->|]; [by rewrite Z.bits_0, andb_false_r|].
    rewrite (Z.bits_above_log2 y), andb_false_r; [done|lia|].
    assert (Z.log2 y < n) by (apply Z.log2_lt_pow2; lia). lia. }
  by rewrite Z.add_nocarry_lxor, Z.lxor_lor.
Qed.

(** ** Bytes and byte buffers

    A block, a packet or a string buffer is a list of bytes; a field of a C
    structure stored in it is a slice read or written little-endian. *)

Fixpoint le_bytes (n : nat) (z : Z) : list Z :=
  match n with
  | O => []
  | Datatypes.S n => z mod 256 :: le_bytes n (z / 256)
  end.

Fixpoint le_val (l : list Z) : Z :=
  match l with
  | [] => 0
  | b :: l => b + 256 * le_val l
  end.

Definition slice (off n : nat) (l : list Z) : list Z := take n (drop off l).
Definition splice (off : nat) (new l : list Z) : list Z :=
  take off l ++ new ++ drop (off + length new) l.
Definition get_le (off n : nat) (l : list Z) : Z := le_val (slice off n l).
Definition put_le (off n : nat) (v : Z) (l : list Z) : list Z :=
  splice off (le_bytes n v) l.
Definition byte_at (l : list Z) (i : nat) : Z := default 0 (l !! i).

Abbreviation bytes_ok := (Forall is_u8).

Lemma le_bytes_length n z : length (le_bytes n z) = n.
Proof. revert z. induction n; simpl; auto. Qed.

Lemma le_bytes_ok n z : bytes_ok (le_bytes n z).
Proof.
  revert z. induction n; intros z; simpl; constructor; [|done].
  unfold is_u8. dlia.
Qed.

Lemma le_val_bytes n z : le_val (le_bytes n z) = z mod 256 ^ Z.of_nat n.
Proof.
  revert z. induction n as [|n IH]; intros z; simpl.
  { rewrite Z.mod_1_r. done. }
  rewrite IH, Nat2Z.inj_succ, Z.pow_succ_r by lia.
  rewrite Z.rem_mul_r by lia. lia.
Qed.

Lemma le_val_range l : bytes_ok l → 0 <= le_val l < 256 ^ Z.of_nat (length l).
Proof.
  induction 1 as [|b l Hb _ IH]; simpl; [lia|].
  rewrite Nat2Z.inj_succ, Z.pow_succ_r by lia. unfold is_u8 in Hb. lia.
Qed.

Lemma le_bytes_val l : bytes_ok l → le_bytes (length l) (le_val l) = l.
Proof.
  induction 1 as [|b l Hb _ IH]; [done|]. cbn [length le_bytes le_val].
  unfold is_u8 in Hb.
  replace ((b + 256 * le_val l) mod 256) with b by dlia.
  replace ((b + 256 * le_val l) / 256) with (le_val l) by dlia.
  by rewrite IH.
Qed.

Lemma le_bytes_inj n a b :
  0 <= a < 256 ^ Z.of_nat n → 0 <= b < 256 ^ Z.of_nat n →
  le_bytes n a = le_bytes n b → a = b.
Proof.
  intros Ha Hb H%(f_equal le_val). rewrite !le_val_bytes in H.
  by rewrite !Z.mod_small in H.
Qed.

Lemma slice_length off n l : (off + n <= length l)%nat → length (slice off n l) = n.
Proof. intros. unfold slice. rewrite length_take, length_drop. lia. Qed.

Lemma slice_ok off n l : bytes_ok l → bytes_ok (slice off n l).
Proof. intros. unfold slice. by apply Forall_take, Forall_drop. Qed.

Lemma slice_all l : slice 0 (length l) l = l.
Proof. unfold slice. by rewrite drop_0, firstn_all. Qed.

Lemma lookup_slice off n l i :
  (i < n)%nat → slice off n l !! i = l !! (off + i)%nat.
Proof. intros. unfold slice. by rewrite lookup_take_lt, lookup_drop. Qed.

Lemma slice_slice off n off' n' l :
  (off' + n' <= n)%nat → slice off' n' (slice off n l) = slice (off + off') n' l.
Proof.
  intros. unfold slice. rewrite skipn_firstn_comm, take_take, drop_drop.
  f_equal. lia.
Qed.

Lemma splice_length off new l :
  (off + length new <= length l)%nat → length (splice off new l) = length l.
Proof.
  intros. unfold splice. rewrite !length_app, length_take, length_drop. lia.
Qed.

Lemma splice_ok off new l : bytes_ok new → bytes_ok l → bytes_ok (splice off new l).
Proof.
  intros. unfold splice. rewrite !Forall_app. eauto using Forall_take, Forall_drop.
Qed.

Lemma lookup_splice_in off new l i :
  (off <= length l)%nat → (off <= i < off + length new)%nat →
  splice off new l !! i = new !! (i - off)%nat.
Proof.
  intros. unfold splice. rewrite lookup_app_r by (rewrite length_take; lia).
  rewrite length_take, lookup_app_l by lia. f_equal. lia.
Qed.

Lemma lookup_splice_out off new l i :
  (off + length new <= length l)%nat → (i < off ∨ off + length new <= i)%nat →
  splice off new l !! i = l !! i.
Proof.
  intros ? [?|?]; unfold splice.
  - rewrite lookup_app_l by (rewrite length_take; lia). by rewrite lookup_take_lt.
  - rewrite lookup_app_r by (rewrite length_take; lia). rewrite length_take.
    rewrite lookup_app_r by lia. rewrite lookup_drop. f_equal. lia.
Qed.

Lemma byte_at_splice off new l i :
  (off + length new <= length l)%nat →
  byte_at (splice off new l) i =
  if decide (off <= i < off + length new)%nat then byte_at new (i - off) else byte_at l i.
Proof.
  intros Hl. unfold byte_at. case_decide; [rewrite lookup_splice_in by lia; done|]. by rewrite lookup_splice_out by lia.
Qed.

Lemma slice_splice_same off new l :
  (off + length new <= length l)%nat → slice off (length new) (splice off new l) = new.
Proof.
  intros. unfold slice, splice. rewrite drop_app_length' by (rewrite length_take; lia).
  by rewrite take_app_length.
Qed.

Lemma slice_splice_other off new off' n l :
  (off + length new <= length l)%nat →
  (off' + n <= off ∨ off + length new <= off')%nat →
  slice off' n (splice off new l) = slice off' n l.
Proof.
  intros Hl Hd. apply list_eq. intros i.
  destruct (decide (i < n)%nat) as [Hi|Hi].
  - rewrite !lookup_slice by done. apply lookup_splice_out; lia.
  - unfold slice. by rewrite !lookup_take_ge by lia.
Qed.

Lemma splice_slice_id off n l : (off + n <= length l)%nat → splice off (slice off n l) l = l.
Proof.
  intros. unfold splice. rewrite slice_length by done. unfold slice.
  rewrite <- (take_drop off l) at 4. f_equal.
  rewrite <- (take_drop n (drop off l)) at 2. by rewrite drop_drop.
Qed.

Lemma get_put_same off n v l :
  (off + n <= length l)%nat → get_le off n (put_le off n v l) = v mod 256 ^ Z.of_nat n.
Proof.
  intros. unfold get_le, put_le.
  rewrite <- (le_bytes_length n v) at 1.
  rewrite slice_splice_same by by rewrite le_bytes_length.
  apply le_val_bytes.
Qed.

Lemma get_put_other off n v off' n' l :
  (off + n <= length l)%nat → (off' + n' <= off ∨ off + n <= off')%nat →
  get_le off' n' (put_le off n v l) = get_le off' n' l.
Proof.
  intros. unfold get_le, put_le. f_equal.
  apply slice_splice_other; rewrite le_bytes_length; lia.
Qed.

Lemma put_le_length off n v l :
  (off + n <= length l)%nat → length (put_le off n v l) = length l.
Proof. intros. apply splice_length. by rewrite le_bytes_length. Qed.

Lemma put_le_ok off n v l : bytes_ok l → bytes_ok (put_le off n v l).
Proof. intros. apply splice_ok; auto using le_bytes_ok. Qed.

Lemma get_le_range off n l :
  bytes_ok l → (off + n <= length l)%nat → 0 <= get_le off n l < 256 ^ Z.of_nat n.
Proof.
  intros Hl Hn. pose proof (le_val_range _ (slice_ok off n l Hl)) as H.
  by rewrite slice_length in H.
Qed.

(** ** Shared list facts *)

Lemma list_lookup_insert_case {A} (l : list A) i j x :
  (i < length l)%nat → <[i:=x]> l !! j = if decide (i = j) then Some x else l !! j.
Proof.
  intros. case_decide; subst.
  - by rewrite list_lookup_insert_eq.
  - by rewrite list_lookup_insert_ne.
Qed.

Create HintDb xv6.
#[export] Hint Resolve le_bytes_ok slice_ok splice_ok put_le_ok u8_range u16_range
  u32_range : xv6.
#[export] Hint Rewrite le_bytes_length put_le_length splice_length slice_length
  using (rewrite ?le_bytes_length; lia) : xv6_len.
