(* ===== verification/Param.v ===== *)
(** * Constants of the kernel headers

    [param.h], [fs.h], [buf.h], [stat.h], [mmu.h] and [memlayout.h]: table
    sizes, the disk layout and the address-space layout, with the macros that
    compute with them. *)

From S2P Require Import Prelude.

(** ** param.h *)

Definition NPROC : nat := 64.
Definition KSTACKSIZE : Z := 4096.
Definition NCPU : nat := 4.
Definition NOFILE : nat := 16.
Definition NFILE : nat := 100.
Definition NINODE : nat := 50.
Definition NDEV : Z := 10.
Definition ROOTDEV : Z := 1.
Definition MAXARG : Z := 32.
Definition MAXOPBLOCKS : Z := 10.
Definition LOGSIZE : Z := MAXOPBLOCKS * 3.
Definition NBUF : nat := Z.to_nat (MAXOPBLOCKS * 3).
Definition FSSIZE : Z := 1000.

(** ** fs.h *)

Definition ROOTINO : Z := 1.
Definition BSIZE : Z := 512.
Definition NDIRECT : Z := 12.
Definition NINDIRECT : Z := BSIZE / 4.
Definition MAXFILE : Z := NDIRECT + NINDIRECT.
Definition DIRSIZ : nat := 14.
(** [sizeof(struct dinode)]: four shorts, a uint and NDIRECT+1 uints. *)
Definition sizeof_dinode : Z := 64.
(** [sizeof(struct dirent)]: a ushort and DIRSIZ chars. *)
Definition sizeof_dirent : Z := 16.
Definition IPB : Z := BSIZE / sizeof_dinode.
Definition BPB : Z := BSIZE * 8.

Record superblock := Superblock {
  sb_size : Z;
  sb_nblocks : Z;
  sb_ninodes : Z;
  sb_nlog : Z;
  sb_logstart : Z;
  sb_inodestart : Z;
  sb_bmapstart : Z;
}.

(** [IBLOCK(i, sb)] and [BBLOCK(b, sb)]. *)
Definition IBLOCK (i : Z) (sb : superblock) : Z := u32 (i / IPB + sb_inodestart sb).
Definition BBLOCK (b : Z) (sb : superblock) : Z := u32 (b / BPB + sb_bmapstart sb).

(** ** buf.h and stat.h *)

Definition B_VALID : Z := 2.
Definition B_DIRTY : Z := 4.
Definition T_DIR : Z := 1.
Definition T_FILE : Z := 2.
Definition T_DEV : Z := 3.

(** ** mmu.h and memlayout.h *)

Definition PGSIZE : Z := 4096.
Definition EXTMEM : Z := 0x100000.
Definition PHYSTOP : Z := 0x20000000.
Definition DEVSPACE : Z := 0xFE000000.
Definition KERNBASE : Z := 0x80000000.
Definition KERNLINK : Z := KERNBASE + EXTMEM.
Definition PCI_BAR_BASE : Z := 0x80000000.
Definition PCI_VP_OFFSET : Z := 0x40000000.

Definition V2P (a : Z) : Z := u32 (a - KERNBASE).
Definition P2V (a : Z) : Z := u32 (a + KERNBASE).
Definition PGROUNDUP (sz : Z) : Z := Z.land (u32 (sz + PGSIZE - 1)) (u32 (Z.lnot (PGSIZE - 1))).
Definition PGROUNDDOWN (a : Z) : Z := Z.land (u32 a) (u32 (Z.lnot (PGSIZE - 1))).

Lemma land_page_mask x : 0 <= x < 4294967296 → Z.land x (u32 (Z.lnot (PGSIZE - 1))) = x - x mod 4096.
Proof.
  intros Hx. change (u32 (Z.lnot (PGSIZE - 1))) with (Z.shiftl (Z.ones 20) 12).
  assert (H : Z.land x (Z.shiftl (Z.ones 20) 12) = Z.shiftl (Z.land (Z.shiftr x 12) (Z.ones 20)) 12).
  { apply Z.bits_inj'. intros n Hn.
    rewrite Z.land_spec, !Z.shiftl_spec by done.
    destruct (decide (n < 12)).
    - rewrite !(Z.testbit_neg_r _ (n - 12)) by lia. by rewrite andb_false_r.
    - rewrite Z.land_spec, Z.shiftr_spec by lia. do 2 f_equal. lia. }
  rewrite H, Z.land_ones, Z.shiftr_div_pow2, Z.shiftl_mul_pow2 by lia.
  change (2 ^ 12) with 4096. change (2 ^ 20) with 1048576. dlia.
Qed.

Lemma PGROUNDUP_spec sz :
  0 <= sz < 4294967296 - 4095 → PGROUNDUP sz = (sz + 4095) / 4096 * 4096.
Proof.
  intros. unfold PGROUNDUP. rewrite land_page_mask by apply u32_range.
  rewrite u32_id by (unfold PGSIZE; lia). unfold PGSIZE. dlia.
Qed.

Lemma PGROUNDDOWN_spec a : 0 <= a < 4294967296 → PGROUNDDOWN a = a / 4096 * 4096.
Proof.
  intros. unfold PGROUNDDOWN. rewrite land_page_mask by apply u32_range.
  rewrite u32_id by done. dlia.
Qed.
