(* ===== verification/Bio.v ===== *)
(** * The buffer cache: bio.c, sleeplock.c, memide.c

    One kernel thread's view of the cache: the buffers with their reference
    counts, flags, sleep locks and the doubly linked LRU list through
    [prev]/[next], over a block driver.  [struct buf] pointers are indices;
    index [NBUF] is [bcache.head], which follows [bcache.buf] in memory.
    A critical section of [bcache.lock] is one atomic step; sleep locks are
    kept because they are held across calls. *)

From S2P Require Import Prelude Param.

(** ** Sleep locks (sleeplock.c) *)

Record sleeplock := Sleeplock { sl_locked : bool; sl_pid : Z }.

Definition initsleeplock : sleeplock := Sleeplock false 0.

(** [acquiresleep] by the process [pid]; [None] when it has to sleep. *)
Definition acquiresleep (pid : Z) (lk : sleeplock) : option sleeplock :=
  if sl_locked lk then None else Some (Sleeplock true pid).

Definition releasesleep (lk : sleeplock) : sleeplock := Sleeplock false 0.

Definition holdingsleep (lk : sleeplock) : bool := sl_locked lk.

(** ** Buffers (buf.h) *)

Record buf := Buf {
  b_flags : Z;
  b_dev : Z;
  b_blockno : Z;
  b_lock : sleeplock;
  b_refcnt : Z;
  b_prev : nat;
  b_next : nat;
  b_data : list Z;
}.

Definition set_b_flags v b := Buf v (b_dev b) (b_blockno b) (b_lock b) (b_refcnt b) (b_prev b) (b_next b) (b_data b).
Definition set_b_lock v b := Buf (b_flags b) (b_dev b) (b_blockno b) v (b_refcnt b) (b_prev b) (b_next b) (b_data b).
Definition set_b_refcnt v b := Buf (b_flags b) (b_dev b) (b_blockno b) (b_lock b) v (b_prev b) (b_next b) (b_data b).
Definition set_b_prev v b := Buf (b_flags b) (b_dev b) (b_blockno b) (b_lock b) (b_refcnt b) v (b_next b) (b_data b).
Definition set_b_next v b := Buf (b_flags b) (b_dev b) (b_blockno b) (b_lock b) (b_refcnt b) (b_prev b) v (b_data b).
Definition set_b_data v b := Buf (b_flags b) (b_dev b) (b_blockno b) (b_lock b) (b_refcnt b) (b_prev b) (b_next b) v.
(** The assignments of [bget] that claim a buffer for a block. *)
Definition claim dev bno b := Buf 0 dev bno (b_lock b) 1 (b_prev b) (b_next b) (b_data b).

Definition dirty (b : buf) : bool := negb (Z.land (b_flags b) B_DIRTY =? 0).
Definition valid (b : buf) : bool := negb (Z.land (b_flags b) B_VALID =? 0).

(** ** The driver interface

    [iderw] of the linked driver (memide.c or ide.c); [blocks] is the platter,
    [past] the platters before each write so far, newest first, observed by
    the crash theorems only. *)

Class BlockDriver (D : Type) := {
  iderw : buf → D → outcome D buf;
  blocks : D → list (list Z);
  past : D → list (list (list Z));
  dwf : D → Prop;
}.

Definition blk `{BlockDriver D} (d : D) (n : Z) : list Z := blocks d !!! Z.to_nat n.
Definition block_ok (l : list Z) : Prop := length l = 512%nat ∧ bytes_ok l.
Definition in_disk `{BlockDriver D} (d : D) (n : Z) : Prop := 0 <= n < Z.of_nat (length (blocks d)).

Class BlockDriverOk (D : Type) `{BlockDriver D} := {
  blocks_ok d : dwf d → Forall block_ok (blocks d);
  iderw_read b d :
    dwf d → holdingsleep (b_lock b) = true → valid b = false → dirty b = false →
    b_dev b = 1 → in_disk d (b_blockno b) →
    ∃ d', iderw b d = Ret (set_b_flags (Z.lor (b_flags b) B_VALID) (set_b_data (blk d (b_blockno b)) b)) d' ∧
      dwf d' ∧ blocks d' = blocks d ∧ past d' = past d;
  iderw_write b d :
    dwf d → holdingsleep (b_lock b) = true → dirty b = true → b_dev b = 1 →
    in_disk d (b_blockno b) → block_ok (b_data b) →
    ∃ d', iderw b d = Ret (set_b_flags (Z.lor (Z.ldiff (b_flags b) B_DIRTY) B_VALID) b) d' ∧
      dwf d' ∧ blocks d' = <[Z.to_nat (b_blockno b) := b_data b]> (blocks d) ∧
      past d' = blocks d :: past d;
}.

(** ** The in-memory driver (memide.c)

    [memdisk] is the file-system image linked into the kernel, [disksize] its
    size in blocks. *)
Module Memide.

Record memide := Mk { memdisk : list Z; disksize : Z; history : list (list Z) }.

Definition ideinit (fs_img : list Z) : memide :=
  Mk fs_img (Z.of_nat (length fs_img) / BSIZE) [].

Definition iderw (b : buf) (d : memide) : outcome memide buf :=
  if negb (holdingsleep (b_lock b)) then Panic "iderw: buf not locked" else
  if Z.land (b_flags b) (Z.lor B_VALID B_DIRTY) =? B_VALID then Panic "iderw: nothing to do" else
  if negb (b_dev b =? 1) then Panic "iderw: request not for disk 1" else
  if disksize d <=? b_blockno b then Panic "iderw: block out of range" else
  let p := Z.to_nat (b_blockno b * BSIZE) in
  if dirty b then
    let b := set_b_flags (Z.ldiff (b_flags b) B_DIRTY) b in
    let d := Mk (splice p (b_data b) (memdisk d)) (disksize d) (memdisk d :: history d) in
    Ret (set_b_flags (Z.lor (b_flags b) B_VALID) b) d
  else
    let b := set_b_data (slice p (Z.to_nat BSIZE) (memdisk d)) b in
    Ret (set_b_flags (Z.lor (b_flags b) B_VALID) b) d.

(** The image seen as blocks. *)
Definition chunks (mem : list Z) : list (list Z) :=
  (λ i, slice (i * 512) 512 mem) <$> seq 0 (length mem / 512).

#[export] Instance driver : BlockDriver memide := {
  iderw := iderw;
  blocks d := chunks (memdisk d);
  past d := chunks <$> history d;
  dwf d := disksize d = Z.of_nat (length (memdisk d)) / BSIZE ∧ bytes_ok (memdisk d);
}.

Lemma lookup_chunks (mem : list Z) n :
  (n < length mem / 512)%nat → chunks mem !! n = Some (slice (n * 512) 512 mem).
Proof.
  intros. unfold chunks. rewrite list_lookup_fmap, lookup_seq_lt by done. done.
Qed.

Lemma chunks_length (mem : list Z) : length (chunks mem) = (length mem / 512)%nat.
Proof. unfold chunks. by rewrite length_fmap, length_seq. Qed.

Lemma chunk_in (mem : list Z) n : (n < length mem / 512)%nat → (n * 512 + 512 <= length mem)%nat.
Proof. intros. pose proof (Nat.mul_div_le (length mem) 512). lia. Qed.

Lemma chunks_ok (mem : list Z) : bytes_ok mem → Forall block_ok (chunks mem).
Proof.
  intros Hm. apply Forall_lookup_2. intros n l Hl.
  pose proof (lookup_lt_Some _ _ _ Hl) as Hn. rewrite chunks_length in Hn.
  rewrite lookup_chunks in Hl by done. simplify_eq.
  split; [apply slice_length, chunk_in, Hn | by apply slice_ok].
Qed.

Lemma chunks_splice (mem : list Z) n (new : list Z) :
  (n < length mem / 512)%nat → length new = 512%nat →
  chunks (splice (n * 512) new mem) = <[n:=new]> (chunks mem).
Proof.
  intros Hn Hnew. pose proof (chunk_in _ _ Hn).
  assert (Hl : length (splice (n * 512) new mem) = length mem) by (apply splice_length; lia).
  apply list_eq_same_length with (length mem / 512)%nat; rewrite ?length_insert, ?chunks_length, ?Hl; auto.
  intros i x y Hi. rewrite lookup_chunks by (by rewrite Hl).
  rewrite list_lookup_insert_case by (by rewrite chunks_length). intros Hx Hy. simplify_eq.
  case_decide; subst.
  - simplify_eq. rewrite <- Hnew at 2. apply slice_splice_same. lia.
  - rewrite lookup_chunks in Hy by done. simplify_eq.
    apply slice_splice_other; lia.
Qed.

#[export] Instance driver_ok : BlockDriverOk memide.
Proof.
  assert (Hsz : ∀ d : memide, dwf d → ∀ n, in_disk d n → (disksize d <=? n) = false ∧
            (Z.to_nat n < length (memdisk d) / 512)%nat).
  { intros d [Hd _] n Hn. unfold in_disk in Hn. simpl in Hn. rewrite chunks_length in Hn.
    rewrite Hd. unfold BSIZE. rewrite Nat2Z.inj_div in Hn. split; [lia|].
    apply Nat2Z.inj_lt. rewrite Z2Nat.id, Nat2Z.inj_div by lia. lia. }
  split.
  - intros d [_ Hd]. by apply chunks_ok.
  - intros b d Hd Hlk Hv Hdi Hdev Hin. destruct (Hsz d Hd _ Hin) as [Hge Hlt].
    exists d. split_and!; [|done..]. simpl. unfold iderw. rewrite Hlk, Hdev, Hge, Hdi. simpl.
    assert (Hn : Z.land (b_flags b) (Z.lor B_VALID B_DIRTY) =? B_VALID = false).
    { unfold valid, dirty in *. rewrite Z.land_lor_distr_r.
      apply negb_false_iff, Z.eqb_eq in Hv, Hdi. by rewrite Hv, Hdi. }
    rewrite Hn. do 3 f_equal. unfold blk. simpl.
    rewrite list_lookup_total_alt, lookup_chunks by done. simpl. unfold in_disk in Hin.
    f_equal; unfold BSIZE; lia.
  - intros b d Hd Hlk Hdi Hdev Hin [Hlen Hok]. destruct (Hsz d Hd _ Hin) as [Hge Hlt].
    simpl. unfold iderw. rewrite Hlk, Hdev, Hge, Hdi. simpl.
    assert (Hn : Z.land (b_flags b) (Z.lor B_VALID B_DIRTY) =? B_VALID = false).
    { unfold dirty in Hdi. apply Z.eqb_neq. intros Hc.
      apply negb_true_iff, Z.eqb_neq in Hdi. apply Hdi.
      rewrite <- (Z.land_diag B_DIRTY).
      replace (Z.land B_DIRTY B_DIRTY) with (Z.land (Z.lor B_VALID B_DIRTY) B_DIRTY) by done.
      rewrite Z.land_assoc, Hc. done. }
    rewrite Hn. eexists. split; [done|]. unfold in_disk in Hin.
    replace (Z.to_nat (b_blockno b * BSIZE)) with (Z.to_nat (b_blockno b) * 512)%nat
      by (unfold BSIZE; lia).
    pose proof (chunk_in _ _ Hlt). destruct Hd as [Hd1 Hd2]. simpl. split_and!.
    + rewrite splice_length by lia. done.
    + by apply splice_ok.
    + by apply chunks_splice.
    + done.
Qed.
End Memide.

(** ** The cache (bio.c) *)

Record bstate (D : Type) := BState { bufs : list buf; dk : D; mypid : Z }.
Arguments BState {D} bufs dk mypid.
Arguments bufs {D} b.
Arguments dk {D} b.
Arguments mypid {D} b.

(** Zero-initialised storage: [bcache.buf] and, last, [bcache.head]. *)
Definition bcache0 : list buf :=
  replicate (S NBUF) (Buf 0 0 0 (Sleeplock false 0) 0 0 0 (replicate 512 0)).

Section bcache.
Context {D : Type} `{BlockDriver D}.

Definition getbuf (i : nat) : M (bstate D) buf :=
  λ s, match bufs s !! i with Some b => Ret b s | None => Fault end.

Definition setbuf (i : nat) (f : buf → buf) : M (bstate D) unit :=
  λ s, match bufs s !! i with
       | Some b => Ret tt (BState (<[i := f b]> (bufs s)) (dk s) (mypid s))
       | None => Fault
       end.

Definition lockbuf (i : nat) : M (bstate D) unit :=
  λ s, match bufs s !! i with
       | Some b =>
           match acquiresleep (mypid s) (b_lock b) with
           | Some lk => Ret tt (BState (<[i := set_b_lock lk b]> (bufs s)) (dk s) (mypid s))
           | None => Block
           end
       | None => Fault
       end.

(** [iderw(b)] through the driver. *)
Definition call_iderw (i : nat) : M (bstate D) unit :=
  λ s, match bufs s !! i with
       | Some b =>
           match iderw b (dk s) with
           | Ret b' d' => Ret tt (BState (<[i := b']> (bufs s)) d' (mypid s))
           | Panic msg => Panic msg
           | Fault => Fault
           | Block => Block
           | Diverge => Diverge
           end
       | None => Fault
       end.

Definition binit : M (bstate D) unit :=
  setbuf NBUF (set_b_prev NBUF) ;;
  setbuf NBUF (set_b_next NBUF) ;;
  for_ NBUF 0 (λ b,
    h ← getbuf NBUF;
    setbuf b (set_b_next (b_next h)) ;;
    setbuf b (set_b_prev NBUF) ;;
    setbuf b (set_b_lock initsleeplock) ;;
    setbuf (b_next h) (set_b_prev b) ;;
    setbuf NBUF (set_b_next b)).

(** The first loop of [bget], over [next]. *)
Fixpoint bget_cached (fuel : nat) (dev bno : Z) (i : nat) : M (bstate D) (option nat) :=
  match fuel with
  | O => diverge
  | S fuel =>
      if Nat.eqb i NBUF then mret None else
      b ← getbuf i;
      if (b_dev b =? dev) && (b_blockno b =? bno) then mret (Some i)
      else bget_cached fuel dev bno (b_next b)
  end.

(** The second loop of [bget], over [prev]. *)
Fixpoint bget_unused (fuel : nat) (i : nat) : M (bstate D) (option nat) :=
  match fuel with
  | O => diverge
  | S fuel =>
      if Nat.eqb i NBUF then mret None else
      b ← getbuf i;
      if (b_refcnt b =? 0) && (Z.land (b_flags b) B_DIRTY =? 0) then mret (Some i)
      else bget_unused fuel (b_prev b)
  end.

Definition bget (dev bno : Z) : M (bstate D) nat :=
  h ← getbuf NBUF;
  r ← bget_cached (S NBUF) dev bno (b_next h);
  match r with
  | Some i =>
      setbuf i (λ b, set_b_refcnt (u32 (b_refcnt b + 1)) b) ;;
      lockbuf i ;;
      mret i
  | None =>
      r ← bget_unused (S NBUF) (b_prev h);
      match r with
      | Some i =>
          setbuf i (claim dev bno) ;;
          lockbuf i ;;
          mret i
      | None => panic "bget: no buffers"
      end
  end.

Definition bread (dev bno : Z) : M (bstate D) nat :=
  i ← bget dev bno;
  b ← getbuf i;
  (if Z.land (b_flags b) B_VALID =? 0 then call_iderw i else mret tt) ;;
  mret i.

Definition bwrite (i : nat) : M (bstate D) unit :=
  b ← getbuf i;
  if negb (holdingsleep (b_lock b)) then panic "bwrite" else
  setbuf i (λ b, set_b_flags (Z.lor (b_flags b) B_DIRTY) b) ;;
  call_iderw i.

(** The pointer assignments of [brelse]: move [i] to the head of the list. *)
Definition relink (i : nat) : M (bstate D) unit :=
  b ← getbuf i;
  setbuf (b_next b) (set_b_prev (b_prev b)) ;;
  b ← getbuf i;
  setbuf (b_prev b) (set_b_next (b_next b)) ;;
  h ← getbuf NBUF;
  setbuf i (set_b_next (b_next h)) ;;
  setbuf i (set_b_prev NBUF) ;;
  h ← getbuf NBUF;
  setbuf (b_next h) (set_b_prev i) ;;
  setbuf NBUF (set_b_next i).

Definition brelse (i : nat) : M (bstate D) unit :=
  b ← getbuf i;
  if negb (holdingsleep (b_lock b)) then panic "brelse" else
  setbuf i (λ b, set_b_lock (releasesleep (b_lock b)) b) ;;
  setbuf i (λ b, set_b_refcnt (u32 (b_refcnt b - 1)) b) ;;
  b ← getbuf i;
  if b_refcnt b =? 0 then
    (* no one is waiting for it. *)
    relink i
  else mret tt.

(** A client's accesses to [b->data] and [b->flags]. *)
Definition buf_data (i : nat) : M (bstate D) (list Z) :=
  b ← getbuf i; mret (b_data b).
Definition set_buf_data (i : nat) (v : list Z) : M (bstate D) unit :=
  setbuf i (set_b_data v).
(** [b->flags |= B_DIRTY] as [log_write] does it. *)
Definition pin (i : nat) : M (bstate D) unit :=
  setbuf i (λ b, set_b_flags (Z.lor (b_flags b) B_DIRTY) b).
End bcache.

(** ** The LRU list

    [lseg nx pv a l z]: following [nx] from [a] visits exactly the buffers [l]
    and then [z], and [pv] leads back the same way. *)

Fixpoint lseg (nx pv : nat → nat) (a : nat) (l : list nat) (z : nat) : Prop :=
  match l with
  | [] => nx a = z ∧ pv z = a
  | x :: l => nx a = x ∧ pv x = a ∧ lseg nx pv x l z
  end.

Definition fupd (f : nat → nat) (i v : nat) : nat → nat :=
  λ j, if Nat.eqb j i then v else f j.

Lemma fupd_eq f i v : fupd f i v i = v.
Proof. unfold fupd. by rewrite Nat.eqb_refl. Qed.

Lemma fupd_ne f i v j : j ≠ i → fupd f i v j = f j.
Proof. unfold fupd. intros. by destruct (Nat.eqb_spec j i). Qed.

Lemma lseg_app nx pv a l1 x l2 z :
  lseg nx pv a (l1 ++ x :: l2) z ↔ lseg nx pv a l1 x ∧ lseg nx pv x l2 z.
Proof. revert a. induction l1 as [|y l1 IH]; intros a; simpl; [naive_solver|]. rewrite IH. tauto. Qed.

Lemma lseg_ext nx pv nx' pv' a l z :
  (∀ i, i ∈ a :: l → nx' i = nx i) → (∀ i, i ∈ z :: l → pv' i = pv i) →
  lseg nx pv a l z → lseg nx' pv' a l z.
Proof.
  revert a. induction l as [|x l IH]; intros a Hn Hp; simpl.
  - rewrite Hn, Hp by set_solver. done.
  - intros (?&?&?). rewrite Hn, Hp by set_solver. split_and!; [done..|].
    apply IH; [set_solver..|done].
Qed.

(** The successor of [a] and the predecessor of [z] along a segment. *)
Lemma lseg_first nx pv a l z : lseg nx pv a l z → nx a = hd z l.
Proof. destruct l; simpl; naive_solver. Qed.

Lemma lseg_last nx pv a l z : lseg nx pv a l z → pv z = List.last l a.
Proof.
  revert a. induction l as [|x l IH]; intros a; simpl; [naive_solver|].
  intros (_&_&Hl). rewrite (IH _ Hl). destruct l; [done|]. simpl.
  clear. revert n. induction l; intros; [done|]. simpl. auto.
Qed.

Lemma last_cons_in (l : list nat) a : List.last l a ∈ a :: l.
Proof.
  revert a. induction l as [|x l IH]; intros a; simpl; [set_solver|].
  destruct l; [set_solver|]. specialize (IH a). set_solver.
Qed.

Lemma hd_in (l : list nat) z : hd z l ∈ z :: l.
Proof. destruct l; simpl; set_solver. Qed.

(** Taking [x] out of the ring through [h]. *)
Lemma lseg_unlink nx pv h l1 x l2 :
  NoDup (h :: l1 ++ x :: l2) → lseg nx pv h (l1 ++ x :: l2) h →
  lseg (fupd nx (pv x) (nx x)) (fupd pv (nx x) (pv x)) h (l1 ++ l2) h.
Proof.
  intros Hnd [H1 H2]%lseg_app.
  rewrite (lseg_last _ _ _ _ _ H1), (lseg_first _ _ _ _ _ H2).
  revert H1 H2 Hnd.
  destruct l1 as [|y l1 _] using rev_ind; destruct l2 as [|w l2]; simpl;
    rewrite ?List.last_last, ?app_nil_r; intros H1 H2 Hnd.
  - split; apply fupd_eq.
  - destruct H2 as (?&?&H2). rewrite !fupd_eq. split_and!; [done..|].
    eapply lseg_ext; [..|exact H2]; intros i Hi; apply fupd_ne;
      apply NoDup_cons in Hnd as [Hh Hnd]; apply NoDup_cons in Hnd as [Hx Hnd];
      apply NoDup_cons in Hnd as [Hw Hnd]; set_solver.
  - apply lseg_app in H1 as [H1 H1']. apply lseg_app. simpl. rewrite !fupd_eq.
    split; [|done]. eapply lseg_ext; [..|exact H1]; intros i Hi; apply fupd_ne;
      rewrite <- app_assoc in Hnd; apply NoDup_cons in Hnd as [Hh Hnd];
      apply NoDup_app in Hnd as (_ & Hd & _); set_solver.
  - apply lseg_app in H1 as [H1 H1']. destruct H2 as (?&?&H2).
    rewrite <- app_assoc. apply lseg_app. simpl. rewrite !fupd_eq.
    rewrite <- app_assoc in Hnd. apply NoDup_cons in Hnd as [Hh Hnd].
    apply NoDup_app in Hnd as (_ & Hd & Hnd). simpl in *.
    apply NoDup_cons in Hnd as [Hy Hnd]. apply NoDup_cons in Hnd as [Hx Hnd].
    apply NoDup_cons in Hnd as [Hw Hnd].
    split_and!; [|done..|].
    + eapply lseg_ext; [..|exact H1]; intros i Hi; apply fupd_ne; set_solver.
    + eapply lseg_ext; [..|exact H2]; intros i Hi; apply fupd_ne; set_solver.
Qed.

(** Putting [x] at the front of the ring through [h]. *)
Lemma lseg_link nx pv h x l :
  NoDup (h :: x :: l) → lseg nx pv h l h →
  lseg (fupd (fupd nx x (nx h)) h x) (fupd (fupd pv x h) (nx h) x) h (x :: l) h.
Proof.
  intros Hnd Hl. apply NoDup_cons in Hnd as [Hh Hnd]. apply NoDup_cons in Hnd as [Hx Hnd].
  pose proof (lseg_first _ _ _ _ _ Hl) as Hf. simpl.
  assert (Hxf : x ≠ nx h) by (rewrite Hf; destruct l; simpl; set_solver).
  rewrite fupd_eq, (fupd_ne _ (nx h) _ x), fupd_eq by done.
  split_and!; [done..|].
  destruct l as [|y l]; simpl in *.
  - rewrite fupd_ne, fupd_eq, Hf, fupd_eq by set_solver. done.
  - destruct Hl as (_ & Hp & Hl). rewrite fupd_ne, fupd_eq, Hf, fupd_eq by set_solver.
    split_and!; [done..|]. apply NoDup_cons in Hnd as [Hy Hnd].
    eapply lseg_ext; [..|exact Hl].
    + intros i Hi. rewrite !fupd_ne by set_solver. done.
    + intros i Hi. rewrite !fupd_ne by set_solver. done.
Qed.

(** ** What the cache holds

    [clookup bs n] is the buffer that caches block [n] of device 1. *)

Definition ckey (b : buf) : option Z := if b_dev b =? 1 then Some (b_blockno b) else None.

Definition clookup (bs : list buf) (n : Z) : option buf :=
  snd <$> list_find (λ b, ckey b = Some n) bs.

Definition uniq (bs : list buf) : Prop :=
  ∀ i j b c n, bs !! i = Some b → bs !! j = Some c →
    ckey b = Some n → ckey c = Some n → i = j.

Lemma clookup_Some bs n b :
  uniq bs → clookup bs n = Some b ↔ ∃ i, bs !! i = Some b ∧ ckey b = Some n.
Proof.
  intros Hu. unfold clookup. rewrite fmap_Some. split.
  - intros ([i b'] & (?&?&_)%list_find_Some & ->). eauto.
  - intros (i & Hi & Hk). destruct (list_find (λ b, ckey b = Some n) bs) as [[j c]|] eqn:E.
    + apply list_find_Some in E as (Hj & Hc & _). simplify_eq.
      rewrite (Hu _ _ _ _ _ Hi Hj Hk Hc) in Hi. exists (j, c). simplify_eq. done.
    + apply list_find_None in E. rewrite Forall_lookup in E.
      by destruct (E _ _ Hi).
Qed.

Lemma clookup_None bs n :
  uniq bs → clookup bs n = None ↔ ∀ i b, bs !! i = Some b → ckey b ≠ Some n.
Proof.
  intros Hu. rewrite eq_None_not_Some. split.
  - intros Hn i b Hi Hk. apply Hn. exists b. apply clookup_Some; eauto.
  - intros Hn [b (i&Hi&Hk)%clookup_Some]; [|done]. by eapply Hn.
Qed.

Lemma uniq_insert bs i b b' :
  uniq bs → bs !! i = Some b →
  (ckey b' = ckey b ∨ ∀ n, ckey b' = Some n → clookup bs n = None) →
  uniq (<[i:=b']> bs).
Proof.
  intros Hu Hi Hk j1 j2 c1 c2 n. pose proof (lookup_lt_Some _ _ _ Hi) as Hlt.
  rewrite !list_lookup_insert_case by done. intros H1 H2 K1 K2.
  destruct (decide (i = j1)), (decide (i = j2)); simplify_eq; try done.
  - destruct Hk as [Hk|Hk]; [rewrite Hk in K1; eauto|].
    specialize (Hk n K1). rewrite clookup_None in Hk by done. by destruct (Hk _ _ H2).
  - destruct Hk as [Hk|Hk]; [rewrite Hk in K2; eauto|].
    specialize (Hk n K2). rewrite clookup_None in Hk by done. by destruct (Hk _ _ H1).
  - eauto.
Qed.

Lemma clookup_insert bs i b b' m :
  uniq bs → bs !! i = Some b → uniq (<[i:=b']> bs) →
  clookup (<[i:=b']> bs) m =
    if decide (ckey b' = Some m) then Some b'
    else if decide (ckey b = Some m) then None else clookup bs m.
Proof.
  intros Hu Hi Hu'. pose proof (lookup_lt_Some _ _ _ Hi) as Hlt.
  case_decide as K'.
  { apply clookup_Some; [done|]. exists i. by rewrite list_lookup_insert_eq. }
  case_decide as K.
  { apply clookup_None; [done|]. intros j c. rewrite list_lookup_insert_case by done.
    case_decide as E; [naive_solver|]. intros Hc Hkc. destruct E. eauto. }
  destruct (clookup bs m) as [c|] eqn:E.
  - apply clookup_Some in E as (j & Hj & Kj); [|done]. apply clookup_Some; [done|].
    exists j. rewrite list_lookup_insert_ne by naive_solver. done.
  - rewrite clookup_None in * by done. intros j c.
    rewrite list_lookup_insert_case by done. case_decide; naive_solver.
Qed.

(** ** The abstract state

    [view s n]: what reading block [n] yields; [held s n]: its buffer is
    locked; [logged_dirty s n]: its buffer is pinned by [B_DIRTY];
    [handle s i n]: [i] is the locked buffer of block [n]. *)
Section view.
Context {D : Type} `{BlockDriver D}.

Definition view (s : bstate D) (n : Z) : list Z :=
  match clookup (bufs s) n with Some b => b_data b | None => blk (dk s) n end.
Definition held (s : bstate D) (n : Z) : bool :=
  match clookup (bufs s) n with Some b => sl_locked (b_lock b) | None => false end.
Definition pinned (s : bstate D) (n : Z) : bool :=
  match clookup (bufs s) n with Some b => dirty b | None => false end.
Definition handle (s : bstate D) (i : nat) (n : Z) : Prop :=
  ∃ b, bufs s !! i = Some b ∧ (i < NBUF)%nat ∧ ckey b = Some n ∧ sl_locked (b_lock b) = true.

(** A buffer is either unused since boot, or caches a block of device 1. *)
Definition buf_wf (d : D) (b : buf) : Prop :=
  block_ok (b_data b) ∧
  (b_dev b = 0 ∧ b_flags b = 0 ∧ b_refcnt b = 0 ∧ sl_locked (b_lock b) = false ∨
   b_dev b = 1 ∧ in_disk d (b_blockno b) ∧
   (b_flags b = B_VALID ∨ b_flags b = Z.lor B_VALID B_DIRTY) ∧
   (sl_locked (b_lock b) = true ∧ b_refcnt b = 1 ∨
    sl_locked (b_lock b) = false ∧ b_refcnt b = 0 ∧
    (b_flags b = B_VALID → b_data b = blk d (b_blockno b)))).

Definition nx (bs : list buf) (i : nat) : nat := default 0%nat (b_next <$> bs !! i).
Definition pv (bs : list buf) (i : nat) : nat := default 0%nat (b_prev <$> bs !! i).

Definition lru (bs : list buf) (l : list nat) : Prop :=
  l ≡ₚ seq 0 NBUF ∧ lseg (nx bs) (pv bs) NBUF l NBUF.

Record bio_wf (s : bstate D) : Prop := {
  wf_len : length (bufs s) = S NBUF;
  wf_head : ∀ h, bufs s !! NBUF = Some h → b_dev h = 0;
  wf_lru : ∃ l, lru (bufs s) l;
  wf_disk : dwf (dk s);
  wf_buf : ∀ i b, (i < NBUF)%nat → bufs s !! i = Some b → buf_wf (dk s) b;
  wf_uniq : uniq (bufs s);
}.

(** Some buffer can be recycled. *)
Definition room (s : bstate D) : Prop :=
  ∃ i b, (i < NBUF)%nat ∧ bufs s !! i = Some b ∧ b_refcnt b = 0 ∧ dirty b = false.
End view.

(** ** Correctness of the cache operations *)
Section bio_proofs.
Context {D : Type} `{BlockDriverOk D}.
Implicit Types s : bstate D.

Definition with_buf s (i : nat) (b : buf) : bstate D :=
  BState (<[i := b]> (bufs s)) (dk s) (mypid s).

Lemma getbuf_eq s i b : bufs s !! i = Some b → getbuf i s = Ret b s.
Proof. intros Hi. unfold getbuf. by rewrite Hi. Qed.

Lemma setbuf_eq s i b f : bufs s !! i = Some b → setbuf i f s = Ret tt (with_buf s i (f b)).
Proof. intros Hi. unfold setbuf. by rewrite Hi. Qed.

Lemma lockbuf_eq s i b :
  bufs s !! i = Some b → sl_locked (b_lock b) = false →
  lockbuf i s = Ret tt (with_buf s i (set_b_lock (Sleeplock true (mypid s)) b)).
Proof. intros Hi Hl. unfold lockbuf, acquiresleep. by rewrite Hi, Hl. Qed.

Lemma lookup_with_buf s i b c : bufs s !! i = Some c → bufs (with_buf s i b) !! i = Some b.
Proof. intros Hi%lookup_lt_Some. by apply list_lookup_insert_eq. Qed.

Lemma with_buf_twice s i b c : with_buf (with_buf s i b) i c = with_buf s i c.
Proof. unfold with_buf. simpl. by rewrite list_insert_insert_eq. Qed.

Lemma lru_bound bs l : lru bs l → NoDup (NBUF :: l) ∧ ∀ i, i ∈ l ↔ (i < NBUF)%nat.
Proof.
  intros [Hp _].
  assert (Hin : ∀ i, i ∈ l ↔ (i < NBUF)%nat) by (intros i; rewrite Hp, elem_of_seq; lia).
  split; [|done]. apply NoDup_cons. split; [rewrite Hin; lia|].
  rewrite Hp. apply NoDup_seq.
Qed.

Lemma lru_update bs l i b b' :
  bs !! i = Some b → b_next b' = b_next b → b_prev b' = b_prev b →
  lru bs l → lru (<[i:=b']> bs) l.
Proof.
  intros Hi Hn Hp [Hl Hs]. split; [done|]. pose proof (lookup_lt_Some _ _ _ Hi).
  eapply lseg_ext; [..|exact Hs]; intros j _; unfold nx, pv;
    rewrite list_lookup_insert_case by done; case_decide; subst; rewrite ?Hi; simpl; congruence.
Qed.

Lemma bget_cached_spec s dev n fuel l a :
  lseg (nx (bufs s)) (pv (bufs s)) a l NBUF → (∀ i, i ∈ l → (i < NBUF)%nat) →
  length (bufs s) = S NBUF → (length l < fuel)%nat →
  ∃ r, bget_cached fuel dev n (hd NBUF l) s = Ret r s ∧
    match r with
    | Some i => i ∈ l ∧ ∃ b, bufs s !! i = Some b ∧ b_dev b = dev ∧ b_blockno b = n
    | None => ∀ i b, i ∈ l → bufs s !! i = Some b → ¬ (b_dev b = dev ∧ b_blockno b = n)
    end.
Proof.
  revert a fuel. induction l as [|x l IH]; intros a [|fuel] Hs Hl Hlen Hf; try (simpl in *; lia).
  { exists None. simpl. split; [done|]. set_solver. }
  simpl in *. destruct Hs as (_ & _ & Hs). assert (Hx : (x < NBUF)%nat) by set_solver.
  destruct (Nat.eqb_spec x NBUF); [lia|].
  destruct (lookup_lt_is_Some_2 (bufs s) x) as [b Hb]; [lia|].
  rewrite (bind_Ret _ _ _ _ _ (getbuf_eq _ _ _ Hb)).
  destruct ((b_dev b =? dev) && (b_blockno b =? n)) eqn:E.
  { exists (Some x). split; [done|]. split; [set_solver|]. exists b. split; [done|lia]. }
  destruct (IH x fuel Hs) as (r & Hr & HP); [set_solver|done|lia|].
  assert (Hnx : b_next b = hd NBUF l).
  { rewrite <- (lseg_first _ _ _ _ _ Hs). unfold nx. by rewrite Hb. }
  rewrite Hnx, Hr. exists r. split; [done|]. destruct r as [i|].
  - destruct HP. split; [set_solver|done].
  - intros i c [->|Hi]%elem_of_cons Hc; [|eauto]. simplify_eq. lia.
Qed.

Lemma bget_unused_spec s fuel l z :
  lseg (nx (bufs s)) (pv (bufs s)) NBUF l z → (∀ i, i ∈ l → (i < NBUF)%nat) →
  length (bufs s) = S NBUF → (length l < fuel)%nat →
  ∃ r, bget_unused fuel (List.last l NBUF) s = Ret r s ∧
    match r with
    | Some i => i ∈ l ∧ ∃ b, bufs s !! i = Some b ∧ b_refcnt b = 0 ∧ dirty b = false
    | None => ∀ i b, i ∈ l → bufs s !! i = Some b → ¬ (b_refcnt b = 0 ∧ dirty b = false)
    end.
Proof.
  revert z fuel. induction l as [|x l IH] using rev_ind; intros z [|fuel] Hs Hl Hlen Hf;
    try (rewrite ?length_app in *; simpl in *; lia).
  { exists None. simpl. split; [done|]. set_solver. }
  rewrite List.last_last. simpl. apply lseg_app in Hs as [Hs _].
  assert (Hx : (x < NBUF)%nat) by set_solver.
  destruct (Nat.eqb_spec x NBUF); [lia|].
  destruct (lookup_lt_is_Some_2 (bufs s) x) as [b Hb]; [lia|].
  rewrite (bind_Ret _ _ _ _ _ (getbuf_eq _ _ _ Hb)).
  assert (Hd : dirty b = negb (Z.land (b_flags b) B_DIRTY =? 0)) by done.
  destruct ((b_refcnt b =? 0) && (Z.land (b_flags b) B_DIRTY =? 0)) eqn:E.
  { exists (Some x). split; [done|]. split; [set_solver|]. exists b.
    apply andb_true_iff in E as [E1%Z.eqb_eq E2]. by rewrite Hd, E2. }
  destruct (IH x fuel Hs) as (r & Hr & HP); [set_solver|done|rewrite length_app in Hf; simpl in Hf; lia|].
  assert (Hpv : b_prev b = List.last l NBUF).
  { rewrite <- (lseg_last _ _ _ _ _ Hs). unfold pv. by rewrite Hb. }
  rewrite Hpv, Hr. exists r. split; [done|]. destruct r as [i|].
  - destruct HP. split; [set_solver|done].
  - intros i c [Hi| ->%list_elem_of_singleton]%elem_of_app Hc; [eauto|]. simplify_eq.
    intros [Hr0 Hd0]. rewrite Hd in Hd0. apply negb_false_iff in Hd0.
    rewrite Hd0 in E. lia.
Qed.

Lemma call_iderw_eq s i b b' d' :
  bufs s !! i = Some b → iderw b (dk s) = Ret b' d' →
  call_iderw i s = Ret tt (BState (<[i := b']> (bufs s)) d' (mypid s)).
Proof. intros Hi Hr. unfold call_iderw. by rewrite Hi, Hr. Qed.

(** Replacing one buffer keeps the cache well formed. *)
Lemma bio_wf_update s i b b' :
  bio_wf s → (i < NBUF)%nat → bufs s !! i = Some b →
  b_next b' = b_next b → b_prev b' = b_prev b → buf_wf (dk s) b' →
  (ckey b' = ckey b ∨ ∀ n, ckey b' = Some n → clookup (bufs s) n = None) →
  bio_wf (with_buf s i b').
Proof.
  intros [Hlen Hh [l Hl] Hd Hb Hu] Hi Hlk Hn Hp Hwf Hk. split; simpl.
  - by rewrite length_insert.
  - intros h. rewrite list_lookup_insert_ne by lia. apply Hh.
  - exists l. by eapply lru_update.
  - done.
  - intros j c Hj. rewrite list_lookup_insert_case by (eapply lookup_lt_Some; eauto).
    case_decide; [naive_solver|]. by apply Hb.
  - by eapply uniq_insert.
Qed.

Lemma clookup_with_buf s i b b' m :
  bio_wf s → bio_wf (with_buf s i b') → bufs s !! i = Some b →
  clookup (bufs (with_buf s i b')) m =
    if decide (ckey b' = Some m) then Some b'
    else if decide (ckey b = Some m) then None else clookup (bufs s) m.
Proof. intros Hs Hs' Hi. apply clookup_insert; [by apply wf_uniq|done|]. apply (wf_uniq _ Hs'). Qed.

Lemma handle_frame s i b b' j m :
  bufs s !! i = Some b → handle s j m → i ≠ j → handle (with_buf s i b') j m.
Proof.
  intros Hi (c & Hc & ?) Hne. exists c. simpl. by rewrite list_lookup_insert_ne.
Qed.
Lemma handle_lt s i n b : handle s i n → bufs s !! i = Some b →
  (i < NBUF)%nat ∧ ckey b = Some n ∧ sl_locked (b_lock b) = true.
Proof. intros (c & Hc & ?) Hb. by simplify_eq. Qed.

Lemma ckey_Some b n : ckey b = Some n ↔ b_dev b = 1 ∧ b_blockno b = n.
Proof. unfold ckey. destruct (Z.eqb_spec (b_dev b) 1); naive_solver. Qed.

Lemma cached_lt s i b n :
  bio_wf s → bufs s !! i = Some b → ckey b = Some n → (i < NBUF)%nat.
Proof.
  intros Hs Hi Hk. pose proof (lookup_lt_Some _ _ _ Hi). rewrite (wf_len _ Hs) in *.
  destruct (decide (i = NBUF)); [|lia]. subst.
  apply (wf_head _ Hs) in Hi. apply ckey_Some in Hk. lia.
Qed.

(** A handle's buffer is the one [clookup] finds. *)
Lemma handle_clookup s i n :
  bio_wf s → handle s i n → ∃ b, bufs s !! i = Some b ∧ clookup (bufs s) n = Some b ∧
    (i < NBUF)%nat ∧ b_dev b = 1 ∧ b_blockno b = n ∧ sl_locked (b_lock b) = true ∧
    b_refcnt b = 1 ∧ block_ok (b_data b) ∧ in_disk (dk s) n ∧
    (b_flags b = B_VALID ∨ b_flags b = Z.lor B_VALID B_DIRTY).
Proof.
  intros Hs (b & Hb & Hi & Hk & Hl). exists b.
  destruct (wf_buf _ Hs _ _ Hi Hb) as [Hok [(?&?&?&?)|(Hd&Hin&Hf&Hr)]]; [congruence|].
  apply ckey_Some in Hk as Hk'. destruct Hk' as [_ <-].
  split_and!; try done.
  - apply clookup_Some; [by apply wf_uniq|eauto].
  - destruct Hr as [[_ ?]|[? _]]; congruence.
Qed.

Lemma bread_hit s i b n :
  bio_wf s → bufs s !! i = Some b → ckey b = Some n → sl_locked (b_lock b) = false →
  bread 1 n s = Ret i (with_buf s i (set_b_lock (Sleeplock true (mypid s)) (set_b_refcnt 1 b))).
Proof.
  intros Hs Hb Hk Hl. pose proof (cached_lt _ _ _ _ Hs Hb Hk) as Hi.
  destruct (wf_lru _ Hs) as [l Hlru]. pose proof (lru_bound _ _ Hlru) as [Hnd Hin].
  destruct (wf_buf _ Hs _ _ Hi Hb) as [Hok [(?&?&?&?)|(Hd&Hdk&Hf&[[??]|(_&Hr&_)])]];
    [apply ckey_Some in Hk; lia|congruence|].
  destruct (lookup_lt_is_Some_2 (bufs s) NBUF) as [h Hh]; [rewrite (wf_len _ Hs); lia|].
  destruct (bget_cached_spec s 1 n (S NBUF) l NBUF (proj2 Hlru)) as (r & Hr1 & HP).
  { intros. by apply Hin. } { by apply wf_len. }
  { rewrite (proj1 Hlru), length_seq. lia. }
  destruct r as [j|]; [|destruct (HP i b); [by apply Hin|done|by apply ckey_Some]].
  assert (j = i) as ->.
  { destruct HP as (_ & c & Hc & ?). apply (wf_uniq _ Hs j i c b n); [done..|by apply ckey_Some|done]. }
  assert (Hnx : b_next h = hd NBUF l).
  { rewrite <- (lseg_first _ _ _ _ _ (proj2 Hlru)). unfold nx. by rewrite Hh. }
  unfold bread, bget. rewrite (bind_Ret _ _ s i (with_buf s i (set_b_lock (Sleeplock true (mypid s)) (set_b_refcnt 1 b)))).
  - rewrite (bind_Ret _ _ _ _ _ (getbuf_eq _ _ _ (lookup_with_buf _ _ _ _ Hb))). simpl.
    destruct Hf as [-> | ->]; done.
  - rewrite (bind_Ret _ _ _ _ _ (getbuf_eq _ _ _ Hh)), Hnx, (bind_Ret _ _ _ _ _ Hr1).
    rewrite (bind_Ret _ _ _ _ _ (setbuf_eq _ _ _ _ Hb)).
    erewrite bind_Ret; [|apply lockbuf_eq; [by eapply lookup_with_buf|done]].
    rewrite with_buf_twice. by rewrite Hr.
Qed.

(** The driver behind the cache in another state. *)
Definition with_disk s (d' : D) : bstate D := BState (bufs s) d' (mypid s).

Lemma bio_wf_with_disk s d' : bio_wf s → dwf d' → blocks d' = blocks (dk s) → bio_wf (with_disk s d').
Proof.
  intros [H1 H2 H3 H4 H5 H6] Hd Hb. split; try done. intros i b Hi Hbi. specialize (H5 i b Hi Hbi).
  unfold buf_wf, in_disk, blk in *. cbn [with_disk dk]. by rewrite Hb.
Qed.

Lemma view_with_disk s d' m : blocks d' = blocks (dk s) → view (with_disk s d') m = view s m.
Proof. intros Hb. unfold view, blk. cbn [with_disk dk bufs]. by rewrite Hb. Qed.

(** The buffer a miss leaves in slot [i]. *)
Definition loaded s (i : nat) (b : buf) (n : Z) : buf :=
  Buf B_VALID 1 n (Sleeplock true (mypid s)) 1 (b_prev b) (b_next b) (blk (dk s) n).

Lemma bread_miss s n :
  bio_wf s → in_disk (dk s) n → clookup (bufs s) n = None → room s →
  ∃ i b d', (i < NBUF)%nat ∧ bufs s !! i = Some b ∧ b_refcnt b = 0 ∧ dirty b = false ∧
    bread 1 n s = Ret i (with_disk (with_buf s i (loaded s i b n)) d') ∧
    dwf d' ∧ blocks d' = blocks (dk s) ∧ past d' = past (dk s).
Proof.
  intros Hs Hdisk Hc (i0 & b0 & Hi0 & Hb0 & Hr0 & Hd0).
  destruct (wf_lru _ Hs) as [l Hlru]. pose proof (lru_bound _ _ Hlru) as [Hnd Hin].
  destruct (lookup_lt_is_Some_2 (bufs s) NBUF) as [h Hh]; [rewrite (wf_len _ Hs); lia|].
  destruct (bget_cached_spec s 1 n (S NBUF) l NBUF (proj2 Hlru)) as (r & Hr1 & HP).
  { intros. by apply Hin. } { by apply wf_len. } { rewrite (proj1 Hlru), length_seq. lia. }
  destruct r as [j|].
  { rewrite clookup_None in Hc by by apply wf_uniq. destruct HP as (_ & c & Hj & ?).
    destruct (Hc _ _ Hj). by apply ckey_Some. }
  destruct (bget_unused_spec s (S NBUF) l NBUF (proj2 Hlru)) as (r & Hr2 & HP2).
  { intros. by apply Hin. } { by apply wf_len. } { rewrite (proj1 Hlru), length_seq. lia. }
  destruct r as [i|]; [|destruct (HP2 i0 b0); [by apply Hin|done..]].
  destruct HP2 as (Hil%Hin & b & Hb & Hr & Hd).
  assert (Hunl : sl_locked (b_lock b) = false).
  { destruct (wf_buf _ Hs _ _ Hil Hb) as [_ [?|(_&_&_&[[]|])]]; [naive_solver|lia|naive_solver]. }
  assert (Hnx : b_next h = hd NBUF l).
  { rewrite <- (lseg_first _ _ _ _ _ (proj2 Hlru)). unfold nx. by rewrite Hh. }
  assert (Hpv : b_prev h = List.last l NBUF).
  { rewrite <- (lseg_last _ _ _ _ _ (proj2 Hlru)). unfold pv. by rewrite Hh. }
  set (b1 := set_b_lock (Sleeplock true (mypid s)) (claim 1 n b)).
  destruct (iderw_read b1 (dk s)) as (d' & Hrw & Hd' & Hbl & Hpa); [apply (wf_disk _ Hs)|done..|].
  exists i, b, d'. split_and!; [done..| |done|done|done].
  unfold bread, bget. rewrite (bind_Ret _ _ s i (with_buf s i b1)).
  - rewrite (bind_Ret _ _ _ _ _ (getbuf_eq _ _ _ (lookup_with_buf _ _ _ _ Hb))). simpl.
    erewrite bind_Ret; [|eapply call_iderw_eq; [by eapply lookup_with_buf|exact Hrw]].
    unfold mret, M_ret. do 2 f_equal. unfold with_buf, with_disk. simpl. by rewrite list_insert_insert_eq.
  - rewrite (bind_Ret _ _ _ _ _ (getbuf_eq _ _ _ Hh)), Hnx, (bind_Ret _ _ _ _ _ Hr1).
    rewrite Hpv, (bind_Ret _ _ _ _ _ Hr2).
    rewrite (bind_Ret _ _ _ _ _ (setbuf_eq _ _ _ _ Hb)).
    erewrite bind_Ret; [|apply lockbuf_eq; [by eapply lookup_with_buf|done]].
    by rewrite with_buf_twice.
Qed.

Lemma buf_wf_loaded s i b n :
  bio_wf s → in_disk (dk s) n → buf_wf (dk s) (loaded s i b n).
Proof.
  intros Hs Hn. split; [|right; split_and!; auto].
  pose proof (blocks_ok _ (wf_disk _ Hs)) as Hok. unfold in_disk in Hn. simpl. unfold blk.
  rewrite list_lookup_total_alt.
  destruct (lookup_lt_is_Some_2 (blocks (dk s)) (Z.to_nat n)) as [v Hv]; [lia|].
  rewrite Hv. by apply (Forall_lookup_1 _ _ _ _ Hok Hv).
Qed.

(** Replacing the buffer of block [n] by one with the same key. *)
Lemma clookup_rekey s i b b' n m :
  bio_wf s → bio_wf (with_buf s i b') → bufs s !! i = Some b →
  ckey b = Some n → ckey b' = Some n →
  clookup (bufs (with_buf s i b')) m = if decide (m = n) then Some b' else clookup (bufs s) m.
Proof.
  intros Hs Hs' Hb K K'. rewrite (clookup_with_buf _ _ _ _ _ Hs Hs' Hb), K, K'.
  destruct (decide (m = n)) as [->|Hne]; [by rewrite decide_True|].
  rewrite !decide_False by congruence. done.
Qed.

Definition keeps_handles s s' : Prop := ∀ j m, handle s j m → handle s' j m.

Lemma keeps_unlocked s i b b' :
  bufs s !! i = Some b → sl_locked (b_lock b) = false → keeps_handles s (with_buf s i b').
Proof.
  intros Hb Hl j m Hj. apply (handle_frame _ _ _ _ _ _ Hb Hj). intros <-.
  destruct (handle_lt _ _ _ _ Hj Hb) as (_&_&?). congruence.
Qed.

Lemma keeps_locked s i b b' n :
  bio_wf s → bufs s !! i = Some b → ckey b = Some n →
  ckey b' = Some n → sl_locked (b_lock b') = true → keeps_handles s (with_buf s i b').
Proof.
  intros Hs Hb K K' Hl j m Hj. destruct (decide (i = j)) as [<-|Hne].
  - destruct (handle_lt _ _ _ _ Hj Hb) as (?&?&_). exists b'.
    split_and!; [by eapply lookup_with_buf|done|congruence|done].
  - by apply (handle_frame _ _ _ _ _ _ Hb Hj).
Qed.

Lemma bread_abs_hit s n b :
  bio_wf s → held s n = false → clookup (bufs s) n = Some b →
  ∃ i s', bread 1 n s = Ret i s' ∧ bio_wf s' ∧ (blocks (dk s') = blocks (dk s) ∧ past (dk s') = past (dk s)) ∧ mypid s' = mypid s ∧
    handle s' i n ∧ keeps_handles s s' ∧ (∀ m, view s' m = view s m) ∧
    (∀ m, held s' m = if decide (m = n) then true else held s m) ∧
    (∀ m, pinned s' m = pinned s m).
Proof.
  intros Hs Hh Hc. pose proof (wf_uniq _ Hs) as Hu.
  apply clookup_Some in Hc as Hc'; [|done]. destruct Hc' as (i & Hb & Hk).
  assert (Hl : sl_locked (b_lock b) = false) by (unfold held in Hh; by rewrite Hc in Hh).
  pose proof (cached_lt _ _ _ _ Hs Hb Hk) as Hi.
  set (b' := set_b_lock (Sleeplock true (mypid s)) (set_b_refcnt 1 b)).
  assert (Hs' : bio_wf (with_buf s i b')).
  { eapply bio_wf_update; [done..| |by left].
    destruct (wf_buf _ Hs _ _ Hi Hb) as [Hok [(?&_)|(?&?&?&_)]];
      [apply ckey_Some in Hk; lia|]. split; [done|]. right. split_and!; auto. }
  pose proof (λ m, clookup_rekey s i b b' n m Hs Hs' Hb Hk Hk) as Hcl.
  exists i, (with_buf s i b'). split_and!; try done.
  - by apply bread_hit.
  - exists b'. split_and!; [by eapply lookup_with_buf|done..].
  - by eapply keeps_unlocked.
  - intros m. unfold view. rewrite Hcl. case_decide; [subst; by rewrite Hc|done].
  - intros m. unfold held. rewrite Hcl. by case_decide.
  - intros m. unfold pinned. rewrite Hcl. case_decide; [subst; by rewrite Hc|done].
Qed.

Lemma unused_clean s i b :
  bio_wf s → (i < NBUF)%nat → bufs s !! i = Some b → b_refcnt b = 0 → dirty b = false →
  sl_locked (b_lock b) = false ∧ ∀ m, ckey b = Some m → b_data b = blk (dk s) m.
Proof.
  intros Hs Hi Hb Hr Hd.
  destruct (wf_buf _ Hs _ _ Hi Hb) as [_ [(?&_&_&?)|(?&_&Hf&[[]|(?&_&Hv)])]]; [|lia|].
  - split; [done|]. intros m Hm%ckey_Some. lia.
  - split; [done|]. intros m [_ <-]%ckey_Some. apply Hv. destruct Hf as [|Hf]; [done|].
    unfold dirty in Hd. by rewrite Hf in Hd.
Qed.

Lemma bread_abs_miss s n :
  bio_wf s → in_disk (dk s) n → clookup (bufs s) n = None → room s →
  ∃ i s', bread 1 n s = Ret i s' ∧ bio_wf s' ∧ (blocks (dk s') = blocks (dk s) ∧ past (dk s') = past (dk s)) ∧ mypid s' = mypid s ∧
    handle s' i n ∧ keeps_handles s s' ∧ (∀ m, view s' m = view s m) ∧
    (∀ m, held s' m = if decide (m = n) then true else held s m) ∧
    (∀ m, pinned s' m = pinned s m).
Proof.
  intros Hs Hn Hc Hroom. pose proof (wf_uniq _ Hs) as Hu.
  destruct (bread_miss s n Hs Hn Hc Hroom) as (i & b & d' & Hi & Hb & Hr & Hd & Hrd & Hd' & Hbl & Hpa).
  destruct (unused_clean _ _ _ Hs Hi Hb Hr Hd) as [Hunl Hold].
  set (b' := loaded s i b n) in *.
  assert (Hs' : bio_wf (with_buf s i b')).
  { eapply bio_wf_update; [done..|by apply buf_wf_loaded|].
    right. by intros m [_ <-]%ckey_Some. }
  assert (Hcl : ∀ m, clookup (bufs (with_buf s i b')) m =
    if decide (m = n) then Some b' else if decide (ckey b = Some m) then None else clookup (bufs s) m).
  { intros m. rewrite (clookup_with_buf _ _ _ _ _ Hs Hs' Hb).
    change (ckey b') with (Some n).
    destruct (decide (m = n)) as [->|]; [by rewrite decide_True|].
    by rewrite decide_False by congruence. }
  assert (Hob : ∀ m, ckey b = Some m → clookup (bufs s) m = Some b).
  { intros m Hm. apply clookup_Some; eauto. }
  exists i, (with_disk (with_buf s i b') d'). split_and!; try done.
  - by apply bio_wf_with_disk.
  - exists b'. split_and!; [by eapply lookup_with_buf|done..].
  - by apply (keeps_unlocked s i b b').
  - intros m. rewrite view_with_disk by done. unfold view. rewrite Hcl. case_decide; [subst; by rewrite Hc|].
    case_decide as E; [|done]. rewrite (Hob _ E). symmetry. by apply Hold.
  - intros m. unfold held. cbn [with_disk bufs]. rewrite Hcl. case_decide; [done|].
    case_decide as E; [|done]. by rewrite (Hob _ E).
  - intros m. unfold pinned. cbn [with_disk bufs]. rewrite Hcl. case_decide; [subst; by rewrite Hc|].
    case_decide as E; [|done]. by rewrite (Hob _ E).
Qed.

Lemma bread_abs s n :
  bio_wf s → in_disk (dk s) n → held s n = false → pinned s n = true ∨ room s →
  ∃ i s', bread 1 n s = Ret i s' ∧ bio_wf s' ∧ (blocks (dk s') = blocks (dk s) ∧ past (dk s') = past (dk s)) ∧ mypid s' = mypid s ∧
    handle s' i n ∧ keeps_handles s s' ∧ (∀ m, view s' m = view s m) ∧
    (∀ m, held s' m = if decide (m = n) then true else held s m) ∧
    (∀ m, pinned s' m = pinned s m).
Proof.
  intros Hs Hn Hh Hroom. destruct (clookup (bufs s) n) as [b|] eqn:Hc.
  - by eapply bread_abs_hit.
  - apply bread_abs_miss; [done..|]. destruct Hroom as [Hp|]; [|done].
    unfold pinned in Hp. by rewrite Hc in Hp.
Qed.

(** A buffer can be recycled as long as fewer than [NBUF] blocks are locked or
    pinned. *)
Lemma room_if_few_busy s (busy : list Z) :
  bio_wf s → (∀ m, held s m = true ∨ pinned s m = true → m ∈ busy) →
  (length busy < NBUF)%nat → room s.
Proof.
  intros Hs Hbusy Hlen.
  destruct (list_find (λ b, b_refcnt b = 0 ∧ dirty b = false) (take NBUF (bufs s)))
    as [[i b]|] eqn:E.
  { apply list_find_Some in E as (Hi & ? & _). apply lookup_take_Some in Hi as [Hi ?].
    exists i, b. tauto. }
  exfalso. apply list_find_None in E.
  set (keys := b_blockno <$> take NBUF (bufs s)).
  assert (Hall : ∀ i b, take NBUF (bufs s) !! i = Some b →
            ckey b = Some (b_blockno b) ∧ b_blockno b ∈ busy).
  { intros i b Hi. pose proof (proj1 (Forall_lookup _ _) E _ _ Hi) as Hn.
    apply lookup_take_Some in Hi as [Hi Hlt].
    destruct (wf_buf _ Hs _ _ Hlt Hi) as [_ [(?&Hf&?&_)|(Hd&_&_&Hl)]].
    { destruct Hn. unfold dirty. by rewrite Hf. }
    assert (Hk : ckey b = Some (b_blockno b)) by by apply ckey_Some.
    split; [done|]. assert (Hc : clookup (bufs s) (b_blockno b) = Some b).
    { apply clookup_Some; [by apply wf_uniq|eauto]. }
    apply Hbusy. unfold held, pinned. rewrite Hc.
    destruct Hl as [[]|(_&?&_)]; [by left|right]. destruct (dirty b) eqn:?; [done|by destruct Hn]. }
  assert (Hnd : NoDup keys).
  { apply NoDup_alt. intros i j k. unfold keys. rewrite !list_lookup_fmap, !fmap_Some.
    intros (b & Hi & ->) (c & Hj & Hbc). destruct (Hall _ _ Hi) as [Ki _], (Hall _ _ Hj) as [Kj _].
    apply lookup_take_Some in Hi as [Hi _], Hj as [Hj _].
    apply (wf_uniq _ Hs i j b c (b_blockno b)); [done..|congruence]. }
  assert (Hsub : keys ⊆ busy).
  { intros k (i & Hi)%list_elem_of_lookup. unfold keys in Hi.
    rewrite list_lookup_fmap, fmap_Some in Hi. destruct Hi as (b & Hi & ->).
    by apply Hall in Hi as [_ ?]. }
  pose proof (NoDup_submseteq keys busy Hnd Hsub) as Hle%submseteq_length.
  unfold keys in Hle. rewrite length_fmap, length_take, (wf_len _ Hs) in Hle. lia.
Qed.

Lemma buf_data_abs s i n : bio_wf s → handle s i n → buf_data i s = Ret (view s n) s.
Proof.
  intros Hs Hh. destruct (handle_clookup _ _ _ Hs Hh) as (b & Hb & Hc & _).
  unfold buf_data. rewrite (bind_Ret _ _ _ _ _ (getbuf_eq _ _ _ Hb)). unfold view. by rewrite Hc.
Qed.

Lemma set_buf_data_abs s i n v :
  bio_wf s → handle s i n → block_ok v →
  ∃ s', set_buf_data i v s = Ret tt s' ∧ bio_wf s' ∧ dk s' = dk s ∧ mypid s' = mypid s ∧
    keeps_handles s s' ∧ (∀ m, view s' m = if decide (m = n) then v else view s m) ∧
    (∀ m, held s' m = held s m) ∧ (∀ m, pinned s' m = pinned s m).
Proof.
  intros Hs Hh Hv.
  destruct (handle_clookup _ _ _ Hs Hh) as (b & Hb & Hc & Hi & Hd & Hn & Hl & Hr & Hok & Hin & Hf).
  assert (Hk : ckey b = Some n) by by apply ckey_Some.
  assert (Hs' : bio_wf (with_buf s i (set_b_data v b))).
  { eapply bio_wf_update; [done..| |by left]. split; [done|]. right. simpl. subst n. split_and!; auto. }
  pose proof (λ m, clookup_rekey s i b (set_b_data v b) n m Hs Hs' Hb Hk Hk) as Hcl.
  exists (with_buf s i (set_b_data v b)). split_and!; try done.
  - by apply setbuf_eq.
  - by eapply keeps_locked.
  - intros m. unfold view. rewrite Hcl. by case_decide.
  - intros m. unfold held. rewrite Hcl. case_decide; [subst; by rewrite Hc|done].
  - intros m. unfold pinned. rewrite Hcl. case_decide; [subst; by rewrite Hc|done].
Qed.

Lemma pin_abs s i n :
  bio_wf s → handle s i n →
  ∃ s', pin i s = Ret tt s' ∧ bio_wf s' ∧ dk s' = dk s ∧ mypid s' = mypid s ∧
    keeps_handles s s' ∧ (∀ m, view s' m = view s m) ∧ (∀ m, held s' m = held s m) ∧
    (∀ m, pinned s' m = if decide (m = n) then true else pinned s m).
Proof.
  intros Hs Hh.
  destruct (handle_clookup _ _ _ Hs Hh) as (b & Hb & Hc & Hi & Hd & Hn & Hl & Hr & Hok & Hin & Hf).
  assert (Hk : ckey b = Some n) by by apply ckey_Some.
  set (b' := set_b_flags (Z.lor (b_flags b) B_DIRTY) b).
  assert (Hf' : b_flags b' = Z.lor B_VALID B_DIRTY) by (simpl; destruct Hf as [-> | ->]; done).
  assert (Hs' : bio_wf (with_buf s i b')).
  { eapply bio_wf_update; [done..| |by left]. split; [done|]. right.
    rewrite Hf'. simpl. subst n. split_and!; auto. }
  pose proof (λ m, clookup_rekey s i b b' n m Hs Hs' Hb Hk Hk) as Hcl.
  exists (with_buf s i b'). split_and!; try done.
  - unfold pin. by rewrite (setbuf_eq _ _ _ _ Hb).
  - by eapply keeps_locked.
  - intros m. unfold view. rewrite Hcl. case_decide; [subst; by rewrite Hc|done].
  - intros m. unfold held. rewrite Hcl. case_decide; [subst; by rewrite Hc|done].
  - intros m. unfold pinned. rewrite Hcl. case_decide; [|done]. unfold dirty. by rewrite Hf'.
Qed.

Lemma blk_write (d d' : D) n v :
  blocks d' = <[Z.to_nat n := v]> (blocks d) → in_disk d n →
  (∀ m, in_disk d' m ↔ in_disk d m) ∧
  ∀ m, in_disk d m → blk d' m = if decide (m = n) then v else blk d m.
Proof.
  intros Hb Hn. unfold in_disk, blk in *. rewrite Hb, length_insert. split; [done|].
  intros m Hm. rewrite !list_lookup_total_alt. rewrite list_lookup_insert_case by lia.
  destruct (decide (m = n)) as [->|Hne]; [by rewrite decide_True|].
  by rewrite decide_False by lia.
Qed.

(** The buffer [bwrite] leaves: written, so no longer pinned. *)
Lemma bwrite_abs s i n :
  bio_wf s → handle s i n →
  ∃ s', bwrite i s = Ret tt s' ∧ bio_wf s' ∧ mypid s' = mypid s ∧
    blocks (dk s') = <[Z.to_nat n := view s n]> (blocks (dk s)) ∧
    past (dk s') = blocks (dk s) :: past (dk s) ∧
    keeps_handles s s' ∧ (∀ m, in_disk (dk s) m → view s' m = view s m) ∧
    (∀ m, held s' m = held s m) ∧
    (∀ m, pinned s' m = if decide (m = n) then false else pinned s m).
Proof.
  intros Hs Hh.
  destruct (handle_clookup _ _ _ Hs Hh) as (b & Hb & Hc & Hi & Hd & Hn & Hl & Hr & Hok & Hin & Hf).
  assert (Hk : ckey b = Some n) by by apply ckey_Some.
  set (b1 := set_b_flags (Z.lor (b_flags b) B_DIRTY) b).
  assert (Hf1 : b_flags b1 = Z.lor B_VALID B_DIRTY) by (simpl; destruct Hf as [-> | ->]; done).
  destruct (iderw_write b1 (dk s)) as (d' & Hrw & Hd' & Hbl & Hpast).
  { apply (wf_disk _ Hs). } { done. } { unfold dirty. by rewrite Hf1. } { done. }
  { simpl. by rewrite Hn. } { done. }
  rewrite Hf1 in Hrw. change (Z.lor (Z.ldiff (Z.lor B_VALID B_DIRTY) B_DIRTY) B_VALID) with B_VALID in Hrw.
  set (b2 := set_b_flags B_VALID b1) in *. simpl in Hbl. rewrite Hn in Hbl.
  destruct (blk_write _ _ _ _ Hbl Hin) as [Hdk Hblk].
  set (s' := BState (<[i := b2]> (bufs s)) d' (mypid s)).
  assert (Hview : view s n = b_data b) by (unfold view; by rewrite Hc).
  assert (Hu' : uniq (bufs s')) by (eapply uniq_insert; [by apply wf_uniq|done|by left]).
  assert (Hwf : bio_wf s').
  { destruct Hs as [H1 H2 [l H3] H4 H5 H6]. split; simpl; [by rewrite length_insert| | |done| |done].
    - intros h. rewrite list_lookup_insert_ne by lia. apply H2.
    - exists l. by eapply lru_update.
    - intros j c Hj. rewrite list_lookup_insert_case by (eapply lookup_lt_Some; eauto).
      case_decide as E; [intros [= <-]; subst j|intros Hc'].
      + split; [done|]. right. simpl. rewrite Hdk, Hn. split_and!; auto.
      + destruct (H5 _ _ Hj Hc') as [Hokc [Hc0|(Hdc&Hic&Hfc&Hlc)]]; split; auto. right.
        rewrite Hdk. split_and!; auto. destruct Hlc as [|(?&?&Hvc)]; [by left|right].
        split_and!; auto. intros. rewrite Hblk by done. rewrite decide_False; [auto|].
        intros Hcn. apply E. apply (H6 i j b c n); auto. by apply ckey_Some. }
  assert (Hcl : ∀ m, clookup (bufs s') m = if decide (m = n) then Some b2 else clookup (bufs s) m).
  { intros m. simpl. rewrite (clookup_insert _ _ _ _ _ (wf_uniq _ Hs) Hb Hu').
    change (ckey b2) with (ckey b). rewrite Hk.
    destruct (decide (m = n)) as [->|]; [by rewrite decide_True|].
    by rewrite !decide_False by congruence. }
  exists s'. split_and!; try done.
  - unfold bwrite. rewrite (bind_Ret _ _ _ _ _ (getbuf_eq _ _ _ Hb)). unfold holdingsleep.
    rewrite Hl. simpl. rewrite (bind_Ret _ _ _ _ _ (setbuf_eq _ _ _ _ Hb)).
    erewrite call_iderw_eq; [|by eapply lookup_with_buf|exact Hrw]. unfold s'. simpl.
    by rewrite list_insert_insert_eq.
  - by rewrite Hview.
  - eapply (keeps_locked s i b b2); done.
  - intros m Hm. unfold view. rewrite Hcl. case_decide as E; [subst; by rewrite Hc|].
    destruct (clookup (bufs s) m); [done|]. simpl. by rewrite Hblk, decide_False.
  - intros m. unfold held. rewrite Hcl. case_decide; [subst; by rewrite Hc|done].
  - intros m. unfold pinned. rewrite Hcl. by case_decide.
Qed.

(** *** Moving a buffer to the front

    [links f g C d p s]: the list pointers of [s] are given by [f] and [g],
    everything else by [C], [d] and [p]. *)
Definition core (b : buf) : buf := set_b_prev 0 (set_b_next 0 b).

Definition links (C : list buf) (d : D) (p : Z) (f g : nat → nat) s : Prop :=
  length (bufs s) = S NBUF ∧ (∀ k, (k <= NBUF)%nat → nx (bufs s) k = f k) ∧
  (∀ k, (k <= NBUF)%nat → pv (bufs s) k = g k) ∧
  core <$> bufs s = C ∧ dk s = d ∧ mypid s = p.

Lemma links_getbuf C d p f g k Q s :
  links C d p f g s → (k <= NBUF)%nat →
  (∀ b, b_next b = f k → b_prev b = g k → Q b s) → wp (getbuf k) Q s.
Proof.
  intros (Hl & Hf & Hg & _) Hk HQ.
  destruct (lookup_lt_is_Some_2 (bufs s) k) as [b Hb]; [lia|].
  eapply wp_intro; [by apply getbuf_eq|]. apply HQ.
  - rewrite <- Hf by done. unfold nx. by rewrite Hb.
  - rewrite <- Hg by done. unfold pv. by rewrite Hb.
Qed.

Lemma links_set C d p f g f' g' j h s (Q : unit → bstate D → Prop) :
  links C d p f g s → (j <= NBUF)%nat → (∀ b, core (h b) = core b) →
  (∀ b k, b_next b = f j → (k <= NBUF)%nat → f' k = if Nat.eqb k j then b_next (h b) else f k) →
  (∀ b k, b_prev b = g j → (k <= NBUF)%nat → g' k = if Nat.eqb k j then b_prev (h b) else g k) →
  (∀ s', links C d p f' g' s' → Q tt s') → wp (setbuf j h) Q s.
Proof.
  intros (Hl & Hf & Hg & HC & Hd & Hp) Hj Hcore Hf' Hg' HQ.
  destruct (lookup_lt_is_Some_2 (bufs s) j) as [b Hb]; [lia|].
  eapply wp_intro; [by apply setbuf_eq|]. apply HQ. split_and!; simpl; try done.
  - by rewrite length_insert.
  - intros k Hk. rewrite (Hf' b k); [|rewrite <- Hf by done; unfold nx; by rewrite Hb|done].
    unfold nx. rewrite list_lookup_insert_case by lia.
    destruct (Nat.eqb_spec k j); [subst; by rewrite decide_True|].
    rewrite decide_False by done. by apply Hf.
  - intros k Hk. rewrite (Hg' b k); [|rewrite <- Hg by done; unfold pv; by rewrite Hb|done].
    unfold pv. rewrite list_lookup_insert_case by lia.
    destruct (Nat.eqb_spec k j); [subst; by rewrite decide_True|].
    rewrite decide_False by done. by apply Hg.
  - rewrite list_fmap_insert, Hcore, list_insert_id; [done|].
    by rewrite list_lookup_fmap, Hb.
Qed.

Lemma links_set_next C d p f g j v s (Q : unit → bstate D → Prop) :
  links C d p f g s → (j <= NBUF)%nat →
  (∀ s', links C d p (fupd f j v) g s' → Q tt s') → wp (setbuf j (set_b_next v)) Q s.
Proof.
  intros Hs Hj HQ. eapply links_set; [done..| | |exact HQ].
  - intros b k _ _. done.
  - intros b k Hb _. simpl. destruct (Nat.eqb_spec k j); congruence.
Qed.

Lemma links_set_prev C d p f g j v s (Q : unit → bstate D → Prop) :
  links C d p f g s → (j <= NBUF)%nat →
  (∀ s', links C d p f (fupd g j v) s' → Q tt s') → wp (setbuf j (set_b_prev v)) Q s.
Proof.
  intros Hs Hj HQ. eapply links_set; [done..| | |exact HQ].
  - intros b k Hb _. simpl. destruct (Nat.eqb_spec k j); congruence.
  - intros b k _ _. done.
Qed.

Lemma relink_links s i l :
  length (bufs s) = S NBUF → lru (bufs s) l → (i < NBUF)%nat →
  wp (relink i) (λ _ s', length (bufs s') = S NBUF ∧ core <$> bufs s' = core <$> bufs s ∧
       dk s' = dk s ∧ mypid s' = mypid s ∧ ∃ l', lru (bufs s') l') s.
Proof.
  intros Hlen Hlru Hi. pose proof (lru_bound _ _ Hlru) as [Hnd Hin]. destruct Hlru as [Hperm Hseg].
  assert (Hil : i ∈ l) by by apply Hin.
  apply list_elem_of_split in Hil as (l1 & l2 & ->).
  set (f := nx (bufs s)) in *. set (g := pv (bufs s)) in *.
  assert (Hs : links (core <$> bufs s) (dk s) (mypid s) f g s) by by split_and!.
  pose proof (proj1 (lseg_app _ _ _ _ _ _ _) Hseg) as [Hseg1 Hseg2].
  pose proof (lseg_first _ _ _ _ _ Hseg2) as Hfi. pose proof (lseg_last _ _ _ _ _ Hseg1) as Hgi.
  assert (Hlt : ∀ k, k ∈ NBUF :: l1 ++ l2 → (k <= NBUF)%nat).
  { intros k [->|Hk]%elem_of_cons; [done|]. apply Nat.lt_le_incl, Hin. set_solver. }
  assert (Hni : ∀ k, k ∈ NBUF :: l1 ++ l2 → k ≠ i).
  { intros k Hk ->. apply NoDup_cons in Hnd as [Hh Hnd]. apply NoDup_app in Hnd as (_ & Hd & Hnd).
    apply NoDup_cons in Hnd as [Hx _]. set_solver by lia. }
  assert (Hfn : f i ∈ NBUF :: l1 ++ l2) by (rewrite Hfi; pose proof (hd_in l2 NBUF); set_solver).
  assert (Hgn : g i ∈ NBUF :: l1 ++ l2) by (rewrite Hgi; pose proof (last_cons_in l1 NBUF); set_solver).
  pose proof (Hlt _ Hfn). pose proof (Hlt _ Hgn). pose proof (Hni _ Hfn). pose proof (Hni _ Hgn).
  pose proof (lseg_unlink _ _ _ _ _ _ Hnd Hseg) as Hun.
  set (f1 := fupd f (g i) (f i)) in *. set (g1 := fupd g (f i) (g i)) in *.
  assert (Hf1 : f1 NBUF ∈ NBUF :: l1 ++ l2).
  { rewrite (lseg_first _ _ _ _ _ Hun). apply hd_in. }
  unfold relink.
  rewrite wp_bind. eapply links_getbuf; [done|lia|]. intros b -> ->.
  rewrite wp_bind. eapply links_set_prev; [done..|]. intros s1 Hs1. fold g1 in Hs1.
  rewrite wp_bind. eapply links_getbuf; [done|lia|]. intros b1 -> ->.
  assert (g1 i = g i) as -> by (apply fupd_ne; congruence).
  rewrite wp_bind. eapply links_set_next; [done..|]. intros s2 Hs2. fold f1 in Hs2.
  rewrite wp_bind. eapply links_getbuf; [done|lia|]. intros h -> _.
  rewrite wp_bind. eapply links_set_next; [done|lia|]. intros s3 Hs3.
  rewrite wp_bind. eapply links_set_prev; [done|lia|]. intros s4 Hs4.
  rewrite wp_bind. eapply links_getbuf; [done|lia|]. intros h1 -> _.
  rewrite fupd_ne by lia.
  rewrite wp_bind. eapply links_set_prev; [done|by apply Hlt|]. intros s5 Hs5.
  eapply links_set_next; [done..|]. intros s6 (L & F & G & C & E & P).
  split_and!; try done. exists (i :: l1 ++ l2). split.
  - rewrite <- Hperm. by rewrite Permutation_middle.
  - assert (Hnd' : NoDup (NBUF :: i :: l1 ++ l2)).
    { by rewrite Permutation_middle. }
    pose proof (lseg_link _ _ _ _ _ Hnd' Hun) as Hlink.
    eapply lseg_ext; [..|exact Hlink].
    + intros k Hk. apply F. rewrite elem_of_cons in Hk. destruct Hk as [->|Hk]; [done|].
      rewrite elem_of_cons in Hk. destruct Hk as [->|Hk]; [lia|]. apply Hlt. set_solver.
    + intros k Hk. apply G. rewrite elem_of_cons in Hk. destruct Hk as [->|Hk]; [done|].
      rewrite elem_of_cons in Hk. destruct Hk as [->|Hk]; [lia|]. apply Hlt. set_solver.
Qed.

Lemma core_lookup (bs bs' : list buf) (i : nat) b :
  core <$> bs' = core <$> bs → bs' !! i = Some b → ∃ c, bs !! i = Some c ∧ core c = core b.
Proof.
  intros Hc Hb. apply (f_equal (.!! i)) in Hc. rewrite !list_lookup_fmap, Hb in Hc. simpl in Hc.
  destruct (bs !! i) as [c|]; [|done]. exists c. split; [done|]. simpl in Hc. congruence.
Qed.

Lemma core_fields b c : core b = core c →
  b_flags b = b_flags c ∧ ckey b = ckey c ∧ b_lock b = b_lock c ∧ b_refcnt b = b_refcnt c ∧
  b_data b = b_data c ∧ b_dev b = b_dev c ∧ b_blockno b = b_blockno c.
Proof.
  destruct b, c. unfold core, ckey. simpl. intros [= -> -> -> -> -> ->]. done.
Qed.

Lemma core_clookup (bs bs' : list buf) m :
  core <$> bs' = core <$> bs → core <$> clookup bs' m = core <$> clookup bs m.
Proof.
  assert (Hcons : ∀ b l, clookup (b :: l) m = if decide (ckey b = Some m) then Some b else clookup l m).
  { intros b l. unfold clookup. cbn [list_find]. destruct (decide (ckey b = Some m)); [done|].
    destruct (list_find _ l) as [[]|]; done. }
  revert bs'. induction bs as [|b bs IH]; intros [|b' bs'] Hc; try done.
  rewrite !fmap_cons in Hc.
  assert (Hb : core b' = core b) by congruence.
  assert (Hbs : core <$> bs' = core <$> bs) by congruence.
  destruct (core_fields b' b Hb) as (_ & Hk & _).
  rewrite !Hcons, Hk. case_decide; [|by apply IH]. simpl. by rewrite Hb.
Qed.

Lemma bio_wf_core s s' :
  bio_wf s → core <$> bufs s' = core <$> bufs s → dk s' = dk s →
  (∃ l, lru (bufs s') l) → bio_wf s'.
Proof.
  intros [H1 H2 H3 H4 H5 H6] Hc Hd Hl. split.
  - rewrite <- H1. rewrite <- (length_fmap core (bufs s')), Hc. apply length_fmap.
  - intros h Hh. destruct (core_lookup _ _ _ _ Hc Hh) as (c & Hc' & Hcc).
    apply core_fields in Hcc as (_&_&_&_&_&<-&_). eauto.
  - done.
  - by rewrite Hd.
  - intros i b Hi Hb. destruct (core_lookup _ _ _ _ Hc Hb) as (c & Hc' & Hcc).
    apply core_fields in Hcc as (E1&_&E3&E4&E5&E6&E7). specialize (H5 _ _ Hi Hc').
    unfold buf_wf in *. by rewrite Hd, <- E1, <- E3, <- E4, <- E5, <- E6, <- E7.
  - intros i j b c n Hb Hc'.
    destruct (core_lookup _ _ _ _ Hc Hb) as (b0 & Hb0 & Eb).
    destruct (core_lookup _ _ _ _ Hc Hc') as (c0 & Hc0 & Ec).
    apply core_fields in Eb as (_&<-&_), Ec as (_&<-&_). eauto.
Qed.

(** Views depend on everything but the list pointers. *)
Lemma core_views s s' :
  core <$> bufs s' = core <$> bufs s → dk s' = dk s →
  (∀ m, view s' m = view s m) ∧ (∀ m, held s' m = held s m) ∧ (∀ m, pinned s' m = pinned s m) ∧
  ∀ j m, handle s j m → handle s' j m.
Proof.
  intros Hc Hd.
  assert (Hm : ∀ m, match clookup (bufs s') m, clookup (bufs s) m with
               | Some b, Some c => core b = core c | None, None => True | _, _ => False end).
  { intros m. pose proof (core_clookup _ _ m Hc) as Hcl.
    destruct (clookup (bufs s') m), (clookup (bufs s) m); [by apply (inj Some) in Hcl|done..]. }
  split_and!; [intros m; specialize (Hm m); unfold view, held, pinned, dirty;
    destruct (clookup (bufs s') m), (clookup (bufs s) m); try done; try (by rewrite Hd);
    apply core_fields in Hm as (E1&_&E3&_&E5&_&_); rewrite ?E1, ?E3, ?E5; done ..|].
  intros j m (b & Hb & Hj & Hk & Hl).
  destruct (core_lookup _ _ _ _ (eq_sym Hc) Hb) as (c & Hc' & Hcc).
  apply core_fields in Hcc as (_&E2&E3&_). exists c. rewrite E2, E3. done.
Qed.

Lemma brelse_abs s i n :
  bio_wf s → handle s i n → pinned s n = true ∨ view s n = blk (dk s) n →
  ∃ s', brelse i s = Ret tt s' ∧ bio_wf s' ∧ dk s' = dk s ∧ mypid s' = mypid s ∧
    (∀ j m, handle s j m → j ≠ i → handle s' j m) ∧
    (∀ m, view s' m = view s m) ∧
    (∀ m, held s' m = if decide (m = n) then false else held s m) ∧
    (∀ m, pinned s' m = pinned s m).
Proof.
  intros Hs Hh Hcl.
  destruct (handle_clookup _ _ _ Hs Hh) as (b & Hb & Hc & Hi & Hd & Hn & Hl & Hr & Hok & Hin & Hf).
  assert (Hk : ckey b = Some n) by by apply ckey_Some.
  set (b1 := set_b_refcnt 0 (set_b_lock (releasesleep (b_lock b)) b)).
  set (s1 := with_buf s i b1).
  assert (Hs1 : bio_wf s1).
  { eapply bio_wf_update; [done..| |by left]. split; [done|]. right. simpl. rewrite Hn.
    split_and!; auto. right. split_and!; auto. intros Hv.
    unfold pinned, view, dirty in Hcl. rewrite Hc, Hv in Hcl. destruct Hcl; [done|done]. }
  pose proof (λ m, clookup_rekey s i b b1 n m Hs Hs1 Hb Hk Hk) as Hlk.
  destruct (wf_lru _ Hs1) as [l Hlru].
  pose proof (relink_links s1 i l (wf_len _ Hs1) Hlru Hi) as Hrel.
  apply wp_elim in Hrel as ([] & s' & Hrun & Hlen & Hcore & Hdk & Hpid & Hl').
  destruct (core_views s1 s' Hcore Hdk) as (V & Hhe & Pi & Ha).
  exists s'. split_and!; try done.
  - unfold brelse. rewrite (bind_Ret _ _ _ _ _ (getbuf_eq _ _ _ Hb)). unfold holdingsleep.
    rewrite Hl. simpl. rewrite (bind_Ret _ _ _ _ _ (setbuf_eq _ _ _ _ Hb)).
    erewrite bind_Ret; [|apply setbuf_eq; by eapply lookup_with_buf]. rewrite with_buf_twice. simpl.
    change (b_refcnt (set_b_lock (releasesleep (b_lock b)) b)) with (b_refcnt b). rewrite Hr.
    change (u32 (1 - 1)) with 0. fold b1 s1.
    erewrite bind_Ret; [|apply getbuf_eq; by eapply lookup_with_buf]. exact Hrun.
  - by apply (bio_wf_core s1).
  - intros j m Hj Hne. apply Ha. by eapply handle_frame.
  - intros m. rewrite V. unfold view, s1. rewrite Hlk. case_decide; [subst; by rewrite Hc|done].
  - intros m. rewrite Hhe. unfold held, s1. rewrite Hlk. by case_decide.
  - intros m. rewrite Pi. unfold pinned, s1. rewrite Hlk. case_decide; [subst; by rewrite Hc|done].
Qed.

(** *** Booting *)

Definition booted : list buf :=
  match binit (BState bcache0 tt 0) with Ret _ s => bufs s | _ => [] end.

Lemma binit_run (d : D) p : binit (BState bcache0 d p) = Ret tt (BState booted d p).
Proof. vm_compute. reflexivity. Qed.

Lemma booted_unused i b :
  booted !! i = Some b → b_dev b = 0 ∧ b_flags b = 0 ∧ b_refcnt b = 0 ∧
    sl_locked (b_lock b) = false ∧ b_data b = replicate 512 0.
Proof.
  assert (Hall : Forall (λ b, b_dev b = 0 ∧ b_flags b = 0 ∧ b_refcnt b = 0 ∧
    sl_locked (b_lock b) = false ∧ b_data b = replicate 512 0) booted).
  { vm_compute. repeat constructor. }
  intros Hb. by apply (Forall_lookup_1 _ _ _ _ Hall Hb).
Qed.

Lemma booted_clookup m : clookup booted m = None.
Proof.
  apply clookup_None.
  - intros i j b c n (?&_)%booted_unused _ ?%ckey_Some. lia.
  - intros i b (?&_)%booted_unused ?%ckey_Some. lia.
Qed.

Lemma binit_abs (d : D) p :
  dwf d → ∃ s, binit (BState bcache0 d p) = Ret tt s ∧ bio_wf s ∧ dk s = d ∧ mypid s = p ∧
    (∀ m, view s m = blk d m) ∧ (∀ m, held s m = false) ∧ (∀ m, pinned s m = false).
Proof.
  intros Hd. exists (BState booted d p).
  split; [apply binit_run|]. split.
  - split; cbn [bufs dk].
    + vm_compute. reflexivity.
    + intros h Hh. by apply booted_unused in Hh as [? _].
    + exists (rev (seq 0 NBUF)). split; [by rewrite Permutation_rev|]. vm_compute. tauto.
    + done.
    + intros i b _ Hb. apply booted_unused in Hb as (?&?&?&?&Hdata). split; [|by left].
      rewrite Hdata. split; [done|]. by apply Forall_replicate.
    + intros i j b c n (?&_)%booted_unused _ ?%ckey_Some. lia.
  - split_and!; try done; intros m; unfold view, held, pinned; cbn [bufs]; by rewrite booted_clookup.
Qed.
End bio_proofs.

(** ** Rules for clients

    [bspec V Hd P B pa s]: the cache is well formed, block [m] reads as [V m],
    is locked iff [Hd m] and pinned iff [P m]; the platter is [B] and was
    [pa] before. *)
Definition upd {A} (f : Z → A) (n : Z) (v : A) : Z → A := λ m, if decide (m = n) then v else f m.

Definition in_blocks (B : list (list Z)) (n : Z) : Prop := 0 <= n < Z.of_nat (length B).
Definition bat (B : list (list Z)) (n : Z) : list Z := B !!! Z.to_nat n.

Lemma upd_eq {A} (f : Z → A) n v : upd f n v n = v.
Proof. unfold upd. by rewrite decide_True. Qed.

Lemma upd_ne {A} (f : Z → A) n v m : m ≠ n → upd f n v m = f m.
Proof. unfold upd. intros. by rewrite decide_False. Qed.

Lemma in_blocks_insert B i v n : in_blocks (<[i := v]> B) n ↔ in_blocks B n.
Proof. unfold in_blocks. by rewrite length_insert. Qed.

Lemma bat_insert B n m v :
  in_blocks B n → in_blocks B m → bat (<[Z.to_nat n := v]> B) m = if decide (m = n) then v else bat B m.
Proof.
  unfold in_blocks, bat. intros Hn Hm. rewrite !list_lookup_total_alt, list_lookup_insert_case by lia.
  destruct (decide (m = n)) as [->|]; [by rewrite decide_True|]. by rewrite decide_False by lia.
Qed.

Section rules.
Context {D : Type} `{BlockDriverOk D}.
Implicit Types s : bstate D.

Definition bspec (V : Z → list Z) (Hd P : Z → bool) (B : list (list Z))
    (pa : list (list (list Z))) s : Prop :=
  bio_wf s ∧ (∀ m, in_blocks B m → view s m = V m) ∧ (∀ m, held s m = Hd m) ∧
  (∀ m, pinned s m = P m) ∧ blocks (dk s) = B ∧ past (dk s) = pa.

Lemma bspec_ext V Hd P V' Hd' P' B pa s :
  bspec V Hd P B pa s → (∀ m, in_blocks B m → V' m = V m) → (∀ m, Hd' m = Hd m) →
  (∀ m, P' m = P m) → bspec V' Hd' P' B pa s.
Proof.
  intros (?&HV&HH&HP&?&?) EV EH EP. split_and!; try done.
  - intros. by rewrite EV, HV.
  - intros. by rewrite EH.
  - intros. by rewrite EP.
Qed.

(** Few enough blocks are locked or pinned that one can be recycled. *)
Definition few_busy (Hd P : Z → bool) : Prop :=
  ∃ busy : list Z, (∀ m, Hd m = true ∨ P m = true → m ∈ busy) ∧ (length busy < NBUF)%nat.

Lemma rule_bread V Hd P B pa s n (Q : nat → bstate D → Prop) :
  bspec V Hd P B pa s → in_blocks B n → Hd n = false → P n = true ∨ few_busy Hd P →
  (∀ i s', bspec V (upd Hd n true) P B pa s' → handle s' i n → keeps_handles s s' → Q i s') →
  wp (bread 1 n) Q s.
Proof.
  intros (Hs&HV&HH&HP&HB&Hpa) Hn Hh Hroom HQ.
  destruct (bread_abs s n) as (i & s' & Hrun & Hs' & [Hdk Hpk] & _ & Hhan & Hk & EV & EH & EP); try done.
  - unfold in_disk. by rewrite HB.
  - by rewrite HH.
  - destruct Hroom as [?|(busy & Hb & Hlen)]; [left; by rewrite HP|right].
    apply (room_if_few_busy _ busy); try done. intros m. rewrite HH, HP. apply Hb.
  - apply (wp_intro _ _ _ _ _ Hrun). apply HQ; try done. split_and!; try done; try congruence.
    + intros m Hm. by rewrite EV, HV.
    + intros m. rewrite EH. unfold upd. by case_decide.
Qed.

Lemma rule_buf_data V Hd P B pa s i n (Q : list Z → bstate D → Prop) :
  bspec V Hd P B pa s → handle s i n → in_blocks B n → Q (V n) s → wp (buf_data i) Q s.
Proof.
  intros (Hs&HV&_) Hh Hn HQ. eapply wp_intro; [by apply buf_data_abs|]. by rewrite HV.
Qed.

Lemma rule_set_data V Hd P B pa s i n v (Q : unit → bstate D → Prop) :
  bspec V Hd P B pa s → handle s i n → block_ok v →
  (∀ s', bspec (upd V n v) Hd P B pa s' → keeps_handles s s' → Q tt s') →
  wp (set_buf_data i v) Q s.
Proof.
  intros (Hs&HV&HH&HP&HB&Hpa) Hh Hv HQ.
  destruct (set_buf_data_abs s i n v Hs Hh Hv) as (s' & Hrun & Hs' & Hdk & _ & Hk & EV & EH & EP).
  apply (wp_intro _ _ _ _ _ Hrun). apply HQ; try done. split_and!; try done; try congruence.
  - intros m Hm. rewrite EV. unfold upd. case_decide; [done|]. by apply HV.
Qed.

Lemma rule_pin V Hd P B pa s i n (Q : unit → bstate D → Prop) :
  bspec V Hd P B pa s → handle s i n →
  (∀ s', bspec V Hd (upd P n true) B pa s' → keeps_handles s s' → Q tt s') → wp (pin i) Q s.
Proof.
  intros (Hs&HV&HH&HP&HB&Hpa) Hh HQ.
  destruct (pin_abs s i n Hs Hh) as (s' & Hrun & Hs' & Hdk & _ & Hk & EV & EH & EP).
  apply (wp_intro _ _ _ _ _ Hrun). apply HQ; try done. split_and!; try done; try congruence.
  - intros m Hm. rewrite EV. by apply HV.
  - intros m. rewrite EP. unfold upd. by case_decide.
Qed.

Lemma rule_bwrite V Hd P B pa s i n (Q : unit → bstate D → Prop) :
  bspec V Hd P B pa s → handle s i n → in_blocks B n →
  (∀ s', bspec V Hd (upd P n false) (<[Z.to_nat n := V n]> B) (B :: pa) s' →
     keeps_handles s s' → Q tt s') → wp (bwrite i) Q s.
Proof.
  intros (Hs&HV&HH&HP&HB&Hpa) Hh Hn HQ.
  destruct (bwrite_abs s i n Hs Hh) as (s' & Hrun & Hs' & _ & Hbl & Hp & Hk & EV & EH & EP).
  apply (wp_intro _ _ _ _ _ Hrun). apply HQ; try done. rewrite HV in Hbl by done.
  split_and!; try done; try congruence.
  - intros m. unfold in_blocks. rewrite length_insert. intros Hm.
    rewrite EV by (unfold in_disk; by rewrite HB). by apply HV.
  - intros m. rewrite EP. unfold upd. by case_decide.
Qed.

Lemma rule_brelse V Hd P B pa s i n (Q : unit → bstate D → Prop) :
  bspec V Hd P B pa s → handle s i n → in_blocks B n → P n = true ∨ V n = bat B n →
  (∀ s', bspec V (upd Hd n false) P B pa s' →
     (∀ j m, handle s j m → j ≠ i → handle s' j m) → Q tt s') → wp (brelse i) Q s.
Proof.
  intros (Hs&HV&HH&HP&HB&Hpa) Hh Hn Hc HQ.
  destruct (brelse_abs s i n Hs Hh) as (s' & Hrun & Hs' & Hdk & _ & Hk & EV & EH & EP).
  { rewrite HP, HV by done. unfold blk. rewrite HB. exact Hc. }
  apply (wp_intro _ _ _ _ _ Hrun). apply HQ; try done. split_and!; try done; try congruence.
  - intros m Hm. rewrite EV. by apply HV.
  - intros m. rewrite EH. unfold upd. by case_decide.
Qed.

(** Distinct blocks have distinct handles. *)
Lemma handle_inj s i j n m : bio_wf s → handle s i n → handle s j m → n ≠ m → i ≠ j.
Proof.
  intros Hs (b & Hb & _ & Kb & _) (c & Hc & _ & Kc & _) Hne ->. congruence.
Qed.

(** What is neither pinned nor locked is on the platter. *)
Lemma bspec_clean V Hd P B pa s m :
  bspec V Hd P B pa s → in_blocks B m → Hd m = false → P m = false → V m = bat B m.
Proof.
  intros (Hs&HV&HH&HP&HB&_) Hm Hh Hp. rewrite <- HV by done. unfold view.
  specialize (HH m). specialize (HP m). unfold held, pinned in *.
  destruct (clookup (bufs s) m) as [b|] eqn:Hc; [|unfold blk, bat; by rewrite HB].
  apply clookup_Some in Hc as (i & Hb & Hk); [|by apply wf_uniq].
  pose proof (cached_lt _ _ _ _ Hs Hb Hk) as Hi. apply ckey_Some in Hk as [Hd1 Hbn].
  destruct (wf_buf _ Hs _ _ Hi Hb) as [_ [(?&_)|(_&_&Hf&[[? _]|(_&_&Hv)])]]; [lia|congruence|].
  rewrite Hv; [unfold blk, bat; by rewrite HB, Hbn|].
  destruct Hf as [|Hf]; [done|]. unfold dirty in HP. rewrite Hf in HP.
  change (negb (Z.land (Z.lor B_VALID B_DIRTY) B_DIRTY =? 0)) with true in HP. congruence.
Qed.

Lemma bspec_ok V Hd P B pa s m : bspec V Hd P B pa s → in_blocks B m → block_ok (V m).
Proof.
  intros (Hs&HV&HH&HP&HB&_) Hm. rewrite <- HV by done. unfold view.
  destruct (clookup (bufs s) m) as [b|] eqn:Hc.
  - apply clookup_Some in Hc as (i & Hb & Hk); [|by apply wf_uniq].
    pose proof (cached_lt _ _ _ _ Hs Hb Hk) as Hi. by destruct (wf_buf _ Hs _ _ Hi Hb).
  - pose proof (blocks_ok _ (wf_disk _ Hs)) as Hok. unfold blk. rewrite HB in *.
    unfold in_blocks in Hm. rewrite list_lookup_total_alt.
    destruct (lookup_lt_is_Some_2 B (Z.to_nat m)) as [v Hv]; [lia|].
    rewrite Hv. by apply (Forall_lookup_1 _ _ _ _ Hok Hv).
Qed.
End rules.
