(* ===== verification/Log.v ===== *)
(** * The redo log: log.c (and [readsb] of fs.c, which [initlog] calls)

    The log's in-memory state next to the buffer cache.  The log spin lock
    brackets the bodies of [begin_op], [end_op] and [log_write], which are
    atomic steps here; where the C code sleeps on the log, one thread alone
    can only wait for ever ([Block]).  The theorems: [commit] installs the
    transaction, and a power failure between any two disk writes of it leaves
    a disk from which [initlog] recovers either the old or the new contents. *)

From S2P Require Import Prelude Param Bio.

(** ** State *)

Record log := Log {
  l_start : Z;
  l_size : Z;
  l_outstanding : Z;
  l_committing : Z;
  l_dev : Z;
  lh_n : Z;
  lh_block : list Z;
}.

Definition set_lh_n v l := Log (l_start l) (l_size l) (l_outstanding l) (l_committing l) (l_dev l) v (lh_block l).
Definition set_lh_block v l := Log (l_start l) (l_size l) (l_outstanding l) (l_committing l) (l_dev l) (lh_n l) v.
Definition set_outstanding v l := Log (l_start l) (l_size l) v (l_committing l) (l_dev l) (lh_n l) (lh_block l).
Definition set_committing v l := Log (l_start l) (l_size l) (l_outstanding l) v (l_dev l) (lh_n l) (lh_block l).
(** The assignments of [initlog]. *)
Definition set_layout start size dev l :=
  Log start size (l_outstanding l) (l_committing l) dev (lh_n l) (lh_block l).

(** Zero-initialised storage. *)
Definition log0 : log := Log 0 0 0 0 0 0 (replicate (Z.to_nat LOGSIZE) 0).

Record lstate (D : Type) := LState { lg : log; bs : bstate D }.
Arguments LState {D} lg bs.
Arguments lg {D} l.
Arguments bs {D} l.

(** [sizeof(struct logheader)]. *)
Definition sizeof_logheader : Z := 4 + 4 * LOGSIZE.

(** [memmove(sb, bp->data, sizeof(struct superblock))]. *)
Definition superblock_of (d : list Z) : superblock :=
  Superblock (get_le 0 4 d) (get_le 4 4 d) (get_le 8 4 d) (get_le 12 4 d)
             (get_le 16 4 d) (get_le 20 4 d) (get_le 24 4 d).

Section log.
Context {D : Type} `{BlockDriver D}.

Definition liftb {A} (m : M (bstate D) A) : M (lstate D) A :=
  λ s, match m (bs s) with
       | Ret a b => Ret a (LState (lg s) b)
       | Panic msg => Panic msg
       | Fault => Fault
       | Block => Block
       | Diverge => Diverge
       end.

Definition getlog {A} (f : log → A) : M (lstate D) A := gets (λ s, f (lg s)).
Definition modlog (f : log → log) : M (lstate D) unit :=
  modify (λ s, LState (f (lg s)) (bs s)).

Definition lbread (dev bno : Z) : M (lstate D) nat := liftb (bread (u32 dev) (u32 bno)).
Definition lbwrite (i : nat) : M (lstate D) unit := liftb (bwrite i).
Definition lbrelse (i : nat) : M (lstate D) unit := liftb (brelse i).
Definition ldata (i : nat) : M (lstate D) (list Z) := liftb (buf_data i).
Definition lset_data (i : nat) (v : list Z) : M (lstate D) unit := liftb (set_buf_data i v).

(** [log.lh.block[i]], read and written; an index past the array is a fault. *)
Definition get_block (i : nat) : M (lstate D) Z :=
  l ← getlog lh_block; of_option (l !! i).
Definition set_block (i : nat) (v : Z) : M (lstate D) unit :=
  l ← getlog lh_block;
  if Nat.ltb i (length l) then modlog (set_lh_block (<[i := v]> l)) else fault.

Definition readsb (dev : Z) : M (lstate D) superblock :=
  bp ← lbread dev 1;
  d ← ldata bp;
  lbrelse bp ;;
  mret (superblock_of d).

(** The loop body of [install_trans]: copy a log block to its destination. *)
Definition install_body (tail : nat) : M (lstate D) unit :=
  dev ← getlog l_dev;
  start ← getlog l_start;
  lbuf ← lbread dev (start + Z.of_nat tail + 1);
  b ← get_block tail;
  dbuf ← lbread dev b;
  d ← ldata lbuf;
  lset_data dbuf d ;;
  lbwrite dbuf ;;
  lbrelse lbuf ;;
  lbrelse dbuf.

Definition install_trans : M (lstate D) unit :=
  n ← getlog lh_n;
  for_ (Z.to_nat n) 0 install_body.

Definition read_head : M (lstate D) unit :=
  dev ← getlog l_dev;
  start ← getlog l_start;
  b ← lbread dev start;
  d ← ldata b;
  let n := i32 (get_le 0 4 d) in
  modlog (set_lh_n n) ;;
  for_ (Z.to_nat n) 0 (λ i, set_block i (i32 (get_le (4 + 4 * i) 4 d))) ;;
  lbrelse b.

Definition write_head : M (lstate D) unit :=
  dev ← getlog l_dev;
  start ← getlog l_start;
  b ← lbread dev start;
  n ← getlog lh_n;
  d ← ldata b;
  lset_data b (put_le 0 4 n d) ;;
  for_ (Z.to_nat n) 0 (λ i,
    v ← get_block i;
    d ← ldata b;
    lset_data b (put_le (4 + 4 * i) 4 v d)) ;;
  lbwrite b ;;
  lbrelse b.

Definition recover_from_log : M (lstate D) unit :=
  read_head ;;
  install_trans ;;
  modlog (set_lh_n 0) ;;
  write_head.

Definition initlog (dev : Z) : M (lstate D) unit :=
  if BSIZE <=? sizeof_logheader then panic "initlog: too big logheader" else
  sb ← readsb dev;
  modlog (set_layout (i32 (sb_logstart sb)) (i32 (sb_nlog sb)) dev) ;;
  recover_from_log.

Definition begin_op : M (lstate D) unit :=
  l ← getlog id;
  if negb (l_committing l =? 0) then wait_forever
  else if LOGSIZE <? lh_n l + (l_outstanding l + 1) * MAXOPBLOCKS then wait_forever
  else modlog (set_outstanding (l_outstanding l + 1)).

(** The loop body of [write_log]: copy a cached block to its log block. *)
Definition write_log_body (tail : nat) : M (lstate D) unit :=
  dev ← getlog l_dev;
  start ← getlog l_start;
  to ← lbread dev (start + Z.of_nat tail + 1);
  b ← get_block tail;
  from ← lbread dev b;
  d ← ldata from;
  lset_data to d ;;
  lbwrite to ;;
  lbrelse from ;;
  lbrelse to.

Definition write_log : M (lstate D) unit :=
  n ← getlog lh_n;
  for_ (Z.to_nat n) 0 write_log_body.

Definition commit : M (lstate D) unit :=
  n ← getlog lh_n;
  if 0 <? n then
    write_log ;;
    write_head ;;
    install_trans ;;
    modlog (set_lh_n 0) ;;
    write_head
  else mret tt.

Definition end_op : M (lstate D) unit :=
  o ← getlog l_outstanding;
  modlog (set_outstanding (o - 1)) ;;
  c ← getlog l_committing;
  if negb (c =? 0) then panic "log.committing" else
  o ← getlog l_outstanding;
  if o =? 0 then
    modlog (set_committing 1) ;;
    commit ;;
    modlog (set_committing 0)
  else mret tt.

(** The search loop of [log_write]: the first [i] below [n] (counted down
    in [k]) whose entry is the block, or [n]. *)
Fixpoint absorb (k i : nat) (l : list Z) (bno : Z) : nat :=
  match k with
  | O => i
  | S k => if u32 (default 0 (l !! i)) =? bno then i else absorb k (S i) l bno
  end.

(** The two tests [log_write] makes before it takes the lock. *)
Definition log_write_check : M (lstate D) unit :=
  l ← getlog id;
  if (LOGSIZE <=? lh_n l) || (l_size l - 1 <=? lh_n l) then panic "too big a transaction" else
  if l_outstanding l <? 1 then panic "log_write outside of trans" else mret tt.

(** What it does between [acquire] and [release]. *)
Definition log_write_locked (b : nat) : M (lstate D) unit :=
  l ← getlog id;
  bb ← liftb (getbuf b);
  let i := absorb (Z.to_nat (lh_n l)) 0 (lh_block l) (b_blockno bb) in
  set_block i (i32 (b_blockno bb)) ;;
  (if Z.of_nat i =? lh_n l then modlog (set_lh_n (lh_n l + 1)) else mret tt) ;;
  liftb (pin b).

Definition log_write (b : nat) : M (lstate D) unit := log_write_check ;; log_write_locked b.
End log.

(** ** Rules *)

Definition none : Z → bool := λ _, false.

(** ** Sequences of disk writes *)

Definition writes (B : list (list Z)) (ws : list (Z * list Z)) : list (list Z) :=
  foldl (λ B w, <[Z.to_nat w.1 := w.2]> B) B ws.
Definition updates (V : Z → list Z) (ws : list (Z * list Z)) : Z → list Z :=
  foldl (λ V w, upd V w.1 w.2) V ws.
Definition unpin (P : Z → bool) (ws : list (Z * list Z)) : Z → bool :=
  foldl (λ P w, upd P w.1 false) P ws.
(** The platters before each write, newest first, in front of [pa]. *)
Definition trail (B : list (list Z)) (ws : list (Z * list Z)) (pa : list (list (list Z))) :=
  (foldl (λ x w, (<[Z.to_nat w.1 := w.2]> x.1, x.1 :: x.2)) (B, pa) ws).2.

Lemma writes_app B ws ws' : writes B (ws ++ ws') = writes (writes B ws) ws'.
Proof. apply foldl_app. Qed.

Lemma updates_app V ws ws' : updates V (ws ++ ws') = updates (updates V ws) ws'.
Proof. apply foldl_app. Qed.

Lemma unpin_app P ws ws' : unpin P (ws ++ ws') = unpin (unpin P ws) ws'.
Proof. apply foldl_app. Qed.

Lemma trail_fst B ws pa :
  (foldl (λ x w, (<[Z.to_nat w.1 := w.2]> x.1, x.1 :: x.2)) (B, pa) ws).1 = writes B ws.
Proof. revert B pa. induction ws as [|w ws IH]; intros; simpl; [done|]. apply IH. Qed.

Lemma trail_app B ws ws' pa : trail B (ws ++ ws') pa = trail (writes B ws) ws' (trail B ws pa).
Proof.
  unfold trail. rewrite foldl_app. rewrite <- (trail_fst B ws pa).
  by destruct (foldl _ (B, pa) ws).
Qed.

Lemma length_writes B ws : length (writes B ws) = length B.
Proof. revert B. induction ws; intros; simpl; [done|]. rewrite IHws. apply length_insert. Qed.

Lemma in_blocks_writes B ws n : in_blocks (writes B ws) n ↔ in_blocks B n.
Proof. unfold in_blocks. by rewrite length_writes. Qed.

(** Every platter of the trail is the result of a prefix of the writes. *)
Lemma elem_of_trail B ws pa p :
  p ∈ trail B ws pa → p ∈ pa ∨ ∃ k, (k < length ws)%nat ∧ p = writes B (take k ws).
Proof.
  revert B pa. induction ws as [|w ws IH] using rev_ind; intros B pa; [by left|].
  rewrite trail_app. cbn. intros [->|Hp]%elem_of_cons.
  - right. exists (length ws). rewrite length_app, take_app_length. simpl. split; [lia|done].
  - destruct (IH _ _ Hp) as [|(k & Hk & ->)]; [by left|right].
    exists k. rewrite length_app, take_app_le by lia. split; [lia|done].
Qed.

Lemma updates_other V ws m : m ∉ ws.*1 → updates V ws m = V m.
Proof.
  revert V. induction ws as [|w ws IH]; intros V Hm; simpl; [done|].
  rewrite fmap_cons, not_elem_of_cons in Hm. destruct Hm. rewrite IH by done. by apply upd_ne.
Qed.

Lemma updates_in V ws k d v :
  NoDup (ws.*1) → ws !! k = Some (d, v) → updates V ws d = v.
Proof.
  revert V k. induction ws as [|w ws IH]; intros V k Hnd Hk; [done|].
  rewrite fmap_cons, NoDup_cons in Hnd. destruct Hnd as [Hw Hnd]. destruct k; simpl in *.
  - simplify_eq. rewrite updates_other by done. apply upd_eq.
  - by eapply IH.
Qed.

Lemma bat_writes B ws m :
  Forall (in_blocks B) (ws.*1) → in_blocks B m → bat (writes B ws) m = updates (bat B) ws m.
Proof.
  revert B. induction ws as [|w ws IH]; intros B Hall Hm; [done|].
  rewrite fmap_cons, Forall_cons in Hall. destruct Hall as [Hw Hall]. simpl.
  rewrite IH; [|eapply Forall_impl; [exact Hall|]; intros; by apply in_blocks_insert
               |by apply in_blocks_insert].
  destruct (decide (m ∈ ws.*1)) as [Hin|Hout].
  - clear -Hin. revert Hin. generalize (bat (<[Z.to_nat w.1:=w.2]> B)), (upd (bat B) w.1 w.2).
    induction ws as [|x ws IH]; intros f g Hin; [set_solver|]. simpl.
    destruct (decide (m ∈ ws.*1)); [by apply IH|].
    rewrite fmap_cons, elem_of_cons in Hin. destruct Hin as [->|]; [|done].
    rewrite !updates_other by done. by rewrite !upd_eq.
  - rewrite !updates_other by done. rewrite bat_insert by done. done.
Qed.

Lemma unpin_true P ws m : unpin P ws m = true → P m = true ∧ m ∉ ws.*1.
Proof.
  revert P. induction ws as [|w ws IH]; intros P; simpl; [set_solver|].
  intros [Hp Hm]%IH. unfold upd in Hp. case_decide; [done|]. split; [done|]. set_solver.
Qed.

Lemma unpin_other P ws m : m ∉ ws.*1 → unpin P ws m = P m.
Proof.
  revert P. induction ws as [|w ws IH]; intros P Hm; simpl; [done|].
  rewrite fmap_cons, not_elem_of_cons in Hm. destruct Hm. rewrite IH by done. by apply upd_ne.
Qed.

Section log_rules.
Context {D : Type} `{BlockDriverOk D}.
Implicit Types s : lstate D.

Lemma wp_liftb {A} (m : M (bstate D) A) Q s :
  wp (liftb m) Q s ↔ wp m (λ a b, Q a (LState (lg s) b)) (bs s).
Proof. unfold wp, liftb. by destruct (m (bs s)). Qed.

Lemma wp_getlog {A} (f : log → A) (Q : A → lstate D → Prop) s :
  wp (getlog f) Q s ↔ Q (f (lg s)) s.
Proof. done. Qed.

Lemma wp_modlog (f : log → log) (Q : unit → lstate D → Prop) s :
  wp (modlog f) Q s ↔ Q tt (LState (f (lg s)) (bs s)).
Proof. done. Qed.

Lemma wp_get_block i v (Q : Z → lstate D → Prop) s :
  lh_block (lg s) !! i = Some v → Q v s → wp (get_block i) Q s.
Proof.
  intros Hv HQ. unfold get_block. rewrite wp_bind, wp_getlog, Hv. done.
Qed.

(** The platter fits in the 32-bit block numbers of the driver. *)
Definition small (B : list (list Z)) : Prop := Z.of_nat (length B) <= 2147483648.

Lemma small_u32 B n : small B → in_blocks B n → u32 n = n.
Proof. unfold small, in_blocks. intros. apply u32_id. lia. Qed.

Lemma few_busy_none P L :
  (∀ m, P m = true → m ∈ L) → (length L < NBUF)%nat → few_busy none P.
Proof. intros HL Hlen. exists L. split; [|done]. intros m [?|?]; [done|by apply HL]. Qed.

Lemma few_busy_nothing : few_busy none none.
Proof. apply (few_busy_none _ []); [done|]. apply Nat.ltb_lt. reflexivity. Qed.

Lemma install_body_spec V P B pa l s (tail : nat) src dst :
  bspec V none P B pa (bs s) → lg s = l → l_dev l = 1 →
  src = l_start l + Z.of_nat tail + 1 → lh_block l !! tail = Some dst →
  small B → in_blocks B src → in_blocks B dst → src ≠ dst → P src = false →
  few_busy none P → P dst = true ∨ few_busy (upd none src true) P →
  wp (install_body tail) (λ _ s', lg s' = l ∧
    bspec (upd V dst (V src)) none (upd P dst false) (<[Z.to_nat dst := V src]> B) (B :: pa) (bs s')) s.
Proof.
  intros Hb Hl Hdev Hsrc Hdst Hsm Hins Hind Hne HPs Hf1 Hf2.
  pose proof (bspec_ok _ _ _ _ _ _ src Hb Hins) as Hok.
  pose proof (bspec_clean _ _ _ _ _ _ src Hb Hins eq_refl HPs) as Hclean.
  unfold install_body, lbread, ldata, lset_data, lbwrite, lbrelse.
  rewrite wp_bind, wp_getlog, wp_bind, wp_getlog, Hl, Hdev, <- Hsrc.
  rewrite wp_bind, wp_liftb, (small_u32 _ _ Hsm Hins). change (u32 1) with 1.
  eapply rule_bread; [exact Hb|done|done|by right|]. intros i b1 Hb1 Hi1 _.
  rewrite wp_bind. apply (wp_get_block _ dst); [simpl; by rewrite Hl|].
  rewrite wp_bind, wp_liftb, (small_u32 _ _ Hsm Hind). cbn [bs lg].
  eapply rule_bread; [exact Hb1|done|by rewrite upd_ne by congruence|done|].
  intros j b2 Hb2 Hj2 Hk2. apply Hk2 in Hi1.
  assert (Hij : i ≠ j) by (eapply handle_inj; [apply Hb2|done..]).
  rewrite wp_bind, wp_liftb. cbn [bs lg]. eapply rule_buf_data; [exact Hb2|done..|].
  rewrite wp_bind, wp_liftb. cbn [bs lg]. eapply rule_set_data; [exact Hb2|done..|].
  intros b3 Hb3 Hk3. apply Hk3 in Hi1, Hj2.
  rewrite wp_bind, wp_liftb. cbn [bs lg]. eapply rule_bwrite; [exact Hb3|done..|]. rewrite upd_eq.
  intros b4 Hb4 Hk4. apply Hk4 in Hi1, Hj2.
  rewrite wp_bind, wp_liftb. cbn [bs lg].
  eapply (rule_brelse _ _ _ _ _ _ i src); [exact Hb4|done|by rewrite in_blocks_insert|..].
  { right. rewrite upd_ne, bat_insert, decide_False by done. done. }
  intros b5 Hb5 Hk5. apply Hk5 in Hj2; [|done].
  rewrite wp_liftb. cbn [bs lg].
  eapply (rule_brelse _ _ _ _ _ _ j dst); [exact Hb5|done|by rewrite in_blocks_insert|..].
  { right. by rewrite upd_eq, bat_insert, decide_True. }
  intros b6 Hb6 _. split; [done|]. eapply bspec_ext; [exact Hb6|done| |done].
  intros m. unfold upd, none. by repeat case_decide.
Qed.

Lemma write_log_body_spec V P B pa l s (tail : nat) src dst :
  bspec V none P B pa (bs s) → lg s = l → l_dev l = 1 →
  dst = l_start l + Z.of_nat tail + 1 → lh_block l !! tail = Some src →
  small B → in_blocks B src → in_blocks B dst → src ≠ dst → P src = true → P dst = false →
  few_busy none P →
  wp (write_log_body tail) (λ _ s', lg s' = l ∧
    bspec (upd V dst (V src)) none P (<[Z.to_nat dst := V src]> B) (B :: pa) (bs s')) s.
Proof.
  intros Hb Hl Hdev Hdst Hsrc Hsm Hins Hind Hne HPs HPd Hf.
  pose proof (bspec_ok _ _ _ _ _ _ src Hb Hins) as Hok.
  unfold write_log_body, lbread, ldata, lset_data, lbwrite, lbrelse.
  rewrite wp_bind, wp_getlog, wp_bind, wp_getlog, Hl, Hdev, <- Hdst.
  rewrite wp_bind, wp_liftb, (small_u32 _ _ Hsm Hind). change (u32 1) with 1.
  eapply rule_bread; [exact Hb|done|done|by right|]. intros i b1 Hb1 Hi1 _.
  rewrite wp_bind. apply (wp_get_block _ src); [simpl; by rewrite Hl|].
  rewrite wp_bind, wp_liftb, (small_u32 _ _ Hsm Hins). cbn [bs lg].
  eapply rule_bread; [exact Hb1|done|by rewrite upd_ne by congruence|by left|].
  intros j b2 Hb2 Hj2 Hk2. apply Hk2 in Hi1.
  assert (Hij : i ≠ j) by (eapply handle_inj; [apply Hb2|done..|congruence]).
  rewrite wp_bind, wp_liftb. cbn [bs lg]. eapply rule_buf_data; [exact Hb2|done..|].
  rewrite wp_bind, wp_liftb. cbn [bs lg]. eapply rule_set_data; [exact Hb2|done..|].
  intros b3 Hb3 Hk3. apply Hk3 in Hi1, Hj2.
  rewrite wp_bind, wp_liftb. cbn [bs lg]. eapply rule_bwrite; [exact Hb3|done..|]. rewrite upd_eq.
  intros b4 Hb4 Hk4. apply Hk4 in Hi1, Hj2.
  rewrite wp_bind, wp_liftb. cbn [bs lg].
  eapply (rule_brelse _ _ _ _ _ _ j src); [exact Hb4|done|by rewrite in_blocks_insert|..].
  { left. by rewrite upd_ne. }
  intros b5 Hb5 Hk5. apply Hk5 in Hi1; [|done].
  rewrite wp_liftb. cbn [bs lg].
  eapply (rule_brelse _ _ _ _ _ _ i dst); [exact Hb5|done|by rewrite in_blocks_insert|..].
  { right. by rewrite upd_eq, bat_insert, decide_True. }
  intros b6 Hb6 _. split; [done|]. eapply bspec_ext; [exact Hb6|done| |].
  - intros m. unfold upd, none. by repeat case_decide.
  - intros m. unfold upd. case_decide; [by subst|done].
Qed.

(** *** The copy loops as write sequences *)

Definition home_writes (V : Z → list Z) (start : Z) (L : list Z) : list (Z * list Z) :=
  imap (λ k d, (d, V (start + Z.of_nat k + 1))) L.
Definition log_writes (V : Z → list Z) (start : Z) (L : list Z) : list (Z * list Z) :=
  imap (λ k d, (start + Z.of_nat k + 1, V d)) L.

Lemma home_writes_fst V start L : (home_writes V start L).*1 = L.
Proof.
  apply list_eq. intros k. unfold home_writes. rewrite list_lookup_fmap, list_lookup_imap.
  by destruct (L !! k).
Qed.

Lemma log_writes_fst V start L k d :
  (log_writes V start L).*1 !! k = Some d → d = start + Z.of_nat k + 1 ∧ (k < length L)%nat.
Proof.
  unfold log_writes. rewrite list_lookup_fmap, list_lookup_imap.
  destruct (L !! k) eqn:E; simpl; [|done]. intros [= <-].
  split; [done|]. by eapply lookup_lt_Some.
Qed.

(** Where the log lives: the blocks [start .. start+n] are on the disk, the
    logged blocks are distinct and outside the log. *)
Record layout (B : list (list Z)) (start : Z) (L : list Z) : Prop := {
  lay_small : small B;
  lay_start : 0 <= start;
  lay_end : start + Z.of_nat (length L) < Z.of_nat (length B);
  lay_nodup : NoDup L;
  lay_home : ∀ d, d ∈ L → in_blocks B d ∧ (d < start ∨ start + Z.of_nat (length L) < d);
}.

Lemma install_loop V P B pa l s L :
  bspec V none P B pa (bs s) → lg s = l → l_dev l = 1 → layout B (l_start l) L →
  take (length L) (lh_block l) = L → (length L < NBUF)%nat →
  (∀ k, (k <= length L)%nat → P (l_start l + Z.of_nat k) = false) →
  ((∀ m, P m = true ↔ m ∈ L) ∨ ∀ m, P m = false) →
  wp (for_ (length L) 0 install_body) (λ _ s', let ws := home_writes V (l_start l) L in
    lg s' = l ∧ bspec (updates V ws) none (unpin P ws) (writes B ws) (trail B ws pa) (bs s')) s.
Proof.
  intros Hb Hl Hdev [Hsm Hst Hend Hnd Hhome] HL Hlen HPlog HP.
  set (ws := home_writes V (l_start l) L).
  assert (Hws : length ws = length L) by apply length_imap.
  pose proof (wp_for (λ k s', lg s' = l ∧ bspec (updates V (take k ws)) none (unpin P (take k ws))
    (writes B (take k ws)) (trail B (take k ws) pa) (bs s')) install_body (length L) 0 s) as Hfor.
  simpl in Hfor. rewrite <- Hws, (take_ge ws (length ws)) in Hfor by lia. rewrite <- Hws. apply Hfor; clear Hfor.
  { done. }
  intros k t Hk [Hlt Hbt]. rewrite Hws in Hk.
  destruct (lookup_lt_is_Some_2 L k) as [d Hd]; [lia|].
  assert (Hwk : ws !! k = Some (d, V (l_start l + Z.of_nat k + 1))).
  { unfold ws, home_writes. by rewrite list_lookup_imap, Hd. }
  rewrite (take_S_r _ _ _ Hwk), updates_app, unpin_app, writes_app, trail_app.
  pose proof (Hhome d (list_elem_of_lookup_2 _ _ _ Hd)) as [Hin Hout].
  assert (Hfst : (take k ws).*1 = take k L).
  { by rewrite <- (home_writes_fst V (l_start l) L), fmap_take. }
  assert (Hsrc : ∀ j, (j <= length L)%nat → l_start l + Z.of_nat j ∉ (take k ws).*1).
  { intros j Hj Hx. rewrite Hfst in Hx. apply elem_of_take in Hx as (i & Hi & _).
    apply list_elem_of_lookup_2, Hhome in Hi. lia. }
  assert (Hdk : d ∉ (take k ws).*1).
  { rewrite Hfst. intros (i & Hi & Hik)%elem_of_take.
    pose proof (NoDup_lookup _ _ _ _ Hnd Hi Hd). lia. }
  replace (V (l_start l + Z.of_nat k + 1))
    with (updates V (take k ws) (l_start l + Z.of_nat k + 1)).
  2:{ apply updates_other. replace (l_start l + Z.of_nat k + 1) with (l_start l + Z.of_nat (S k)) by lia.
      apply Hsrc. lia. }
  eapply install_body_spec; try done; cbn [fst snd].
  - rewrite <- HL in Hd. apply lookup_take_Some in Hd as [? _]. exact H1.
  - unfold small. by rewrite length_writes.
  - apply in_blocks_writes. unfold in_blocks. lia.
  - by apply in_blocks_writes.
  - lia.
  - destruct (unpin P (take k ws) _) eqn:E; [|done]. apply unpin_true in E as [E _].
    rewrite <- E. replace (l_start l + Z.of_nat k + 1) with (l_start l + Z.of_nat (S k)) by lia.
    apply HPlog. lia.
  - apply (few_busy_none _ L); [|done]. intros m [Hm _]%unpin_true.
    destruct HP as [HP|HP]; [by apply HP|]. by rewrite HP in Hm.
  - destruct HP as [HP|HP].
    + left. rewrite unpin_other by done. apply HP. by eapply list_elem_of_lookup_2.
    + right. exists [l_start l + Z.of_nat k + 1]. split; [|simpl; unfold NBUF, MAXOPBLOCKS; lia].
      intros m [Hm|[Hm _]%unpin_true]; [|by rewrite HP in Hm].
      unfold upd, none in Hm. case_decide; [set_solver|done].
Qed.

Lemma write_log_loop V P B pa l s L :
  bspec V none P B pa (bs s) → lg s = l → l_dev l = 1 → layout B (l_start l) L →
  take (length L) (lh_block l) = L → (length L < NBUF)%nat → (∀ m, P m = true ↔ m ∈ L) →
  wp (for_ (length L) 0 write_log_body) (λ _ s', let ws := log_writes V (l_start l) L in
    lg s' = l ∧ bspec (updates V ws) none P (writes B ws) (trail B ws pa) (bs s')) s.
Proof.
  intros Hb Hl Hdev [Hsm Hst Hend Hnd Hhome] HL Hlen HP.
  set (ws := log_writes V (l_start l) L).
  assert (Hws : length ws = length L) by apply length_imap.
  pose proof (wp_for (λ k s', lg s' = l ∧ bspec (updates V (take k ws)) none P
    (writes B (take k ws)) (trail B (take k ws) pa) (bs s')) write_log_body (length L) 0 s) as Hfor.
  simpl in Hfor. rewrite <- Hws, (take_ge ws (length ws)) in Hfor by lia. rewrite <- Hws.
  apply Hfor; clear Hfor; [done|].
  intros k t Hk [Hlt Hbt]. rewrite Hws in Hk.
  destruct (lookup_lt_is_Some_2 L k) as [d Hd]; [lia|].
  assert (Hwk : ws !! k = Some (l_start l + Z.of_nat k + 1, V d)).
  { unfold ws, log_writes. by rewrite list_lookup_imap, Hd. }
  rewrite (take_S_r _ _ _ Hwk), updates_app, writes_app, trail_app.
  pose proof (Hhome d (list_elem_of_lookup_2 _ _ _ Hd)) as [Hin Hout].
  assert (Hdk : d ∉ (take k ws).*1).
  { intros (i & Hi)%list_elem_of_lookup. rewrite fmap_take, lookup_take_Some in Hi.
    destruct Hi as [Hi _]. apply log_writes_fst in Hi. lia. }
  replace (V d) with (updates V (take k ws) d) by by apply updates_other.
  eapply write_log_body_spec; try done; cbn [fst snd].
  - rewrite <- HL in Hd. by apply lookup_take_Some in Hd as [? _].
  - unfold small. by rewrite length_writes.
  - by apply in_blocks_writes.
  - apply in_blocks_writes. unfold in_blocks. lia.
  - lia.
  - apply HP. by eapply list_elem_of_lookup_2.
  - destruct (P _) eqn:E; [|done]. apply HP, Hhome in E. lia.
  - apply (few_busy_none _ L); [|done]. intros m. apply HP.
Qed.
End log_rules.

(** ** The header block *)

Fixpoint put_blocks (k : nat) (L : list Z) (d : list Z) : list Z :=
  match L with
  | [] => d
  | v :: L => put_blocks (S k) L (put_le (4 + 4 * k) 4 v d)
  end.

(** What [write_head] leaves in the header block. *)
Definition head_image (L : list Z) (d : list Z) : list Z :=
  put_blocks 0 L (put_le 0 4 (Z.of_nat (length L)) d).

(** What [read_head] takes the header block to say. *)
Definition head_n (d : list Z) : Z := i32 (get_le 0 4 d).
Definition head_block (d : list Z) (i : nat) : Z := i32 (get_le (4 + 4 * i) 4 d).
Definition head_says (d : list Z) (L : list Z) : Prop :=
  head_n d = Z.of_nat (length L) ∧ ∀ k v, L !! k = Some v → head_block d k = v.

Lemma put_blocks_app k L L' d :
  put_blocks k (L ++ L') d = put_blocks (k + length L) L' (put_blocks k L d).
Proof.
  revert k d. induction L as [|v L IH]; intros k d; simpl; [by rewrite Nat.add_0_r|].
  rewrite IH. f_equal. lia.
Qed.

Lemma put_blocks_ok k L d :
  block_ok d → (4 + 4 * (k + length L) <= 512)%nat → block_ok (put_blocks k L d).
Proof.
  revert k d. induction L as [|v L IH]; intros k d Hd Hk; simpl in *; [done|].
  destruct Hd as [Hlen Hok]. apply IH; [|lia].
  split; [rewrite put_le_length; lia|by apply put_le_ok].
Qed.

Lemma put_blocks_other k L d off :
  block_ok d → (4 + 4 * (k + length L) <= 512)%nat → (off + 4 <= 4 + 4 * k)%nat →
  get_le off 4 (put_blocks k L d) = get_le off 4 d.
Proof.
  revert k d. induction L as [|v L IH]; intros k d Hd Hk Ho; simpl in *; [done|].
  destruct Hd as [Hlen Hok]. rewrite IH; [apply get_put_other; lia| |lia..].
  split; [rewrite put_le_length; lia|by apply put_le_ok].
Qed.

Lemma put_blocks_same k L d i v :
  block_ok d → (4 + 4 * (k + length L) <= 512)%nat → L !! i = Some v →
  get_le (4 + 4 * (k + i)) 4 (put_blocks k L d) = v mod 256 ^ 4.
Proof.
  revert k d i. induction L as [|w L IH]; intros k d i Hd Hk Hi; [done|].
  destruct Hd as [Hlen Hok].
  assert (Hd' : block_ok (put_le (4 + 4 * k) 4 w d)).
  { simpl in Hk. split; [rewrite put_le_length; lia|by apply put_le_ok]. }
  destruct i as [|i]; cbn [put_blocks]; simpl in Hi, Hk.
  - injection Hi as ->. rewrite put_blocks_other; [|done|lia..].
    rewrite Nat.add_0_r. apply get_put_same. lia.
  - rewrite <- Nat.add_succ_comm. apply IH; [done|lia|done].
Qed.

Lemma head_image_ok L d : block_ok d → (length L <= 127)%nat → block_ok (head_image L d).
Proof.
  intros [Hlen Hok] HL. apply put_blocks_ok; [|lia].
  split; [rewrite put_le_length; lia|by apply put_le_ok].
Qed.

(** Writing the header and reading it back gives the same block list. *)
Lemma head_image_says L d :
  block_ok d → (length L <= 127)%nat → Forall (λ v, 0 <= v < 2147483648) L →
  head_says (head_image L d) L.
Proof.
  intros Hd HL Hr. assert (Hd' : block_ok (put_le 0 4 (Z.of_nat (length L)) d)).
  { destruct Hd. split; [rewrite put_le_length; lia|by apply put_le_ok]. }
  split.
  - unfold head_n, head_image. rewrite put_blocks_other by (done || lia).
    rewrite get_put_same by (destruct Hd; lia). rewrite Z.mod_small by lia. apply i32_id. lia.
  - intros k v Hk. unfold head_block, head_image.
    pose proof (put_blocks_same 0 L _ k v Hd' ltac:(lia) Hk) as E.
    change (0 + k)%nat with k in E. rewrite E.
    pose proof (Forall_lookup_1 _ _ _ _ Hr Hk) as Hv. simpl in Hv.
    rewrite Z.mod_small by lia. apply i32_id. lia.
Qed.

Section log_ops.
Context {D : Type} `{BlockDriverOk D}.
Implicit Types s : lstate D.

Lemma write_head_spec V P B pa l s L :
  bspec V none P B pa (bs s) → lg s = l → l_dev l = 1 → small B → in_blocks B (l_start l) →
  lh_n l = Z.of_nat (length L) → take (length L) (lh_block l) = L → (length L <= 127)%nat →
  P (l_start l) = false → few_busy none P →
  wp write_head (λ _ s', let img := head_image L (V (l_start l)) in lg s' = l ∧
    bspec (upd V (l_start l) img) none P (<[Z.to_nat (l_start l) := img]> B) (B :: pa) (bs s')) s.
Proof.
  intros Hb Hl Hdev Hsm Hin Hn HL Hlen HP Hf. set (start := l_start l) in *.
  pose proof (bspec_ok _ _ _ _ _ _ start Hb Hin) as Hok.
  unfold write_head, lbread, ldata, lset_data, lbwrite, lbrelse.
  rewrite wp_bind, wp_getlog, wp_bind, wp_getlog, Hl, Hdev. fold start.
  rewrite wp_bind, wp_liftb, (small_u32 _ _ Hsm Hin). change (u32 1) with 1.
  eapply rule_bread; [exact Hb|done|done|by right|]. intros i b1 Hb1 Hi1 _.
  rewrite wp_bind, wp_getlog. cbn [lg bs]. rewrite Hl, Hn, Nat2Z.id.
  rewrite wp_bind, wp_liftb. cbn [bs lg]. eapply rule_buf_data; [exact Hb1|done..|].
  assert (Hok0 : block_ok (put_le 0 4 (Z.of_nat (length L)) (V start))).
  { destruct Hok. split; [rewrite put_le_length; lia|by apply put_le_ok]. }
  rewrite wp_bind, wp_liftb. cbn [bs lg]. eapply rule_set_data; [exact Hb1|done..|].
  intros b2 Hb2 Hk2. apply Hk2 in Hi1.
  rewrite wp_bind.
  set (img k := put_blocks 0 (take k L) (put_le 0 4 (Z.of_nat (length L)) (V start))).
  eapply wp_mono.
  { apply (wp_for (λ k t, lg t = l ∧ handle (bs t) i start ∧
      bspec (upd V start (img k)) (upd none start true) P B pa (bs t))).
    - cbn [lg bs]. done.
    - intros k t Hk (Hlt & Hit & Hbt). destruct (lookup_lt_is_Some_2 L k) as [v Hv]; [lia|].
      rewrite wp_bind. apply (wp_get_block _ v).
      { rewrite Hlt. rewrite <- HL in Hv. by apply lookup_take_Some in Hv as [? _]. }
      rewrite wp_bind, wp_liftb. eapply rule_buf_data; [exact Hbt|done..|]. rewrite upd_eq.
      assert (Himg : img (S k) = put_le (4 + 4 * k) 4 v (img k)).
      { unfold img. rewrite (take_S_r _ _ _ Hv), put_blocks_app, length_take.
        by replace (0 + k `min` length L)%nat with k by lia. }
      rewrite wp_liftb. cbn [bs lg]. eapply rule_set_data; [exact Hbt|done|..].
      + rewrite <- Himg. apply put_blocks_ok; [done|]. rewrite length_take. lia.
      + rewrite <- Himg. intros b3 Hb3 Hk3. cbn [lg bs]. split_and!; [done|by apply Hk3|].
        eapply bspec_ext; [exact Hb3| |done|done]. intros m _. unfold upd. by repeat case_decide. }
  intros _ t (Hlt & Hit & Hbt). cbn [Nat.add] in Hbt. unfold img in Hbt.
  rewrite take_ge in Hbt by lia. fold (head_image L (V start)) in Hbt.
  rewrite wp_bind, wp_liftb. eapply rule_bwrite; [exact Hbt|done..|]. rewrite upd_eq.
  intros b4 Hb4 Hk4. apply Hk4 in Hit. rewrite wp_liftb. cbn [bs lg].
  eapply rule_brelse; [exact Hb4|done|by rewrite in_blocks_insert|..].
  { right. by rewrite upd_eq, bat_insert, decide_True. }
  intros b5 Hb5 _. split; [done|]. eapply bspec_ext; [exact Hb5|done|..].
  - intros m. unfold upd, none. by repeat case_decide.
  - intros m. unfold upd. case_decide; [by subst|done].
Qed.

Lemma read_head_spec V P B pa l s L :
  bspec V none P B pa (bs s) → lg s = l → l_dev l = 1 → small B → in_blocks B (l_start l) →
  length (lh_block l) = Z.to_nat LOGSIZE → head_says (V (l_start l)) L →
  (length L <= Z.to_nat LOGSIZE)%nat → P (l_start l) = false → few_busy none P →
  wp read_head (λ _ s', bspec V none P B pa (bs s') ∧
    lg s' = set_lh_block (L ++ drop (length L) (lh_block l)) (set_lh_n (Z.of_nat (length L)) l)) s.
Proof.
  intros Hb Hl Hdev Hsm Hin Hbl [Hn HL] Hlen HP Hf. set (start := l_start l) in *.
  pose proof (bspec_clean _ _ _ _ _ _ start Hb Hin eq_refl HP) as Hclean.
  unfold read_head, lbread, ldata, lbrelse.
  rewrite wp_bind, wp_getlog, wp_bind, wp_getlog, Hl, Hdev. fold start.
  rewrite wp_bind, wp_liftb, (small_u32 _ _ Hsm Hin). change (u32 1) with 1.
  eapply rule_bread; [exact Hb|done|done|by right|]. intros i b1 Hb1 Hi1 _.
  rewrite wp_bind, wp_liftb. cbn [bs lg]. eapply rule_buf_data; [exact Hb1|done..|].
  fold (head_n (V start)). rewrite Hn, Nat2Z.id. rewrite wp_bind, wp_modlog. cbn [lg bs].
  rewrite wp_bind. eapply wp_mono.
  { apply (wp_for (λ k t, bs t = b1 ∧ lg t = set_lh_block (take k L ++ drop k (lh_block l))
      (set_lh_n (Z.of_nat (length L)) l))).
    - rewrite Hl. split; [done|]. by destruct l.
    - intros k t Hk (Hbt & Hlt). destruct (lookup_lt_is_Some_2 L k) as [v Hv]; [lia|].
      unfold set_block. rewrite wp_bind, wp_getlog, Hlt. cbn [lh_block set_lh_block set_lh_n].
      rewrite (proj2 (Nat.ltb_lt _ _)) by (rewrite length_app, length_take, length_drop; lia).
      rewrite wp_modlog. cbn [lg bs]. split; [done|]. rewrite Hlt.
      fold (head_block (V start) k). rewrite (HL _ _ Hv). unfold set_lh_block, set_lh_n. cbn.
      f_equal. rewrite (take_S_r _ _ _ Hv).
      rewrite insert_app_r_alt by (rewrite length_take; lia). rewrite <- app_assoc. f_equal.
      rewrite length_take. replace (k - k `min` length L)%nat with 0%nat by lia.
      destruct (lookup_lt_is_Some_2 (lh_block l) k) as [w Hw]; [lia|].
      by rewrite (drop_S _ _ _ Hw). }
  intros _ t (Hbt & Hlt). cbn [Nat.add] in Hlt. rewrite (take_ge L) in Hlt by lia.
  rewrite wp_liftb, Hbt. eapply rule_brelse; [exact Hb1|done|done|by right|].
  intros b2 Hb2 _. cbn [lg bs]. split; [|done]. eapply bspec_ext; [exact Hb2|done| |done].
  intros m. unfold upd, none. by repeat case_decide.
Qed.

(** *** Commit *)

(** The disk writes of [commit], in order. *)
Definition commit_writes (V : Z → list Z) (start : Z) (L : list Z) : list (Z * list Z) :=
  log_writes V start L ++ [(start, head_image L (V start))] ++
  ((λ d, (d, V d)) <$> L) ++ [(start, head_image [] (head_image L (V start)))].

(** A transaction ready to commit: block [m] reads as [V m], exactly the
    blocks of [L] are pinned, the log lists them, nothing is locked. *)
Record ready (V : Z → list Z) (B : list (list Z)) (pa : list (list (list Z))) (L : list Z) s : Prop := {
  rd_bspec : bspec V none (λ m, bool_decide (m ∈ L)) B pa (bs s);
  rd_dev : l_dev (lg s) = 1;
  rd_layout : layout B (l_start (lg s)) L;
  rd_n : lh_n (lg s) = Z.of_nat (length L);
  rd_blocks : take (length L) (lh_block (lg s)) = L;
  rd_room : (length L < NBUF)%nat;
}.

Lemma home_writes_logged V start L B :
  layout B start L → ∀ V', (∀ k d, L !! k = Some d → V' (start + Z.of_nat k + 1) = V d) →
  home_writes V' start L = (λ d, (d, V d)) <$> L.
Proof.
  intros Hlay V' HV. apply list_eq. intros k. unfold home_writes.
  rewrite list_lookup_imap, list_lookup_fmap. destruct (L !! k) as [d|] eqn:Hd; [|done].
  simpl. by rewrite (HV _ _ Hd).
Qed.

Lemma log_writes_updates V start L k d :
  L !! k = Some d → updates V (log_writes V start L) (start + Z.of_nat k + 1) = V d.
Proof.
  intros Hd. eapply updates_in.
  - apply NoDup_alt. intros i j x Hi%log_writes_fst Hj%log_writes_fst. lia.
  - unfold log_writes. by rewrite list_lookup_imap, Hd.
Qed.

Lemma log_writes_other V start L m :
  m <= start ∨ start + Z.of_nat (length L) < m → m ∉ (log_writes V start L).*1.
Proof. intros Hm (k & Hk)%list_elem_of_lookup. apply log_writes_fst in Hk. lia. Qed.

Lemma layout_writes B start L ws : layout B start L → layout (writes B ws) start L.
Proof.
  intros [H1 H2 H3 H4 H5]. split; unfold small; rewrite ?length_writes; try done.
  intros d Hd. rewrite in_blocks_writes. by apply H5.
Qed.

Lemma layout_start B start L : layout B start L → in_blocks B start.
Proof. intros [_ ? ? _ _]. unfold in_blocks. lia. Qed.

Lemma layout_not_logged B start L : layout B start L → start ∉ L.
Proof. intros Hl Hs. apply (lay_home _ _ _ Hl) in Hs. lia. Qed.

Lemma commit_spec V B pa L s :
  ready V B pa L s → L ≠ [] →
  wp commit (λ _ s', let ws := commit_writes V (l_start (lg s)) L in
    lg s' = set_lh_n 0 (lg s) ∧
    bspec (updates V ws) none none (writes B ws) (trail B ws pa) (bs s')) s.
Proof.
  intros [Hb Hdev Hlay Hn HL Hroom] HLne. set (l := lg s) in *. set (start := l_start l) in *.
  set (P := λ m, bool_decide (m ∈ L)) in *.
  assert (HP : ∀ m, P m = true ↔ m ∈ L) by (intros; apply bool_decide_eq_true).
  assert (HPs : P start = false) by by apply bool_decide_eq_false_2, (layout_not_logged B).
  assert (Hf : few_busy none P) by (apply (few_busy_none _ L); [apply HP|done]).
  assert (H127 : (length L <= 127)%nat) by (unfold NBUF, MAXOPBLOCKS in Hroom; lia).
  pose proof (layout_start _ _ _ Hlay) as Hin.
  assert (HLpos : (0 < length L)%nat) by (destruct L; [done|simpl; lia]).
  unfold commit. rewrite wp_bind, wp_getlog. fold l. rewrite Hn.
  rewrite (proj2 (Z.ltb_lt _ _)) by lia.
  unfold write_log. rewrite wp_bind, wp_bind, wp_getlog. fold l. rewrite Hn, Nat2Z.id.
  eapply wp_mono; [by eapply (write_log_loop V P B pa l)|]. cbn zeta beta. fold start.
  intros _ t1 [Hl1 Hb1]. set (w1 := log_writes V start L) in *.
  rewrite wp_bind. eapply wp_mono.
  { eapply (write_head_spec _ P _ _ l _ L); try done; [|by apply in_blocks_writes].
    unfold small. rewrite length_writes. apply Hlay. }
  cbn zeta beta. fold start. intros _ t2 [Hl2 Hb2].
  rewrite (updates_other V w1 start) in Hb2 by (apply log_writes_other; lia).
  set (h1 := head_image L (V start)) in *.
  change (upd (updates V w1) start h1) with (updates (updates V w1) [(start, h1)]) in Hb2.
  change (<[Z.to_nat start:=h1]> (writes B w1)) with (writes (writes B w1) [(start, h1)]) in Hb2.
  change (writes B w1 :: trail B w1 pa) with (trail (writes B w1) [(start, h1)] (trail B w1 pa)) in Hb2.
  rewrite <- updates_app, <- writes_app, <- trail_app in Hb2.
  unfold install_trans. rewrite wp_bind, wp_bind, wp_getlog, Hl2, Hn, Nat2Z.id.
  eapply wp_mono.
  { eapply (install_loop _ P _ _ l); try done.
    - by apply layout_writes.
    - intros k Hk. apply bool_decide_eq_false_2. intros Hx%(lay_home _ _ _ Hlay). fold start in Hx. lia.
    - by left. }
  cbn zeta beta. fold start. intros _ t3 [Hl3 Hb3].
  rewrite (home_writes_logged V start L B Hlay) in Hb3.
  2:{ intros k d Hd. rewrite updates_app. rewrite updates_other by (simpl; set_unfold; lia).
      by apply log_writes_updates. }
  set (w3 := (λ d, (d, V d)) <$> L) in *. rewrite <- updates_app, <- writes_app, <- trail_app in Hb3.
  assert (Hw3 : w3.*1 = L) by (unfold w3; rewrite <- list_fmap_compose; apply list_fmap_id).
  eapply (bspec_ext _ _ _ _ _ none) in Hb3; [|done|done|].
  2:{ intros m. destruct (unpin P w3 m) eqn:E; [|done]. apply unpin_true in E as [E Hm].
      rewrite Hw3 in Hm. by apply HP in E. }
  rewrite wp_bind, wp_modlog. eapply wp_mono.
  { eapply (write_head_spec _ none _ _ (set_lh_n 0 l) _ []); cbn [lg bs]; try done.
    - by rewrite Hl3.
    - unfold small. rewrite length_writes. apply Hlay.
    - by apply in_blocks_writes.
    - simpl. lia.
    - exact few_busy_nothing. }
  cbn zeta beta. change (l_start (set_lh_n 0 l)) with start. intros _ t4 [Hl4 Hb4]. split; [done|].
  assert (Hst : updates V ((w1 ++ [(start, h1)]) ++ w3) start = h1).
  { rewrite updates_app, updates_other by (rewrite Hw3; by apply (layout_not_logged B)).
    rewrite updates_app. simpl. apply upd_eq. }
  rewrite Hst in Hb4. unfold commit_writes. fold w1 h1 w3.
  rewrite (app_assoc [_]), app_assoc, (app_assoc w1), updates_app, writes_app, trail_app. exact Hb4.
Qed.

(** *** Recovery *)

(** A platter [initlog] can mount: block 1 names [start] as the log, whose
    header lists [L]. *)
Record mountable (B : list (list Z)) (start : Z) (L : list Z) : Prop := {
  mt_super : i32 (sb_logstart (superblock_of (bat B 1))) = start;
  mt_one : in_blocks B 1;
  mt_head : head_says (bat B start) L;
  mt_layout : layout B start L;
  mt_room : (length L < NBUF)%nat;
}.

Definition recover_writes (B : list (list Z)) (start : Z) (L : list Z) : list (Z * list Z) :=
  home_writes (bat B) start L ++ [(start, head_image [] (bat B start))].

Lemma readsb_spec V B pa s :
  bspec V none none B pa (bs s) → in_blocks B 1 →
  wp (readsb 1) (λ sb s', sb = superblock_of (V 1) ∧ lg s' = lg s ∧ bspec V none none B pa (bs s')) s.
Proof.
  intros Hb Hin. pose proof (bspec_clean _ _ _ _ _ _ 1 Hb Hin eq_refl eq_refl) as Hclean.
  unfold readsb, lbread, ldata, lbrelse. rewrite wp_bind, wp_liftb. change (u32 1) with 1.
  eapply rule_bread; [exact Hb|done|done|right; exact few_busy_nothing|]. intros i b1 Hb1 Hi1 _.
  rewrite wp_bind, wp_liftb. cbn [bs lg]. eapply rule_buf_data; [exact Hb1|done..|].
  rewrite wp_bind, wp_liftb. cbn [bs lg]. eapply rule_brelse; [exact Hb1|done|done|by right|].
  intros b2 Hb2 _. rewrite wp_ret. split_and!; [done..|]. cbn [bs].
  eapply bspec_ext; [exact Hb2|done| |done]. intros m. unfold upd, none. by repeat case_decide.
Qed.

Lemma recover_spec B pa s L :
  bspec (bat B) none none B pa (bs s) → l_dev (lg s) = 1 →
  length (lh_block (lg s)) = Z.to_nat LOGSIZE → mountable B (l_start (lg s)) L →
  wp recover_from_log (λ _ s', let ws := recover_writes B (l_start (lg s)) L in
    lg s' = set_lh_n 0 (set_lh_block (L ++ drop (length L) (lh_block (lg s))) (lg s)) ∧
    bspec (updates (bat B) ws) none none (writes B ws) (trail B ws pa) (bs s')) s.
Proof.
  intros Hb Hdev Hbl [_ _ Hhead Hlay Hroom]. set (l := lg s) in *. set (start := l_start l) in *.
  pose proof (layout_start _ _ _ Hlay) as Hin.
  unfold recover_from_log. rewrite wp_bind. eapply wp_mono.
  { eapply (read_head_spec _ none _ _ l); try done; [apply Hlay| |exact few_busy_nothing].
    change NBUF with (Z.to_nat LOGSIZE) in Hroom. lia. }
  set (l2 := set_lh_block _ _). intros _ t1 [Hb1 Hl1].
  unfold install_trans. rewrite wp_bind, wp_bind, wp_getlog, Hl1.
  change (lh_n l2) with (Z.of_nat (length L)). rewrite Nat2Z.id.
  eapply wp_mono.
  { eapply (install_loop _ none _ _ l2); try done; [apply take_app_length|by right]. }
  cbn zeta beta. change (l_start l2) with start. intros _ t2 [Hl2 Hb2].
  set (w1 := home_writes (bat B) start L) in *.
  eapply (bspec_ext _ _ _ _ _ none) in Hb2; [|done|done|].
  2:{ intros m. destruct (unpin none w1 m) eqn:E; [|done]. by apply unpin_true in E as [E _]. }
  rewrite wp_bind, wp_modlog. eapply wp_mono.
  { eapply (write_head_spec _ none _ _ (set_lh_n 0 l2) _ []); cbn [lg bs]; try done.
    - by rewrite Hl2.
    - unfold small. rewrite length_writes. apply Hlay.
    - by apply in_blocks_writes.
    - simpl. lia.
    - exact few_busy_nothing. }
  cbn zeta beta. change (l_start (set_lh_n 0 l2)) with start. intros _ t3 [Hl3 Hb3]. split; [done|].
  rewrite updates_other in Hb3.
  2:{ unfold w1. rewrite home_writes_fst. by apply (layout_not_logged B). }
  unfold recover_writes. fold w1. rewrite updates_app, writes_app, trail_app. exact Hb3.
Qed.

Lemma initlog_spec B pa s L start :
  bspec (bat B) none none B pa (bs s) → length (lh_block (lg s)) = Z.to_nat LOGSIZE →
  mountable B start L →
  wp (initlog 1) (λ _ s', let ws := recover_writes B start L in
    lg s' = Log start (i32 (sb_nlog (superblock_of (bat B 1)))) (l_outstanding (lg s))
      (l_committing (lg s)) 1 0 (L ++ drop (length L) (lh_block (lg s))) ∧
    bspec (updates (bat B) ws) none none (writes B ws) (trail B ws pa) (bs s')) s.
Proof.
  intros Hb Hbl Hm. unfold initlog. change (BSIZE <=? sizeof_logheader) with false. cbv iota.
  rewrite wp_bind. eapply wp_mono; [eapply readsb_spec; [exact Hb|apply Hm]|].
  intros sb t1 (-> & Hl1 & Hb1). rewrite wp_bind, wp_modlog, (mt_super _ _ _ Hm), Hl1.
  eapply wp_mono; [eapply recover_spec; [exact Hb1|done|done|exact Hm]|].
  cbn zeta beta. cbn [lg l_start set_layout]. intros _ t2 [Hl2 Hb2]. split; [|exact Hb2].
  rewrite Hl2. done.
Qed.

(** *** Power failure during a commit *)

Lemma prefix_cases {A} (w1 w3 : list A) h h0 k :
  let ws := w1 ++ [h] ++ w3 ++ [h0] in
  take k ws = take k w1 ∨ (∃ j, take k ws = w1 ++ [h] ++ take j w3) ∨ take k ws = ws.
Proof.
  intros ws. destruct (decide (k <= length w1)%nat) as [Hk|Hk].
  { left. unfold ws. by rewrite take_app_le. }
  right. unfold ws. destruct (decide (k <= length w1 + 1 + length w3)%nat) as [Hk2|Hk2].
  - left. exists (k - length w1 - 1)%nat. rewrite take_app_ge by lia. f_equal.
    rewrite take_app_ge by (simpl; lia). f_equal. simpl. by rewrite take_app_le by lia.
  - right. apply take_ge. rewrite !length_app. simpl. lia.
Qed.

Lemma fst_pair_fmap (V : Z → list Z) (L : list Z) : ((λ d, (d, V d)) <$> L).*1 = L.
Proof. rewrite <- list_fmap_compose. apply list_fmap_id. Qed.

Lemma in_blocks_log_writes V start L B : layout B start L → Forall (in_blocks B) (log_writes V start L).*1.
Proof.
  intros [_ ? ? _ _]. apply Forall_lookup. intros k x Hx%log_writes_fst. unfold in_blocks. lia.
Qed.

Lemma in_blocks_home L start B : layout B start L → Forall (in_blocks B) L.
Proof. intros Hl. apply Forall_forall. intros d Hd. by apply (lay_home _ _ _ Hl). Qed.

(** The blocks that are not part of the log. *)
Definition outside (start : Z) (L : list Z) (m : Z) : Prop :=
  m < start ∨ start + Z.of_nat (length L) < m.

(** What holds of the platter when the transaction starts to commit. *)
Record quiet (V : Z → list Z) (B : list (list Z)) (start : Z) (L : list Z) : Prop := {
  q_layout : layout B start L;
  q_room : (length L < NBUF)%nat;
  q_super : i32 (sb_logstart (superblock_of (V 1))) = start;
  q_one : in_blocks B 1 ∧ outside start L 1 ∧ 1 ∉ L;
  q_empty : head_n (V start) = 0;
  q_clean : ∀ m, in_blocks B m → m ∉ L → V m = bat B m;
  q_ok : block_ok (V start);
}.

Lemma layout_nil B start L : layout B start L → layout B start [].
Proof.
  intros [? ? ? ? ?]. split; [done|done|simpl; lia|constructor|].
  intros d Hd. by apply elem_of_nil in Hd.
Qed.

Lemma head_says_nil d : head_n d = 0 → head_says d [].
Proof. intros Hn. split; [done|]. intros k v Hk. by rewrite lookup_nil in Hk. Qed.

Lemma nil_recovered p start L m :
  outside start L m → updates (bat p) (recover_writes p start []) m = bat p m.
Proof. intros Hm. simpl. apply upd_ne. unfold outside in Hm. lia. Qed.

Lemma crash_before_head V B start L k m :
  quiet V B start L → let p := writes B (take k (log_writes V start L)) in
  mountable p start [] ∧ (in_blocks B m → outside start L m →
    updates (bat p) (recover_writes p start []) m = bat B m).
Proof.
  intros [Hlay Hroom Hsup (H1 & H1o & H1L) Hemp Hclean Hok] p.
  assert (Hp : ∀ x, in_blocks B x → x <= start ∨ start + Z.of_nat (length L) < x → bat p x = bat B x).
  { intros x Hx Ho. unfold p. rewrite bat_writes; [|rewrite fmap_take|done].
    - apply updates_other. rewrite fmap_take. intros (i & Hi & _)%elem_of_take.
      by apply (log_writes_other V start L x Ho), (list_elem_of_lookup_2 _ i).
    - by apply Forall_take, in_blocks_log_writes. }
  pose proof (layout_start _ _ _ Hlay) as Hs.
  split; [split|].
  - unfold outside in H1o. rewrite Hp, <- Hclean by (done || lia). done.
  - by apply in_blocks_writes.
  - apply head_says_nil. rewrite Hp, <- Hclean by (done || lia || by apply (layout_not_logged B)). done.
  - by apply layout_writes, (layout_nil _ _ L).
  - simpl. apply Nat.ltb_lt. reflexivity.
  - intros Hm Ho. rewrite (nil_recovered _ _ L) by done. unfold outside in Ho. apply Hp; [done|lia].
Qed.

Lemma updates_prefix_home V L j (f : Z → list Z) m :
  NoDup L → f m = V m ∨ m ∈ take j L → updates f (take j ((λ d, (d, V d)) <$> L)) m = V m.
Proof.
  intros Hnd Hm. rewrite <- fmap_take.
  destruct (decide (m ∈ take j L)) as [Hin|Hout].
  - apply list_elem_of_lookup in Hin as [i Hi]. eapply (updates_in _ _ i).
    + rewrite fst_pair_fmap. apply (sublist_NoDup _ L); [done|apply sublist_take].
    + by rewrite list_lookup_fmap, Hi.
  - rewrite updates_other by by rewrite fst_pair_fmap. destruct Hm; [done|done].
Qed.

Lemma outside_or_log V start L m :
  in_blocks V m → layout V start L → ¬ outside start L m → m = start ∨
    ∃ k d, L !! k = Some d ∧ m = start + Z.of_nat k + 1.
Proof.
  intros Hm Hl Ho. unfold outside in Ho. destruct (decide (m = start)) as [|Hne]; [by left|right].
  destruct (lookup_lt_is_Some_2 L (Z.to_nat (m - start - 1))) as [d Hd]; [lia|].
  exists (Z.to_nat (m - start - 1)), d. split; [done|lia].
Qed.

(** The platter once the header is on it and [j] blocks are installed. *)
Lemma bat_installed V B start L j :
  quiet V B start L →
  let p := writes B (log_writes V start L ++ [(start, head_image L (V start))] ++
                     take j ((λ d, (d, V d)) <$> L)) in
  bat p start = head_image L (V start) ∧
  (∀ k d, L !! k = Some d → bat p (start + Z.of_nat k + 1) = V d) ∧
  (∀ m, in_blocks B m → outside start L m → m ∉ L ∨ (length L <= j)%nat → bat p m = V m).
Proof.
  intros [Hlay _ _ _ _ Hclean _] p.
  pose proof (layout_start _ _ _ Hlay) as Hs. pose proof (lay_nodup _ _ _ Hlay) as Hnd.
  assert (Hall : Forall (in_blocks B) (log_writes V start L ++ [(start, head_image L (V start))] ++
                     take j ((λ d, (d, V d)) <$> L)).*1).
  { rewrite !fmap_app, fmap_take, fst_pair_fmap. apply Forall_app; split; [by apply in_blocks_log_writes|].
    constructor; [done|]. by eapply Forall_take, in_blocks_home. }
  assert (Hlog : ∀ m, m ∈ L → outside start L m) by (intros m Hm; by apply (lay_home _ _ _ Hlay)).
  assert (Hnt : ∀ m, ¬ outside start L m → m ∉ (take j ((λ d, (d, V d)) <$> L)).*1).
  { intros m Ho. rewrite fmap_take, fst_pair_fmap. intros (i & Hi & _)%elem_of_take.
    by apply Ho, Hlog, (list_elem_of_lookup_2 _ i). }
  unfold p. split_and!.
  - rewrite bat_writes, !updates_app, updates_other; [apply upd_eq| |done|done].
    apply Hnt. unfold outside. lia.
  - intros k d Hd. pose proof (lookup_lt_Some _ _ _ Hd). rewrite bat_writes, !updates_app; [|done|].
    + rewrite updates_other by (apply Hnt; unfold outside; lia).
      rewrite updates_other by (simpl; set_unfold; lia). unfold log_writes.
      eapply updates_in; [|by rewrite list_lookup_imap, Hd].
      apply NoDup_alt. intros i i' x Hi%log_writes_fst Hi'%log_writes_fst. lia.
    + destruct Hlay. unfold in_blocks. lia.
  - intros m Hm Ho HmL. rewrite bat_writes, !updates_app by done.
    destruct (decide (m ∈ L)) as [Hin|Hout].
    + apply updates_prefix_home; [done|]. right. rewrite take_ge; [done|]. destruct HmL; [done|lia].
    + rewrite !updates_other; [by rewrite Hclean|..].
      * apply log_writes_other. unfold outside in Ho. lia.
      * unfold outside in Ho. simpl. set_unfold. lia.
      * rewrite fmap_take, fst_pair_fmap. intros (i & Hi & _)%elem_of_take.
        by apply Hout, (list_elem_of_lookup_2 _ i).
Qed.

Lemma crash_after_head V B start L j m :
  quiet V B start L →
  let p := writes B (log_writes V start L ++ [(start, head_image L (V start))] ++
                     take j ((λ d, (d, V d)) <$> L)) in
  mountable p start L ∧ (in_blocks B m → outside start L m →
    updates (bat p) (recover_writes p start L) m = V m).
Proof.
  intros Hq p. pose proof Hq as [Hlay Hroom Hsup (H1 & H1o & H1L) Hemp Hclean Hok].
  destruct (bat_installed V B start L j Hq) as (Hh & Hl & Ho). fold p in Hh, Hl, Ho.
  assert (Hhw : home_writes (bat p) start L = (λ d, (d, V d)) <$> L).
  { apply (home_writes_logged V start L B Hlay). exact Hl. }
  split; [split|].
  - by rewrite Ho by auto.
  - by apply in_blocks_writes.
  - rewrite Hh. apply head_image_says; [done|unfold NBUF, MAXOPBLOCKS in Hroom; lia|].
    apply (Forall_impl _ _ _ (in_blocks_home _ _ _ Hlay)). intros d. destruct Hlay as [Hsm _ _ _ _].
    unfold small, in_blocks in *. lia.
  - by apply layout_writes.
  - done.
  - intros Hm Hout. unfold recover_writes. rewrite Hhw, updates_app.
    rewrite updates_other by (unfold outside in Hout; simpl; set_unfold; lia).
    rewrite <- (take_ge ((λ d, (d, V d)) <$> L) (length L)) by by rewrite length_fmap.
    apply updates_prefix_home; [apply Hlay|]. rewrite (take_ge L) by done.
    destruct (decide (m ∈ L)); [by right|left]. apply Ho; auto.
Qed.

Lemma crash_done V B start L m :
  quiet V B start L → let p := writes B (commit_writes V start L) in
  mountable p start [] ∧ (in_blocks B m → outside start L m →
    updates (bat p) (recover_writes p start []) m = V m).
Proof.
  intros Hq p. pose proof Hq as [Hlay Hroom Hsup (H1 & H1o & H1L) Hemp Hclean Hok].
  set (h := head_image L (V start)) in *.
  set (q := writes B (log_writes V start L ++ [(start, h)] ++ ((λ d, (d, V d)) <$> L))).
  pose proof (bat_installed V B start L (length L) Hq) as Hq'.
  rewrite take_ge in Hq' by by rewrite length_fmap. fold h q in Hq'. destruct Hq' as (Hh & Hl & Ho).
  pose proof (layout_start _ _ _ Hlay) as Hs.
  assert (Hpq : p = <[Z.to_nat start := head_image [] h]> q).
  { unfold p, commit_writes, q. fold h. by rewrite !writes_app. }
  assert (Hsq : in_blocks q start) by by apply in_blocks_writes.
  assert (Hp : ∀ x, in_blocks B x → outside start L x → bat p x = V x).
  { intros x Hx Hox. rewrite Hpq, bat_insert, decide_False; [by apply Ho; auto| |done|].
    - unfold outside in Hox. lia.
    - by apply in_blocks_writes. }
  split; [split|].
  - by rewrite Hp by auto.
  - by apply in_blocks_writes.
  - rewrite Hpq, bat_insert, decide_True by done. apply head_image_says; [|simpl; lia|constructor].
    apply head_image_ok; [done|]. unfold NBUF, MAXOPBLOCKS in Hroom. lia.
  - by apply layout_writes, (layout_nil _ _ L).
  - simpl. apply Nat.ltb_lt. reflexivity.
  - intros Hm Hout. rewrite (nil_recovered _ _ L) by done. by apply Hp.
Qed.
End log_ops.

(** ** The transaction system

    [logst V Hd B pa L s]: the log is idle or in a transaction that has
    logged the blocks [L]; block [m] reads as [V m] and is locked iff [Hd m];
    the platter is [B] and was [pa] before. *)
Section transactions.
Context {D : Type} `{BlockDriverOk D}.
Implicit Types s : lstate D.

(** Blocks a transaction may log: neither the superblock nor the log. *)
Definition loggable (B : list (list Z)) (l : log) (d : Z) : Prop :=
  d ≠ 1 ∧ in_blocks B d ∧ (d < l_start l ∨ l_start l + l_size l <= d).

Record logst (V : Z → list Z) (Hd : Z → bool) (B : list (list Z)) (pa : list (list (list Z)))
    (L : list Z) s : Prop := {
  ls_bspec : bspec V Hd (λ m, bool_decide (m ∈ L)) B pa (bs s);
  ls_dev : l_dev (lg s) = 1;
  ls_comm : l_committing (lg s) = 0;
  ls_len : length (lh_block (lg s)) = Z.to_nat LOGSIZE;
  ls_n : lh_n (lg s) = Z.of_nat (length L);
  ls_blocks : take (length L) (lh_block (lg s)) = L;
  ls_small : small B;
  ls_start : 1 < l_start (lg s);
  ls_area : l_start (lg s) + l_size (lg s) <= Z.of_nat (length B);
  ls_cap : Z.of_nat (length L) < l_size (lg s) ∧ (length L < NBUF)%nat;
  ls_nodup : NoDup L;
  ls_home : ∀ d, d ∈ L → loggable B (lg s) d;
  ls_super : i32 (sb_logstart (superblock_of (V 1))) = l_start (lg s);
  ls_empty : head_n (V (l_start (lg s))) = 0;
}.

Lemma logst_layout V Hd B pa L s : logst V Hd B pa L s → layout B (l_start (lg s)) L.
Proof.
  intros []. split; try done; [lia|lia|]. intros d (_ & ? & ?)%ls_home0. split; [done|lia].
Qed.

Lemma logst_ready V B pa L s : logst V none B pa L s → ready V B pa L s.
Proof. intros Hs. pose proof (logst_layout _ _ _ _ _ _ Hs). destruct Hs. split; try done. lia. Qed.

Lemma logst_quiet V B pa L s : logst V none B pa L s → quiet V B (l_start (lg s)) L.
Proof.
  intros Hs. pose proof (logst_layout _ _ _ _ _ _ Hs) as Hl. destruct Hs. split; try done; [lia|..].
  - split_and!.
    + unfold in_blocks. lia.
    + left. lia.
    + intros (? & _)%ls_home0. done.
  - intros m Hm HmL. eapply bspec_clean; [exact ls_bspec0|done|done|]. by apply bool_decide_eq_false_2.
  - eapply bspec_ok; [exact ls_bspec0|]. by apply (layout_start _ _ L).
Qed.

Lemma absorb_spec (L l : list Z) (n : Z) (i : nat) :
  take (length L) (drop i l) = L → Forall (λ v, u32 v = v) L →
  match list_find (n =.) L with
  | Some (j, _) => absorb (length L) i l n = (i + j)%nat
  | None => absorb (length L) i l n = (i + length L)%nat
  end.
Proof.
  revert i. induction L as [|v L IH]; intros i HL Hu; simpl; [lia|].
  apply Forall_cons in Hu as [Hv Hu].
  assert (Hi : l !! i = Some v).
  { rewrite <- (Nat.add_0_r i), <- lookup_drop. destruct (drop i l); simpl in HL; by simplify_eq. }
  rewrite Hi. simpl. rewrite Hv. destruct (decide (n = v)) as [->|Hne].
  { by rewrite Z.eqb_refl, Nat.add_0_r. }
  rewrite (proj2 (Z.eqb_neq _ _)) by congruence.
  specialize (IH (S i)). rewrite (drop_S _ _ _ Hi) in HL. simpl in HL.
  injection HL as HL. specialize (IH HL Hu). destruct (list_find (n =.) L) as [[j x]|]; simpl; lia.
Qed.

(** The blocks logged once [n] is written too. *)
Definition logged (L : list Z) (n : Z) : list Z := if decide (n ∈ L) then L else L ++ [n].

Lemma elem_of_logged L n m : m ∈ logged L n ↔ m = n ∨ m ∈ L.
Proof.
  unfold logged. case_decide.
  - split; [by right|]. by intros [->|].
  - rewrite elem_of_app, list_elem_of_singleton. tauto.
Qed.

Lemma logged_pinned L n m :
  bool_decide (m ∈ logged L n) = upd (λ m, bool_decide (m ∈ L)) n true m.
Proof.
  unfold upd. case_decide.
  - apply bool_decide_eq_true, elem_of_logged. by left.
  - apply bool_decide_ext. rewrite elem_of_logged. tauto.
Qed.

Lemma logged_absorb V Hd B pa L s n :
  logst V Hd B pa L s →
  let i := absorb (length L) 0 (lh_block (lg s)) n in
  (n ∈ L ∧ L !! i = Some n ∧ logged L n = L) ∨ (n ∉ L ∧ i = length L ∧ logged L n = L ++ [n]).
Proof.
  intros Hs. assert (Hu : Forall (λ v, u32 v = v) L).
  { apply Forall_forall. intros d (_ & Hd' & _)%(ls_home _ _ _ _ _ _ Hs).
    by eapply small_u32, Hd'; apply Hs. }
  pose proof (absorb_spec L (lh_block (lg s)) n 0) as Ha. rewrite drop_0 in Ha.
  specialize (Ha (ls_blocks _ _ _ _ _ _ Hs) Hu). unfold logged.
  destruct (list_find (n =.) L) as [[j x]|] eqn:E.
  - apply list_find_Some in E as (Hj & -> & _). left. simpl in Ha. rewrite Ha.
    pose proof (list_elem_of_lookup_2 _ _ _ Hj). rewrite decide_True by done. done.
  - right. apply list_find_None in E. simpl in Ha. rewrite Ha.
    assert (n ∉ L). { intros Hn. rewrite Forall_forall in E. by apply (E n). }
    rewrite decide_False by done. done.
Qed.

Lemma log_write_run V Hd B pa L s i n :
  logst V Hd B pa L s → handle (bs s) i n → in_blocks B n →
  0 < l_outstanding (lg s) → Z.of_nat (length L) < l_size (lg s) - 1 →
  (length (logged L n) < NBUF)%nat →
  wp (log_write i) (λ _ s', keeps_handles (bs s) (bs s') ∧
    bspec V Hd (λ m, bool_decide (m ∈ logged L n)) B pa (bs s') ∧
    ∃ bl, lg s' = set_lh_n (Z.of_nat (length (logged L n))) (set_lh_block bl (lg s)) ∧
      length bl = Z.to_nat LOGSIZE ∧ take (length (logged L n)) bl = logged L n) s.
Proof.
  intros Hs Hh Hn Ho Hsz Hnb. pose proof (logged_absorb _ _ _ _ _ _ n Hs) as Hab. cbn zeta in Hab.
  assert (Hle : (length L <= length (logged L n))%nat).
  { unfold logged. case_decide; [done|]. rewrite length_app. lia. }
  assert (Hcap : (LOGSIZE <=? lh_n (lg s)) || (l_size (lg s) - 1 <=? lh_n (lg s)) = false).
  { rewrite (ls_n _ _ _ _ _ _ Hs). change NBUF with (Z.to_nat LOGSIZE) in Hnb.
    destruct Hs. apply orb_false_iff. split; apply Z.leb_gt; lia. }
  unfold log_write, log_write_check. rewrite !wp_bind, wp_getlog. unfold id. rewrite Hcap.
  rewrite (proj2 (Z.ltb_ge _ _)) by lia. rewrite wp_ret.
  unfold log_write_locked. rewrite wp_bind, wp_getlog. unfold id.
  destruct Hh as (b & Hb & Hi & Hk & Hl) eqn:E. clear E. pose proof Hk as Hk'. apply ckey_Some in Hk' as [_ Hbn].
  rewrite wp_bind, wp_liftb. eapply wp_intro; [by apply getbuf_eq|].
  rewrite Hbn, (ls_n _ _ _ _ _ _ Hs), Nat2Z.id.
  set (k := absorb _ _ _ _) in *.
  assert (Hn32 : i32 n = n).
  { apply i32_id. pose proof (ls_small _ _ _ _ _ _ Hs). unfold small, in_blocks in *. lia. }
  assert (Hk30 : (k < Z.to_nat LOGSIZE)%nat).
  { change NBUF with (Z.to_nat LOGSIZE) in Hnb. destruct Hab as [(_ & Hx & _)|(_ & -> & Hx)].
    - apply lookup_lt_Some in Hx. lia.
    - rewrite Hx, length_app in Hnb. simpl in Hnb. lia. }
  rewrite wp_bind. unfold set_block. rewrite wp_bind, wp_getlog. cbn [lg].
  rewrite (proj2 (Nat.ltb_lt _ _)) by (rewrite (ls_len _ _ _ _ _ _ Hs); lia).
  rewrite wp_modlog, Hn32, wp_bind. cbn [lg bs].
  assert (Hpin : ∀ l', wp (liftb (pin i)) (λ _ s', keeps_handles (bs s) (bs s') ∧
    bspec V Hd (λ m, bool_decide (m ∈ logged L n)) B pa (bs s') ∧ lg s' = l') (LState l' (bs s))).
  { intros l'. rewrite wp_liftb. eapply rule_pin; [apply Hs|by exists b|]. intros b' Hb' Hkeep.
    split_and!; [done| |done]. eapply bspec_ext; [exact Hb'|done|done|]. apply logged_pinned. }
  set (bl := <[k := n]> (lh_block (lg s))).
  assert (Hbl : length bl = Z.to_nat LOGSIZE) by (unfold bl; rewrite length_insert; apply Hs).
  destruct Hab as [(Hin & Hx & Hlg)|(Hni & Hx & Hlg)].
  - rewrite Hlg in Hpin |- *. pose proof (lookup_lt_Some _ _ _ Hx). rewrite (proj2 (Z.eqb_neq _ _)) by lia. rewrite wp_ret.
    eapply wp_mono; [apply Hpin|]. intros _ s' (Hk1 & Hb1 & Hls). split_and!; [done|exact Hb1|].
    exists bl. split_and!; [|done|].
    + rewrite Hls. unfold set_lh_block, set_lh_n. cbn. f_equal. apply Hs.
    + unfold bl. rewrite take_insert_lt by lia. rewrite (ls_blocks _ _ _ _ _ _ Hs). by apply list_insert_id.
  - rewrite (proj2 (Z.eqb_eq _ _)) by lia. rewrite wp_modlog. cbn [lg bs].
    eapply wp_mono; [apply Hpin|]. intros _ s' (Hk1 & Hb1 & Hls). split_and!; [done|exact Hb1|].
    exists bl. rewrite Hls. cbn. rewrite Hlg, length_app. simpl. split_and!; [|done|].
    + unfold set_lh_block, set_lh_n. cbn. f_equal. lia.
    + rewrite Nat.add_1_r. rewrite (take_S_r _ _ n).
      * f_equal. unfold bl. rewrite Hx, take_insert_ge by done. apply Hs.
      * unfold bl. rewrite Hx. apply list_lookup_insert_eq. rewrite (ls_len _ _ _ _ _ _ Hs). lia.
Qed.

(** [log_write] adds the block to the transaction, once. *)
Lemma log_write_spec V Hd B pa L s i n :
  logst V Hd B pa L s → handle (bs s) i n → loggable B (lg s) n →
  0 < l_outstanding (lg s) → Z.of_nat (length L) < l_size (lg s) - 1 →
  (length (logged L n) < NBUF)%nat →
  wp (log_write i) (λ _ s', keeps_handles (bs s) (bs s') ∧ logst V Hd B pa (logged L n) s' ∧
    l_outstanding (lg s') = l_outstanding (lg s) ∧ l_size (lg s') = l_size (lg s) ∧
    l_start (lg s') = l_start (lg s)) s.
Proof.
  intros Hs Hh Hn Ho Hsz Hnb. eapply wp_mono; [eapply log_write_run; try done; apply Hn|].
  intros _ s' (Hk & Hb & bl & Hl & Hlen & Htk). destruct Hs. split_and!; [done| |by rewrite Hl..].
  split; rewrite ?Hl; try done.
  - split; [|done]. cbn. unfold logged. case_decide; [lia|]. rewrite length_app. simpl. lia.
  - unfold logged. case_decide; [done|]. apply NoDup_app. split_and!; [done| |apply NoDup_singleton].
    intros x Hx ->%list_elem_of_singleton. done.
  - intros d. unfold logged. case_decide; [by apply ls_home0|].
    rewrite elem_of_app, list_elem_of_singleton. intros [Hd'| ->]; [by apply ls_home0|done].
Qed.

Lemma begin_op_admits V Hd B pa L s :
  logst V Hd B pa L s →
  lh_n (lg s) + (l_outstanding (lg s) + 1) * MAXOPBLOCKS <= LOGSIZE →
  begin_op s = Ret tt (LState (set_outstanding (l_outstanding (lg s) + 1) (lg s)) (bs s)).
Proof.
  intros Hs Hle. unfold begin_op, getlog, gets, id, mbind, M_bind.
  rewrite (ls_comm _ _ _ _ _ _ Hs). simpl negb. cbv iota.
  by rewrite (proj2 (Z.ltb_ge _ _)).
Qed.

Lemma logst_outstanding V Hd B pa L s o :
  logst V Hd B pa L s → logst V Hd B pa L (LState (set_outstanding o (lg s)) (bs s)).
Proof. intros []. by split. Qed.

Lemma commit_writes_outside V B start L m :
  layout B start L → outside start L m → updates V (commit_writes V start L) m = V m.
Proof.
  intros Hl Ho. unfold commit_writes. rewrite !updates_app.
  rewrite updates_other by (unfold outside in Ho; simpl; set_unfold; lia).
  rewrite <- (take_ge ((λ d, (d, V d)) <$> L) (length L)) by by rewrite length_fmap.
  destruct (decide (m ∈ L)) as [Hin|Hout].
  - apply updates_prefix_home; [apply Hl|]. right. by rewrite take_ge.
  - apply updates_prefix_home; [apply Hl|]. left.
    rewrite updates_other by (unfold outside in Ho; simpl; set_unfold; lia).
    apply updates_other, log_writes_other. unfold outside in Ho. lia.
Qed.

Lemma commit_writes_start V B start L :
  layout B start L → block_ok (V start) → (length L <= 127)%nat →
  head_n (updates V (commit_writes V start L) start) = 0.
Proof.
  intros Hl Hok Hlen. unfold commit_writes. rewrite !updates_app. cbn [updates foldl fst snd].
  rewrite upd_eq. eapply (head_image_says []); [by apply head_image_ok|simpl; lia|constructor].
Qed.

(** The last [end_op] of a transaction commits it. *)
Lemma end_op_commits V B pa L s :
  logst V none B pa L s → l_outstanding (lg s) = 1 → L ≠ [] →
  wp end_op (λ _ s', let ws := commit_writes V (l_start (lg s)) L in
    lg s' = set_lh_n 0 (set_outstanding 0 (lg s)) ∧
    logst (updates V ws) none (writes B ws) (trail B ws pa) [] s') s.
Proof.
  intros Hs Ho HL. pose proof (logst_layout _ _ _ _ _ _ Hs) as Hl.
  pose proof (logst_quiet _ _ _ _ _ Hs) as Hq.
  unfold end_op. rewrite wp_bind, wp_getlog, wp_bind, wp_modlog, wp_bind, wp_getlog, Ho.
  change (1 - 1) with 0. cbn [lg bs l_committing set_outstanding].
  rewrite (ls_comm _ _ _ _ _ _ Hs). cbv [negb Z.eqb]. cbv iota.
  rewrite wp_bind, wp_getlog. cbn [lg l_outstanding set_outstanding Z.eqb]. cbv iota.
  rewrite wp_bind, wp_modlog, wp_bind. cbn [lg bs].
  eapply wp_mono.
  { apply (commit_spec V B pa L); [|done]. pose proof (logst_ready _ _ _ _ _ Hs) as []. by split. }
  cbn zeta beta. cbn [lg l_start set_committing set_outstanding]. intros _ t (Hlt & Hbt).
  rewrite wp_modlog. cbn [lg bs]. rewrite Hlt.
  assert (E : ∀ l, l_committing l = 0 → set_committing 0 (set_lh_n 0 (set_committing 1 (set_outstanding 0 l)))
    = set_lh_n 0 (set_outstanding 0 l)) by (intros [] Hc; cbn in *; by rewrite Hc).
  fold (set_outstanding 0 (lg s)) (set_committing 1 (set_outstanding 0 (lg s))).
  rewrite E by apply Hs. split; [done|].
  assert (H127 : (length L <= 127)%nat).
  { pose proof (q_room _ _ _ _ Hq) as Hr. unfold NBUF, MAXOPBLOCKS in Hr. lia. }
  destruct Hs. split; cbn [lg bs set_lh_n set_outstanding l_dev l_committing lh_block l_start l_size lh_n];
    try done; unfold small; rewrite ?length_writes; try done.
  - split; [simpl; lia|]. simpl. apply Nat.ltb_lt. reflexivity.
  - apply NoDup_nil_2.
  - intros d Hd. by apply elem_of_nil in Hd.
  - destruct (q_one _ _ _ _ Hq) as (_ & Hout & _). by rewrite (commit_writes_outside _ B).
  - eapply commit_writes_start; [done|apply Hq|done].
Qed.

Lemma end_op_not_last V Hd B pa L s :
  logst V Hd B pa L s → l_outstanding (lg s) ≠ 1 →
  end_op s = Ret tt (LState (set_outstanding (l_outstanding (lg s) - 1) (lg s)) (bs s)).
Proof.
  intros Hs Ho. unfold end_op, getlog, modlog, gets, modify, mbind, M_bind. cbn [lg bs].
  cbn [l_committing set_outstanding l_outstanding]. rewrite (ls_comm _ _ _ _ _ _ Hs).
  change (negb (0 =? 0)) with false. cbv iota.
  cbn [lg l_outstanding set_outstanding]. by rewrite (proj2 (Z.eqb_neq _ 0)) by lia.
Qed.

(** *** Mounting *)

(** [binit] (main.c) and then [initlog] (first run of [forkret], proc.c). *)
Definition mount : M (lstate D) unit := liftb binit ;; initlog 1.
Definition power_on (d : D) (pid : Z) : lstate D := LState log0 (BState bcache0 d pid).

Lemma mount_recovers (d : D) pid start L :
  dwf d → mountable (blocks d) start L →
  wp mount (λ _ t, let ws := recover_writes (blocks d) start L in
    lg t = Log start (i32 (sb_nlog (superblock_of (bat (blocks d) 1)))) 0 0 1 0
      (L ++ replicate (Z.to_nat LOGSIZE - length L) 0) ∧
    bspec (updates (bat (blocks d)) ws) none none (writes (blocks d) ws)
      (trail (blocks d) ws (past d)) (bs t)) (power_on d pid).
Proof.
  intros Hd Hm. unfold mount, power_on. rewrite wp_bind, wp_liftb. cbn [bs lg].
  destruct (binit_abs d pid Hd) as (s & Hrun & Hs & Hdk & _ & HV & HH & HP).
  eapply wp_intro; [exact Hrun|]. eapply wp_mono; [apply (initlog_spec (blocks d) (past d) _ L start)|].
  - cbn [bs]. split_and!; [exact Hs|intros m _; apply HV|exact HH|exact HP|by rewrite Hdk..].
  - apply length_replicate.
  - exact Hm.
  - cbn zeta beta. cbn [lg]. intros _ t [Hl Hb]. split; [|done]. rewrite Hl. cbn.
    by rewrite drop_replicate.
Qed.

(** What a reboot from platter [p] finds: the log is empty and every block
    outside it reads as [X] says. *)
Definition reboots_to (p : list (list Z)) (start : Z) (L : list Z) (X : Z → list Z) : Prop :=
  ∀ (d : D) pid, dwf d → blocks d = p →
    ∃ t, mount (power_on d pid) = Ret tt t ∧ lh_n (lg t) = 0 ∧
      ∀ m, in_blocks p m → outside start L m → view (bs t) m = X m.

Lemma reboots_mountable p start L L' X :
  mountable p start L' →
  (∀ m, in_blocks p m → outside start L m → updates (bat p) (recover_writes p start L') m = X m) →
  reboots_to p start L X.
Proof.
  intros Hm HX d pid Hd Hbl. subst p.
  pose proof (mount_recovers d pid start L' Hd Hm) as Hw.
  rewrite wp_elim in Hw. destruct Hw as (u & t & Hrun & Hl & Hb). destruct u, Hb as (_ & HV & _).
  exists t. split; [exact Hrun|]. split; [by rewrite Hl|].
  intros m Hm1 Ho. rewrite HV by by apply in_blocks_writes. by apply HX.
Qed.

Lemma commit_prefix_reboots V B start L k :
  quiet V B start L →
  let p := writes B (take k (commit_writes V start L)) in
  reboots_to p start L (bat B) ∨ reboots_to p start L V.
Proof.
  intros Hq p. unfold p, commit_writes.
  destruct (prefix_cases (log_writes V start L) ((λ d, (d, V d)) <$> L)
    (start, head_image L (V start)) (start, head_image [] (head_image L (V start))) k)
    as [E|[[j E]|E]]; rewrite E; [left|right..].
  - apply (reboots_mountable _ _ _ []); [exact (proj1 (crash_before_head V B start L k 0 Hq))|].
    intros m Hm Ho. rewrite in_blocks_writes in Hm. exact (proj2 (crash_before_head V B start L k m Hq) Hm Ho).
  - apply (reboots_mountable _ _ _ L); [exact (proj1 (crash_after_head V B start L j 0 Hq))|].
    intros m Hm Ho. rewrite in_blocks_writes in Hm. exact (proj2 (crash_after_head V B start L j m Hq) Hm Ho).
  - apply (reboots_mountable _ _ _ []); [exact (proj1 (crash_done V B start L 0 Hq))|].
    intros m Hm Ho. rewrite in_blocks_writes in Hm. exact (proj2 (crash_done V B start L m Hq) Hm Ho).
Qed.

(** C1: the log makes a transaction atomic with respect to power failure.
    When the last [end_op] of a transaction that logged the blocks [L] runs,
    every platter that exists from its start to its end, one per disk write,
    reboots (through [binit] and [initlog]'s recovery) to a file system in
    which either no block or every block of the transaction has its new
    contents; and the platter left at the end reboots to the new contents. *)
Theorem end_op_crash_atomic V B pa L s :
  logst V none B pa L s → l_outstanding (lg s) = 1 → L ≠ [] →
  ∃ s', end_op s = Ret tt s' ∧
    reboots_to (blocks (dk (bs s'))) (l_start (lg s)) L V ∧
    ∀ p, p ∈ past (dk (bs s')) → p ∈ pa ∨
      reboots_to p (l_start (lg s)) L (bat B) ∨ reboots_to p (l_start (lg s)) L V.
Proof.
  intros Hs Ho HL. pose proof (logst_quiet _ _ _ _ _ Hs) as Hq.
  pose proof (end_op_commits _ _ _ _ _ Hs Ho HL) as Hw.
  apply wp_elim in Hw as ([] & s' & Hrun & _ & [(_ & _ & _ & _ & Hbl & Hpa)]).
  exists s'. split; [exact Hrun|]. split.
  - rewrite Hbl. apply (reboots_mountable _ _ _ []); [exact (proj1 (crash_done V B _ L 0 Hq))|].
    intros m Hm Ho'. rewrite in_blocks_writes in Hm. exact (proj2 (crash_done V B _ L m Hq) Hm Ho').
  - intros p Hp. rewrite Hpa in Hp. apply elem_of_trail in Hp as [|(k & _ & ->)]; [by left|right].
    by apply commit_prefix_reboots.
Qed.
End transactions.
