(* ===== verification/Ide.v ===== *)
(** * The disk driver: ide.c

    Requests wait in a queue threaded through the buffers ([qnext]); the first
    one is the one the drive works on, and the drive's interrupt completes it
    and starts the next.  A critical section of [idelock] is one step, and
    [sleep] ends one, so callers of [iderw] and interrupts interleave between
    them.

    The drive is not part of the program: it is a parameter, the class [Drive],
    and [DriveOk] states what the ATA standard says of the registers and
    commands the driver uses.  [cprintf] and the I/O APIC call of [ideinit] are
    left out. *)

From S2P Require Import Prelude Param Bio.

Definition SECTOR_SIZE : Z := 512.
Definition IDE_BSY : Z := 0x80.
Definition IDE_DRDY : Z := 0x40.
Definition IDE_DF : Z := 0x20.
Definition IDE_ERR : Z := 0x01.
Definition IDE_CMD_READ : Z := 0x20.
Definition IDE_CMD_WRITE : Z := 0x30.
Definition IDE_CMD_RDMUL : Z := 0xc4.
Definition IDE_CMD_WRMUL : Z := 0xc5.

(** The ports of a drive.  [complete e] is the drive finishing its command,
    with an error or not, and raising its interrupt; [patience] bounds the
    reads of the status port until a drive without work says it is ready. *)
Class Drive (D : Type) := {
  inb : Z → D → Z * D;
  outb : Z → Z → D → D;
  insl : Z → D → list Z * D;
  outsl : Z → list Z → D → D;
  complete : bool → D → D;
  patience : nat;
}.

(** [idelock]'s data: [idequeue], [havedisk1] and the buffers with their
    [qnext]; [woken] lists the channels of the [wakeup] calls, newest first. *)
Record ide (D : Type) := Ide {
  bufs : list buf;
  qnext : list (option nat);
  idequeue : option nat;
  havedisk1 : Z;
  drive : D;
  woken : list nat;
}.
Arguments Ide {D} bufs qnext idequeue havedisk1 drive woken.
Arguments bufs {D} i.
Arguments qnext {D} i.
Arguments idequeue {D} i.
Arguments havedisk1 {D} i.
Arguments drive {D} i.
Arguments woken {D} i.

Section driver.
Context {D : Type} `{Drive D}.
Implicit Types s : ide D.

Definition set_bufs v s := Ide v (qnext s) (idequeue s) (havedisk1 s) (drive s) (woken s).
Definition set_qnext v s := Ide (bufs s) v (idequeue s) (havedisk1 s) (drive s) (woken s).
Definition set_idequeue v s := Ide (bufs s) (qnext s) v (havedisk1 s) (drive s) (woken s).
Definition set_havedisk1 v s := Ide (bufs s) (qnext s) (idequeue s) v (drive s) (woken s).
Definition set_drive (v : D) s := Ide (bufs s) (qnext s) (idequeue s) (havedisk1 s) v (woken s).

Definition port_in (p : Z) : M (ide D) Z := λ s, let '(r, d) := inb p (drive s) in Ret r (set_drive d s).
Definition port_out (p v : Z) : M (ide D) unit := modify (λ s, set_drive (outb p v (drive s)) s).
Definition port_ins (p : Z) : M (ide D) (list Z) := λ s, let '(l, d) := insl p (drive s) in Ret l (set_drive d s).
Definition port_outs (p : Z) (l : list Z) : M (ide D) unit := modify (λ s, set_drive (outsl p l (drive s)) s).

Definition getbuf (b : nat) : M (ide D) buf := λ s, of_option (bufs s !! b) s.
Definition setbuf (b : nat) (f : buf → buf) : M (ide D) unit := modify (λ s, set_bufs (alter f b (bufs s)) s).
Definition wakeup_buf (b : nat) : M (ide D) unit :=
  modify (λ s, Ide (bufs s) (qnext s) (idequeue s) (havedisk1 s) (drive s) (b :: woken s)).

Fixpoint idewait_loop (fuel : nat) (checkerr : bool) : M (ide D) Z :=
  match fuel with
  | O => diverge
  | S fuel =>
      r ← port_in 0x1f7;
      if negb (Z.land r (Z.lor IDE_BSY IDE_DRDY) =? IDE_DRDY) then idewait_loop fuel checkerr else
      if checkerr && negb (Z.land r (Z.lor IDE_DF IDE_ERR) =? 0) then mret (-1) else mret 0
  end.
Definition idewait : bool → M (ide D) Z := idewait_loop patience.

(** The search for disk 1. *)
Fixpoint find_disk1 (n : nat) : M (ide D) unit :=
  match n with
  | O => mret tt
  | S n => r ← port_in 0x1f7; if negb (r =? 0) then modify (set_havedisk1 1) else find_disk1 n
  end.
Definition ideinit : M (ide D) unit :=
  idewait false ;;
  port_out 0x1f6 (Z.lor 0xe0 (Z.shiftl 1 4)) ;;
  find_disk1 1000 ;;
  port_out 0x1f6 (Z.lor 0xe0 (Z.shiftl 0 4)).

Definition idestart (b : option nat) : M (ide D) unit :=
  match b with
  | None => panic "idestart"
  | Some b =>
      x ← getbuf b;
      if FSSIZE <=? b_blockno x then panic "incorrect blockno" else
      let sector_per_block := BSIZE / SECTOR_SIZE in
      let sector := i32 (b_blockno x * sector_per_block) in
      let read_cmd := if sector_per_block =? 1 then IDE_CMD_READ else IDE_CMD_RDMUL in
      let write_cmd := if sector_per_block =? 1 then IDE_CMD_WRITE else IDE_CMD_WRMUL in
      if 7 <? sector_per_block then panic "idestart" else
      idewait false ;;
      port_out 0x3f6 0 ;;
      port_out 0x1f2 (u8 sector_per_block) ;;
      port_out 0x1f3 (u8 (Z.land sector 0xff)) ;;
      port_out 0x1f4 (u8 (Z.land (Z.shiftr sector 8) 0xff)) ;;
      port_out 0x1f5 (u8 (Z.land (Z.shiftr sector 16) 0xff)) ;;
      port_out 0x1f6 (u8 (Z.lor (Z.lor 0xe0 (Z.shiftl (Z.land (b_dev x) 1) 4)) (Z.land (Z.shiftr sector 24) 0x0f))) ;;
      if dirty x then
        port_out 0x1f7 write_cmd ;;
        port_outs 0x1f0 (b_data x)
      else port_out 0x1f7 read_cmd
  end.

Definition ideintr : M (ide D) unit :=
  q ← gets idequeue;
  match q with
  | None => mret tt
  | Some b =>
      n ← (λ s, of_option (qnext s !! b) s);
      modify (set_idequeue n) ;;
      x ← getbuf b;
      (if negb (dirty x) then
         r ← idewait true;
         when (0 <=? r) (l ← port_ins 0x1f0; setbuf b (set_b_data l))
       else mret tt) ;;
      setbuf b (λ x, set_b_flags (Z.lor (b_flags x) B_VALID) x) ;;
      setbuf b (λ x, set_b_flags (Z.ldiff (b_flags x) B_DIRTY) x) ;;
      wakeup_buf b ;;
      q ← gets idequeue;
      when (bool_decide (q ≠ None)) (idestart q)
  end.

(** [*pp = b] at the end of the queue; [pp] is [&idequeue] or the [qnext] of a
    buffer. *)
Fixpoint enqueue (fuel : nat) (pp : option nat) (b : nat) : M (ide D) unit :=
  match fuel with
  | O => diverge
  | S fuel =>
      v ← (match pp with None => gets idequeue | Some a => λ s, of_option (qnext s !! a) s end);
      match v with
      | Some a => enqueue fuel (Some a) b
      | None =>
          modify (match pp with None => set_idequeue (Some b) | Some a => λ s, set_qnext (<[a := Some b]> (qnext s)) s end)
      end
  end.

(** The test of the loop around [sleep]. *)
Definition pending (x : buf) : bool := negb (Z.land (b_flags x) (Z.lor B_VALID B_DIRTY) =? B_VALID).

(** [iderw] up to the first test of the loop. *)
Definition iderw_submit (b : nat) : M (ide D) unit :=
  x ← getbuf b;
  if negb (holdingsleep (b_lock x)) then panic "iderw: buf not locked" else
  if Z.land (b_flags x) (Z.lor B_VALID B_DIRTY) =? B_VALID then panic "iderw: nothing to do" else
  h ← gets havedisk1;
  if negb (b_dev x =? 0) && (h =? 0) then panic "iderw: ide disk 1 not present" else
  modify (λ s, set_qnext (<[b := None]> (qnext s)) s) ;;
  n ← gets (λ s, length (bufs s));
  enqueue (S n) None b ;;
  q ← gets idequeue;
  when (bool_decide (q = Some b)) (idestart (Some b)).

(** One test of the loop; [false] means [sleep(b, &idelock)]. *)
Definition iderw_done (b : nat) : M (ide D) bool :=
  x ← getbuf b; mret (negb (pending x)).
End driver.

(** ** What the drive promises *)

(** What a drive is doing: ready for a command (after an error or not), working
    on a read, taking the data of a write, working on a write, or holding the
    data of a read.  Sectors belong to one of the two drives on the cable. *)
Inductive phase :=
| Ready
| Failed
| Reading (dr sec : Z)
| Accepting (dr sec : Z)
| Writing (dr sec : Z) (l : list Z)
| DataReady (l : list Z).

Definition at_rest (p : phase) : Prop := match p with Ready | Failed => True | _ => False end.
Definition quiet (p : phase) : Prop := match p with Ready | Failed | DataReady _ => True | _ => False end.

Definition ready_status (r : Z) : bool := Z.land r (Z.lor IDE_BSY IDE_DRDY) =? IDE_DRDY.

(** [polls n d r d']: of [n] reads of the status port the last one, [r], is
    the first that says ready. *)
Inductive polls {D : Type} `{Drive D} : nat → D → Z → D → Prop :=
| poll_now d r d' : inb 0x1f7 d = (r, d') → ready_status r = true → polls 1 d r d'
| poll_later n d r d1 r' d' : inb 0x1f7 d = (r, d1) → ready_status r = false → polls n d1 r' d' → polls (S n) d r' d'.

(** The drive and sector the address registers name. *)
Definition lba (f : Z → Z) : Z := f 0x1f3 + 256 * f 0x1f4 + 65536 * f 0x1f5 + 16777216 * Z.land (f 0x1f6) 15.
Definition unit_of (f : Z → Z) : Z := Z.land (Z.shiftr (f 0x1f6) 4) 1.

Definition store (m : Z → Z → list Z) (dr sec : Z) (l : list Z) : Z → Z → list Z :=
  λ a b, if decide (a = dr ∧ b = sec) then l else m a b.

(** [shown d]: the drive has said that it is ready since it last finished a
    command.  Before that it may ignore what the host writes, so the laws about
    the registers, the commands and the data of a read are for a drive whose
    status the host has waited for.  One law goes beyond the ATA standard: after
    a WRITE command the standard has the host wait for DRQ before it sends the
    data, [idestart] sends them at once, and [drive_data_out] is about a drive
    that takes them then, as emulated drives do. *)
Class DriveOk (D : Type) `{Drive D} := {
  phase_of : D → phase;
  shown : D → Prop;
  media : D → Z → Z → list Z;
  reg : D → Z → Z;
  drive_status d : quiet (phase_of d) → ∃ n r d', (n <= patience)%nat ∧ polls n d r d' ∧
    shown d' ∧ phase_of d' = phase_of d ∧ media d' = media d ∧ reg d' = reg d ∧
    (Z.land r (Z.lor IDE_DF IDE_ERR) = 0 ↔ phase_of d ≠ Failed);
  drive_reg p v d : p ∈ [0x1f2; 0x1f3; 0x1f4; 0x1f5; 0x1f6; 0x3f6] → 0 <= v < 256 → at_rest (phase_of d) → shown d →
    shown (outb p v d) ∧ phase_of (outb p v d) = phase_of d ∧ media (outb p v d) = media d ∧
    ∀ q, reg (outb p v d) q = if decide (q = p) then v else reg d q;
  drive_read d : at_rest (phase_of d) → shown d → reg d 0x1f2 = 1 →
    phase_of (outb 0x1f7 IDE_CMD_READ d) = Reading (unit_of (reg d)) (lba (reg d)) ∧ media (outb 0x1f7 IDE_CMD_READ d) = media d;
  drive_write d : at_rest (phase_of d) → shown d → reg d 0x1f2 = 1 →
    phase_of (outb 0x1f7 IDE_CMD_WRITE d) = Accepting (unit_of (reg d)) (lba (reg d)) ∧ media (outb 0x1f7 IDE_CMD_WRITE d) = media d;
  drive_data_out dr sec l d : phase_of d = Accepting dr sec → length l = 512%nat →
    phase_of (outsl 0x1f0 l d) = Writing dr sec l ∧ media (outsl 0x1f0 l d) = media d;
  drive_data_in l d : phase_of d = DataReady l → shown d →
    ∃ d', insl 0x1f0 d = (l, d') ∧ phase_of d' = Ready ∧ media d' = media d;
  drive_read_done e dr sec d : phase_of d = Reading dr sec →
    phase_of (complete e d) = (if e then Failed else DataReady (media d dr sec)) ∧ media (complete e d) = media d;
  drive_write_done e dr sec l d : phase_of d = Writing dr sec l →
    phase_of (complete e d) = (if e then Failed else Ready) ∧
    (∀ a b, ¬ (a = dr ∧ b = sec) → media (complete e d) a b = media d a b) ∧ (e = false → media (complete e d) dr sec = l);
}.

(** ** One request *)

Section spec.
Context {D : Type} `{DriveOk D}.
Implicit Types s : ide D.

Lemma idewait_spec ck s (Q : Z → ide D → Prop) :
  quiet (phase_of (drive s)) →
  (∀ d' r, shown d' → phase_of d' = phase_of (drive s) → media d' = media (drive s) → reg d' = reg (drive s) →
    (phase_of (drive s) = Failed → ck = true → r = -1) → (phase_of (drive s) ≠ Failed ∨ ck = false → r = 0) → Q r (set_drive d' s)) →
  wp (idewait ck) Q s.
Proof.
  intros Hq HQ. destruct (drive_status (drive s) Hq) as (n & r & d' & Hn & Hp & E0 & E1 & E2 & E3 & Hr). unfold idewait.
  assert (Hend : Q (if ck && negb (Z.land r (Z.lor IDE_DF IDE_ERR) =? 0) then -1 else 0) (set_drive d' s)).
  { apply HQ; [done|done|done|done| |].
    - intros Hf ->. rewrite (proj2 (Z.eqb_neq _ 0)); [done|]. intros Hz. by apply Hr in Hz.
    - intros [Hf| ->]; [|done]. rewrite (proj2 Hr Hf). by rewrite andb_false_r. }
  clear HQ E0 E1 E2 E3 Hr Hq. revert Hn. generalize patience as fuel. remember (drive s) as d eqn:Ed. revert s Ed Hend.
  induction Hp as [d r d' Hi Hs|n d r d1 r' d' Hi Hs _ IH]; intros s -> Hend fuel Hn; (destruct fuel as [|fuel]; [lia|]); cbn [idewait_loop]; rewrite wp_bind; unfold port_in, wp at 1; rewrite Hi.
  - fold (ready_status r). rewrite Hs. cbn [negb]. by destruct (ck && _).
  - fold (ready_status r). rewrite Hs. cbn [negb]. apply (IH (set_drive d1 s)); [done|done|lia].
Qed.

(** The command for a request. *)
Definition work (x : buf) : phase :=
  if dirty x then Writing (Z.land (b_dev x) 1) (b_blockno x) (b_data x) else Reading (Z.land (b_dev x) 1) (b_blockno x).

(** A request the driver accepts. *)
Record request (have1 : Z) (x : buf) : Prop := {
  rq_lock : holdingsleep (b_lock x) = true;
  rq_pending : pending x = true;
  rq_dev : b_dev x = 0 ∨ have1 ≠ 0;
  rq_block : 0 <= b_blockno x < FSSIZE;
  rq_data : dirty x = true → length (b_data x) = 512%nat;
}.

(** The values [idestart] leaves in the registers. *)
Definition address (x : buf) (q : Z) : Z :=
  let sector := b_blockno x in
  if q =? 0x1f2 then 1 else if q =? 0x1f3 then sector mod 256 else if q =? 0x1f4 then sector / 256 else
  if q =? 0x1f5 then 0 else if q =? 0x1f6 then 0xe0 + 16 * Z.land (b_dev x) 1 else 0.

Lemma dev_bit z : Z.land z 1 = 0 ∨ Z.land z 1 = 1.
Proof. change 1 with (Z.ones 1) at 1 2. rewrite !Z.land_ones by lia. change (2 ^ 1) with 2. dlia. Qed.

Lemma address_lba x f : 0 <= b_blockno x < FSSIZE → (∀ q, q ∈ [0x1f2; 0x1f3; 0x1f4; 0x1f5; 0x1f6] → f q = address x q) →
  f 0x1f2 = 1 ∧ lba f = b_blockno x ∧ unit_of f = Z.land (b_dev x) 1.
Proof.
  intros Hb Hf. change FSSIZE with 1000 in Hb. unfold lba, unit_of. rewrite !Hf by set_solver. unfold address. cbn [Z.eqb Pos.eqb].
  split; [done|]. destruct (dev_bit (b_dev x)) as [-> | ->]; (split; [|reflexivity]);
    match goal with |- context [Z.land ?a 15] => change (Z.land a 15) with 0 end; dlia.
Qed.

Lemma port_reg_spec p v s (Q : unit → ide D → Prop) :
  p ∈ [0x1f2; 0x1f3; 0x1f4; 0x1f5; 0x1f6; 0x3f6] → 0 <= v < 256 → at_rest (phase_of (drive s)) → shown (drive s) →
  (∀ d', shown d' → phase_of d' = phase_of (drive s) → media d' = media (drive s) →
    (∀ q, reg d' q = if decide (q = p) then v else reg (drive s) q) → Q tt (set_drive d' s)) → wp (port_out p v) Q s.
Proof. intros Hp Hv Hr Hs HQ. destruct (drive_reg p v (drive s) Hp Hv Hr Hs) as (E0 & E1 & E2 & E3). unfold port_out. rewrite wp_modify. by apply HQ. Qed.

Lemma getbuf_spec b x s (Q : buf → ide D → Prop) : bufs s !! b = Some x → Q x s → wp (getbuf b) Q s.
Proof. intros Hb HQ. unfold wp, getbuf. by rewrite Hb. Qed.

Lemma bytes_of_sector n : 0 <= n < FSSIZE →
  i32 (n * (BSIZE / SECTOR_SIZE)) = n ∧ u8 (Z.land n 0xff) = n mod 256 ∧ u8 (Z.land (Z.shiftr n 8) 0xff) = n / 256 ∧
  u8 (Z.land (Z.shiftr n 16) 0xff) = 0 ∧ Z.land (Z.shiftr n 24) 0x0f = 0.
Proof.
  intros Hn. change FSSIZE with 1000 in Hn. change (BSIZE / SECTOR_SIZE) with 1. change 0xff with (Z.ones 8). change 0x0f with (Z.ones 4).
  rewrite !Z.land_ones, !Z.shiftr_div_pow2 by lia. change (2 ^ 8) with 256. change (2 ^ 16) with 65536. change (2 ^ 24) with 16777216. change (2 ^ 4) with 16.
  unfold u8, i32. split_and!; dlia.
Qed.

Lemma device_byte z : u8 (Z.lor (Z.lor 0xe0 (Z.shiftl (Z.land z 1) 4)) 0) = 0xe0 + 16 * Z.land z 1.
Proof. destruct (dev_bit z) as [-> | ->]; reflexivity. Qed.

(** [idestart] gives the drive the command for the buffer. *)
Lemma idestart_spec b x s (Q : unit → ide D → Prop) :
  bufs s !! b = Some x → 0 <= b_blockno x < FSSIZE → (dirty x = true → length (b_data x) = 512%nat) → at_rest (phase_of (drive s)) →
  (∀ d', phase_of d' = work x → media d' = media (drive s) → Q tt (set_drive d' s)) → wp (idestart (Some b)) Q s.
Proof.
  intros Hb Hblk Hlen Hrest HQ. unfold idestart. rewrite wp_bind. eapply getbuf_spec; [exact Hb|].
  rewrite (proj2 (Z.leb_gt FSSIZE (b_blockno x))) by lia. destruct (bytes_of_sector _ Hblk) as (E0 & E1 & E2 & E3 & E4).
  cbv zeta. rewrite E0, E1, E2, E3, E4, device_byte. change (7 <? BSIZE / SECTOR_SIZE) with false. change (BSIZE / SECTOR_SIZE =? 1) with true. cbv iota.
  change (u8 (BSIZE / SECTOR_SIZE)) with 1. change FSSIZE with 1000 in Hblk.
  rewrite wp_bind. apply idewait_spec; [by destruct (phase_of (drive s))|]. intros d0 _ S0 P0 M0 _ _ _.
  rewrite wp_bind. apply port_reg_spec; [set_solver|lia|cbn; by rewrite P0|done|]. intros d1 S1 P1 M1 _.
  rewrite wp_bind. apply port_reg_spec; [set_solver|lia|cbn in *; by rewrite P1, P0|done|]. intros d2 S2 P2 M2 R2.
  rewrite wp_bind. apply port_reg_spec; [set_solver|dlia|cbn in *; by rewrite P2, P1, P0|done|]. intros d3 S3 P3 M3 R3.
  rewrite wp_bind. apply port_reg_spec; [set_solver|dlia|cbn in *; by rewrite P3, P2, P1, P0|done|]. intros d4 S4 P4 M4 R4.
  rewrite wp_bind. apply port_reg_spec; [set_solver|dlia|cbn in *; by rewrite P4, P3, P2, P1, P0|done|]. intros d5 S5 P5 M5 R5.
  rewrite wp_bind. apply port_reg_spec; [set_solver|destruct (dev_bit (b_dev x)) as [-> | ->]; lia|cbn in *; by rewrite P5, P4, P3, P2, P1, P0|done|]. intros d6 S6 P6 M6 R6.
  cbn [set_drive drive] in *.
  assert (Hr6 : at_rest (phase_of d6)) by (by rewrite P6, P5, P4, P3, P2, P1, P0).
  assert (Hm6 : media d6 = media (drive s)) by congruence.
  destruct (address_lba x (reg d6)) as (A1 & A2 & A3).
  { change FSSIZE with 1000. lia. }
  { intros q Hq. rewrite R6, R5, R4, R3, R2. repeat (apply elem_of_cons in Hq as [->|Hq]; [reflexivity|]). by apply elem_of_nil in Hq. }
  unfold work in HQ. destruct (dirty x).
  - destruct (drive_write d6 Hr6 S6 A1) as [W1 W2]. rewrite A2, A3 in W1. destruct (drive_data_out _ _ (b_data x) _ W1 (Hlen eq_refl)) as [W3 W4].
    rewrite wp_bind. unfold port_out, port_outs. rewrite wp_modify, wp_modify. cbn [set_drive drive]. apply HQ; [done|congruence].
  - destruct (drive_read d6 Hr6 S6 A1) as [W1 W2]. rewrite A2, A3 in W1. unfold port_out. rewrite wp_modify. cbn [set_drive drive]. apply HQ; [done|congruence].
Qed.

(** ** The queue *)

(** The buffers on the list that starts at [h]. *)
Fixpoint path (qn : list (option nat)) (h : option nat) (q : list nat) : Prop :=
  match q with
  | [] => h = None
  | b :: q => h = Some b ∧ ∃ n, qn !! b = Some n ∧ path qn n q
  end.

Lemma path_ext qn qn' h q : (∀ b, b ∈ q → qn' !! b = qn !! b) → path qn h q → path qn' h q.
Proof.
  revert h. induction q as [|b q IH]; intros h He Hp; [done|]. destruct Hp as [-> (n & Hn & Hp)]. split; [done|]. exists n.
  split; [rewrite He by set_solver; done|]. apply IH; [set_solver|done].
Qed.

Lemma enqueue_behind fuel : ∀ q s a n b,
  qnext s !! a = Some n → path (qnext s) n q → NoDup (a :: q) → b ∉ a :: q → qnext s !! b = Some None → (length q < fuel)%nat →
  ∃ qn v, enqueue fuel (Some a) b s = Ret tt (set_qnext qn s) ∧ qn !! a = Some v ∧ path qn v (q ++ [b]) ∧
    length qn = length (qnext s) ∧ ∀ c, c ∉ a :: q → qn !! c = qnext s !! c.
Proof.
  induction fuel as [|fuel IH]; intros q s a n b Ha Hp Hnd Hb Hbn Hf; [lia|]. cbn [enqueue]. unfold mbind, M_bind. rewrite Ha. cbn [of_option mret M_ret].
  destruct q as [|c q]; cbn [path] in Hp.
  - subst n. exists (<[a := Some b]> (qnext s)), (Some b). pose proof (lookup_lt_Some _ _ _ Ha) as Hla.
    split_and!; [done|by apply list_lookup_insert_eq| |apply length_insert|].
    + split; [done|]. exists None. split; [|done]. rewrite list_lookup_insert_ne by set_solver. done.
    + intros c Hc. apply list_lookup_insert_ne. set_solver.
  - destruct Hp as [-> (n' & Hn & Hp)]. apply NoDup_cons in Hnd as [Hac Hnd].
    destruct (IH q s c n' b Hn Hp Hnd) as (qn & v & E & Hv & Hpath & Hl & Hrest); [set_solver|done|cbn [length] in Hf; lia|].
    exists qn, (Some c). split_and!; [done| | |done|].
    + rewrite Hrest by set_solver. done.
    + split; [done|]. eauto.
    + intros c' Hc'. apply Hrest. set_solver.
Qed.

Lemma enqueue_spec fuel q s b :
  path (qnext s) (idequeue s) q → NoDup q → b ∉ q → qnext s !! b = Some None → (length q < fuel)%nat →
  ∃ s', enqueue fuel None b s = Ret tt s' ∧ path (qnext s') (idequeue s') (q ++ [b]) ∧ length (qnext s') = length (qnext s) ∧
    bufs s' = bufs s ∧ havedisk1 s' = havedisk1 s ∧ drive s' = drive s ∧ woken s' = woken s ∧ (idequeue s' = Some b ↔ q = []).
Proof.
  intros Hp Hnd Hb Hbn Hf. destruct fuel as [|fuel]; [lia|]. cbn [enqueue]. unfold mbind, M_bind, gets. destruct q as [|a q].
  - cbn [path] in Hp. rewrite Hp. eexists. split; [reflexivity|]. cbn. split_and!; try done. eauto.
  - destruct Hp as [Eh (n & Hn & Hp)]. rewrite Eh. destruct (enqueue_behind fuel q s a n b Hn Hp Hnd Hb Hbn) as (qn & v & E & Hv & Hpath & Hl & _); [cbn [length] in Hf; lia|].
    exists (set_qnext qn s). split; [done|]. cbn [set_qnext qnext idequeue bufs havedisk1 drive woken]. rewrite Eh. split_and!; try done.
    + split; [done|]. eauto.
    + split; [|done]. intros [= ->]. set_solver.
Qed.

(** ** Callers and interrupts *)

(** A state of the driver and, for each buffer given to [iderw], whether its
    caller is asleep. *)
Record sys := Sys { st : ide D; callers : gmap nat bool }.

Definition wake (l : list nat) (c : gmap nat bool) : gmap nat bool := foldr (λ b c, alter (λ _, false) b c) c l.
Definition calm s : ide D := Ide (bufs s) (qnext s) (idequeue s) (havedisk1 s) (drive s) [].
Definition busy (p : phase) : Prop := match p with Reading _ _ | Writing _ _ _ => True | _ => False end.

(** A caller returns from [iderw] or goes to sleep. *)
Definition settle (b : nat) (r : bool) (c : gmap nat bool) : gmap nat bool := if r then delete b c else <[b := true]> c.

(** A process calls [iderw] with a locked buffer, the drive completes its
    command and interrupts, an interrupt comes with nothing to do, a caller
    that was woken runs, or a buffer that is not with the driver changes. *)
Inductive step : sys → sys → Prop :=
| s_call b x r s s1 s2 c :
    c !! b = None → bufs s !! b = Some x → request (havedisk1 s) x →
    iderw_submit b s = Ret tt s1 → iderw_done b s1 = Ret r s2 → step (Sys s c) (Sys s2 (settle b r c))
| s_interrupt e s s1 c :
    busy (phase_of (drive s)) → ideintr (set_drive (complete e (drive s)) s) = Ret tt s1 →
    step (Sys s c) (Sys (calm s1) (wake (woken s1) c))
| s_spurious s s1 c :
    at_rest (phase_of (drive s)) → ideintr s = Ret tt s1 → step (Sys s c) (Sys (calm s1) (wake (woken s1) c))
| s_resume b r s s1 c :
    c !! b = Some false → iderw_done b s = Ret r s1 → step (Sys s c) (Sys s1 (settle b r c))
| s_client b f s c :
    c !! b = None → step (Sys s c) (Sys (set_bufs (alter f b (bufs s)) s) c).

Record inv (σ : sys) (q : list nat) : Prop := {
  iv_path : path (qnext (st σ)) (idequeue (st σ)) q;
  iv_nodup : NoDup q;
  iv_len : length (qnext (st σ)) = length (bufs (st σ));
  iv_woken : woken (st σ) = [];
  iv_req b : b ∈ q → ∃ x, bufs (st σ) !! b = Some x ∧ request (havedisk1 (st σ)) x;
  iv_sleep b : callers σ !! b = Some true ↔ b ∈ q;
  iv_awake b : callers σ !! b = Some false → ∃ x, bufs (st σ) !! b = Some x ∧ pending x = false;
  iv_drive : match q with [] => at_rest (phase_of (drive (st σ))) | b :: _ => ∃ x, bufs (st σ) !! b = Some x ∧ phase_of (drive (st σ)) = work x end;
}.

Lemma queue_short σ q : inv σ q → (length q <= length (bufs (st σ)))%nat.
Proof.
  intros Hi. assert (Hs : q ⊆+ seq 0 (length (bufs (st σ)))).
  { apply NoDup_submseteq; [apply Hi|]. intros b Hb. destruct (iv_req _ _ Hi b Hb) as (x & Hx & _). apply elem_of_seq. apply lookup_lt_Some in Hx. lia. }
  apply submseteq_length in Hs. by rewrite length_seq in Hs.
Qed.

Lemma done_eq b x s : bufs s !! b = Some x → iderw_done b s = Ret (negb (pending x)) s.
Proof. intros Hb. unfold iderw_done, getbuf, mbind, M_bind. by rewrite Hb. Qed.

(** A new request joins the queue, and the drive when it is idle. *)
Lemma submit_spec s c q b x :
  inv (Sys s c) q → c !! b = None → bufs s !! b = Some x → request (havedisk1 s) x →
  ∃ s', iderw_submit b s = Ret tt s' ∧ inv (Sys s' (<[b := true]> c)) (q ++ [b]) ∧ bufs s' = bufs s ∧
    havedisk1 s' = havedisk1 s ∧ media (drive s') = media (drive s).
Proof.
  intros Hi Hc Hb Hrq. pose proof (queue_short _ _ Hi) as Hlen. cbn in Hlen. pose proof (lookup_lt_Some _ _ _ Hb) as Hlt.
  destruct Hi as [I1 I2 I3 I4 I5 I6 I7 I8]. cbn [st callers] in *. destruct Hrq as [Q1 Q2 Q3 Q4 Q5] eqn:Erq. clear Erq.
  assert (Hbq : b ∉ q) by (rewrite <- I6, Hc; done).
  unfold iderw_submit. rewrite (bind_Ret _ _ s x s) by (unfold getbuf; by rewrite Hb). rewrite Q1. cbn [negb].
  pose proof Q2 as Hp. unfold pending in Hp. apply negb_true_iff in Hp. rewrite Hp.
  rewrite (bind_Ret (gets havedisk1) _ s _ s eq_refl). replace (negb (b_dev x =? 0) && (havedisk1 s =? 0)) with false
    by (symmetry; apply andb_false_iff; destruct Q3 as [->|Hne]; [by left|right; by apply Z.eqb_neq]).
  rewrite (bind_Ret (modify _) _ s tt _ eq_refl).
  set (s0 := set_qnext (<[b := None]> (qnext s)) s). rewrite (bind_Ret (gets _) _ s0 _ s0 eq_refl).
  destruct (enqueue_spec (S (length (bufs s0))) q s0 b) as (s1 & E1 & P1 & L1 & B1 & H1 & D1 & W1 & Q).
  { apply (path_ext (qnext s)); [|done]. intros a Ha. apply list_lookup_insert_ne. congruence. } { done. } { done. }
  { apply list_lookup_insert_eq. lia. } { cbn. lia. }
  rewrite (bind_Ret _ _ _ _ _ E1), (bind_Ret (gets idequeue) _ s1 _ s1 eq_refl).
  cbn [s0 set_qnext bufs havedisk1 drive woken] in B1, H1, D1, W1. cbn [s0 set_qnext qnext] in L1. rewrite length_insert in L1.
  assert (Hend : ∀ d', media d' = media (drive s) →
      (match q ++ [b] with [] => at_rest (phase_of d') | a :: _ => ∃ y, bufs s !! a = Some y ∧ phase_of d' = work y end) →
      inv (Sys (set_drive d' s1) (<[b := true]> c)) (q ++ [b]) ∧ bufs (set_drive d' s1) = bufs s ∧
      havedisk1 (set_drive d' s1) = havedisk1 s ∧ media (drive (set_drive d' s1)) = media (drive s)).
  { intros d' Hm Hph. split_and!; [|done|done|done]. split; cbn [st callers set_drive qnext idequeue bufs havedisk1 drive woken].
    - done.
    - apply NoDup_app. split_and!; [done|set_solver|apply NoDup_singleton].
    - congruence.
    - congruence.
    - rewrite B1, H1. intros a Ha. apply elem_of_app in Ha as [Ha|Ha%list_elem_of_singleton]; [auto|]. subst a. by exists x.
    - intros a. destruct (decide (a = b)) as [->|Hne]; [rewrite lookup_insert_eq; set_solver|].
      rewrite lookup_insert_ne, I6 by done. set_solver.
    - rewrite B1. intros a. destruct (decide (a = b)) as [->|Hne]; [rewrite lookup_insert_eq; done|]. rewrite lookup_insert_ne by done. apply I7.
    - by rewrite B1. }
  destruct q as [|a q]; cbn [app] in *.
  - rewrite bool_decide_true by (by apply Q). cbn [when].
    assert (Hwp : wp (idestart (Some b)) (λ _ s', ∃ d', phase_of d' = work x ∧ media d' = media (drive s1) ∧ s' = set_drive d' s1) s1).
    { apply (idestart_spec b x); [by rewrite B1|done|done|by rewrite D1|]. intros d' Hd Hm. eauto. }
    apply wp_elim in Hwp as ([] & s' & E & d' & Hd & Hm & ->). exists (set_drive d' s1). split; [done|]. apply Hend; [by rewrite Hm, D1|]. eauto.
  - rewrite bool_decide_false by (intros E; by apply Q in E). exists s1. split; [done|].
    destruct (Hend (drive s1)) as (Hi' & Hb' & Hh' & Hm'); [by rewrite D1|by rewrite D1|]. by destruct s1.
Qed.

(** The buffer after its request, when the drive's sectors were [m] and it
    reported an error or not. *)
Definition served (e : bool) (m : Z → Z → list Z) (x : buf) : buf :=
  set_b_flags (Z.ldiff (Z.lor (b_flags x) B_VALID) B_DIRTY)
    (if dirty x || e then x else set_b_data (m (Z.land (b_dev x) 1) (b_blockno x)) x).

(** What a request may do to the sectors. *)
Definition wrote (e : bool) (x : buf) (m m' : Z → Z → list Z) : Prop :=
  (∀ dr n, ¬ (dirty x = true ∧ dr = Z.land (b_dev x) 1 ∧ n = b_blockno x) → m' dr n = m dr n) ∧
  (dirty x = true → e = false → m' (Z.land (b_dev x) 1) (b_blockno x) = b_data x).

Lemma setbuf_spec b f s (Q : unit → ide D → Prop) : Q tt (set_bufs (alter f b (bufs s)) s) → wp (setbuf b f) Q s.
Proof. done. Qed.

Lemma served_done e m x : pending (served e m x) = false.
Proof.
  unfold pending, served. cbn [set_b_flags b_flags]. apply negb_false_iff, Z.eqb_eq, Z.bits_inj'. intros k Hk.
  change (Z.lor B_VALID B_DIRTY) with 6. change B_VALID with 2. change B_DIRTY with 4. rewrite Z.land_spec, Z.ldiff_spec, Z.lor_spec.
  destruct (decide (k = 1)) as [->|]; [by rewrite orb_true_r|]. destruct (decide (k = 2)) as [->|]; [by rewrite andb_false_r|].
  assert (Z.testbit 6 k = false ∧ Z.testbit 2 k = false) as [-> ->]; [|by rewrite andb_false_r].
  destruct k as [|[p|[p|p|]|]|p]; try done; lia.
Qed.

(** The data part of [ideintr]: the drive is at rest again, and the buffer has
    what was read. *)
Lemma intr_data s b x e :
  bufs s !! b = Some x → phase_of (drive s) = work x →
  let s0 := set_drive (complete e (drive s)) s in
  wp (if negb (dirty x) then
         r ← idewait true;
         when (0 <=? r) (l ← port_ins 0x1f0; setbuf b (set_b_data l))
       else mret tt)
    (λ _ s', ∃ d' y, s' = set_drive d' (set_bufs (<[b := y]> (bufs s)) s) ∧ at_rest (phase_of d') ∧ wrote e x (media (drive s)) (media d') ∧
       set_b_flags (Z.ldiff (Z.lor (b_flags y) B_VALID) B_DIRTY) y = served e (media (drive s)) x) s0.
Proof.
  intros Hb Hw s0. unfold work in Hw. unfold wrote, served. destruct (dirty x) eqn:Ed; cbn [negb orb].
  - destruct (drive_write_done e _ _ _ _ Hw) as (P1 & M1 & M2). rewrite wp_ret. exists (complete e (drive s)), x.
    split_and!; [by rewrite list_insert_id by done; destruct s|by rewrite P1; destruct e| | |done].
    + intros dr n Hn. apply M1. tauto.
    + intros _. done.
  - destruct (drive_read_done e _ _ _ Hw) as (P1 & M1). rewrite wp_bind. apply idewait_spec; [cbn; by rewrite P1; destruct e|].
    intros d' r S2 P2 M2 _ R1 R2. cbn [s0 set_drive drive] in *. rewrite wp_when. destruct e.
    + rewrite (R1 P1 eq_refl). change (0 <=? -1) with false. cbv iota. exists d', x.
      split_and!; [by rewrite list_insert_id by done; destruct s|by rewrite P2, P1| |done|done].
      intros dr n _. by rewrite M2, M1.
    + rewrite R2 by (left; by rewrite P1). change (0 <=? 0) with true. cbv iota. rewrite wp_bind.
      rewrite P1 in P2. destruct (drive_data_in _ _ P2 S2) as (d2 & Ei & P3 & M3).
      unfold port_ins, wp. cbn [set_drive drive]. rewrite Ei. cbn.
      eexists d2, (set_b_data _ x). split_and!; [|by rewrite P3| |done|].
      * unfold set_bufs, set_drive. cbn. f_equal. by apply alter_insert.
      * intros dr n _. by rewrite M3, M2, M1.
      * by destruct x.
Qed.

(** The interrupt completes the first request and starts the next. *)
Lemma intr_spec s c b q x e :
  inv (Sys s c) (b :: q) → bufs s !! b = Some x →
  ∃ s', ideintr (set_drive (complete e (drive s)) s) = Ret tt s' ∧ woken s' = [b] ∧ inv (Sys (calm s') (<[b := false]> c)) q ∧
    bufs s' = <[b := served e (media (drive s)) x]> (bufs s) ∧ havedisk1 s' = havedisk1 s ∧ wrote e x (media (drive s)) (media (drive s')).
Proof.
  intros [I1 I2 I3 I4 I5 I6 I7 I8] Hb. cbn [st callers] in *. apply NoDup_cons in I2 as [Hbq Hnd].
  destruct I1 as [Eh (n & Hn & Hp)]. destruct I8 as (x' & Hx' & Hph). replace x' with x in * by congruence. clear x' Hx'.
  pose proof (lookup_lt_Some _ _ _ Hb) as Hlt. set (m := media (drive s)).
  set (s1 := set_idequeue n s). assert (Hdata := intr_data s1 b x e Hb Hph). cbn zeta in Hdata. apply wp_elim in Hdata as ([] & s2 & E2 & d2 & y & -> & Hrest & Hwr & Ey).
  unfold ideintr. cbn [set_drive idequeue]. rewrite (bind_Ret (gets idequeue) _ _ (Some b) (set_drive (complete e (drive s)) s)) by (unfold gets; cbn; by rewrite Eh).
  rewrite (bind_Ret _ _ (set_drive (complete e (drive s)) s) n (set_drive (complete e (drive s)) s)) by (cbn; by rewrite Hn).
  rewrite (bind_Ret (modify _) _ _ tt _ eq_refl). rewrite (bind_Ret (getbuf b) _ _ x (set_idequeue n (set_drive (complete e (drive s)) s))) by (unfold getbuf; cbn; by rewrite Hb).
  change (set_idequeue n (set_drive (complete e (drive s)) s)) with (set_drive (complete e (drive s1)) s1).
  rewrite (bind_Ret _ _ _ _ _ E2). set (z := served e m x). change (media (drive s1)) with m in *.
  rewrite (bind_Ret (setbuf b _) _ _ tt _ eq_refl), (bind_Ret (setbuf b _) _ _ tt _ eq_refl), (bind_Ret (wakeup_buf b) _ _ tt _ eq_refl), (bind_Ret (gets idequeue) _ _ _ _ eq_refl).
  cbn [set_drive set_bufs bufs qnext idequeue havedisk1 drive woken s1 set_idequeue].
  rewrite (alter_alter_insert _ _ _ _ y), list_insert_insert_eq by (apply list_lookup_insert_eq; lia).
  change (set_b_flags (Z.ldiff (b_flags (set_b_flags (Z.lor (b_flags y) B_VALID) y)) B_DIRTY) (set_b_flags (Z.lor (b_flags y) B_VALID) y))
    with (set_b_flags (Z.ldiff (Z.lor (b_flags y) B_VALID) B_DIRTY) y). rewrite Ey, I4. fold z.
  set (s3 := Ide (<[b := z]> (bufs s)) (qnext s) n (havedisk1 s) d2 [b]).
  assert (Hend : ∀ d', media d' = media d2 →
      (match q with [] => at_rest (phase_of d') | a :: _ => ∃ y, bufs s !! a = Some y ∧ phase_of d' = work y end) →
      woken (set_drive d' s3) = [b] ∧ inv (Sys (calm (set_drive d' s3)) (<[b := false]> c)) q ∧
      bufs (set_drive d' s3) = <[b := z]> (bufs s) ∧ havedisk1 (set_drive d' s3) = havedisk1 s ∧ wrote e x m (media (drive (set_drive d' s3)))).
  { intros d' Hm' Hph'. cbn [s3 set_drive woken bufs drive havedisk1]. rewrite Hm'. split_and!; [done| |done|done|done].
    split; cbn [st callers calm set_drive s3 bufs qnext idequeue havedisk1 drive woken].
    - done.
    - done.
    - by rewrite length_insert.
    - done.
    - intros a Ha. rewrite list_lookup_insert_ne by set_solver. apply I5. set_solver.
    - intros a. destruct (decide (a = b)) as [->|Hne]; [rewrite lookup_insert_eq; by split|]. rewrite lookup_insert_ne, I6 by done. set_solver.
    - intros a. destruct (decide (a = b)) as [->|Hne].
      + intros _. exists z. split; [by apply list_lookup_insert_eq|apply served_done].
      + rewrite lookup_insert_ne, list_lookup_insert_ne by done. apply I7.
    - destruct q as [|a q]; [done|]. rewrite list_lookup_insert_ne by set_solver. done. }
  destruct q as [|a q]; cbn [path] in Hp.
  - subst n. exists s3. split; [done|]. by apply (Hend d2).
  - destruct Hp as [-> _]. cbn [when]. rewrite bool_decide_true by done. destruct (I5 a) as (xa & Hxa & [_ _ _ Hba Hla]); [set_solver|].
    assert (Hxa3 : bufs s3 !! a = Some xa) by (cbn; rewrite list_lookup_insert_ne by set_solver; done).
    assert (Hwp : wp (idestart (Some a)) (λ _ s', ∃ d', phase_of d' = work xa ∧ media d' = media d2 ∧ s' = set_drive d' s3) s3).
    { apply (idestart_spec a xa); [done|done|done|done|]. intros d' Hd Hm'. eauto. }
    apply wp_elim in Hwp as ([] & s' & E & d' & Hd & Hm' & ->). exists (set_drive d' s3). split; [done|]. apply Hend; [done|]. eauto.
Qed.

(** ** The abstract disk

    Requests are carried out one at a time, whole, in the order they came. *)
Record disk := Disk { a_queue : list nat; a_bufs : list buf; a_media : Z → Z → list Z; a_callers : gmap nat bool }.

Inductive astep (have1 : Z) : disk → disk → Prop :=
| a_submit q bl m c b x :
    c !! b = None → bl !! b = Some x → request have1 x → astep have1 (Disk q bl m c) (Disk (q ++ [b]) bl m (<[b := true]> c))
| a_serve e q bl m m' c b x :
    bl !! b = Some x → wrote e x m m' →
    astep have1 (Disk (b :: q) bl m c) (Disk q (<[b := served e m x]> bl) m' (<[b := false]> c))
| a_return q bl m c b x :
    c !! b = Some false → bl !! b = Some x → pending x = false → astep have1 (Disk q bl m c) (Disk q bl m (delete b c))
| a_client q bl m c b f :
    c !! b = None → astep have1 (Disk q bl m c) (Disk q (alter f b bl) m c).

Definition abs (σ : sys) (q : list nat) : disk := Disk q (bufs (st σ)) (media (drive (st σ))) (callers σ).

Lemma alter_insert_map (c : gmap nat bool) b v : c !! b = Some v → alter (λ _, false) b c = <[b := false]> c.
Proof.
  intros Hb. apply map_eq. intros j. destruct (decide (j = b)) as [->|Hne].
  - by rewrite lookup_alter_eq, Hb, lookup_insert_eq.
  - by rewrite lookup_alter_ne, lookup_insert_ne by done.
Qed.

Lemma ideintr_empty s : idequeue s = None → ideintr s = Ret tt s.
Proof. intros E. unfold ideintr. by rewrite (bind_Ret (gets idequeue) _ s None s) by (unfold gets; by rewrite E). Qed.

Lemma inv_client s c q b f : inv (Sys s c) q → c !! b = None → inv (Sys (set_bufs (alter f b (bufs s)) s) c) q.
Proof.
  intros [I1 I2 I3 I4 I5 I6 I7 I8] Hc. cbn [st callers] in *.
  assert (Hbq : b ∉ q) by (rewrite <- I6, Hc; done).
  split; cbn [st callers set_bufs bufs qnext idequeue havedisk1 drive woken]; try done.
  - by rewrite length_alter.
  - intros a Ha. rewrite list_lookup_alter_ne by congruence. auto.
  - intros a Ha. rewrite list_lookup_alter_ne by congruence. auto.
  - destruct q as [|a q]; [done|]. rewrite list_lookup_alter_ne by set_solver. done.
Qed.

Lemma inv_return s c q b : inv (Sys s c) q → c !! b = Some false → inv (Sys s (delete b c)) q.
Proof.
  intros [I1 I2 I3 I4 I5 I6 I7 I8] Hc. cbn [st callers] in *. split; cbn [st callers]; try done.
  - intros a. destruct (decide (a = b)) as [->|Hne]; [rewrite lookup_delete_eq, <- I6, Hc; done|]. by rewrite lookup_delete_ne by done.
  - intros a Ha. apply I7. by apply lookup_delete_Some in Ha as [_ ?].
Qed.

(** Every step of the driver is a step of the abstract disk, or none. *)
Lemma step_refines σ σ' q :
  inv σ q → step σ σ' →
  havedisk1 (st σ') = havedisk1 (st σ) ∧ ∃ q', inv σ' q' ∧ (astep (havedisk1 (st σ)) (abs σ q) (abs σ' q') ∨ abs σ' q' = abs σ q).
Proof.
  intros Hi Hst. destruct Hst as [b x r s s1 s2 c Hc Hb Hrq E1 E2|e s s1 c Hbz E|s s1 c Hr E|b r s s1 c Hc E|b f s c Hc].
  - destruct (submit_spec s c q b x Hi Hc Hb Hrq) as (s' & E & Hi' & Hbs & Hh & Hm). rewrite E in E1. injection E1 as <-.
    rewrite (done_eq b x) in E2 by (by rewrite Hbs). rewrite (rq_pending _ _ Hrq) in E2. injection E2 as <- <-. cbn [settle negb st].
    split; [done|]. exists (q ++ [b]). split; [done|]. left. unfold abs. cbn [st callers]. rewrite Hbs, Hm. by apply a_submit with x.
  - destruct q as [|b q].
    { pose proof (iv_drive _ _ Hi) as Hd. cbn [st] in Hd. by destruct (phase_of (drive s)). }
    destruct (iv_req _ _ Hi b) as (x & Hx & _); [set_solver|]. cbn [st] in Hx.
    destruct (intr_spec s c b q x e Hi Hx) as (s' & E' & Hw & Hi' & Hbs & Hh & Hwr). rewrite E in E'. injection E' as <-. rewrite Hw. cbn [wake foldr].
    assert (Hcb : c !! b = Some true) by (apply (iv_sleep _ _ Hi b); set_solver).
    replace (alter (λ _, false) b c) with (<[b := false]> c) by (symmetry; by eapply alter_insert_map).
    split; [done|]. exists q. split; [done|]. left. unfold abs. cbn [st callers calm bufs drive]. rewrite Hbs. by apply a_serve.
  - pose proof (iv_drive _ _ Hi) as Hd. destruct q as [|b q]; cbn [st] in Hd.
    + rewrite ideintr_empty in E by apply (iv_path _ _ Hi). injection E as <-. pose proof (iv_woken _ _ Hi) as Hw. cbn [st] in Hw. rewrite Hw. cbn [wake foldr].
      assert (calm s = s) as -> by (destruct s; cbn in *; by subst). split; [done|]. exists []. auto.
    + destruct Hd as (x & _ & Hd). rewrite Hd in Hr. unfold work in Hr. by destruct (dirty x).
  - destruct (iv_awake _ _ Hi b Hc) as (x & Hx & Hp). cbn [st] in Hx. rewrite (done_eq b x s Hx), Hp in E. injection E as <- <-. cbn [settle negb st].
    split; [done|]. exists q. split; [by apply inv_return|]. left. by apply a_return with x.
  - split; [done|]. exists q. split; [by apply inv_client|]. left. by apply a_client.
Qed.

(** The driver with no request. *)
Record idle s : Prop := {
  id_queue : idequeue s = None;
  id_len : length (qnext s) = length (bufs s);
  id_woken : woken s = [];
  id_drive : at_rest (phase_of (drive s));
}.

Lemma idle_inv s : idle s → inv (Sys s ∅) [].
Proof. intros [E1 E2 E3 E4]. split; cbn [st callers]; try done; [apply NoDup_nil_2|by intros b ?%elem_of_nil|intros b; split; [done|by intros ?%elem_of_nil]]. Qed.

Lemma run_refines σ σ' q :
  inv σ q → rtc step σ σ' →
  ∃ q', inv σ' q' ∧ havedisk1 (st σ') = havedisk1 (st σ) ∧ rtc (astep (havedisk1 (st σ))) (abs σ q) (abs σ' q').
Proof.
  intros Hi Hr. revert q Hi. induction Hr as [σ|σ σ1 σ2 Hst Hr IH]; intros q Hi; [exists q; split_and!; [done|done|apply rtc_refl]|].
  destruct (step_refines σ σ1 q Hi Hst) as (Hh & q1 & Hi1 & Hs). destruct (IH q1 Hi1) as (q2 & Hi2 & Hh2 & Ha). exists q2.
  rewrite Hh in *. split_and!; [done|done|]. destruct Hs as [Hs|Hs]; [by eapply rtc_l|by rewrite <- Hs].
Qed.

End spec.

(** ** The driver below the buffer cache

    One caller alone: its request, the interrupt, the wakeup.  With a drive
    that reports no errors this is the block driver bio.c builds on. *)
Section below.
Context {D : Type} `{DriveOk D}.

Definition iderw_alone : M (ide D) buf :=
  iderw_submit 0 ;;
  r ← iderw_done 0;
  (if (r : bool) then mret tt else
     modify (λ s : ide D, set_drive (complete false (drive s)) s) ;;
     ideintr ;;
     r ← iderw_done 0;
     if (r : bool) then mret tt else wait_forever) ;;
  getbuf 0.

(** The drive, and the platters before each write. *)
Record idedisk := IdeDisk { id_drv : D; id_hist : list (list (list Z)) }.

Definition platter (m : Z → Z → list Z) : list (list Z) := (λ n, m 1 (Z.of_nat n)) <$> seq 0 (Z.to_nat FSSIZE).

#[export] Instance ide_driver : BlockDriver idedisk := {
  iderw x (d : idedisk) :=
    match iderw_alone (Ide [x] [None] None 1 (id_drv d) []) with
    | Ret y s => Ret y (IdeDisk (drive s) (if dirty x then platter (media (id_drv d)) :: id_hist d else id_hist d))
    | Panic msg => Panic msg
    | Fault => Fault
    | Block => Block
    | Diverge => Diverge
    end;
  blocks (d : idedisk) := platter (media (id_drv d));
  past (d : idedisk) := id_hist d;
  dwf (d : idedisk) := at_rest (phase_of (id_drv d)) ∧ Forall block_ok (platter (media (id_drv d)));
}.

Lemma platter_length m : length (platter m) = 1000%nat.
Proof. unfold platter. by rewrite length_fmap, length_seq. Qed.

Lemma platter_lookup m n : 0 <= n < 1000 → platter m !! Z.to_nat n = Some (m 1 n).
Proof.
  intros Hn. unfold platter. rewrite list_lookup_fmap, lookup_seq_lt by (change (Z.to_nat FSSIZE) with 1000%nat; lia). cbn. do 2 f_equal. lia.
Qed.

Lemma alone_spec x d :
  request 1 x → at_rest (phase_of d) →
  ∃ s, iderw_alone (Ide [x] [None] None 1 d []) = Ret (served false (media d) x) s ∧ at_rest (phase_of (drive s)) ∧ wrote false x (media d) (media (drive s)).
Proof.
  intros Hrq Hr. set (s0 := Ide [x] [None] None 1 d []).
  destruct (submit_spec s0 ∅ [] 0 x) as (s1 & E1 & I1 & B1 & H1 & M1); [by apply idle_inv|done|done|done|].
  destruct (intr_spec s1 (<[0%nat := true]> ∅) 0 [] x false I1) as (s2 & E2 & _ & I2 & B2 & _ & W2); [by rewrite B1|].
  rewrite M1 in *. cbn [s0 drive] in *. rewrite B1 in B2. cbn [s0 bufs insert list_insert] in B2.
  assert (Hb2 : bufs s2 !! 0%nat = Some (served false (media d) x)) by by rewrite B2.
  exists s2. split_and!; [|apply (iv_drive _ _ I2)|done].
  unfold iderw_alone. rewrite (bind_Ret _ _ _ _ _ E1), (bind_Ret _ _ _ _ _ (done_eq 0 x s1 ltac:(by rewrite B1))). rewrite (rq_pending _ _ Hrq). cbn [negb].
  rewrite (bind_Ret _ _ s1 tt s2).
  - unfold getbuf. by rewrite Hb2.
  - rewrite (bind_Ret (modify _) _ _ tt _ eq_refl), (bind_Ret _ _ _ _ _ E2), (bind_Ret _ _ _ _ _ (done_eq 0 _ s2 Hb2)). by rewrite served_done.
Qed.

Lemma flag_bits k : 0 <= k → Z.testbit B_VALID k = bool_decide (k = 1) ∧ Z.testbit B_DIRTY k = bool_decide (k = 2).
Proof.
  intros Hk. change B_VALID with (2 ^ 1). change B_DIRTY with (2 ^ 2). rewrite !Z.pow2_bits_eqb by lia.
  split; case_bool_decide; [subst; done|apply Z.eqb_neq; congruence|subst; done|apply Z.eqb_neq; congruence].
Qed.

Lemma dirty_bit x : dirty x = Z.testbit (b_flags x) 2.
Proof.
  unfold dirty. change B_DIRTY with (2 ^ 2). destruct (Z.testbit (b_flags x) 2) eqn:E.
  - apply negb_true_iff, Z.eqb_neq. intros Hz. apply (f_equal (λ z, Z.testbit z 2)) in Hz. by rewrite Z.land_spec, E in Hz.
  - apply negb_false_iff, Z.eqb_eq, Z.bits_inj'. intros k Hk. rewrite Z.land_spec, Z.pow2_bits_eqb, Z.bits_0 by lia.
    destruct (Z.eqb_spec 2 k) as [<-|]; [by rewrite E|apply andb_false_r].
Qed.

Lemma served_flags x :
  Z.ldiff (Z.lor (b_flags x) B_VALID) B_DIRTY = if dirty x then Z.lor (Z.ldiff (b_flags x) B_DIRTY) B_VALID else Z.lor (b_flags x) B_VALID.
Proof.
  rewrite dirty_bit. destruct (Z.testbit (b_flags x) 2) eqn:E; apply Z.bits_inj'; intros k Hk; destruct (flag_bits k Hk) as [E1 E2];
    rewrite ?Z.ldiff_spec, ?Z.lor_spec, ?Z.ldiff_spec, E1, E2; (destruct (decide (k = 2)) as [->|Hne]; [rewrite ?E; done|]);
    rewrite (bool_decide_false (k = 2)) by done; by rewrite !andb_true_r.
Qed.

Lemma dirty_pending x : dirty x = true → pending x = true.
Proof.
  rewrite dirty_bit. intros Hd. unfold pending. apply negb_true_iff, Z.eqb_neq. intros Hz. apply (f_equal (λ z, Z.testbit z 2)) in Hz.
  rewrite Z.land_spec, Hd in Hz. discriminate Hz.
Qed.

Lemma invalid_pending x : valid x = false → dirty x = false → pending x = true.
Proof.
  unfold valid, dirty, pending. intros Hv Hd. apply negb_false_iff, Z.eqb_eq in Hv, Hd. by rewrite Z.land_lor_distr_r, Hv, Hd.
Qed.

Lemma in_platter d n : in_disk d n → 0 <= n < 1000.
Proof. unfold in_disk. cbn [blocks ide_driver]. rewrite platter_length. lia. Qed.

#[export] Instance ide_driver_ok : BlockDriverOk idedisk.
Proof.
  split.
  - intros d [_ Hd]. exact Hd.
  - intros x d [Hr Hok] Hlk Hv Hd Hdev Hin%in_platter.
    destruct (alone_spec x (id_drv d)) as (s & E & Hr' & W1 & _); [split; [done|by apply invalid_pending|by right|done|congruence]|done|].
    cbn [iderw ide_driver]. rewrite E, Hd. exists (IdeDisk (drive s) (id_hist d)). cbn [dwf blocks past ide_driver id_drv id_hist].
    assert (Em : platter (media (drive s)) = platter (media (id_drv d))).
    { apply list_fmap_ext. intros i n _. apply W1. intros [? _]. congruence. }
    split_and!; [|done|by rewrite Em|done|done]. f_equal. unfold served. rewrite served_flags, Hd, Hdev. cbn [orb]. do 2 f_equal.
    unfold blk. cbn [blocks ide_driver]. rewrite list_lookup_total_alt, platter_lookup by done. done.
  - intros x d [Hr Hok] Hlk Hd Hdev Hin%in_platter [Hlen Hby].
    destruct (alone_spec x (id_drv d)) as (s & E & Hr' & W1 & W2); [split; [done|by apply dirty_pending|by right|done|done]|done|].
    cbn [iderw ide_driver]. rewrite E, Hd. eexists (IdeDisk (drive s) _). split; [f_equal; unfold served; rewrite served_flags, Hd; reflexivity|].
    cbn [dwf blocks past ide_driver id_drv id_hist].
    assert (Em : platter (media (drive s)) = <[Z.to_nat (b_blockno x) := b_data x]> (platter (media (id_drv d)))).
    { apply list_eq. intros k. destruct (decide (k < 1000)%nat) as [Hk|Hk].
      - replace k with (Z.to_nat (Z.of_nat k)) by lia. rewrite platter_lookup by lia. destruct (decide (Z.of_nat k = b_blockno x)) as [->|Hne].
        + rewrite list_lookup_insert_eq by (rewrite platter_length; lia). f_equal. specialize (W2 Hd eq_refl). by rewrite Hdev in W2.
        + rewrite list_lookup_insert_ne, platter_lookup by lia. f_equal. apply W1. tauto.
      - rewrite !lookup_ge_None_2; [done|rewrite length_insert, platter_length; lia|rewrite platter_length; lia]. }
    split_and!; [done| |done|done]. rewrite Em. apply Forall_insert; [done|]. by split.
Qed.
End below.

(** ** A drive *)

(** A drive that shows busy once after each command it completed, and ignores
    what is written until then. *)
Record sim := Sim { sim_phase : phase; sim_media : Z → Z → list Z; sim_reg : Z → Z; sim_lag : bool }.

Definition sim_status (p : phase) : Z :=
  match p with Ready => 0x40 | Failed => 0x41 | DataReady _ => 0x48 | _ => 0x80 end.

#[export] Instance sim_drive : Drive sim := {
  inb _ d := if sim_lag d then (0x80, Sim (sim_phase d) (sim_media d) (sim_reg d) false) else (sim_status (sim_phase d), d);
  outb p v d :=
    if sim_lag d then d else if decide (p = 0x1f7) then
      Sim (if v =? IDE_CMD_READ then Reading (unit_of (sim_reg d)) (lba (sim_reg d)) else Accepting (unit_of (sim_reg d)) (lba (sim_reg d)))
        (sim_media d) (sim_reg d) (sim_lag d)
    else Sim (sim_phase d) (sim_media d) (λ q, if decide (q = p) then v else sim_reg d q) (sim_lag d);
  insl _ d := if sim_lag d then ([], d) else match sim_phase d with DataReady l => (l, Sim Ready (sim_media d) (sim_reg d) (sim_lag d)) | _ => ([], d) end;
  outsl _ l d :=
    match sim_phase d with Accepting dr sec => Sim (Writing dr sec l) (sim_media d) (sim_reg d) (sim_lag d) | _ => d end;
  complete e d :=
    match sim_phase d with
    | Reading dr sec => Sim (if e then Failed else DataReady (sim_media d dr sec)) (sim_media d) (sim_reg d) true
    | Writing dr sec l =>
        Sim (if e then Failed else Ready) (if e then sim_media d else store (sim_media d) dr sec l) (sim_reg d) true
    | _ => d
    end;
  patience := 2;
}.

#[export, refine] Instance sim_drive_ok : DriveOk sim := {
  phase_of := sim_phase; shown d := sim_lag d = false; media := sim_media; reg := sim_reg;
}.
Proof.
  - intros [p m r lag] Hq. cbn in Hq. assert (Hs : ready_status (sim_status p) = true ∧ (Z.land (sim_status p) (Z.lor IDE_DF IDE_ERR) = 0 ↔ p ≠ Failed)).
    { destruct p; try done; by (split; [reflexivity|]; split; [done|]). }
    destruct Hs as [Hs1 Hs2]. destruct lag.
    + exists 2%nat, (sim_status p), (Sim p m r false). refine (conj _ (conj _ (conj eq_refl (conj eq_refl (conj eq_refl (conj eq_refl Hs2)))))); [done|].
      eapply poll_later; [reflexivity|reflexivity|]. by apply poll_now.
    + exists 1%nat, (sim_status p), (Sim p m r false). refine (conj _ (conj _ (conj eq_refl (conj eq_refl (conj eq_refl (conj eq_refl Hs2)))))); [cbn; lia|]. by apply poll_now.
  - intros p v [ph m r lag] Hp Hv Hr Hs. cbn in Hs. subst lag. cbn [outb sim_drive sim_lag]. rewrite decide_False by (intros ->; set_solver). done.
  - intros [ph m r lag] Hr Hs H2. cbn in Hs. by subst lag.
  - intros [ph m r lag] Hr Hs H2. cbn in Hs. by subst lag.
  - intros dr sec l [ph m r lag] Hp Hl. cbn in Hp. subst ph. done.
  - intros l [ph m r lag] Hp Hs. cbn in Hp, Hs. subst ph lag. eexists. split; [reflexivity|]. done.
  - intros e dr sec [ph m r lag] Hp. cbn in Hp. subst ph. by destruct e.
  - intros e dr sec l [ph m r lag] Hp. cbn in Hp. subst ph. cbn. destruct e; split_and!; try done.
    + intros a b Hab. unfold store. by rewrite decide_False.
    + intros _. unfold store. by rewrite decide_True.
Defined.

Definition ex_drive : sim := Sim Ready (λ dr sec, replicate 512 (dr + sec)) (λ _, 0) false.
Definition ex_buf (f n : Z) : buf := Buf f 1 n (Sleeplock true 7) 1 0 0 (replicate 512 9).
Definition ex_ide : ide sim := Ide [ex_buf 0 5; ex_buf B_DIRTY 6] [None; None] None 1 ex_drive [].

Lemma ex_request f n : (f = 0 ∨ f = B_DIRTY) → 0 <= n < 1000 → request 1 (ex_buf f n).
Proof. intros Hf Hn. split; [done|by destruct Hf as [-> | ->]|by right|done|done]. Qed.


(** A failed read is not reported: the buffer keeps its old bytes and is marked
    valid. *)
Example failed_read_looks_valid m :
  let x := ex_buf 0 5 in pending x = true ∧ pending (served true m x) = false ∧ b_data (served true m x) = b_data x.
Proof. done. Qed.

Example ideinit_finds_disk1 :
  match ideinit (Ide [] [] None 0 ex_drive []) with Ret _ s => havedisk1 s = 1 | _ => False end.
Proof. vm_compute. reflexivity. Qed.
