(* ===== verification/Blocks.v ===== *)
(** * What fs.c relies on: blocks inside a transaction

    fs.c reaches the disk only through [bread], [b->data], [log_write] and
    [brelse].  [BlockLayer] is that interface and [BlockLayerOk] its contract,
    which the buffer cache and the log discharge in Txn.v. *)

From S2P Require Import Prelude Param Bio Log.

Class BlockLayer (S : Type) := {
  bl_bread : Z → Z → M S nat;
  bl_data : nat → M S (list Z);
  bl_set_data : nat → list Z → M S unit;
  bl_log_write : nat → M S unit;
  bl_brelse : nat → M S unit;
}.

(** [bl_st W Hd L s]: block [n] of device 1 stores [W n], which is what a
    later [bread] finds; the buffers of the blocks in [Hd] are locked by this
    thread and hold [Hd !! n], which differs from [W n] between a change of
    [b->data] and the [log_write] that follows; the transaction has logged
    the blocks [L].  [bl_valid] are the blocks a file system call may read
    (all of them but block 1, the superblock, it may also write) and
    [bl_limit] is how many it may log. *)
Class BlockLayerOk (S : Type) `{BlockLayer S} := {
  bl_st : (Z → list Z) → gmap Z (list Z) → list Z → S → Prop;
  bl_handle : S → nat → Z → Prop;
  bl_valid : S → Z → Prop;
  bl_limit : S → nat;

  bl_st_ok W Hd L s n : bl_st W Hd L s → bl_valid s n → Hd !! n = None → block_ok (W n);
  bl_rule_bread W Hd L s n (Q : nat → S → Prop) :
    bl_st W Hd L s → bl_valid s n → Hd !! n = None → (size Hd + length L < NBUF)%nat →
    (∀ i s', bl_st W (<[n := W n]> Hd) L s' → bl_handle s' i n → (∀ m, bl_valid s' m ↔ bl_valid s m) ∧ bl_limit s' = bl_limit s →
       (∀ j m, bl_handle s j m → bl_handle s' j m) → Q i s') →
    wp (bl_bread 1 n) Q s;
  bl_rule_data W Hd L s i n d (Q : list Z → S → Prop) :
    bl_st W Hd L s → bl_valid s n → bl_handle s i n → Hd !! n = Some d → Q d s → wp (bl_data i) Q s;
  bl_rule_set_data W Hd L s i n d v (Q : unit → S → Prop) :
    bl_st W Hd L s → bl_valid s n → bl_handle s i n → Hd !! n = Some d → block_ok v → n ≠ 1 →
    (∀ s', bl_st W (<[n := v]> Hd) L s' → (∀ m, bl_valid s' m ↔ bl_valid s m) ∧ bl_limit s' = bl_limit s →
       (∀ j m, bl_handle s j m → bl_handle s' j m) → Q tt s') →
    wp (bl_set_data i v) Q s;
  bl_rule_log_write W Hd L s i n d (Q : unit → S → Prop) :
    bl_st W Hd L s → bl_valid s n → bl_handle s i n → Hd !! n = Some d →
    (length L < bl_limit s)%nat → n ≠ 1 →
    (∀ s', bl_st (upd W n d) Hd (logged L n) s' → (∀ m, bl_valid s' m ↔ bl_valid s m) ∧ bl_limit s' = bl_limit s →
       (∀ j m, bl_handle s j m → bl_handle s' j m) → Q tt s') →
    wp (bl_log_write i) Q s;
  bl_rule_brelse W Hd L s i n (Q : unit → S → Prop) :
    bl_st W Hd L s → bl_valid s n → bl_handle s i n → Hd !! n = Some (W n) →
    (∀ s', bl_st W (delete n Hd) L s' → (∀ m, bl_valid s' m ↔ bl_valid s m) ∧ bl_limit s' = bl_limit s →
       (∀ j m, bl_handle s j m → m ≠ n → bl_handle s' j m) → Q tt s') →
    wp (bl_brelse i) Q s;
}.
