(* ===== verification/Txn.v ===== *)
(** * Transactions: how system calls use the log

    The reservation [begin_op] makes (log.c) as a step system in which any
    number of file-system calls are in progress, and the rules with which
    fs.c uses the buffer cache inside a transaction. *)

From S2P Require Import Prelude Param Bio Log Blocks.

(** ** Space reservation *)

Section frame.
Context {D : Type} `{BlockDriver D}.

(** [m] leaves the log structure alone. *)
Definition keeps_log {A} (m : M (lstate D) A) : Prop :=
  ∀ s a s', m s = Ret a s' → lg s' = lg s.

Lemma keeps_log_liftb {A} (m : M (bstate D) A) : keeps_log (liftb m).
Proof. intros s a s'. unfold liftb. destruct (m (bs s)); [|done..]. by intros [= <- <-]. Qed.

Lemma keeps_log_getlog {A} (f : log → A) : keeps_log (getlog f).
Proof. intros s a s' E. unfold getlog, gets in E. by injection E as <- <-. Qed.

Lemma keeps_log_bind {A B} (m : M (lstate D) A) (f : A → M (lstate D) B) :
  keeps_log m → (∀ a, keeps_log (f a)) → keeps_log (m ≫= f).
Proof.
  intros Hm Hf s b s'. unfold mbind, M_bind. destruct (m s) as [a t| | | |] eqn:E; [|done..].
  intros Ht%Hf. rewrite Ht. by eapply Hm.
Qed.

Lemma keeps_log_of_option {A} (o : option A) : keeps_log (of_option o : M (lstate D) A).
Proof. intros s a s'. destruct o; [|done]. by intros [= _ <-]. Qed.

Lemma keeps_log_for n i (body : nat → M (lstate D) unit) :
  (∀ j, keeps_log (body j)) → keeps_log (for_ n i body).
Proof.
  intros Hb. revert i. induction n as [|n IH]; intros i; simpl.
  - by intros s a s' [= _ <-].
  - by apply keeps_log_bind.
Qed.

Create HintDb keeps.
Hint Resolve keeps_log_liftb keeps_log_getlog keeps_log_of_option : keeps.
Ltac keeps :=
  repeat first [apply keeps_log_bind; intros | apply keeps_log_for; intros | solve [auto with keeps]].

Lemma keeps_write_log : keeps_log write_log.
Proof. unfold write_log, write_log_body, lbread, lbwrite, lbrelse, ldata, lset_data, get_block. keeps. Qed.

Lemma keeps_install_trans : keeps_log install_trans.
Proof. unfold install_trans, install_body, lbread, lbwrite, lbrelse, ldata, lset_data, get_block. keeps. Qed.

Lemma keeps_write_head : keeps_log write_head.
Proof. unfold write_head, lbread, lbwrite, lbrelse, ldata, lset_data, get_block. keeps. Qed.

(** Whatever the disk holds, a commit that returns empties the log. *)
Lemma commit_log s s' :
  commit s = Ret tt s' → lg s' = if 0 <? lh_n (lg s) then set_lh_n 0 (lg s) else lg s.
Proof.
  unfold commit, getlog, gets, mbind, M_bind. destruct (0 <? lh_n (lg s)); [|by intros [= <-]].
  destruct (write_log s) as [[] t1| | | |] eqn:E1; [|done..].
  destruct (write_head t1) as [[] t2| | | |] eqn:E2; [|done..].
  destruct (install_trans t2) as [[] t3| | | |] eqn:E3; [|done..].
  unfold modlog, modify. intros E4%keeps_write_head. rewrite E4. cbn [lg].
  apply keeps_write_log in E1. apply keeps_write_head in E2. apply keeps_install_trans in E3. congruence.
Qed.

(** [used] holds, for every call between its [begin_op] and [end_op], how
    many blocks it has logged; a call logs at most [MAXOPBLOCKS] of them.
    [log_write] tests the log before it takes the lock, so other calls may
    run between its tests and its locked part: the step is the locked part
    alone, whenever the tests were made.  Between steps the calls may do
    anything to the buffer cache. *)
Inductive tx_step : lstate D * list Z → lstate D * list Z → Prop :=
| tx_begin s s' used : begin_op s = Ret tt s' → tx_step (s, used) (s', used ++ [0])
| tx_log s s' used i u b :
    used !! i = Some u → u < MAXOPBLOCKS → log_write_locked b s = Ret tt s' →
    tx_step (s, used) (s', <[i := u + 1]> used)
| tx_end s s' used i u : used !! i = Some u → end_op s = Ret tt s' → tx_step (s, used) (s', delete i used)
| tx_cache s s' used : lg s' = lg s → tx_step (s, used) (s', used).

Definition reserved (used : list Z) : Z := foldr (λ u a, MAXOPBLOCKS - u + a) 0 used.

Record tx_inv (size : Z) (s : lstate D) (used : list Z) : Prop := {
  ti_n : 0 <= lh_n (lg s);
  ti_used : Forall (λ u, 0 <= u <= MAXOPBLOCKS) used;
  ti_space : lh_n (lg s) + reserved used <= LOGSIZE;
  ti_out : l_outstanding (lg s) = Z.of_nat (length used);
  ti_comm : l_committing (lg s) = 0;
  ti_len : length (lh_block (lg s)) = Z.to_nat LOGSIZE;
  ti_size : l_size (lg s) = size;
}.

Lemma reserved_app l l' : reserved (l ++ l') = reserved l + reserved l'.
Proof. induction l; simpl; lia. Qed.

Lemma reserved_nonneg l : Forall (λ u, 0 <= u <= MAXOPBLOCKS) l → 0 <= reserved l <= MAXOPBLOCKS * Z.of_nat (length l).
Proof. induction 1; simpl; lia. Qed.

Lemma reserved_insert l i u v : l !! i = Some u → reserved (<[i := v]> l) = reserved l + u - v.
Proof.
  revert i. induction l as [|x l IH]; intros [|i] Hi; simpl in *; simplify_eq; [lia|].
  rewrite (IH _ Hi). lia.
Qed.

Lemma reserved_delete l i u : l !! i = Some u → reserved (delete i l) = reserved l + u - MAXOPBLOCKS.
Proof.
  revert i. induction l as [|x l IH]; intros [|i] Hi; simpl in *; simplify_eq; [lia|].
  rewrite (IH _ Hi). lia.
Qed.

Lemma begin_op_inv size s s' used : tx_inv size s used → begin_op s = Ret tt s' → tx_inv size s' (used ++ [0]).
Proof.
  intros [Hn Hu Hsp Ho Hc Hl Hz]. unfold begin_op, getlog, gets, id, mbind, M_bind. rewrite Hc.
  change (negb (0 =? 0)) with false. cbv iota.
  destruct (LOGSIZE <? _) eqn:E; [done|]. apply Z.ltb_ge in E. unfold modlog, modify. intros [= <-].
  split; cbn; try done.
  - apply Forall_app; split; [done|]. constructor; [unfold MAXOPBLOCKS; lia|constructor].
  - rewrite reserved_app. simpl. pose proof (reserved_nonneg _ Hu). lia.
  - rewrite length_app. simpl. lia.
Qed.

Lemma absorb_le (k i : nat) (l : list Z) (n : Z) : (i <= absorb k i l n <= i + k)%nat.
Proof.
  revert i. induction k as [|k IH]; intros i; simpl; [lia|].
  destruct (_ =? n); [lia|]. specialize (IH (S i)). lia.
Qed.

Lemma log_write_inv size s s' used i u b :
  tx_inv size s used → used !! i = Some u → u < MAXOPBLOCKS → log_write_locked b s = Ret tt s' →
  tx_inv size s' (<[i := u + 1]> used).
Proof.
  intros [Hn Hu Hsp Ho Hc Hl Hz] Hi Hlt. pose proof (Forall_lookup_1 _ _ _ _ Hu Hi) as Hu'. simpl in Hu'.
  unfold log_write_locked, getlog, gets, id, mbind, M_bind.
  unfold liftb at 1. destruct (getbuf b (bs s)) as [bb t| | | |]; [|done..].
  unfold set_block, getlog, gets, modlog, modify, mbind, M_bind. cbn [lg bs].
  set (k := absorb _ _ _ _). destruct (Nat.ltb k _) eqn:Hk; [|done]. apply Nat.ltb_lt in Hk.
  destruct (Z.of_nat k =? lh_n (lg s)) eqn:E; unfold mret, M_ret, liftb; cbn [lg bs];
    destruct (pin b t) as [[] t'| | | |]; try done; intros [= <-]; split; cbn; try done.
  all: rewrite ?length_insert, ?(reserved_insert _ _ _ _ Hi); try lia; try done.
  all: apply Forall_insert; [done|lia].
Qed.

Lemma end_op_inv size s s' used i u :
  tx_inv size s used → used !! i = Some u → end_op s = Ret tt s' → tx_inv size s' (delete i used).
Proof.
  intros [Hn Hu Hsp Ho Hc Hl Hz] Hi. pose proof (Forall_lookup_1 _ _ _ _ Hu Hi) as Hu'. simpl in Hu'.
  pose proof (lookup_lt_Some _ _ _ Hi) as Hlt.
  assert (Hlen : length (delete i used) = (length used - 1)%nat) by (apply length_delete; eauto).
  assert (Hu2 : Forall (λ u, 0 <= u <= MAXOPBLOCKS) (delete i used)).
  { apply Forall_forall. intros x Hx. rewrite Forall_forall in Hu. apply Hu.
    eapply elem_of_submseteq; [exact Hx|]. apply sublist_submseteq, sublist_delete. }
  unfold end_op, getlog, gets, modlog, modify, mbind, M_bind. cbn [lg bs l_committing set_outstanding].
  rewrite Hc. change (negb (0 =? 0)) with false. cbv iota. cbn [lg bs l_outstanding set_outstanding].
  destruct (_ =? 0) eqn:E.
  - apply Z.eqb_eq in E. destruct (commit _) as [[] t| | | |] eqn:Ec; [|done..]. intros [= <-].
    apply commit_log in Ec. cbn [lg lh_n set_committing set_outstanding] in Ec.
    assert (Hnil : delete i used = []) by (destruct (delete i used); [done|simpl in Hlen; lia]).
    rewrite Hnil. split; cbn [lg]; rewrite ?Ec; destruct (0 <? lh_n (lg s)) eqn:Ez; cbn; try done; try lia.
    apply Z.ltb_ge in Ez. unfold LOGSIZE, MAXOPBLOCKS. lia.
  - apply Z.eqb_neq in E. intros [= <-]. split; cbn; try done; [|lia].
    rewrite (reserved_delete _ _ _ Hi). lia.
Qed.

Lemma tx_step_inv size c c' : tx_step c c' → tx_inv size c.1 c.2 → tx_inv size c'.1 c'.2.
Proof.
  intros [s s' used Hr|s s' used i u b Hi Hu Hr|s s' used i u Hi Hr|s s' used Hr] Hinv; simpl in *.
  - by eapply begin_op_inv.
  - by eapply log_write_inv.
  - by eapply end_op_inv.
  - destruct Hinv. split; by rewrite ?Hr.
Qed.

Lemma tx_steps_inv size c c' : rtc tx_step c c' → tx_inv size c.1 c.2 → tx_inv size c'.1 c'.2.
Proof. induction 1; eauto using tx_step_inv. Qed.

(** What a call has not used of its reservation is room in the log. *)
Lemma reserved_room size s used i u :
  tx_inv size s used → used !! i = Some u → lh_n (lg s) <= LOGSIZE - (MAXOPBLOCKS - u).
Proof.
  intros [Hn Hu Hsp _ _ _ _] Hi. pose proof (reserved_delete _ _ _ Hi) as Hd.
  assert (0 <= reserved (delete i used)); [|lia].
  apply reserved_nonneg, Forall_forall. intros x Hx. rewrite Forall_forall in Hu. apply Hu.
  eapply elem_of_submseteq; [exact Hx|]. apply sublist_submseteq, sublist_delete.
Qed.

Lemma log_write_check_ret (s : lstate D) :
  lh_n (lg s) < LOGSIZE → lh_n (lg s) < l_size (lg s) - 1 → 1 <= l_outstanding (lg s) →
  log_write_check s = Ret tt s.
Proof.
  intros H1 H2 H3. unfold log_write_check, getlog, gets, id, mbind, M_bind.
  rewrite (proj2 (orb_false_iff _ _)) by (split; apply Z.leb_gt; lia).
  by rewrite (proj2 (Z.ltb_ge _ 1)) by lia.
Qed.

Lemma log_write_locked_ret (s : lstate D) b bb :
  0 <= lh_n (lg s) < LOGSIZE → length (lh_block (lg s)) = Z.to_nat LOGSIZE → bufs (bs s) !! b = Some bb →
  ∃ s', log_write_locked b s = Ret tt s'.
Proof.
  intros Hn Hlen Hb. unfold log_write_locked, getlog, gets, id, mbind, M_bind.
  unfold liftb at 1. rewrite (getbuf_eq _ _ _ Hb).
  pose proof (absorb_le (Z.to_nat (lh_n (lg s))) 0 (lh_block (lg s)) (b_blockno bb)) as Hk.
  unfold set_block, getlog, gets, modlog, modify, mbind, M_bind. cbn [lg bs].
  rewrite (proj2 (Nat.ltb_lt _ _)) by lia.
  assert (Hpin : pin b (bs s) = Ret tt (with_buf (bs s) b (set_b_flags (Z.lor (b_flags bb) B_DIRTY) bb))).
  { unfold pin. by rewrite (setbuf_eq _ _ _ _ Hb). }
  destruct (_ =? lh_n (lg s)); unfold mret, M_ret, liftb; cbn [lg bs]; rewrite Hpin; eauto.
Qed.

End frame.

(** ** The on-disk log mkfs makes

    mkfs writes [nlog = LOGSIZE], header included, so [log.size - 1] is one
    less than what [begin_op] reserves from. *)

Section run.
Context {D : Type} `{BlockDriver D}.

Inductive tx_cmd := Begin | Logw (call b : nat).

Definition tx_exec (c : tx_cmd) (st : lstate D * list Z) : option (lstate D * list Z) :=
  match c with
  | Begin => match begin_op st.1 with Ret _ s' => Some (s', st.2 ++ [0]) | _ => None end
  | Logw i b =>
      match st.2 !! i with
      | Some u =>
          if u <? MAXOPBLOCKS then
            match log_write_locked b st.1 with Ret _ s' => Some (s', <[i := u + 1]> st.2) | _ => None end
          else None
      | None => None
      end
  end.

Fixpoint tx_run (cs : list tx_cmd) (st : lstate D * list Z) : option (lstate D * list Z) :=
  match cs with
  | [] => Some st
  | c :: cs => match tx_exec c st with Some st' => tx_run cs st' | None => None end
  end.

Lemma tx_exec_step c st st' : tx_exec c st = Some st' → tx_step st st'.
Proof.
  destruct st as [s used]. destruct c as [|i b]; simpl.
  - destruct (begin_op s) as [[] s'| | | |] eqn:E; [|done..]. intros [= <-]. by constructor.
  - destruct (used !! i) as [u|] eqn:Hi; [|done]. destruct (u <? MAXOPBLOCKS) eqn:Hu; [|done].
    destruct (log_write_locked b s) as [[] s'| | | |] eqn:E; [|done..]. intros [= <-].
    apply Z.ltb_lt in Hu. by econstructor.
Qed.

Lemma tx_run_steps cs st st' : tx_run cs st = Some st' → rtc tx_step st st'.
Proof.
  revert st. induction cs as [|c cs IH]; intros st; simpl; [intros [= <-]; constructor|].
  destruct (tx_exec c st) as [t|] eqn:E; [|done]. intros Ht.
  eapply rtc_l; [by apply tx_exec_step in E|by apply IH].
Qed.

Lemma tx_run_reaches cs st (P : lstate D → list Z → Prop) :
  match tx_run cs st with Some (s, used) => P s used | None => False end →
  ∃ s used, rtc tx_step st (s, used) ∧ P s used.
Proof.
  intros HP. destruct (tx_run cs st) as [[s used]|] eqn:E; [|done].
  exists s, used. split; [by eapply tx_run_steps|exact HP].
Qed.
End run.

#[export] Existing Instance Memide.driver.
#[export] Existing Instance Memide.driver_ok.

(** A mounted log of [size] blocks; buffer [i] of the cache holds block [100 + i]. *)
Definition example_log (size : Z) : lstate Memide.memide :=
  LState (Log 2 size 0 0 1 0 (replicate (Z.to_nat LOGSIZE) 0))
    (BState ((λ i, Buf 2 1 (100 + Z.of_nat i) (Sleeplock true 7) 1 0 0 []) <$> seq 0 NBUF)
      (Memide.ideinit []) 7).

(** Three calls, which log [k] distinct blocks between them. *)
Definition three_calls (k : nat) : list tx_cmd :=
  [Begin; Begin; Begin] ++ ((λ j, Logw (j / 10) j) <$> seq 0 k).

(** With the log area mkfs makes, [LOGSIZE] blocks including the header,
    the reservation is one block too generous: three calls that [begin_op]
    admits together, and none of which exceeds [MAXOPBLOCKS] blocks, reach a
    state in which the next [log_write] panics. *)
Example mkfs_log_one_short :
  ∃ s used, rtc tx_step (example_log LOGSIZE, []) (s, used) ∧ used = [10; 10; 9] ∧
    l_size (lg s) = LOGSIZE ∧ log_write 29 s = Panic "too big a transaction".
Proof.
  apply (tx_run_reaches (three_calls 29)). vm_compute. done.
Qed.


(** ** The log and the buffer cache implement [BlockLayer] *)

Section layer.
Context {D : Type} `{BlockDriverOk D}.
Implicit Types s : lstate D.

#[export] Instance log_layer : BlockLayer (lstate D) := {
  bl_bread := lbread;
  bl_data := ldata;
  bl_set_data := lset_data;
  bl_log_write := log_write;
  bl_brelse := lbrelse;
}.

Definition heldb (Hd : gmap Z (list Z)) : Z → bool := λ m, bool_decide (is_Some (Hd !! m)).

Definition tx_valid s (n : Z) : Prop :=
  in_blocks (blocks (dk (bs s))) n ∧ (n < l_start (lg s) ∨ l_start (lg s) + l_size (lg s) <= n).
Definition tx_limit s : nat := Nat.min (Z.to_nat (l_size (lg s) - 1)) (NBUF - 1).

(** The view the log keeps, from what fs.c sees. *)
Record tx_st (W : Z → list Z) (Hd : gmap Z (list Z)) (L : list Z) s : Prop := {
  tx_log_st : ∃ V B pa, logst V (heldb Hd) B pa L s ∧
    (∀ n, in_blocks B n → V n = default (W n) (Hd !! n)) ∧
    (∀ n, in_blocks B n → n ∈ L ∨ W n = bat B n);
  tx_open : 0 < l_outstanding (lg s);
  tx_held : ∀ n, is_Some (Hd !! n) → tx_valid s n;
}.

Lemma heldb_insert Hd n d m : heldb (<[n := d]> Hd) m = upd (heldb Hd) n true m.
Proof.
  unfold heldb, upd. case_decide; subst.
  - rewrite lookup_insert_eq. by apply bool_decide_eq_true.
  - by rewrite lookup_insert_ne.
Qed.

Lemma heldb_delete Hd n m : heldb (delete n Hd) m = upd (heldb Hd) n false m.
Proof.
  unfold heldb, upd. case_decide; subst.
  - rewrite lookup_delete_eq. by apply bool_decide_eq_false, is_Some_None.
  - by rewrite lookup_delete_ne.
Qed.

Lemma heldb_empty m : heldb ∅ m = none m.
Proof. unfold heldb. rewrite lookup_empty. by apply bool_decide_eq_false, is_Some_None. Qed.

Lemma few_busy_held Hd (L : list Z) :
  (size Hd + length L < NBUF)%nat → few_busy (heldb Hd) (λ m, bool_decide (m ∈ L)).
Proof.
  intros Hsz. exists (elements (dom Hd) ++ L). split.
  - intros m [Hm|Hm]; apply bool_decide_eq_true in Hm; apply elem_of_app; [left|by right].
    by apply elem_of_elements, elem_of_dom.
  - rewrite length_app. change (length (elements (dom Hd))) with (size (dom Hd)). by rewrite size_dom.
Qed.

Lemma logst_blocks V Hd B pa L s : logst V Hd B pa L s → blocks (dk (bs s)) = B.
Proof. intros Hs. by destruct (ls_bspec _ _ _ _ _ _ Hs) as (_&_&_&_&?&_). Qed.

(** A step that keeps the log structure and the platter, and changes what the
    cache shows to [V']/[Hd']. *)
Lemma logst_step V Hd B pa L s V' Hd' s' :
  logst V Hd B pa L s → lg s' = lg s →
  bspec V' Hd' (λ m, bool_decide (m ∈ L)) B pa (bs s') →
  V' 1 = V 1 → V' (l_start (lg s)) = V (l_start (lg s)) → logst V' Hd' B pa L s'.
Proof. intros [] Hl Hb E1 E2. split; rewrite ?Hl, ?E1, ?E2; done. Qed.

Lemma loggable_ne V Hd B pa L s n :
  logst V Hd B pa L s → loggable B (lg s) n → n ≠ 1 ∧ n ≠ l_start (lg s).
Proof. intros Hs (Hn1 & _ & Ho). split; [done|]. pose proof (ls_cap _ _ _ _ _ _ Hs). lia. Qed.

Lemma same_valid s s' V Hd B pa L V' Hd' pa' L' :
  logst V Hd B pa L s → logst V' Hd' B pa' L' s' →
  l_start (lg s') = l_start (lg s) → l_size (lg s') = l_size (lg s) →
  (∀ n, tx_valid s' n ↔ tx_valid s n) ∧ tx_limit s' = tx_limit s.
Proof.
  intros H1 H2 E1 E2. unfold tx_valid, tx_limit, loggable.
  rewrite (logst_blocks _ _ _ _ _ _ H1), (logst_blocks _ _ _ _ _ _ H2), E1, E2. done.
Qed.

Lemma tx_rule_bread W Hd L s n (Q : nat → lstate D → Prop) :
  tx_st W Hd L s → tx_valid s n → Hd !! n = None → (size Hd + length L < NBUF)%nat →
  (∀ i s', tx_st W (<[n := W n]> Hd) L s' → handle (bs s') i n →
     (∀ m, tx_valid s' m ↔ tx_valid s m) ∧ tx_limit s' = tx_limit s →
     (∀ j m, handle (bs s) j m → handle (bs s') j m) → Q i s') →
  wp (lbread 1 n) Q s.
Proof.
  intros [(V & B & pa & Hs & HV & HW) Ho Hh] Hn HHn Hsz HQ. unfold tx_valid in Hn.
  rewrite (logst_blocks _ _ _ _ _ _ Hs) in Hn. pose proof Hn as (Hin & _).
  unfold lbread. rewrite wp_liftb, (small_u32 B n (ls_small _ _ _ _ _ _ Hs) Hin). change (u32 1) with 1.
  eapply rule_bread; [apply Hs|done| |right; by apply few_busy_held|].
  { unfold heldb. rewrite HHn. by apply bool_decide_eq_false, is_Some_None. }
  intros i b Hb Hi Hk.
  assert (Hs' : logst V (heldb (<[n := W n]> Hd)) B pa L (LState (lg s) b)).
  { eapply logst_step; [exact Hs|done| |done|done]. eapply bspec_ext; [exact Hb|done| |done].
    intros m. apply heldb_insert. }
  destruct (same_valid _ _ _ _ _ _ _ _ _ _ _ Hs Hs' eq_refl eq_refl) as [Hva Hlim].
  apply HQ; [|done|done|done]. split; [|done|].
  - exists V, B, pa. split_and!; [done| |done]. intros m Hm. rewrite HV by done.
    destruct (decide (m = n)) as [->|]; [by rewrite lookup_insert_eq, HHn|by rewrite lookup_insert_ne].
  - intros m Hm. apply Hva. destruct (decide (m = n)) as [->|].
    + unfold tx_valid. by rewrite (logst_blocks _ _ _ _ _ _ Hs).
    + rewrite lookup_insert_ne in Hm by done. by apply Hh.
Qed.

Lemma tx_rule_data W Hd L s i n d (Q : list Z → lstate D → Prop) :
  tx_st W Hd L s → tx_valid s n → handle (bs s) i n → Hd !! n = Some d → Q d s → wp (ldata i) Q s.
Proof.
  intros [(V & B & pa & Hs & HV & HW) Ho Hh] Hn Hi Hd' HQ. unfold tx_valid in Hn.
  rewrite (logst_blocks _ _ _ _ _ _ Hs) in Hn. pose proof Hn as (Hin & _).
  unfold ldata. rewrite wp_liftb. eapply rule_buf_data; [apply Hs|done|done|].
  rewrite HV, Hd' by done. by destruct s.
Qed.

Lemma tx_rule_set_data W Hd L s i n d v (Q : unit → lstate D → Prop) :
  tx_st W Hd L s → tx_valid s n → handle (bs s) i n → Hd !! n = Some d → block_ok v → n ≠ 1 →
  (∀ s', tx_st W (<[n := v]> Hd) L s' →
     (∀ m, tx_valid s' m ↔ tx_valid s m) ∧ tx_limit s' = tx_limit s →
     (∀ j m, handle (bs s) j m → handle (bs s') j m) → Q tt s') →
  wp (lset_data i v) Q s.
Proof.
  intros [(V & B & pa & Hs & HV & HW) Ho Hh] Hn Hi Hd' Hv Hn1 HQ. pose proof Hn as Hn'. unfold tx_valid in Hn.
  rewrite (logst_blocks _ _ _ _ _ _ Hs) in Hn. pose proof Hn as (Hin & _).
  unfold lset_data. rewrite wp_liftb. eapply rule_set_data; [apply Hs|done|done|]. intros b Hb Hk.
  destruct (loggable_ne _ _ _ _ _ _ _ Hs (conj Hn1 Hn)) as [_ Hns].
  assert (Hs' : logst (upd V n v) (heldb (<[n := v]> Hd)) B pa L (LState (lg s) b)).
  { eapply logst_step; [exact Hs|done| |by apply upd_ne; congruence..].
    eapply bspec_ext; [exact Hb|done| |done]. intros m. rewrite heldb_insert. unfold upd, heldb.
    case_decide; [subst; rewrite Hd'; symmetry; by apply bool_decide_eq_true|done]. }
  destruct (same_valid _ _ _ _ _ _ _ _ _ _ _ Hs Hs' eq_refl eq_refl) as [Hva Hlim].
  apply HQ; [|done|done]. split; [|done|].
  - exists (upd V n v), B, pa. split_and!; [done| |done]. intros m Hm. unfold upd.
    case_decide; [subst; by rewrite lookup_insert_eq|]. rewrite lookup_insert_ne by done. by apply HV.
  - intros m Hm. apply Hva. destruct (decide (m = n)) as [->|]; [done|].
    rewrite lookup_insert_ne in Hm by done. by apply Hh.
Qed.

Lemma tx_rule_log_write W Hd L s i n d (Q : unit → lstate D → Prop) :
  tx_st W Hd L s → tx_valid s n → handle (bs s) i n → Hd !! n = Some d →
  (length L < tx_limit s)%nat → n ≠ 1 →
  (∀ s', tx_st (upd W n d) Hd (logged L n) s' →
     (∀ m, tx_valid s' m ↔ tx_valid s m) ∧ tx_limit s' = tx_limit s →
     (∀ j m, handle (bs s) j m → handle (bs s') j m) → Q tt s') →
  wp (log_write i) Q s.
Proof.
  intros [(V & B & pa & Hs & HV & HW) Ho Hh] Hn Hi Hd' Hlim Hn1 HQ. unfold tx_valid in Hn.
  rewrite (logst_blocks _ _ _ _ _ _ Hs) in Hn. unfold tx_limit in Hlim.
  eapply wp_mono; [eapply (log_write_spec V _ B pa L s i n); try done; [lia|]|].
  { unfold logged. case_decide; [lia|]. rewrite length_app. simpl. lia. }
  intros [] s' (Hk & Hs' & Eo & Esz & Est).
  destruct (same_valid _ _ _ _ _ _ _ _ _ _ _ Hs Hs' Est Esz) as [Hva Hl].
  apply HQ; [|done|done]. split; [|by rewrite Eo|].
  - exists V, B, pa. split_and!; [done|..].
    + intros m Hm. rewrite HV by done. unfold upd. case_decide; [subst; by rewrite Hd'|done].
    + intros m Hm. rewrite elem_of_logged. unfold upd. case_decide; [by left; left|].
      destruct (HW m Hm); [by left; right|by right].
  - intros m Hm. by apply Hva, Hh.
Qed.

Lemma tx_rule_brelse W Hd L s i n (Q : unit → lstate D → Prop) :
  tx_st W Hd L s → tx_valid s n → handle (bs s) i n → Hd !! n = Some (W n) →
  (∀ s', tx_st W (delete n Hd) L s' →
     (∀ m, tx_valid s' m ↔ tx_valid s m) ∧ tx_limit s' = tx_limit s →
     (∀ j m, handle (bs s) j m → m ≠ n → handle (bs s') j m) → Q tt s') →
  wp (lbrelse i) Q s.
Proof.
  intros [(V & B & pa & Hs & HV & HW) Ho Hh] Hn Hi Hd' HQ. unfold tx_valid in Hn.
  rewrite (logst_blocks _ _ _ _ _ _ Hs) in Hn. pose proof Hn as (Hin & _).
  assert (Hi0 : bio_wf (bs s)) by apply (ls_bspec _ _ _ _ _ _ Hs).
  unfold lbrelse. rewrite wp_liftb. eapply rule_brelse; [apply Hs|done|done| |].
  { destruct (HW n Hin) as [Hm|Hm]; [left; by apply bool_decide_eq_true|right].
    rewrite HV, Hd' by done. exact Hm. }
  intros b Hb Hk.
  assert (Hs' : logst V (heldb (delete n Hd)) B pa L (LState (lg s) b)).
  { eapply logst_step; [exact Hs|done| |done|done]. eapply bspec_ext; [exact Hb|done| |done].
    intros m. apply heldb_delete. }
  destruct (same_valid _ _ _ _ _ _ _ _ _ _ _ Hs Hs' eq_refl eq_refl) as [Hva Hlim].
  apply HQ; [|done|].
  - split; [|done|].
    + exists V, B, pa. split_and!; [done| |done]. intros m Hm. rewrite HV by done.
      destruct (decide (m = n)) as [->|]; [by rewrite lookup_delete_eq, Hd'|by rewrite lookup_delete_ne].
    + intros m Hm. apply Hva, Hh. destruct (decide (m = n)) as [->|].
      * rewrite lookup_delete_eq in Hm. by apply is_Some_None in Hm.
      * by rewrite lookup_delete_ne in Hm.
  - intros j m Hj Hne. apply Hk; [done|]. intros ->. apply Hne.
    destruct Hi as (b1 & Hb1 & _ & K1 & _), Hj as (b2 & Hb2 & _ & K2 & _). congruence.
Qed.

Lemma tx_st_ok W Hd L s n : tx_st W Hd L s → tx_valid s n → Hd !! n = None → block_ok (W n).
Proof.
  intros [(V & B & pa & Hs & HV & HW) Ho Hh] Hn HHn. unfold tx_valid in Hn.
  rewrite (logst_blocks _ _ _ _ _ _ Hs) in Hn. pose proof Hn as (Hin & _).
  pose proof (bspec_ok _ _ _ _ _ _ n (ls_bspec _ _ _ _ _ _ Hs) Hin) as Hok. by rewrite HV, HHn in Hok.
Qed.

#[export] Instance log_layer_ok : BlockLayerOk (lstate D) := {
  bl_st := tx_st;
  bl_handle := λ s, handle (bs s);
  bl_valid := tx_valid;
  bl_limit := tx_limit;
  bl_st_ok := tx_st_ok;
  bl_rule_bread := tx_rule_bread;
  bl_rule_data := tx_rule_data;
  bl_rule_set_data := tx_rule_set_data;
  bl_rule_log_write := tx_rule_log_write;
  bl_rule_brelse := tx_rule_brelse;
}.
End layer.

(** ** From power-on to a transaction *)

Section mounted.
Context {D : Type} `{BlockDriverOk D}.

(** A disk on which [initlog] can recover and then run transactions. *)
Record mount_ok (p : list (list Z)) (start size : Z) (L : list Z) : Prop := {
  mo_mountable : mountable p start L;
  mo_size : i32 (sb_nlog (superblock_of (bat p 1))) = size;
  mo_pos : 0 < size;
  mo_start : 1 < start;
  mo_area : start + size <= Z.of_nat (length p);
  mo_home : ∀ d, d ∈ L → d ≠ 1;
  mo_block : block_ok (bat p start);
}.

Lemma mount_logst (d : D) pid start size L :
  dwf d → mount_ok (blocks d) start size L →
  ∃ t V B pa, mount (power_on d pid) = Ret tt t ∧ logst V none B pa [] t ∧
    l_outstanding (lg t) = 0 ∧ l_start (lg t) = start ∧ l_size (lg t) = size ∧
    length B = length (blocks d) ∧ (∀ n, n ∉ L → n ≠ start → V n = bat (blocks d) n).
Proof.
  intros Hd [Hm Hsz Hpos Hst Har Hho Hbo].
  pose proof (mount_recovers d pid start L Hd Hm) as Hw. rewrite wp_elim in Hw.
  destruct Hw as (u & t & Hrun & Hl & Hb). destruct u. rewrite Hsz in Hl. cbn zeta in Hb.
  exists t, (updates (bat (blocks d)) (recover_writes (blocks d) start L)),
    (writes (blocks d) (recover_writes (blocks d) start L)),
    (trail (blocks d) (recover_writes (blocks d) start L) (past d)).
  split; [exact Hrun|]. clear Hrun. rewrite Hl, length_writes. cbn [l_outstanding l_start l_size].
  split_and!; [|done..|].
  2:{ intros n HL Hn. apply updates_other. unfold recover_writes. rewrite fmap_app, home_writes_fst, not_elem_of_app.
      split; [done|]. simpl. by rewrite list_elem_of_singleton. }
  pose proof (mt_layout _ _ _ Hm) as Hlay. pose proof (mt_room _ _ _ Hm) as Hroom.
  split; rewrite ?Hl; cbn [l_start l_size l_dev l_committing lh_n lh_block];
    unfold small; rewrite ?length_writes;
    [exact Hb|reflexivity|reflexivity| |reflexivity|reflexivity| |exact Hst|exact Har|..].
  - rewrite length_app, length_replicate. change NBUF with (Z.to_nat LOGSIZE) in Hroom. lia.
  - apply Hlay.
  - split; [simpl; lia|]. simpl. apply Nat.ltb_lt. reflexivity.
  - apply NoDup_nil_2.
  - intros x Hx. by apply elem_of_nil in Hx.
  - rewrite updates_other; [apply Hm|]. unfold recover_writes. rewrite fmap_app, home_writes_fst.
    rewrite not_elem_of_app. simpl. rewrite list_elem_of_singleton. split; [|lia].
    intros Hx. by apply (Hho 1).
  - unfold recover_writes. rewrite updates_app. cbn [updates foldl fst snd]. rewrite upd_eq.
    eapply (head_image_says []); [done|simpl; lia|constructor].
Qed.

(** Inside a transaction: replace the contents of block [n]. *)
Definition put_block (n : Z) (v : list Z) : M (lstate D) unit :=
  b ← lbread 1 n; lset_data b v ;; log_write b ;; lbrelse b.

Lemma log_write_outstanding b (s s' : lstate D) :
  log_write b s = Ret tt s' → l_outstanding (lg s') = l_outstanding (lg s).
Proof.
  unfold log_write, log_write_check, log_write_locked, getlog, gets, id, mbind, M_bind. destruct (_ || _); [done|].
  destruct (_ <? 1); [done|]. unfold mret at 1, M_ret at 1, liftb at 1. destruct (getbuf b (bs s)) as [bb t| | | |]; [|done..].
  unfold set_block, getlog, gets, modlog, modify, mbind, M_bind. cbn [lg bs].
  destruct (Nat.ltb _ _); [|done]. destruct (_ =? lh_n (lg s)); unfold mret, M_ret, liftb; cbn [lg bs];
    destruct (pin b t) as [[] t'| | | |]; try done; by intros [= <-].
Qed.

Lemma put_block_outstanding n v s s' :
  put_block n v s = Ret tt s' → l_outstanding (lg s') = l_outstanding (lg s).
Proof.
  unfold put_block, mbind, M_bind.
  destruct (lbread 1 n s) as [b s1| | | |] eqn:E1; [|done..]. apply keeps_log_liftb in E1.
  destruct (lset_data b v s1) as [[] s2| | | |] eqn:E2; [|done..]. apply keeps_log_liftb in E2.
  destruct (log_write b s2) as [[] s3| | | |] eqn:E3; [|done..]. apply log_write_outstanding in E3.
  intros E4%keeps_log_liftb. congruence.
Qed.

Lemma put_block_spec W L s n v :
  tx_st W ∅ L s → tx_valid s n → block_ok v → (length L < tx_limit s)%nat → n ≠ 1 →
  wp (put_block n v) (λ _ s', tx_st (upd W n v) ∅ (logged L n) s' ∧
    (∀ m, tx_valid s' m ↔ tx_valid s m) ∧ tx_limit s' = tx_limit s) s.
Proof.
  intros Hs Hn Hv Hlim Hn1. unfold put_block. rewrite wp_bind.
  eapply (tx_rule_bread W ∅ L s n); [exact Hs|exact Hn|done| |].
  { rewrite map_size_empty. cbn in *. unfold tx_limit in Hlim. lia. }
  cbn. intros i s1 H1 Hi1 [Va1 Li1] _. rewrite wp_bind.
  eapply (tx_rule_set_data _ _ L s1 i n); [exact H1|by apply Va1|done|apply lookup_insert_eq|done|done|].
  cbn. intros s2 H2 [Va2 Li2] Hk2. apply Hk2 in Hi1. rewrite wp_bind.
  eapply (tx_rule_log_write _ _ L s2 i n v); [exact H2|by apply Va2, Va1|done|apply lookup_insert_eq|cbn; lia|done|].
  cbn. intros s3 H3 [Va3 Li3] Hk3. apply Hk3 in Hi1.
  eapply (tx_rule_brelse _ _ _ s3 i n); [exact H3|by apply Va3, Va2, Va1|done| |].
  { rewrite lookup_insert_eq, upd_eq. done. }
  cbn. intros s4 H4 [Va4 Li4] _. rewrite insert_insert_eq, delete_insert_eq, delete_empty in H4.
  split_and!; [exact H4| |lia]. intros m. by rewrite Va4, Va3, Va2, Va1.
Qed.

Lemma begin_tx V B pa s :
  logst V none B pa [] s → l_outstanding (lg s) = 0 →
  ∃ s', begin_op s = Ret tt s' ∧ tx_st V ∅ [] s' ∧ l_outstanding (lg s') = 1 ∧
    (∀ n, tx_valid s' n ↔ in_blocks B n ∧ (n < l_start (lg s) ∨ l_start (lg s) + l_size (lg s) <= n)) ∧ tx_limit s' = tx_limit s.
Proof.
  intros Hs Ho. pose proof (logst_outstanding _ _ _ _ _ _ 1 Hs) as Hs1.
  exists (LState (set_outstanding 1 (lg s)) (bs s)). split_and!; [|split|..]; try done.
  - rewrite (begin_op_admits _ _ _ _ _ _ Hs); [by rewrite Ho|].
    rewrite Ho, (ls_n _ _ _ _ _ _ Hs). done.
  - exists V, B, pa. split_and!.
    + eapply logst_step; [exact Hs1|done| |done|done].
      eapply bspec_ext; [apply Hs1|done| |done]. apply heldb_empty.
    + intros n Hn. by rewrite lookup_empty.
    + intros n Hn. right. eapply bspec_clean; [apply Hs|done..].
  - intros n. rewrite lookup_empty. intros Hn. by apply is_Some_None in Hn.
  - intros n. unfold tx_valid. cbn. by rewrite (logst_blocks _ _ _ _ _ _ Hs).
Qed.

Lemma tx_logst W L s : tx_st W ∅ L s → ∃ V B pa, logst V none B pa L s ∧
  (∀ n, in_blocks B n → V n = W n).
Proof.
  intros [(V & B & pa & Hs & HV & _) _ _]. exists V, B, pa. split.
  - eapply logst_step; [exact Hs|done| |done|done].
    eapply bspec_ext; [apply Hs|done| |done]. intros m. symmetry. apply heldb_empty.
  - intros n Hn. by rewrite HV, lookup_empty.
Qed.
End mounted.

(** ** A concrete run on the in-memory disk

    Eight blocks: 1 is the superblock (log of four blocks at 2), 6 and 7 are
    data. *)
Definition example_super : list Z :=
  le_bytes 4 8 ++ le_bytes 4 2 ++ le_bytes 4 0 ++ le_bytes 4 4 ++ le_bytes 4 2 ++
  le_bytes 4 6 ++ le_bytes 4 6 ++ replicate 484 0.
Definition example_disk : Memide.memide :=
  Memide.ideinit (replicate 512 0 ++ example_super ++ replicate 3072 0).

Lemma example_dwf : dwf example_disk.
Proof.
  split; [vm_compute; reflexivity|]. cbn [Memide.memdisk Memide.ideinit example_disk].
  apply Forall_app; split; [by apply Forall_replicate|]. apply Forall_app; split.
  - apply (Forall_impl (λ b, (0 <=? b) && (b <? 256) = true)); [|intros b; unfold is_u8; lia].
    vm_compute. repeat constructor.
  - by apply Forall_replicate.
Qed.

Lemma example_mount_ok : mount_ok (blocks example_disk) 2 4 [].
Proof.
  assert (Hlen : length (blocks example_disk) = 8%nat) by (vm_compute; reflexivity).
  assert (Hnil : ∀ d : Z, d ∉ ([] : list Z)) by (intros d Hd; by apply elem_of_nil in Hd).
  split; [split|vm_compute; reflexivity|lia|lia|rewrite Hlen; lia|..].
  - vm_compute. reflexivity.
  - unfold in_blocks. rewrite Hlen. lia.
  - apply head_says_nil. vm_compute. reflexivity.
  - split; [unfold small|..]; rewrite ?Hlen; [lia|lia|simpl; lia|constructor|].
    intros d Hd. by apply Hnil in Hd.
  - apply Nat.ltb_lt. reflexivity.
  - intros d Hd. by apply Hnil in Hd.
  - pose proof (blocks_ok _ example_dwf) as Hok.
    destruct (lookup_lt_is_Some_2 (blocks example_disk) 2) as [v Hv]; [rewrite Hlen; lia|].
    unfold bat. rewrite (list_lookup_total_correct _ (Z.to_nat 2) v Hv).
    by apply (Forall_lookup_1 _ _ _ _ Hok Hv).
Qed.

(** A transaction that replaces block 6 and is about to end. *)
Lemma example_transaction :
  ∃ V B pa (s : lstate Memide.memide), logst V none B pa [6] s ∧ l_outstanding (lg s) = 1 ∧
    V 6 = replicate 512 255.
Proof.
  destruct (mount_logst example_disk 0 2 4 [] example_dwf example_mount_ok)
    as (t & V & B & pa & _ & Ht & Ho & Hst & Hsz & HB & _).
  destruct (begin_tx V B pa t Ht Ho) as (t1 & _ & H1 & Ho1 & Hva & Hlim).
  assert (H6 : tx_valid t1 6).
  { apply Hva. unfold in_blocks. rewrite Hst, Hsz, HB.
    change (length (blocks example_disk)) with 8%nat. lia. }
  pose proof (put_block_spec V [] t1 6 (replicate 512 255) H1 H6) as Hwp.
  rewrite wp_elim in Hwp. destruct Hwp as (u & s & Hput & Hs & _).
  - split; [apply length_replicate|]. by apply Forall_replicate.
  - rewrite Hlim. unfold tx_limit. rewrite Hsz. apply Nat.ltb_lt. reflexivity.
  - lia.
  - change (logged [] 6) with [6] in Hs. destruct (tx_logst _ _ _ Hs) as (V' & B' & pa' & Hl & HV').
    exists V', B', pa', s. split_and!; [exact Hl| |].
    + rewrite <- Ho1. destruct u. by eapply put_block_outstanding.
    + rewrite HV'; [apply upd_eq|]. apply (ls_home _ _ _ _ _ _ Hl). by apply list_elem_of_singleton.
Qed.

Lemma end_op_crash_atomic_witness :
  ∃ V B pa (s : lstate Memide.memide), logst V none B pa [6] s ∧ V 6 = replicate 512 255 ∧
    ∃ s', end_op s = Ret tt s' ∧ reboots_to (D := Memide.memide) (blocks (dk (bs s'))) (l_start (lg s)) [6] V.
Proof.
  destruct example_transaction as (V & B & pa & s & Hs & Ho & H6). exists V, B, pa, s.
  split; [exact Hs|]. split; [exact H6|].
  destruct (end_op_crash_atomic V B pa [6] s Hs Ho ltac:(discriminate)) as (s' & Hrun & Hre & _).
  exists s'. split; [exact Hrun|exact Hre].
Defined.
