(* ===== verification/StringC.v ===== *)
(** * Memory and string routines: string.c

    Memory is a map from 32-bit addresses to bytes; touching an address that
    is not mapped is a [Fault].  [char] is signed and [uchar] is not, but the
    code only tests characters for zero and equality or casts them to
    [uchar], so bytes are kept as values below 256. *)

From S2P Require Import Prelude.

Abbreviation mem := (gmap Z Z).

Definition load (a : Z) : M mem Z :=
  λ m, match m !! u32 a with Some v => Ret v m | None => Fault end.
Definition store (a v : Z) : M mem unit :=
  λ m, match m !! u32 a with Some _ => Ret tt (<[u32 a := u8 v]> m) | None => Fault end.

(** ** string.c *)

(** [rep stosb] and [rep stosl] (x86.h). *)
Fixpoint stosb (n : nat) (addr data : Z) : M mem unit :=
  match n with
  | O => mret tt
  | S n => store addr data ;; stosb n (addr + 1) data
  end.
Fixpoint stosl (n : nat) (addr data : Z) : M mem unit :=
  match n with
  | O => mret tt
  | S n =>
      store addr data ;;
      store (addr + 1) (Z.shiftr data 8) ;;
      store (addr + 2) (Z.shiftr data 16) ;;
      store (addr + 3) (Z.shiftr data 24) ;;
      stosl n (addr + 4) data
  end.

Definition memset (dst c n : Z) : M mem Z :=
  (if (Z.rem (i32 dst) 4 =? 0) && (n mod 4 =? 0) then
     let c := Z.land c 255 in
     stosl (Z.to_nat (n / 4)) dst
       (Z.lor (Z.lor (Z.lor (Z.shiftl c 24) (Z.shiftl c 16)) (Z.shiftl c 8)) c)
   else stosb (Z.to_nat n) dst c) ;;
  mret dst.

Fixpoint memcmp_loop (n : nat) (s1 s2 : Z) : M mem Z :=
  match n with
  | O => mret 0
  | S n =>
      a ← load s1; b ← load s2;
      if negb (a =? b) then mret (a - b) else memcmp_loop n (s1 + 1) (s2 + 1)
  end.
Definition memcmp (v1 v2 n : Z) : M mem Z := memcmp_loop (Z.to_nat n) v1 v2.

(** [while(n-- > 0) *--d = *--s;] *)
Fixpoint copy_down (n : nat) (d s : Z) : M mem unit :=
  match n with
  | O => mret tt
  | S n => v ← load (s - 1); store (d - 1) v ;; copy_down n (d - 1) (s - 1)
  end.
(** [while(n-- > 0) *d++ = *s++;] *)
Fixpoint copy_up (n : nat) (d s : Z) : M mem unit :=
  match n with
  | O => mret tt
  | S n => v ← load s; store d v ;; copy_up n (d + 1) (s + 1)
  end.

Definition memmove (dst src n : Z) : M mem Z :=
  (if (src <? dst) && (dst <? u32 (src + n)) then
     copy_down (Z.to_nat n) (dst + n) (src + n)
   else copy_up (Z.to_nat n) dst src) ;;
  mret dst.

Definition memcpy (dst src n : Z) : M mem Z := memmove dst src n.

Fixpoint strncmp (n : nat) (p q : Z) : M mem Z :=
  match n with
  | O => mret 0
  | S n =>
      a ← load p; b ← load q;
      if negb (a =? 0) && (a =? b) then strncmp n (p + 1) (q + 1) else mret (a - b)
  end.

(** The zero-filling loop of [strncpy]. *)
Fixpoint fill0 (n : nat) (s : Z) : M mem unit :=
  match n with
  | O => mret tt
  | S n => store s 0 ;; fill0 n (s + 1)
  end.
Fixpoint strncpy_loop (n : nat) (s t : Z) : M mem unit :=
  match n with
  | O => mret tt
  | S n => c ← load t; store s c ;;
      if negb (c =? 0) then strncpy_loop n (s + 1) (t + 1) else fill0 n (s + 1)
  end.
Definition strncpy (s t n : Z) : M mem Z := strncpy_loop (Z.to_nat n) s t ;; mret s.

(** [while(--n > 0 && ( *s++ = *t++) != 0); *s = 0;] *)
Fixpoint safestrcpy_loop (n : nat) (s t : Z) : M mem unit :=
  match n with
  | O => store s 0
  | S n => c ← load t; store s c ;;
      if negb (c =? 0) then safestrcpy_loop n (s + 1) (t + 1) else store (s + 1) 0
  end.
Definition safestrcpy (s t n : Z) : M mem Z :=
  if n <=? 0 then mret s else
  safestrcpy_loop (Z.to_nat (n - 1)) s t ;; mret s.

Fixpoint strlen_loop (fuel : nat) (s n : Z) : M mem Z :=
  match fuel with
  | O => diverge
  | S fuel => c ← load (s + n); if c =? 0 then mret n else strlen_loop fuel s (n + 1)
  end.
(** A string occupies at most the 2^32 bytes there are. *)
Definition strlen (fuel : nat) (s : Z) : M mem Z := strlen_loop fuel s 0.

(** ** Regions of memory *)

(** The bytes [l] are stored at [a]. *)
Definition holds (m : mem) (a : Z) (l : list Z) : Prop :=
  0 <= a ∧ a + Z.of_nat (length l) <= 4294967296 ∧
  ∀ k v, l !! k = Some v → m !! (a + Z.of_nat k) = Some v.

(** [n] bytes at [a] can be written. *)
Definition mapped (m : mem) (a : Z) (n : nat) : Prop :=
  0 <= a ∧ a + Z.of_nat n <= 4294967296 ∧ ∀ k, (k < n)%nat → is_Some (m !! (a + Z.of_nat k)).

(** Memory after the bytes [l] are written at [a]. *)
Fixpoint mput (a : Z) (l : list Z) (m : mem) : mem :=
  match l with
  | [] => m
  | v :: l => <[a := v]> (mput (a + 1) l m)
  end.

Lemma mput_lookup a l m x :
  mput a l m !! x =
    if decide (a <= x < a + Z.of_nat (length l)) then l !! Z.to_nat (x - a) else m !! x.
Proof.
  revert a. induction l as [|v l IH]; intros a; cbn [mput length].
  { case_decide; [lia|done]. }
  destruct (decide (x = a)) as [->|Hne].
  - rewrite lookup_insert_eq, decide_True by lia. by rewrite Z.sub_diag.
  - rewrite lookup_insert_ne, IH by done. destruct (decide (a + 1 <= x < _)).
    + rewrite decide_True by lia. by replace (Z.to_nat (x - a)) with (S (Z.to_nat (x - (a + 1)))) by lia.
    + by rewrite decide_False by lia.
Qed.

Lemma mput_cons_comm a v l m : mput (a + 1) l (<[a := v]> m) = mput a (v :: l) m.
Proof.
  apply map_eq. intros x. cbn [mput]. rewrite mput_lookup.
  destruct (decide (x = a)) as [->|Hne].
  - rewrite decide_False, !lookup_insert_eq by lia. done.
  - rewrite !lookup_insert_ne, mput_lookup by done. done.
Qed.

Lemma mput_snoc a v l m : mput a l (<[a + Z.of_nat (length l) := v]> m) = mput a (l ++ [v]) m.
Proof.
  apply map_eq. intros x. rewrite !mput_lookup, length_app. simpl.
  destruct (decide (x = a + Z.of_nat (length l))) as [->|Hne].
  - rewrite decide_False, decide_True, lookup_insert_eq, lookup_app_r by lia.
    by replace (Z.to_nat _ - length l)%nat with 0%nat by lia.
  - rewrite lookup_insert_ne by done. destruct (decide (_ <= x < _)).
    + rewrite decide_True, lookup_app_l by lia. done.
    + by rewrite decide_False by lia.
Qed.

Lemma holds_mapped m a l : holds m a l → mapped m a (length l).
Proof.
  intros (? & ? & Hh). split_and!; [done..|]. intros k Hk.
  destruct (lookup_lt_is_Some_2 l k Hk) as [v Hv]. eauto.
Qed.

Lemma holds_cons m a v l : holds m a (v :: l) → m !! a = Some v ∧ holds m (a + 1) l.
Proof.
  intros (? & Hr & Hh). cbn [length] in Hr. split; [by rewrite <- (Hh 0%nat v eq_refl), Z.add_0_r|].
  split_and!; [lia..|]. intros k w Hk. rewrite <- (Hh (S k) w Hk). f_equal. lia.
Qed.

Lemma mapped_S m a n : mapped m a (S n) → is_Some (m !! a) ∧ mapped m (a + 1) n.
Proof.
  intros (? & Hr & Hh). split; [by rewrite <- (Z.add_0_r a); apply (Hh 0%nat); lia|].
  split_and!; [lia..|]. intros k Hk. replace (a + 1 + Z.of_nat k) with (a + Z.of_nat (S k)) by lia.
  apply Hh. lia.
Qed.

Lemma mapped_insert m a n x v : mapped m a n → mapped (<[x := v]> m) a n.
Proof.
  intros (? & ? & Hh). split_and!; [done..|]. intros k Hk.
  destruct (decide (x = a + Z.of_nat k)) as [->|]; [rewrite lookup_insert_eq; eauto|].
  rewrite lookup_insert_ne by done. by apply Hh.
Qed.

Lemma holds_insert m a l x v :
  holds m a l → x < a ∨ a + Z.of_nat (length l) <= x → holds (<[x := v]> m) a l.
Proof.
  intros (? & ? & Hh) Hx. split_and!; [done..|]. intros k w Hk.
  pose proof (lookup_lt_Some _ _ _ Hk). rewrite lookup_insert_ne by lia. by apply Hh.
Qed.

Lemma wp_load m a v (Q : Z → mem → Prop) :
  m !! a = Some v → 0 <= a < 4294967296 → Q v m → wp (load a) Q m.
Proof. intros Hv Ha HQ. unfold wp, load. by rewrite u32_id, Hv. Qed.

Lemma wp_store m a v (Q : unit → mem → Prop) :
  is_Some (m !! a) → 0 <= a < 4294967296 → Q tt (<[a := u8 v]> m) → wp (store a v) Q m.
Proof. intros [w Hw] Ha HQ. unfold wp, store. by rewrite u32_id, Hw. Qed.

(** ** memset *)

Lemma stosb_spec m n a c (Q : unit → mem → Prop) :
  mapped m a n → Q tt (mput a (replicate n (u8 c)) m) → wp (stosb n a c) Q m.
Proof.
  revert m a. induction n as [|n IH]; intros m a Hm HQ; [done|]. cbn [stosb].
  pose proof Hm as (? & ? & _). apply mapped_S in Hm as [Ha Hm].
  rewrite wp_bind. apply wp_store; [done|lia|]. apply IH; [by apply mapped_insert|].
  rewrite mput_cons_comm. exact HQ.
Qed.

(** The word [memset] stores has the byte [c] in each place. *)
Lemma memset_word c (w := Z.lor (Z.lor (Z.lor (Z.shiftl (Z.land c 255) 24) (Z.shiftl (Z.land c 255) 16))
    (Z.shiftl (Z.land c 255) 8)) (Z.land c 255)) :
  u8 w = u8 c ∧ u8 (Z.shiftr w 8) = u8 c ∧ u8 (Z.shiftr w 16) = u8 c ∧ u8 (Z.shiftr w 24) = u8 c.
Proof.
  assert (Hb : ∀ k, 0 <= k → Z.testbit (Z.land c 255) k = Z.testbit c k && (k <? 8)).
  { intros k Hk. change 255 with (Z.ones 8). rewrite Z.land_spec.
    destruct (k <? 8) eqn:E; [rewrite Z.ones_spec_low by lia; done|].
    rewrite Z.ones_spec_high by lia. by rewrite !andb_false_r. }
  assert (Hw : ∀ j k, 0 <= j <= 24 → j mod 8 = 0 → 0 <= k < 8 → Z.testbit w (k + j) = Z.testbit c k).
  { intros j k Hj Hm Hk. unfold w. rewrite !Z.lor_spec, !Z.shiftl_spec by lia.
    assert (j = 0 ∨ j = 8 ∨ j = 16 ∨ j = 24) as [->|[->|[->| ->]]] by dlia;
    repeat match goal with |- context [Z.testbit (Z.land c 255) ?i] =>
      first [rewrite (Z.testbit_neg_r _ i) by lia | rewrite (Hb i) by lia] end;
    repeat match goal with |- context [?i <? 8] =>
      first [rewrite (proj2 (Z.ltb_lt i 8)) by lia | rewrite (proj2 (Z.ltb_ge i 8)) by lia] end;
    rewrite ?andb_false_r, ?andb_true_r, ?orb_false_r; cbn [orb]; f_equal; lia. }
  assert (He : ∀ j, 0 <= j <= 24 → j mod 8 = 0 → u8 (Z.shiftr w j) = u8 c).
  { intros j Hj Hm. unfold u8. change 256 with (2 ^ 8). apply Z.bits_inj'. intros k Hk.
    destruct (decide (k < 8)).
    - rewrite !Z.mod_pow2_bits_low, Z.shiftr_spec by lia. by apply Hw.
    - by rewrite !Z.mod_pow2_bits_high by lia. }
  split_and!; [rewrite <- (Z.shiftr_0_r w)|..]; apply He; done.
Qed.

Lemma stosl_spec m n a w c (Q : unit → mem → Prop) :
  u8 w = c → u8 (Z.shiftr w 8) = c → u8 (Z.shiftr w 16) = c → u8 (Z.shiftr w 24) = c →
  mapped m a (4 * n) → Q tt (mput a (replicate (4 * n) c) m) → wp (stosl n a w) Q m.
Proof.
  intros E0 E1 E2 E3. revert m a. induction n as [|n IH]; intros m a Hm HQ; [done|].
  cbn [stosl]. replace (4 * S n)%nat with (S (S (S (S (4 * n))))) in * by lia.
  pose proof Hm as (? & ? & _).
  apply mapped_S in Hm as [Hm0 Hm]. apply mapped_S in Hm as [Hm1 Hm].
  apply mapped_S in Hm as [Hm2 Hm]. apply mapped_S in Hm as [Hm3 Hm].
  rewrite wp_bind. apply wp_store; [done|lia|].
  rewrite wp_bind. apply wp_store; [by rewrite lookup_insert_ne by lia|lia|].
  replace (a + 1 + 1) with (a + 2) in * by lia. replace (a + 2 + 1) with (a + 3) in * by lia.
  replace (a + 3 + 1) with (a + 4) in * by lia.
  rewrite wp_bind. apply wp_store; [by rewrite !lookup_insert_ne by lia|lia|].
  rewrite wp_bind. apply wp_store; [by rewrite !lookup_insert_ne by lia|lia|].
  rewrite E0, E1, E2, E3. apply IH; [by do 4 apply mapped_insert|].
  cbn [replicate] in HQ.
  replace (a + 4) with (a + 3 + 1) by lia. rewrite mput_cons_comm.
  replace (a + 3) with (a + 2 + 1) by lia. rewrite mput_cons_comm.
  replace (a + 2) with (a + 1 + 1) by lia. rewrite mput_cons_comm, mput_cons_comm. exact HQ.
Qed.

(** [memset] sets exactly the [n] bytes at [dst] to the low byte of [c],
    on the word-at-a-time path and on the byte path alike, and returns
    [dst]. *)
Theorem memset_correct m dst c n :
  0 <= n → mapped m dst (Z.to_nat n) →
  memset dst c n m = Ret dst (mput dst (replicate (Z.to_nat n) (u8 c)) m).
Proof.
  intros Hn Hm.
  assert (Hw : wp (memset dst c n) (λ r m', r = dst ∧ m' = mput dst (replicate (Z.to_nat n) (u8 c)) m) m).
  { unfold memset. rewrite wp_bind. destruct (_ && _) eqn:E.
    - apply andb_true_iff in E as [_ E]. apply Z.eqb_eq in E.
      destruct (memset_word c) as (E0 & E1 & E2 & E3).
      assert (Hlen : (4 * Z.to_nat (n / 4))%nat = Z.to_nat n) by dlia.
      apply (stosl_spec _ _ _ _ (u8 c)); [done..|by rewrite Hlen|]. rewrite wp_ret. by rewrite Hlen.
    - by apply stosb_spec. }
  apply wp_elim in Hw as (r & m' & -> & -> & ->). done.
Qed.

(** ** memmove *)

Lemma copy_up_spec m d s l (Q : unit → mem → Prop) :
  bytes_ok l → holds m s l → mapped m d (length l) → d <= s ∨ s + Z.of_nat (length l) <= d →
  Q tt (mput d l m) → wp (copy_up (length l) d s) Q m.
Proof.
  revert m d s. induction l as [|v l IH]; intros m d s Hok Hs Hd Hov HQ; [done|].
  apply Forall_cons in Hok as [Hv Hok]. cbn [length] in *. cbn [copy_up].
  pose proof Hs as (? & ? & _). pose proof Hd as (? & ? & _). cbn [length] in *.
  apply holds_cons in Hs as [Hs0 Hs]. apply mapped_S in Hd as [Hd0 Hd].
  rewrite wp_bind. apply (wp_load _ _ v); [done|lia|].
  rewrite wp_bind. apply wp_store; [done|lia|]. rewrite u8_id by done.
  apply IH; [done| |by apply mapped_insert|lia|by rewrite mput_cons_comm].
  apply holds_insert; [done|lia].
Qed.

Lemma copy_down_spec m d s l (Q : unit → mem → Prop) :
  bytes_ok l → holds m s l → mapped m d (length l) → s <= d →
  Q tt (mput d l m) → wp (copy_down (length l) (d + Z.of_nat (length l)) (s + Z.of_nat (length l))) Q m.
Proof.
  revert m. induction l as [|v l IH] using rev_ind; intros m Hok Hs Hd Hov HQ; [done|].
  apply Forall_app in Hok as [Hok Hv]. rewrite Forall_singleton in Hv.
  rewrite length_app, Nat.add_1_r in *. cbn [copy_down].
  pose proof Hs as (? & Hs2 & Hs3). pose proof Hd as (? & ? & Hd3). rewrite length_app in Hs2. simpl in Hs2.
  replace (s + Z.of_nat (S (length l)) - 1) with (s + Z.of_nat (length l)) by lia.
  replace (d + Z.of_nat (S (length l)) - 1) with (d + Z.of_nat (length l)) by lia.
  rewrite wp_bind. apply (wp_load _ _ v); [|lia|].
  { apply Hs3. rewrite lookup_app_r by lia. by rewrite Nat.sub_diag. }
  rewrite wp_bind. apply wp_store; [apply Hd3; lia|lia|]. rewrite u8_id by exact Hv.
  apply IH; [done|..|done|by rewrite mput_snoc].
  - apply holds_insert; [|lia]. split_and!; [done|lia|]. intros k w Hk. apply Hs3.
    by apply lookup_app_l_Some.
  - apply mapped_insert. split_and!; [done|lia|]. intros k Hk. apply Hd3. lia.
Qed.

(** C21: [memmove] copies the [n] bytes that were at [src] when it was called
    to [dst], however the two regions overlap, and changes nothing else. *)
Theorem memmove_correct m dst src l :
  bytes_ok l → holds m src l → mapped m dst (length l) →
  src + Z.of_nat (length l) < 4294967296 →
  memmove dst src (Z.of_nat (length l)) m = Ret dst (mput dst l m).
Proof.
  intros Hok Hs Hd Hr. pose proof Hs as (Hs0 & _ & _).
  assert (Hw : wp (memmove dst src (Z.of_nat (length l))) (λ r m', r = dst ∧ m' = mput dst l m) m).
  { unfold memmove. rewrite wp_bind, u32_id, Nat2Z.id by lia. destruct (_ && _) eqn:E.
    - apply andb_true_iff in E as [E1 E2]. apply copy_down_spec; [done..|lia|by rewrite wp_ret].
    - apply andb_false_iff in E. apply copy_up_spec; [done..|lia|by rewrite wp_ret]. }
  apply wp_elim in Hw as (r & m' & -> & -> & ->). done.
Qed.

(** ** Comparing and copying strings *)

(** The characters of a string, which a zero byte ends in memory. *)
Definition cstring (m : mem) (a : Z) (l : list Z) : Prop :=
  holds m a (l ++ [0]) ∧ Forall (λ c, 0 < c < 256) l.

Lemma cstring_cons m a c l : cstring m a (c :: l) → m !! a = Some c ∧ 0 < c < 256 ∧ cstring m (a + 1) l.
Proof.
  intros [Hh Hf]. rewrite <- app_comm_cons in Hh. apply holds_cons in Hh as [? ?].
  apply Forall_cons in Hf as [? ?]. done.
Qed.

Lemma cstring_nil m a : cstring m a [] → m !! a = Some 0.
Proof. intros [Hh _]. by apply holds_cons in Hh as [? _]. Qed.

Lemma cstring_range m a l : cstring m a l → 0 <= a < 4294967296.
Proof. intros [(? & Hr & _) _]. rewrite length_app in Hr. simpl in Hr. lia. Qed.

(** Lexicographic comparison as the C functions report it: the difference of
    the first characters that differ, a missing character counting as zero. *)
Fixpoint lexcmp (n : nat) (l k : list Z) : Z :=
  match n with
  | O => 0
  | S n =>
      match l, k with
      | [], [] => 0
      | [], b :: _ => 0 - b
      | a :: _, [] => a
      | a :: l, b :: k => if a =? b then lexcmp n l k else a - b
      end
  end.

Lemma strncmp_lexcmp m n p q l k :
  cstring m p l → cstring m q k → strncmp n p q m = Ret (lexcmp n l k) m.
Proof.
  revert p q l k. induction n as [|n IH]; intros p q l k Hl Hk; [done|].
  pose proof (cstring_range _ _ _ Hl). pose proof (cstring_range _ _ _ Hk).
  cbn [strncmp lexcmp]. unfold mbind, M_bind, load. rewrite !u32_id by done.
  destruct l as [|a l].
  - rewrite (cstring_nil _ _ Hl). destruct k as [|b k].
    + by rewrite (cstring_nil _ _ Hk).
    + by apply cstring_cons in Hk as (-> & _ & _).
  - apply cstring_cons in Hl as (-> & Ha & Hl). rewrite (proj2 (Z.eqb_neq a 0)) by lia.
    destruct k as [|b k].
    + rewrite (cstring_nil _ _ Hk), (proj2 (Z.eqb_neq a 0)) by lia. cbn. f_equal. lia.
    + apply cstring_cons in Hk as (-> & Hb & Hk). destruct (a =? b); [by apply IH|done].
Qed.

Lemma lexcmp_zero n l k :
  Forall (λ c, 0 < c < 256) l → Forall (λ c, 0 < c < 256) k → lexcmp n l k = 0 ↔ take n l = take n k.
Proof.
  revert l k. induction n as [|n IH]; intros l k Hl Hk; [done|].
  destruct Hl as [|a l Ha Hl], Hk as [|b k Hb Hk]; cbn [lexcmp take].
  - done.
  - split; [lia|done].
  - split; [lia|done].
  - destruct (Z.eqb_spec a b) as [->|Hne].
    + rewrite IH by done. split; [by intros ->|by intros [= ?]].
    + split; [lia|]. by intros [= ? ?].
Qed.

(** [strncmp] of two NUL-terminated strings returns 0 exactly when their
    first [n] characters are the same, and changes no memory. *)
Theorem strncmp_zero_iff m n p q l k :
  cstring m p l → cstring m q k →
  ∃ r, strncmp n p q m = Ret r m ∧ (r = 0 ↔ take n l = take n k).
Proof.
  intros Hl Hk. exists (lexcmp n l k). split; [by apply strncmp_lexcmp|].
  apply lexcmp_zero; [apply Hl|apply Hk].
Qed.

Lemma memcmp_spec m s1 s2 l k :
  holds m s1 l → holds m s2 k → length l = length k →
  ∃ r, memcmp_loop (length l) s1 s2 m = Ret r m ∧ (r = 0 ↔ l = k).
Proof.
  revert s1 s2 k. induction l as [|a l IH]; intros s1 s2 [|b k] Hl Hk Hlen; try done; [by exists 0|].
  pose proof Hl as (? & ? & _). pose proof Hk as (? & ? & _).
  cbn [length] in *. injection Hlen as Hlen. cbn [memcmp_loop]. unfold mbind, M_bind, load.
  rewrite !u32_id by lia. apply holds_cons in Hl as [-> Hl]. apply holds_cons in Hk as [-> Hk].
  destruct (Z.eqb_spec a b) as [->|Hne]; cbn [negb].
  - destruct (IH _ _ _ Hl Hk Hlen) as (r & -> & Hr). exists r. split; [done|].
    rewrite Hr. split; [by intros ->|by intros [= ?]].
  - exists (a - b). split; [done|]. split; [lia|]. by intros [= ? ?].
Qed.

Lemma fill0_spec m n a (Q : unit → mem → Prop) :
  mapped m a n → Q tt (mput a (replicate n 0) m) → wp (fill0 n a) Q m.
Proof.
  revert m a. induction n as [|n IH]; intros m a Hm HQ; [done|]. cbn [fill0].
  pose proof Hm as (? & ? & _). apply mapped_S in Hm as [Ha Hm].
  rewrite wp_bind. apply wp_store; [done|lia|]. apply IH; [by apply mapped_insert|].
  rewrite mput_cons_comm. exact HQ.
Qed.

(** Source and destination do not overlap. *)
Definition apart (a : Z) (n : nat) (b : Z) (k : nat) : Prop :=
  a + Z.of_nat n <= b ∨ b + Z.of_nat k <= a.

Lemma cstring_insert m a l x v :
  cstring m a l → x < a ∨ a + Z.of_nat (S (length l)) <= x → cstring (<[x := v]> m) a l.
Proof.
  intros [Hh Hf] Hx. split; [|done]. apply holds_insert; [done|]. rewrite length_app. simpl. lia.
Qed.

Lemma strncpy_loop_spec m n s t l (Q : unit → mem → Prop) :
  cstring m t l → mapped m s n → apart s n t (S (length l)) →
  Q tt (mput s (take n (l ++ replicate n 0)) m) → wp (strncpy_loop n s t) Q m.
Proof.
  revert m s t l. induction n as [|n IH]; intros m s t l Ht Hs Ha HQ; [done|].
  cbn [strncpy_loop]. pose proof (cstring_range _ _ _ Ht). pose proof Hs as (? & ? & _).
  apply mapped_S in Hs as [Hs0 Hs]. destruct l as [|c l].
  - rewrite wp_bind. apply (wp_load _ _ 0); [by apply cstring_nil|done|].
    rewrite wp_bind. apply wp_store; [done|lia|]. change (u8 0) with 0. cbn [negb Z.eqb].
    apply fill0_spec; [by apply mapped_insert|]. rewrite mput_cons_comm.
    cbn [app] in HQ. rewrite take_ge in HQ by by rewrite length_replicate. exact HQ.
  - pose proof Ht as Ht'. apply cstring_cons in Ht' as (Hc & Hcr & Htl).
    rewrite wp_bind. apply (wp_load _ _ c); [done|done|].
    rewrite wp_bind. apply wp_store; [done|lia|]. rewrite u8_id by lia.
    rewrite (proj2 (Z.eqb_neq c 0)) by lia. cbn [negb]. unfold apart in Ha. cbn [length] in Ha.
    apply (IH _ _ _ l); [|by apply mapped_insert|unfold apart; lia|].
    + apply cstring_insert; [done|lia].
    + rewrite mput_cons_comm. cbn [app take] in HQ. cbn [replicate] in HQ.
      replace (take n (l ++ replicate n 0)) with (take n (l ++ 0 :: replicate n 0)); [exact HQ|].
      change (0 :: replicate n 0) with (replicate (S n) 0).
      rewrite !take_app, !take_replicate. f_equal. f_equal. lia.
Qed.

Lemma safestrcpy_loop_spec m n s t l (Q : unit → mem → Prop) :
  cstring m t l → mapped m s (S n) → apart s (S n) t (S (length l)) →
  (∀ z, (length z <= n - length l)%nat → Q tt (mput s (take n l ++ 0 :: z) m)) → wp (safestrcpy_loop n s t) Q m.
Proof.
  revert m s t l. induction n as [|n IH]; intros m s t l Ht Hs Ha HQ.
  { apply mapped_S in Hs as Hs'. destruct Hs' as [Hs0 _]. pose proof Hs as (? & ? & _).
    cbn [safestrcpy_loop]. apply wp_store; [done|lia|]. change (u8 0) with 0.
    apply (HQ []). simpl. lia. }
  cbn [safestrcpy_loop]. pose proof (cstring_range _ _ _ Ht). pose proof Hs as (? & ? & _).
  apply mapped_S in Hs as [Hs0 Hs]. destruct l as [|c l].
  - rewrite wp_bind. apply (wp_load _ _ 0); [by apply cstring_nil|done|].
    rewrite wp_bind. apply wp_store; [done|lia|]. change (u8 0) with 0. cbn [negb Z.eqb].
    apply mapped_S in Hs as Hs'. destruct Hs' as [Hs1 _].
    apply wp_store; [by rewrite lookup_insert_ne by lia|lia|]. change (u8 0) with 0.
    specialize (HQ [0]). cbn in HQ. rewrite insert_insert_ne by lia. apply HQ. lia.
  - pose proof Ht as Ht'. apply cstring_cons in Ht' as (Hc & Hcr & Htl).
    rewrite wp_bind. apply (wp_load _ _ c); [done|done|].
    rewrite wp_bind. apply wp_store; [done|lia|]. rewrite u8_id by lia.
    rewrite (proj2 (Z.eqb_neq c 0)) by lia. cbn [negb]. unfold apart in Ha. cbn [length] in Ha.
    apply (IH _ _ _ l); [|by apply mapped_insert|unfold apart; lia|].
    + apply cstring_insert; [done|lia].
    + intros z Hz. rewrite mput_cons_comm. apply (HQ z). simpl. lia.
Qed.

(** [safestrcpy] stays inside its [n]-byte buffer and always leaves a
    NUL-terminated string there: the first [n - 1] characters of the source,
    or all of it when it is shorter. *)
Theorem safestrcpy_terminates m s t n l :
  0 < n → cstring m t l → mapped m s (Z.to_nat n) → apart s (Z.to_nat n) t (S (length l)) →
  ∃ m', safestrcpy s t n m = Ret s m' ∧ cstring m' s (take (Z.to_nat (n - 1)) l) ∧
    ∀ x, x < s ∨ s + n <= x → m' !! x = m !! x.
Proof.
  intros Hn Ht Hs Ha. replace (Z.to_nat n) with (S (Z.to_nat (n - 1))) in Hs, Ha by lia.
  set (k := Z.to_nat (n - 1)) in *.
  assert (Hw : wp (safestrcpy s t n) (λ r m', r = s ∧ ∃ z,
    (length z <= k - length l)%nat ∧ m' = mput s (take k l ++ 0 :: z) m) m).
  { unfold safestrcpy. rewrite (proj2 (Z.leb_gt _ _)) by lia. rewrite wp_bind.
    eapply safestrcpy_loop_spec; [done..|]. intros z Hz. rewrite wp_ret. eauto. }
  apply wp_elim in Hw as (r & m' & Hrun & -> & z & Hz & ->). eexists. split; [exact Hrun|].
  pose proof Hs as (Hs1 & Hs2 & _).
  assert (Hlen : (length (take k l ++ 0%Z :: z) <= S k)%nat).
  { rewrite length_app, length_take. cbn [length]. lia. }
  split; [split; [split_and!|]|].
  - done.
  - rewrite length_app, length_take. simpl. lia.
  - intros j v Hj. pose proof (lookup_lt_Some _ _ _ Hj) as Hlt. rewrite length_app in Hlt. simpl in Hlt.
    rewrite mput_lookup, decide_True by (rewrite length_app; cbn [length]; lia).
    replace (Z.to_nat (s + Z.of_nat j - s)) with j by lia.
    change (0 :: z) with ([0] ++ z). rewrite app_assoc. by apply lookup_app_l_Some.
  - apply Forall_take, Ht.
  - intros x Hx. rewrite mput_lookup, decide_False; [done|]. lia.
Qed.

(** ** Concrete runs *)

Lemma holds_mput m a l : 0 <= a → a + Z.of_nat (length l) <= 4294967296 → holds (mput a l m) a l.
Proof.
  intros Ha Hr. split_and!; [done..|]. intros k v Hk. pose proof (lookup_lt_Some _ _ _ Hk).
  rewrite mput_lookup, decide_True by lia. by replace (Z.to_nat _) with k by lia.
Qed.

Lemma holds_mput_other m a l b k :
  holds m b k → apart a (length l) b (length k) → holds (mput a l m) b k.
Proof.
  intros (? & ? & Hh) Ha. split_and!; [done..|]. intros i v Hi. pose proof (lookup_lt_Some _ _ _ Hi).
  unfold apart in Ha. rewrite mput_lookup, decide_False by lia. by apply Hh.
Qed.

Lemma cstring_mput m a l :
  0 <= a → a + Z.of_nat (length l) < 4294967296 → Forall (λ c, 0 < c < 256) l →
  cstring (mput a (l ++ [0]) m) a l.
Proof. intros. split; [|done]. apply holds_mput; [done|]. rewrite length_app. simpl. lia. Qed.

Lemma memset_correct_witness :
  memset 100 (-1) 8 (mput 100 (replicate 8 0) ∅) =
    Ret 100 (mput 100 (replicate 8 255) (mput 100 (replicate 8 0) ∅)).
Proof.
  apply (memset_correct _ 100 (-1) 8); [lia|].
  apply (holds_mapped _ _ (replicate 8 0)), holds_mput; simpl; lia.
Defined.

Lemma memmove_correct_witness :
  memmove 101 100 3 (mput 100 [1; 2; 3; 4] ∅) = Ret 101 (mput 101 [1; 2; 3] (mput 100 [1; 2; 3; 4] ∅)).
Proof.
  apply (memmove_correct _ 101 100 [1; 2; 3]); [|split_and!..|simpl; lia]; try (simpl; lia).
  - repeat (constructor; [unfold is_u8; lia|]). constructor.
  - intros k v Hk. do 3 (destruct k as [|k]; [by injection Hk as <-|]). done.
  - intros k Hk. simpl in Hk. do 3 (destruct k as [|k]; [by eexists|]). lia.
Defined.

Lemma strncmp_zero_iff_witness :
  ∃ r, strncmp 5 100 200 (mput 100 ([97; 98] ++ [0]) (mput 200 ([97; 99] ++ [0]) ∅))
         = Ret r (mput 100 ([97; 98] ++ [0]) (mput 200 ([97; 99] ++ [0]) ∅)) ∧
       (r = 0 ↔ take 5 [97; 98] = take 5 [97; 99]).
Proof.
  assert (Hf : ∀ a b, 0 < a < 256 → 0 < b < 256 → Forall (λ c, 0 < c < 256) [a; b]).
  { intros. by constructor; [|constructor; [|constructor]]. }
  apply (strncmp_zero_iff _ 5 100 200 [97; 98] [97; 99]).
  - apply cstring_mput; [lia|simpl; lia|apply Hf; lia].
  - split; [|apply Hf; lia]. apply holds_mput_other; [|unfold apart; simpl; lia].
    apply holds_mput; simpl; lia.
Defined.

Lemma safestrcpy_terminates_witness :
  ∃ m', safestrcpy 300 100 3 (mput 300 [7; 7; 7] (mput 100 ([97; 98; 99; 100] ++ [0]) ∅)) = Ret 300 m' ∧
    cstring m' 300 [97; 98] ∧ ∀ x, x < 300 ∨ 300 + 3 <= x →
      m' !! x = mput 300 [7; 7; 7] (mput 100 ([97; 98; 99; 100] ++ [0]) ∅) !! x.
Proof.
  apply (safestrcpy_terminates _ 300 100 3 [97; 98; 99; 100]); [lia|..].
  - split; [|repeat (constructor; [lia|]); constructor].
    apply holds_mput_other; [|unfold apart; simpl; lia]. apply holds_mput; simpl; lia.
  - apply (holds_mapped _ _ [7; 7; 7]), holds_mput; simpl; lia.
  - unfold apart. simpl. lia.
Defined.
