(* ===== verification/Spinlock.v ===== *)
(** * Spin locks: spinlock.c

    [pushcli]/[popcli] on one CPU's state, and [acquire]/[release] of one lock
    by any number of CPUs as a transition system whose steps are the single
    memory accesses of the code, so that every interleaving is covered. *)

From stdpp Require Import functions.
From S2P Require Import Prelude.

(** ** Nested interrupt disabling *)

(** [fl_if] is the IF bit of the CPU's eflags; [ncli] and [intena] are fields
    of its [struct cpu]. *)
Record cpu := Cpu { fl_if : bool; ncli : Z; intena : bool }.

Definition pushcli (c : cpu) : cpu :=
  Cpu false (ncli c + 1) (if ncli c =? 0 then fl_if c else intena c).

Definition popcli (c : cpu) : string + cpu :=
  if fl_if c then inl "popcli - interruptible" else
  let n := ncli c - 1 in
  if n <? 0 then inl "popcli" else
  inr (Cpu (if (n =? 0) && intena c then true else fl_if c) n (intena c)).

(** With nesting, interrupts are off. *)
Definition cpu_ok (c : cpu) : Prop := 0 <= ncli c ∧ (0 < ncli c → fl_if c = false).

Lemma pushcli_ok c : cpu_ok c → cpu_ok (pushcli c).
Proof. intros [? ?]. split; simpl; [lia|done]. Qed.

Lemma popcli_pushcli c :
  cpu_ok c → ∃ c', popcli (pushcli c) = inr c' ∧ cpu_ok c' ∧ fl_if c' = fl_if c ∧ ncli c' = ncli c ∧
    (0 < ncli c → intena c' = intena c).
Proof.
  intros [Hn Hi]. unfold popcli, pushcli. cbn [fl_if ncli intena].
  rewrite (proj2 (Z.ltb_ge _ 0)) by lia. eexists. split; [done|]. unfold cpu_ok. cbn [fl_if ncli intena].
  replace (ncli c + 1 - 1) with (ncli c) by lia. destruct (Z.eqb_spec (ncli c) 0) as [E|E]; cbn [andb].
  - split_and!; [lia|lia|by destruct (fl_if c)|done|lia].
  - rewrite Hi by lia. split_and!; [lia|done|done|done|done].
Qed.

Fixpoint pushes (k : nat) (c : cpu) : cpu :=
  match k with O => c | S k => pushcli (pushes k c) end.
Fixpoint pops (k : nat) (c : cpu) : string + cpu :=
  match k with
  | O => inr c
  | S k => match popcli c with inr c' => pops k c' | inl e => inl e end
  end.

Lemma pushes_state k c :
  cpu_ok c → let c' := pushes (S k) c in
  fl_if c' = false ∧ ncli c' = ncli c + Z.of_nat (S k) ∧
  intena c' = if ncli c =? 0 then fl_if c else intena c.
Proof.
  intros Hc. induction k as [|k IH]; [by split_and!|].
  cbn zeta in *. destruct IH as (_ & IHn & IHi). change (pushes (S (S k)) c) with (pushcli (pushes (S k) c)).
  cbn [pushcli fl_if ncli intena]. rewrite IHn, IHi. destruct Hc.
  rewrite (proj2 (Z.eqb_neq (ncli c + Z.of_nat (S k)) 0)) by lia. split_and!; [done|lia|done].
Qed.

Lemma pops_state k c :
  fl_if c = false → Z.of_nat (S k) <= ncli c →
  pops (S k) c = inr (Cpu ((ncli c =? Z.of_nat (S k)) && intena c) (ncli c - Z.of_nat (S k)) (intena c)).
Proof.
  revert c. induction k as [|k IH]; intros c Hf Hn; cbn [pops]; unfold popcli at 1; rewrite Hf.
  - rewrite (proj2 (Z.ltb_ge _ 0)) by lia. change (Z.of_nat 1) with 1.
    destruct (Z.eqb_spec (ncli c - 1) 0), (Z.eqb_spec (ncli c) 1); try lia; by destruct (intena c).
  - rewrite (proj2 (Z.ltb_ge _ 0)) by lia. rewrite (proj2 (Z.eqb_neq (ncli c - 1) 0)) by lia. cbn [andb].
    fold pops. change (match popcli ?c with inl e => inl e | inr c' => pops k c' end) with (pops (S k) c).
    rewrite IH by (cbn; done || lia). cbn [ncli intena]. f_equal. f_equal; [|lia].
    f_equal. destruct (Z.eqb_spec (ncli c - 1) (Z.of_nat (S k))), (Z.eqb_spec (ncli c) (Z.of_nat (S (S k)))); lia.
Qed.

(** [pushcli]/[popcli] are matched.  However deep they nest, interrupts
    stay off until as many [popcli]s as [pushcli]s have run; then the
    interrupt flag and the nesting depth are what they were before the first
    [pushcli], and no [popcli] panics on the way. *)
Theorem pushcli_popcli_matched k c :
  cpu_ok c → (0 < k)%nat →
  fl_if (pushes k c) = false ∧
  (∀ j, (0 < j < k)%nat → ∃ c', pops j (pushes k c) = inr c' ∧ fl_if c' = false) ∧
  ∃ c', pops k (pushes k c) = inr c' ∧ fl_if c' = fl_if c ∧ ncli c' = ncli c ∧ cpu_ok c'.
Proof.
  intros Hc Hk. destruct k as [|k]; [lia|].
  destruct (pushes_state k c Hc) as (Hf & Hn & Hi). destruct Hc as [Hc1 Hc2]. split_and!; [done|..].
  - intros [|j] Hj; [lia|]. rewrite pops_state by (done || lia). eexists. split; [done|]. cbn [fl_if].
    by rewrite (proj2 (Z.eqb_neq _ _)) by lia.
  - rewrite pops_state by (done || lia). eexists. split; [done|]. unfold cpu_ok. cbn [fl_if ncli].
    rewrite Hn, Hi. destruct (Z.eqb_spec (ncli c) 0) as [E|E].
    + rewrite (proj2 (Z.eqb_eq _ _)) by lia. cbn. split_and!; [done|lia|lia|lia].
    + rewrite (proj2 (Z.eqb_neq _ _)) by lia. cbn. rewrite Hc2 by lia. split_and!; [done|lia|lia|done].
Qed.

Lemma pushcli_popcli_matched_witness :
  fl_if (pushes 3 (Cpu true 0 false)) = false ∧
  ∃ c', pops 3 (pushes 3 (Cpu true 0 false)) = inr c' ∧ fl_if c' = true ∧ ncli c' = 0.
Proof.
  assert (Hok : cpu_ok (Cpu true 0 false)) by (split; simpl; lia).
  destruct (pushcli_popcli_matched 3 (Cpu true 0 false) Hok) as (H1 & _ & c' & H2 & H3 & H4 & _); [lia|].
  split; [exact H1|]. exists c'. done.
Defined.

(** ** The lock *)

(** [lcpu] is [lk->cpu]: the number of the CPU, or none for a null pointer. *)
Record spinlock := Spin { locked : Z; lcpu : option nat }.

Definition initlock : spinlock := Spin 0 None.

(** Where a CPU is in [acquire] or [release]. *)
Inductive pc :=
| Out             (* not using the lock *)
| AcqLocked       (* acquire: about to read lk->locked in holding() *)
| AcqCpu          (* acquire: locked was set, about to read lk->cpu *)
| Spinning        (* acquire: about to xchg *)
| AcqSetCpu       (* acquire: about to set lk->cpu *)
| Critical        (* the lock is held *)
| RelLocked       (* release: about to read lk->locked in holding() *)
| RelCpu          (* release: about to read lk->cpu *)
| RelClear        (* release: about to clear lk->cpu *)
| RelUnlock       (* release: about to store 0 to lk->locked *)
| RelPop          (* release: about to popcli *)
| Panicked (msg : string).

Record config := Config { lk : spinlock; pcs : nat → pc; cpus : nat → cpu }.

(** One memory access or [pushcli]/[popcli] of CPU [i]. *)
Inductive step (i : nat) : config → config → Prop :=
| s_acquire l p c :
    p i = Out →
    step i (Config l p c) (Config l (<[i := AcqLocked]> p) (<[i := pushcli (c i)]> c))
| s_acq_locked l p c :
    p i = AcqLocked →
    step i (Config l p c) (Config l (<[i := if locked l =? 0 then Spinning else AcqCpu]> p) c)
| s_acq_cpu l p c :
    p i = AcqCpu →
    step i (Config l p c)
      (Config l (<[i := if decide (lcpu l = Some i) then Panicked "acquire" else Spinning]> p) c)
| s_xchg l p c :
    p i = Spinning →
    step i (Config l p c)
      (Config (Spin 1 (lcpu l)) (<[i := if locked l =? 0 then AcqSetCpu else Spinning]> p) c)
| s_set_cpu l p c :
    p i = AcqSetCpu →
    step i (Config l p c) (Config (Spin (locked l) (Some i)) (<[i := Critical]> p) c)
| s_release l p c :
    p i = Critical → step i (Config l p c) (Config l (<[i := RelLocked]> p) c)
| s_rel_locked l p c :
    p i = RelLocked →
    step i (Config l p c)
      (Config l (<[i := if locked l =? 0 then Panicked "release" else RelCpu]> p) c)
| s_rel_cpu l p c :
    p i = RelCpu →
    step i (Config l p c)
      (Config l (<[i := if decide (lcpu l = Some i) then RelClear else Panicked "release"]> p) c)
| s_rel_clear l p c :
    p i = RelClear →
    step i (Config l p c) (Config (Spin (locked l) None) (<[i := RelUnlock]> p) c)
| s_rel_unlock l p c :
    p i = RelUnlock →
    step i (Config l p c) (Config (Spin 0 (lcpu l)) (<[i := RelPop]> p) c)
| s_rel_pop l p c :
    p i = RelPop →
    step i (Config l p c)
      match popcli (c i) with
      | inr c' => Config l (<[i := Out]> p) (<[i := c']> c)
      | inl msg => Config l (<[i := Panicked msg]> p) c
      end.

Definition any_step (a b : config) : Prop := ∃ i, step i a b.

(** The CPU has won the [xchg] and not yet stored 0. *)
Definition owns (q : pc) : bool :=
  match q with
  | AcqSetCpu | Critical | RelLocked | RelCpu | RelClear | RelUnlock => true
  | _ => false
  end.
(** [lk->cpu] names the CPU. *)
Definition named (q : pc) : bool :=
  match q with Critical | RelLocked | RelCpu | RelClear => true | _ => false end.
Definition panicked (q : pc) : bool := match q with Panicked _ => true | _ => false end.

(** [c0] is the state of the CPUs outside [acquire] and [release]. *)
Record lock_inv (c0 : nat → cpu) (a : config) : Prop := {
  li_excl i j : owns (pcs a i) = true → owns (pcs a j) = true → i = j;
  li_locked : locked (lk a) ≠ 0 ↔ ∃ i, owns (pcs a i) = true;
  li_named i : named (pcs a i) = true ↔ lcpu (lk a) = Some i;
  li_safe i : panicked (pcs a i) = false;
  li_out i : pcs a i = Out → fl_if (cpus a i) = fl_if (c0 i) ∧ ncli (cpus a i) = ncli (c0 i) ∧ cpu_ok (cpus a i);
  li_in i : pcs a i ≠ Out → ∃ c, cpus a i = pushcli c ∧ cpu_ok c ∧ fl_if c = fl_if (c0 i) ∧ ncli c = ncli (c0 i);
}.

Definition start (c0 : nat → cpu) : config := Config initlock (λ _, Out) c0.

Lemma start_inv c0 : (∀ i, cpu_ok (c0 i)) → lock_inv c0 (start c0).
Proof.
  intros Hok. split; simpl; try done.
  split; [done|]. by intros [i Hi].
Qed.

(** The cases of the invariant that only look at CPU [i]'s new position. *)
Ltac at_cpu i j :=
  let Hne := fresh "Hne" in destruct (decide (i = j)) as [<-|Hne];
  [rewrite ?fn_lookup_insert|rewrite ?fn_lookup_insert_ne by done].

Lemma named_owns q : named q = true → owns q = true.
Proof. by destruct q. Qed.

(** Moving one CPU from [pcs a i] to [q] keeps the invariant when the lock
    word and [lk->cpu] change as ownership does. *)
Lemma inv_move c0 a i q l c :
  lock_inv c0 a → panicked q = false →
  (owns q = owns (pcs a i) ∧ (locked l ≠ 0 ↔ locked (lk a) ≠ 0)) ∨
    (owns q = true ∧ locked (lk a) = 0 ∧ locked l ≠ 0) ∨
    (owns q = false ∧ owns (pcs a i) = true ∧ locked l = 0) →
  (named q = named (pcs a i) ∧ lcpu l = lcpu (lk a)) ∨
    (named q = true ∧ owns (pcs a i) = true ∧ lcpu l = Some i) ∨
    (named q = false ∧ named (pcs a i) = true ∧ lcpu l = None) →
  (∀ j, j ≠ i → c j = cpus a j) →
  (q = Out → fl_if (c i) = fl_if (c0 i) ∧ ncli (c i) = ncli (c0 i) ∧ cpu_ok (c i)) →
  (q ≠ Out → ∃ c', c i = pushcli c' ∧ cpu_ok c' ∧ fl_if c' = fl_if (c0 i) ∧ ncli c' = ncli (c0 i)) →
  lock_inv c0 (Config l (<[i := q]> (pcs a)) c).
Proof.
  intros [He Hl Hn Hs Ho Hi] Hp Hown Hnam Hc Hco Hci.
  split; cbn [lk pcs cpus].
  - assert (Hone : owns q = true → ∀ j, j ≠ i → owns (pcs a j) = true → False).
    { intros Hq j Hj Hoj. destruct Hown as [[E _]|[(_ & E & _)|(E & _)]]; [|by apply Hl in E; eauto|congruence].
      apply Hj. apply He; [done|congruence]. }
    intros j k. at_cpu i j; at_cpu i k; intros Hj Hk; [done|exfalso; eauto..|by apply He].
  - destruct Hown as [[E ->]|[(E & E0 & E1)|(E & E0 & E1)]].
    + rewrite Hl. split; intros [j Hj]; exists j; revert Hj; at_cpu i j; congruence.
    + split; [|done]. intros _. exists i. by rewrite fn_lookup_insert.
    + split; [done|]. intros [j Hj]. revert Hj. at_cpu i j; [congruence|]. intros Hj.
      exfalso. apply Hne. by apply He.
  - intros j. destruct Hnam as [[E ->]|[(E & E0 & ->)|(E & E0 & ->)]].
    + rewrite <- Hn. at_cpu i j; [by rewrite E|done].
    + at_cpu i j; [by rewrite E|]. split; [|congruence]. intros Hj%named_owns. exfalso. apply Hne. by apply He.
    + at_cpu i j; [by rewrite E|]. split; [|done]. intros Hj%named_owns.
      apply named_owns in E0. exfalso. apply Hne. by apply He.
  - intros j. at_cpu i j; [done|apply Hs].
  - intros j. at_cpu i j; [done|]. rewrite Hc by congruence. apply Ho.
  - intros j. at_cpu i j; [done|]. rewrite Hc by congruence. apply Hi.
Qed.

Ltac lock_move l p c Hp Hi :=
  eapply (inv_move _ (Config l p c)); cbn [lk pcs cpus locked lcpu]; rewrite ?Hp; auto; try done;
  try (intros; apply Hi; by rewrite Hp).

Lemma step_inv c0 i a b : (∀ i, cpu_ok (c0 i)) → lock_inv c0 a → step i a b → lock_inv c0 b.
Proof.
  intros Hok Ha Hs. pose proof Ha as [He Hl Hn Hsafe Ho Hi].
  assert (Hfree : ∀ l p c, a = Config l p c → owns (p i) = true → locked l ≠ 0).
  { intros l p c -> Hp. apply Hl. by exists i. }
  assert (Hname : ∀ l p c, a = Config l p c → named (p i) = true → lcpu l = Some i).
  { intros l p c -> Hp. by apply Hn. }
  destruct Hs as [l p c Hp|l p c Hp|l p c Hp|l p c Hp|l p c Hp|l p c Hp|l p c Hp|l p c Hp|l p c Hp|l p c Hp|l p c Hp];
    cbn [lk pcs cpus] in *;
    specialize (Hfree _ _ _ eq_refl); specialize (Hname _ _ _ eq_refl); rewrite Hp in Hfree, Hname.
  - lock_move l p c Hp Hi.
    + intros j Hj. by rewrite fn_lookup_insert_ne.
    + intros _. rewrite fn_lookup_insert. exists (c i). destruct (Ho i Hp) as (? & ? & ?). auto.
  - destruct (locked l =? 0); lock_move l p c Hp Hi.
  - destruct (decide (lcpu l = Some i)) as [E|E]; [apply Hn in E; by rewrite Hp in E|].
    lock_move l p c Hp Hi.
  - destruct (Z.eqb_spec (locked l) 0) as [E|E]; lock_move l p c Hp Hi. by left.
  - lock_move l p c Hp Hi.
  - lock_move l p c Hp Hi.
  - rewrite (proj2 (Z.eqb_neq _ _)) by by apply Hfree. lock_move l p c Hp Hi.
  - rewrite decide_True by by apply Hname. lock_move l p c Hp Hi.
  - lock_move l p c Hp Hi.
  - lock_move l p c Hp Hi.
  - destruct (Hi i) as (c' & E & Hok' & Hf & Hnc); [by rewrite Hp|]. rewrite E.
    destruct (popcli_pushcli c' Hok') as (c2 & -> & ? & ? & ? & _). lock_move l p c Hp Hi.
    + intros j Hj. by rewrite fn_lookup_insert_ne.
    + intros _. rewrite fn_lookup_insert. split_and!; [congruence|congruence|done].
Qed.

Lemma reachable_inv c0 a b : lock_inv c0 a → rtc any_step a b → (∀ i, cpu_ok (c0 i)) → lock_inv c0 b.
Proof.
  intros Ha Hr Hok. induction Hr as [|x y z [i Hi] _ IH]; [done|]. eauto using step_inv.
Qed.

(** C7: mutual exclusion.  Whatever CPUs acquire and release the lock and
    however their memory accesses interleave, at most one of them is between
    the winning [xchg] of [acquire] and the final store of [release]; none of
    the panics of [acquire], [release] and [popcli] is ever reached; and a
    CPU that holds the lock runs with interrupts off. *)
Theorem lock_mutual_exclusion c0 a :
  (∀ i, cpu_ok (c0 i)) → rtc any_step (start c0) a →
  (∀ i j, pcs a i = Critical → pcs a j = Critical → i = j) ∧
  (∀ i msg, pcs a i ≠ Panicked msg) ∧
  (∀ i, pcs a i = Critical → fl_if (cpus a i) = false ∧ lcpu (lk a) = Some i) ∧
  (∀ i, pcs a i = Out → fl_if (cpus a i) = fl_if (c0 i) ∧ ncli (cpus a i) = ncli (c0 i)).
Proof.
  intros Hok Hr. assert (Hinv : lock_inv c0 a).
  { eapply reachable_inv; [by apply start_inv|done..]. }
  destruct Hinv as [He Hl Hn Hs Ho Hi]. split_and!.
  - intros i j Hpi Hpj. apply He; [by rewrite Hpi|by rewrite Hpj].
  - intros i msg Hm. specialize (Hs i). by rewrite Hm in Hs.
  - intros i Hc. destruct (Hi i) as (c & -> & _); [by rewrite Hc|]. split; [done|]. apply Hn. by rewrite Hc.
  - intros i Hout. destruct (Ho i Hout) as (? & ? & _). done.
Qed.

(** A run in which CPU 0 takes the lock while CPU 1 spins. *)
Lemma lock_mutual_exclusion_witness :
  ∃ a, rtc any_step (start (λ _, Cpu true 0 false)) a ∧ pcs a 0%nat = Critical ∧ pcs a 1%nat = Spinning ∧
    (∀ i j, pcs a i = Critical → pcs a j = Critical → i = j) ∧ ∀ i msg, pcs a i ≠ Panicked msg.
Proof.
  assert (Hr : ∃ a, rtc any_step (start (λ _, Cpu true 0 false)) a ∧ pcs a 0%nat = Critical ∧
    pcs a 1%nat = Spinning).
  { eexists. split.
    - eapply rtc_l; [exists 0%nat; by apply s_acquire|].
      eapply rtc_l; [exists 0%nat; by apply s_acq_locked|].
      eapply rtc_l; [exists 0%nat; by apply s_xchg|].
      eapply rtc_l; [exists 0%nat; by apply s_set_cpu|].
      eapply rtc_l; [exists 1%nat; by apply s_acquire|].
      eapply rtc_l; [exists 1%nat; by apply s_acq_locked|].
      eapply rtc_l; [exists 1%nat; by apply s_acq_cpu|].
      eapply rtc_l; [exists 1%nat; by apply s_xchg|]. apply rtc_refl.
    - done. }
  destruct Hr as (a & Hr & H0 & H1). exists a. split; [exact Hr|]. split; [exact H0|]. split; [exact H1|].
  destruct (lock_mutual_exclusion (λ _, Cpu true 0 false) a) as (Hx & Hp & _); [|exact Hr|done].
  intros i. split; simpl; lia.
Defined.
