(* ===== verification/Kalloc.v ===== *)
(** * The physical page allocator: kalloc.c

    The free list is threaded through the free pages themselves, so the state
    is the list head together with memory.  [kmem.lock] brackets the bodies
    of [kfree] and [kalloc] (mutual exclusion is Spinlock.v's subject), which
    are atomic steps here. *)

From S2P Require Import Prelude Param StringC.

Record kmem := Kmem { use_lock : Z; freelist : Z; kmm : mem }.

Definition liftm {A} (f : M mem A) : M kmem A :=
  λ s, match f (kmm s) with
       | Ret a m => Ret a (Kmem (use_lock s) (freelist s) m)
       | Panic msg => Panic msg
       | Fault => Fault
       | Block => Block
       | Diverge => Diverge
       end.

(** A 32-bit word in memory. *)
Definition load32 (a : Z) : M mem Z :=
  b0 ← load a; b1 ← load (a + 1); b2 ← load (a + 2); b3 ← load (a + 3);
  mret (le_val [b0; b1; b2; b3]).
Definition store32 (a v : Z) : M mem unit :=
  store a v ;; store (a + 1) (v / 256) ;; store (a + 2) (v / 65536) ;; store (a + 3) (v / 16777216).

Definition set_freelist (v : Z) : M kmem unit := modify (λ s, Kmem (use_lock s) v (kmm s)).

Section kalloc.
(** The linker symbol [end]: first address after the kernel. *)
Context (end_ : Z).

Definition kfree (v : Z) : M kmem unit :=
  if negb (v mod PGSIZE =? 0) || (v <? end_) || (PHYSTOP <=? V2P v) then panic "kfree" else
  liftm (memset v 1 PGSIZE) ;;
  f ← gets freelist;
  liftm (store32 v f) ;;
  set_freelist v.

Definition kalloc : M kmem Z :=
  r ← gets freelist;
  (if negb (r =? 0) then n ← liftm (load32 r); set_freelist n else mret tt) ;;
  mret r.

Fixpoint freerange_loop (fuel : nat) (p vend : Z) : M kmem unit :=
  match fuel with
  | O => diverge
  | S fuel =>
      if u32 (p + PGSIZE) <=? vend then kfree p ;; freerange_loop fuel (u32 (p + PGSIZE)) vend
      else mret tt
  end.
(** Each round of the loop frees a page below [vend]. *)
Definition freerange (vstart vend : Z) : M kmem unit :=
  let p := PGROUNDUP vstart in
  freerange_loop (S (Z.to_nat ((vend - p) / PGSIZE))) p vend.

Definition kinit1 (vstart vend : Z) : M kmem unit :=
  modify (λ s, Kmem 0 (freelist s) (kmm s)) ;; freerange vstart vend.
Definition kinit2 (vstart vend : Z) : M kmem unit :=
  freerange vstart vend ;; modify (λ s, Kmem 1 (freelist s) (kmm s)).

(** ** Words *)

Lemma load32_spec m a v (Q : Z → mem → Prop) :
  holds m a (le_bytes 4 v) → 0 <= v < 4294967296 → Q v m → wp (load32 a) Q m.
Proof.
  intros Hh Hv HQ. pose proof Hh as (Ha & Hr & _). rewrite le_bytes_length in Hr. unfold load32.
  cbn [le_bytes] in Hh. apply holds_cons in Hh as [H0 Hh]. apply holds_cons in Hh as [H1 Hh].
  apply holds_cons in Hh as [H2 Hh]. apply holds_cons in Hh as [H3 _].
  replace (a + 1 + 1) with (a + 2) in * by lia. replace (a + 2 + 1) with (a + 3) in * by lia.
  rewrite wp_bind. eapply wp_load; [exact H0|lia|].
  rewrite wp_bind. eapply wp_load; [exact H1|lia|].
  rewrite wp_bind. eapply wp_load; [exact H2|lia|].
  rewrite wp_bind. eapply wp_load; [exact H3|lia|]. rewrite wp_ret.
  change [v mod 256; (v / 256) mod 256; (v / 256 / 256) mod 256; (v / 256 / 256 / 256) mod 256]
    with (le_bytes 4 v). rewrite le_val_bytes. change (256 ^ Z.of_nat 4) with 4294967296.
  by rewrite Z.mod_small.
Qed.

Lemma store32_spec m a v (Q : unit → mem → Prop) :
  mapped m a 4 → Q tt (mput a (le_bytes 4 v) m) → wp (store32 a v) Q m.
Proof.
  intros Hm HQ. pose proof Hm as (Ha & Hr & _). unfold store32.
  apply mapped_S in Hm as [M0 Hm]. apply mapped_S in Hm as [M1 Hm].
  apply mapped_S in Hm as [M2 Hm]. apply mapped_S in Hm as [M3 _].
  replace (a + 1 + 1) with (a + 2) in * by lia. replace (a + 2 + 1) with (a + 3) in * by lia.
  rewrite wp_bind. apply wp_store; [done|lia|].
  rewrite wp_bind. apply wp_store; [by rewrite lookup_insert_ne by lia|lia|].
  rewrite wp_bind. apply wp_store; [by rewrite !lookup_insert_ne by lia|lia|].
  apply wp_store; [by rewrite !lookup_insert_ne by lia|lia|].
  replace (v / 65536) with (v / 256 / 256) by (rewrite Z.div_div by lia; done).
  replace (v / 16777216) with (v / 256 / 256 / 256) by (rewrite !Z.div_div by lia; done).
  match goal with |- Q tt ?x => replace x with (mput a (le_bytes 4 v) m); [exact HQ|] end.
  apply map_eq. intros x. cbn [le_bytes mput]. unfold u8.
  replace (a + 1 + 1) with (a + 2) by lia. replace (a + 2 + 1) with (a + 3) by lia.
  rewrite !lookup_insert. repeat case_decide; try done; lia.
Qed.

Lemma wp_liftm {A} (f : M mem A) (Q : A → kmem → Prop) s :
  wp (liftm f) Q s ↔ wp f (λ a m, Q a (Kmem (use_lock s) (freelist s) m)) (kmm s).
Proof. unfold wp, liftm. by destruct (f (kmm s)). Qed.

(** ** The free list *)

Definition page_ok (v : Z) : Prop :=
  v mod PGSIZE = 0 ∧ end_ <= v ∧ KERNBASE <= v < KERNBASE + PHYSTOP.

(** The pages reached from [p] by following [next]. *)
Fixpoint chain (m : mem) (p : Z) (l : list Z) : Prop :=
  match l with
  | [] => p = 0
  | v :: l => p = v ∧ ∃ n, holds m v (le_bytes 4 n) ∧ 0 <= n < 4294967296 ∧ chain m n l
  end.

Record free_list (s : kmem) (l : list Z) : Prop := {
  fl_chain : chain (kmm s) (freelist s) l;
  fl_ok : Forall page_ok l;
  fl_nodup : NoDup l;
  fl_pages : ∀ v, v ∈ l → mapped (kmm s) v 4096;
}.

Lemma pages_apart v w : page_ok v → page_ok w → v ≠ w → apart v 4096 w 4096.
Proof. unfold page_ok, apart, PGSIZE. intros. dlia. Qed.

(** Writing inside one page leaves chains through other pages alone. *)
Lemma chain_frame m p l a bytes v :
  page_ok v → v <= a → a + Z.of_nat (length bytes) <= v + 4096 → Forall page_ok l → v ∉ l →
  chain m p l → chain (mput a bytes m) p l.
Proof.
  intros Hv Ha Hb Hl. revert p. induction Hl as [|w l Hw Hl IH]; intros p Hni Hc; [done|].
  apply not_elem_of_cons in Hni as [Hne Hni]. destruct Hc as (-> & n & Hn & Hr & Hc).
  split; [done|]. exists n. split_and!; [|lia|lia|by apply IH].
  apply holds_mput_other; [done|]. rewrite le_bytes_length.
  pose proof (pages_apart _ _ Hv Hw Hne) as Hap. unfold apart in *. lia.
Qed.

Lemma mapped_mput m a n b l : mapped m a n → mapped (mput b l m) a n.
Proof.
  intros (? & ? & Hm). split_and!; [done..|]. intros k Hk. rewrite mput_lookup.
  case_decide; [|by apply Hm]. apply lookup_lt_is_Some_2. lia.
Qed.

(** Outside [v]'s page memory is unchanged. *)
Definition frame_page (m m' : mem) (v : Z) : Prop :=
  ∀ x, x < v ∨ v + PGSIZE <= x → m' !! x = m !! x.

Lemma kfree_spec s l v :
  free_list s l → page_ok v → v ∉ l → mapped (kmm s) v 4096 →
  wp (kfree v) (λ _ s', free_list s' (v :: l) ∧ use_lock s' = use_lock s ∧
    frame_page (kmm s) (kmm s') v ∧
    (∀ k, (4 <= k < 4096)%nat → kmm s' !! (v + Z.of_nat k) = Some 1) ∧
    ∀ a n, mapped (kmm s) a n → mapped (kmm s') a n) s.
Proof.
  intros [Hc Hok Hnd Hpg] Hv Hni Hm. unfold kfree.
  assert (Hg : negb (v mod PGSIZE =? 0) || (v <? end_) || (PHYSTOP <=? V2P v) = false).
  { destruct Hv as (H1 & H2 & H3). rewrite H1. unfold V2P. unfold KERNBASE, PHYSTOP in *.
    rewrite u32_id by lia. rewrite (proj2 (Z.ltb_ge _ _)), (proj2 (Z.leb_gt _ _)) by lia. done. }
  rewrite Hg, wp_bind, wp_liftm.
  eapply wp_intro; [apply memset_correct; [unfold PGSIZE; lia|exact Hm]|].
  change (Z.to_nat PGSIZE) with 4096%nat. change (u8 1) with 1.
  set (m1 := mput v (replicate 4096 1) (kmm s)).
  rewrite wp_bind, wp_gets, wp_bind, wp_liftm. cbn [freelist use_lock kmm].
  assert (Hm4 : mapped m1 v 4).
  { apply mapped_mput. destruct Hm as (? & ? & Hk). split_and!; [done|lia|]. intros. apply Hk. lia. }
  apply store32_spec; [done|]. unfold set_freelist. rewrite wp_modify. cbn [freelist use_lock kmm].
  set (m2 := mput v (le_bytes 4 (freelist s)) m1).
  assert (Hmap : ∀ a n, mapped (kmm s) a n → mapped m2 a n) by (intros; by do 2 apply mapped_mput).
  assert (Hfl : 0 <= freelist s < 4294967296).
  { destruct l as [|w l]; [rewrite Hc; lia|]. destruct Hc as [-> _]. apply Forall_cons in Hok as [(_ & _ & Hw) _].
    unfold KERNBASE, PHYSTOP in Hw. lia. }
  split_and!; [split; cbn [freelist kmm use_lock]|done|..].
  - split; [done|]. exists (freelist s). split_and!; [|lia|lia|].
    + apply holds_mput; [apply Hm|]. rewrite le_bytes_length. destruct Hm4 as (? & ? & _). done.
    + unfold m2, m1. eapply (chain_frame _ _ _ _ _ v); try done; [rewrite le_bytes_length; lia|].
      eapply (chain_frame _ _ _ _ _ v); try done; rewrite length_replicate; lia.
  - by constructor.
  - by constructor.
  - intros w Hw. apply Hmap. apply elem_of_cons in Hw as [->|Hw]; [done|by apply Hpg].
  - intros x Hx. unfold PGSIZE in Hx. unfold m2, m1. rewrite !mput_lookup, !decide_False; [done|..].
    + rewrite length_replicate. lia.
    + rewrite le_bytes_length. lia.
  - intros k Hk. unfold m2, m1. rewrite !mput_lookup, decide_False, decide_True.
    + apply lookup_replicate. split; [done|lia].
    + rewrite length_replicate. lia.
    + rewrite le_bytes_length. lia.
  - done.
Qed.

Lemma kalloc_spec s l :
  free_list s l →
  wp kalloc (λ r s', kmm s' = kmm s ∧ use_lock s' = use_lock s ∧
    match l with
    | [] => r = 0 ∧ free_list s' []
    | v :: l' => r = v ∧ free_list s' l'
    end) s.
Proof.
  intros [Hc Hok Hnd Hpg]. unfold kalloc. rewrite wp_bind, wp_gets. destruct l as [|v l].
  - cbn in Hc. rewrite Hc. cbn [Z.eqb negb]. rewrite wp_bind, wp_ret, wp_ret. split_and!; [done..|].
    by split; [rewrite Hc|..].
  - destruct Hc as (Hf & n & Hn & Hr & Hc). apply Forall_cons in Hok as [Hv Hok].
    apply NoDup_cons in Hnd as [Hni Hnd]. rewrite Hf.
    rewrite (proj2 (Z.eqb_neq v 0)) by (destruct Hv as (_ & _ & Hv); unfold KERNBASE in Hv; lia).
    cbn [negb]. rewrite wp_bind, wp_bind, wp_liftm. eapply load32_spec; [exact Hn|done|].
    unfold set_freelist. rewrite wp_modify, wp_ret. cbn [kmm use_lock freelist].
    split_and!; [done..|]. split; cbn [kmm freelist]; [done..|]. intros w Hw. apply Hpg. by right.
Qed.

(** ** Clients *)

(** Allocations and frees by clients that free only pages they own and write
    only to pages they own. *)
Inductive kstep : kmem * list Z → kmem * list Z → Prop :=
| k_alloc s s' own r :
    kalloc s = Ret r s' → kstep (s, own) (s', if r =? 0 then own else r :: own)
| k_free s s' own1 own2 v :
    kfree v s = Ret tt s' → kstep (s, own1 ++ v :: own2) (s', own1 ++ own2)
| k_use s m own :
    (∀ x, (∀ v, v ∈ own → ¬ v <= x < v + PGSIZE) → m !! x = kmm s !! x) →
    (∀ x, is_Some (kmm s !! x) → is_Some (m !! x)) →
    kstep (s, own) (Kmem (use_lock s) (freelist s) m, own).

Record kinv (all : list Z) (s : kmem) (own : list Z) : Prop := {
  ki_free : ∃ l, free_list s l ∧ l ++ own ≡ₚ all;
  ki_ok : Forall page_ok all;
  ki_nodup : NoDup all;
  ki_mapped : ∀ v, v ∈ all → mapped (kmm s) v 4096;
}.

Lemma chain_use m m' p l :
  Forall page_ok l → (∀ v x, v ∈ l → v <= x < v + PGSIZE → m' !! x = m !! x) →
  chain m p l → chain m' p l.
Proof.
  revert p. induction l as [|v l IH]; intros p Hok Heq Hc; [done|].
  apply Forall_cons in Hok as [Hv Hok]. destruct Hc as (-> & n & Hn & Hr & Hc). split; [done|].
  exists n. split_and!; [|lia|lia|].
  - destruct Hn as (? & Hl & Hn). split_and!; [done..|]. intros k w Hk. pose proof (lookup_lt_Some _ _ _ Hk) as Hlt.
    rewrite le_bytes_length in Hlt, Hl. rewrite (Heq v); [by apply Hn|by left|unfold PGSIZE; lia].
  - apply IH; [done| |done]. intros w x Hw. apply Heq. by right.
Qed.

Lemma kstep_inv all c c' : kinv all c.1 c.2 → kstep c c' → kinv all c'.1 c'.2.
Proof.
  intros [(l & Hl & Hp) Hok Hnd Hmp] Hs.
  destruct Hs as [s s' own r Hr|s s' own1 own2 v Hr|s m own Hm1 Hm2]; cbn [fst snd] in *.
  - pose proof (kalloc_spec s l Hl) as Hw. unfold wp in Hw. rewrite Hr in Hw.
    destruct Hw as (Hkm & _ & Hw). split; [|done|done|by rewrite Hkm]. destruct l as [|v l].
    + destruct Hw as [-> Hw]. by exists [].
    + destruct Hw as [-> Hw]. exists l. split; [done|].
      assert (v ≠ 0). { pose proof (fl_ok _ _ Hl) as Hf. apply Forall_cons in Hf as [(_ & _ & Hv) _]. unfold KERNBASE in Hv. lia. }
      rewrite (proj2 (Z.eqb_neq v 0)) by done. rewrite <- Hp. by rewrite <- Permutation_middle.
  - assert (Hin : v ∈ all) by (rewrite <- Hp, !elem_of_app, elem_of_cons; tauto).
    assert (Hni : v ∉ l ++ own1 ++ own2).
    { rewrite <- Hp in Hnd. rewrite app_assoc, <- Permutation_middle in Hnd.
      apply NoDup_cons in Hnd as [Hni _]. by rewrite app_assoc. }
    pose proof (kfree_spec s l v Hl) as Hw. unfold wp in Hw. rewrite Hr in Hw.
    destruct Hw as (Hf & _ & _ & _ & Hmap); [|rewrite elem_of_app in Hni; tauto|by apply Hmp|].
    { rewrite Forall_forall in Hok. by apply Hok. }
    split; [|done|done|].
    + exists (v :: l). split; [done|]. rewrite <- Hp. cbn [app].
      rewrite <- (Permutation_middle own1 own2 v). by rewrite <- Permutation_middle.
    + intros w Hw. by apply Hmap, Hmp.
  - assert (Hm2' : ∀ v, v ∈ all → mapped m v 4096).
    { intros v Hv. destruct (Hmp v Hv) as (? & ? & Hk). split_and!; [done..|]. intros. by apply Hm2, Hk. }
    split; [|done|done|done]. exists l. split; [|done].
    destruct Hl as [Hc Hf Hn Hpg]. split; cbn [kmm freelist]; [|done|done|].
    + eapply chain_use; [done| |exact Hc]. intros v x Hv Hx. apply Hm1. intros w Hw Hx'.
      assert (H : v ≠ w).
      { intros ->. rewrite <- Hp in Hnd. apply NoDup_app in Hnd as (_ & Hd & _). by apply (Hd w). }
      rewrite Forall_forall in Hok, Hf.
      pose proof (pages_apart v w (Hf v Hv) (Hok w ltac:(rewrite <- Hp, elem_of_app; tauto)) H) as Hap.
      unfold apart, PGSIZE in *. lia.
    + intros v Hv. apply Hm2'. rewrite <- Hp, elem_of_app. tauto.
Qed.

Lemma ksteps_inv all c c' : rtc kstep c c' → kinv all c.1 c.2 → kinv all c'.1 c'.2.
Proof. induction 1; eauto using kstep_inv. Qed.

(** C8: the allocator hands out every page to at most one owner.  Start with
    the pages [l] free; after any sequence of allocations, frees of owned
    pages and writes by the owners, the free list is intact, the free pages
    and the owned ones together are exactly [l], no page is listed or owned
    twice, and freeing an owned page succeeds. *)
Theorem pages_conserved s l s' own :
  free_list s l → rtc kstep (s, []) (s', own) →
  ∃ l', free_list s' l' ∧ l' ++ own ≡ₚ l ∧ NoDup (l' ++ own) ∧
    ∀ v, v ∈ own → ∃ s'', kfree v s' = Ret tt s'' ∧ free_list s'' (v :: l').
Proof.
  intros Hl Hr.
  assert (Hinv : kinv l s' own).
  { apply (ksteps_inv l _ _ Hr). split; cbn [fst snd]; [|apply Hl|apply Hl|apply Hl].
    exists l. by rewrite app_nil_r. }
  destruct Hinv as [(l' & Hl' & Hp) Hok Hnd Hmp]. exists l'. rewrite <- Hp in Hnd.
  split_and!; [done..|]. intros v Hv.
  assert (Hin : v ∈ l) by (rewrite <- Hp, elem_of_app; tauto).
  assert (Hni : v ∉ l'). { apply NoDup_app in Hnd as (_ & Hd & _). intros Hx. by apply (Hd v). }
  rewrite Forall_forall in Hok.
  pose proof (kfree_spec s' l' v Hl' (Hok v Hin) Hni (Hmp v Hin)) as Hw.
  apply wp_elim in Hw as ([] & s'' & Hrun & Hf & _). eauto.
Qed.

(** ** Building the free list *)

Definition pages_from (p : Z) (n : nat) : list Z := (λ k, p + PGSIZE * Z.of_nat k) <$> seq 0 n.

Lemma pages_from_S p n : pages_from p (S n) = p :: pages_from (p + PGSIZE) n.
Proof.
  unfold pages_from. cbn [seq fmap list_fmap]. f_equal; [lia|].
  rewrite <- fmap_S_seq, <- list_fmap_compose. apply list_fmap_ext. intros i x _. simpl. lia.
Qed.

Lemma elem_of_pages_from p n v :
  v ∈ pages_from p n ↔ ∃ k, (k < n)%nat ∧ v = p + PGSIZE * Z.of_nat k.
Proof.
  unfold pages_from. rewrite list_elem_of_fmap. setoid_rewrite elem_of_seq. naive_solver lia.
Qed.

Lemma freerange_loop_spec n s l p vend fuel :
  (n < fuel)%nat → free_list s l → p mod PGSIZE = 0 → end_ <= p → KERNBASE <= p →
  p + PGSIZE * Z.of_nat n <= vend < p + PGSIZE * Z.of_nat (S n) → vend <= KERNBASE + PHYSTOP →
  (∀ v, v ∈ pages_from p n → v ∉ l ∧ mapped (kmm s) v 4096) →
  wp (freerange_loop fuel p vend) (λ _ s', free_list s' (rev (pages_from p n) ++ l) ∧
    use_lock s' = use_lock s) s.
Proof.
  revert s l p fuel. induction n as [|n IH]; intros s l p [|fuel] Hfu Hl Hal Hend Hkb Hv Htop Hpg; try lia;
    cbn [freerange_loop]; unfold KERNBASE, PHYSTOP, PGSIZE in *; rewrite u32_id by lia.
  - rewrite (proj2 (Z.leb_gt _ _)) by lia. rewrite wp_ret. done.
  - rewrite (proj2 (Z.leb_le _ _)) by lia. rewrite wp_bind.
    destruct (Hpg p) as [Hni Hm].
    { apply elem_of_pages_from. exists 0%nat. unfold PGSIZE. lia. }
    assert (Hpo : page_ok p) by (unfold page_ok, PGSIZE, KERNBASE, PHYSTOP; split_and!; [done|lia..]).
    eapply wp_mono; [by apply (kfree_spec s l p)|].
    intros [] s1 (Hf1 & Hu & _ & _ & Hmap). rewrite <- Hu.
    eapply wp_mono; [apply (IH s1 (p :: l) (p + 4096) fuel)|].
    + lia.
    + done.
    + dlia.
    + lia.
    + lia.
    + lia.
    + lia.
    + intros v Hv'. apply elem_of_pages_from in Hv' as (k & Hk & ->).
      destruct (Hpg (p + 4096 + PGSIZE * Z.of_nat k)) as [Hni' Hm'].
      { apply elem_of_pages_from. exists (S k). unfold PGSIZE. lia. }
      split; [|by apply Hmap]. apply not_elem_of_cons. split; [|done]. unfold PGSIZE. lia.
    + intros [] s2 [Hf2 Hu2]. split; [|done]. rewrite pages_from_S. cbn [rev]. by rewrite <- app_assoc.
Qed.

(** [freerange] puts on the free list exactly the whole pages of
    [[vstart, vend)], and terminates. *)
Theorem freerange_frees_all s vstart vend (n := Z.to_nat ((vend - PGROUNDUP vstart) / PGSIZE)) :
  free_list s [] → end_ <= PGROUNDUP vstart → KERNBASE <= vstart → vstart <= vend <= KERNBASE + PHYSTOP →
  PGROUNDUP vstart <= vend → (∀ v, v ∈ pages_from (PGROUNDUP vstart) n → mapped (kmm s) v 4096) →
  ∃ s', freerange vstart vend s = Ret tt s' ∧ free_list s' (rev (pages_from (PGROUNDUP vstart) n)) ∧
    ∀ v, v ∈ rev (pages_from (PGROUNDUP vstart) n) ↔ v mod PGSIZE = 0 ∧ vstart <= v ∧ v + PGSIZE <= vend.
Proof.
  intros Hf Hend Hkb Hr Hle Hpg.
  assert (Hup : PGROUNDUP vstart = (vstart + 4095) / 4096 * 4096).
  { apply PGROUNDUP_spec. unfold KERNBASE, PHYSTOP in *. lia. }
  assert (Hn : Z.of_nat n = (vend - PGROUNDUP vstart) / PGSIZE).
  { unfold n. unfold PGSIZE. rewrite Z2Nat.id; [done|]. apply Z.div_pos; lia. }
  assert (Hw : wp (freerange vstart vend) (λ _ s', free_list s' (rev (pages_from (PGROUNDUP vstart) n) ++ [])
    ∧ use_lock s' = use_lock s) s).
  { apply (freerange_loop_spec n); [lia|done| |done| | |lia|].
    - rewrite Hup. unfold PGSIZE. apply Z.mod_mul. lia.
    - rewrite Hup. unfold KERNBASE in *. dlia.
    - rewrite Nat2Z.inj_succ, Hn. unfold PGSIZE. dlia.
    - intros v Hv. split; [apply not_elem_of_nil|by apply Hpg]. }
  apply wp_elim in Hw as ([] & s' & Hrun & Hf' & _). rewrite app_nil_r in Hf'.
  exists s'. split; [exact Hrun|]. split; [done|]. intros v.
  rewrite <- Permutation_rev, elem_of_pages_from. unfold PGSIZE in *. split.
  - intros (k & Hk & ->). rewrite Hup in *. dlia.
  - intros (H1 & H2 & H3). exists (Z.to_nat ((v - PGROUNDUP vstart) / 4096)). rewrite Hup in *. dlia.
Qed.
End kalloc.

(** ** A concrete page *)

Definition example_page : Z := 0x80200000.
Definition example_mem : mem := mput example_page (replicate 4096 0) ∅.

Lemma example_mapped : mapped example_mem example_page 4096.
Proof.
  assert (Hh : holds example_mem example_page (replicate 4096 0)).
  { apply holds_mput; [done|]. rewrite length_replicate. done. }
  apply holds_mapped in Hh. by rewrite length_replicate in Hh.
Qed.

Lemma example_empty : free_list KERNLINK (Kmem 0 0 example_mem) [].
Proof.
  split; [done|constructor|constructor|]. intros v Hv. by apply elem_of_nil in Hv.
Qed.

Lemma pages_conserved_witness :
  ∃ s s', free_list KERNLINK s [example_page] ∧
    rtc (kstep KERNLINK) (s, []) (s', [example_page]) ∧ ∃ l', l' ++ [example_page] ≡ₚ [example_page].
Proof.
  assert (Hok : page_ok KERNLINK example_page) by (split_and!; vm_compute; congruence).
  pose proof (kfree_spec KERNLINK _ [] example_page example_empty Hok) as Hw.
  rewrite wp_elim in Hw. destruct Hw as (u & s & _ & Hs & _).
  { apply not_elem_of_nil. }
  { exact example_mapped. }
  pose proof (kalloc_spec KERNLINK s _ Hs) as Hw. rewrite wp_elim in Hw.
  destruct Hw as (r & s' & Hr & _ & _ & -> & _).
  assert (Hst : rtc (kstep KERNLINK) (s, []) (s', [example_page])).
  { eapply rtc_l; [|apply rtc_refl]. apply (k_alloc KERNLINK s s' [] example_page Hr). }
  exists s, s'. split; [exact Hs|]. split; [exact Hst|].
  destruct (pages_conserved KERNLINK s [example_page] s' [example_page] Hs Hst) as (l' & _ & Hp & _).
  exists l'. exact Hp.
Defined.

Lemma freerange_frees_all_witness :
  ∃ s', freerange KERNLINK (example_page - 10) (example_page + 4100) (Kmem 0 0 example_mem) = Ret tt s' ∧
    free_list KERNLINK s' [example_page].
Proof.
  assert (Hup : PGROUNDUP (example_page - 10) = example_page) by reflexivity.
  destruct (freerange_frees_all KERNLINK (Kmem 0 0 example_mem) (example_page - 10) (example_page + 4100))
    as (s' & Hr & Hf & _).
  - exact example_empty.
  - rewrite Hup. unfold KERNLINK, KERNBASE, EXTMEM, example_page. lia.
  - unfold KERNBASE, example_page. lia.
  - unfold KERNBASE, PHYSTOP, example_page. lia.
  - rewrite Hup. unfold example_page. lia.
  - rewrite Hup. intros v Hv. change (v ∈ [example_page]) in Hv.
    apply list_elem_of_singleton in Hv as ->. exact example_mapped.
  - exists s'. split; [exact Hr|exact Hf].
Defined.
