(* ===== verification/Pipe.v ===== *)
(** * Pipes: pipe.c

    The ring buffer with its free-running 32-bit counters, the critical
    sections of [pipewrite] and [piperead] (each runs, holding [p->lock], until
    the call returns or sleeps), and a step system in which any number of
    readers and writers share a pipe. *)

From S2P Require Import Prelude.

Definition PIPESIZE : Z := 512.

Record pipe := Pipe {
  data : list Z;
  nread : Z;
  nwrite : Z;
  readopen : Z;
  writeopen : Z;
}.

(** The assignments of [pipealloc] to the page [kalloc] returned. *)
Definition pipe_init (page : list Z) : pipe := Pipe page 0 0 1 1.

(** [p->data[p->nwrite++ % PIPESIZE] = c] *)
Definition put (c : Z) (p : pipe) : pipe :=
  Pipe (<[Z.to_nat (nwrite p mod PIPESIZE) := c]> (data p)) (nread p) (u32 (nwrite p + 1)) (readopen p) (writeopen p).
(** [p->data[p->nread++ % PIPESIZE]] *)
Definition take1 (p : pipe) : Z * pipe :=
  (byte_at (data p) (Z.to_nat (nread p mod PIPESIZE)),
   Pipe (data p) (u32 (nread p + 1)) (nwrite p) (readopen p) (writeopen p)).

Definition full (p : pipe) : bool := nwrite p =? u32 (nread p + PIPESIZE).
Definition empty (p : pipe) : bool := nread p =? nwrite p.

(** How a stretch of [pipewrite] ends: all bytes written; an error return or
    asleep with [rest] not written.  Only the first and the last wake the
    readers. *)
Inductive wresult := WDone (p : pipe) | WErr (rest : list Z) (p : pipe) | WSleep (rest : list Z) (p : pipe).

Fixpoint pipewrite (killed : bool) (addr : list Z) (p : pipe) : wresult :=
  match addr with
  | [] => WDone p
  | c :: addr' =>
      if full p then
        if (readopen p =? 0) || killed then WErr addr p else WSleep addr p
      else pipewrite killed addr' (put c p)
  end.

Inductive rresult := RDone (got : list Z) (p : pipe) | RErr (p : pipe) | RSleep (p : pipe).

(** The copy loop of [piperead]. *)
Fixpoint piperead_copy (n : nat) (p : pipe) : list Z * pipe :=
  match n with
  | O => ([], p)
  | S n =>
      if empty p then ([], p) else
      let '(c, p) := take1 p in
      let '(got, p) := piperead_copy n p in
      (c :: got, p)
  end.

Definition piperead (killed : bool) (n : nat) (p : pipe) : rresult :=
  if empty p && negb (writeopen p =? 0) then
    if killed then RErr p else RSleep p
  else let '(got, p) := piperead_copy n p in RDone got p.

(** [pipeclose]: the pipe, and whether its page is freed. *)
Definition pipeclose (writable : bool) (p : pipe) : pipe * bool :=
  let p := if writable then Pipe (data p) (nread p) (nwrite p) (readopen p) 0
           else Pipe (data p) (nread p) (nwrite p) 0 (writeopen p) in
  (p, (readopen p =? 0) && (writeopen p =? 0)).

(** ** The ring buffer holds a queue *)

Record rep (p : pipe) (q : list Z) : Prop := {
  rep_len : length (data p) = Z.to_nat PIPESIZE;
  rep_nr : is_u32 (nread p);
  rep_nw : nwrite p = u32 (nread p + Z.of_nat (length q));
  rep_max : Z.of_nat (length q) <= PIPESIZE;
  rep_data : ∀ k v, q !! k = Some v →
    data p !! Z.to_nat ((nread p + Z.of_nat k) mod PIPESIZE) = Some v;
}.

Lemma u32_mod_pipesize x : u32 x mod PIPESIZE = x mod PIPESIZE.
Proof. unfold u32, PIPESIZE. dlia. Qed.

Lemma rep_full p q : rep p q → full p = (Z.of_nat (length q) =? PIPESIZE).
Proof.
  intros [_ Hr Hw Hm _]. unfold full. rewrite Hw. unfold u32, is_u32, PIPESIZE in *.
  destruct (Z.eqb_spec (Z.of_nat (length q)) 512) as [->|]; [by apply Z.eqb_eq|]. apply Z.eqb_neq. dlia.
Qed.

Lemma rep_empty p q : rep p q → empty p = bool_decide (q = []).
Proof.
  intros [_ Hr Hw Hm _]. unfold empty. rewrite Hw. destruct q as [|c q].
  - rewrite bool_decide_eq_true_2 by done. apply Z.eqb_eq. rewrite Z.add_0_r. symmetry. by apply u32_id.
  - rewrite bool_decide_eq_false_2 by done. apply Z.eqb_neq. unfold u32, is_u32, PIPESIZE in *.
    cbn [length] in *. dlia.
Qed.

Lemma rep_put p q c : rep p q → Z.of_nat (length q) < PIPESIZE → rep (put c p) (q ++ [c]).
Proof.
  intros [Hl Hr Hw Hm Hd] Hlt. unfold put. split; cbn [data nread nwrite].
  - by rewrite length_insert.
  - done.
  - rewrite Hw, length_app. cbn [length]. unfold u32. rewrite Zplus_mod_idemp_l. f_equal. lia.
  - rewrite length_app. cbn [length]. lia.
  - intros k v Hk. rewrite Hw, u32_mod_pipesize.
    assert (Hb : ∀ x, (Z.to_nat (x mod PIPESIZE) < length (data p))%nat).
    { intros x. rewrite Hl. unfold PIPESIZE. dlia. }
    apply lookup_app_Some in Hk as [Hk|[Hge Hk]].
    + pose proof (lookup_lt_Some _ _ _ Hk). rewrite list_lookup_insert_ne; [by apply Hd|].
      intros E%Z2Nat.inj; unfold PIPESIZE in *; dlia.
    + apply list_lookup_singleton_Some in Hk as [Hk ->].
      replace k with (length q) by lia. by apply list_lookup_insert_eq.
Qed.

Lemma rep_take p c q : rep p (c :: q) → (take1 p).1 = c ∧ rep (take1 p).2 q.
Proof.
  intros [Hl Hr Hw Hm Hd]. unfold take1. cbn [fst snd]. split.
  - unfold byte_at. specialize (Hd 0%nat c eq_refl). rewrite Z.add_0_r in Hd. by rewrite Hd.
  - split; cbn [data nread nwrite].
    + done.
    + apply u32_range.
    + rewrite Hw. unfold u32. rewrite Zplus_mod_idemp_l. f_equal. cbn [length]. lia.
    + cbn [length] in Hm. lia.
    + intros k v Hk. rewrite <- (Hd (S k) v Hk). f_equal. f_equal.
      rewrite <- (Zplus_mod_idemp_l (u32 _)), u32_mod_pipesize, Zplus_mod_idemp_l. f_equal. lia.
Qed.

Lemma rep_init page : length page = Z.to_nat PIPESIZE → rep (pipe_init page) [].
Proof. intros Hl. by split. Qed.

(** [pipewrite] as operations on the queue. *)
Lemma pipewrite_spec killed addr p q :
  rep p q →
  match pipewrite killed addr p with
  | WDone p' => rep p' (q ++ addr) ∧ readopen p' = readopen p ∧ writeopen p' = writeopen p
  | WErr rest p' => ∃ w, addr = w ++ rest ∧ rest ≠ [] ∧ rep p' (q ++ w) ∧
      Z.of_nat (length (q ++ w)) = PIPESIZE ∧ (readopen p = 0 ∨ killed = true) ∧
      readopen p' = readopen p ∧ writeopen p' = writeopen p
  | WSleep rest p' => ∃ w, addr = w ++ rest ∧ rest ≠ [] ∧ rep p' (q ++ w) ∧
      Z.of_nat (length (q ++ w)) = PIPESIZE ∧ readopen p ≠ 0 ∧ killed = false ∧
      readopen p' = readopen p ∧ writeopen p' = writeopen p
  end.
Proof.
  revert p q. induction addr as [|c addr IH]; intros p q Hq; cbn [pipewrite]; [by rewrite app_nil_r|].
  rewrite (rep_full _ _ Hq). destruct (Z.eqb_spec (Z.of_nat (length q)) PIPESIZE) as [E|E].
  - destruct (Z.eqb_spec (readopen p) 0) as [Er|Er]; [|destruct killed]; cbn [orb].
    + exists []. rewrite app_nil_r. by split_and!; auto.
    + exists []. rewrite app_nil_r. by split_and!; auto.
    + exists []. rewrite app_nil_r. by split_and!.
  - pose proof (rep_max _ _ Hq). assert (Hp : rep (put c p) (q ++ [c])) by (apply rep_put; [done|lia]).
    specialize (IH _ _ Hp). destruct (pipewrite killed addr (put c p)) as [p'|rest p'|rest p'].
    + by rewrite <- app_assoc in IH.
    + destruct IH as (w & -> & IH). exists (c :: w). by rewrite <- app_assoc in IH.
    + destruct IH as (w & -> & IH). exists (c :: w). by rewrite <- app_assoc in IH.
Qed.

Lemma piperead_copy_spec n p q :
  rep p q → (piperead_copy n p).1 = take n q ∧ rep (piperead_copy n p).2 (drop n q) ∧
    readopen (piperead_copy n p).2 = readopen p ∧ writeopen (piperead_copy n p).2 = writeopen p.
Proof.
  revert p q. induction n as [|n IH]; intros p q Hq; cbn [piperead_copy]; [done|].
  rewrite (rep_empty _ _ Hq). destruct q as [|c q]; [by rewrite bool_decide_eq_true_2 by done|].
  rewrite bool_decide_eq_false_2 by done. destruct (rep_take _ _ _ Hq) as [Hc Hq'].
  assert (Ho : readopen (take1 p).2 = readopen p ∧ writeopen (take1 p).2 = writeopen p) by done.
  destruct (take1 p) as [c' p1]. cbn [fst snd] in *. subst c'. destruct (IH _ _ Hq') as (E & Hr & E1 & E2).
  destruct (piperead_copy n p1) as [got p2]. cbn [fst snd take drop] in *. destruct Ho. split_and!; congruence.
Qed.

(** ** Readers and writers *)

(** A thread inside [pipewrite] with bytes left to write, or inside
    [piperead]; [asleep] on [&p->nwrite] or [&p->nread]. *)
Inductive thread :=
| Writer (rest : list Z) (asleep : bool)
| Reader (n : nat) (asleep : bool)
| Returned.

(** [wakeup(&p->nread)] and [wakeup(&p->nwrite)]. *)
Definition wake_readers (t : thread) : thread :=
  match t with Reader n _ => Reader n false | t => t end.
Definition wake_writers (t : thread) : thread :=
  match t with Writer l _ => Writer l false | t => t end.

(** [kill] makes a sleeping process runnable, whatever it sleeps on. *)
Definition rouse (t : thread) : thread :=
  match t with Writer l _ => Writer l false | Reader n _ => Reader n false | t => t end.

(** [sent] and [got] record every byte that went in and out; [lost] says that
    a killed writer has put bytes into the pipe and returned -1 without a
    [wakeup(&p->nread)], and that there has been none since. *)
Record sys := Sys { pp : pipe; ths : list thread; sent : list Z; got : list Z; lost : bool }.

(** What thread [i] does when it next holds the lock.  A call holds a reference
    to the [struct file] it goes through, so an end is closed only when no
    call on it is in progress, and used only while it is open.  Any process
    may be killed at any time: [killed] is what the thread reads in its
    process, and [p_kill] is the wakeup in [kill] (proc.c). *)
Inductive pstep : sys → sys → Prop :=
| p_call_write s bytes :
    writeopen (pp s) ≠ 0 →
    pstep s (Sys (pp s) (ths s ++ [Writer bytes false]) (sent s) (got s) (lost s))
| p_call_read s n :
    readopen (pp s) ≠ 0 →
    pstep s (Sys (pp s) (ths s ++ [Reader n false]) (sent s) (got s) (lost s))
| p_write_done s i rest killed p' :
    ths s !! i = Some (Writer rest false) → pipewrite killed rest (pp s) = WDone p' →
    pstep s (Sys p' (wake_readers <$> <[i := Returned]> (ths s)) (sent s ++ rest) (got s) false)
| p_write_err s i rest w rest' killed p' :
    ths s !! i = Some (Writer rest false) → pipewrite killed rest (pp s) = WErr rest' p' → rest = w ++ rest' →
    pstep s (Sys p' (<[i := Returned]> (ths s)) (sent s ++ w) (got s)
      (lost s || (killed && negb (bool_decide (w = [])))))
| p_write_sleep s i w rest rest' killed p' :
    ths s !! i = Some (Writer rest false) → pipewrite killed rest (pp s) = WSleep rest' p' → rest = w ++ rest' →
    pstep s (Sys p' (wake_readers <$> <[i := Writer rest' true]> (ths s)) (sent s ++ w) (got s) false)
| p_read_done s i n killed bytes p' :
    ths s !! i = Some (Reader n false) → piperead killed n (pp s) = RDone bytes p' →
    pstep s (Sys p' (wake_writers <$> <[i := Returned]> (ths s)) (sent s) (got s ++ bytes) (lost s))
| p_read_err s i n killed p' :
    ths s !! i = Some (Reader n false) → piperead killed n (pp s) = RErr p' →
    pstep s (Sys p' (<[i := Returned]> (ths s)) (sent s) (got s) (lost s))
| p_read_sleep s i n killed p' :
    ths s !! i = Some (Reader n false) → piperead killed n (pp s) = RSleep p' →
    pstep s (Sys p' (<[i := Reader n true]> (ths s)) (sent s) (got s) (lost s))
| p_close_write s :
    (∀ i l b, ths s !! i ≠ Some (Writer l b)) →
    pstep s (Sys (pipeclose true (pp s)).1 (wake_readers <$> ths s) (sent s) (got s) false)
| p_close_read s :
    (∀ i n b, ths s !! i ≠ Some (Reader n b)) →
    pstep s (Sys (pipeclose false (pp s)).1 (wake_writers <$> ths s) (sent s) (got s) (lost s))
| p_kill s i t :
    ths s !! i = Some t → pstep s (Sys (pp s) (<[i := rouse t]> (ths s)) (sent s) (got s) (lost s)).

Definition pipe_start (page : list Z) : sys := Sys (pipe_init page) [] [] [] false.

Definition fifo (s : sys) : Prop := ∃ q, rep (pp s) q ∧ got s ++ q = sent s.

Lemma rep_close w p q : rep p q → rep (pipeclose w p).1 q.
Proof. intros []. by destruct w; split. Qed.

Lemma pstep_fifo s s' : pstep s s' → fifo s → fifo s'.
Proof.
  intros Hs (q & Hq & Hfi). unfold fifo.
  destruct Hs as [s bytes _|s n _|s i rest killed p' Hi Hw|s i rest w rest' killed p' Hi Hw Hr
    |s i w rest rest' killed p' Hi Hw Hr|s i n killed bytes p' Hi Hr|s i n killed p' Hi Hr
    |s i n killed p' Hi Hr|s _|s _|s i t Hi]; cbn [pp sent got] in *.
  - eauto.
  - eauto.
  - pose proof (pipewrite_spec killed rest _ _ Hq) as Hsp. rewrite Hw in Hsp.
    destruct Hsp as [Hp _]. eexists. split; [exact Hp|]. by rewrite app_assoc, Hfi.
  - pose proof (pipewrite_spec killed rest _ _ Hq) as Hsp. rewrite Hw in Hsp.
    destruct Hsp as (w2 & Hr2 & _ & Hp & _). rewrite Hr in Hr2. apply app_inv_tail in Hr2 as <-.
    eexists. split; [exact Hp|]. by rewrite app_assoc, Hfi.
  - pose proof (pipewrite_spec killed rest _ _ Hq) as Hsp. rewrite Hw in Hsp.
    destruct Hsp as (w2 & Hr2 & _ & Hp & _). rewrite Hr in Hr2. apply app_inv_tail in Hr2 as <-.
    eexists. split; [exact Hp|]. by rewrite app_assoc, Hfi.
  - unfold piperead in Hr. destruct (_ && _); [by destruct killed|].
    destruct (piperead_copy_spec n _ _ Hq) as (Hg & Hp & _). destruct (piperead_copy n (pp s)) as [g p].
    cbn [fst snd] in *. injection Hr as <- <-. exists (drop n q). split; [done|].
    rewrite <- app_assoc, Hg, take_drop. done.
  - unfold piperead in Hr. destruct (_ && _); [|by destruct (piperead_copy n (pp s))].
    destruct killed; [|done]. injection Hr as <-. eauto.
  - unfold piperead in Hr. destruct (_ && _); [|by destruct (piperead_copy n (pp s))].
    destruct killed; [done|]. injection Hr as <-. eauto.
  - exists q. split; [by apply rep_close|done].
  - exists q. split; [by apply rep_close|done].
  - eauto.
Qed.

(** C10: a pipe is a bounded FIFO.  However readers and writers interleave,
    sleep, are killed or close their ends, and however often the 32-bit
    counters wrap, the bytes read so far followed by the at most [PIPESIZE]
    bytes still in the buffer are exactly the bytes written so far. *)
Theorem pipe_fifo page s :
  length page = Z.to_nat PIPESIZE → rtc pstep (pipe_start page) s →
  ∃ q, rep (pp s) q ∧ got s ++ q = sent s ∧ Z.of_nat (length q) <= PIPESIZE.
Proof.
  intros Hl Hr. assert (Hf : fifo s).
  { assert (H0 : fifo (pipe_start page)) by (exists []; split; [by apply rep_init|done]).
    clear Hl. induction Hr as [|x y z Hxy _ IH]; [done|]. eauto using pstep_fifo. }
  destruct Hf as (q & Hq & E). exists q. split_and!; [done..|]. apply Hq.
Qed.

(** ** Wakeups *)

(** A reader sleeps only while the pipe is empty, or a killed writer failed
    to wake it, and can still be written; a writer only while it is full and
    can still be read. *)
Definition no_missed (s : sys) : Prop :=
  (∃ q, rep (pp s) q) ∧
  (∀ i n b, ths s !! i = Some (Reader n b) → readopen (pp s) ≠ 0) ∧
  (∀ i l b, ths s !! i = Some (Writer l b) → writeopen (pp s) ≠ 0) ∧
  (∀ i n, ths s !! i = Some (Reader n true) → (empty (pp s) = true ∨ lost s = true) ∧ writeopen (pp s) ≠ 0) ∧
  (∀ i l, ths s !! i = Some (Writer l true) → full (pp s) = true ∧ readopen (pp s) ≠ 0).

Lemma wake_readers_asleep (l : list thread) (i : nat) n : (wake_readers <$> l) !! i = Some (Reader n true) → False.
Proof. rewrite list_lookup_fmap. by destruct (l !! i) as [[]|]. Qed.

Lemma wake_readers_writer (l : list thread) (i : nat) w b : (wake_readers <$> l) !! i = Some (Writer w b) → l !! i = Some (Writer w b).
Proof. rewrite list_lookup_fmap. by destruct (l !! i) as [[]|]. Qed.

Lemma wake_writers_asleep (l : list thread) (i : nat) w : (wake_writers <$> l) !! i = Some (Writer w true) → False.
Proof. rewrite list_lookup_fmap. by destruct (l !! i) as [[]|]. Qed.

Lemma wake_writers_reader (l : list thread) (i : nat) n b : (wake_writers <$> l) !! i = Some (Reader n b) → l !! i = Some (Reader n b).
Proof. rewrite list_lookup_fmap. by destruct (l !! i) as [[]|]. Qed.

Lemma insert_other_thread (l : list thread) i t j x :
  <[i := t]> l !! j = Some x → x ≠ t → l !! j = Some x.
Proof. intros Hj Hne. apply list_lookup_insert_Some in Hj as [(_ & ? & _)|[_ ?]]; congruence. Qed.

Lemma wake_readers_reader (l : list thread) i n b :
  (wake_readers <$> l) !! i = Some (Reader n b) → ∃ b', l !! i = Some (Reader n b').
Proof. rewrite list_lookup_fmap. destruct (l !! i) as [[]|]; try done. intros [= <- <-]. eauto. Qed.

Lemma wake_writers_writer (l : list thread) i w b :
  (wake_writers <$> l) !! i = Some (Writer w b) → ∃ b', l !! i = Some (Writer w b').
Proof. rewrite list_lookup_fmap. destruct (l !! i) as [[]|]; try done. intros [= <- <-]. eauto. Qed.

Lemma app_asleep (l : list thread) t j x : (l ++ [t]) !! j = Some x → x ≠ t → l !! j = Some x.
Proof.
  intros Hj Hne. apply lookup_app_Some in Hj as [?|[_ Hj]]; [done|].
  apply list_lookup_singleton_Some in Hj as [_ ?]. congruence.
Qed.

(** A stretch of [pipewrite] on a full pipe changes nothing. *)
Lemma pipewrite_full killed addr p q :
  rep p q → full p = true → addr ≠ [] →
  pipewrite killed addr p = if (readopen p =? 0) || killed then WErr addr p else WSleep addr p.
Proof. intros Hq Hf Ha. destruct addr; [done|]. cbn [pipewrite]. by rewrite Hf. Qed.

Lemma nm_reader (l : list thread) i t j n b :
  (∀ n b, t ≠ Reader n b) → <[i := t]> l !! j = Some (Reader n b) → l !! j = Some (Reader n b).
Proof. intros Ht Hj. eapply insert_other_thread; [exact Hj|]. specialize (Ht n b). congruence. Qed.

Lemma nm_writer (l : list thread) i t j w b :
  (∀ w b, t ≠ Writer w b) → <[i := t]> l !! j = Some (Writer w b) → l !! j = Some (Writer w b).
Proof. intros Ht Hj. eapply insert_other_thread; [exact Hj|]. specialize (Ht w b). congruence. Qed.

Lemma nm_write_done s i rest killed p' :
  no_missed s → ths s !! i = Some (Writer rest false) → pipewrite killed rest (pp s) = WDone p' →
  no_missed (Sys p' (wake_readers <$> <[i := Returned]> (ths s)) (sent s ++ rest) (got s) false).
Proof.
  intros ((q & Hq) & Hr & Hw & Hrs & Hws) Hi Hrun.
  pose proof (pipewrite_spec killed rest _ _ Hq) as Hsp. rewrite Hrun in Hsp. destruct Hsp as (Hp & Er & Ew).
  unfold no_missed. cbn [pp ths lost]. rewrite Er, Ew. split_and!.
  - eauto.
  - intros j n b Hj. apply wake_readers_reader in Hj as [b' Hj]. apply nm_reader in Hj; [eauto|done].
  - intros j l b Hj. apply wake_readers_writer, nm_writer in Hj; [eauto|done].
  - intros j n Hj. by apply wake_readers_asleep in Hj.
  - intros j l Hj. apply wake_readers_writer, nm_writer in Hj; [|done]. apply Hws in Hj as [Hfull Hro].
    split; [|done]. destruct rest as [|c rest]; [cbn in Hrun; by injection Hrun as <-|].
    rewrite (pipewrite_full _ _ _ _ Hq Hfull) in Hrun by done. by destruct (_ || _).
Qed.

Lemma nm_write_err s i rest w rest' killed p' :
  no_missed s → ths s !! i = Some (Writer rest false) → pipewrite killed rest (pp s) = WErr rest' p' →
  rest = w ++ rest' →
  no_missed (Sys p' (<[i := Returned]> (ths s)) (sent s ++ w) (got s)
    (lost s || (killed && negb (bool_decide (w = []))))).
Proof.
  intros ((q & Hq) & Hr & Hw & Hrs & Hws) Hi Hrun Hre.
  pose proof (pipewrite_spec killed rest _ _ Hq) as Hsp. rewrite Hrun in Hsp.
  destruct Hsp as (w2 & Hw2 & _ & Hp & Hlen & Hor & Er & Ew). rewrite Hre in Hw2. apply app_inv_tail in Hw2 as <-.
  unfold no_missed. cbn [pp ths lost]. rewrite Er, Ew. split_and!.
  - eauto.
  - intros j n b Hj. apply nm_reader in Hj; [eauto|done].
  - intros j l b Hj. apply nm_writer in Hj; [eauto|done].
  - intros j n Hj. apply nm_reader in Hj; [|done]. pose proof (Hr _ _ _ Hj) as Hro.
    destruct (Hrs _ _ Hj) as [Hel Hwo]. split; [|done]. destruct Hor as [?| ->]; [done|].
    destruct Hel as [He| ->]; [|by right]. case_bool_decide as Hwn; [left|right; by destruct (lost s)].
    subst w. rewrite app_nil_r in Hp. by rewrite (rep_empty _ _ Hp), <- (rep_empty _ _ Hq).
  - intros j l Hj. apply nm_writer in Hj; [|done]. apply Hws in Hj as [_ ?]. split; [|done].
    rewrite (rep_full _ _ Hp). by apply Z.eqb_eq.
Qed.

Lemma nm_write_sleep s i rest w rest' killed p' :
  no_missed s → ths s !! i = Some (Writer rest false) → pipewrite killed rest (pp s) = WSleep rest' p' →
  no_missed (Sys p' (wake_readers <$> <[i := Writer rest' true]> (ths s)) (sent s ++ w) (got s) false).
Proof.
  intros ((q & Hq) & Hr & Hw & Hrs & Hws) Hi Hrun.
  pose proof (pipewrite_spec killed rest _ _ Hq) as Hsp. rewrite Hrun in Hsp.
  destruct Hsp as (w2 & _ & _ & Hp & Hlen & Hro & _ & Er & Ew).
  assert (Hf : full p' = true) by (rewrite (rep_full _ _ Hp); by apply Z.eqb_eq).
  unfold no_missed. cbn [pp ths lost]. rewrite Er, Ew. split_and!.
  - eauto.
  - intros j n b Hj. done.
  - intros j l b Hj. by eapply Hw.
  - intros j n Hj. by apply wake_readers_asleep in Hj.
  - done.
Qed.

Lemma nm_read_done s i n killed bytes p' :
  no_missed s → ths s !! i = Some (Reader n false) → piperead killed n (pp s) = RDone bytes p' →
  no_missed (Sys p' (wake_writers <$> <[i := Returned]> (ths s)) (sent s) (got s ++ bytes) (lost s)).
Proof.
  intros ((q & Hq) & Hr & Hw & Hrs & Hws) Hi Hrun. unfold piperead in Hrun.
  destruct (empty (pp s) && negb (writeopen (pp s) =? 0)) eqn:E; [by destruct killed|].
  destruct (piperead_copy_spec n _ _ Hq) as (Hg & Hp & Er & Ew). destruct (piperead_copy n (pp s)) as [g p].
  cbn [fst snd] in *. injection Hrun as <- <-. unfold no_missed. cbn [pp ths lost]. rewrite Er, Ew. split_and!.
  - eauto.
  - intros j k b Hj. apply wake_writers_reader, nm_reader in Hj; [eauto|done].
  - intros j l b Hj. apply wake_writers_writer in Hj as [b' Hj]. apply nm_writer in Hj; [eauto|done].
  - intros j k Hj. apply wake_writers_reader, nm_reader in Hj; [|done]. apply Hrs in Hj as [[He|Hl] Hwo]; [|by split; [right|]].
    rewrite He in E. apply Z.eqb_neq in Hwo. by rewrite Hwo in E.
  - intros j l Hj. by apply wake_writers_asleep in Hj.
Qed.

Lemma nm_kill s i t :
  no_missed s → ths s !! i = Some t → no_missed (Sys (pp s) (<[i := rouse t]> (ths s)) (sent s) (got s) (lost s)).
Proof.
  intros (Hq & Hr & Hw & Hrs & Hws) Hi. unfold no_missed. cbn [pp ths lost].
  split_and!; [done|intros j n b Hj|intros j l b Hj|intros j n Hj|intros j l Hj];
    apply list_lookup_insert_Some in Hj as [(<- & E & _)|[_ Hj]]; eauto; destruct t; simplify_eq/=; eauto.
Qed.

Lemma pstep_no_missed s s' : pstep s s' → no_missed s → no_missed s'.
Proof.
  intros Hs Hm. pose proof Hm as ((q & Hq) & Hr & Hw & Hrs & Hws).
  destruct Hs as [s bytes Ho|s n Ho|s i rest killed p' Hi Hrun|s i rest w rest' killed p' Hi Hrun Hre
    |s i w rest rest' killed p' Hi Hrun Hre|s i n killed bytes p' Hi Hrun|s i n killed p' Hi Hrun
    |s i n killed p' Hi Hrun|s Hno|s Hno|s i t Hi].
  - unfold no_missed. cbn [pp ths lost]. split_and!; [eauto|..].
    + intros i n b Hi. apply app_asleep in Hi; [eauto|done].
    + done.
    + intros i n Hi. apply app_asleep in Hi; [eauto|done].
    + intros i l Hi. apply app_asleep in Hi; [eauto|done].
  - unfold no_missed. cbn [pp ths lost]. split_and!; [eauto|..].
    + done.
    + intros i l b Hi. apply app_asleep in Hi; [eauto|done].
    + intros i k Hi. apply app_asleep in Hi; [eauto|done].
    + intros i l Hi. apply app_asleep in Hi; [eauto|done].
  - by eapply nm_write_done.
  - by eapply nm_write_err.
  - by eapply nm_write_sleep.
  - by eapply nm_read_done.
  - unfold piperead in Hrun. destruct (_ && _); [|by destruct (piperead_copy n (pp s))].
    destruct killed; [|done]. injection Hrun as <-. unfold no_missed. cbn [pp ths lost]. split_and!; [eauto|..].
    + intros j k b Hj. apply nm_reader in Hj; [eauto|done].
    + intros j l b Hj. apply nm_writer in Hj; [eauto|done].
    + intros j k Hj. apply nm_reader in Hj; [eauto|done].
    + intros j l Hj. apply nm_writer in Hj; [eauto|done].
  - unfold piperead in Hrun. destruct (empty (pp s)) eqn:E1, (Z.eqb_spec (writeopen (pp s)) 0) as [E2|E2];
      cbn [andb negb] in Hrun; try by destruct (piperead_copy n (pp s)).
    destruct killed; [done|]. injection Hrun as <-. unfold no_missed. cbn [pp ths lost]. split_and!; [eauto|..].
    + intros j k b _. by eapply Hr.
    + intros j l b Hj. apply nm_writer in Hj; [eauto|done].
    + intros j k _. auto.
    + intros j l Hj. apply nm_writer in Hj; [eauto|done].
  - unfold no_missed, pipeclose. cbn [pp ths fst readopen writeopen]. split_and!.
    + exists q. by apply (rep_close true).
    + intros j k b Hj. apply wake_readers_reader in Hj as [b' Hj]. eauto.
    + intros j l b Hj. apply wake_readers_writer in Hj. by apply Hno in Hj.
    + intros j k Hj. by apply wake_readers_asleep in Hj.
    + intros j l Hj. apply wake_readers_writer in Hj. by apply Hno in Hj.
  - unfold no_missed, pipeclose. cbn [pp ths fst readopen writeopen]. split_and!.
    + exists q. by apply (rep_close false).
    + intros j k b Hj. apply wake_writers_reader in Hj. by apply Hno in Hj.
    + intros j l b Hj. apply wake_writers_writer in Hj as [b' Hj]. eauto.
    + intros j k Hj. apply wake_writers_reader in Hj. by apply Hno in Hj.
    + intros j l Hj. by apply wake_writers_asleep in Hj.
  - by apply nm_kill.
Qed.

(** C16: which wakeups are never missed.  However readers and writers
    interleave, sleep, are killed and close their ends: a writer is asleep
    only while the pipe is full and its read end is open; a reader is asleep
    only while its write end is open and the pipe is empty, or a killed writer
    has put bytes in and returned without waking the readers, and nobody has
    woken them since. *)
Theorem pipe_no_missed_wakeup page s :
  length page = Z.to_nat PIPESIZE → rtc pstep (pipe_start page) s →
  (∀ i n, ths s !! i = Some (Reader n true) → (empty (pp s) = true ∨ lost s = true) ∧ writeopen (pp s) ≠ 0) ∧
  (∀ i l, ths s !! i = Some (Writer l true) → full (pp s) = true ∧ readopen (pp s) ≠ 0).
Proof.
  intros Hl Hr. assert (Hm : no_missed s).
  { assert (H0 : no_missed (pipe_start page)).
    { split_and!; [exists []; by apply rep_init|..]; intros i ?; cbn; rewrite lookup_nil; done. }
    clear Hl. induction Hr as [|x y z Hxy _ IH]; [done|]. eauto using pstep_no_missed. }
  apply Hm.
Qed.

(** The pipe after a killed writer has filled it. *)
Definition filled : pipe :=
  match pipewrite true (replicate 513 65) (pipe_init (replicate 512 0)) with
  | WErr _ p => p
  | _ => pipe_init []
  end.

Lemma filled_run : pipewrite true (replicate 513 65) (pipe_init (replicate 512 0)) = WErr [65] filled.
Proof. vm_compute. reflexivity. Qed.

Lemma filled_state : full filled = true ∧ writeopen filled = 1 ∧ readopen filled = 1.
Proof. vm_compute. done. Qed.

(** A killed writer can leave a reader asleep on a full pipe: when
    [pipewrite] fills the pipe and then finds its process killed it returns
    -1 without the [wakeup(&p->nread)] of its other exits, so a reader that
    went to sleep on the empty pipe is not woken although [PIPESIZE] bytes are
    waiting. *)
Theorem killed_writer_misses_wakeup :
  ∃ s, rtc pstep (pipe_start (replicate 512 0)) s ∧
    ths s !! 0%nat = Some (Reader 1 true) ∧ full (pp s) = true ∧ writeopen (pp s) ≠ 0 ∧ readopen (pp s) ≠ 0.
Proof.
  set (p0 := pipe_init (replicate 512 0)).
  exists (Sys filled [Reader 1 true; Returned] ([] ++ replicate 512 65) [] true).
  split.
  - eapply rtc_l; [apply (p_call_read _ 1); cbn; lia|].
    eapply rtc_l; [apply (p_read_sleep (Sys p0 [Reader 1 false] [] [] false) 0 1 false p0); reflexivity|].
    eapply rtc_l; [apply (p_call_write (Sys p0 [Reader 1 true] [] [] false) (replicate 513 65)); cbn; lia|].
    eapply rtc_l; [|apply rtc_refl].
    apply (p_write_err (Sys p0 [Reader 1 true; Writer (replicate 513 65) false] [] [] false) 1
      (replicate 513 65) (replicate 512 65) [65] true filled); [done|exact filled_run|done].
  - destruct filled_state as (Hf & Hw & Hr). cbn [ths pp]. rewrite Hw, Hr. split_and!; [done|exact Hf|lia|lia].
Qed.

(** A reader that sleeps, a writer that wakes it, and the read. *)
Lemma pipe_fifo_witness :
  ∃ s, rtc pstep (pipe_start (replicate 512 0)) s ∧ got s = [65] ∧
    ∃ q, rep (pp s) q ∧ got s ++ q = sent s ∧ Z.of_nat (length q) <= PIPESIZE.
Proof.
  set (p0 := pipe_init (replicate 512 0)).
  set (p1 := put 66 (put 65 p0)).
  assert (Hr : rtc pstep (pipe_start (replicate 512 0))
    (Sys (take1 p1).2 [Returned; Returned] [65; 66] [65] false)).
  { eapply rtc_l; [apply (p_call_read _ 1); cbn; lia|].
    eapply rtc_l; [apply (p_read_sleep (Sys p0 [Reader 1 false] [] [] false) 0 1 false p0); reflexivity|].
    eapply rtc_l; [apply (p_call_write (Sys p0 [Reader 1 true] [] [] false) [65; 66]); cbn; lia|].
    eapply rtc_l; [apply (p_write_done (Sys p0 [Reader 1 true; Writer [65; 66] false] [] [] false) 1
      [65; 66] false p1); reflexivity || done|].
    eapply rtc_l; [|apply rtc_refl].
    apply (p_read_done (Sys p1 [Reader 1 false; Returned] [65; 66] [] false) 0 1 false [65] (take1 p1).2);
      reflexivity. }
  eexists. split; [exact Hr|]. split; [reflexivity|].
  apply (pipe_fifo (replicate 512 0) _); [reflexivity|exact Hr].
Defined.

Lemma pipe_no_missed_wakeup_witness :
  ∃ s, rtc pstep (pipe_start (replicate 512 0)) s ∧ ths s !! 0%nat = Some (Reader 1 true) ∧
    (empty (pp s) = true ∨ lost s = true) ∧ writeopen (pp s) ≠ 0.
Proof.
  set (p0 := pipe_init (replicate 512 0)).
  assert (Hr : rtc pstep (pipe_start (replicate 512 0)) (Sys p0 [Reader 1 true] [] [] false)).
  { eapply rtc_l; [apply (p_call_read _ 1); cbn; lia|].
    eapply rtc_l; [apply (p_read_sleep (Sys p0 [Reader 1 false] [] [] false) 0 1 false p0); reflexivity|].
    apply rtc_refl. }
  eexists. split; [exact Hr|]. split; [reflexivity|].
  destruct (pipe_no_missed_wakeup (replicate 512 0) _ eq_refl Hr) as [H _]. exact (H 0%nat 1%nat eq_refl).
Defined.
