(* ===== verification/Vm.v ===== *)
(** * Page tables: vm.c (and the page macros of mmu.h)

    Page directories and tables are pages of the memory kalloc.c manages;
    entries are 32-bit words in it, read and written through the kernel's
    direct map.  [translate] is the walk the MMU does. *)

From S2P Require Import Prelude Param StringC Kalloc.

(** ** mmu.h *)

Definition PDX (va : Z) : Z := Z.land (Z.shiftr (u32 va) 22) 0x3FF.
Definition PTX (va : Z) : Z := Z.land (Z.shiftr (u32 va) 12) 0x3FF.
Definition PGADDR (d t o : Z) : Z := u32 (Z.lor (Z.lor (Z.shiftl d 22) (Z.shiftl t 12)) o).
Definition NPDENTRIES : Z := 1024.
Definition PTE_P : Z := 1.
Definition PTE_W : Z := 2.
Definition PTE_U : Z := 4.
Definition PTE_ADDR (pte : Z) : Z := Z.land (u32 pte) (u32 (Z.lnot 0xFFF)).
Definition PTE_FLAGS (pte : Z) : Z := Z.land (u32 pte) 0xFFF.
Definition has (e f : Z) : bool := negb (Z.land e f =? 0).

(** [struct gpu] as the loader fills it in (graphic.h). *)
Record gpu_info := Gpu { pvram_addr : Z; vram_size : Z }.

Record kmap_entry := Kmap { virt : Z; phys_start : Z; phys_end : Z; perm : Z }.

Section vm.
(** Linker symbols [end] and [data], and the frame buffer the loader found. *)
Context (end_ data_ : Z) (gpu : gpu_info).

Definition walkpgdir (pgdir va : Z) (alloc : bool) : M kmem Z :=
  let pde := pgdir + 4 * PDX va in
  e ← liftm (load32 pde);
  if has e PTE_P then mret (P2V (PTE_ADDR e) + 4 * PTX va)
  else if negb alloc then mret 0
  else
    pgtab ← kalloc;
    if pgtab =? 0 then mret 0 else
    liftm (memset pgtab 0 PGSIZE) ;;
    liftm (store32 pde (Z.lor (Z.lor (Z.lor (V2P pgtab) PTE_P) PTE_W) PTE_U)) ;;
    mret (pgtab + 4 * PTX va).

Fixpoint mappages_loop (fuel : nat) (pgdir a last pa perm : Z) : M kmem Z :=
  match fuel with
  | O => diverge
  | S fuel =>
      pte ← walkpgdir pgdir a true;
      if pte =? 0 then mret (-1) else
      e ← liftm (load32 pte);
      if has e PTE_P then panic "remap" else
      liftm (store32 pte (Z.lor (Z.lor pa perm) PTE_P)) ;;
      if a =? last then mret 0
      else mappages_loop fuel pgdir (u32 (a + PGSIZE)) last (u32 (pa + PGSIZE)) perm
  end.
(** [a] reaches [last] after as many rounds as there are pages. *)
Definition mappages (pgdir va size pa perm : Z) : M kmem Z :=
  let a := PGROUNDDOWN va in
  let last := PGROUNDDOWN (va + size - 1) in
  mappages_loop (S (Z.to_nat (u32 (last - a) / PGSIZE))) pgdir a last pa perm.

Fixpoint deallocuvm_loop (fuel : nat) (pgdir a oldsz : Z) : M kmem unit :=
  match fuel with
  | O => diverge
  | S fuel =>
      if a <? oldsz then
        pte ← walkpgdir pgdir a false;
        if pte =? 0 then
          deallocuvm_loop fuel pgdir (u32 (u32 (PGADDR (PDX a + 1) 0 0 - PGSIZE) + PGSIZE)) oldsz
        else
          e ← liftm (load32 pte);
          (if has e PTE_P then
             let pa := PTE_ADDR e in
             if pa =? 0 then panic "kfree" else
             kfree end_ (P2V pa) ;;
             liftm (store32 pte 0)
           else mret tt) ;;
          deallocuvm_loop fuel pgdir (u32 (a + PGSIZE)) oldsz
      else mret tt
  end.
Definition deallocuvm (pgdir oldsz newsz : Z) : M kmem Z :=
  if oldsz <=? newsz then mret oldsz else
  let a := PGROUNDUP newsz in
  deallocuvm_loop (S (S (Z.to_nat ((oldsz - a) / PGSIZE)))) pgdir a oldsz ;;
  mret newsz.

Definition freevm (pgdir : Z) : M kmem unit :=
  if pgdir =? 0 then panic "freevm: no pgdir" else
  deallocuvm pgdir KERNBASE 0 ;;
  for_ (Z.to_nat NPDENTRIES) 0 (λ i,
    e ← liftm (load32 (pgdir + 4 * Z.of_nat i));
    if has e PTE_P then kfree end_ (P2V (PTE_ADDR e)) else mret tt) ;;
  kfree end_ pgdir.

Fixpoint allocuvm_loop (fuel : nat) (pgdir a oldsz newsz : Z) : M kmem Z :=
  match fuel with
  | O => diverge
  | S fuel =>
      if a <? newsz then
        mem ← kalloc;
        if mem =? 0 then deallocuvm pgdir newsz oldsz ;; mret 0 else
        liftm (memset mem 0 PGSIZE) ;;
        r ← mappages pgdir a PGSIZE (V2P mem) (Z.lor PTE_W PTE_U);
        if r <? 0 then deallocuvm pgdir newsz oldsz ;; kfree end_ mem ;; mret 0
        else allocuvm_loop fuel pgdir (u32 (a + PGSIZE)) oldsz newsz
      else mret newsz
  end.
Definition allocuvm (pgdir oldsz newsz : Z) : M kmem Z :=
  if KERNBASE <=? newsz then mret 0 else
  if newsz <? oldsz then mret oldsz else
  let a := PGROUNDUP oldsz in
  allocuvm_loop (S (Z.to_nat ((newsz - a) / PGSIZE + 1))) pgdir a oldsz newsz.

(** The table [kmap] with the frame buffer put into entry 3 by [setupkvm]. *)
Definition kmap : list kmap_entry := [
  Kmap KERNBASE 0 EXTMEM PTE_W;
  Kmap KERNLINK (V2P KERNLINK) (V2P data_) 0;
  Kmap data_ (V2P data_) PHYSTOP PTE_W;
  Kmap (u32 (DEVSPACE - vram_size gpu)) (pvram_addr gpu) (u32 (pvram_addr gpu + vram_size gpu)) PTE_W;
  Kmap (u32 (PCI_BAR_BASE + PCI_VP_OFFSET)) PCI_BAR_BASE (0x10000000 + PCI_BAR_BASE) PTE_W;
  Kmap DEVSPACE DEVSPACE 0 PTE_W].

Fixpoint setupkvm_loop (ks : list kmap_entry) (pgdir : Z) : M kmem Z :=
  match ks with
  | [] => mret pgdir
  | k :: ks =>
      r ← mappages pgdir (virt k) (u32 (phys_end k - phys_start k)) (phys_start k) (perm k);
      if r <? 0 then freevm pgdir ;; mret 0 else setupkvm_loop ks pgdir
  end.
Definition setupkvm : M kmem Z :=
  pgdir ← kalloc;
  if pgdir =? 0 then mret 0 else
  liftm (memset pgdir 0 PGSIZE) ;;
  if DEVSPACE <? P2V PHYSTOP then panic "PHYSTOP too high" else
  setupkvm_loop kmap pgdir.

(** [init] is the initcode, [sz] bytes long. *)
Definition inituvm (pgdir init sz : Z) : M kmem unit :=
  if PGSIZE <=? sz then panic "inituvm: more than a page" else
  mem ← kalloc;
  liftm (memset mem 0 PGSIZE) ;;
  mappages pgdir 0 PGSIZE (V2P mem) (Z.lor PTE_W PTE_U) ;;
  liftm (memmove mem init sz) ;;
  mret tt.

Definition clearpteu (pgdir uva : Z) : M kmem unit :=
  pte ← walkpgdir pgdir uva false;
  if pte =? 0 then panic "clearpteu" else
  e ← liftm (load32 pte);
  liftm (store32 pte (Z.land e (u32 (Z.lnot PTE_U)))).

Fixpoint copyuvm_loop (fuel : nat) (pgdir d i sz : Z) : M kmem Z :=
  match fuel with
  | O => diverge
  | S fuel =>
      if i <? sz then
        pte ← walkpgdir pgdir i false;
        if pte =? 0 then panic "copyuvm: pte should exist" else
        e ← liftm (load32 pte);
        if negb (has e PTE_P) then panic "copyuvm: page not present" else
        mem ← kalloc;
        if mem =? 0 then freevm d ;; mret 0 else
        liftm (memmove mem (P2V (PTE_ADDR e)) PGSIZE) ;;
        r ← mappages d i PGSIZE (V2P mem) (PTE_FLAGS e);
        if r <? 0 then freevm d ;; mret 0
        else copyuvm_loop fuel pgdir d (u32 (i + PGSIZE)) sz
      else mret d
  end.
Definition copyuvm (pgdir sz : Z) : M kmem Z :=
  d ← setupkvm;
  if d =? 0 then mret 0 else
  copyuvm_loop (S (Z.to_nat (sz / PGSIZE + 1))) pgdir d 0 sz.

(** The code reads [*pte] without testing that [walkpgdir] found one; address
    0 is not mapped in the kernel half. *)
Definition uva2ka (pgdir uva : Z) : M kmem Z :=
  pte ← walkpgdir pgdir uva false;
  e ← liftm (load32 pte);
  if Z.land e PTE_P =? 0 then mret 0 else
  if Z.land e PTE_U =? 0 then mret 0 else
  mret (P2V (PTE_ADDR e)).

Fixpoint copyout_loop (fuel : nat) (pgdir va buf len : Z) : M kmem Z :=
  match fuel with
  | O => diverge
  | S fuel =>
      if 0 <? len then
        let va0 := PGROUNDDOWN va in
        pa0 ← uva2ka pgdir va0;
        if pa0 =? 0 then mret (-1) else
        let n := u32 (PGSIZE - (va - va0)) in
        let n := if len <? n then len else n in
        liftm (memmove (pa0 + (va - va0)) buf n) ;;
        copyout_loop fuel pgdir (u32 (va0 + PGSIZE)) (buf + n) (len - n)
      else mret 0
  end.
(** Every round but the first copies a whole page. *)
Definition copyout (pgdir va p len : Z) : M kmem Z :=
  copyout_loop (S (S (Z.to_nat (len / PGSIZE + 1)))) pgdir va p len.
End vm.

(** ** The MMU's view *)

Definition word (m : mem) (a : Z) : Z :=
  le_val [default 0 (m !! a); default 0 (m !! (a + 1)); default 0 (m !! (a + 2)); default 0 (m !! (a + 3))].

(** The page table entry for [va], if its table is present. *)
Definition pte_of (m : mem) (pgdir va : Z) : option Z :=
  let e := word m (pgdir + 4 * PDX va) in
  if has e PTE_P then Some (word m (P2V (PTE_ADDR e) + 4 * PTX va)) else None.

Definition translate (m : mem) (pgdir va : Z) : option (Z * Z) :=
  match pte_of m pgdir va with
  | Some p => if has p PTE_P then Some (PTE_ADDR p + va mod PGSIZE, PTE_FLAGS p) else None
  | None => None
  end.

(** ** Index arithmetic *)

Lemma PDX_spec va : 0 <= va < 4294967296 → PDX va = va / 4194304.
Proof.
  intros Hv. unfold PDX. rewrite u32_id by done. change 0x3FF with (Z.ones 10).
  rewrite Z.land_ones, Z.shiftr_div_pow2 by lia. change (2 ^ 22) with 4194304. change (2 ^ 10) with 1024. dlia.
Qed.

Lemma PTX_spec va : 0 <= va < 4294967296 → PTX va = va / 4096 mod 1024.
Proof.
  intros Hv. unfold PTX. rewrite u32_id by done. change 0x3FF with (Z.ones 10).
  by rewrite Z.land_ones, Z.shiftr_div_pow2 by lia.
Qed.

Lemma PDX_range va : 0 <= PDX va < 1024.
Proof.
  unfold PDX. change 0x3FF with (Z.ones 10). rewrite Z.land_ones by lia.
  change (2 ^ 10) with 1024. apply Z.mod_pos_bound. lia.
Qed.

Lemma PTX_range va : 0 <= PTX va < 1024.
Proof.
  unfold PTX. change 0x3FF with (Z.ones 10). rewrite Z.land_ones by lia.
  change (2 ^ 10) with 1024. apply Z.mod_pos_bound. lia.
Qed.

(** The two indices name the page. *)
Lemma same_page va vb :
  0 <= va < 4294967296 → 0 <= vb < 4294967296 →
  PDX va = PDX vb ∧ PTX va = PTX vb ↔ va / 4096 = vb / 4096.
Proof. intros Ha Hb. rewrite !PDX_spec, !PTX_spec by done. split; dlia. Qed.

Lemma PTE_ADDR_spec e : PTE_ADDR e = u32 e - u32 e mod 4096.
Proof. unfold PTE_ADDR. apply (land_page_mask (u32 e)), u32_range. Qed.

Lemma PTE_FLAGS_spec e : PTE_FLAGS e = u32 e mod 4096.
Proof. unfold PTE_FLAGS. change 0xFFF with (Z.ones 12). by rewrite Z.land_ones by lia. Qed.

Lemma lor_page pa x : pa mod 4096 = 0 → 0 <= x < 4096 → Z.lor pa x = pa + x.
Proof.
  intros Hp Hx. replace pa with (Z.shiftl (pa / 4096) 12) at 1.
  - rewrite lor_low by (change (2 ^ 12) with 4096; lia). change (2 ^ 12) with 4096. dlia.
  - rewrite Z.shiftl_mul_pow2 by lia. change (2 ^ 12) with 4096. dlia.
Qed.

Lemma has_P e : has e PTE_P = Z.odd e.
Proof.
  unfold has, PTE_P. change 1 with (Z.ones 1). rewrite Z.land_ones by lia. change (2 ^ 1) with 2.
  rewrite Zmod_odd. by destruct (Z.odd e).
Qed.

(** The entry [mappages] stores. *)
Lemma new_pte pa perm :
  pa mod 4096 = 0 → 0 <= pa < 4294967296 → 0 <= perm < 4096 →
  let e := Z.lor (Z.lor pa perm) PTE_P in
  0 <= e < 4294967296 ∧ has e PTE_P = true ∧ PTE_ADDR e = pa ∧ PTE_FLAGS e = Z.lor perm PTE_P.
Proof.
  intros Hal Hpa Hpe e. assert (Hl : 0 <= Z.lor perm PTE_P < 4096).
  { split; [apply Z.lor_nonneg; unfold PTE_P; lia|]. destruct (decide (perm = 0)) as [->|]; [done|].
    change 4096 with (2 ^ 12). apply Z.log2_lt_cancel. rewrite Z.log2_lor, Z.log2_pow2 by (unfold PTE_P; lia).
    change (Z.log2 PTE_P) with 0. rewrite Z.max_l by apply Z.log2_nonneg.
    apply Z.log2_lt_pow2; [lia|]. change (2 ^ 12) with 4096. lia. }
  assert (He : e = pa + Z.lor perm PTE_P) by (unfold e; rewrite <- Z.lor_assoc; by apply lor_page).
  assert (Hr : 0 <= e < 4294967296) by dlia. split_and!.
  - lia.
  - lia.
  - rewrite has_P. unfold e. rewrite <- Z.bit0_odd, Z.lor_spec. unfold PTE_P. by rewrite orb_true_r.
  - rewrite PTE_ADDR_spec, u32_id, He by done. dlia.
  - rewrite PTE_FLAGS_spec, u32_id, He by done. dlia.
Qed.

(** ** Words in memory *)

Definition mem_ok (m : mem) : Prop := ∀ a v, m !! a = Some v → is_u8 v.

Lemma mem_ok_mput m a l : mem_ok m → bytes_ok l → mem_ok (mput a l m).
Proof.
  intros Hm Hl x v. rewrite mput_lookup. case_decide; [|by apply Hm].
  intros Hx. by apply (Forall_lookup_1 _ _ _ _ Hl Hx).
Qed.

Lemma word_range m a : mem_ok m → 0 <= word m a < 4294967296.
Proof.
  intros Hm. unfold word. assert (Hb : ∀ x, is_u8 (default 0 (m !! x))).
  { intros x. destruct (m !! x) eqn:E; [by apply (Hm x)|done]. }
  cbn [le_val]. pose proof (Hb a). pose proof (Hb (a + 1)). pose proof (Hb (a + 2)). pose proof (Hb (a + 3)).
  unfold is_u8 in *. lia.
Qed.

Lemma word_ext m m' a : (∀ k, 0 <= k < 4 → m' !! (a + k) = m !! (a + k)) → word m' a = word m a.
Proof.
  intros He. unfold word. pose proof (He 0 ltac:(lia)) as E0. rewrite Z.add_0_r in E0.
  by rewrite E0, (He 1), (He 2), (He 3) by lia.
Qed.

Lemma word_same m a v : word (mput a (le_bytes 4 v) m) a = u32 v.
Proof.
  unfold word. rewrite !mput_lookup, !le_bytes_length.
  rewrite !decide_True by lia.
  replace (Z.to_nat (a - a)) with 0%nat by lia. replace (Z.to_nat (a + 1 - a)) with 1%nat by lia.
  replace (Z.to_nat (a + 2 - a)) with 2%nat by lia. replace (Z.to_nat (a + 3 - a)) with 3%nat by lia.
  change (le_val (le_bytes 4 v) = u32 v). rewrite le_val_bytes. done.
Qed.

Lemma word_other m a l b : apart a (length l) b 4 → word (mput a l m) b = word m b.
Proof.
  intros Ha. unfold apart in Ha. apply word_ext. intros k Hk. rewrite mput_lookup, decide_False; [done|lia].
Qed.

Lemma word_zero m a n b :
  a <= b → b + 4 <= a + Z.of_nat n → word (mput a (replicate n 0) m) b = 0.
Proof.
  intros H1 H2. unfold word. rewrite !mput_lookup, !length_replicate, !decide_True by lia.
  by rewrite !lookup_replicate_2 by lia.
Qed.

Lemma wp_load32 m a (Q : Z → mem → Prop) : mapped m a 4 → Q (word m a) m → wp (load32 a) Q m.
Proof.
  intros Hm HQ. pose proof Hm as (Ha & Hr & _).
  apply mapped_S in Hm as [[v0 M0] Hm]. apply mapped_S in Hm as [[v1 M1] Hm].
  apply mapped_S in Hm as [[v2 M2] Hm]. apply mapped_S in Hm as [[v3 M3] _].
  replace (a + 1 + 1) with (a + 2) in * by lia. replace (a + 2 + 1) with (a + 3) in * by lia.
  unfold load32. rewrite wp_bind. eapply wp_load; [exact M0|lia|].
  rewrite wp_bind. eapply wp_load; [exact M1|lia|]. rewrite wp_bind. eapply wp_load; [exact M2|lia|].
  rewrite wp_bind. eapply wp_load; [exact M3|lia|]. rewrite wp_ret.
  unfold word in HQ. by rewrite M0, M1, M2, M3 in HQ.
Qed.

(** ** Well-formed page directories *)

Section tables.
Context (end_ : Z).

(** [tb i] is the page table page directory entry [i] points to.  The
    directory and its tables are distinct pages, none of them free. *)
Record pgwf (s : kmem) (pgdir : Z) (tb : Z → option Z) (fl : list Z) : Prop := {
  pw_free : free_list end_ s fl;
  pw_mem : mem_ok (kmm s);
  pw_dir : page_ok end_ pgdir ∧ mapped (kmm s) pgdir 4096 ∧ pgdir ∉ fl;
  pw_none i : 0 <= i < 1024 → tb i = None → has (word (kmm s) (pgdir + 4 * i)) PTE_P = false;
  pw_some i t : 0 <= i < 1024 → tb i = Some t →
    has (word (kmm s) (pgdir + 4 * i)) PTE_P = true ∧
    P2V (PTE_ADDR (word (kmm s) (pgdir + 4 * i))) = t ∧
    page_ok end_ t ∧ mapped (kmm s) t 4096 ∧ t ≠ pgdir ∧ t ∉ fl;
  pw_inj i j t : 0 <= i < 1024 → 0 <= j < 1024 → tb i = Some t → tb j = Some t → i = j;
}.

Lemma mapped_word m p i : mapped m p 4096 → 0 <= i < 1024 → mapped m (p + 4 * i) 4.
Proof.
  intros (H1 & H2 & H3) Hi. split_and!; [lia|lia|]. intros k Hk.
  replace (p + 4 * i + Z.of_nat k) with (p + Z.of_nat (Z.to_nat (4 * i) + k)) by lia. apply H3. lia.
Qed.

(** The pte for [va] in terms of [tb]. *)
Lemma pte_of_tb s pgdir tb fl va :
  pgwf s pgdir tb fl →
  pte_of (kmm s) pgdir va = match tb (PDX va) with Some t => Some (word (kmm s) (t + 4 * PTX va)) | None => None end.
Proof.
  intros Hw. pose proof (PDX_range va) as Hr. unfold pte_of. destruct (tb (PDX va)) as [t|] eqn:E.
  - by destruct (pw_some _ _ _ _ Hw _ _ Hr E) as (-> & -> & _).
  - by rewrite (pw_none _ _ _ _ Hw _ Hr E).
Qed.

Lemma words_apart p q i j :
  page_ok end_ p → page_ok end_ q → 0 <= i < 1024 → 0 <= j < 1024 → p ≠ q ∨ i ≠ j →
  apart (p + 4 * i) 4 (q + 4 * j) 4.
Proof.
  intros Hp Hq Hi Hj Hne. destruct (decide (p = q)) as [->|Hpq].
  - unfold apart. lia.
  - pose proof (pages_apart _ _ _ Hp Hq Hpq) as Ha. unfold apart in *. lia.
Qed.

(** Storing an entry of a table. *)
Lemma pgwf_store s pgdir tb fl a t v :
  pgwf s pgdir tb fl → tb (PDX a) = Some t →
  let m' := mput (t + 4 * PTX a) (le_bytes 4 v) (kmm s) in
  pgwf (Kmem (use_lock s) (freelist s) m') pgdir tb fl ∧
  (∀ va, pte_of m' pgdir va =
    if decide (PDX va = PDX a ∧ PTX va = PTX a) then Some (u32 v) else pte_of (kmm s) pgdir va) ∧
  (∀ b n, mapped (kmm s) b n → mapped m' b n).
Proof.
  intros Hw Ht m'. pose proof (PDX_range a) as Hr. pose proof (PTX_range a) as Hx.
  destruct (pw_some _ _ _ _ Hw _ _ Hr Ht) as (_ & _ & Hpt & Hmt & Htd & Htf).
  pose proof Hw as [[Hc Hok Hnd Hpg] Hm (Hd1 & Hd2 & Hd3) Hn Hs Hi].
  assert (Hdir : ∀ i, 0 <= i < 1024 → word m' (pgdir + 4 * i) = word (kmm s) (pgdir + 4 * i)).
  { intros i Hi'. apply word_other. rewrite le_bytes_length. apply words_apart; auto. }
  assert (Hmap : ∀ b n, mapped (kmm s) b n → mapped m' b n) by (intros; by apply mapped_mput).
  assert (Hw' : pgwf (Kmem (use_lock s) (freelist s) m') pgdir tb fl).
  { split; cbn [kmm].
    - split; cbn [kmm freelist]; [|done|done|by eauto].
      apply (chain_frame end_ _ _ _ _ _ t); auto; [lia|rewrite le_bytes_length; lia].
    - apply mem_ok_mput; [done|apply le_bytes_ok].
    - eauto.
    - intros i Hi' Hb. rewrite Hdir by done. by apply Hn.
    - intros i t' Hi' Hb. rewrite Hdir by done.
      destruct (Hs i t' Hi' Hb) as (? & ? & ? & ? & ? & ?). split_and!; eauto.
    - done. }
  split_and!; [exact Hw'| |exact Hmap].
  intros va. pose proof (pte_of_tb _ _ _ _ va Hw') as E1. cbn [kmm] in E1. rewrite E1, (pte_of_tb _ _ _ _ va Hw).
  pose proof (PDX_range va) as Hrv. pose proof (PTX_range va) as Hxv. case_decide as Heq.
  - destruct Heq as [-> ->]. rewrite Ht. unfold m'. by rewrite word_same.
  - destruct (tb (PDX va)) as [t'|] eqn:E; [|done]. f_equal. apply word_other. rewrite le_bytes_length.
    destruct (Hs _ _ Hrv E) as (_ & _ & Hpt' & _). apply words_apart; auto.
    destruct (decide (t = t')) as [->|]; [right|by left]. intros Hxe. apply Heq. split; [|done]. by eapply Hi.
Qed.

(** The entry [walkpgdir] stores in the directory. *)
Lemma new_pde t :
  page_ok end_ t → let e := Z.lor (Z.lor (Z.lor (V2P t) PTE_P) PTE_W) PTE_U in
  u32 e = e ∧ has e PTE_P = true ∧ P2V (PTE_ADDR e) = t.
Proof.
  intros (H1 & _ & H2) e. unfold V2P, P2V, KERNBASE, PHYSTOP, PGSIZE in *.
  assert (Hv : u32 (t - 2147483648) = t - 2147483648) by (apply u32_id; lia).
  assert (He : e = Z.lor (Z.lor (t - 2147483648) 6) PTE_P).
  { unfold e. unfold V2P, KERNBASE. rewrite Hv. unfold PTE_P, PTE_W, PTE_U. by rewrite <- !Z.lor_assoc. }
  destruct (new_pte (t - 2147483648) 6) as (Hr & Hp & Ha & _); [dlia|lia|lia|].
  rewrite He. rewrite Ha. split_and!; [by apply u32_id|done|]. rewrite u32_id by lia. lia.
Qed.

(** Putting a fresh, zeroed page in as the table for directory entry [i]. *)
Lemma pgwf_new_table s pgdir tb fl t i z e :
  pgwf s pgdir tb (t :: fl) → 0 <= i < 1024 → tb i = None →
  z = replicate 4096 0 → e = Z.lor (Z.lor (Z.lor (V2P t) PTE_P) PTE_W) PTE_U →
  ∀ s1, free_list end_ s1 fl → kmm s1 = kmm s →
  let m1 := mput t z (kmm s1) in
  let m2 := mput (pgdir + 4 * i) (le_bytes 4 e) m1 in
  let tb' := λ j, if decide (j = i) then Some t else tb j in
  pgwf (Kmem (use_lock s1) (freelist s1) m2) pgdir tb' fl ∧
  (∀ va, pte_of m2 pgdir va = if decide (PDX va = i) then Some 0 else pte_of (kmm s) pgdir va) ∧
  (∀ b n, mapped (kmm s) b n → mapped m2 b n).
Proof.
  intros Hw Hi Hnone Hz Hedef s1 Hf1 Hk m1 m2 tb'.
  assert (Hzl : Z.of_nat (length z) = 4096) by (by rewrite Hz, length_replicate).
  assert (Hzok : bytes_ok z) by (rewrite Hz; by apply Forall_replicate).
  assert (Hzw : ∀ x, t <= x → x + 4 <= t + 4096 → word m1 x = 0).
  { intros x H1 H2. unfold m1. rewrite Hz. apply word_zero; lia. }
  clear Hz.
  pose proof Hw as [[_ Hok Hnd Hpg] Hm (Hd1 & Hd2 & Hd3) Hn Hs Hinj].
  apply Forall_cons in Hok as [Ht Hok]. apply NoDup_cons in Hnd as [Htf Hnd].
  apply not_elem_of_cons in Hd3 as [Hdt Hdf].
  assert (Htm : mapped (kmm s) t 4096) by (apply Hpg; by left).
  assert (Hne : ∀ j t', 0 <= j < 1024 → tb j = Some t' → t' ≠ t).
  { intros j t' Hj E. destruct (Hs _ _ Hj E) as (_&_&_&_&_&Hx). by apply not_elem_of_cons in Hx as [? _]. }
  destruct (new_pde t Ht) as (He & HP & Ha). rewrite <- Hedef in He, HP, Ha. clear Hedef.
  assert (Hwd : ∀ p j, page_ok end_ p → 0 <= j < 1024 → p ≠ t → p ≠ pgdir ∨ j ≠ i →
    word m2 (p + 4 * j) = word (kmm s) (p + 4 * j)).
  { intros p j Hp Hj Hpt Hpd. unfold m2. rewrite word_other by (rewrite le_bytes_length; apply words_apart; auto; destruct Hpd; auto).
    unfold m1. rewrite word_other, Hk; [done|].
    pose proof (pages_apart _ _ _ Ht Hp ltac:(congruence)) as Hap. unfold apart in *. lia. }
  assert (Hmap : ∀ b n, mapped (kmm s) b n → mapped m2 b n).
  { intros. unfold m2, m1. rewrite Hk. by do 2 apply mapped_mput. }
  assert (Hi_word : word m2 (pgdir + 4 * i) = e) by (unfold m2; by rewrite word_same).
  assert (Hw' : pgwf (Kmem (use_lock s1) (freelist s1) m2) pgdir tb' fl).
  { split; cbn [kmm].
    - destruct Hf1 as [Hc1 _ _ Hpg1]. split; cbn [kmm freelist]; [|done|done|].
      + unfold m2. apply (chain_frame end_ _ _ _ _ _ pgdir); auto; [lia|rewrite le_bytes_length; lia|].
        unfold m1. apply (chain_frame end_ _ _ _ _ _ t); auto; [lia|lia].
      + intros v Hv. apply Hmap. rewrite <- Hk. by apply Hpg1.
    - unfold m2, m1. apply mem_ok_mput; [|apply le_bytes_ok]. apply mem_ok_mput; [by rewrite Hk|done].
    - eauto.
    - intros j Hj. unfold tb'. case_decide; [done|]. intros E.
      rewrite Hwd by (auto || congruence). by apply Hn.
    - intros j t' Hj. unfold tb'. case_decide as Hji.
      + intros [= <-]. subst j. rewrite Hi_word. split_and!; auto.
      + intros E. rewrite Hwd by (auto || congruence).
        destruct (Hs _ _ Hj E) as (? & ? & ? & ? & ? & Hx). apply not_elem_of_cons in Hx as [? ?].
        split_and!; auto.
    - intros j k t' Hj Hk'. unfold tb'. repeat case_decide; intros E1 E2.
      + congruence.
      + injection E1 as <-. by apply Hne in E2.
      + injection E2 as <-. by apply Hne in E1.
      + by eapply Hinj. }
  split_and!; [exact Hw'| |exact Hmap].
  intros va. pose proof (pte_of_tb _ _ _ _ va Hw') as E1. cbn [kmm] in E1. rewrite E1, (pte_of_tb _ _ _ _ va Hw).
  pose proof (PDX_range va) as Hrv. pose proof (PTX_range va) as Hxv. unfold tb'. case_decide as Hvi.
  - f_equal. unfold m2. rewrite word_other.
    + apply Hzw; lia.
    + rewrite le_bytes_length. apply words_apart; auto.
  - destruct (tb (PDX va)) as [t'|] eqn:E; [|done]. f_equal. destruct (Hs _ _ Hrv E) as (_ & _ & ? & _ & ? & _).
    apply Hwd; auto. by apply (Hne (PDX va)).
Qed.

(** Where the entry for [va] is, after [walkpgdir] made sure it exists. *)
Lemma walkpgdir_alloc s pgdir tb fl va (Q : Z → kmem → Prop) :
  pgwf s pgdir tb fl →
  (fl = [] → tb (PDX va) = None → Q 0 s) →
  (∀ s' tb' fl' t, pgwf s' pgdir tb' fl' → tb' (PDX va) = Some t →
     (∀ v, pte_of (kmm s') pgdir v = if decide (PDX v = PDX va) then Some (default 0 (pte_of (kmm s) pgdir v))
                                     else pte_of (kmm s) pgdir v) →
     (length fl' <= length fl)%nat → suffix fl' fl → Q (t + 4 * PTX va) s') →
  wp (walkpgdir pgdir va true) Q s.
Proof.
  intros Hw Hfail Hok. pose proof (PDX_range va) as Hr. pose proof (PTX_range va) as Hx.
  pose proof Hw as [Hf Hm (Hd1 & Hd2 & Hd3) Hn Hs Hinj].
  unfold walkpgdir. rewrite wp_bind, wp_liftm. apply wp_load32; [by apply mapped_word|].
  assert (Es : Kmem (use_lock s) (freelist s) (kmm s) = s) by by destruct s. rewrite Es.
  destruct (tb (PDX va)) as [t|] eqn:E.
  - destruct (Hs _ _ Hr E) as (HP & Ha & _). rewrite HP, Ha, wp_ret.
    apply (Hok s tb fl t); [done|done| |done|done]. intros v. case_decide as Hv; [|done].
    rewrite (pte_of_tb _ _ _ _ v Hw), Hv, E. done.
  - rewrite (Hn _ Hr E). cbn [negb]. rewrite wp_bind. eapply wp_mono; [by apply kalloc_spec|].
    destruct fl as [|t fl]; intros r s1 (Hk & Hu & -> & Hf1).
    + rewrite Z.eqb_refl, wp_ret. destruct s, s1. cbn in *. pose proof (fl_chain _ _ _ Hf) as Hc1.
      pose proof (fl_chain _ _ _ Hf1) as Hc2. cbn in Hc1, Hc2. subst. by apply Hfail.
    + pose proof (fl_ok _ _ _ Hf) as Hfo. apply Forall_cons in Hfo as [Ht _].
      rewrite (proj2 (Z.eqb_neq t 0)) by (destruct Ht as (_ & _ & Ht); unfold KERNBASE in Ht; lia).
      assert (Htm : mapped (kmm s1) t 4096) by (rewrite Hk; apply (fl_pages _ _ _ Hf); by left).
      rewrite wp_bind, wp_liftm.
      eapply wp_intro; [apply memset_correct; [unfold PGSIZE; lia|exact Htm]|].
      change (u8 0) with 0. rewrite wp_bind, wp_liftm. cbn [use_lock freelist kmm].
      apply store32_spec; [apply mapped_mput, mapped_word; [by rewrite Hk|done]|]. rewrite wp_ret.
      destruct (pgwf_new_table s pgdir tb fl t (PDX va) _ _ Hw Hr E eq_refl eq_refl s1 Hf1 Hk) as (Hw2 & Hp2 & _).
      eapply Hok; [exact Hw2|cbn beta; by rewrite decide_True| |simpl; lia|by exists [t]].
      intros v. cbn [kmm]. rewrite Hp2. case_decide as Hv; [|done].
      by rewrite (pte_of_tb _ _ _ _ v Hw), Hv, E.
Qed.

Definition present (m : mem) (pgdir va : Z) : bool :=
  match pte_of m pgdir va with Some e => has e PTE_P | None => false end.

Lemma translate_pte m m' pgdir va :
  (pte_of m' pgdir va = pte_of m pgdir va ∨
   pte_of m' pgdir va = Some (default 0 (pte_of m pgdir va))) →
  translate m' pgdir va = translate m pgdir va ∧ present m' pgdir va = present m pgdir va.
Proof.
  unfold translate, present. intros [->| ->]; [done|]. by destruct (pte_of m pgdir va).
Qed.

(** One round of [mappages]. *)
Lemma map_one s pgdir tb fl a pa perm (Q : Z → kmem → Prop) (k : M kmem Z) :
  pgwf s pgdir tb fl → present (kmm s) pgdir a = false →
  pa mod 4096 = 0 → 0 <= pa < 4294967296 → 0 <= perm < 4096 →
  (∀ s', fl = [] → s' = s → Q (-1) s') →
  (∀ s' tb' fl', pgwf s' pgdir tb' fl' → suffix fl' fl →
     (∀ v, translate (kmm s') pgdir v =
        if decide (PDX v = PDX a ∧ PTX v = PTX a) then Some (pa + v mod PGSIZE, Z.lor perm PTE_P)
        else translate (kmm s) pgdir v) →
     (∀ v, present (kmm s') pgdir v =
        if decide (PDX v = PDX a ∧ PTX v = PTX a) then true else present (kmm s) pgdir v) →
     wp k Q s') →
  wp (pte ← walkpgdir pgdir a true;
      if pte =? 0 then mret (-1) else
      e ← liftm (load32 pte);
      if has e PTE_P then panic "remap" else
      liftm (store32 pte (Z.lor (Z.lor pa perm) PTE_P)) ;; k) Q s.
Proof.
  intros Hw Hnp Hal Hpa Hpe Hfail Hok. rewrite wp_bind. eapply walkpgdir_alloc; [exact Hw|..].
  { intros -> _. cbn [Z.eqb]. rewrite wp_ret. by apply Hfail. }
  intros s1 tb1 fl1 t Hw1 Ht Hp1 _ Hsuf.
  pose proof (PDX_range a) as Hr. pose proof (PTX_range a) as Hx.
  destruct (pw_some _ _ _ _ Hw1 _ _ Hr Ht) as (_ & _ & Hpt & Hmt & _ & _).
  assert (Htr1 : ∀ v, translate (kmm s1) pgdir v = translate (kmm s) pgdir v ∧
    present (kmm s1) pgdir v = present (kmm s) pgdir v).
  { intros v. apply translate_pte. rewrite Hp1. case_decide; auto. }
  rewrite (proj2 (Z.eqb_neq _ 0)) by (destruct Hpt as (_ & _ & ?); unfold KERNBASE in *; lia).
  rewrite wp_bind, wp_liftm. apply wp_load32; [by apply mapped_word|].
  assert (Es : Kmem (use_lock s1) (freelist s1) (kmm s1) = s1) by by destruct s1. rewrite Es.
  assert (Hold : has (word (kmm s1) (t + 4 * PTX a)) PTE_P = false).
  { destruct (Htr1 a) as [_ Hpr]. rewrite Hnp in Hpr. unfold present in Hpr.
    by rewrite (pte_of_tb _ _ _ _ a Hw1), Ht in Hpr. }
  rewrite Hold, wp_bind, wp_liftm. apply store32_spec; [by apply mapped_word|].
  destruct (new_pte pa perm Hal Hpa Hpe) as (Her & HeP & Hea & Hef).
  destruct (pgwf_store s1 pgdir tb1 fl1 a t (Z.lor (Z.lor pa perm) PTE_P) Hw1 Ht) as (Hw2 & Hp2 & _).
  rewrite u32_id in Hp2 by done.
  eapply Hok; [exact Hw2|done|..]; intros v; cbn [kmm]; destruct (Htr1 v) as [E1 E2]; revert E1 E2;
    unfold translate, present; rewrite Hp2; case_decide; [|done|by rewrite HeP|done].
  rewrite HeP, Hea, Hef. done.
Qed.

(** [n + 1] pages from [a] on. *)
Definition in_range (a : Z) (n : nat) (v : Z) : Prop := a <= v < a + PGSIZE * Z.of_nat (S n).

#[export] Instance in_range_dec a n v : Decision (in_range a n v).
Proof. unfold in_range. apply _. Defined.

Lemma same_page_in v a : a mod 4096 = 0 → 0 <= a < 4294967296 → 0 <= v < 4294967296 →
  PDX v = PDX a ∧ PTX v = PTX a ↔ a <= v < a + 4096.
Proof. intros. rewrite same_page by done. dlia. Qed.

Lemma mappages_loop_spec n s pgdir tb fl a pa perm fuel (Q : Z → kmem → Prop) :
  (n < fuel)%nat → pgwf s pgdir tb fl →
  a mod 4096 = 0 → 0 <= a → a + PGSIZE * Z.of_nat (S n) <= 4294967296 →
  pa mod 4096 = 0 → 0 <= pa → pa + PGSIZE * Z.of_nat (S n) <= 4294967296 → 0 <= perm < 4096 →
  (∀ v, in_range a n v → present (kmm s) pgdir v = false) →
  (∀ s' tb', pgwf s' pgdir tb' [] → Q (-1) s') →
  (∀ s' tb' fl', pgwf s' pgdir tb' fl' → suffix fl' fl →
     (∀ v, 0 <= v < 4294967296 → translate (kmm s') pgdir v =
        if decide (in_range a n v) then Some (pa + (v - a), Z.lor perm PTE_P)
        else translate (kmm s) pgdir v) → Q 0 s') →
  wp (mappages_loop fuel pgdir a (a + PGSIZE * Z.of_nat n) pa perm) Q s.
Proof.
  revert s tb fl a pa fuel. induction n as [|n IH]; intros s tb fl a pa [|fuel] Hfu Hw Ha1 Ha2 Ha3 Hp1 Hp2 Hp3
    Hpe Hnp Hfail Hok; try lia; cbn [mappages_loop]; unfold PGSIZE in Ha3, Hp3.
  all: eapply map_one; [exact Hw|apply Hnp; unfold in_range, PGSIZE; lia|done|lia|done| |].
  all: try (intros s' -> ->; by eapply Hfail).
  - intros s' tb' fl' Hw' Hsuf Htr _. rewrite (proj2 (Z.eqb_eq _ _)) by lia. rewrite wp_ret.
    eapply Hok; [exact Hw'|done|]. intros v Hv. rewrite Htr. unfold in_range, PGSIZE.
    pose proof (same_page_in v a ltac:(lia) ltac:(lia) Hv) as Hsp.
    destruct (decide (PDX v = PDX a ∧ PTX v = PTX a)) as [H|H]; rewrite Hsp in H.
    + rewrite decide_True by lia. do 2 f_equal. dlia.
    + by rewrite decide_False by lia.
  - intros s' tb' fl' Hw' Hsuf Htr Hpr. rewrite (proj2 (Z.eqb_neq _ _)) by (unfold PGSIZE; lia).
    replace (u32 (a + PGSIZE)) with (a + 4096) by (unfold PGSIZE; rewrite u32_id; lia).
    replace (u32 (pa + PGSIZE)) with (pa + 4096) by (unfold PGSIZE; rewrite u32_id; lia).
    replace (a + PGSIZE * Z.of_nat (S n)) with (a + 4096 + PGSIZE * Z.of_nat n) by (unfold PGSIZE; lia).
    eapply (IH s' tb' fl'); [lia|done|dlia|lia|unfold PGSIZE; lia|dlia|lia|unfold PGSIZE; lia|done| |done|].
    + intros v Hv. unfold in_range, PGSIZE in Hv. rewrite Hpr.
      pose proof (same_page_in v a ltac:(lia) ltac:(lia) ltac:(lia)) as Hsp.
      rewrite decide_False by (rewrite Hsp; lia). apply Hnp. unfold in_range, PGSIZE. lia.
    + intros s2 tb2 fl2 Hw2 Hsuf2 Htr2. eapply Hok; [exact Hw2|by etrans|]. intros v Hv.
      rewrite Htr2, Htr by done. unfold in_range, PGSIZE.
      pose proof (same_page_in v a ltac:(lia) ltac:(lia) Hv) as Hsp.
      destruct (decide (a + 4096 <= v < _)).
      * rewrite decide_True by lia. do 2 f_equal. lia.
      * destruct (decide (PDX v = PDX a ∧ PTX v = PTX a)) as [H|H]; rewrite Hsp in H.
        -- rewrite decide_True by lia. do 2 f_equal. dlia.
        -- by rewrite decide_False by lia.
Qed.

(** C9: [mappages] maps exactly the pages that [va .. va+size-1] touches.  On
    success the MMU translates every address of those pages to the
    corresponding address from [pa] on with the given permissions, and every
    other translation is as before; the call fails (-1) only when no free page
    is left for a page table.  It always returns. *)
Theorem mappages_correct s pgdir tb fl va size pa perm
    (a := PGROUNDDOWN va) (last := PGROUNDDOWN (va + size - 1)) :
  pgwf s pgdir tb fl → 0 <= va → 0 < size → va + size <= 4294967296 →
  pa mod 4096 = 0 → 0 <= pa → pa + (last - a) + 4096 <= 4294967296 → 0 <= perm < 4096 →
  (∀ v, a <= v < last + 4096 → present (kmm s) pgdir v = false) →
  ∃ r s' tb' fl', mappages pgdir va size pa perm s = Ret r s' ∧ pgwf s' pgdir tb' fl' ∧
    ((r = -1 ∧ fl' = []) ∨
     (r = 0 ∧ ∀ v, 0 <= v < 4294967296 → translate (kmm s') pgdir v =
        if decide (a <= v < last + 4096) then Some (pa + (v - a), Z.lor perm PTE_P)
        else translate (kmm s) pgdir v)).
Proof.
  intros Hw Hva Hsz Hend Hpa Hpa0 Hpaend Hpe Hnp.
  assert (Ha : a = va / 4096 * 4096) by (apply PGROUNDDOWN_spec; lia).
  assert (Hl : last = (va + size - 1) / 4096 * 4096) by (apply PGROUNDDOWN_spec; lia).
  set (n := Z.to_nat ((last - a) / 4096)).
  assert (Hn : last = a + PGSIZE * Z.of_nat n).
  { unfold n, PGSIZE. rewrite Z2Nat.id by dlia. dlia. }
  assert (Hab : a mod 4096 = 0 ∧ 0 <= a ∧ last + 4096 <= 4294967296) by (rewrite Ha, Hl; dlia).
  destruct Hab as (Ha1 & Ha2 & Ha3).
  assert (Hw2 : wp (mappages pgdir va size pa perm) (λ r s', ∃ tb' fl', pgwf s' pgdir tb' fl' ∧
    ((r = -1 ∧ fl' = []) ∨
     (r = 0 ∧ ∀ v, 0 <= v < 4294967296 → translate (kmm s') pgdir v =
        if decide (in_range a n v) then Some (pa + (v - a), Z.lor perm PTE_P)
        else translate (kmm s) pgdir v))) s).
  { unfold mappages. fold a last. rewrite Hn.
    replace (a + PGSIZE * Z.of_nat n - a) with (PGSIZE * Z.of_nat n) by lia.
    eapply (mappages_loop_spec n s pgdir tb fl); try done; unfold PGSIZE in *; try lia.
    - rewrite u32_id by lia. rewrite Z.mul_comm, Z.div_mul by lia. lia.
    - intros v Hv. apply Hnp. unfold in_range, PGSIZE in Hv. lia.
    - intros s' tb' Hw'. exists tb', []. auto.
    - intros s' tb' fl' Hw' _ Htr. exists tb', fl'. auto. }
  apply wp_elim in Hw2 as (r & s' & Hrun & tb' & fl' & Hw' & Hres).
  exists r, s', tb', fl'. split_and!; [done..|]. destruct Hres as [?|[-> Htr]]; [by left|right].
  split; [done|]. intros v Hv. rewrite Htr by done. apply decide_ext. unfold in_range. rewrite Hn.
  unfold PGSIZE. lia.
Qed.

(** A page directory that is all zeroes translates nothing. *)
Lemma fresh_pgdir s p fl :
  free_list end_ s (p :: fl) → mem_ok (kmm s) →
  wp (r ← kalloc; liftm (memset r 0 PGSIZE) ;; mret r)
    (λ r s', r = p ∧ pgwf s' p (λ _, None) fl ∧ (∀ v, pte_of (kmm s') p v = None) ∧
      ∀ x, x < p → kmm s' !! x = kmm s !! x) s.
Proof.
  intros Hf Hm. rewrite wp_bind. eapply wp_mono; [by apply kalloc_spec|]. intros r s1 (Hk & _ & -> & Hf1).
  pose proof (fl_ok _ _ _ Hf) as Hok. apply Forall_cons in Hok as [Hp _].
  pose proof (fl_nodup _ _ _ Hf) as Hnd. apply NoDup_cons in Hnd as [Hni _].
  assert (Hpm : mapped (kmm s) p 4096) by (apply (fl_pages _ _ _ Hf); by left).
  rewrite wp_bind, wp_liftm. eapply wp_intro; [apply memset_correct; [unfold PGSIZE; lia|by rewrite Hk]|].
  change (u8 0) with 0. rewrite wp_ret, Hk. change (Z.to_nat PGSIZE) with 4096%nat.
  assert (Hz : ∀ i, 0 <= i < 1024 → word (mput p (replicate 4096 0) (kmm s)) (p + 4 * i) = 0).
  { intros i Hi. apply word_zero; lia. }
  split_and!; [done|..].
  - destruct Hf1 as [Hc1 Hok1 Hnd1 Hpg1]. rewrite Hk in *. split; cbn [kmm].
    + split; cbn [kmm freelist]; [|done|done|intros v Hv; by apply mapped_mput, Hpg1].
      apply (chain_frame end_ _ _ _ _ _ p); try done; rewrite length_replicate; lia.
    + apply mem_ok_mput; [done|by apply Forall_replicate].
    + split_and!; [done|by apply mapped_mput|done].
    + intros i Hi _. by rewrite Hz.
    + done.
    + done.
  - intros v. unfold pte_of. cbn [kmm]. rewrite Hz by apply PDX_range. done.
  - intros x Hx. cbn [kmm]. rewrite mput_lookup, decide_False by lia. done.
Qed.
End tables.

(** [walkpgdir] without [alloc] only reads. *)
Lemma walkpgdir_noalloc end_ s pgdir tb fl va :
  pgwf end_ s pgdir tb fl →
  walkpgdir pgdir va false s =
    Ret (match tb (PDX va) with Some t => t + 4 * PTX va | None => 0 end) s.
Proof.
  intros Hw. pose proof (PDX_range va) as Hr. pose proof Hw as [Hf Hm (Hd1 & Hd2 & Hd3) Hn Hs Hinj].
  assert (Hwp : wp (walkpgdir pgdir va false) (λ r s',
    r = match tb (PDX va) with Some t => t + 4 * PTX va | None => 0 end ∧ s' = s) s).
  { unfold walkpgdir. rewrite wp_bind, wp_liftm. apply wp_load32; [by apply mapped_word|].
    assert (Es : Kmem (use_lock s) (freelist s) (kmm s) = s) by by destruct s. rewrite Es.
    destruct (tb (PDX va)) as [t|] eqn:E.
    - destruct (Hs _ _ Hr E) as (-> & -> & _). by rewrite wp_ret.
    - rewrite (Hn _ Hr E). cbn [negb]. by rewrite wp_ret. }
  apply wp_elim in Hwp as (r & s' & Hrun & -> & ->). exact Hrun.
Qed.

(** [uva2ka] on an address whose page table does not exist reads through
    the null pointer [walkpgdir] returned: with nothing mapped at address 0
    of the kernel's memory the read faults instead of reporting the address
    as unmapped. *)
Theorem uva2ka_null_pte end_ s pgdir tb fl uva :
  pgwf end_ s pgdir tb fl → tb (PDX uva) = None → kmm s !! 0 = None →
  uva2ka pgdir uva s = Fault.
Proof.
  intros Hw Ht H0. unfold uva2ka. rewrite (bind_Ret _ _ _ _ _ (walkpgdir_noalloc _ _ _ _ _ uva Hw)), Ht.
  unfold mbind, M_bind, liftm, load32, load, mbind, M_bind. change (u32 0) with 0. by rewrite H0.
Qed.

(** ** Concrete pages *)

Definition example_region : mem := mput 0x80200000 (replicate (Z.to_nat 12288) 0) ∅.
Definition example_pages : list Z := [0x80202000; 0x80201000; 0x80200000].

Lemma example_region_mapped v : v ∈ example_pages → mapped example_region v 4096.
Proof.
  intros Hv. assert (Hr : 0x80200000 <= v ∧ v + 4096 <= 0x80200000 + 12288).
  { unfold example_pages in Hv. rewrite !elem_of_cons in Hv. destruct Hv as [->|[->|[->|Hv]]]; try lia.
    by apply elem_of_nil in Hv. }
  split_and!; [lia|lia|]. intros k Hk. unfold example_region.
  rewrite mput_lookup, length_replicate, decide_True by lia. rewrite lookup_replicate_2 by lia. eauto.
Qed.

Lemma example_mem_ok : mem_ok example_region.
Proof.
  unfold example_region. apply mem_ok_mput; [|apply Forall_replicate; unfold is_u8; lia].
  intros a v. by rewrite lookup_empty.
Qed.

Lemma mem_ok_kfree end_ v s s' : mem_ok (kmm s) → mapped (kmm s) v 4096 → kfree end_ v s = Ret tt s' → mem_ok (kmm s').
Proof.
  intros Hm Hmp. unfold kfree. destruct (_ || _); [done|]. unfold mbind, M_bind, liftm at 1.
  rewrite (memset_correct (kmm s) v 1 PGSIZE) by (unfold PGSIZE; done || lia).
  unfold gets, liftm. cbn [kmm freelist use_lock]. change (Z.to_nat PGSIZE) with 4096%nat.
  generalize (Forall_replicate is_u8 4096 (u8 1) (u8_range 1)).
  generalize (replicate 4096 (u8 1)) as z. intros z Hz.
  assert (Hw : wp (store32 v (freelist s)) (λ _ m, mem_ok m) (mput v z (kmm s))).
  { apply store32_spec; [|apply mem_ok_mput; [by apply mem_ok_mput|apply le_bytes_ok]].
    apply mapped_mput. apply (mapped_word _ v 0) in Hmp; [|lia]. by rewrite Z.add_0_r in Hmp. }
  unfold wp in Hw. destruct (store32 v (freelist s) (mput v z (kmm s))) as [[] m| | | |]; [|done..].
  unfold set_freelist, modify. by intros [= <-].
Qed.

Lemma example_free : ∃ s, free_list KERNLINK s example_pages ∧ mem_ok (kmm s) ∧ kmm s !! 0 = None.
Proof.
  assert (Hok : ∀ v, v ∈ example_pages → page_ok KERNLINK v).
  { intros v Hv. unfold example_pages in Hv. rewrite !elem_of_cons in Hv.
    unfold page_ok, KERNLINK, KERNBASE, EXTMEM, PHYSTOP, PGSIZE.
    destruct Hv as [->|[->|[->|Hv]]]; [split_and!; [done|lia..]..|by apply elem_of_nil in Hv]. }
  assert (Hadd : ∀ l v s, free_list KERNLINK s l → mem_ok (kmm s) → v ∉ l → v ∈ example_pages →
    mapped (kmm s) v 4096 → ∃ s', free_list KERNLINK s' (v :: l) ∧ mem_ok (kmm s') ∧
      (∀ a n, mapped (kmm s) a n → mapped (kmm s') a n) ∧ kmm s' !! 0 = kmm s !! 0).
  { intros l v s Hf Hm Hni Hin Hmp. pose proof (kfree_spec KERNLINK s l v Hf (Hok v Hin) Hni Hmp) as Hw.
    rewrite wp_elim in Hw. destruct Hw as (u & s' & Hrun & Hf' & _ & Hfr & _ & Hmap). destruct u.
    exists s'. split_and!; [exact Hf'|by eapply mem_ok_kfree|exact Hmap|]. apply Hfr.
    destruct (Hok v Hin) as (_ & _ & ?). unfold KERNBASE in *. lia. }
  pose proof example_region_mapped as Hmp. unfold example_pages in *.
  destruct (Hadd [] 0x80200000 (Kmem 0 0 example_region)) as (s1 & Hf1 & Hm1 & Hk1 & Hz1).
  { split; [done|constructor|constructor|]. intros v Hv. by apply elem_of_nil in Hv. }
  { exact example_mem_ok. }
  { apply not_elem_of_nil. }
  { right; right; left. }
  { apply Hmp. right; right; left. }
  destruct (Hadd _ 0x80201000 s1 Hf1 Hm1) as (s2 & Hf2 & Hm2 & Hk2 & Hz2).
  { rewrite list_elem_of_singleton. lia. }
  { right; left. }
  { apply Hk1, Hmp. right; left. }
  destruct (Hadd _ 0x80202000 s2 Hf2 Hm2) as (s3 & Hf3 & Hm3 & Hk3 & Hz3).
  { rewrite elem_of_cons, list_elem_of_singleton. lia. }
  { left. }
  { apply Hk2, Hk1, Hmp. left. }
  exists s3. split_and!; [exact Hf3|exact Hm3|]. rewrite Hz3, Hz2, Hz1. cbn [kmm].
  unfold example_region. rewrite mput_lookup, decide_False by lia. apply lookup_empty.
Qed.

(** An empty page directory and two free pages. *)
Lemma example_pgdir : ∃ s fl, pgwf KERNLINK s 0x80202000 (λ _, None) fl ∧
  kmm s !! 0 = None ∧ ∀ v, pte_of (kmm s) 0x80202000 v = None.
Proof.
  destruct example_free as (s & Hf & Hm & Hz). pose proof (fresh_pgdir KERNLINK s _ _ Hf Hm) as Hw.
  rewrite wp_elim in Hw. destruct Hw as (r & s' & _ & -> & Hw & Hp & Hfr).
  exists s', [0x80201000; 0x80200000]. split_and!; [exact Hw| |exact Hp]. by rewrite Hfr by lia.
Qed.

Lemma mappages_correct_witness :
  ∃ s r s', (∃ tb fl, pgwf KERNLINK s 0x80202000 tb fl) ∧
    mappages 0x80202000 0x1234 0x2000 0x300000 PTE_W s = Ret r s' ∧ (r = -1 ∨ r = 0).
Proof.
  destruct example_pgdir as (s & fl & Hw & _ & Hp).
  destruct (mappages_correct KERNLINK s 0x80202000 (λ _, None) fl 0x1234 0x2000 0x300000 PTE_W)
    as (r & s' & tb' & fl' & Hrun & _ & Hres); try done.
  - intros v _. unfold present. by rewrite Hp.
  - exists s, r, s'. split; [eauto|]. split; [exact Hrun|]. destruct Hres as [[-> _]|[-> _]]; auto.
Defined.

Lemma uva2ka_null_pte_witness : ∃ s, uva2ka 0x80202000 0x400000 s = Fault.
Proof.
  destruct example_pgdir as (s & fl & Hw & Hz & _). exists s.
  apply (uva2ka_null_pte KERNLINK s 0x80202000 (λ _, None) fl 0x400000 Hw eq_refl Hz).
Defined.
