(* ===== verification/Umalloc.v ===== *)
(** * The user programs' allocator: umalloc.c

    The memory of one process as its program sees it, with the program break.
    Free blocks are on a circular list in address order that starts at the
    static header [base]; a block is a header of 8 bytes (pointer and size in
    units of 8 bytes) and what follows it.  The theorem of this file is about
    any program that calls [malloc], [free] and [sbrk] and writes only to
    blocks it was given. *)

From stdpp Require Import sorting.
From S2P Require Import Prelude Param StringC Kalloc Vm.

(** [freep], the size of the process and its memory. *)
Record uheap := UHeap { u_freep : Z; u_brk : Z; u_mem : mem }.

Definition liftu {A} (f : M mem A) : M uheap A :=
  λ s, match f (u_mem s) with
       | Ret a m => Ret a (UHeap (u_freep s) (u_brk s) m)
       | Panic msg => Panic msg
       | Fault => Fault
       | Block => Block
       | Diverge => Diverge
       end.

Lemma wp_liftu {A} (f : M mem A) (Q : A → uheap → Prop) s :
  wp (liftu f) Q s ↔ wp f (λ a m, Q a (UHeap (u_freep s) (u_brk s) m)) (u_mem s).
Proof. unfold wp, liftu. by destruct (f (u_mem s)). Qed.

(** [sizeof(Header)], and the fields of a header. *)
Definition HDR : Z := 8.
Definition h_ptr (p : Z) : M uheap Z := liftu (load32 p).
Definition h_size (p : Z) : M uheap Z := liftu (load32 (u32 (p + 4))).
Definition set_h_ptr (p v : Z) : M uheap unit := liftu (store32 p v).
Definition set_h_size (p v : Z) : M uheap unit := liftu (store32 (u32 (p + 4)) v).
Definition set_freep (p : Z) : M uheap unit := modify (λ s, UHeap p (u_brk s) (u_mem s)).
(** [p + n] for [Header *p]. *)
Definition hdr_at (p n : Z) : Z := u32 (p + HDR * n).

(** [n] bytes from [a] on are taken away. *)
Definition unmap (a : Z) (n : nat) (m : mem) : mem :=
  foldr (λ k m, delete (a + Z.of_nat k) m) m (seq 0 n).

Section umalloc.
(** The address of [base]; whether the kernel has the memory for a larger
    process, given the break and the growth; what new memory contains. *)
Context (base : Z) (more : Z → Z → bool) (junk : Z → Z).

(** The system call [sbrk] as the process sees it: [sys_sbrk] (sysproc.c) and
    [growproc] (proc.c). *)
Definition sbrk (n : Z) : M uheap Z :=
  s ← get;
  let sz := u_brk s in
  let newsz := u32 (sz + n) in
  if 0 <? n then
    if (KERNBASE <=? newsz) || negb (more sz n) then mret (u32 (-1)) else
    if newsz <? sz then mret sz else
    modify (λ s, UHeap (u_freep s) newsz (mput sz ((λ k, u8 (junk (sz + Z.of_nat k))) <$> seq 0 (Z.to_nat n)) (u_mem s))) ;;
    mret sz
  else if n <? 0 then
    if sz <=? newsz then mret sz else
    modify (λ s, UHeap (u_freep s) (if newsz =? 0 then sz else newsz) (unmap newsz (Z.to_nat (sz - newsz)) (u_mem s))) ;;
    mret (if newsz =? 0 then u32 (-1) else sz)
  else mret sz.

(** The search of [free] for the place of [bp] in the list. *)
Fixpoint free_loop (fuel : nat) (bp p : Z) : M uheap Z :=
  match fuel with
  | O => diverge
  | S fuel =>
      next ← h_ptr p;
      if (p <? bp) && (bp <? next) then mret p else
      if (next <=? p) && ((p <? bp) || (bp <? next)) then mret p else
      free_loop fuel bp next
  end.

(** The two ifs of [free]: join the block at [bp] to the one after it, and to
    the one at [p] before it. *)
Definition join_upper (bp p : Z) : M uheap unit :=
  size ← h_size bp;
  next ← h_ptr p;
  if hdr_at bp size =? next then
    nsize ← h_size next;
    set_h_size bp (u32 (size + nsize)) ;;
    nnext ← h_ptr next;
    set_h_ptr bp nnext
  else set_h_ptr bp next.
Definition join_lower (bp p : Z) : M uheap unit :=
  psize ← h_size p;
  if hdr_at p psize =? bp then
    size ← h_size bp;
    set_h_size p (u32 (psize + size)) ;;
    next ← h_ptr bp;
    set_h_ptr p next
  else set_h_ptr p bp.

(** [free]; a free block is at least one unit long, which bounds the search. *)
Definition free (ap : Z) : M uheap unit :=
  let bp := hdr_at ap (-1) in
  s ← get;
  p ← free_loop (Z.to_nat (u_brk s / HDR) + 2) bp (u_freep s);
  join_upper bp p ;;
  join_lower bp p ;;
  set_freep p.

Definition morecore (nu : Z) : M uheap Z :=
  let nu := if nu <? 4096 then 4096 else nu in
  p ← sbrk (i32 (u32 (nu * HDR)));
  if p =? u32 (-1) then mret 0 else
  set_h_size p nu ;;
  free (hdr_at p 1) ;;
  gets u_freep.

(** Take [nunits] from the block at [p], the one after [prevp]. *)
Definition take_block (nunits prevp p : Z) : M uheap Z :=
  size ← h_size p;
  p ← (if size =? nunits then next ← h_ptr p; set_h_ptr prevp next ;; mret p
       else
         set_h_size p (u32 (size - nunits)) ;;
         let p := hdr_at p (u32 (size - nunits)) in
         set_h_size p nunits ;;
         mret p);
  set_freep prevp ;;
  mret (hdr_at p 1).

Fixpoint malloc_loop (fuel : nat) (nunits prevp p : Z) : M uheap Z :=
  match fuel with
  | O => diverge
  | S fuel =>
      size ← h_size p;
      if nunits <=? size then take_block nunits prevp p else
      freep ← gets u_freep;
      if p =? freep then
        p ← morecore nunits;
        if p =? 0 then mret 0 else
        next ← h_ptr p;
        malloc_loop fuel nunits p next
      else
        next ← h_ptr p;
        malloc_loop fuel nunits p next
  end.

Definition units (nbytes : Z) : Z := u32 (nbytes + HDR - 1) / HDR + 1.

(** [malloc]: once around the list, and once more after [morecore]. *)
Definition malloc (nbytes : Z) : M uheap Z :=
  let nunits := units nbytes in
  s ← get;
  (if u_freep s =? 0 then
     set_freep base ;; set_h_ptr base base ;; set_h_size base 0
   else mret tt) ;;
  prevp ← gets u_freep;
  p ← h_ptr prevp;
  malloc_loop (2 * Z.to_nat (u_brk s / HDR) + 6) nunits prevp p.
End umalloc.

(** ** Headers *)

Implicit Types (s : uheap) (m : mem).

Definition with_mem s m : uheap := UHeap (u_freep s) (u_brk s) m.
Definition store_at (a v : Z) m : mem := mput a (le_bytes 4 v) m.

Lemma mapped_part m a n b k : mapped m a n → a <= b → b + Z.of_nat k <= a + Z.of_nat n → mapped m b k.
Proof.
  intros (H0 & H1 & Hm) Hb Hk. split_and!; [lia..|]. intros i Hi. specialize (Hm (Z.to_nat (b - a) + i)%nat ltac:(lia)).
  by replace (a + Z.of_nat (Z.to_nat (b - a) + i)) with (b + Z.of_nat i) in Hm by lia.
Qed.

Lemma wp_h_ptr s p (Q : Z → uheap → Prop) : mapped (u_mem s) p 8 → Q (word (u_mem s) p) s → wp (h_ptr p) Q s.
Proof.
  intros Hm HQ. unfold h_ptr. rewrite wp_liftu. apply wp_load32; [apply (mapped_part _ _ _ _ _ Hm); lia|]. by destruct s.
Qed.

Lemma wp_h_size s p (Q : Z → uheap → Prop) : mapped (u_mem s) p 8 → Q (word (u_mem s) (p + 4)) s → wp (h_size p) Q s.
Proof.
  intros Hm HQ. unfold h_size. pose proof Hm as (? & ? & _). rewrite u32_id, wp_liftu by lia.
  apply wp_load32; [apply (mapped_part _ _ _ _ _ Hm); lia|]. by destruct s.
Qed.

Lemma wp_set_h_ptr s p v (Q : unit → uheap → Prop) :
  mapped (u_mem s) p 8 → Q tt (with_mem s (store_at p v (u_mem s))) → wp (set_h_ptr p v) Q s.
Proof. intros Hm HQ. unfold set_h_ptr. rewrite wp_liftu. apply store32_spec; [apply (mapped_part _ _ _ _ _ Hm); lia|exact HQ]. Qed.

Lemma wp_set_h_size s p v (Q : unit → uheap → Prop) :
  mapped (u_mem s) p 8 → Q tt (with_mem s (store_at (p + 4) v (u_mem s))) → wp (set_h_size p v) Q s.
Proof.
  intros Hm HQ. unfold set_h_size. pose proof Hm as (? & ? & _). rewrite u32_id, wp_liftu by lia.
  apply store32_spec; [apply (mapped_part _ _ _ _ _ Hm); lia|exact HQ].
Qed.

Lemma mapped_store m a v b k : mapped m b k → mapped (store_at a v m) b k.
Proof. apply mapped_mput. Qed.

Lemma word_store_same m a v : 0 <= v < 4294967296 → word (store_at a v m) a = v.
Proof. intros Hv. unfold store_at. rewrite word_same. by apply u32_id. Qed.

Lemma word_store_other m a v b : a + 4 <= b ∨ b + 4 <= a → word (store_at a v m) b = word m b.
Proof. intros H. apply word_other. unfold apart. rewrite le_bytes_length. lia. Qed.

Lemma lookup_store_other m a v x : x < a ∨ a + 4 <= x → store_at a v m !! x = m !! x.
Proof. intros H. unfold store_at. rewrite mput_lookup, le_bytes_length, decide_False; [done|lia]. Qed.

(** [m'] is [m] with a new header at [p]. *)
Definition edits m m' (p : Z) : Prop :=
  (∀ x, x < p ∨ p + 8 <= x → m' !! x = m !! x) ∧ (∀ x, is_Some (m !! x) → is_Some (m' !! x)).

Lemma edits_store m a v p : p <= a → a + 4 <= p + 8 → edits m (store_at a v m) p.
Proof.
  intros H1 H2. split; [intros x Hx; apply lookup_store_other; lia|]. intros x Hx. unfold store_at. rewrite mput_lookup.
  case_decide as Hd; [|done]. apply lookup_lt_is_Some_2. lia.
Qed.

Lemma edits_trans m1 m2 m3 p : edits m1 m2 p → edits m2 m3 p → edits m1 m3 p.
Proof. intros [H1 D1] [H2 D2]. split; [intros x Hx; by rewrite H2, H1|auto]. Qed.

(** The header at [p] is ([next], [n]). *)
Definition header m (p next n : Z) : Prop := mapped m p 8 ∧ word m p = next ∧ word m (p + 4) = n.

Lemma header_ext m m' p next n :
  header m p next n → (∀ x, p <= x < p + 8 → m' !! x = m !! x) → header m' p next n.
Proof.
  intros (Hm & Hp & Hn) He. split_and!.
  - destruct Hm as (H0 & H1 & Hm). split_and!; [lia..|]. intros k Hk. rewrite He by lia. by apply Hm.
  - rewrite <- Hp. apply word_ext. intros k Hk. apply He. lia.
  - rewrite <- Hn. apply word_ext. intros k Hk. apply He. lia.
Qed.

(** ** Chains of blocks *)

Abbreviation blk := (Z * Z)%type.
Implicit Types (b q : blk) (l k : list blk).

Definition first_of l (stop : Z) : Z := match l with [] => stop | b :: _ => b.1 end.
Fixpoint links m l (stop : Z) : Prop :=
  match l with
  | [] => True
  | b :: l => header m b.1 (first_of l stop) b.2 ∧ links m l stop
  end.

Lemma first_of_app l k stop : first_of (l ++ k) stop = first_of l (first_of k stop).
Proof. by destruct l. Qed.

Lemma links_app m l k stop : links m (l ++ k) stop ↔ links m l (first_of k stop) ∧ links m k stop.
Proof. induction l as [|b l IH]; cbn [app links]; [tauto|]. rewrite first_of_app, IH. tauto. Qed.

Lemma links_ext m m' l stop :
  links m l stop → (∀ b, b ∈ l → ∀ x, b.1 <= x < b.1 + 8 → m' !! x = m !! x) → links m' l stop.
Proof.
  induction l as [|b l IH]; cbn [links]; [done|]. intros [Hb Hl] He. split.
  - apply (header_ext _ _ _ _ _ Hb). apply He. left.
  - apply IH; [done|]. intros c Hc. apply He. by right.
Qed.

(** Bytes a block takes; [base] has size 0 but its header is there. *)
Definition room b : Z := HDR * Z.max 1 b.2.
Definition below_blk b q : Prop := b.1 + room b <= q.1.
Abbreviation ordered := (StronglySorted below_blk).

Lemma ordered_app l k :
  ordered (l ++ k) ↔ (∀ b q, b ∈ l → q ∈ k → below_blk b q) ∧ ordered l ∧ ordered k.
Proof. apply StronglySorted_app. Qed.

Lemma ordered_cons b l : ordered (b :: l) ↔ (∀ q, q ∈ l → below_blk b q) ∧ ordered l.
Proof.
  split.
  - intros H. apply StronglySorted_inv in H as [? Hf]. split; [|done]. by apply Forall_forall.
  - intros [Hf ?]. constructor; [done|]. by apply Forall_forall.
Qed.

(** ** The search of [free] *)


Lemma ordered_length l lo hi :
  ordered l → (∀ b, b ∈ l → lo <= b.1 ∧ b.1 + room b <= hi) → lo <= hi → HDR * Z.of_nat (length l) <= hi - lo.
Proof.
  intros Hl. revert lo. induction Hl as [|b l _ IH Hb]; intros lo Hin Hlo; cbn [length]; [unfold HDR; lia|].
  pose proof (Hin b ltac:(left)) as [H1 H2]. rewrite Forall_forall in Hb.
  specialize (IH (b.1 + room b)). unfold room, HDR in *. rewrite Nat2Z.inj_succ.
  assert (8 * Z.of_nat (length l) <= hi - (b.1 + 8 * Z.max 1 b.2)); [|lia].
  apply IH; [|lia]. intros c Hc. specialize (Hb c Hc). unfold below_blk, room, HDR in Hb.
  pose proof (Hin c ltac:(by right)). lia.
Qed.

Lemma search_low s bp stop j q k fuel (Q : Z → uheap → Prop) :
  links (u_mem s) (j ++ q :: k) stop → ordered (j ++ q :: k) →
  (∀ b, b ∈ j ++ [q] → b.1 < bp) → (∀ b, b ∈ k → bp < b.1) → stop <= q.1 →
  (length j < fuel)%nat → Q q.1 s → wp (free_loop fuel bp (first_of (j ++ [q]) stop)) Q s.
Proof.
  intros Hl Ho Hlow Hhigh Hstop Hf HQ. revert fuel Hf Hl Ho Hlow. induction j as [|b j IH]; intros fuel Hf Hl Ho Hlow;
    (destruct fuel as [|fuel]; [cbn in Hf; lia|]); cbn [app first_of free_loop]; rewrite wp_bind.
  - cbn [app links] in Hl. destruct Hl as [(Hm & Hp & _) _]. apply wp_h_ptr; [done|]. rewrite Hp.
    pose proof (Hlow q ltac:(by left)) as Hq. destruct k as [|c k]; cbn [first_of].
    + rewrite (proj2 (Z.ltb_ge bp stop)), andb_false_r, (proj2 (Z.leb_le stop q.1)), (proj2 (Z.ltb_lt q.1 bp)) by lia.
      cbn [andb orb]. by rewrite wp_ret.
    + pose proof (Hhigh c ltac:(left)). rewrite (proj2 (Z.ltb_lt q.1 bp)), (proj2 (Z.ltb_lt bp c.1)) by lia.
      cbn [andb]. by rewrite wp_ret.
  - cbn [app links] in Hl. destruct Hl as [(Hm & Hp & _) Hl]. cbn [app] in Ho. apply ordered_cons in Ho as [Hb Ho].
    apply wp_h_ptr; [done|]. rewrite Hp.
    assert (Hn : ∃ c, c ∈ j ++ [q] ∧ first_of (j ++ q :: k) stop = c.1 ∧ first_of (j ++ [q]) stop = c.1).
    { destruct j as [|c j]; cbn [app first_of]; [exists q|exists c]; split_and!; try done; left. }
    destruct Hn as (c & Hc & E1 & E2). rewrite E1.
    assert (b.1 < c.1) by (specialize (Hb c ltac:(set_solver)); unfold below_blk, room, HDR in Hb; lia).
    pose proof (Hlow c ltac:(cbn; right; exact Hc)).
    rewrite (proj2 (Z.ltb_ge bp c.1)), andb_false_r, (proj2 (Z.leb_gt c.1 b.1)) by lia. cbn [andb]. rewrite <- E2.
    apply IH; [cbn in Hf; lia|done|done|]. intros d Hd. apply Hlow. cbn. by right.
Qed.

Lemma search_high s bp stop k fuel (Q : Z → uheap → Prop) :
  links (u_mem s) k stop → ordered k → (∀ b, b ∈ k → bp < b.1) → stop < bp →
  (length k <= fuel)%nat → wp (free_loop (fuel - length k) bp stop) Q s → wp (free_loop fuel bp (first_of k stop)) Q s.
Proof.
  revert fuel. induction k as [|b k IH]; intros fuel Hl Ho Hhigh Hstop Hf HQ; cbn [first_of length] in *.
  { by rewrite Nat.sub_0_r in HQ. }
  destruct fuel as [|fuel]; [lia|]. cbn [free_loop links] in *. rewrite wp_bind.
  destruct Hl as [(Hm & Hp & _) Hl]. apply ordered_cons in Ho as [Hb Ho]. apply wp_h_ptr; [done|]. rewrite Hp.
  pose proof (Hhigh b ltac:(left)) as Hbp.
  assert (Hn : ((first_of k stop <=? b.1) && ((b.1 <? bp) || (bp <? first_of k stop))) = false).
  { destruct k as [|c k]; cbn [first_of].
    - rewrite (proj2 (Z.ltb_ge b.1 bp)), (proj2 (Z.ltb_ge bp stop)) by lia. by rewrite andb_false_r.
    - specialize (Hb c ltac:(left)). unfold below_blk, room, HDR in Hb. by rewrite (proj2 (Z.leb_gt c.1 b.1)) by lia. }
  rewrite Hn, (proj2 (Z.ltb_ge b.1 bp)) by lia. cbn [andb].
  apply IH; [done|done|set_solver|done|lia|exact HQ].
Qed.

(** From any block of the ring the search ends at the last one below [bp]. *)
Lemma search_ring s bp stop j q k p fuel (Q : Z → uheap → Prop) :
  links (u_mem s) (j ++ q :: k) stop → ordered (j ++ q :: k) → first_of (j ++ [q]) stop = stop →
  (∀ b, b ∈ j ++ [q] → b.1 < bp) → (∀ b, b ∈ k → bp < b.1) → stop <= q.1 →
  (∃ n, (p, n) ∈ j ++ q :: k) →
  (length (j ++ q :: k) <= fuel)%nat → Q q.1 s → wp (free_loop fuel bp p) Q s.
Proof.
  intros Hl Ho Hs Hlow Hhigh Hstop [n Hp] Hf HQ. rewrite length_app in Hf. cbn [length] in Hf.
  replace (j ++ q :: k) with ((j ++ [q]) ++ k) in Hp by (by rewrite <- app_assoc).
  apply elem_of_app in Hp as [Hp|Hp].
  - apply list_elem_of_split in Hp as (j1 & j2 & E).
    assert (∃ i, (p, n) :: j2 = i ++ [q] ∧ j = j1 ++ i) as (i & Ei & ->).
    { destruct (exists_last (l := (p, n) :: j2) ltac:(done)) as (i & y & Ei). rewrite Ei, app_assoc in E.
      apply app_inj_tail in E as [-> ->]. eauto. }
    replace p with (first_of (i ++ [q]) stop) by (by rewrite <- Ei).
    rewrite <- app_assoc in Hl, Ho. apply links_app in Hl as [_ Hl]. apply ordered_app in Ho as (_ & _ & Ho).
    apply (search_low _ _ stop i q k); [done|done| |done|done| |done].
    + intros b Hb. apply Hlow. rewrite <- app_assoc. set_solver.
    + rewrite length_app in Hf. lia.
  - apply list_elem_of_split in Hp as (k1 & k2 & ->).
    replace p with (first_of ((p, n) :: k2) stop) by done.
    rewrite length_app in Hf. cbn [length] in Hf.
    apply search_high.
    + apply links_app in Hl as [_ Hl]. apply (links_app _ (q :: k1)) in Hl. tauto.
    + apply ordered_app in Ho as (_ & _ & Ho). apply (ordered_app (q :: k1)) in Ho. tauto.
    + intros b Hb. apply Hhigh. set_solver.
    + specialize (Hlow q ltac:(set_solver)). lia.
    + cbn [length]. lia.
    + rewrite <- Hs. eapply search_low; [exact Hl|exact Ho|done|done|done| |done]. cbn [length]. lia.
Qed.

(** ** Joining blocks *)

Definition join_next b k : blk * list blk :=
  match k with
  | c :: k' => if b.1 + HDR * b.2 =? c.1 then ((b.1, b.2 + c.2), k') else (b, k)
  | [] => (b, [])
  end.
Definition join_prev q b k : list blk :=
  if q.1 + HDR * q.2 =? b.1 then (q.1, q.2 + b.2) :: k else q :: b :: k.

Lemma join_upper_spec s stop q k b (Q : unit → uheap → Prop) :
  links (u_mem s) (q :: k) stop → mapped (u_mem s) b.1 8 → word (u_mem s) (b.1 + 4) = b.2 →
  q.1 + 8 <= b.1 → 0 <= stop < b.1 → 1 <= b.2 → b.1 + HDR * b.2 < KERNBASE →
  (∀ c, c ∈ k → b.1 + HDR * b.2 <= c.1 ∧ 1 <= c.2 ∧ c.1 + HDR * c.2 < KERNBASE) →
  (∀ m, header m b.1 (first_of (join_next b k).2 stop) (join_next b k).1.2 →
        edits (u_mem s) m b.1 → Q tt (with_mem s m)) →
  wp (join_upper b.1 q.1) Q s.
Proof.
  intros [(Hqm & Hqp & _) Hk] Hm Hn Hqb Hstop Hpos Hend Hin HQ. pose proof Hqm as (Hq0 & _). unfold join_upper, HDR, KERNBASE in *.
  rewrite wp_bind. apply wp_h_size; [done|]. rewrite Hn, wp_bind. apply wp_h_ptr; [done|]. rewrite Hqp.
  unfold hdr_at, HDR. rewrite u32_id by lia. destruct k as [|c k]; cbn [first_of join_next fst snd] in *.
  - rewrite (proj2 (Z.eqb_neq _ _)) by lia. apply wp_set_h_ptr; [done|]. apply HQ; [|apply edits_store; lia].
    split_and!; [by apply mapped_store|apply word_store_same; lia|]. rewrite word_store_other by lia. done.
  - destruct (Hin c ltac:(left)) as (Hc1 & Hc2 & Hc3). destruct Hk as [(Hcm & Hcp & Hcn) Hk]. unfold HDR in *.
    destruct (b.1 + 8 * b.2 =? c.1) eqn:E; cbn [fst snd first_of] in *.
    + rewrite wp_bind. apply wp_h_size; [done|]. rewrite Hcn, u32_id by lia. rewrite wp_bind. apply wp_set_h_size; [done|].
      rewrite wp_bind. apply wp_h_ptr; [by apply mapped_store|]. cbn [u_mem with_mem]. rewrite word_store_other, Hcp by lia.
      apply wp_set_h_ptr; [by apply mapped_store|]. cbn [u_mem with_mem u_freep u_brk].
      assert (0 <= first_of k stop < 4294967296).
      { destruct k as [|d k]; cbn [first_of]; [lia|]. destruct (Hin d ltac:(set_solver)). lia. }
      apply HQ.
      * split_and!; [by do 2 apply mapped_store|apply word_store_same; lia|].
        rewrite word_store_other, word_store_same by lia. done.
      * eapply edits_trans; apply edits_store; lia.
    + apply wp_set_h_ptr; [done|]. apply HQ; [|apply edits_store; lia].
      split_and!; [by apply mapped_store|apply word_store_same; lia|]. rewrite word_store_other by lia. done.
Qed.

Lemma join_lower_spec s nx q b (nq := q.1 + HDR * q.2 =? b.1) (Q : unit → uheap → Prop) :
  header (u_mem s) q.1 nx q.2 → header (u_mem s) b.1 (word (u_mem s) b.1) b.2 →
  0 <= word (u_mem s) b.1 < 4294967296 →
  q.1 + 8 <= b.1 → q.1 + HDR * q.2 <= b.1 → 0 <= q.2 → 1 <= b.2 → b.1 + HDR * b.2 < KERNBASE →
  (∀ m, header m q.1 (if nq then word (u_mem s) b.1 else b.1) (if nq then q.2 + b.2 else q.2) →
        edits (u_mem s) m q.1 → Q tt (with_mem s m)) →
  wp (join_lower b.1 q.1) Q s.
Proof.
  intros (Hqm & Hqp & Hqn) (Hbm & _ & Hbn) Hw Hqb Hqe Hq0 Hb0 Hend HQ. pose proof Hqm as (Hq & _).
  unfold join_lower, HDR, KERNBASE in *. rewrite wp_bind. apply wp_h_size; [done|]. rewrite Hqn.
  unfold hdr_at, HDR. rewrite u32_id by lia. subst nq. destruct (q.1 + 8 * q.2 =? b.1) eqn:E.
  - rewrite wp_bind. apply wp_h_size; [done|]. rewrite Hbn, u32_id by lia. rewrite wp_bind. apply wp_set_h_size; [done|].
    rewrite wp_bind. apply wp_h_ptr; [by apply mapped_store|]. cbn [u_mem with_mem u_freep u_brk].
    rewrite word_store_other by lia. apply wp_set_h_ptr; [by apply mapped_store|]. cbn [u_mem with_mem u_freep u_brk]. apply HQ.
    + split_and!; [by do 2 apply mapped_store|apply word_store_same; lia|].
      rewrite word_store_other, word_store_same by lia. done.
    + eapply edits_trans; apply edits_store; lia.
  - apply wp_set_h_ptr; [done|]. apply HQ; [|apply edits_store; lia].
    split_and!; [by apply mapped_store|apply word_store_same; lia|]. rewrite word_store_other by lia. done.
Qed.

(** The byte [x] is in a block of [l]. *)
Definition covers l (x : Z) : Prop := ∃ b, b ∈ l ∧ b.1 <= x < b.1 + HDR * b.2.

Lemma covers_cons b l x : covers (b :: l) x ↔ b.1 <= x < b.1 + HDR * b.2 ∨ covers l x.
Proof.
  unfold covers. split.
  - intros (c & Hc & Hx). apply elem_of_cons in Hc as [->|Hc]; eauto.
  - intros [Hx|(c & Hc & Hx)]; [exists b|exists c]; split; try done; [left|by right].
Qed.

Lemma covers_app l k x : covers (l ++ k) x ↔ covers l x ∨ covers k x.
Proof. unfold covers. setoid_rewrite elem_of_app. naive_solver. Qed.

(** Where a block goes between [q] and [k]. *)
Definition place_block q b k : list blk := join_prev q (join_next b k).1 (join_next b k).2.

Lemma place_cases q b k (P : list blk → Prop) :
  (∀ c k', k = c :: k' → b.1 + HDR * b.2 = c.1 → q.1 + HDR * q.2 = b.1 → P ((q.1, q.2 + (b.2 + c.2)) :: k')) →
  (∀ c k', k = c :: k' → b.1 + HDR * b.2 = c.1 → q.1 + HDR * q.2 ≠ b.1 → P (q :: (b.1, b.2 + c.2) :: k')) →
  (q.1 + HDR * q.2 = b.1 → P ((q.1, q.2 + b.2) :: k)) →
  (q.1 + HDR * q.2 ≠ b.1 → P (q :: b :: k)) →
  P (place_block q b k).
Proof.
  intros H1 H2 H3 H4. unfold place_block, join_prev, join_next. destruct k as [|c k]; cbn [fst snd].
  - destruct (q.1 + HDR * q.2 =? b.1) eqn:E; [apply H3|apply H4]; lia.
  - destruct (b.1 + HDR * b.2 =? c.1) eqn:Ec; cbn [fst snd];
      (destruct (q.1 + HDR * q.2 =? b.1) eqn:E; [try (apply (H1 c)); try apply H3|try (apply (H2 c)); try apply H4]); try done; lia.
Qed.

(** A block placed between [q] and [k] of an ordered list, in room that is
    free. *)
Definition gap (j : list blk) q b k : Prop :=
  ordered (j ++ q :: k) ∧ (∀ c, c ∈ k → 1 <= c.2) ∧ 0 <= q.2 ∧ 1 <= b.2 ∧
  (∀ c, c ∈ j ++ [q] → below_blk c b) ∧ (∀ c, c ∈ k → below_blk b c).

Lemma place_ordered j q b k : gap j q b k → ordered (j ++ place_block q b k).
Proof.
  intros (Ho & Hk & Hq & Hb & Hlo & Hhi). apply ordered_app in Ho as (Hjk & Hj & Ho). apply ordered_cons in Ho as [Hqk Ho].
  pose proof (Hlo q ltac:(set_solver)) as Hqb. apply place_cases; unfold below_blk, room, HDR in *; cbn [fst snd].
  - intros c k' -> E1 E2. pose proof (Hk c ltac:(left)). apply ordered_cons in Ho as [Hck Ho]. rewrite ordered_app, ordered_cons.
    unfold below_blk, room, HDR in *. split_and!; [|done| |done].
    + intros d e Hd He. apply elem_of_cons in He as [->|He]; [apply (Hjk d q Hd); left|apply (Hjk d e Hd); set_solver].
    + intros e He. specialize (Hck e He). cbn [fst snd]. lia.
  - intros c k' -> E1 E2. pose proof (Hk c ltac:(left)). apply ordered_cons in Ho as [Hck Ho]. rewrite ordered_app, !ordered_cons.
    unfold below_blk, room, HDR in *. split_and!; [|done| | |done].
    + intros d e Hd He. repeat (apply elem_of_cons in He as [->|He]);
        [apply (Hjk d q Hd); left|cbn [fst]; apply Hlo; set_solver|apply (Hjk d e Hd); set_solver].
    + intros e He. apply elem_of_cons in He as [->|He]; cbn [fst snd]; [lia|]. apply Hqk. set_solver.
    + intros e He. specialize (Hck e He). cbn [fst snd]. lia.
  - intros E2. rewrite ordered_app, ordered_cons. unfold below_blk, room, HDR in *. split_and!; [|done| |done].
    + intros d e Hd He. apply elem_of_cons in He as [->|He]; [apply (Hjk d q Hd); left|apply (Hjk d e Hd); set_solver].
    + intros e He. specialize (Hhi e He). cbn [fst snd]. lia.
  - intros E2. rewrite ordered_app, !ordered_cons. unfold below_blk, room, HDR in *. split_and!; [|done| | |done].
    + intros d e Hd He. repeat (apply elem_of_cons in He as [->|He]);
        [apply (Hjk d q Hd); left|apply Hlo; set_solver|apply (Hjk d e Hd); set_solver].
    + intros e He. apply elem_of_cons in He as [->|He]; [lia|]. apply Hqk. set_solver.
    + done.
Qed.

Lemma place_covers q b k x :
  0 <= q.2 → 1 <= b.2 → (∀ c, c ∈ k → 1 <= c.2) →
  covers (place_block q b k) x ↔ covers (q :: k) x ∨ b.1 <= x < b.1 + HDR * b.2.
Proof.
  intros Hq Hb Hk. apply place_cases; unfold HDR in *.
  - intros c k' -> E1 E2. pose proof (Hk c ltac:(left)). rewrite !covers_cons. unfold HDR. cbn [fst snd].
    assert (q.1 <= x < q.1 + 8 * (q.2 + (b.2 + c.2)) ↔ q.1 <= x < q.1 + 8 * q.2 ∨ c.1 <= x < c.1 + 8 * c.2 ∨ b.1 <= x < b.1 + 8 * b.2) by lia. tauto.
  - intros c k' -> E1 E2. pose proof (Hk c ltac:(left)). rewrite !covers_cons. unfold HDR. cbn [fst snd].
    assert (b.1 <= x < b.1 + 8 * (b.2 + c.2) ↔ c.1 <= x < c.1 + 8 * c.2 ∨ b.1 <= x < b.1 + 8 * b.2) by lia. tauto.
  - intros E. rewrite !covers_cons. unfold HDR. cbn [fst snd].
    assert (q.1 <= x < q.1 + 8 * (q.2 + b.2) ↔ q.1 <= x < q.1 + 8 * q.2 ∨ b.1 <= x < b.1 + 8 * b.2) by lia. tauto.
  - intros E. rewrite !covers_cons. unfold HDR. tauto.
Qed.

(** Every block of the result is old, or holds all of [b]. *)
Lemma place_elem q b k c :
  0 <= q.2 → 1 <= b.2 → (∀ c, c ∈ k → 1 <= c.2) → c ∈ place_block q b k →
  c = q ∨ c ∈ k ∨ b.2 <= c.2 ∧ (c.1 = q.1 ∨ c.1 = b.1) ∧
    (c.1 + HDR * c.2 = b.1 + HDR * b.2 ∨ ∃ d, d ∈ k ∧ c.1 + HDR * c.2 = d.1 + HDR * d.2).
Proof.
  intros Hq Hb Hk. apply place_cases; unfold HDR in *.
  - intros d k' -> E1 E2 Hc. pose proof (Hk d ltac:(left)). apply elem_of_cons in Hc as [->|Hc]; cbn [fst snd]; [|set_solver].
    right. right. split_and!; [lia|by left|right; exists d; split; [left|lia]].
  - intros d k' -> E1 E2 Hc. pose proof (Hk d ltac:(left)). repeat (apply elem_of_cons in Hc as [->|Hc]); cbn [fst snd]; [by left| |set_solver].
    right. right. split_and!; [lia|by right|right; exists d; split; [left|lia]].
  - intros E Hc. apply elem_of_cons in Hc as [->|Hc]; cbn [fst snd]; [|set_solver]. right. right. split_and!; [lia|by left|left; lia].
  - intros E Hc. repeat (apply elem_of_cons in Hc as [->|Hc]); [by left| |set_solver]. right. right. split_and!; [lia|by right|by left].
Qed.

(** One block of the result has room for [b]. *)
Lemma place_big q b k : 0 <= q.2 → (∀ c, c ∈ k → 1 <= c.2) → ∃ c, c ∈ place_block q b k ∧ b.2 <= c.2 ∧ (c.1 = q.1 ∨ c.1 = b.1).
Proof.
  intros Hq Hk. apply place_cases.
  - intros c k' -> E1 E2. pose proof (Hk c ltac:(left)). eexists. split; [left|]. cbn [fst snd]. lia.
  - intros c k' -> E1 E2. pose proof (Hk c ltac:(left)). eexists. split; [right; left|]. cbn [fst snd]. lia.
  - intros E. eexists. split; [left|]. cbn [fst snd]. lia.
  - intros E. eexists. split; [right; left|]. lia.
Qed.

Lemma place_length q b k : (length (place_block q b k) <= S (length (q :: k)))%nat.
Proof. apply place_cases; intros; simplify_eq; cbn [length]; lia. Qed.

(** The list starts with [q], perhaps larger. *)
Lemma place_head q b k : ∃ n l, place_block q b k = (q.1, n) :: l ∧ (q.1 + HDR * q.2 ≠ b.1 → n = q.2).
Proof.
  apply place_cases.
  - intros. eexists _, _. split; [reflexivity|congruence].
  - intros. exists q.2. eexists. split; [by destruct q|done].
  - intros. eexists _, _. split; [reflexivity|congruence].
  - intros. exists q.2. eexists. split; [by destruct q|done].
Qed.

Lemma join_next_elem b k c : c ∈ (join_next b k).2 → c ∈ k.
Proof. unfold join_next. destruct k as [|d k]; [done|]. case_match; cbn [snd]; set_solver. Qed.

Lemma join_next_links m b k stop : links m k stop → links m (join_next b k).2 stop.
Proof. unfold join_next. destruct k as [|d k]; [done|]. case_match; cbn [snd links]; tauto. Qed.

Lemma join_next_block b k :
  1 <= b.2 → b.1 + HDR * b.2 < KERNBASE → (∀ c, c ∈ k → 1 <= c.2 ∧ c.1 + HDR * c.2 < KERNBASE) →
  (join_next b k).1.1 = b.1 ∧ 1 <= (join_next b k).1.2 ∧ b.1 + HDR * (join_next b k).1.2 < KERNBASE.
Proof.
  intros Hb He Hk. unfold join_next, HDR in *. destruct k as [|d k]; cbn [fst snd]; [done|].
  destruct (Hk d ltac:(left)). case_match; cbn [fst snd]; lia.
Qed.

Lemma first_of_range k stop hi : 0 <= stop < hi → (∀ c, c ∈ k → 0 <= c.1 < hi) → 0 <= first_of k stop < hi.
Proof. intros Hs Hk. destruct k as [|c k]; [done|]. apply Hk. left. Qed.

Lemma links_place s stop j q b k (Q : unit → uheap → Prop) :
  links (u_mem s) (j ++ q :: k) stop → gap j q b k → mapped (u_mem s) b.1 8 → word (u_mem s) (b.1 + 4) = b.2 →
  0 <= stop < b.1 → 0 <= q.1 → b.1 + HDR * b.2 < KERNBASE → (∀ c, c ∈ k → c.1 + HDR * c.2 < KERNBASE) →
  (∀ m, links m (j ++ place_block q b k) stop →
        (∃ m1, edits (u_mem s) m1 b.1 ∧ edits m1 m q.1) → Q tt (with_mem s m)) →
  wp (join_upper b.1 q.1 ;; join_lower b.1 q.1) Q s.
Proof.
  intros Hl Hg Hm Hn Hstop Hq0 He Hke HQ. pose proof Hg as (Ho & Hk & Hq & Hb & Hlo & Hhi).
  apply links_app in Hl as [Hlj Hl]. pose proof Hl as [Hhq Hlk]. cbn [first_of] in Hlj.
  apply ordered_app in Ho as (Hjk & _ & _). pose proof (Hlo q ltac:(set_solver)) as Hqb. unfold below_blk, room in *.
  rewrite wp_bind. apply (join_upper_spec s stop q k b); [done|done|done|unfold HDR in *; lia|done|done|done| |].
  { intros c Hc. specialize (Hhi c Hc). specialize (Hk c Hc). specialize (Hke c Hc). unfold HDR in *. lia. }
  intros m1 H1 E01. pose proof E01 as [F1 _]. destruct (join_next_block b k Hb He) as (E1 & Hb1 & He1); [by intros c Hc; split; [apply Hk|apply Hke]|].
  pose proof (join_next_links _ b k stop Hlk) as Hlk'. pose proof (join_next_elem b k) as Hel.
  unfold place_block in HQ. destruct (join_next b k) as [b' k']. cbn [fst snd] in *. rewrite <- E1 in *.
  pose proof H1 as (Hm1 & Hw1 & Hn1).
  assert (Hr : 0 <= first_of k' stop < 4294967296).
  { apply first_of_range; [unfold KERNBASE, HDR in *; lia|]. intros c Hc%Hel. specialize (Hhi c Hc). specialize (Hke c Hc).
    specialize (Hk c Hc). unfold HDR, KERNBASE in *. lia. }
  apply (join_lower_spec (with_mem s m1) (first_of k stop) q b'); cbn [u_mem with_mem]; [| | |unfold HDR in *; lia..| |].
  { apply (header_ext _ _ _ _ _ Hhq). intros x Hx. apply F1. unfold HDR in *. lia. }
  { by rewrite Hw1. }
  { by rewrite Hw1. }
  { done. }
  intros m2 H2 E12. pose proof E12 as [F2 _]. unfold with_mem in *. cbn [u_freep u_brk u_mem] in *. apply HQ.
  - assert (Hj2 : links m2 j q.1).
    { apply (links_ext _ _ _ _ Hlj). intros c Hc x Hx. specialize (Hjk c q Hc ltac:(left)). specialize (Hlo c ltac:(set_solver)).
      unfold HDR in *. rewrite F2, F1 by lia. done. }
    assert (Hk2 : links m2 k' stop).
    { apply (links_ext _ _ _ _ Hlk'). intros c Hc%Hel x Hx. specialize (Hhi c Hc).
      unfold HDR in *. rewrite F2, F1 by lia. done. }
    apply links_app. unfold join_prev. rewrite Hw1 in H2. destruct (q.1 + HDR * q.2 =? b'.1) eqn:E; cbn [first_of links fst snd].
    + done.
    + split_and!; [done..| |done]. apply (header_ext _ _ _ _ _ H1). intros x Hx. apply F2. unfold HDR in *. lia.
  - eauto.
Qed.

(** ** The heap *)

Section heap.
Context (base heap0 : Z) (more : Z → Z → bool) (junk : Z → Z).
Implicit Types (fl : list blk) (live : gmap Z Z).

Definition fits_blk (brk : Z) b : Prop := heap0 <= b.1 ∧ 1 <= b.2 ∧ b.1 + HDR * b.2 <= brk.

(** Free blocks [fl], and blocks [live] (address of the header and size) in
    the hands of the program, partition the heap from [heap0] to the break. *)
Record heap_ok s fl live : Prop := {
  ho_base : 0 < base ∧ base + 8 <= heap0;
  ho_brk : heap0 <= u_brk s < KERNBASE;
  ho_freep : ∃ n, (u_freep s, n) ∈ (base, 0) :: fl;
  ho_links : links (u_mem s) ((base, 0) :: fl) base;
  ho_order : ordered ((base, 0) :: fl);
  ho_fl : ∀ b, b ∈ fl → fits_blk (u_brk s) b;
  ho_map : ∀ x, heap0 <= x < u_brk s → is_Some (u_mem s !! x);
  ho_live : ∀ a n, live !! a = Some n → fits_blk (u_brk s) (a, n) ∧ word (u_mem s) (a + 4) = n;
  ho_sep : ∀ a n x, live !! a = Some n → a <= x < a + HDR * n → ¬ covers fl x;
  ho_apart : ∀ a n b' n' : Z, live !! a = Some n → live !! b' = Some n' → a ≠ b' → a + HDR * n <= b' ∨ b' + HDR * n' <= a;
  ho_cover : ∀ x, heap0 <= x < u_brk s → covers fl x ∨ ∃ a n, live !! a = Some n ∧ a <= x < a + HDR * n;
}.

(** What the program has in its blocks stays as it is. *)
Definition kept live (m m' : mem) : Prop :=
  ∀ a n x, live !! a = Some n → a <= x < a + HDR * n → m' !! x = m !! x.

Lemma covers_base fl x : covers ((base, 0) :: fl) x ↔ covers fl x.
Proof. rewrite covers_cons. cbn [fst snd]. unfold HDR. split; [intros [?|?]; [lia|done]|auto]. Qed.

Lemma split_at a l b :
  ordered (b :: l) → b.1 < a → (∀ c, c ∈ l → c.1 ≠ a) →
  ∃ j q k, b :: l = j ++ q :: k ∧ (∀ c, c ∈ j ++ [q] → c.1 < a) ∧ (∀ c, c ∈ k → a < c.1).
Proof.
  revert b. induction l as [|c l IH]; intros b Ho Hb Hne.
  { exists [], b, []. split_and!; [done| |set_solver]. intros c. cbn. set_solver. }
  destruct (decide (c.1 < a)) as [Hc|Hc].
  - destruct (IH c) as (j & q & k & E & Hlo & Hhi); [by apply ordered_cons in Ho as [_ ?]|done|set_solver|].
    exists (b :: j), q, k. split_and!; [by rewrite E| |done]. cbn. intros d Hd. apply elem_of_cons in Hd as [->|Hd]; [done|by apply Hlo].
  - exists [], b, (c :: l). split_and!; [done|cbn; set_solver|]. apply ordered_cons in Ho as [_ Ho]. apply ordered_cons in Ho as [Hcl _].
    pose proof (Hne c ltac:(left)). intros d Hd. apply elem_of_cons in Hd as [->|Hd]; [lia|].
    specialize (Hcl d Hd). unfold below_blk, room, HDR in Hcl. lia.
Qed.

Lemma map_mapped s fl live a n : heap_ok s fl live → heap0 <= a → a + Z.of_nat n <= u_brk s → mapped (u_mem s) a n.
Proof.
  intros H Ha Hn. pose proof (ho_brk _ _ _ H). pose proof (ho_base _ _ _ H). unfold KERNBASE in *.
  split_and!; [lia..|]. intros k Hk. apply (ho_map _ _ _ H). lia.
Qed.

(** The place of a live block among the free ones. *)
Lemma live_gap s fl live a n :
  heap_ok s fl live → live !! a = Some n →
  ∃ j q k, (base, 0) :: fl = j ++ q :: k ∧ gap j q (a, n) k ∧ (∀ c, c ∈ j ++ [q] → c.1 < a) ∧ (∀ c, c ∈ k → a < c.1) ∧
    (∀ c, c ∈ k → c ∈ fl) ∧ base <= q.1 ∧ (q = (base, 0) ∧ j = [] ∨ q ∈ fl).
Proof.
  intros H Ha. pose proof (ho_live _ _ _ H a n Ha) as [(Hf & Hn & He) _]. pose proof (ho_base _ _ _ H). cbn [fst snd] in *.
  destruct (split_at a fl (base, 0)) as (j & q & k & E & Hlo & Hhi); [apply (ho_order _ _ _ H)|cbn; lia| |].
  { intros c Hc Hca. apply (ho_sep _ _ _ H a n a Ha); [unfold HDR; lia|]. exists c. split; [done|].
    destruct (ho_fl _ _ _ H c Hc) as (? & ? & ?). unfold HDR. lia. }
  assert (Hin : q = (base, 0) ∧ j = [] ∨ q ∈ fl).
  { destruct j as [|b j]; cbn in E; simplify_eq; [by left|right]. set_solver. }
  assert (Hk : ∀ c, c ∈ k → c ∈ fl).
  { intros c Hc. destruct j as [|b j]; cbn in E; simplify_eq; set_solver. }
  assert (Hcase : ∀ c, c ∈ j ++ [q] → c = (base, 0) ∨ c ∈ fl).
  { intros c Hc. assert (Hc' : c ∈ (base, 0) :: fl) by (rewrite E; set_solver). apply elem_of_cons in Hc'. tauto. }
  exists j, q, k. split_and!; [done| |done|done|done| |done].
  - split_and!; [rewrite <- E; apply (ho_order _ _ _ H)|by intros c Hc; apply (ho_fl _ _ _ H c), Hk| |done| |].
    + destruct Hin as [[-> _]|Hq]; [done|]. destruct (ho_fl _ _ _ H q Hq) as (? & ? & ?). lia.
    + intros c Hc. specialize (Hlo c Hc). unfold below_blk, room, HDR in *. destruct (Hcase c Hc) as [->|Hc']; [cbn in *; lia|].
      destruct (ho_fl _ _ _ H c Hc') as (? & ? & ?). cbn [fst snd] in *.
      destruct (decide (c.1 + 8 * Z.max 1 c.2 <= a)); [done|]. exfalso.
      apply (ho_sep _ _ _ H a n a Ha); [unfold HDR; lia|]. exists c. unfold HDR. split; [done|lia].
    + intros c Hc. specialize (Hhi c Hc). unfold below_blk, room, HDR in *. cbn [fst snd] in *.
      destruct (decide (a + 8 * Z.max 1 n <= c.1)); [done|]. exfalso.
      apply (ho_sep _ _ _ H a n c.1 Ha); [unfold HDR; lia|]. destruct (ho_fl _ _ _ H c (Hk c Hc)) as (? & ? & ?).
      exists c. unfold HDR. split; [by apply Hk|lia].
  - destruct Hin as [[-> _]|Hq]; [cbn; lia|]. destruct (ho_fl _ _ _ H q Hq) as (? & ? & ?). lia.
Qed.

Lemma word_kept live m m' a n : kept live m m' → live !! a = Some n → 1 <= n → word m' (a + 4) = word m (a + 4).
Proof. intros Hk Ha Hn. apply word_ext. intros i Hi. apply (Hk a n); [done|]. unfold HDR. lia. Qed.

(** Writing the headers of [a] and of [q] does not touch other live blocks. *)
Lemma place_kept s fl live a n q (m' : mem) :
  heap_ok s fl live → live !! a = Some n → q.1 = base ∨ q ∈ fl →
  (∃ m1, edits (u_mem s) m1 a ∧ edits m1 m' q.1) → kept (delete a live) (u_mem s) m'.
Proof.
  intros H Ha Hq (m1 & [F1 _] & [F2 _]) b' n' x Hb Hx. apply lookup_delete_Some in Hb as [Hne Hb].
  pose proof (ho_live _ _ _ H _ _ Ha) as [(_ & Hn & _) _]. pose proof (ho_live _ _ _ H _ _ Hb) as [(Hlo & _) _].
  pose proof (ho_apart _ _ _ H _ _ _ _ Ha Hb Hne). pose proof (ho_base _ _ _ H). cbn [fst snd] in *. unfold HDR in *.
  rewrite F2; [apply F1; lia|]. destruct Hq as [->|Hq]; [lia|]. destruct (ho_fl _ _ _ H q Hq) as (_ & Hq1 & _).
  destruct (decide (x < q.1 ∨ q.1 + 8 <= x)) as [?|Hin]; [done|]. exfalso.
  apply (ho_sep _ _ _ H b' n' x Hb); [done|]. exists q. unfold HDR. split; [done|lia].
Qed.

(** The heap with a live block given back. *)
Lemma place_heap_ok s fl live a n j q k (m' : mem) :
  heap_ok s fl live → live !! a = Some n → (base, 0) :: fl = j ++ q :: k → gap j q (a, n) k →
  (∀ c, c ∈ k → c ∈ fl) → q = (base, 0) ∧ j = [] ∨ q ∈ fl →
  links m' (j ++ place_block q (a, n) k) base →
  (∃ m1, edits (u_mem s) m1 a ∧ edits m1 m' q.1) →
  ∃ fl', heap_ok (UHeap q.1 (u_brk s) m') fl' (delete a live) ∧ kept (delete a live) (u_mem s) m' ∧
    (length fl' <= S (length fl))%nat ∧ ∃ c, c ∈ fl' ∧ n <= c.2.
Proof.
  intros H Ha E Hg Hk Hin Hl Hf. pose proof Hg as (Ho & Hk1 & Hq & Hb & Hlo & Hhi).
  pose proof (ho_live _ _ _ H _ _ Ha) as [(Ha0 & _ & Hae) _]. pose proof (ho_base _ _ _ H) as [Hb0 Hb1]. cbn [fst snd] in *.
  pose proof (place_kept s fl live a n q m' H Ha ltac:(destruct Hin as [[-> _]|?]; auto) Hf) as Hkept.
  destruct (place_head q (a, n) k) as (nq & l & Ehd & Hnq). cbn [fst] in Hnq.
  assert (∃ fl', j ++ place_block q (a, n) k = (base, 0) :: fl') as [fl' E'].
  { destruct Hin as [[-> ->]|_].
    - rewrite Ehd. cbn [fst snd app] in *. rewrite Hnq by (unfold HDR; lia). eauto.
    - destruct j as [|b j]; cbn [app] in *; simplify_eq; [|eauto]. rewrite Ehd. cbn [fst snd] in *. rewrite Hnq by (unfold HDR; lia). eauto. }
  assert (Hcov : ∀ x, covers fl' x ↔ covers fl x ∨ a <= x < a + HDR * n).
  { intros x. rewrite <- (covers_base fl'), <- E', <- (covers_base fl), E, !covers_app, place_covers by done. cbn [fst snd]. tauto. }
  assert (Hfl' : ∀ c, c ∈ fl' → c ∈ (base, 0) :: fl ∨ n <= c.2 ∧ (c.1 = q.1 ∨ c.1 = a) ∧ c.1 + HDR * c.2 <= u_brk s).
  { intros c Hc. assert (Hc' : c ∈ j ++ place_block q (a, n) k) by (rewrite E'; by right). rewrite E.
    apply elem_of_app in Hc' as [Hc'|Hc']; [left; set_solver|].
    destruct (place_elem q (a, n) k c Hq Hb Hk1 Hc') as [->|[Hck|(H1 & H2 & H3)]]; [left; set_solver..|right]. cbn [fst snd] in *.
    split_and!; [done|done|]. destruct H3 as [->|(d & Hd & ->)]; [done|]. by apply (ho_fl _ _ _ H d), Hk. }
  pose proof (place_ordered j q (a, n) k Hg) as Hord. rewrite E' in Hord, Hl.
  assert (Hpos : ∀ c, c ∈ fl' → base + 8 <= c.1).
  { intros c Hc. apply ordered_cons in Hord as [Hord _]. specialize (Hord c Hc). unfold below_blk, room, HDR in Hord. cbn in Hord. lia. }
  assert (Hlen : (length fl' <= S (length fl))%nat).
  { pose proof (place_length q (a, n) k). apply (f_equal length) in E, E'. rewrite !length_app in *. cbn [length] in *. lia. }
  exists fl'. split_and!; [|done|done|].
  - split; cbn [u_freep u_brk u_mem].
    + done.
    + apply (ho_brk _ _ _ H).
    + exists nq. rewrite <- E', Ehd. set_solver.
    + done.
    + done.
    + intros c Hc. specialize (Hpos c Hc). destruct (Hfl' c Hc) as [Hc'|(H1 & H2 & H3)].
      * apply elem_of_cons in Hc' as [->|Hc']; [cbn in Hpos; lia|by apply (ho_fl _ _ _ H)].
      * split_and!; [|lia|done]. destruct H2 as [H2|H2]; [|lia]. destruct Hin as [[-> _]|Hq']; [cbn in H2; lia|].
        destruct (ho_fl _ _ _ H q Hq') as (? & _). lia.
    + intros x Hx. destruct Hf as (m1 & [_ D1] & [_ D2]). by apply D2, D1, (ho_map _ _ _ H).
    + intros b' n' Hb'. pose proof Hb' as Hb2. apply lookup_delete_Some in Hb2 as [Hne Hb2].
      destruct (ho_live _ _ _ H b' n' Hb2) as [Hfit Hw]. split; [done|]. rewrite <- Hw.
      apply (word_kept _ _ _ _ _ Hkept Hb'). apply Hfit.
    + intros b' n' x Hb' Hx. rewrite Hcov. apply lookup_delete_Some in Hb' as [Hne Hb']. intros [Hc|Hc].
      * by apply (ho_sep _ _ _ H b' n' x).
      * pose proof (ho_apart _ _ _ H _ _ _ _ Ha Hb' Hne). lia.
    + intros a1 n1 b' n' H1 H2. apply lookup_delete_Some in H1 as [_ H1]. apply lookup_delete_Some in H2 as [_ H2].
      by apply (ho_apart _ _ _ H).
    + intros x Hx. rewrite Hcov. destruct (ho_cover _ _ _ H x Hx) as [Hc|(b' & n' & Hb' & Hx')]; [by left; left|].
      destruct (decide (a = b')) as [<-|Hne]; [simplify_eq; left; right; done|].
      right. exists b', n'. by rewrite lookup_delete_ne.
  - destruct (place_big q (a, n) k Hq Hk1) as (c & Hc & Hcn & Hca). cbn [fst snd] in *. exists c. split; [|done].
    assert (Hc' : c ∈ (base, 0) :: fl') by (rewrite <- E'; set_solver). apply elem_of_cons in Hc' as [->|?]; [cbn in Hcn; lia|done].
Qed.

Lemma ring_length s fl live : heap_ok s fl live → HDR * Z.of_nat (length ((base, 0) :: fl)) <= u_brk s - base.
Proof.
  intros H. pose proof (ho_base _ _ _ H). pose proof (ho_brk _ _ _ H). apply ordered_length; [apply (ho_order _ _ _ H)| |lia].
  intros b Hb. apply elem_of_cons in Hb as [->|Hb]; [unfold room, HDR; cbn; lia|].
  destruct (ho_fl _ _ _ H b Hb) as (? & ? & ?). unfold room, HDR in *. lia.
Qed.

(** [free] of a live block. *)
Lemma free_spec s fl live a n :
  heap_ok s fl live → live !! a = Some n →
  wp (free (a + 8)) (λ _ s', u_brk s' = u_brk s ∧ kept (delete a live) (u_mem s) (u_mem s') ∧
    ∃ fl', heap_ok s' fl' (delete a live) ∧ (length fl' <= S (length fl))%nat ∧ ∃ c, c ∈ fl' ∧ n <= c.2) s.
Proof.
  intros H Ha. destruct (live_gap s fl live a n H Ha) as (j & q & k & E & Hg & Hlo & Hhi & Hk & Hbq & Hin).
  pose proof (ho_live _ _ _ H _ _ Ha) as [(Ha0 & Hn & Hae) Hw]. pose proof (ho_base _ _ _ H). pose proof (ho_brk _ _ _ H).
  cbn [fst snd] in *. unfold free, hdr_at. replace (u32 (a + 8 + HDR * -1)) with a by (unfold HDR, KERNBASE in *; rewrite u32_id; lia).
  rewrite wp_bind, wp_get, wp_bind.
  eapply (search_ring s a base j q k); [rewrite <- E; apply (ho_links _ _ _ H)|rewrite <- E; apply (ho_order _ _ _ H)| |done|done|done| | |].
  { destruct j; cbn in E |- *; by simplify_eq. }
  { rewrite <- E. apply (ho_freep _ _ _ H). }
  { rewrite <- E. pose proof (ring_length s fl live H) as Hr. unfold HDR in *.
    revert Hr. generalize (length ((base, 0) :: fl)). intros len Hr. clear - Hr H0 H1. dlia. }
  assert (Hall : wp (join_upper a q.1 ;; join_lower a q.1) (λ _ s1, wp (set_freep q.1) (λ _ s', u_brk s' = u_brk s ∧ kept (delete a live) (u_mem s) (u_mem s') ∧
    ∃ fl', heap_ok s' fl' (delete a live) ∧ (length fl' <= S (length fl))%nat ∧ ∃ c, c ∈ fl' ∧ n <= c.2) s1) s).
  { apply (links_place s base j q (a, n) k); cbn [fst snd].
    - rewrite <- E. apply (ho_links _ _ _ H).
    - done.
    - apply (map_mapped s fl live); [done|lia|unfold HDR in *; lia].
    - done.
    - lia.
    - lia.
    - lia.
    - intros c Hc. destruct (ho_fl _ _ _ H c (Hk c Hc)) as (? & ? & ?). lia.
    - intros m Hl Hf. destruct (place_heap_ok s fl live a n j q k m H Ha E Hg Hk Hin Hl Hf) as (fl' & Hok & Hkept & Hlen & Hc).
      unfold set_freep. rewrite wp_modify. cbn [u_brk u_mem with_mem]. eauto 10. }
  rewrite wp_bind in Hall. rewrite wp_bind. apply (wp_mono _ _ _ _ Hall). intros _ s1 Hs1. rewrite wp_bind. exact Hs1.
Qed.

(** The heap with [nu] new units at its end, as a live block. *)
Lemma grown_heap_ok s fl live nu (m : mem) (brk := u_brk s) :
  heap_ok s fl live → 1 <= nu → brk + HDR * nu < KERNBASE →
  (∀ x, x < brk → m !! x = u_mem s !! x) → (∀ x, brk <= x < brk + HDR * nu → is_Some (m !! x)) → word m (brk + 4) = nu →
  live !! brk = None ∧ heap_ok (UHeap (u_freep s) (brk + HDR * nu) m) fl (<[brk := nu]> live) ∧ kept live (u_mem s) m.
Proof.
  intros H Hnu Hb Hold Hnew Hw. subst brk. pose proof (ho_base _ _ _ H) as Hbase. pose proof (ho_brk _ _ _ H) as Hbrk.
  assert (Hin : ∀ a n, live !! a = Some n → a + HDR * n <= u_brk s ∧ 1 <= n ∧ heap0 <= a).
  { intros a n Ha. by destruct (ho_live _ _ _ H a n Ha) as [(? & ? & ?) _]. }
  assert (Hcov : ∀ x, covers fl x → x < u_brk s).
  { intros x (b & Hb' & Hx). destruct (ho_fl _ _ _ H b Hb') as (? & ? & ?). lia. }
  assert (Hkept : kept live (u_mem s) m) by (intros a n x Ha Hx; apply Hold; destruct (Hin a n Ha); lia).
  assert (Hnone : live !! u_brk s = None).
  { destruct (live !! u_brk s) as [n|] eqn:E; [|done]. destruct (Hin _ _ E). unfold HDR in *. lia. }
  split_and!; [done| |done]. split; cbn [u_freep u_brk u_mem].
  - done.
  - unfold HDR in *. lia.
  - apply (ho_freep _ _ _ H).
  - apply (links_ext _ _ _ _ (ho_links _ _ _ H)). intros b Hb' x Hx. apply Hold.
    apply elem_of_cons in Hb' as [->|Hb']; [cbn in Hx; lia|]. destruct (ho_fl _ _ _ H b Hb') as (? & ? & ?). unfold HDR in *. lia.
  - apply (ho_order _ _ _ H).
  - intros b Hb'. destruct (ho_fl _ _ _ H b Hb') as (? & ? & ?). unfold fits_blk, HDR in *. lia.
  - intros x Hx. destruct (decide (x < u_brk s)); [rewrite Hold by done; apply (ho_map _ _ _ H); lia|apply Hnew; lia].
  - intros a n Ha. apply lookup_insert_Some in Ha as [[<- <-]|[Hne Ha]]; [unfold fits_blk; cbn; unfold HDR in *; split; [lia|done]|].
    destruct (Hin a n Ha) as (? & ? & ?). split; [unfold fits_blk; cbn [fst snd]; unfold HDR in *; lia|].
    rewrite (word_kept _ _ _ _ _ Hkept Ha) by done. by apply (ho_live _ _ _ H).
  - intros a n x Ha Hx Hc. pose proof (Hcov x Hc). apply lookup_insert_Some in Ha as [[<- <-]|[Hne Ha]]; [lia|].
    by apply (ho_sep _ _ _ H a n x).
  - intros a n b' n' Ha Hb' Hne. apply lookup_insert_Some in Ha as [[<- <-]|[Hne1 Ha]]; apply lookup_insert_Some in Hb' as [[<- <-]|[Hne2 Hb']]; try done.
    + destruct (Hin _ _ Hb'). lia.
    + destruct (Hin _ _ Ha). lia.
    + by apply (ho_apart _ _ _ H).
  - intros x Hx. destruct (decide (x < u_brk s)) as [Hlt|Hge].
    + destruct (ho_cover _ _ _ H x ltac:(lia)) as [?|(a & n & Ha & Hx')]; [by left|]. right. exists a, n. split; [|done].
      by rewrite lookup_insert_ne by congruence.
    + right. exists (u_brk s), nu. rewrite lookup_insert_eq. split; [done|lia].
Qed.

Lemma sbrk_spec s n (Q : Z → uheap → Prop) :
  0 < n < 2147483648 → 0 <= u_brk s < KERNBASE →
  Q (u32 (-1)) s →
  (u_brk s + n < KERNBASE → ∀ l : list Z, length l = Z.to_nat n → bytes_ok l → Q (u_brk s) (UHeap (u_freep s) (u_brk s + n) (mput (u_brk s) l (u_mem s)))) →
  wp (sbrk more junk n) Q s.
Proof.
  intros Hn Hb Hfail Hok. unfold sbrk, KERNBASE in *. rewrite wp_bind, wp_get. rewrite u32_id by lia.
  rewrite (proj2 (Z.ltb_lt 0 n)) by lia. destruct (2147483648 <=? u_brk s + n) eqn:E1; cbn [orb]; [by rewrite wp_ret|].
  destruct (more (u_brk s) n); cbn [negb]; [|by rewrite wp_ret].
  rewrite (proj2 (Z.ltb_ge (u_brk s + n) (u_brk s))) by lia. rewrite wp_bind, wp_modify, wp_ret. apply Hok; [lia| |].
  - by rewrite length_fmap, length_seq.
  - apply Forall_fmap, Forall_forall. intros k _. apply u8_range.
Qed.

Lemma morecore_spec s fl live nu :
  heap_ok s fl live → 1 <= nu → HDR * nu < 2147483648 →
  wp (morecore more junk nu) (λ p s', p = 0 ∧ s' = s ∨
    p = u_freep s' ∧ p ≠ 0 ∧ u_brk s <= u_brk s' ∧ kept live (u_mem s) (u_mem s') ∧
    ∃ fl', heap_ok s' fl' live ∧ (length fl' <= S (length fl))%nat ∧ ∃ c, c ∈ fl' ∧ nu <= c.2) s.
Proof.
  intros H Hnu Hsz. unfold morecore. set (n := if nu <? 4096 then 4096 else nu).
  assert (Hn : nu <= n ∧ 1 <= n ∧ HDR * n < 2147483648) by (subst n; unfold HDR in *; destruct (nu <? 4096) eqn:?; lia).
  pose proof (ho_base _ _ _ H) as Hbase. pose proof (ho_brk _ _ _ H) as Hbrk.
  replace (i32 (u32 (n * HDR))) with (HDR * n) by (unfold HDR in *; rewrite i32_u32, i32_id; lia).
  rewrite wp_bind. apply sbrk_spec; [unfold HDR in *; lia|lia| |].
  { change (u32 (-1)) with 4294967295. rewrite Z.eqb_refl, wp_ret. auto. }
  intros Hlim l Hl Hlok. rewrite (proj2 (Z.eqb_neq _ _)) by (change (u32 (-1)) with 4294967295; unfold KERNBASE in *; lia).
  set (s1 := UHeap _ _ _). assert (Hm1 : mapped (u_mem s1) (u_brk s) 8).
  { subst s1. cbn [u_mem]. split_and!; [lia|unfold KERNBASE in *; lia|]. intros k Hk. rewrite mput_lookup, decide_True by (rewrite Hl; unfold HDR in *; lia).
    apply lookup_lt_is_Some_2. rewrite Hl. unfold HDR in *. lia. }
  rewrite wp_bind. apply wp_set_h_size; [done|]. rewrite wp_bind.
  destruct (grown_heap_ok s fl live n (store_at (u_brk s + 4) n (u_mem s1)) H ltac:(lia) Hlim) as (Hnone & Hok & Hkept).
  { intros x Hx. rewrite lookup_store_other by lia. subst s1. cbn [u_mem]. by rewrite mput_lookup, decide_False by lia. }
  { intros x Hx. apply edits_store with (p := u_brk s); [lia..|]. subst s1. cbn [u_mem]. rewrite mput_lookup, decide_True by (rewrite Hl; lia).
    apply lookup_lt_is_Some_2. rewrite Hl. lia. }
  { apply word_store_same. unfold HDR in *. lia. }
  unfold hdr_at. replace (u32 (u_brk s + HDR * 1)) with (u_brk s + 8) by (unfold HDR, KERNBASE in *; rewrite u32_id; lia).
  eapply wp_mono; [apply (free_spec _ fl _ (u_brk s) n Hok); apply lookup_insert_eq|].
  intros _ s2 (Hb2 & Hk2 & fl' & Hok2 & Hlen & c & Hc & Hcn). rewrite wp_gets. right.
  replace (delete (u_brk s) (<[u_brk s:=n]> live)) with live in * by (by rewrite delete_insert_id).
  split_and!; [done| |rewrite Hb2; subst s1; cbn; unfold HDR in *; lia| |exists fl'; split_and!; [done|done|]; exists c; split; [done|lia]].
  - destruct (ho_freep _ _ _ Hok2) as [k Hk]. apply elem_of_cons in Hk as [Hk|Hk]; [simplify_eq; lia|].
    destruct (ho_fl _ _ _ Hok2 _ Hk) as (? & _). cbn in *. lia.
  - intros a k x Ha Hx. rewrite (Hk2 a k x Ha Hx). apply (Hkept a k x Ha Hx).
Qed.

(** The heap with the block ([a], [n]) taken out of the free ones. *)
Lemma taken_heap_ok s fl live fl' (a n p : Z) (m' : mem) :
  heap_ok s fl live → links m' ((base, 0) :: fl') base → ordered ((base, 0) :: fl') →
  (∀ b, b ∈ fl' → fits_blk (u_brk s) b) → fits_blk (u_brk s) (a, n) → (∃ np, (p, np) ∈ (base, 0) :: fl') →
  (∀ x, covers fl x ↔ covers fl' x ∨ a <= x < a + HDR * n) → (∀ x, a <= x < a + HDR * n → ¬ covers fl' x) →
  (∀ x, is_Some (u_mem s !! x) → is_Some (m' !! x)) → (∀ x, heap0 <= x → ¬ covers fl x → m' !! x = u_mem s !! x) →
  word m' (a + 4) = n →
  live !! a = None ∧ heap_ok (UHeap p (u_brk s) m') fl' (<[a := n]> live) ∧ kept live (u_mem s) m'.
Proof.
  intros H Hl Ho Hfl Hfit Hp Hcov Hdis Hdom Hfr Hw. pose proof Hfit as (Ha0 & Hn & Hae). cbn [fst snd] in *.
  assert (Hkept : kept live (u_mem s) m').
  { intros b' n' x Hb Hx. destruct (ho_live _ _ _ H b' n' Hb) as [(? & _) _]. cbn [fst] in *. apply Hfr; [lia|]. by apply (ho_sep _ _ _ H b' n'). }
  assert (Hin : ∀ b' n' x : Z, live !! b' = Some n' → b' <= x < b' + HDR * n' → ¬ (a <= x < a + HDR * n)).
  { intros b' n' x Hb Hx Hx'. apply (ho_sep _ _ _ H b' n' x Hb Hx), Hcov. by right. }
  assert (Hap : ∀ b' n' : Z, live !! b' = Some n' → a + HDR * n <= b' ∨ b' + HDR * n' <= a).
  { intros b' n' Hb. destruct (ho_live _ _ _ H b' n' Hb) as [(_ & ? & _) _]. cbn [snd] in *.
    pose proof (Hin b' n' b' Hb). pose proof (Hin b' n' a Hb). unfold HDR in *. lia. }
  assert (Hnone : live !! a = None).
  { destruct (live !! a) as [n'|] eqn:E; [|done]. destruct (ho_live _ _ _ H _ _ E) as [(_ & ? & _) _]. cbn in *.
    specialize (Hap _ _ E). unfold HDR in *. lia. }
  split_and!; [done| |done]. split; cbn [u_freep u_brk u_mem]; try done.
  - apply (ho_base _ _ _ H).
  - apply (ho_brk _ _ _ H).
  - intros x Hx. by apply Hdom, (ho_map _ _ _ H).
  - intros b' n' Hb. apply lookup_insert_Some in Hb as [[<- <-]|[Hne Hb]]; [done|].
    destruct (ho_live _ _ _ H b' n' Hb) as [Hf Hwb]. split; [done|]. rewrite <- Hwb. apply (word_kept _ _ _ _ _ Hkept Hb). apply Hf.
  - intros b' n' x Hb Hx. apply lookup_insert_Some in Hb as [[<- <-]|[Hne Hb]]; [by apply Hdis|].
    intros Hc. apply (ho_sep _ _ _ H b' n' x Hb Hx), Hcov. by left.
  - intros a1 n1 b' n' H1 H2 Hne. apply lookup_insert_Some in H1 as [[<- <-]|[Hne1 H1]]; apply lookup_insert_Some in H2 as [[<- <-]|[Hne2 H2]]; try done.
    + by apply Hap.
    + apply Hap in H1. tauto.
    + by apply (ho_apart _ _ _ H).
  - intros x Hx. destruct (ho_cover _ _ _ H x Hx) as [Hc%Hcov|(b' & n' & Hb & Hx')].
    + destruct Hc as [?|?]; [by left|]. right. exists a, n. by rewrite lookup_insert_eq.
    + right. exists b', n'. by rewrite lookup_insert_ne by congruence.
Qed.

Definition took live nunits s p s' : Prop :=
  u_brk s' = u_brk s ∧ kept live (u_mem s) (u_mem s') ∧
  ∃ a fl', p = a + 8 ∧ 0 < a ∧ live !! a = None ∧ heap_ok s' fl' (<[a := nunits]> live).

Lemma ring_tail fl j q k : (base, 0) :: fl = j ++ q :: k → ∀ k', ∃ fl', j ++ q :: k' = (base, 0) :: fl'.
Proof. intros E k'. destruct j as [|b j]; cbn in *; simplify_eq; eauto. Qed.

(** The blocks around one of the ring. *)
Lemma ring_facts s fl live j q b k :
  heap_ok s fl live → (base, 0) :: fl = j ++ q :: b :: k →
  b ∈ fl ∧ (∀ c, c ∈ k → c ∈ fl) ∧ (∀ c, c ∈ j ++ [q] → c = (base, 0) ∨ c ∈ fl) ∧ 0 < q.1 ∧
  (∀ c, c ∈ j ++ [q] → below_blk c b) ∧ (∀ c, c ∈ k → below_blk b c) ∧ (∀ c, c ∈ j → below_blk c q).
Proof.
  intros H E. pose proof (ho_order _ _ _ H) as Ho. rewrite E in Ho. apply ordered_app in Ho as (Hj & _ & Ho).
  apply ordered_cons in Ho as [Hq Ho]. apply ordered_cons in Ho as [Hb _]. pose proof (ho_base _ _ _ H).
  assert (Hcase : ∀ c, c ∈ j ++ [q] → c = (base, 0) ∨ c ∈ fl).
  { intros c Hc. assert (Hc' : c ∈ (base, 0) :: fl) by (rewrite E; set_solver). apply elem_of_cons in Hc'. tauto. }
  split_and!.
  - destruct j as [|d j]; cbn in E; simplify_eq; set_solver.
  - intros c Hc. destruct j as [|d j]; cbn in E; simplify_eq; set_solver.
  - done.
  - destruct (Hcase q ltac:(set_solver)) as [->|Hc]; [cbn; lia|]. destruct (ho_fl _ _ _ H q Hc) as (? & _). lia.
  - intros c Hc. apply elem_of_app in Hc as [Hc|Hc]; [apply Hj; [done|set_solver]|apply list_elem_of_singleton in Hc as ->; apply Hq; left].
  - done.
  - intros c Hc. apply Hj; [done|left].
Qed.

Lemma covers_ring fl j q b k x : (base, 0) :: fl = j ++ q :: b :: k → covers fl x ↔ covers (j ++ [q]) x ∨ b.1 <= x < b.1 + HDR * b.2 ∨ covers k x.
Proof. intros E. rewrite <- (covers_base fl), E, covers_app, !covers_cons, covers_app, covers_cons. pose proof (covers_base [] x). unfold covers. set_solver. Qed.

Lemma ordered_without j q b k : ordered (j ++ q :: b :: k) → ordered (j ++ q :: k).
Proof.
  rewrite !ordered_app, !ordered_cons. intros (Ho1 & Ho2 & Ho3 & _ & Ho4). split_and!; [set_solver|done|set_solver|done].
Qed.

(** The base is only at the head of an ordered ring. *)
Lemma base_first fl c : ordered ((base, 0) :: fl) → c ∈ fl → c ≠ (base, 0).
Proof. intros Ho%ordered_cons Hc ->. destruct Ho as [Ho _]. specialize (Ho _ Hc). unfold below_blk, room, HDR in Ho. cbn in Ho. lia. Qed.

(** A block that fits exactly leaves the list. *)
Lemma take_exact s fl live j q b k :
  heap_ok s fl live → (base, 0) :: fl = j ++ q :: b :: k →
  took live b.2 s (b.1 + 8) (UHeap q.1 (u_brk s) (store_at q.1 (first_of k base) (u_mem s))).
Proof.
  intros H E. destruct (ring_facts _ _ _ _ _ _ _ H E) as (Hb & Hk & Hjq & Hq0 & Hlo & Hhi & Hj).
  destruct (ring_tail fl j q (b :: k) E k) as [fl' E'].
  pose proof (ho_links _ _ _ H) as Hl. rewrite E in Hl. apply links_app in Hl as [Hlj [Hlq [Hlb Hlk]]]. cbn [first_of] in *.
  pose proof (ho_order _ _ _ H) as Ho. rewrite E in Ho. pose proof (ordered_without _ _ _ _ Ho) as Ho'. rewrite E' in Ho'.
  destruct (ho_fl _ _ _ H b Hb) as (Hb0 & Hb1 & Hb2). pose proof (ho_base _ _ _ H). pose proof (ho_brk _ _ _ H).
  pose proof (Hlo q ltac:(set_solver)) as Hqb. unfold below_blk, room, HDR, KERNBASE in *.
  assert (Hcov' : ∀ x, covers fl' x ↔ covers (j ++ [q]) x ∨ covers k x).
  { intros x. rewrite <- (covers_base fl'), <- E', !covers_app, covers_cons. unfold covers. set_solver. }
  destruct (taken_heap_ok s fl live fl' b.1 b.2 q.1 (store_at q.1 (first_of k base) (u_mem s)) H) as (Hnone & Hok & Hkept).
  - rewrite <- E'. apply links_app. cbn [first_of links]. split_and!.
    + apply (links_ext _ _ _ _ Hlj). intros c Hc x Hx. apply lookup_store_other. specialize (Hj c Hc). lia.
    + destruct Hlq as (Hm & _ & Hw). split_and!; [by apply mapped_store| |rewrite word_store_other by lia; done].
      apply word_store_same. apply first_of_range; [lia|]. intros c Hc. destruct (ho_fl _ _ _ H c (Hk c Hc)) as (? & ? & ?). unfold HDR in *. lia.
    + apply (links_ext _ _ _ _ Hlk). intros c Hc x Hx. apply lookup_store_other. specialize (Hhi c Hc). lia.
  - done.
  - intros c Hc. pose proof (base_first fl' c Ho' Hc). assert (Hc' : c ∈ (base, 0) :: fl') by by right.
    rewrite <- E' in Hc'. assert (Hc2 : c ∈ (base, 0) :: fl) by (rewrite E; set_solver).
    apply elem_of_cons in Hc2 as [->|Hc2]; [done|by apply (ho_fl _ _ _ H)].
  - done.
  - exists q.2. rewrite <- E'. destruct q. set_solver.
  - intros x. rewrite Hcov', (covers_ring fl j q b k x E). tauto.
  - intros x Hx. rewrite Hcov'. intros [(c & Hc & Hcx)|(c & Hc & Hcx)].
    + specialize (Hlo c Hc). unfold HDR in *. lia.
    + specialize (Hhi c Hc). unfold HDR in *. lia.
  - apply (edits_store _ _ _ q.1); lia.
  - intros x Hx Hc. apply lookup_store_other. destruct (Hjq q ltac:(set_solver)) as [->|Hq]; [cbn; lia|].
    destruct (ho_fl _ _ _ H q Hq) as (_ & ? & _). destruct (decide (x < q.1 ∨ q.1 + 4 <= x)); [done|]. exfalso. apply Hc. exists q. unfold HDR. split; [done|lia].
  - rewrite word_store_other by lia. apply Hlb.
  - split_and!; [done|done|]. exists b.1, fl'. split_and!; [done|lia|done|done].
Qed.

(** A larger block gives its upper end. *)
Lemma take_split s fl live j q b k nunits (a := b.1 + HDR * (b.2 - nunits)) :
  heap_ok s fl live → (base, 0) :: fl = j ++ q :: b :: k → 1 <= nunits < b.2 →
  took live nunits s (a + 8) (UHeap q.1 (u_brk s) (store_at (a + 4) nunits (store_at (b.1 + 4) (b.2 - nunits) (u_mem s)))).
Proof.
  intros H E Hn. destruct (ring_facts _ _ _ _ _ _ _ H E) as (Hb & Hk & Hjq & Hq0 & Hlo & Hhi & Hj). set (b' := (b.1, b.2 - nunits)).
  destruct (ring_tail fl j q (b :: k) E (b' :: k)) as [fl' E'].
  pose proof (ho_links _ _ _ H) as Hl. rewrite E in Hl. apply links_app in Hl as [Hlj [Hlq [Hlb Hlk]]]. cbn [first_of] in *.
  pose proof (ho_order _ _ _ H) as Ho. rewrite E in Ho.
  destruct (ho_fl _ _ _ H b Hb) as (Hb0 & Hb1 & Hb2). pose proof (ho_base _ _ _ H). pose proof (ho_brk _ _ _ H).
  pose proof (Hlo q ltac:(set_solver)) as Hqb. subst a. unfold below_blk, room, HDR, KERNBASE in *.
  set (a := b.1 + 8 * (b.2 - nunits)) in *. assert (b.1 + 8 <= a) by (subst a; lia). assert (Hab : a + 8 * nunits = b.1 + 8 * b.2) by (subst a; lia).
  set (m' := store_at (a + 4) nunits _).
  assert (Hfr : ∀ x, x < b.1 ∨ b.1 + 8 * b.2 <= x → m' !! x = u_mem s !! x).
  { intros x Hx. subst m'. by rewrite !lookup_store_other by lia. }
  assert (Ho' : ordered ((base, 0) :: fl')).
  { rewrite <- E'. rewrite ordered_app, !ordered_cons in *. destruct Ho as (Ho1 & Ho2 & Ho3 & Ho4 & Ho5). unfold below_blk, room, HDR in *.
    split_and!; [|done| | |done].
    - intros c d Hc Hd. repeat (apply elem_of_cons in Hd as [->|Hd]); [apply Ho1; [done|left]|apply (Ho1 c b Hc); set_solver|apply Ho1; [done|set_solver]].
    - intros d Hd. apply elem_of_cons in Hd as [->|Hd]; [done|]. apply Ho3. set_solver.
    - intros d Hd. specialize (Ho4 d Hd). subst b'. cbn [fst snd]. lia. }
  assert (Hcov' : ∀ x, covers fl' x ↔ covers (j ++ [q]) x ∨ b.1 <= x < a ∨ covers k x).
  { intros x. rewrite (covers_ring fl' j q b' k x (eq_sym E')). subst b'. cbn [fst snd]. unfold HDR.
    replace (b.1 + 8 * (b.2 - nunits)) with a by done. done. }
  destruct (taken_heap_ok s fl live fl' a nunits q.1 m' H) as (Hnone & Hok & Hkept).
  - rewrite <- E'. apply links_app. cbn [first_of links]. split_and!.
    + apply (links_ext _ _ _ _ Hlj). intros c Hc x Hx. apply Hfr. specialize (Hlo c ltac:(set_solver)). lia.
    + apply (header_ext _ _ _ _ _ Hlq). intros x Hx. apply Hfr. lia.
    + destruct Hlb as (Hm & Hp & Hw). subst m' b'. cbn [fst snd].
      split_and!; [by do 2 apply mapped_store|rewrite !word_store_other by lia; done|].
      rewrite word_store_other, word_store_same by lia. done.
    + apply (links_ext _ _ _ _ Hlk). intros c Hc x Hx. apply Hfr. specialize (Hhi c Hc). lia.
  - done.
  - intros c Hc. pose proof (base_first fl' c Ho' Hc). assert (Hc' : c ∈ (base, 0) :: fl') by by right. rewrite <- E' in Hc'.
    destruct (decide (c = b')) as [->|Hne]; [subst b'; unfold fits_blk, HDR; cbn [fst snd]; lia|].
    assert (Hc2 : c ∈ (base, 0) :: fl) by (rewrite E; set_solver). apply elem_of_cons in Hc2 as [->|Hc2]; [done|by apply (ho_fl _ _ _ H)].
  - unfold fits_blk, HDR. cbn [fst snd]. lia.
  - exists q.2. rewrite <- E'. destruct q. set_solver.
  - intros x. rewrite Hcov', (covers_ring fl j q b k x E). unfold HDR.
    assert (b.1 <= x < b.1 + 8 * b.2 ↔ b.1 <= x < a ∨ a <= x < a + 8 * nunits) by lia. tauto.
  - intros x Hx. rewrite Hcov'. unfold HDR in *. intros [(c & Hc & Hcx)|[Hx'|(c & Hc & Hcx)]].
    + specialize (Hlo c Hc). unfold HDR in *. lia.
    + lia.
    + specialize (Hhi c Hc). unfold HDR in *. lia.
  - intros x Hx. apply (edits_store _ _ _ a); [lia..|]. apply (edits_store _ _ _ b.1); [lia..|done].
  - intros x Hx Hc. apply Hfr. destruct (decide (x < b.1 ∨ b.1 + 8 * b.2 <= x)); [done|]. exfalso. apply Hc. exists b. unfold HDR. split; [done|lia].
  - apply word_store_same. lia.
  - split_and!; [done|done|]. exists a, fl'. split_and!; [done|lia|done|done].
Qed.

Lemma take_block_spec s fl live j q b k nunits :
  heap_ok s fl live → (base, 0) :: fl = j ++ q :: b :: k → 1 <= nunits <= b.2 →
  wp (take_block nunits q.1 b.1) (took live nunits s) s.
Proof.
  intros H E Hn. destruct (ring_facts _ _ _ _ _ _ _ H E) as (Hb & Hk & Hjq & Hq0 & Hlo & Hhi & Hj).
  pose proof (ho_links _ _ _ H) as Hl. rewrite E in Hl. apply links_app in Hl as [_ [Hlq [Hlb _]]].
  destruct (ho_fl _ _ _ H b Hb) as (Hb0 & Hb1 & Hb2). pose proof (ho_base _ _ _ H). pose proof (ho_brk _ _ _ H).
  unfold take_block, hdr_at. rewrite wp_bind. apply wp_h_size; [apply Hlb|]. rewrite (proj2 (proj2 Hlb)), wp_bind.
  unfold HDR, KERNBASE in *. destruct (b.2 =? nunits) eqn:En.
  - assert (nunits = b.2) as -> by lia. rewrite wp_bind. apply wp_h_ptr; [apply Hlb|]. rewrite (proj1 (proj2 Hlb)), wp_bind.
    apply wp_set_h_ptr; [apply Hlq|]. rewrite wp_ret, wp_bind. unfold set_freep. rewrite wp_modify, wp_ret, u32_id by lia.
    replace (b.1 + 8 * 1) with (b.1 + 8) by lia. apply (take_exact s fl live j q b k H E).
  - rewrite (u32_id (b.2 - nunits)), wp_bind by lia. apply wp_set_h_size; [apply Hlb|].
    rewrite (u32_id (b.1 + 8 * (b.2 - nunits))), wp_bind by lia. apply wp_set_h_size.
    { apply mapped_store. apply (map_mapped s fl live); [done|lia|unfold HDR in *; lia]. }
    rewrite wp_ret, wp_bind. unfold set_freep. rewrite wp_modify, wp_ret, u32_id by lia.
    replace (b.1 + 8 * (b.2 - nunits) + 8 * 1) with (b.1 + 8 * (b.2 - nunits) + 8) by lia. apply (take_split s fl live j q b k nunits H E). lia.
Qed.

(** ** The search of [malloc] *)

(** [c] comes right after [q]. *)
Definition consec l q b : Prop := ∃ k1 k2, l = k1 ++ q :: b :: k2.

Lemma consec_app l k q b : consec (l ++ k) q b → consec l q b ∨ consec k q b ∨ ∃ k', k = b :: k'.
Proof.
  induction l as [|c l IH]; cbn [app]; [tauto|]. intros (k1 & k2 & E). destruct k1 as [|d k1]; cbn [app] in E; simplify_eq.
  - destruct l as [|c' l]; cbn [app] in *; [right; right; eauto|]. simplify_eq. left. by exists [], l.
  - destruct (IH ltac:(by exists k1, k2)) as [(i1 & i2 & ->)|?]; [|tauto]. left. by exists (d :: i1), i2.
Qed.

Lemma walk_spec s nunits f k stop q fuel (Q : Z → uheap → Prop) :
  links (u_mem s) (k ++ [f]) stop → (∀ c, c ∈ k → c.1 ≠ f.1) → u_freep s = f.1 → (length k < fuel)%nat →
  (∀ p c, consec (q :: k ++ [f]) p c → nunits <= c.2 → wp (take_block nunits p.1 c.1) Q s) →
  ((∀ c, c ∈ k ++ [f] → c.2 < nunits) →
   wp (p ← morecore more junk nunits; if p =? 0 then mret 0 else next ← h_ptr p; malloc_loop more junk (fuel - length k - 1) nunits p next) Q s) →
  wp (malloc_loop more junk fuel nunits q.1 (first_of (k ++ [f]) stop)) Q s.
Proof.
  revert q fuel. induction k as [|c k IH]; intros q fuel Hl Hne Hf Hfuel HF HM; (destruct fuel as [|fuel]; [cbn in Hfuel; lia|]);
    cbn [app first_of malloc_loop links] in *; destruct Hl as [Hh Hl]; rewrite wp_bind; (apply wp_h_size; [apply Hh|]); rewrite (proj2 (proj2 Hh)).
  - destruct (nunits <=? f.2) eqn:E; [apply HF; [by exists [], []|lia]|]. rewrite wp_bind, wp_gets, Hf, Z.eqb_refl.
    cbn [length] in HM. rewrite Nat.sub_0_r in HM. cbn [Nat.sub] in HM. rewrite Nat.sub_0_r in HM. apply HM. intros c Hc. apply list_elem_of_singleton in Hc as ->. lia.
  - destruct (nunits <=? c.2) eqn:E; [apply HF; [by exists [], (k ++ [f])|lia]|]. rewrite wp_bind, wp_gets, Hf.
    rewrite (proj2 (Z.eqb_neq c.1 f.1)) by (apply Hne; left). rewrite wp_bind. apply wp_h_ptr; [apply Hh|]. rewrite (proj1 (proj2 Hh)).
    apply IH; [done|set_solver|done|cbn in Hfuel; lia| |].
    + intros p d (k1 & k2 & E'). apply HF. exists (q :: k1), k2. by rewrite E'.
    + intros Hs. cbn [length] in HM. replace (S fuel - S (length k) - 1)%nat with (fuel - length k - 1)%nat in HM by lia.
      apply HM. intros d Hd. apply elem_of_cons in Hd as [->|Hd]; [lia|by apply Hs].
Qed.

Lemma ordered_unique l k b c : ordered (l ++ b :: k) → c ∈ l ++ k → c.1 ≠ b.1.
Proof.
  rewrite ordered_app, ordered_cons. unfold below_blk, room, HDR. intros (H1 & _ & H2 & _) Hc. apply elem_of_app in Hc as [Hc|Hc].
  - specialize (H1 c b Hc ltac:(left)). lia.
  - specialize (H2 c Hc). lia.
Qed.

(** Once around the ring from [freep]. *)
Lemma round_spec s fl live nunits fuel (Q : Z → uheap → Prop) :
  heap_ok s fl live → 1 <= nunits → (length ((base, 0%Z) :: fl) <= fuel)%nat →
  (∀ j q b k, (base, 0) :: fl = j ++ q :: b :: k → nunits <= b.2 → wp (take_block nunits q.1 b.1) Q s) →
  ((∀ c, c ∈ fl → c.2 < nunits) →
   wp (p ← morecore more junk nunits; if p =? 0 then mret 0 else
       next ← h_ptr p; malloc_loop more junk (fuel - length ((base, 0%Z) :: fl)) nunits p next) Q s) →
  wp (p ← h_ptr (u_freep s); malloc_loop more junk fuel nunits (u_freep s) p) Q s.
Proof.
  intros H Hn Hfuel HF HM. destruct (ho_freep _ _ _ H) as [nf Hf]. apply list_elem_of_split in Hf as (l1 & l2 & E).
  pose proof (ho_links _ _ _ H) as Hl. rewrite E in Hl. apply links_app in Hl as [Hl1 [Hhf Hl2]].
  pose proof (ho_order _ _ _ H) as Ho. rewrite E in Ho. cbn [first_of fst snd] in *. set (f := (u_freep s, nf)) in *.
  assert (Hfirst : ∀ stop, first_of (l1 ++ [f]) stop = base).
  { intros stop. destruct l1 as [|b l1]; cbn in E |- *; by simplify_eq. }
  rewrite wp_bind. apply wp_h_ptr; [apply Hhf|]. rewrite (proj1 (proj2 Hhf)).
  assert (Ew : first_of l2 base = first_of ((l2 ++ l1) ++ [f]) (first_of l2 base)) by (rewrite <- app_assoc, first_of_app, Hfirst; done).
  rewrite Ew. change (u_freep s) with f.1. apply walk_spec.
  - rewrite <- app_assoc. apply links_app. rewrite Hfirst. split; [done|]. apply links_app. cbn [first_of links]. done.
  - intros c Hc. apply (ordered_unique l1 l2 f c Ho). set_solver.
  - done.
  - apply (f_equal length) in E. rewrite length_app in *. cbn [length] in *. lia.
  - intros p c Hc Hcn. rewrite <- app_assoc in Hc. change (f :: l2 ++ l1 ++ [f]) with ((f :: l2) ++ (l1 ++ [f])) in Hc.
    apply consec_app in Hc as [(k1 & k2 & E1)|[(k1 & k2 & E1)|(k' & E1)]].
    + apply (HF (l1 ++ k1) p c k2); [|done]. by rewrite E, <- app_assoc, <- E1.
    + apply (HF k1 p c (k2 ++ l2)); [|done]. rewrite E. change (f :: l2) with ([f] ++ l2). rewrite app_assoc, E1, <- app_assoc. done.
    + specialize (Hfirst 0). destruct l1 as [|b l1]; cbn in E, E1; simplify_eq; cbn in Hcn; lia.
  - intros Hs. replace (fuel - length (l2 ++ l1) - 1)%nat with (fuel - length ((base, 0%Z) :: fl))%nat.
    + apply HM. intros c Hc. apply Hs. assert (Hc' : c ∈ (base, 0) :: fl) by by right. rewrite E in Hc'. set_solver.
    + apply (f_equal length) in E. rewrite E, !length_app. cbn [length]. lia.
Qed.

Definition got live nunits s p s' : Prop :=
  u_brk s <= u_brk s' ∧ kept live (u_mem s) (u_mem s') ∧
  (p = 0 ∧ (∃ fl, heap_ok s' fl live) ∨
   ∃ a fl, p = a + 8 ∧ 0 < a ∧ live !! a = None ∧ heap_ok s' fl (<[a := nunits]> live)).

Lemma malloc_ring s fl live nunits fuel :
  heap_ok s fl live → 1 <= nunits → HDR * nunits < 2147483648 → (2 * length ((base, 0%Z) :: fl) + 1 <= fuel)%nat →
  wp (p ← h_ptr (u_freep s); malloc_loop more junk fuel nunits (u_freep s) p) (got live nunits s) s.
Proof.
  intros H Hn Hsz Hfuel. apply (round_spec s fl live); [done|done|lia| |].
  { intros j q b k E Hb. apply (wp_mono _ _ _ _ (take_block_spec s fl live j q b k nunits H E ltac:(lia))).
    intros p s' (Hbrk & Hk & a & fl' & -> & Ha & Hnone & Hok). split_and!; [lia|done|]. right. by exists a, fl'. }
  intros _. rewrite wp_bind. apply (wp_mono _ _ _ _ (morecore_spec s fl live nunits H Hn Hsz)).
  intros p s' [[-> ->]|(-> & Hp & Hbrk & Hk & fl' & Hok & Hlen & c & Hc & Hcn)].
  { rewrite Z.eqb_refl, wp_ret. split_and!; [lia|done|]. left. eauto. }
  rewrite (proj2 (Z.eqb_neq _ _) Hp). apply (round_spec s' fl' live); [done|done|cbn [length] in *; lia| |].
  - intros j q b k E Hb. apply (wp_mono _ _ _ _ (take_block_spec s' fl' live j q b k nunits Hok E ltac:(lia))).
    intros p s2 (Hbrk2 & Hk2 & a & fl2 & -> & Ha & Hnone & Hok2). split_and!; [lia| |right; by exists a, fl2].
    intros a' n' x Ha' Hx. rewrite (Hk2 a' n' x Ha' Hx). by apply (Hk a' n').
  - intros Hsmall. specialize (Hsmall c Hc). lia.
Qed.

(** Before the first [malloc], and from then on. *)
Definition heap_inv s live : Prop :=
  (∃ fl, heap_ok s fl live) ∨
  u_freep s = 0 ∧ live = ∅ ∧ u_brk s = heap0 ∧ mapped (u_mem s) base 8 ∧ 0 < base ∧ base + 8 <= heap0 < KERNBASE.

Lemma units_room nbytes : 0 <= nbytes < 0x7FFFFFF0 → 1 <= units nbytes ∧ HDR * units nbytes < 2147483648 ∧ nbytes + HDR <= HDR * units nbytes.
Proof. intros Hn. unfold units, HDR. rewrite u32_id by lia. dlia. Qed.

Lemma malloc_spec s live nbytes :
  heap_inv s live → 0 <= nbytes < 0x7FFFFFF0 → wp (malloc base more junk nbytes) (got live (units nbytes) s) s.
Proof.
  intros Hinv Hnb. destruct (units_room nbytes Hnb) as (Hu1 & Hu2 & _). unfold malloc. rewrite wp_bind, wp_get, wp_bind.
  destruct Hinv as [[fl H]|(Hfp & -> & Hbrk & Hm & Hb0 & Hb1)].
  - assert (u_freep s ≠ 0).
    { pose proof (ho_base _ _ _ H). destruct (ho_freep _ _ _ H) as [k Hk]. apply elem_of_cons in Hk as [Hk|Hk]; [simplify_eq; lia|].
      destruct (ho_fl _ _ _ H _ Hk) as (? & _). cbn in *. lia. }
    rewrite (proj2 (Z.eqb_neq _ _)) by done. rewrite wp_ret, wp_bind, wp_gets. apply (malloc_ring s fl); [done|done|done|].
    pose proof (ring_length s fl live H). pose proof (ho_base _ _ _ H). unfold HDR in *.
    revert H1. generalize (length ((base, 0) :: fl)). intros len Hlen. clear - Hlen H2. dlia.
  - rewrite Hfp. cbn [Z.eqb]. rewrite wp_bind. unfold set_freep. rewrite wp_modify, wp_bind. apply wp_set_h_ptr; [done|].
    apply wp_set_h_size; [by apply mapped_store|]. rewrite wp_bind, wp_gets. cbn [u_mem u_brk u_freep with_mem].
    set (m := store_at (base + 4) _ _). unfold KERNBASE in *.
    assert (Hok : heap_ok (UHeap base (u_brk s) m) [] ∅).
    { split; cbn [u_freep u_brk u_mem]; unfold KERNBASE in *; try (intros; done || lia).
      - exists 0. left.
      - cbn [links first_of fst snd]. split; [|done]. subst m.
        split_and!; [by do 2 apply mapped_store|rewrite word_store_other by lia; apply word_store_same; lia|apply word_store_same; lia].
      - repeat constructor.
      - intros b Hb. set_solver. }
    apply (wp_mono _ _ _ _ (malloc_ring _ [] ∅ (units nbytes) (2 * Z.to_nat (u_brk s / HDR) + 6) Hok Hu1 Hu2 ltac:(cbn [length]; lia))).
    intros p s' (? & _ & Hr). cbn [u_brk] in *. split_and!; [done|intros a n x Ha; by rewrite lookup_empty in Ha|done].
Qed.

(** ** Programs that use the allocator *)

(** A program with its blocks: it allocates, gives a block back, or writes a
    byte of a block it has. *)
Inductive ustep : uheap * gmap Z Z → uheap * gmap Z Z → Prop :=
| U_malloc s live nbytes p s' :
    0 <= nbytes < 0x7FFFFFF0 → malloc base more junk nbytes s = Ret p s' →
    ustep (s, live) (s', if p =? 0 then live else <[p - 8 := units nbytes]> live)
| U_free s live a n s' :
    live !! a = Some n → free (a + 8) s = Ret tt s' → ustep (s, live) (s', delete a live)
| U_write s live a n x v :
    live !! a = Some n → a + 8 <= x < a + HDR * n → is_u8 v →
    ustep (s, live) (UHeap (u_freep s) (u_brk s) (<[x := v]> (u_mem s)), live).

Lemma write_heap_ok s fl live a n x v :
  heap_ok s fl live → live !! a = Some n → a + 8 <= x < a + HDR * n →
  heap_ok (UHeap (u_freep s) (u_brk s) (<[x := v]> (u_mem s))) fl live.
Proof.
  intros H Ha Hx. destruct (ho_live _ _ _ H a n Ha) as [(Ha0 & Hn & Hae) Hw]. pose proof (ho_base _ _ _ H). cbn [fst snd] in *.
  split; cbn [u_freep u_brk u_mem]; try apply H.
  - apply (links_ext _ _ _ _ (ho_links _ _ _ H)). intros b Hb y Hy. apply lookup_insert_ne. intros <-.
    apply elem_of_cons in Hb as [->|Hb]; [cbn in Hy; lia|]. destruct (ho_fl _ _ _ H b Hb) as (_ & ? & _).
    apply (ho_sep _ _ _ H a n x Ha); [lia|]. exists b. unfold HDR. split; [done|lia].
  - intros y Hy. destruct (decide (x = y)) as [<-|Hne]; [by rewrite lookup_insert_eq|]. rewrite lookup_insert_ne by done. by apply (ho_map _ _ _ H).
  - intros a' n' Ha'. destruct (ho_live _ _ _ H a' n' Ha') as [Hf Hw']. split; [done|]. rewrite <- Hw'. apply word_ext. intros i Hi.
    apply lookup_insert_ne. destruct (decide (a = a')) as [<-|Hne]; [lia|]. pose proof (ho_apart _ _ _ H _ _ _ _ Ha Ha' Hne).
    destruct Hf as (_ & ? & _). cbn [fst snd] in *. unfold HDR in *. lia.
Qed.

Lemma ustep_inv c c' : ustep c c' → heap_inv c.1 c.2 → heap_inv c'.1 c'.2.
Proof.
  intros Hs Hinv. destruct Hs as [s live nbytes p s' Hn E|s live a n s' Ha E|s live a n x v Ha Hx Hv]; cbn [fst snd] in *.
  - pose proof (malloc_spec s live nbytes Hinv Hn) as Hw. unfold wp in Hw. rewrite E in Hw. left.
    destruct Hw as (_ & _ & [[-> H]|(a & fl & -> & Ha & _ & H)]); [done|].
    rewrite (proj2 (Z.eqb_neq _ _)) by lia. exists fl. by replace (a + 8 - 8) with a by lia.
  - destruct Hinv as [[fl H]|(_ & -> & _)]; [|by rewrite lookup_empty in Ha].
    pose proof (free_spec s fl live a n H Ha) as Hw. unfold wp in Hw. rewrite E in Hw. destruct Hw as (_ & _ & fl' & H' & _). left. eauto.
  - destruct Hinv as [[fl H]|(_ & -> & _)]; [|by rewrite lookup_empty in Ha]. left. exists fl. by apply (write_heap_ok s fl live a n).
Qed.

Lemma usteps_inv c c' : rtc ustep c c' → heap_inv c.1 c.2 → heap_inv c'.1 c'.2.
Proof. induction 1; eauto using ustep_inv. Qed.

(** A process before its first call of [malloc]. *)
Definition heap_start s : Prop :=
  u_freep s = 0 ∧ u_brk s = heap0 ∧ mapped (u_mem s) base 8 ∧ 0 < base ∧ base + 8 <= heap0 < KERNBASE.

(** The byte [x] is in a block of the program. *)
Definition in_live live (x : Z) : Prop := ∃ a n, live !! a = Some n ∧ a <= x < a + HDR * n.

(** C15: user-level malloc and free (umalloc.c).  After any sequence of [malloc],
    [free] of blocks the program holds and writes to such blocks, in memory
    as byte-addressed cells with the list threaded through the free blocks:
    the program's blocks lie in the heap and do not overlap; every byte of
    the heap is in exactly one free or live block (nothing leaks); [malloc]
    of any size below 2^31 - 16 and [free] of a live block return (no fault,
    no endless loop), change no byte of a live block, and a non-null result
    of [malloc] is a block that was in no live one and has room for the
    bytes asked for. *)
Theorem malloc_heap_sound s0 s live :
  heap_start s0 → rtc ustep (s0, ∅) (s, live) →
  (∀ a n, live !! a = Some n → heap0 <= a ∧ a + HDR * n <= u_brk s) ∧
  (∀ a n a2 n2 : Z, live !! a = Some n → live !! a2 = Some n2 → a ≠ a2 → a + HDR * n <= a2 ∨ a2 + HDR * n2 <= a) ∧
  (u_freep s ≠ 0 → ∃ fl, links (u_mem s) ((base, 0) :: fl) base ∧ ∀ x, heap0 <= x < u_brk s → (covers fl x ↔ ¬ in_live live x)) ∧
  (∀ nbytes, 0 <= nbytes < 0x7FFFFFF0 →
     ∃ p s', malloc base more junk nbytes s = Ret p s' ∧ kept live (u_mem s) (u_mem s') ∧
       (p ≠ 0 → heap0 <= p - 8 ∧ p + nbytes <= u_brk s' ∧ ∀ x, p - 8 <= x < p + nbytes → ¬ in_live live x)) ∧
  (∀ a n, live !! a = Some n → ∃ s', free (a + 8) s = Ret tt s' ∧ kept (delete a live) (u_mem s) (u_mem s')).
Proof.
  intros (? & ? & ? & ? & ?) Hr. pose proof (usteps_inv _ _ Hr ltac:(right; cbn; tauto)) as Hinv. cbn [fst snd] in Hinv.
  split_and!.
  - intros a n Ha. destruct Hinv as [[fl H']|(_ & -> & _)]; [|by rewrite lookup_empty in Ha].
    by destruct (ho_live _ _ _ H' a n Ha) as [(? & ? & ?) _].
  - intros a n b k Ha. destruct Hinv as [[fl H']|(_ & -> & _)]; [by apply (ho_apart _ _ _ H')|by rewrite lookup_empty in Ha].
  - intros Hf. destruct Hinv as [[fl H']|(? & _)]; [|done]. exists fl. split; [apply (ho_links _ _ _ H')|]. intros x Hx. split.
    + intros Hc (a & n & Ha & Hax). by apply (ho_sep _ _ _ H' a n x).
    + intros Hn. by destruct (ho_cover _ _ _ H' x Hx).
  - intros nbytes Hn. destruct (proj1 (wp_elim _ _ _) (malloc_spec s live nbytes Hinv Hn)) as (p & s' & E & Hb & Hk & Hp).
    destruct (units_room nbytes Hn) as (_ & _ & Hroom). exists p, s'. split_and!; [done|done|]. intros Hp0.
    destruct Hp as [[? _]|(a & fl & -> & Ha & Hnone & H')]; [done|].
    destruct (ho_live _ _ _ H' a (units nbytes) (lookup_insert_eq _ _ _)) as [(? & ? & ?) _]. cbn [fst snd] in *. unfold HDR in *.
    split_and!; [lia|lia|]. intros x Hx (a' & n' & Ha' & Hx').
    pose proof (ho_apart _ _ _ H' a (units nbytes) a' n' (lookup_insert_eq _ _ _) ltac:(rewrite lookup_insert_ne; congruence) ltac:(congruence)).
    unfold HDR in *. lia.
  - intros a n Ha. destruct Hinv as [[fl H']|(_ & -> & _)]; [|by rewrite lookup_empty in Ha].
    destruct (proj1 (wp_elim _ _ _) (free_spec s fl live a n H' Ha)) as ([] & s' & E & _ & Hk & _). by exists s'.
Qed.
End heap.

(** ** Examples *)

(** A process of 0x3000 bytes with [base] at 0x1000, and a kernel that has
    memory. *)
Definition example_heap : uheap := UHeap 0 0x3000 (mput 0x1000 [1; 2; 3; 4; 5; 6; 7; 8] ∅).

Lemma example_heap_start : heap_start 0x1000 0x3000 example_heap.
Proof.
  unfold heap_start, KERNBASE. cbn [u_freep u_brk u_mem example_heap]. split; [done|]. split; [done|]. split; [|lia].
  apply (holds_mapped _ _ [1; 2; 3; 4; 5; 6; 7; 8]), holds_mput; cbn; lia.
Qed.

Lemma malloc_heap_sound_witness :
  ∃ p s1, malloc 0x1000 (λ _ _, true) (λ _, 0) 100 example_heap = Ret p s1 ∧
  ∃ p2 s2, malloc 0x1000 (λ _ _, true) (λ _, 0) 200 s1 = Ret p2 s2.
Proof.
  destruct (malloc_heap_sound 0x1000 0x3000 (λ _ _, true) (λ _, 0) example_heap example_heap ∅ example_heap_start (rtc_refl _ _))
    as (_ & _ & _ & Hm & _).
  destruct (Hm 100 ltac:(lia)) as (p & s1 & E & _). exists p, s1. split; [exact E|].
  destruct (malloc_heap_sound 0x1000 0x3000 (λ _ _, true) (λ _, 0) example_heap s1 (if p =? 0 then ∅ else <[p - 8 := units 100]> ∅)
    example_heap_start (rtc_once _ _ (U_malloc 0x1000 _ _ _ ∅ 100 p s1 ltac:(lia) E))) as (_ & _ & _ & Hm2 & _).
  destruct (Hm2 200 ltac:(lia)) as (p2 & s2 & E2 & _). exists p2, s2. exact E2.
Defined.

(** The rounding of the size overflows: the largest request gets a block with
    no room at all. *)
Example malloc_rounding_wraps : units 0xFFFFFFFF = 1.
Proof. reflexivity. Qed.

(** From 2^31 bytes on the argument of [sbrk] is negative, and the header is
    written past the end of the process. *)
Example malloc_huge_faults : malloc 0x1000 (λ _ _, true) (λ _, 0) 0x80000000 example_heap = Fault.
Proof. vm_compute. reflexivity. Qed.
