(* ===== verification/Ulib.v ===== *)
(** * The user library: ulib.c and printf.c

    The string routines work on the memory of the process (StringC.v); [gets]
    reads one byte per system call and [printf] writes one byte per system
    call, so that input is the list of what [read] delivers and output the
    list of bytes written with their file descriptors. *)

From Stdlib Require DecimalN HexadecimalN.
From S2P Require Import Prelude Param StringC.

(** The memory; the results of the coming calls of [read(0, &c, 1)], where
    [None] is an end of file or an error; what was written. *)
Record uio := UIO { ui_mem : mem; ui_in : list (option Z); ui_out : list (Z * Z) }.

Definition liftio {A} (f : M mem A) : M uio A :=
  λ s, match f (ui_mem s) with
       | Ret a m => Ret a (UIO m (ui_in s) (ui_out s))
       | Panic msg => Panic msg
       | Fault => Fault
       | Block => Block
       | Diverge => Diverge
       end.

(** ** ulib.c *)

(** Loops over strings take a bound on the length. *)
Fixpoint strcpy_loop (fuel : nat) (s t : Z) : M mem unit :=
  match fuel with
  | O => diverge
  | S fuel => c ← load t; store s c ;; if negb (c =? 0) then strcpy_loop fuel (s + 1) (t + 1) else mret tt
  end.
Definition strcpy (fuel : nat) (s t : Z) : M mem Z := strcpy_loop fuel s t ;; mret s.

Fixpoint strcmp (fuel : nat) (p q : Z) : M mem Z :=
  match fuel with
  | O => diverge
  | S fuel =>
      a ← load p;
      b ← load q;
      if negb (a =? 0) && (a =? b) then strcmp fuel (p + 1) (q + 1) else mret (u8 a - u8 b)
  end.

Fixpoint strlen_from (fuel : nat) (s n : Z) : M mem Z :=
  match fuel with
  | O => diverge
  | S fuel => c ← load (s + n); if negb (c =? 0) then strlen_from fuel s (n + 1) else mret n
  end.
Definition strlen (fuel : nat) (s : Z) : M mem Z := strlen_from fuel s 0.

Definition memset (dst c n : Z) : M mem Z := stosb (Z.to_nat n) dst c ;; mret dst.

Fixpoint strchr (fuel : nat) (s c : Z) : M mem Z :=
  match fuel with
  | O => diverge
  | S fuel => v ← load s; if v =? 0 then mret 0 else if v =? c then mret s else strchr fuel (s + 1) c
  end.

(** [read(0, &c, 1)]. *)
Definition read1 : M uio (option Z) :=
  λ s, match ui_in s with
       | [] => Ret None s
       | r :: l => Ret r (UIO (ui_mem s) l (ui_out s))
       end.
Fixpoint gets_loop (fuel : nat) (buf i : Z) : M uio Z :=
  match fuel with
  | O => mret i
  | S fuel =>
      r ← read1;
      match r with
      | None => mret i
      | Some c =>
          liftio (store (buf + i) c) ;;
          if (c =? 10) || (c =? 13) then mret (i + 1) else gets_loop fuel buf (i + 1)
      end
  end.
(** [i + 1 < max] holds for [max - 1] rounds. *)
Definition gets_ (buf max : Z) : M uio Z :=
  i ← gets_loop (Z.to_nat (max - 1)) buf 0;
  liftio (store (buf + i) 0) ;;
  mret buf.

Fixpoint atoi_loop (fuel : nat) (s n : Z) : M mem Z :=
  match fuel with
  | O => diverge
  | S fuel =>
      c ← load s;
      if (48 <=? i8 c) && (i8 c <=? 57) then atoi_loop fuel (s + 1) (i32 (n * 10 + i8 c - 48)) else mret n
  end.
Definition atoi (fuel : nat) (s : Z) : M mem Z := atoi_loop fuel s 0.

Definition memmove (vdst vsrc n : Z) : M mem Z := copy_up (Z.to_nat n) vdst vsrc ;; mret vdst.

(** ** printf.c *)

Definition putc (fd c : Z) : M uio unit := modify (λ s, UIO (ui_mem s) (ui_in s) (ui_out s ++ [(fd, u8 c)])).

Fixpoint putcs (fd : Z) (l : list Z) : M uio unit :=
  match l with
  | [] => mret tt
  | c :: l => putc fd c ;; putcs fd l
  end.

(** [digits[d]]: "0123456789ABCDEF". *)
Definition digit (d : Z) : Z := if d <? 10 then 48 + d else 55 + d.

(** The digits of [x], lowest first; 32 rounds are enough. *)
Fixpoint digits (fuel : nat) (x base : Z) : list Z :=
  match fuel with
  | O => []
  | S fuel => digit (x mod base) :: if x / base =? 0 then [] else digits fuel (x / base) base
  end.

(** What [printint] collects in [buf]. *)
Definition int_buf (xx base : Z) (sgn : bool) : list Z :=
  let neg := sgn && (xx <? 0) in
  digits 32 (if neg then u32 (- xx) else u32 xx) base ++ (if neg then [45] else []).

Definition printint (fd xx base : Z) (sgn : bool) : M uio unit :=
  let buf := int_buf xx base sgn in
  if 16 <? Z.of_nat (length buf) then fault else putcs fd (rev buf).

Definition null_string : list Z := [40; 110; 117; 108; 108; 41].

Fixpoint putstr (fuel : nat) (fd s : Z) : M uio unit :=
  match fuel with
  | O => diverge
  | S fuel => c ← liftio (load s); if negb (c =? 0) then putc fd c ;; putstr fuel fd (s + 1) else mret tt
  end.

(** The loop of [printf] from the character at [f] on; [pct] is [state == '%']
    and [args] the words from [ap] on. *)
Fixpoint printf_loop (fuel : nat) (fd f : Z) (pct : bool) (args : list Z) : M uio unit :=
  match fuel with
  | O => diverge
  | S fuel =>
      c ← liftio (load f);
      if c =? 0 then mret tt else
      if negb pct then
        if c =? 37 then printf_loop fuel fd (f + 1) true args
        else putc fd c ;; printf_loop fuel fd (f + 1) false args
      else if c =? 100 then
        match args with [] => fault | a :: args => printint fd (i32 a) 10 true ;; printf_loop fuel fd (f + 1) false args end
      else if (c =? 120) || (c =? 112) then
        match args with [] => fault | a :: args => printint fd (i32 a) 16 false ;; printf_loop fuel fd (f + 1) false args end
      else if c =? 115 then
        match args with
        | [] => fault
        | a :: args => (if a =? 0 then putcs fd null_string else putstr fuel fd a) ;; printf_loop fuel fd (f + 1) false args
        end
      else if c =? 99 then
        match args with [] => fault | a :: args => putc fd a ;; printf_loop fuel fd (f + 1) false args end
      else if c =? 37 then putc fd c ;; printf_loop fuel fd (f + 1) false args
      else putc fd 37 ;; putc fd c ;; printf_loop fuel fd (f + 1) false args
  end.
Definition printf (fuel : nat) (fd fmt : Z) (args : list Z) : M uio unit := printf_loop fuel fd fmt false args.

Section stat.
(** The system calls of [stat]. *)
Context {S : Type} (open : Z → Z → M S Z) (fstat : Z → Z → M S Z) (close : Z → M S Z).
Definition O_RDONLY : Z := 0x000.
Definition stat (n st : Z) : M S Z :=
  fd ← open n O_RDONLY;
  if fd <? 0 then mret (-1) else
  r ← fstat fd st;
  close fd ;;
  mret r.
End stat.

(** ** Strings *)

Lemma load_ret m a v : m !! a = Some v → 0 <= a < 4294967296 → load a m = Ret v m.
Proof. intros Hv Ha. unfold load. by rewrite u32_id, Hv. Qed.

Lemma strlen_from_spec m s l n fuel :
  cstring m (s + n) l → 0 <= n → (length l < fuel)%nat → strlen_from fuel s n m = Ret (n + Z.of_nat (length l)) m.
Proof.
  revert n fuel. induction l as [|c l IH]; intros n [|fuel] Hl Hn Hf; [lia| |cbn in Hf; lia|]; cbn [strlen_from length] in *;
    pose proof (cstring_range _ _ _ Hl).
  - rewrite (bind_Ret _ _ _ _ _ (load_ret _ _ _ (cstring_nil _ _ Hl) ltac:(lia))). cbn. by rewrite Z.add_0_r.
  - apply cstring_cons in Hl as (Hv & Hc & Hl). rewrite (bind_Ret _ _ _ _ _ (load_ret _ _ _ Hv ltac:(lia))).
    rewrite (proj2 (Z.eqb_neq c 0)) by lia. cbn [negb]. rewrite IH; [f_equal; lia|by replace (s + (n + 1)) with (s + n + 1) by lia|lia|lia].
Qed.

Lemma strlen_spec m s l fuel : cstring m s l → (length l < fuel)%nat → strlen fuel s m = Ret (Z.of_nat (length l)) m.
Proof. intros Hl Hf. unfold strlen. rewrite (strlen_from_spec m s l 0); [done|by rewrite Z.add_0_r|done|done]. Qed.

(** [strcmp] is [strncmp] without a limit. *)
Lemma strcmp_spec m p q l k fuel :
  cstring m p l → cstring m q k → (length l < fuel)%nat → strcmp fuel p q m = Ret (lexcmp fuel l k) m.
Proof.
  revert p q l k. induction fuel as [|fuel IH]; intros p q l k Hl Hk Hf; [lia|].
  pose proof (cstring_range _ _ _ Hl). pose proof (cstring_range _ _ _ Hk). cbn [strcmp lexcmp].
  destruct l as [|a l].
  - rewrite (bind_Ret _ _ _ _ _ (load_ret _ _ _ (cstring_nil _ _ Hl) ltac:(lia))). destruct k as [|b k].
    + by rewrite (bind_Ret _ _ _ _ _ (load_ret _ _ _ (cstring_nil _ _ Hk) ltac:(lia))).
    + apply cstring_cons in Hk as (Hv & Hb & _). rewrite (bind_Ret _ _ _ _ _ (load_ret _ _ _ Hv ltac:(lia))).
      cbn [negb Z.eqb andb]. rewrite (u8_id b) by lia. done.
  - apply cstring_cons in Hl as (Hv & Ha & Hl). rewrite (bind_Ret _ _ _ _ _ (load_ret _ _ _ Hv ltac:(lia))).
    rewrite (proj2 (Z.eqb_neq a 0)) by lia. destruct k as [|b k].
    + rewrite (bind_Ret _ _ _ _ _ (load_ret _ _ _ (cstring_nil _ _ Hk) ltac:(lia))).
      rewrite (proj2 (Z.eqb_neq a 0)) by lia. cbn [negb andb]. rewrite (u8_id a) by lia. change (u8 0) with 0. rewrite Z.sub_0_r. done.
    + apply cstring_cons in Hk as (Hw & Hb & Hk). rewrite (bind_Ret _ _ _ _ _ (load_ret _ _ _ Hw ltac:(lia))). cbn [negb andb].
      destruct (a =? b); [apply IH; cbn in Hf; [done|done|lia]|]. by rewrite !u8_id by lia.
Qed.

(** [strchr] finds the first occurrence. *)
Lemma strchr_spec m s l c fuel :
  cstring m s l → (length l < fuel)%nat →
  strchr fuel s c m = Ret (match list_find (λ v, v = c) l with Some (i, _) => s + Z.of_nat i | None => 0 end) m.
Proof.
  revert s fuel. induction l as [|v l IH]; intros s [|fuel] Hl Hf; [lia| |cbn in Hf; lia|]; cbn [strchr list_find];
    pose proof (cstring_range _ _ _ Hl).
  - by rewrite (bind_Ret _ _ _ _ _ (load_ret _ _ _ (cstring_nil _ _ Hl) ltac:(lia))).
  - apply cstring_cons in Hl as (Hv & Hc & Hl). rewrite (bind_Ret _ _ _ _ _ (load_ret _ _ _ Hv ltac:(lia))).
    rewrite (proj2 (Z.eqb_neq v 0)) by lia. destruct (decide (v = c)) as [->|Hne].
    + rewrite Z.eqb_refl. by rewrite Z.add_0_r.
    + rewrite (proj2 (Z.eqb_neq v c) Hne), IH by (cbn in Hf; done || lia). destruct (list_find _ l) as [[i w]|]; cbn; [|done]. f_equal. lia.
Qed.

(** [strcpy] to a place apart from the source copies the string and its
    terminator. *)
Lemma strcpy_loop_spec m s t l fuel (Q : unit → mem → Prop) :
  cstring m t l → mapped m s (length l + 1) → apart s (length l + 1) t (length l + 1) → (length l < fuel)%nat →
  Q tt (mput s (l ++ [0]) m) → wp (strcpy_loop fuel s t) Q m.
Proof.
  revert m s t fuel. induction l as [|c l IH]; intros m s t [|fuel] Hl Hm Ha Hf HQ; [lia| |cbn in Hf; lia|]; cbn [strcpy_loop length app] in *;
    pose proof (cstring_range _ _ _ Hl); pose proof Hm as (? & ? & _).
  - rewrite wp_bind. eapply wp_load; [apply (cstring_nil _ _ Hl)|lia|]. rewrite wp_bind.
    apply mapped_S in Hm as [Hm _]. apply wp_store; [done|lia|]. exact HQ.
  - pose proof Hl as Hl0. apply cstring_cons in Hl as (Hv & Hc & Hl). rewrite wp_bind. eapply wp_load; [exact Hv|lia|].
    rewrite wp_bind. apply mapped_S in Hm as [Hms Hm]. apply wp_store; [done|lia|]. rewrite u8_id by lia.
    rewrite (proj2 (Z.eqb_neq c 0)) by lia. cbn [negb]. unfold apart in *. apply IH.
    + apply cstring_insert; [done|lia].
    + by apply mapped_insert.
    + lia.
    + lia.
    + by rewrite mput_cons_comm.
Qed.

(** The line [gets] reads: up to a newline or carriage return, an end of
    file, or [n] bytes. *)
Fixpoint input_line (n : nat) (inp : list (option Z)) : list Z :=
  match n, inp with
  | S n, Some c :: inp => c :: if (c =? 10) || (c =? 13) then [] else input_line n inp
  | _, _ => []
  end.

Lemma gets_loop_spec n buf i s (Q : Z → uio → Prop) :
  mapped (ui_mem s) (buf + i) n → Forall (λ r, ∀ c, r = Some c → is_u8 c) (ui_in s) →
  (∀ s', ui_mem s' = mput (buf + i) (input_line n (ui_in s)) (ui_mem s) → ui_out s' = ui_out s →
     Q (i + Z.of_nat (length (input_line n (ui_in s)))) s') →
  wp (gets_loop n buf i) Q s.
Proof.
  revert i s. induction n as [|n IH]; intros i s Hm Hin HQ; cbn [gets_loop input_line] in *.
  { rewrite wp_ret. specialize (HQ s). rewrite Z.add_0_r in HQ. auto. }
  rewrite wp_bind. unfold wp at 1, read1. destruct (ui_in s) as [|r l] eqn:E.
  { rewrite wp_ret. specialize (HQ s). rewrite Z.add_0_r in HQ. auto. }
  apply Forall_cons in Hin as [Hr Hl]. destruct r as [c|]; cbn [length] in *.
  2: { rewrite wp_ret. specialize (HQ (UIO (ui_mem s) l (ui_out s))). rewrite Z.add_0_r in HQ. auto. }
  specialize (Hr c eq_refl). pose proof Hm as (? & ? & _). apply mapped_S in Hm as [Hm1 Hm].
  rewrite wp_bind. apply (wp_intro _ _ _ tt (UIO (<[buf + i := c]> (ui_mem s)) l (ui_out s))).
  { unfold liftio, store. cbn [ui_mem ui_in ui_out]. rewrite u32_id by lia. destruct Hm1 as [v ->]. by rewrite u8_id. }
  destruct ((c =? 10) || (c =? 13)).
  - rewrite wp_ret. apply HQ; done.
  - apply IH; cbn [ui_mem ui_in ui_out].
    + replace (buf + (i + 1)) with (buf + i + 1) by lia. by apply mapped_insert.
    + done.
    + intros s' Hs' Ho. replace (i + 1 + Z.of_nat (length (input_line n l))) with (i + Z.of_nat (S (length (input_line n l)))) by lia.
      apply HQ; [|done]. rewrite Hs'. replace (buf + (i + 1)) with (buf + i + 1) by lia. apply mput_cons_comm.
Qed.

(** [gets] stores the line and a terminator inside the [max] bytes. *)
Lemma gets_spec s buf max :
  1 <= max → mapped (ui_mem s) buf (Z.to_nat max) → Forall (λ r, ∀ c, r = Some c → is_u8 c) (ui_in s) →
  let l := input_line (Z.to_nat (max - 1)) (ui_in s) in
  wp (gets_ buf max) (λ r s', r = buf ∧ ui_mem s' = mput buf (l ++ [0]) (ui_mem s) ∧ Z.of_nat (length l) < max) s.
Proof.
  intros Hmax Hm Hin l. unfold gets_. rewrite wp_bind.
  assert (Hlen : (length l <= Z.to_nat (max - 1))%nat).
  { subst l. clear. generalize (ui_in s). induction (Z.to_nat (max - 1)) as [|n IH]; intros inp; cbn [input_line]; [cbn; lia|].
    destruct inp as [|[c|] inp]; cbn [length]; [lia| |lia]. destruct ((c =? 10) || (c =? 13)); cbn [length]; [lia|]. specialize (IH inp). lia. }
  pose proof Hm as (Hb0 & Hb1 & Hb). apply gets_loop_spec; [|done|].
  { rewrite Z.add_0_r. split_and!; [lia..|]. intros k Hk. apply Hb. lia. }
  intros s' Hs' Ho. rewrite Z.add_0_r in Hs'. fold l in Hs' |- *. rewrite Z.add_0_l, wp_bind.
  apply (wp_intro _ _ _ tt (UIO (<[buf + Z.of_nat (length l) := 0]> (ui_mem s')) (ui_in s') (ui_out s'))).
  { unfold liftio, store. rewrite u32_id by lia. rewrite Hs', mput_lookup, decide_False by lia.
    destruct (Hb (length l) ltac:(lia)) as [v ->]. done. }
  rewrite wp_ret. cbn [ui_mem]. split_and!; [done| |lia]. rewrite Hs', <- mput_snoc. clear.
  apply map_eq. intros x. rewrite lookup_insert, !mput_lookup, lookup_insert. repeat case_decide; done || lia.
Qed.

(** [memmove] of this library copies upward only: a move up by less than the
    length repeats the first bytes. *)
Example memmove_overlap_up :
  ∃ m, memmove 0x101 0x100 3 (mput 0x100 [1; 2; 3; 4] ∅) = Ret 0x101 m ∧ m = mput 0x100 [1; 1; 1; 1] ∅.
Proof. eexists. split; [vm_compute; reflexivity|vm_compute; reflexivity]. Qed.

(** ** Numbers *)

(** The number a string of digits denotes, highest digit first. *)
Definition digit_val (c : Z) : Z := if c <? 58 then c - 48 else c - 55.
Definition num_val (base : Z) (l : list Z) : Z := foldl (λ n c, n * base + digit_val c) 0 l.

Lemma num_val_snoc base l c : num_val base (l ++ [c]) = num_val base l * base + digit_val c.
Proof. unfold num_val. by rewrite foldl_app. Qed.

Lemma digit_val_digit d : 0 <= d < 16 → digit_val (digit d) = d ∧ 48 <= digit d < 71.
Proof.
  intros Hd. unfold digit_val, digit. destruct (d <? 10) eqn:E; [rewrite (proj2 (Z.ltb_lt _ _)) by lia; lia|].
  rewrite (proj2 (Z.ltb_ge _ _)) by lia. lia.
Qed.

Lemma digits_exact base n fuel x :
  2 <= base <= 16 → (n < fuel)%nat → 0 <= x < base ^ Z.of_nat (S n) →
  num_val base (rev (digits fuel x base)) = x ∧ (0 < length (digits fuel x base) <= S n)%nat ∧
  Forall (λ c, ∃ d, 0 <= d < base ∧ c = digit d) (digits fuel x base).
Proof.
  intros Hb. revert fuel x. induction n as [|n IH]; intros [|fuel] x Hf Hx; [lia| |lia|]; cbn [digits].
  - change (Z.of_nat 1) with 1 in Hx. rewrite Z.pow_1_r in Hx. rewrite Z.div_small, Z.mod_small by lia. cbn [Z.eqb rev app length].
    split_and!; [unfold num_val; cbn [foldl]; destruct (digit_val_digit x); lia|lia|lia|]. repeat constructor. eauto.
  - assert (Hm : 0 <= x mod base < base) by (apply Z.mod_pos_bound; lia). destruct (digit_val_digit (x mod base) ltac:(lia)) as [Ed _].
    pose proof (Z.div_mod x base ltac:(lia)) as Edm. destruct (x / base =? 0) eqn:E.
    + cbn [rev app length]. split_and!; [unfold num_val; cbn [foldl]; nia|lia|lia|]. repeat constructor. eauto.
    + destruct (IH fuel (x / base) ltac:(lia)) as (Hv & Hl & Hd).
      { split; [apply Z.div_pos; lia|]. apply Z.div_lt_upper_bound; [lia|]. rewrite <- Z.pow_succ_r by lia. rewrite <- Nat2Z.inj_succ. lia. }
      cbn [rev length]. rewrite num_val_snoc, Hv, Ed. split_and!; [lia|lia|lia|]. constructor; eauto.
Qed.

(** The characters [printint] prints. *)
Definition int_str (xx base : Z) (sgn : bool) : list Z := rev (int_buf xx base sgn).

(** Every 32-bit number in base 10 or 16 fits in [buf], and what is printed
    denotes it. *)
Lemma int_str_exact xx base sgn :
  -2147483648 <= xx < 2147483648 → base = 10 ∨ base = 16 ∧ sgn = false →
  (length (int_buf xx base sgn) <= 16)%nat ∧
  int_str xx base sgn = (if sgn && (xx <? 0) then [45] else []) ++ rev (digits 32 (if sgn && (xx <? 0) then u32 (- xx) else u32 xx) base) ∧
  num_val base (rev (digits 32 (if sgn && (xx <? 0) then u32 (- xx) else u32 xx) base)) = (if sgn && (xx <? 0) then - xx else u32 xx).
Proof.
  intros Hx Hb. unfold int_str, int_buf. set (x := if sgn && (xx <? 0) then u32 (- xx) else u32 xx).
  assert (Hr : 0 <= x < base ^ Z.of_nat 10 ∧ x = if sgn && (xx <? 0) then - xx else u32 xx).
  { subst x. destruct (sgn && (xx <? 0)) eqn:E.
    - rewrite u32_id by lia. destruct Hb as [->|[-> ->]]; [change (10 ^ Z.of_nat 10) with 10000000000; lia|done].
    - pose proof (u32_range xx). destruct Hb as [->|[-> _]]; [change (10 ^ Z.of_nat 10) with 10000000000|change (16 ^ Z.of_nat 10) with 1099511627776]; lia. }
  destruct Hr as [Hr Ex]. destruct (digits_exact base 9 32 x ltac:(lia) ltac:(lia) Hr) as (Hv & Hl & _).
  split_and!.
  - rewrite length_app. destruct (sgn && _); cbn [length]; lia.
  - rewrite rev_app_distr. by destruct (sgn && _).
  - by rewrite Hv.
Qed.

Lemma atoi_loop_spec m s l n fuel :
  cstring m s l → Forall (λ c, 48 <= c <= 57) l → (length l < fuel)%nat →
  0 <= n → foldl (λ n c, n * 10 + digit_val c) n l < 2147483648 →
  atoi_loop fuel s n m = Ret (foldl (λ n c, n * 10 + digit_val c) n l) m.
Proof.
  revert s n fuel. induction l as [|c l IH]; intros s n [|fuel] Hl Hd Hf Hn Hlim; [lia| |cbn in Hf; lia|]; cbn [atoi_loop foldl] in *;
    pose proof (cstring_range _ _ _ Hl).
  - by rewrite (bind_Ret _ _ _ _ _ (load_ret _ _ _ (cstring_nil _ _ Hl) ltac:(lia))).
  - apply cstring_cons in Hl as (Hv & Hc & Hl). rewrite (bind_Ret _ _ _ _ _ (load_ret _ _ _ Hv ltac:(lia))).
    apply Forall_cons in Hd as [Hc' Hd]. replace (i8 c) with c by (unfold i8; dlia).
    rewrite (proj2 (Z.leb_le 48 c)), (proj2 (Z.leb_le c 57)) by lia. cbn [andb].
    assert (Edv : digit_val c = c - 48) by (unfold digit_val; rewrite (proj2 (Z.ltb_lt _ _)) by lia; done).
    assert (Hmono : ∀ l n, 0 <= n → Forall (λ c, 48 <= c <= 57) l → n <= foldl (λ n c, n * 10 + digit_val c) n l).
    { clear. induction l as [|c l IH]; intros n Hn Hd; cbn [foldl]; [lia|]. apply Forall_cons in Hd as [Hc Hd].
      assert (digit_val c = c - 48) by (unfold digit_val; rewrite (proj2 (Z.ltb_lt _ _)) by lia; done).
      specialize (IH (n * 10 + digit_val c) ltac:(lia) Hd). lia. }
    specialize (Hmono l (n * 10 + digit_val c) ltac:(lia) Hd).
    replace (i32 (n * 10 + c - 48)) with (n * 10 + digit_val c) by (rewrite i32_id; lia).
    apply IH; [done|done|cbn in Hf; lia|lia|done].
Qed.

(** ** What [printf] prints *)

(** A format is a sequence of directives. *)
Inductive directive := Lit (c : Z) | Dec | Hex | Ptr | Str | Chr | Pct | Unknown (c : Z).

Definition text (d : directive) : list Z :=
  match d with
  | Lit c => [c]
  | Dec => [37; 100]
  | Hex => [37; 120]
  | Ptr => [37; 112]
  | Str => [37; 115]
  | Chr => [37; 99]
  | Pct => [37; 37]
  | Unknown c => [37; c]
  end.

Definition directive_ok (d : directive) : Prop :=
  match d with
  | Lit c => c ≠ 37
  | Unknown c => c ∉ [100; 120; 112; 115; 99; 37]
  | _ => True
  end.

(** The characters of a numeral of the Standard Library, which knows nothing of
    printf.c: decimal, and hexadecimal in capitals. *)
Fixpoint dec_chars (d : Decimal.uint) : list Z :=
  match d with
  | Decimal.Nil => []
  | Decimal.D0 d => 48 :: dec_chars d | Decimal.D1 d => 49 :: dec_chars d | Decimal.D2 d => 50 :: dec_chars d
  | Decimal.D3 d => 51 :: dec_chars d | Decimal.D4 d => 52 :: dec_chars d | Decimal.D5 d => 53 :: dec_chars d
  | Decimal.D6 d => 54 :: dec_chars d | Decimal.D7 d => 55 :: dec_chars d | Decimal.D8 d => 56 :: dec_chars d
  | Decimal.D9 d => 57 :: dec_chars d
  end.

Fixpoint hex_chars (d : Hexadecimal.uint) : list Z :=
  match d with
  | Hexadecimal.Nil => []
  | Hexadecimal.D0 d => 48 :: hex_chars d | Hexadecimal.D1 d => 49 :: hex_chars d | Hexadecimal.D2 d => 50 :: hex_chars d
  | Hexadecimal.D3 d => 51 :: hex_chars d | Hexadecimal.D4 d => 52 :: hex_chars d | Hexadecimal.D5 d => 53 :: hex_chars d
  | Hexadecimal.D6 d => 54 :: hex_chars d | Hexadecimal.D7 d => 55 :: hex_chars d | Hexadecimal.D8 d => 56 :: hex_chars d
  | Hexadecimal.D9 d => 57 :: hex_chars d | Hexadecimal.Da d => 65 :: hex_chars d | Hexadecimal.Db d => 66 :: hex_chars d
  | Hexadecimal.Dc d => 67 :: hex_chars d | Hexadecimal.Dd d => 68 :: hex_chars d | Hexadecimal.De d => 69 :: hex_chars d
  | Hexadecimal.Df d => 70 :: hex_chars d
  end.

(** A word as a signed decimal number and as an unsigned hexadecimal one. *)
Definition decimal (a : Z) : list Z :=
  match Z.to_int (i32 a) with
  | Decimal.Pos d => dec_chars d
  | Decimal.Neg d => 45 :: dec_chars d
  end.
Definition hexadecimal (a : Z) : list Z := hex_chars (N.to_hex_uint (Z.to_N (u32 a))).

(** The bytes of a directive sequence, where [str] gives the string at an
    address; [None] when arguments are missing. *)
Fixpoint render (str : Z → list Z) (ds : list directive) (args : list Z) : option (list Z) :=
  match ds with
  | [] => Some []
  | Lit c :: ds => app [c] <$> render str ds args
  | Pct :: ds => app [37] <$> render str ds args
  | Unknown c :: ds => app [37; c] <$> render str ds args
  | d :: ds =>
      match args with
      | [] => None
      | a :: args =>
          app match d with
              | Dec => decimal a
              | Str => if a =? 0 then null_string else str a
              | Chr => [u8 a]
              | _ => hexadecimal a
              end <$> render str ds args
      end
  end.

(** Digits below [base], no leading zero. *)
Record canonical (base : Z) (l : list Z) : Prop := {
  cn_digits : Forall (λ c, ∃ d, 0 <= d < base ∧ c = digit d) l;
  cn_nonempty : l ≠ [];
  cn_lead k : l = 48 :: k → k = [];
}.

Lemma digit_zero d : 0 <= d < 16 → digit d = 48 → d = 0.
Proof. unfold digit. destruct (Z.ltb_spec d 10); lia. Qed.

Lemma num_val_nonneg base l n :
  2 <= base <= 16 → Forall (λ c, ∃ d, 0 <= d < base ∧ c = digit d) l → 0 <= n →
  n <= foldl (λ n c, n * base + digit_val c) n l.
Proof.
  intros Hb Hl. revert n. induction Hl as [|c l (d & Hd & ->) _ IH]; intros n Hn; cbn [foldl]; [lia|].
  destruct (digit_val_digit d ltac:(lia)) as [-> _]. specialize (IH (n * base + d) ltac:(nia)). nia.
Qed.

Lemma canonical_pos base c l :
  2 <= base <= 16 → Forall (λ c, ∃ d, 0 <= d < base ∧ c = digit d) (c :: l) → c ≠ 48 → 0 < num_val base (c :: l).
Proof.
  intros Hb [(d & Hd & ->) Hl]%Forall_cons Hc. unfold num_val. cbn [foldl].
  destruct (digit_val_digit d ltac:(lia)) as [-> _]. pose proof (num_val_nonneg base l (0 * base + d) Hb Hl ltac:(lia)).
  assert (d ≠ 0) by (intros ->; by apply Hc). lia.
Qed.

(** A number has one canonical numeral. *)
Lemma canonical_unique base l k :
  2 <= base <= 16 → canonical base l → canonical base k → num_val base l = num_val base k → l = k.
Proof.
  intros Hb. revert k. induction l as [|c l IH] using rev_ind; intros k Hl Hk E; [by destruct (cn_nonempty _ _ Hl)|].
  destruct k as [|c' k _] using rev_ind; [by destruct (cn_nonempty _ _ Hk)|].
  assert (Hsub : ∀ c l, canonical base (l ++ [c]) → Forall (λ c, ∃ d, 0 <= d < base ∧ c = digit d) l ∧
    (∃ d, 0 <= d < base ∧ c = digit d) ∧ (l ≠ [] → canonical base l ∧ 0 < num_val base l)).
  { clear -Hb. intros c l [Hd _ Hz]. apply Forall_app in Hd as [Hd [Hc _]%Forall_cons]. split_and!; [done|done|].
    intros Hn. destruct l as [|x l]; [done|]. assert (Hx : x ≠ 48) by (intros ->; specialize (Hz (l ++ [c]) eq_refl); by destruct l).
    split; [|by apply canonical_pos]. split; [done|done|]. intros k [= -> _]. done. }
  destruct (Hsub _ _ Hl) as (Hd1 & (d & Hd & ->) & H1). destruct (Hsub _ _ Hk) as (Hd2 & (d' & Hd' & ->) & H2).
  rewrite !num_val_snoc in E. rewrite (proj1 (digit_val_digit d ltac:(lia))), (proj1 (digit_val_digit d' ltac:(lia))) in E.
  assert (Hm : num_val base l = num_val base k ∧ d = d') by (apply (Z.div_mod_unique base); [left; lia|left; lia|lia]).
  destruct Hm as [Ev ->]. f_equal.
  destruct (decide (l = [])) as [->|Hn], (decide (k = [])) as [->|Hm]; [done|..].
  - destruct (H2 Hm) as [_ ?]. cbn in Ev. lia.
  - destruct (H1 Hn) as [_ ?]. cbn in Ev. lia.
  - apply IH; [by apply H1|by apply H2|done].
Qed.

Lemma dec_chars_digits d : Forall (λ c, ∃ x, 0 <= x < 10 ∧ c = digit x) (dec_chars d).
Proof.
  assert (Hc : ∀ c, 48 <= c < 58 → ∃ x, 0 <= x < 10 ∧ c = digit x).
  { intros c Hc. exists (c - 48). unfold digit. rewrite (proj2 (Z.ltb_lt _ _)) by lia. lia. }
  induction d; cbn [dec_chars]; constructor; (done || apply Hc; lia).
Qed.

Lemma dec_chars_acc d acc :
  foldl (λ n c, n * 10 + digit_val c) (Z.pos acc) (dec_chars d) = Z.pos (Pos.of_uint_acc d acc).
Proof.
  revert acc. induction d; intros acc; cbn [dec_chars foldl Pos.of_uint_acc]; [done|..]; rewrite <- IHd; f_equal;
    unfold digit_val; cbn; lia.
Qed.

Lemma dec_chars_val d : num_val 10 (dec_chars d) = Z.of_N (N.of_uint d).
Proof.
  unfold num_val, N.of_uint. induction d; cbn [dec_chars foldl Pos.of_uint]; [done|exact IHd|..];
    refine (eq_trans _ (dec_chars_acc d _)); reflexivity.
Qed.

Lemma canonical_dec n : canonical 10 (dec_chars (N.to_uint n)).
Proof.
  assert (E : N.to_uint n = Decimal.unorm (N.to_uint n)).
  { by rewrite <- DecimalN.Unsigned.to_of, DecimalN.Unsigned.of_to. }
  assert (Hz : ∀ d u, Decimal.nzhead d ≠ Decimal.D0 u) by (induction d; done).
  split; [apply dec_chars_digits|..]; rewrite E; unfold Decimal.unorm;
    destruct (Decimal.nzhead (N.to_uint n)) eqn:Eh; cbn; try done.
  1: by intros k [= <-]. by destruct (Hz _ _ Eh).
Qed.

Lemma hex_chars_digits d : Forall (λ c, ∃ x, 0 <= x < 16 ∧ c = digit x) (hex_chars d).
Proof.
  assert (Hc : ∀ c, 48 <= c < 58 → ∃ x, 0 <= x < 16 ∧ c = digit x).
  { intros c Hc. exists (c - 48). unfold digit. rewrite (proj2 (Z.ltb_lt _ _)) by lia. lia. }
  assert (Hl : ∀ c, 65 <= c < 71 → ∃ x, 0 <= x < 16 ∧ c = digit x).
  { intros c Hl. exists (c - 55). unfold digit. rewrite (proj2 (Z.ltb_ge _ _)) by lia. lia. }
  induction d; cbn [hex_chars]; constructor; (done || (apply Hc; lia) || (apply Hl; lia)).
Qed.

Lemma hex_chars_acc d acc :
  foldl (λ n c, n * 16 + digit_val c) (Z.pos acc) (hex_chars d) = Z.pos (Pos.of_hex_uint_acc d acc).
Proof.
  revert acc. induction d; intros acc; cbn [hex_chars foldl Pos.of_hex_uint_acc]; [done|..]; rewrite <- IHd; f_equal;
    unfold digit_val; cbn; lia.
Qed.

Lemma hex_chars_val d : num_val 16 (hex_chars d) = Z.of_N (N.of_hex_uint d).
Proof.
  unfold num_val, N.of_hex_uint. induction d; cbn [hex_chars foldl Pos.of_hex_uint]; [done|exact IHd|..];
    refine (eq_trans _ (hex_chars_acc d _)); reflexivity.
Qed.

Lemma canonical_hex n : canonical 16 (hex_chars (N.to_hex_uint n)).
Proof.
  assert (E : N.to_hex_uint n = Hexadecimal.unorm (N.to_hex_uint n)).
  { by rewrite <- HexadecimalN.Unsigned.to_of, HexadecimalN.Unsigned.of_to. }
  assert (Hz : ∀ d u, Hexadecimal.nzhead d ≠ Hexadecimal.D0 u) by (induction d; done).
  split; [apply hex_chars_digits|..]; rewrite E; unfold Hexadecimal.unorm;
    destruct (Hexadecimal.nzhead (N.to_hex_uint n)) eqn:Eh; cbn; try done.
  1: by intros k [= <-]. by destruct (Hz _ _ Eh).
Qed.

(** What the loop of [printint] leaves in [buf] is the numeral, backwards. *)
Lemma digits_lead base n fuel x k :
  2 <= base <= 16 → (n < fuel)%nat → 0 < x < base ^ Z.of_nat (S n) → rev (digits fuel x base) ≠ 48 :: k.
Proof.
  intros Hb. revert fuel x k. induction n as [|n IH]; intros [|fuel] x k Hf Hx; [lia| |lia|]; cbn [digits rev].
  - change (Z.of_nat 1) with 1 in Hx. rewrite Z.pow_1_r in Hx. rewrite Z.div_small, Z.mod_small by lia. cbn.
    intros [= E _]. apply digit_zero in E; lia.
  - pose proof (Z.div_mod x base ltac:(lia)) as Edm. pose proof (Z.mod_pos_bound x base ltac:(lia)) as Hm.
    destruct (Z.eqb_spec (x / base) 0) as [E|E].
    + cbn. intros [= Ed _]. apply digit_zero in Ed; nia.
    + assert (Hq : 0 < x / base < base ^ Z.of_nat (S n)).
      { split; [pose proof (Z.div_pos x base); lia|]. apply Z.div_lt_upper_bound; [lia|].
        rewrite <- Z.pow_succ_r by lia. rewrite <- Nat2Z.inj_succ. lia. }
      specialize (IH fuel (x / base)). destruct (rev (digits fuel (x / base) base)) as [|c l] eqn:El.
      { destruct (digits_exact base n fuel (x / base) Hb ltac:(lia) ltac:(lia)) as (_ & Hl & _).
        apply (f_equal length) in El. rewrite length_rev in El. cbn in El. lia. }
      intros [= -> _]. by apply (IH l ltac:(lia) Hq).
Qed.

Lemma canonical_digits base x :
  2 <= base <= 16 → 0 <= x < base ^ 10 → canonical base (rev (digits 32 x base)).
Proof.
  intros Hb Hx. destruct (digits_exact base 9 32 x Hb ltac:(lia) Hx) as (Hv & Hl & Hd). split.
  - by apply Forall_rev.
  - intros E. apply (f_equal length) in E. rewrite length_rev in E. cbn in E. lia.
  - intros k E. destruct (decide (x = 0)) as [->|]; [cbn in E; rewrite Z.mod_0_l, Z.div_0_l in E by lia; by injection E|].
    exfalso. by apply (digits_lead base 9 32 x k) in E; [|lia..].
Qed.

Lemma int_str_decimal a : int_str (i32 a) 10 true = decimal a.
Proof.
  assert (Hr : -2147483648 <= i32 a < 2147483648) by (unfold i32; dlia).
  destruct (int_str_exact (i32 a) 10 true Hr ltac:(by left)) as (_ & -> & Hv). cbn [andb] in *.
  set (x := if i32 a <? 0 then u32 (- i32 a) else u32 (i32 a)) in *.
  assert (Hx : 0 <= x < 10 ^ 10) by (change (10 ^ 10) with 10000000000; subst x; destruct (_ <? 0); [pose proof (u32_range (- i32 a))|pose proof (u32_range (i32 a))]; lia).
  assert (E : rev (digits 32 x 10) = dec_chars (N.to_uint (Z.to_N x))).
  { apply (canonical_unique 10); [lia|by apply canonical_digits|apply canonical_dec|].
    destruct (digits_exact 10 9 32 x ltac:(lia) ltac:(lia) Hx) as (-> & _).
    rewrite dec_chars_val, DecimalN.Unsigned.of_to. lia. }
  rewrite E. unfold decimal. clear E Hx Hv. subst x. destruct (i32 a) as [|p|p]; cbn [Z.ltb Z.compare Z.to_int Z.opp app].
  - done.
  - by rewrite u32_id by lia.
  - by rewrite u32_id by lia.
Qed.

Lemma int_str_hexadecimal a : int_str (i32 a) 16 false = hexadecimal a.
Proof.
  assert (Hr : -2147483648 <= i32 a < 2147483648) by (unfold i32; dlia).
  destruct (int_str_exact (i32 a) 16 false Hr ltac:(by right)) as (_ & -> & Hv). cbn [andb app] in *.
  unfold hexadecimal. rewrite u32_i32 in *. pose proof (u32_range a) as Hu.
  apply (canonical_unique 16); [lia|apply canonical_digits; [lia|change (16 ^ 10) with 1099511627776; lia]|apply canonical_hex|].
  rewrite Hv, hex_chars_val, HexadecimalN.Unsigned.of_to. lia.
Qed.

Definition emit (fd : Z) (l : list Z) (s : uio) : uio := UIO (ui_mem s) (ui_in s) (ui_out s ++ ((λ c, (fd, c)) <$> l)).

Lemma emit_emit fd l k s : emit fd k (emit fd l s) = emit fd (l ++ k) s.
Proof. unfold emit. cbn [ui_mem ui_in ui_out]. by rewrite fmap_app, app_assoc. Qed.

Lemma emit_nil fd s : emit fd [] s = s.
Proof. unfold emit. cbn. rewrite app_nil_r. by destruct s. Qed.

Lemma putc_emit fd c s : is_u8 c → putc fd c s = Ret tt (emit fd [c] s).
Proof. intros Hc. unfold putc, modify, emit. by rewrite u8_id. Qed.

Lemma putcs_emit fd l s : bytes_ok l → putcs fd l s = Ret tt (emit fd l s).
Proof.
  intros Hl. revert s. induction Hl as [|c l Hc _ IH]; intros s; cbn [putcs]; [by rewrite emit_nil|].
  rewrite (bind_Ret _ _ _ _ _ (putc_emit fd c s Hc)), IH, emit_emit. done.
Qed.

Lemma loadio_ret s a v : ui_mem s !! a = Some v → 0 <= a < 4294967296 → liftio (load a) s = Ret v s.
Proof. intros Hv Ha. unfold liftio. rewrite (load_ret _ _ _ Hv Ha). by destruct s. Qed.

Lemma putstr_emit fd s a l fuel : cstring (ui_mem s) a l → (length l < fuel)%nat → putstr fuel fd a s = Ret tt (emit fd l s).
Proof.
  revert s a fuel. induction l as [|c l IH]; intros s a [|fuel] Hl Hf; [lia| |cbn in Hf; lia|]; cbn [putstr]; pose proof (cstring_range _ _ _ Hl).
  - rewrite (bind_Ret _ _ _ _ _ (loadio_ret _ _ _ (cstring_nil _ _ Hl) ltac:(lia))). cbn. by rewrite emit_nil.
  - apply cstring_cons in Hl as (Hv & Hc & Hl). rewrite (bind_Ret _ _ _ _ _ (loadio_ret _ _ _ Hv ltac:(lia))).
    rewrite (proj2 (Z.eqb_neq c 0)) by lia. cbn [negb]. rewrite (bind_Ret _ _ _ _ _ (putc_emit fd c s ltac:(unfold is_u8; lia))).
    rewrite IH; [by rewrite emit_emit|done|cbn in Hf; lia].
Qed.

Lemma digits_ok base fuel x : 2 <= base <= 16 → bytes_ok (digits fuel x base).
Proof.
  intros Hb. revert x. induction fuel as [|fuel IH]; intros x; cbn [digits]; [constructor|].
  assert (Hm : 0 <= x mod base < base) by (apply Z.mod_pos_bound; lia). destruct (digit_val_digit (x mod base) ltac:(lia)) as [_ ?].
  constructor; [unfold is_u8; lia|]. destruct (_ =? 0); [constructor|apply IH].
Qed.

Lemma printint_emit fd a base sgn s :
  base = 10 ∨ base = 16 ∧ sgn = false → printint fd (i32 a) base sgn s = Ret tt (emit fd (int_str (i32 a) base sgn) s).
Proof.
  intros Hb. assert (Hr : -2147483648 <= i32 a < 2147483648) by (unfold i32; dlia).
  destruct (int_str_exact (i32 a) base sgn Hr Hb) as (Hl & _). unfold printint. rewrite (proj2 (Z.ltb_ge _ _)) by lia.
  apply putcs_emit, Forall_rev. unfold int_buf. apply Forall_app. split; [apply digits_ok; lia|].
  destruct (sgn && _); [|constructor]. repeat constructor. all: unfold is_u8; lia.
Qed.

(** The string arguments: null or a string of at most [L] bytes. *)
Fixpoint strings_ok (m : mem) (L : nat) (str : Z → list Z) (ds : list directive) (args : list Z) : Prop :=
  match ds with
  | [] => True
  | (Lit _ | Pct | Unknown _) :: ds => strings_ok m L str ds args
  | d :: ds =>
      match args with
      | [] => True
      | a :: args =>
          match d with Str => a = 0 ∨ cstring m a (str a) ∧ (length (str a) <= L)%nat | _ => True end ∧ strings_ok m L str ds args
      end
  end.

(** One character of the format. *)
Lemma printf_char fuel fd f pct args s c l (Q : outcome uio unit → Prop) :
  cstring (ui_mem s) f (c :: l) →
  (0 < c < 256 → cstring (ui_mem s) (f + 1) l →
   Q ((if negb pct then
         if c =? 37 then printf_loop fuel fd (f + 1) true args
         else putc fd c ;; printf_loop fuel fd (f + 1) false args
       else if c =? 100 then
         match args with [] => fault | a :: args => printint fd (i32 a) 10 true ;; printf_loop fuel fd (f + 1) false args end
       else if (c =? 120) || (c =? 112) then
         match args with [] => fault | a :: args => printint fd (i32 a) 16 false ;; printf_loop fuel fd (f + 1) false args end
       else if c =? 115 then
         match args with
         | [] => fault
         | a :: args => (if a =? 0 then putcs fd null_string else putstr fuel fd a) ;; printf_loop fuel fd (f + 1) false args
         end
       else if c =? 99 then
         match args with [] => fault | a :: args => putc fd a ;; printf_loop fuel fd (f + 1) false args end
       else if c =? 37 then putc fd c ;; printf_loop fuel fd (f + 1) false args
       else putc fd 37 ;; putc fd c ;; printf_loop fuel fd (f + 1) false args) s)) →
  Q (printf_loop (S fuel) fd f pct args s).
Proof.
  intros Hl HQ. pose proof (cstring_range _ _ _ Hl). apply cstring_cons in Hl as (Hv & Hc & Hl). cbn [printf_loop].
  rewrite (bind_Ret _ _ _ _ _ (loadio_ret _ _ _ Hv ltac:(lia))). rewrite (proj2 (Z.eqb_neq c 0)) by lia. auto.
Qed.

Lemma putc_u8 fd c s : putc fd c s = Ret tt (emit fd [u8 c] s).
Proof. done. Qed.

(** Reads the next character of the format, [pct_char] also the one after a
    percent sign. *)
Ltac fmt_char Hl := refine (printf_char _ _ _ _ _ _ _ _ (λ o, o = Ret tt _) Hl _); cbn beta; cbn [negb].
Ltac pct_char fuel Hl :=
  fmt_char Hl; intros _ ?Hl1; cbn [Z.eqb Pos.eqb]; destruct fuel as [|fuel]; [lia|];
  match goal with H : cstring _ (_ + 1) _ |- _ => fmt_char H; intros ? ?Hl2; cbn [Z.eqb Pos.eqb orb] end.

Lemma printf_loop_spec str L ds : ∀ s fd f args out fuel,
  cstring (ui_mem s) f (concat (text <$> ds)) → Forall directive_ok ds → strings_ok (ui_mem s) L str ds args →
  render str ds args = Some out → (length (concat (text <$> ds)) + L < fuel)%nat →
  printf_loop fuel fd f false args s = Ret tt (emit fd out s).
Proof.
  induction ds as [|d ds IH]; intros s fd f args out fuel Hl Hok Hs Hr Hf.
  { cbn in *. simplify_eq. destruct fuel as [|fuel]; [lia|]. pose proof (cstring_range _ _ _ Hl). cbn [printf_loop].
    rewrite (bind_Ret _ _ _ _ _ (loadio_ret _ _ _ (cstring_nil _ _ Hl) ltac:(lia))). cbn. by rewrite emit_nil. }
  apply Forall_cons in Hok as [Hd Hok]. cbn [fmap list_fmap concat] in Hl, Hf. rewrite length_app in Hf.
  assert (Hrest : ∀ l args' out' f' fuel', cstring (ui_mem s) f' (concat (text <$> ds)) →
    strings_ok (ui_mem s) L str ds args' → render str ds args' = Some out' → (length (concat (text <$> ds)) + L < fuel')%nat →
    printf_loop fuel' fd f' false args' (emit fd l s) = Ret tt (emit fd (l ++ out') s)).
  { intros l args' out' f' fuel' Hc Hst Hre Hfu. rewrite (IH (emit fd l s) fd f' args' out'); [by rewrite emit_emit|done..]. }
  destruct d; cbn [text app directive_ok render strings_ok length] in *; (destruct fuel as [|fuel]; [lia|]);
    try (destruct args as [|a args]; [done|]; destruct Hs as [Ha Hs]); apply fmap_Some in Hr as (o & Hr & ->).
  - fmt_char Hl. intros Hc Hl1.
    rewrite (proj2 (Z.eqb_neq c 37) Hd), (bind_Ret _ _ _ _ _ (putc_emit fd c s ltac:(unfold is_u8; lia))). apply (Hrest [c]); try done. lia.
  - pct_char fuel Hl. rewrite (bind_Ret _ _ _ _ _ (printint_emit fd a 10 true s ltac:(by left))), int_str_decimal. apply Hrest; try done. lia.
  - pct_char fuel Hl. rewrite (bind_Ret _ _ _ _ _ (printint_emit fd a 16 false s ltac:(by right))), int_str_hexadecimal. apply Hrest; try done. lia.
  - pct_char fuel Hl. rewrite (bind_Ret _ _ _ _ _ (printint_emit fd a 16 false s ltac:(by right))), int_str_hexadecimal. apply Hrest; try done. lia.
  - pct_char fuel Hl.
    assert (E : (if a =? 0 then putcs fd null_string else putstr fuel fd a) s = Ret tt (emit fd (if a =? 0 then null_string else str a) s)).
    { destruct (a =? 0) eqn:E; [apply putcs_emit; repeat constructor; unfold is_u8; lia|]. destruct Ha as [->|[Ha HL]]; [done|]. apply putstr_emit; [done|lia]. }
    rewrite (bind_Ret _ _ _ _ _ E). apply Hrest; try done. lia.
  - pct_char fuel Hl. rewrite (bind_Ret _ _ _ _ _ (putc_u8 fd a s)). apply (Hrest [u8 a]); try done. lia.
  - pct_char fuel Hl. rewrite (bind_Ret _ _ _ _ _ (putc_u8 fd 37 s)). apply (Hrest [37]); try done. lia.
  - pct_char fuel Hl. rewrite !(proj2 (Z.eqb_neq c _)) by (intros ->; apply Hd; set_solver). cbn [orb].
    rewrite (bind_Ret _ _ _ _ _ (putc_u8 fd 37 s)), (bind_Ret _ _ _ _ _ (putc_emit fd c _ ltac:(unfold is_u8; lia))), emit_emit.
    apply (Hrest [37; c]); try done. lia.
Qed.

(** C39: the output of the user library's [printf].  For every format, read as
    a sequence of directives, and arguments for it (strings of any length in
    memory, any 32-bit words), [printf] returns and writes exactly the
    rendering of the directives to [fd]: literal characters, signed decimal,
    hexadecimal, strings, "(null)" for a null pointer, characters, percent
    signs, and unknown directives as they are. *)
Theorem printf_renders s fd fmt str L ds args out fuel :
  cstring (ui_mem s) fmt (concat (text <$> ds)) → Forall directive_ok ds → strings_ok (ui_mem s) L str ds args →
  render str ds args = Some out → (length (concat (text <$> ds)) + L < fuel)%nat →
  printf fuel fd fmt args s = Ret tt (emit fd out s).
Proof. apply printf_loop_spec. Qed.

(** Numbers survive printing and reading.  What [printf("%d")] writes for a
    number from 0 to 2^31 - 1, stored anywhere as a string, is read back by
    [atoi] as that number. *)
Theorem atoi_printf x s fd fmt fuel :
  0 <= x < 2147483648 → cstring (ui_mem s) fmt [37; 100] → (2 < fuel)%nat →
  ∃ l, printf fuel fd fmt [x] s = Ret tt (emit fd l s) ∧
    ∀ m a fuel', cstring m a l → (length l < fuel')%nat → atoi fuel' a m = Ret x m.
Proof.
  intros Hx Hfmt Hf. exists (int_str x 10 true). split.
  - unfold printf. rewrite (printf_loop_spec (λ _, []) 0 [Dec] s fd fmt [x] (decimal x ++ [])), <- int_str_decimal; [by rewrite app_nil_r, i32_id by lia|done|by repeat constructor|done|done|cbn; lia].
  - intros m a fuel' Hl Hfu. destruct (int_str_exact x 10 true ltac:(lia) ltac:(by left)) as (_ & Es & Hv).
    rewrite (proj2 (Z.ltb_ge x 0)) in Es, Hv by lia. cbn [andb app] in Es, Hv. rewrite u32_id in Hv, Es by lia.
    destruct (digits_exact 10 9 32 x ltac:(lia) ltac:(lia)) as (_ & _ & Hd); [change (10 ^ Z.of_nat 10) with 10000000000; lia|].
    unfold atoi. rewrite (atoi_loop_spec m a (int_str x 10 true)); [|done| |done|lia|]; rewrite Es.
    + f_equal. exact Hv.
    + apply Forall_rev. apply (Forall_impl _ _ _ Hd). intros c (d & Hd' & ->). unfold digit. rewrite (proj2 (Z.ltb_lt d 10)) by lia. lia.
    + unfold num_val in Hv. rewrite Hv. lia.
Qed.

(** "%d %s\n" with 42 and "ok". *)
Definition example_io : uio := UIO (mput 0x200 [111; 107; 0] (mput 0x100 [37; 100; 32; 37; 115; 10; 0] ∅)) [] [].

Lemma printf_renders_witness :
  printf 20 1 0x100 [42; 0x200] example_io = Ret tt (emit 1 [52; 50; 32; 111; 107; 10] example_io).
Proof.
  apply (printf_renders example_io 1 0x100 (λ _, [111; 107]) 2 [Dec; Lit 32; Str; Lit 10]).
  - split; [|repeat constructor]. split_and!; [lia|cbn; lia|].
    intros k v Hk. do 7 (destruct k as [|k]; [cbn in Hk; simplify_eq; reflexivity|]). by destruct k.
  - repeat constructor; done.
  - cbn. split; [done|]. split; [|done]. right. split; [|cbn; lia]. split; [|repeat constructor]. split_and!; [lia|cbn; lia|].
    intros k v Hk. do 3 (destruct k as [|k]; [cbn in Hk; simplify_eq; reflexivity|]). by destruct k.
  - reflexivity.
  - cbn. lia.
Defined.

Lemma atoi_printf_witness :
  ∃ l, printf 20 1 0x100 [2147483647] (UIO (mput 0x100 [37; 100; 0] ∅) [] []) = Ret tt (emit 1 l (UIO (mput 0x100 [37; 100; 0] ∅) [] [])).
Proof.
  destruct (atoi_printf 2147483647 (UIO (mput 0x100 [37; 100; 0] ∅) [] []) 1 0x100 20 ltac:(lia)) as (l & E & _).
  - apply (cstring_mput ∅ 0x100 [37; 100]); [lia|cbn; lia|repeat constructor].
  - lia.
  - exists l. exact E.
Defined.
