(* ===== verification/Proc.v ===== *)
(** * Processes: proc.c

    The process table with the operations that change it, on top of the page
    allocator and the page tables; open files and directories are reached
    through the interface [FileLayer].  [ptable.lock] makes each operation on
    the table an atomic step; a [sleep] or an [exit] ends the step and gives
    the CPU back to the scheduler. *)

From S2P Require Import Prelude Param StringC Kalloc Vm.

Inductive procstate := UNUSED | EMBRYO | SLEEPING | RUNNABLE | RUNNING | ZOMBIE.

#[export] Instance procstate_eq : EqDecision procstate.
Proof. solve_decision. Defined.

(** A sleep channel: the address of a [struct proc] or of something else. *)
Inductive chan := PChan (slot : nat) | AChan (addr : Z).

#[export] Instance chan_eq : EqDecision chan.
Proof. solve_decision. Defined.

(** [struct proc]; [parent] is the slot of the parent, [name] the name
    without its NUL. *)
Record proc := Proc {
  sz : Z;
  pgdir : Z;
  kstack : Z;
  state : procstate;
  pid : Z;
  parent : option nat;
  tf : Z;
  context : Z;
  p_chan : option chan;
  killed : Z;
  ofile : list (option nat);
  cwd : option nat;
  name : list Z;
}.

Definition set_sz v p := Proc v (pgdir p) (kstack p) (state p) (pid p) (parent p) (tf p) (context p) (p_chan p) (killed p) (ofile p) (cwd p) (name p).
Definition set_pgdir v p := Proc (sz p) v (kstack p) (state p) (pid p) (parent p) (tf p) (context p) (p_chan p) (killed p) (ofile p) (cwd p) (name p).
Definition set_kstack v p := Proc (sz p) (pgdir p) v (state p) (pid p) (parent p) (tf p) (context p) (p_chan p) (killed p) (ofile p) (cwd p) (name p).
Definition set_state v p := Proc (sz p) (pgdir p) (kstack p) v (pid p) (parent p) (tf p) (context p) (p_chan p) (killed p) (ofile p) (cwd p) (name p).
Definition set_pid v p := Proc (sz p) (pgdir p) (kstack p) (state p) v (parent p) (tf p) (context p) (p_chan p) (killed p) (ofile p) (cwd p) (name p).
Definition set_parent v p := Proc (sz p) (pgdir p) (kstack p) (state p) (pid p) v (tf p) (context p) (p_chan p) (killed p) (ofile p) (cwd p) (name p).
Definition set_tf v p := Proc (sz p) (pgdir p) (kstack p) (state p) (pid p) (parent p) v (context p) (p_chan p) (killed p) (ofile p) (cwd p) (name p).
Definition set_context v p := Proc (sz p) (pgdir p) (kstack p) (state p) (pid p) (parent p) (tf p) v (p_chan p) (killed p) (ofile p) (cwd p) (name p).
Definition set_chan v p := Proc (sz p) (pgdir p) (kstack p) (state p) (pid p) (parent p) (tf p) (context p) v (killed p) (ofile p) (cwd p) (name p).
Definition set_killed v p := Proc (sz p) (pgdir p) (kstack p) (state p) (pid p) (parent p) (tf p) (context p) (p_chan p) v (ofile p) (cwd p) (name p).
Definition set_ofile v p := Proc (sz p) (pgdir p) (kstack p) (state p) (pid p) (parent p) (tf p) (context p) (p_chan p) (killed p) v (cwd p) (name p).
Definition set_cwd v p := Proc (sz p) (pgdir p) (kstack p) (state p) (pid p) (parent p) (tf p) (context p) (p_chan p) (killed p) (ofile p) v (name p).
Definition set_name v p := Proc (sz p) (pgdir p) (kstack p) (state p) (pid p) (parent p) (tf p) (context p) (p_chan p) (killed p) (ofile p) (cwd p) v.

(** Zero-initialised storage. *)
Definition proc0 : proc := Proc 0 0 0 UNUSED 0 None 0 0 None 0 (replicate NOFILE None) None [].

(** What proc.c needs of file.c and fs.c. *)
Class FileLayer (F : Type) := {
  filedup : nat → M F nat;
  fileclose : nat → M F unit;
  idup : nat → M F nat;
  (** [begin_op(); iput(ip); end_op();] *)
  iput_op : nat → M F unit;
  (** [namei("/")] *)
  namei_root : M F nat;
}.

Record kstate (F : Type) := KState {
  ptable : list proc;
  nextpid : Z;
  initproc : option nat;
  km : kmem;
  files : F;
}.
Arguments KState {F} ptable nextpid initproc km files.
Arguments ptable {F} k.
Arguments nextpid {F} k.
Arguments initproc {F} k.
Arguments km {F} k.
Arguments files {F} k.

(** Offsets and sizes of [struct trapframe] and [struct context]. *)
Definition sizeof_trapframe : Z := 76.
Definition sizeof_context : Z := 20.
Definition tf_eax : Z := 28.
Definition tf_es : Z := 40.
Definition tf_ds : Z := 44.
Definition tf_eip : Z := 56.
Definition tf_cs : Z := 60.
Definition tf_eflags : Z := 64.
Definition tf_esp : Z := 68.
Definition tf_ss : Z := 72.
Definition context_eip : Z := 16.
Definition SEG_UCODE : Z := 3.
Definition SEG_UDATA : Z := 4.
Definition DPL_USER : Z := 3.
Definition FL_IF : Z := 0x200.

Section proc.
(** Linker symbols, the frame buffer, and the addresses of [forkret] and
    [trapret]; the initcode image and its size. *)
Context (end_ data_ : Z) (gpu : gpu_info) (forkret_addr trapret_addr initcode initcode_size : Z).
Context {F : Type} `{FileLayer F}.

Definition liftk {A} (m : M kmem A) : M (kstate F) A :=
  λ s, match m (km s) with
       | Ret a k => Ret a (KState (ptable s) (nextpid s) (initproc s) k (files s))
       | Panic msg => Panic msg
       | Fault => Fault
       | Block => Block
       | Diverge => Diverge
       end.
Definition liftf {A} (m : M F A) : M (kstate F) A :=
  λ s, match m (files s) with
       | Ret a f => Ret a (KState (ptable s) (nextpid s) (initproc s) (km s) f)
       | Panic msg => Panic msg
       | Fault => Fault
       | Block => Block
       | Diverge => Diverge
       end.

Definition getproc (i : nat) : M (kstate F) proc :=
  λ s, match ptable s !! i with Some p => Ret p s | None => Fault end.
Definition setproc (i : nat) (f : proc → proc) : M (kstate F) unit :=
  modify (λ s, KState (alter f i (ptable s)) (nextpid s) (initproc s) (km s) (files s)).
Definition settable (f : list proc → list proc) : M (kstate F) unit :=
  modify (λ s, KState (f (ptable s)) (nextpid s) (initproc s) (km s) (files s)).

(** The first slot in state UNUSED. *)
Fixpoint find_unused (ps : list proc) (i : nat) : option nat :=
  match ps with
  | [] => None
  | p :: ps => if decide (state p = UNUSED) then Some i else find_unused ps (S i)
  end.

Definition store16 (a v : Z) : M mem unit := store a v ;; store (a + 1) (v / 256).

Definition allocproc : M (kstate F) (option nat) :=
  ps ← gets ptable;
  match find_unused ps 0 with
  | None => mret None
  | Some i =>
      n ← gets nextpid;
      setproc i (λ p, set_pid n (set_state EMBRYO p)) ;;
      modify (λ s, KState (ptable s) (i32 (n + 1)) (initproc s) (km s) (files s)) ;;
      k ← liftk kalloc;
      setproc i (set_kstack k) ;;
      if k =? 0 then
        setproc i (set_state UNUSED) ;;
        mret None
      else
        let sp := k + KSTACKSIZE in
        let sp := sp - sizeof_trapframe in
        setproc i (set_tf sp) ;;
        let sp := sp - 4 in
        liftk (liftm (store32 sp trapret_addr)) ;;
        let sp := sp - sizeof_context in
        setproc i (set_context sp) ;;
        liftk (liftm (memset sp 0 sizeof_context)) ;;
        liftk (liftm (store32 (sp + context_eip) forkret_addr)) ;;
        mret (Some i)
  end.

Definition userinit : M (kstate F) unit :=
  r ← allocproc;
  match r with
  | None => fault
  | Some i =>
      modify (λ s, KState (ptable s) (nextpid s) (Some i) (km s) (files s)) ;;
      d ← liftk (setupkvm end_ data_ gpu);
      setproc i (set_pgdir d) ;;
      if d =? 0 then panic "userinit: out of memory?" else
      liftk (inituvm d initcode initcode_size) ;;
      setproc i (set_sz PGSIZE) ;;
      p ← getproc i;
      let t := tf p in
      liftk (liftm (memset t 0 sizeof_trapframe)) ;;
      let ds := Z.lor (Z.shiftl SEG_UDATA 3) DPL_USER in
      liftk (liftm (store16 (t + tf_cs) (Z.lor (Z.shiftl SEG_UCODE 3) DPL_USER))) ;;
      liftk (liftm (store16 (t + tf_ds) ds)) ;;
      liftk (liftm (store16 (t + tf_es) ds)) ;;
      liftk (liftm (store16 (t + tf_ss) ds)) ;;
      liftk (liftm (store32 (t + tf_eflags) FL_IF)) ;;
      liftk (liftm (store32 (t + tf_esp) PGSIZE)) ;;
      liftk (liftm (store32 (t + tf_eip) 0)) ;;
      setproc i (set_name [105; 110; 105; 116; 99; 111; 100; 101]) ;;
      c ← liftf namei_root;
      setproc i (set_cwd (Some c)) ;;
      setproc i (set_state RUNNABLE)
  end.

(** [switchuvm(p)] for the process that runs: its tests.  What it loads, the
    task state segment, the task register and the page directory register of
    the processor, is in Percpu.v. *)
Definition switchuvm_tests (cur : nat) : M (kstate F) unit :=
  p ← getproc cur;
  if kstack p =? 0 then panic "switchuvm: no kstack" else
  if pgdir p =? 0 then panic "switchuvm: no pgdir" else mret tt.

Definition growproc (cur : nat) (n : Z) : M (kstate F) Z :=
  p ← getproc cur;
  r ← (if 0 <? n then
         r ← liftk (allocuvm end_ (pgdir p) (sz p) (u32 (sz p + n)));
         mret (if r =? 0 then None else Some r)
       else if n <? 0 then
         r ← liftk (deallocuvm end_ (pgdir p) (sz p) (u32 (sz p + n)));
         mret (if r =? 0 then None else Some r)
       else mret (Some (sz p)));
  match r with
  | None => mret (-1)
  | Some sz => setproc cur (set_sz sz) ;; switchuvm_tests cur ;; mret 0
  end.

(** The loop over [ofile] in [fork]. *)
Definition dup_files (cur i : nat) : M (kstate F) unit :=
  for_ NOFILE 0 (λ fd,
    p ← getproc cur;
    match ofile p !! fd with
    | Some (Some f) =>
        f' ← liftf (filedup f);
        setproc i (λ q, set_ofile (<[fd := Some f']> (ofile q)) q)
    | _ => mret tt
    end).

Definition fork (cur : nat) : M (kstate F) Z :=
  r ← allocproc;
  match r with
  | None => mret (-1)
  | Some i =>
      p ← getproc cur;
      d ← liftk (copyuvm end_ data_ gpu (pgdir p) (sz p));
      setproc i (set_pgdir d) ;;
      np ← getproc i;
      if d =? 0 then
        liftk (kfree end_ (kstack np)) ;;
        setproc i (set_kstack 0) ;;
        setproc i (set_state UNUSED) ;;
        mret (-1)
      else
        setproc i (set_sz (sz p)) ;;
        setproc i (set_parent (Some cur)) ;;
        liftk (liftm (memmove (tf np) (tf p) sizeof_trapframe)) ;;
        liftk (liftm (store32 (tf np + tf_eax) 0)) ;;
        dup_files cur i ;;
        c ← (match cwd p with Some ip => c ← liftf (idup ip); mret (Some c) | None => fault end);
        setproc i (set_cwd c) ;;
        setproc i (set_name (take 15 (name p))) ;;
        setproc i (set_state RUNNABLE) ;;
        mret (pid np)
  end.

(** [wakeup1] on the table. *)
Definition wake (c : chan) (p : proc) : proc :=
  if decide (state p = SLEEPING ∧ p_chan p = Some c) then set_state RUNNABLE p else p.
Definition wakeup1 (c : chan) (ps : list proc) : list proc := wake c <$> ps.
Definition wakeup (c : chan) : M (kstate F) unit := settable (wakeup1 c).

(** The loop of [exit] that passes children to init, from slot [i] on, with
    the wakeups it makes as it goes. *)
Fixpoint reparent (n i cur init : nat) (ps : list proc) : list proc :=
  match n with
  | O => ps
  | S n =>
      match ps !! i with
      | Some p =>
          let ps :=
            if decide (parent p = Some cur) then
              let ps := <[i := set_parent (Some init) p]> ps in
              if decide (state p = ZOMBIE) then wakeup1 (PChan init) ps else ps
            else ps in
          reparent n (S i) cur init ps
      | None => ps
      end
  end.

(** The part of [exit] that holds [ptable.lock]. *)
Definition exit_table (cur : nat) (par init : option nat) (ps : list proc) : list proc :=
  let ps := match par with Some q => wakeup1 (PChan q) ps | None => ps end in
  let ps := match init with Some q => reparent NPROC 0 cur q ps | None => ps end in
  alter (set_state ZOMBIE) cur ps.

Definition close_files (cur : nat) : M (kstate F) unit :=
  for_ NOFILE 0 (λ fd,
    p ← getproc cur;
    match ofile p !! fd with
    | Some (Some f) =>
        liftf (fileclose f) ;;
        setproc cur (λ q, set_ofile (<[fd := None]> (ofile q)) q)
    | _ => mret tt
    end).

(** [exit] up to the [sched] that never returns. *)
Definition exit (cur : nat) : M (kstate F) unit :=
  ini ← gets initproc;
  if decide (ini = Some cur) then panic "init exiting" else
  close_files cur ;;
  p ← getproc cur;
  (match cwd p with Some ip => liftf (iput_op ip) | None => fault end) ;;
  setproc cur (set_cwd None) ;;
  p ← getproc cur;
  ini ← gets initproc;
  settable (exit_table cur (parent p) ini).

(** What one pass of [wait] finds: an exited child, or whether there are
    children at all. *)
Fixpoint find_zombie (ps : list proc) (i cur : nat) (havekids : bool) : (nat * proc) + bool :=
  match ps with
  | [] => inr havekids
  | p :: ps =>
      if decide (parent p = Some cur) then
        if decide (state p = ZOMBIE) then inl (i, p) else find_zombie ps (S i) cur true
      else find_zombie ps (S i) cur havekids
  end.

Inductive wait_result := WaitPid (p : Z) | WaitNone | WaitSleep.

(** One round of [wait]: reap, fail, or go to sleep on the process itself. *)
Definition wait (cur : nat) : M (kstate F) wait_result :=
  ps ← gets ptable;
  match find_zombie ps 0 cur false with
  | inl (i, p) =>
      liftk (kfree end_ (kstack p)) ;;
      setproc i (set_kstack 0) ;;
      liftk (freevm end_ (pgdir p)) ;;
      setproc i (λ q, set_state UNUSED (set_killed 0 (set_name [] (set_parent None (set_pid 0 q))))) ;;
      mret (WaitPid (pid p))
  | inr havekids =>
      p ← getproc cur;
      if negb havekids || negb (killed p =? 0) then mret WaitNone
      else
        setproc cur (λ q, set_state SLEEPING (set_chan (Some (PChan cur)) q)) ;;
        mret WaitSleep
  end.

(** [sleep] up to [sched]; and what it does when it runs again. *)
Definition sleep (cur : nat) (c : chan) : M (kstate F) unit :=
  setproc cur (λ p, set_state SLEEPING (set_chan (Some c) p)).
Definition sleep_return (cur : nat) : M (kstate F) unit := setproc cur (set_chan None).

Definition yield (cur : nat) : M (kstate F) unit := setproc cur (set_state RUNNABLE).

Fixpoint kill_table (ps : list proc) (k : Z) : list proc * Z :=
  match ps with
  | [] => ([], -1)
  | p :: ps =>
      if pid p =? k then
        let p := set_killed 1 p in
        ((if decide (state p = SLEEPING) then set_state RUNNABLE p else p) :: ps, 0)
      else let '(ps, r) := kill_table ps k in (p :: ps, r)
  end.
Definition kill (k : Z) : M (kstate F) Z :=
  ps ← gets ptable;
  let '(ps', r) := kill_table ps k in
  settable (λ _, ps') ;;
  mret r.

(** The scheduler's choice of slot [i]; [None] when it is not RUNNABLE. *)
Definition schedule (i : nat) (ps : list proc) : option (list proc) :=
  match ps !! i with
  | Some p => if decide (state p = RUNNABLE) then Some (<[i := set_state RUNNING p]> ps) else None
  | None => None
  end.
End proc.
