(* ===== verification/ProcInv.v ===== *)
(** * The life of a process

    The transitions proc.c makes on the process table, one per critical
    section of [ptable.lock] (and per unlocked write to the slot [fork] is
    building), for any number of CPUs; their invariant; and the proof that
    the operations of Proc.v make only these transitions. *)

From S2P Require Import Prelude Param StringC Kalloc Vm Proc.

(** The table, the next pid, and what each CPU runs ([c->proc]). *)
Record tsys := TSys { tbl : list proc; nxt : Z; cpu : list (option nat) }.

(** The fields the table operations look at. *)
Definition same_core (p q : proc) : Prop :=
  state q = state p ∧ pid q = pid p ∧ parent q = parent p ∧ p_chan q = p_chan p ∧ killed q = killed p.

Section steps.
Context (init : nat).

(** [c] runs process [i]. *)
Definition runs (t : tsys) (c i : nat) : Prop := cpu t !! c = Some (Some i).

Inductive tstep : tsys → tsys → Prop :=
| t_pick t c i ps :
    cpu t !! c = Some None → schedule i (tbl t) = Some ps →
    tstep t (TSys ps (nxt t) (<[c := Some i]> (cpu t)))
| t_alloc t j :
    find_unused (tbl t) 0 = Some j →
    tstep t (TSys (alter (λ p, set_pid (nxt t) (set_state EMBRYO p)) j (tbl t)) (i32 (nxt t + 1)) (cpu t))
| t_free t j p :
    tbl t !! j = Some p → state p = EMBRYO → parent p = None →
    tstep t (TSys (alter (set_state UNUSED) j (tbl t)) (nxt t) (cpu t))
| t_setup t j f :
    (∀ p, same_core p (f p)) → tstep t (TSys (alter f j (tbl t)) (nxt t) (cpu t))
| t_parent t c cur j p :
    runs t c cur → tbl t !! j = Some p → state p = EMBRYO →
    tstep t (TSys (alter (set_parent (Some cur)) j (tbl t)) (nxt t) (cpu t))
| t_ready t j p :
    tbl t !! j = Some p → state p = EMBRYO → parent p ≠ None →
    tstep t (TSys (alter (set_state RUNNABLE) j (tbl t)) (nxt t) (cpu t))
| t_exit t c cur p :
    runs t c cur → cur ≠ init → tbl t !! cur = Some p →
    tstep t (TSys (exit_table cur (parent p) (Some init) (tbl t)) (nxt t) (<[c := None]> (cpu t)))
| t_reap t c cur i p :
    runs t c cur → find_zombie (tbl t) 0 cur false = inl (i, p) →
    tstep t (TSys (alter (λ q, set_state UNUSED (set_killed 0 (set_name [] (set_parent None (set_pid 0 q))))) i
              (tbl t)) (nxt t) (cpu t))
| t_wait_sleep t c cur :
    runs t c cur → find_zombie (tbl t) 0 cur false = inr true →
    tstep t (TSys (alter (λ q, set_state SLEEPING (set_chan (Some (PChan cur)) q)) cur (tbl t)) (nxt t)
              (<[c := None]> (cpu t)))
| t_sleep t c cur a :
    runs t c cur →
    tstep t (TSys (alter (λ q, set_state SLEEPING (set_chan (Some (AChan a)) q)) cur (tbl t)) (nxt t)
              (<[c := None]> (cpu t)))
| t_tidy t c cur :
    runs t c cur → tstep t (TSys (alter (set_chan None) cur (tbl t)) (nxt t) (cpu t))
| t_yield t c cur :
    runs t c cur →
    tstep t (TSys (alter (set_state RUNNABLE) cur (tbl t)) (nxt t) (<[c := None]> (cpu t)))
| t_wakeup t a : tstep t (TSys (wakeup1 (AChan a) (tbl t)) (nxt t) (cpu t))
| t_kill t k : tstep t (TSys (kill_table (tbl t) k).1 (nxt t) (cpu t)).

(** States of a process that has been made ready and has not exited. *)
Definition alive (s : procstate) : bool :=
  match s with SLEEPING | RUNNABLE | RUNNING => true | _ => false end.

Record tcore (t : tsys) : Prop := {
  ti_len : length (tbl t) = NPROC;
  (** a RUNNING process is on exactly one CPU *)
  ti_run i p : tbl t !! i = Some p → state p = RUNNING ↔ ∃ c, runs t c i;
  ti_one c d i : runs t c i → runs t d i → c = d;
  ti_slot c i : runs t c i → is_Some (tbl t !! i);
  (** parents are alive, and every process but init has one *)
  ti_parent i p q : tbl t !! i = Some p → parent p = Some q → ∃ r, tbl t !! q = Some r ∧ alive (state r) = true;
  ti_self i p : tbl t !! i = Some p → parent p ≠ Some i;
  ti_root r : tbl t !! init = Some r → parent r = None;
  ti_unused i p : tbl t !! i = Some p → state p = UNUSED → parent p = None;
  ti_child i p : tbl t !! i = Some p → alive (state p) = true ∨ state p = ZOMBIE → i ≠ init → parent p ≠ None;
  ti_init : ∃ r, tbl t !! init = Some r ∧ alive (state r) = true;
  (** a process does not sleep in [wait] while it has an exited child *)
  ti_wait i p q r : tbl t !! i = Some p → state p = ZOMBIE → parent p = Some q → tbl t !! q = Some r →
    ¬ (state r = SLEEPING ∧ p_chan r = Some (PChan q));
}.

(** Pids of used slots are distinct and below [nextpid]: what holds until
    [nextpid], an int, wraps around. *)
Record tpids (t : tsys) : Prop := {
  ti_pid i p : tbl t !! i = Some p → state p ≠ UNUSED → 0 < pid p < nxt t;
  ti_nxt : 0 < nxt t;
  ti_uniq i j p q : tbl t !! i = Some p → tbl t !! j = Some q → state p ≠ UNUSED → state q ≠ UNUSED →
    pid p = pid q → i = j;
}.

Record tinv (t : tsys) : Prop := { ti_core : tcore t; ti_pids : tpids t }.

(** ** Changing one slot *)

Lemma lookup_alter_Some (f : proc → proc) (l : list proc) i j p' :
  alter f i l !! j = Some p' ↔
    (j = i ∧ ∃ p, l !! i = Some p ∧ p' = f p) ∨ (j ≠ i ∧ l !! j = Some p').
Proof.
  destruct (decide (j = i)) as [->|Hne].
  - rewrite list_lookup_alter_eq, fmap_Some. split; [by left|]. intros [[_ ?]|[? _]]; done.
  - rewrite list_lookup_alter_ne by done. split; [by right|]. intros [[? _]|[_ ?]]; done.
Qed.

Lemma alter_none (f : proc → proc) (l : list proc) i : l !! i = None → alter f i l = l.
Proof.
  intros Hi. apply list_eq. intros j. destruct (decide (i = j)) as [<-|Hne].
  - by rewrite list_lookup_alter_eq, Hi.
  - by rewrite list_lookup_alter_ne.
Qed.

Lemma insert_Some (l : list proc) i j (x p q : proc) :
  l !! i = Some x → <[i := q]> l !! j = Some p ↔ (j = i ∧ p = q) ∨ (j ≠ i ∧ l !! j = Some p).
Proof.
  intros Hi. pose proof (lookup_lt_Some _ _ _ Hi). rewrite list_lookup_insert_case by done.
  case_decide; subst; split; intros Hx; try naive_solver.
Qed.

(** How the CPUs change with slot [j]. *)
Inductive cpu_move (t : tsys) (j : nat) (p p' : proc) : list (option nat) → Prop :=
| cm_same : (state p' = RUNNING ↔ state p = RUNNING) → cpu_move t j p p' (cpu t)
| cm_pick c : cpu t !! c = Some None → state p ≠ RUNNING → state p' = RUNNING →
    cpu_move t j p p' (<[c := Some j]> (cpu t))
| cm_drop c : runs t c j → state p' ≠ RUNNING → cpu_move t j p p' (<[c := None]> (cpu t)).

Lemma runs_insert (t : tsys) ps n c x d i :
  (c < length (cpu t))%nat →
  runs (TSys ps n (<[c := x]> (cpu t))) d i ↔ (d = c ∧ x = Some i) ∨ (d ≠ c ∧ runs t d i).
Proof.
  intros Hc. unfold runs. cbn [cpu]. rewrite list_lookup_insert_case by done.
  case_decide; subst; split; intros Hx; naive_solver.
Qed.

Lemma cpu_move_ok t j p p' ps n cpu' :
  tcore t → tbl t !! j = Some p → cpu_move t j p p' cpu' →
  (∀ i, is_Some (ps !! i) ↔ is_Some (tbl t !! i)) →
  let t' := TSys ps n cpu' in
  (state p' = RUNNING ↔ ∃ c, runs t' c j) ∧
  (∀ i, i ≠ j → (∃ c, runs t' c i) ↔ ∃ c, runs t c i) ∧
  (∀ c d i, runs t' c i → runs t' d i → c = d) ∧ (∀ c i, runs t' c i → is_Some (tbl t' !! i)).
Proof.
  intros Ht Hj Hm Hps. cbn zeta. pose proof (ti_run t Ht j p Hj) as Hrun.
  destruct Hm as [E|c Hc Hn Hy|c Hc Hn].
  - split_and!; [by rewrite E|done|exact (ti_one t Ht)|]. intros c i Hci. cbn. apply Hps.
    by eapply (ti_slot t Ht).
  - pose proof (lookup_lt_Some _ _ _ Hc) as Hlt. assert (Hno : ∀ d, ¬ runs t d j) by (intros d Hd; apply Hn, Hrun; eauto).
    split_and!.
    + split; [|done]. intros _. exists c. apply runs_insert; [done|]. by left.
    + intros i Hi. split; intros [d Hd].
      * apply runs_insert in Hd as [[_ [= <-]]|[_ Hd]]; [done|eauto|done].
      * exists d. apply runs_insert; [done|]. right. split; [|done]. intros ->. unfold runs in Hd. congruence.
    + intros d e i Hd He. apply runs_insert in Hd, He; [|done..].
      destruct Hd as [[-> [= <-]]|[? Hd]], He as [[-> E]|[? He]]; try done.
      * by apply Hno in He.
      * injection E as ->. by apply Hno in Hd.
      * by eapply (ti_one t Ht).
    + intros d i Hd. cbn. apply Hps. apply runs_insert in Hd as [[_ [= <-]]|[_ Hd]]; [by rewrite Hj| |done].
      by eapply (ti_slot t Ht).
  - assert (Hlt : (c < length (cpu t))%nat) by by eapply lookup_lt_Some. split_and!.
    + split; [done|]. intros [d Hd]. apply runs_insert in Hd as [[_ ?]|[Hne Hd]]; [done| |done].
      exfalso. apply Hne. by eapply (ti_one t Ht).
    + intros i Hi. split; intros [d Hd].
      * apply runs_insert in Hd as [[_ ?]|[_ Hd]]; [done|eauto|done].
      * exists d. apply runs_insert; [done|]. right. split; [|done]. intros ->. unfold runs in Hc, Hd. congruence.
    + intros d e i Hd He. apply runs_insert in Hd as [[_ ?]|[? Hd]]; [done| |done].
      apply runs_insert in He as [[_ ?]|[? He]]; [done| |done]. by eapply (ti_one t Ht).
    + intros d i Hd. cbn. apply Hps. apply runs_insert in Hd as [[_ ?]|[_ Hd]]; [done| |done].
      by eapply (ti_slot t Ht).
Qed.

(** No process [i] has exited as a child of [q]. *)
Definition no_zombie_child (ps : list proc) (q : nat) : Prop :=
  ∀ i p, ps !! i = Some p → state p = ZOMBIE → parent p ≠ Some q.

Lemma one_slot t j p p' nxt' cpu' :
  tcore t → tbl t !! j = Some p → cpu_move t j p p' cpu' →
  (alive (state p) = true → alive (state p') = true) ∨
    (j ≠ init ∧ ∀ i q, tbl t !! i = Some q → parent q ≠ Some j) →
  (parent p' = parent p ∨ parent p' = None ∨
    ∃ q r, parent p' = Some q ∧ q ≠ j ∧ j ≠ init ∧ tbl t !! q = Some r ∧ alive (state r) = true) →
  (state p' = UNUSED → parent p' = None) →
  (alive (state p') = true ∨ state p' = ZOMBIE → j ≠ init → parent p' ≠ None) →
  (state p' = ZOMBIE → (state p = ZOMBIE ∧ parent p' = parent p) ∨
    ∀ k r, parent p' = Some k → tbl t !! k = Some r → ¬ (state r = SLEEPING ∧ p_chan r = Some (PChan k))) →
  (state p' = SLEEPING → p_chan p' = Some (PChan j) →
    (state p = SLEEPING ∧ p_chan p = p_chan p') ∨ no_zombie_child (tbl t) j) →
  tcore (TSys (<[j := p']> (tbl t)) nxt' cpu').
Proof.
  intros Ht Hj Hm Hal Hpar Hun Hch Hz Hw.
  assert (Hin : ∀ i q, <[j := p']> (tbl t) !! i = Some q ↔ (i = j ∧ q = p') ∨ (i ≠ j ∧ tbl t !! i = Some q)).
  { intros i q. by apply (insert_Some _ _ _ p). }
  destruct (cpu_move_ok t j p p' (<[j := p']> (tbl t)) nxt' cpu' Ht Hj Hm) as (Hr1 & Hr2 & Hr3 & Hr4).
  { intros i. destruct (decide (i = j)) as [->|]; [|by rewrite list_lookup_insert_ne].
    rewrite list_lookup_insert_eq by (by eapply lookup_lt_Some). by rewrite Hj. }
  assert (Halive : ∀ q r, tbl t !! q = Some r → alive (state r) = true →
    q ≠ j ∨ (∃ i x, tbl t !! i = Some x ∧ parent x = Some q) ∨ q = init →
    ∃ r', <[j := p']> (tbl t) !! q = Some r' ∧ alive (state r') = true).
  { intros q r Hq Hr Hx. destruct (decide (q = j)) as [->|Hne].
    - exists p'. rewrite Hin. split; [by left|]. destruct Hal as [Hal|[Hji Hno]]; [apply Hal; congruence|].
      exfalso. destruct Hx as [?|[(i & x & Hi & Hp)|?]]; [done|by eapply Hno|done].
    - exists r. rewrite Hin. split; [by right|done]. }
  split; cbn [tbl nxt cpu].
  - rewrite length_insert. apply Ht.
  - intros i q [[-> ->]|[Hi Hq]]%Hin; [done|]. rewrite Hr2 by done. by apply (ti_run t Ht).
  - done.
  - done.
  - intros i q k [[-> ->]|[Hi Hq]]%Hin Hk.
    + destruct Hpar as [E|[E|(k' & r & E & Hne & _ & Hr & Ha)]]; [|congruence|].
      * rewrite E in Hk. destruct (ti_parent t Ht j p k Hj Hk) as (r & Hr & Ha).
        eapply Halive; [done..|]. right; left; eauto.
      * rewrite E in Hk. injection Hk as ->. eapply Halive; eauto.
    + destruct (ti_parent t Ht i q k Hq Hk) as (r & Hr & Ha). eapply Halive; [done..|]. right; left; eauto.
  - intros i q [[-> ->]|[Hi Hq]]%Hin; [|by apply (ti_self t Ht)].
    destruct Hpar as [->|[->|(q & r & -> & Hne & _)]]; [by apply (ti_self t Ht)|done|congruence].
  - intros r [[<- ->]|[Hi Hr]]%Hin; [|by apply (ti_root t Ht)].
    destruct Hpar as [->|[->|(q & r & _ & _ & Hne & _)]]; [by apply (ti_root t Ht)|done|done].
  - intros i q [[-> ->]|[Hi Hq]]%Hin; [done|]. by apply (ti_unused t Ht i).
  - intros i q [[-> ->]|[Hi Hq]]%Hin; [done|]. by apply (ti_child t Ht).
  - destruct (ti_init t Ht) as (r & Hr & Ha). eapply Halive; eauto.
  - intros i q k r [[-> ->]|[Hi Hq]]%Hin Hzo Hk [[-> ->]|[Hk' Hr]]%Hin [Hs Hc].
    + congruence.
    + destruct (Hz Hzo) as [[Hz1 Hz2]|Hz1]; [|by apply (Hz1 k r)].
      apply (ti_wait t Ht j p k r Hj Hz1); [congruence|done|done].
    + destruct (Hw Hs Hc) as [[Hs' Hc']|Hno]; [|by apply (Hno i q)].
      apply (ti_wait t Ht i q j p Hq Hzo Hk Hj). split; congruence.
    + by apply (ti_wait t Ht i q k r Hq Hzo Hk Hr).
Qed.

(** ** Changing many slots *)

(** [p'] is [p], perhaps woken, and perhaps adopted by [init] if it was a
    child of [cur]. *)
Definition nudged (cur : option nat) (p p' : proc) : Prop :=
  pid p' = pid p ∧ p_chan p' = p_chan p ∧
  (state p' = state p ∨ (state p = SLEEPING ∧ state p' = RUNNABLE)) ∧
  parent p' = match cur with
              | Some c => if decide (parent p = Some c) then Some init else parent p
              | None => parent p
              end.

Lemma nudged_alive cur p p' : nudged cur p p' → alive (state p') = alive (state p).
Proof. intros (_&_&[->|[-> ->]]&_); done. Qed.

Lemma nudged_running cur p p' : nudged cur p p' → state p' = RUNNING ↔ state p = RUNNING.
Proof. intros (_&_&[->|[-> ->]]&_); done. Qed.

Lemma nudged_unused cur p p' : nudged cur p p' → state p' = UNUSED ↔ state p = UNUSED.
Proof. intros (_&_&[->|[-> ->]]&_); done. Qed.

Lemma nudged_zombie cur p p' : nudged cur p p' → state p' = ZOMBIE ↔ state p = ZOMBIE.
Proof. intros (_&_&[->|[-> ->]]&_); done. Qed.

Lemma nudged_sleeping cur p p' : nudged cur p p' → state p' = SLEEPING → state p = SLEEPING.
Proof. intros (_&_&[->|[-> ->]]&_); done. Qed.

(** Waking processes and handing children of [cur] to [init] keeps the
    invariant if [init] is awake whenever it gets an exited child. *)
Lemma many_slots t cur ps' :
  tcore t → length ps' = length (tbl t) →
  (∀ i p p', tbl t !! i = Some p → ps' !! i = Some p' → nudged cur p p') →
  (∀ i p r, tbl t !! i = Some p → state p = ZOMBIE → parent p = cur → cur ≠ None → ps' !! init = Some r →
    ¬ (state r = SLEEPING ∧ p_chan r = Some (PChan init))) →
  tcore (TSys ps' (nxt t) (cpu t)).
Proof.
  intros Ht Hlen Hn Hz.
  assert (Hb : ∀ i p', ps' !! i = Some p' → ∃ p, tbl t !! i = Some p ∧ nudged cur p p').
  { intros i p' Hi. destruct (lookup_lt_is_Some_2 (tbl t) i) as [p Hp]; [rewrite <- Hlen; by eapply lookup_lt_Some|].
    eauto. }
  assert (Hf : ∀ i p, tbl t !! i = Some p → ∃ p', ps' !! i = Some p' ∧ nudged cur p p').
  { intros i p Hi. destruct (lookup_lt_is_Some_2 ps' i) as [p' Hp']; [rewrite Hlen; by eapply lookup_lt_Some|].
    eauto. }
  split; cbn [tbl nxt cpu].
  - rewrite Hlen. apply Ht.
  - intros i p' Hi. destruct (Hb _ _ Hi) as (p & Hp & Hnu). rewrite (nudged_running _ _ _ Hnu).
    by apply (ti_run t Ht).
  - exact (ti_one t Ht).
  - intros c i Hc. destruct (ti_slot t Ht c i Hc) as [p Hp]. destruct (Hf _ _ Hp) as (p' & -> & _). eauto.
  - intros i p' q Hi Hpar. destruct (Hb _ _ Hi) as (p & Hp & Hnu).
    assert (Hq : ∃ r, tbl t !! q = Some r ∧ alive (state r) = true).
    { destruct Hnu as (_&_&_&E). rewrite Hpar in E. destruct cur as [c|].
      - case_decide; [injection E as ->; apply (ti_init t Ht)|by eapply (ti_parent t Ht)].
      - by eapply (ti_parent t Ht). }
    destruct Hq as (r & Hr & Ha). destruct (Hf _ _ Hr) as (r' & Hr' & Hnr). exists r'. split; [done|].
    by rewrite (nudged_alive _ _ _ Hnr).
  - intros i p' Hi E. destruct (Hb _ _ Hi) as (p & Hp & (_&_&_&Ep)). rewrite E in Ep.
    pose proof (ti_self t Ht i p Hp) as Hs. destruct cur as [c|]; [|congruence].
    destruct (decide (parent p = Some c)) as [Hd|]; [|congruence]. injection Ep as ->.
    rewrite (ti_root t Ht p Hp) in Hd. done.
  - intros r' Hr'. destruct (Hb _ _ Hr') as (r & Hr & (_&_&_&->)). rewrite (ti_root t Ht r Hr).
    by destruct cur.
  - intros i p' Hi Hu. destruct (Hb _ _ Hi) as (p & Hp & Hnu). rewrite (nudged_unused _ _ _ Hnu) in Hu.
    pose proof (ti_unused t Ht i p Hp Hu) as Hpa. destruct Hnu as (_&_&_&E). rewrite Hpa in E.
    destruct cur; [|done]. by rewrite decide_False in E.
  - intros i p' Hi Hs Hne. destruct (Hb _ _ Hi) as (p & Hp & Hnu).
    rewrite (nudged_alive _ _ _ Hnu), (nudged_zombie _ _ _ Hnu) in Hs.
    pose proof (ti_child t Ht i p Hp Hs Hne) as Hpa. destruct Hnu as (_&_&_&->).
    destruct cur; [|done]. by case_decide.
  - destruct (ti_init t Ht) as (r & Hr & Ha). destruct (Hf _ _ Hr) as (r' & Hr' & Hnr). exists r'. split; [done|].
    by rewrite (nudged_alive _ _ _ Hnr).
  - intros i p' q r' Hi Hzo Hpar Hr' [Hs Hc]. destruct (Hb _ _ Hi) as (p & Hp & Hnu).
    rewrite (nudged_zombie _ _ _ Hnu) in Hzo. destruct (Hb _ _ Hr') as (r & Hr & Hnr).
    pose proof (nudged_sleeping _ _ _ Hnr Hs) as Hs0. destruct Hnr as (_ & Ec & _).
    assert (Hold : parent p = Some q → False).
    { intros E. apply (ti_wait t Ht i p q r Hp Hzo E Hr). split; congruence. }
    destruct Hnu as (_&_&_&E). rewrite Hpar in E. destruct cur as [c|]; [|by apply Hold].
    case_decide as Hd; [|by apply Hold]. injection E as ->. by apply (Hz i p r' Hp Hzo Hd).
Qed.

Lemma wake_nudged c p : nudged None p (wake c p).
Proof.
  unfold wake, nudged. case_decide as Hd; [destruct Hd; cbn|]; split_and!; auto.
Qed.

Lemma wakeup_inv t c : tcore t → tcore (TSys (wakeup1 c (tbl t)) (nxt t) (cpu t)).
Proof.
  intros Ht. apply (many_slots t None); [done|apply length_fmap| |done].
  intros i p p' Hp Hp'. unfold wakeup1 in Hp'. rewrite list_lookup_fmap, Hp in Hp'. injection Hp' as <-.
  apply wake_nudged.
Qed.

(** [reparent] slot by slot. *)
Lemma wakeup1_lookup c ps i : wakeup1 c ps !! i = wake c <$> ps !! i.
Proof. unfold wakeup1. apply list_lookup_fmap. Qed.

Lemma reparent_length n i cur ini ps : length (reparent n i cur ini ps) = length ps.
Proof.
  revert i ps. induction n as [|n IH]; intros i ps; cbn [reparent]; [done|].
  destruct (ps !! i); [|done]. rewrite IH. case_decide; [|done].
  case_decide; [unfold wakeup1; rewrite length_fmap|]; apply length_insert.
Qed.

Definition adopt (cur : nat) (b : bool) (p p' : proc) : Prop :=
  pid p' = pid p ∧ p_chan p' = p_chan p ∧ killed p' = killed p ∧
  (state p' = state p ∨ (state p = SLEEPING ∧ p_chan p = Some (PChan init) ∧ state p' = RUNNABLE)) ∧
  parent p' = if b then (if decide (parent p = Some cur) then Some init else parent p) else parent p.

Lemma adopt_refl cur p : adopt cur false p p.
Proof. unfold adopt. split_and!; auto. Qed.

Lemma adopt_wake cur b p p' : adopt cur b p p' → adopt cur b p (wake (PChan init) p').
Proof.
  intros Ha. unfold wake. case_decide as Hd; [|done].
  destruct Ha as (E1 & E2 & E3 & E4 & E5), Hd as [Hs Hc]. unfold adopt. cbn. split_and!; try done. right.
  destruct E4 as [E4|(?&?&E4)]; [|congruence]. split_and!; congruence.
Qed.

(** After the slots below [i] have been visited. *)
Lemma reparent_spec n i cur ps0 ps :
  length ps = length ps0 → cur ≠ init →
  (∀ k p p', ps0 !! k = Some p → ps !! k = Some p' → adopt cur (bool_decide (k < i)%nat) p p') →
  (∀ k p r, ps0 !! k = Some p → (k < i)%nat → state p = ZOMBIE → parent p = Some cur → ps !! init = Some r →
    ¬ (state r = SLEEPING ∧ p_chan r = Some (PChan init))) →
  let ps' := reparent n i cur init ps in
  (∀ k p p', ps0 !! k = Some p → ps' !! k = Some p' → (k < i + n)%nat → adopt cur true p p') ∧
  (∀ k p r, ps0 !! k = Some p → (k < i + n)%nat → state p = ZOMBIE → parent p = Some cur → ps' !! init = Some r →
    ¬ (state r = SLEEPING ∧ p_chan r = Some (PChan init))).
Proof.
  intros Hlen Hci. revert i ps Hlen. induction n as [|n IH]; intros i ps Hlen Ha Hz; cbn zeta; cbn [reparent].
  { rewrite Nat.add_0_r. split; [|exact Hz]. intros k p p' Hp Hp' Hk. specialize (Ha k p p' Hp Hp').
    by rewrite bool_decide_eq_true_2 in Ha. }
  rewrite <- Nat.add_succ_comm. destruct (ps !! i) as [q|] eqn:Hq.
  2:{ apply lookup_ge_None in Hq. split.
      - intros k p p' Hp Hp' _. specialize (Ha k p p' Hp Hp'). pose proof (lookup_lt_Some _ _ _ Hp').
        by rewrite bool_decide_eq_true_2 in Ha by lia.
      - intros k p r Hp _. pose proof (lookup_lt_Some _ _ _ Hp). apply (Hz k p r Hp). lia. }
  destruct (lookup_lt_is_Some_2 ps0 i) as [q0 Hq0]; [rewrite <- Hlen; by eapply lookup_lt_Some|].
  pose proof (Ha i q0 q Hq0 Hq) as Haq. rewrite bool_decide_eq_false_2 in Haq by lia.
  set (ps1 := if decide (parent q = Some cur) then <[i := set_parent (Some init) q]> ps else ps).
  assert (Hl1 : length ps1 = length ps0).
  { unfold ps1. case_decide; [by rewrite length_insert|done]. }
  assert (Ha1 : ∀ k p p', ps0 !! k = Some p → ps1 !! k = Some p' → adopt cur (bool_decide (k < S i)%nat) p p').
  { intros k p p' Hp Hp'. unfold ps1 in Hp'. destruct (decide (k = i)) as [->|Hki].
    - rewrite Hq0 in Hp. injection Hp as <-. rewrite bool_decide_eq_true_2 by lia.
      destruct Haq as (E1 & E2 & E3 & E4 & E5). destruct (decide (parent q = Some cur)) as [Hd|Hd].
      + rewrite list_lookup_insert_eq in Hp' by (by eapply lookup_lt_Some). injection Hp' as <-.
        unfold adopt. cbn. split_and!; try done. rewrite <- E5. by rewrite decide_True.
      + rewrite Hq in Hp'. injection Hp' as <-. unfold adopt. split_and!; try done.
        rewrite <- E5. by rewrite decide_False.
    - assert (Hp2 : ps !! k = Some p').
      { destruct (decide (parent q = Some cur)); [by rewrite list_lookup_insert_ne in Hp'|done]. }
      specialize (Ha k p p' Hp Hp2). erewrite (bool_decide_ext (k < S i)%nat (k < i)%nat); [done|]. lia. }
  assert (Hi1 : ∀ r, ps1 !! init = Some r → ∃ r0, ps !! init = Some r0 ∧ state r = state r0 ∧ p_chan r = p_chan r0).
  { intros r Hr. unfold ps1 in Hr. destruct (decide (parent q = Some cur)); [|by eauto].
    destruct (decide (init = i)) as [->|]; [|rewrite list_lookup_insert_ne in Hr by done; eauto].
    rewrite list_lookup_insert_eq in Hr by (by eapply lookup_lt_Some). injection Hr as <-. eauto. }
  destruct (decide (parent q = Some cur)) as [Hd|Hd]; [destruct (decide (state q = ZOMBIE)) as [Hzq|Hzq]|].
  - apply (IH (S i) (wakeup1 (PChan init) ps1)).
    + unfold wakeup1. by rewrite length_fmap.
    + intros k p p' Hp Hp'. rewrite wakeup1_lookup, fmap_Some in Hp'. destruct Hp' as (p1 & Hp1 & ->).
      by apply adopt_wake, (Ha1 k).
    + intros k p r Hp _ _ _ Hr [Hs Hc]. rewrite wakeup1_lookup, fmap_Some in Hr. destruct Hr as (r1 & Hr1 & ->).
      unfold wake in Hs, Hc. case_decide as Hw; [done|]. by apply Hw.
  - apply (IH (S i) ps1); [done|done|]. intros k p r Hp Hk Hzo Hpa Hr Hsl.
    destruct (decide (k = i)) as [->|Hki].
    + rewrite Hq0 in Hp. injection Hp as <-. destruct Haq as (_&_&_&[E|(E&_&_)]&_); congruence.
    + destruct (Hi1 r Hr) as (r0 & Hr0 & E1 & E2). rewrite E1, E2 in Hsl.
      by apply (Hz k p r0 Hp ltac:(lia) Hzo Hpa Hr0).
  - apply (IH (S i) ps1); [done|done|]. intros k p r Hp Hk Hzo Hpa Hr Hsl.
    destruct (decide (k = i)) as [->|Hki].
    + rewrite Hq0 in Hp. injection Hp as <-. destruct Haq as (_&_&_&_&E). congruence.
    + destruct (Hi1 r Hr) as (r0 & Hr0 & E1 & E2). rewrite E1, E2 in Hsl.
      by apply (Hz k p r0 Hp ltac:(lia) Hzo Hpa Hr0).
Qed.

(** ** Exit *)

Lemma adopt_nudged cur p p' : adopt cur true p p' → nudged (Some cur) p p'.
Proof.
  intros (E1 & E2 & E3 & E4 & E5). unfold nudged. split_and!; try done.
  destruct E4 as [?|(?&_&?)]; auto.
Qed.

Lemma exit_inv_gen n t c cur p q :
  tcore t → runs t c cur → cur ≠ init → tbl t !! cur = Some p → parent p = Some q → n = NPROC →
  tcore (TSys (alter (set_state ZOMBIE) cur (reparent n 0 cur init (wakeup1 (PChan q) (tbl t)))) (nxt t)
    (<[c := None]> (cpu t))).
Proof.
  intros Ht Hc Hci Hp Hq HN. assert (Hrun : state p = RUNNING) by (apply (ti_run t Ht cur p Hp); eauto).
  set (ps1 := wakeup1 (PChan q) (tbl t)).
  pose proof (wakeup_inv t (PChan q) Ht) as Ht1. fold ps1 in Ht1.
  destruct (reparent_spec n 0 cur ps1 ps1 eq_refl Hci) as [Ha Hz].
  { intros k x x' Hx Hx'. rewrite Hx in Hx'. injection Hx' as <-. apply adopt_refl. }
  { intros; lia. }
  set (ps2 := reparent n 0 cur init ps1) in *.
  assert (Hb : ∀ k x, ps1 !! k = Some x → (k < 0 + n)%nat).
  { intros k x Hx%lookup_lt_Some. pose proof (ti_len _ Ht1) as Hl. cbn in Hl. lia. }
  assert (Ht2 : tcore (TSys ps2 (nxt t) (cpu t))).
  { apply (many_slots (TSys ps1 (nxt t) (cpu t)) (Some cur)); [done|apply reparent_length|..]; cbn [tbl].
    - intros k x x' Hx Hx'. apply adopt_nudged. eauto.
    - intros k x r Hx Hzo Hpa _ Hr. eauto. }
  assert (Hback : ∀ k x', ps2 !! k = Some x' → ∃ x1, ps1 !! k = Some x1 ∧ adopt cur true x1 x').
  { intros k x' Hx'. destruct (lookup_lt_is_Some_2 ps1 k) as [x1 Hx1].
    - unfold ps2 in Hx'. apply lookup_lt_Some in Hx'. by rewrite reparent_length in Hx'.
    - eauto. }
  assert (Hp1 : ps1 !! cur = Some (wake (PChan q) p)) by (unfold ps1; by rewrite wakeup1_lookup, Hp).
  assert (Hp1' : wake (PChan q) p = p) by (unfold wake; rewrite decide_False; [done|rewrite Hrun; intros [? _]; done]).
  rewrite Hp1' in Hp1.
  destruct (lookup_lt_is_Some_2 ps2 cur) as [p2 Hp2]; [unfold ps2; rewrite reparent_length; by eapply lookup_lt_Some|].
  destruct (Hback _ _ Hp2) as (x & Hx & (_ & _ & _ & Hst & Hpa)). rewrite Hp1 in Hx. injection Hx as <-.
  assert (Hrun2 : state p2 = RUNNING) by (destruct Hst as [->|[E _]]; congruence).
  assert (Hnochild : ∀ i r, ps2 !! i = Some r → parent r ≠ Some cur).
  { intros i r Hr. destruct (Hback _ _ Hr) as (r1 & _ & (_ & _ & _ & _ & ->)).
    destruct (decide (parent r1 = Some cur)); congruence. }
  rewrite (alter_insert _ _ _ _ Hp2).
  clearbody ps2. apply (one_slot (TSys ps2 (nxt t) (cpu t)) cur p2); [exact Ht2|exact Hp2|..]; cbn [tbl nxt cpu].
  - by apply (cm_drop (TSys ps2 (nxt t) (cpu t)) cur p2 (set_state ZOMBIE p2) c).
  - by right.
  - by left.
  - done.
  - intros _ _. cbn. rewrite Hpa, Hq. destruct (decide (Some q = Some cur)); congruence.
  - intros _. right. cbn. intros k r Hk Hr [Hs Hch]. rewrite Hpa in Hk.
    pose proof (ti_self t Ht cur p Hp) as Hself. rewrite Hq in Hself, Hk.
    rewrite decide_False in Hk by congruence. injection Hk as ->.
    destruct (Hback _ _ Hr) as (r1 & Hr1 & (_ & Ec & _ & Es & _)).
    unfold ps1 in Hr1. rewrite wakeup1_lookup, fmap_Some in Hr1. destruct Hr1 as (r0 & Hr0 & ->).
    assert (Hs1 : state (wake (PChan k) r0) = SLEEPING) by (destruct Es as [E|(E & _)]; congruence).
    rewrite Hch in Ec. unfold wake in Hs1, Ec. case_decide as Hd; [done|]. by apply Hd.
  - done.
Qed.

Lemma exit_inv t c cur p :
  tcore t → runs t c cur → cur ≠ init → tbl t !! cur = Some p →
  tcore (TSys (exit_table cur (parent p) (Some init) (tbl t)) (nxt t) (<[c := None]> (cpu t))).
Proof.
  intros Ht Hc Hci Hp. assert (Hrun : state p = RUNNING) by (apply (ti_run t Ht cur p Hp); eauto).
  destruct (parent p) as [q|] eqn:Hq; [|exfalso; apply (ti_child t Ht cur p Hp); [left; by rewrite Hrun|done|done]].
  exact (exit_inv_gen NPROC t c cur p q Ht Hc Hci Hp Hq eq_refl).
Qed.

(** ** The other steps *)

Lemma kill_nudged ps k :
  length (kill_table ps k).1 = length ps ∧
  ∀ i p p', ps !! i = Some p → (kill_table ps k).1 !! i = Some p' →
    pid p' = pid p ∧ p_chan p' = p_chan p ∧ parent p' = parent p ∧
    (state p' = state p ∨ (state p = SLEEPING ∧ state p' = RUNNABLE)).
Proof.
  induction ps as [|q ps IH]; cbn [kill_table]; [done|].
  destruct (pid q =? k).
  - split; [done|]. intros [|i] p p' Hp Hp'; cbn in *.
    + injection Hp as <-. injection Hp' as <-. case_decide as Hd; cbn in *; split_and!; auto.
    + rewrite Hp in Hp'. injection Hp' as <-. split_and!; auto.
  - destruct (kill_table ps k) as [ps' r]. cbn [fst] in *. destruct IH as [Hl IH]. split; [cbn; lia|].
    intros [|i] p p' Hp Hp'; cbn in *; [|by eapply IH]. injection Hp as <-. injection Hp' as <-.
    split_and!; auto.
Qed.

Lemma kill_inv t k : tcore t → tcore (TSys (kill_table (tbl t) k).1 (nxt t) (cpu t)).
Proof.
  intros Ht. destruct (kill_nudged (tbl t) k) as [Hl Hk]. apply (many_slots t None); [done|done| |done].
  intros i p p' Hp Hp'. destruct (Hk i p p' Hp Hp') as (? & ? & ? & ?). unfold nudged. auto.
Qed.

Lemma find_unused_Some ps i j :
  find_unused ps i = Some j → ∃ k p, j = (i + k)%nat ∧ ps !! k = Some p ∧ state p = UNUSED.
Proof.
  revert i. induction ps as [|p ps IH]; intros i; cbn [find_unused]; [done|]. case_decide as Hd.
  - intros [= <-]. exists 0%nat, p. auto.
  - intros (k & q & -> & Hq & Hs)%IH. exists (S k), q. split_and!; [lia|done..].
Qed.

Lemma find_zombie_inl ps i cur b j p :
  find_zombie ps i cur b = inl (j, p) → ∃ k, j = (i + k)%nat ∧ ps !! k = Some p ∧ state p = ZOMBIE ∧ parent p = Some cur.
Proof.
  revert i b. induction ps as [|q ps IH]; intros i b; cbn [find_zombie]; [done|].
  case_decide as Hp; [case_decide as Hz|].
  - intros [= <- <-]. exists 0%nat. auto.
  - intros (k & -> & Hk)%IH. exists (S k). split_and!; [lia|apply Hk..].
  - intros (k & -> & Hk)%IH. exists (S k). split_and!; [lia|apply Hk..].
Qed.

Lemma find_zombie_inr ps i cur b b' : find_zombie ps i cur b = inr b' → no_zombie_child ps cur.
Proof.
  revert i b. induction ps as [|q ps IH]; intros i b; cbn [find_zombie].
  { intros _ k p. by rewrite lookup_nil. }
  intros Hf [|k] p Hk Hz Hp; cbn in Hk.
  - injection Hk as ->. rewrite decide_True in Hf by done. by rewrite decide_True in Hf.
  - case_decide; [case_decide; [done|]|]; by eapply (IH _ _ Hf k p).
Qed.

(** What a slot's process needs to look like for a step that keeps its
    parent, pid and exit status. *)
Lemma same_slot t j p p' cpu' :
  tcore t → tbl t !! j = Some p → cpu_move t j p p' cpu' →
  parent p' = parent p → state p ≠ ZOMBIE →
  state p' ≠ UNUSED → state p' ≠ ZOMBIE → (alive (state p) = true → alive (state p') = true) →
  (alive (state p') = true → j ≠ init → parent p ≠ None) →
  (state p' = SLEEPING → p_chan p' = Some (PChan j) →
    (state p = SLEEPING ∧ p_chan p = p_chan p') ∨ no_zombie_child (tbl t) j) →
  tcore (TSys (<[j := p']> (tbl t)) (nxt t) cpu').
Proof.
  intros Ht Hj Hc Hpar Hz Hu' Hz' Hal Hch Hsl.
  apply (one_slot t j p); auto; [done|]. rewrite Hpar. intros [?|?]; [by apply Hch|done].
Qed.

Lemma tstep_core t t' : tstep t t' → tcore t → tcore t'.
Proof.
  intros Hst Ht. destruct Hst as [t c i ps Hc Hs|t j Hj|t j p Hj Hp Hpa|t j f Hf|t c cur j p Hc Hj Hp
    |t j p Hj Hp Hpa|t c cur p Hc Hne Hp|t c cur i p Hc Hz|t c cur Hc Hz|t c cur a Hc|t c cur Hc|t c cur Hc|t a|t k].
  - unfold schedule in Hs. destruct (tbl t !! i) as [p|] eqn:Hi; [|done]. case_decide as Hr; [|done].
    injection Hs as <-. apply (same_slot t i p); cbn; rewrite ?Hr; try done.
    + apply cm_pick; [done|by rewrite Hr|done].
    + intros _. apply (ti_child t Ht i p Hi). left. by rewrite Hr.
  - destruct (find_unused_Some _ _ _ Hj) as (k & p & -> & Hk & Hu). cbn [Nat.add].
    rewrite (alter_insert _ _ _ _ Hk). apply (one_slot t k p); cbn; rewrite ?Hu; try done; auto.
    + apply cm_same. cbn. by rewrite Hu.
    + by intros [?|?].
  - rewrite (alter_insert _ _ _ _ Hj). apply (one_slot t j p); cbn; rewrite ?Hp; try done; auto.
    + apply cm_same. cbn. by rewrite Hp.
    + by intros [?|?].
  - destruct (tbl t !! j) as [p|] eqn:Hj.
    + rewrite (alter_insert _ _ _ _ Hj). destruct (Hf p) as (E1 & E2 & E3 & E4 & E5).
      destruct (decide (state p = UNUSED)) as [Hu|Hu].
      * apply (one_slot t j p); rewrite ?E1, ?E2, ?E3, ?E4, ?Hu; try done; auto.
        -- apply cm_same. by rewrite E1.
        -- intros _. by apply (ti_unused t Ht j).
        -- by intros [?|?].
      * apply (one_slot t j p); rewrite ?E1, ?E2, ?E3, ?E4; try done; auto.
        -- apply cm_same. by rewrite E1.
        -- by apply (ti_child t Ht).
    + rewrite alter_none by done. by destruct t.
  - assert (Hrc : ∃ r, tbl t !! cur = Some r ∧ state r = RUNNING).
    { destruct (ti_slot t Ht c cur Hc) as [r Hr]. exists r. split; [done|]. apply (ti_run t Ht cur r Hr). eauto. }
    destruct Hrc as (r & Hr & Hrs). rewrite (alter_insert _ _ _ _ Hj).
    apply (one_slot t j p); cbn; rewrite ?Hp; try done; auto.
    + apply cm_same. done.
    + right; right. exists cur, r. split_and!; [done|congruence| |done|by rewrite Hrs].
      intros ->. destruct (ti_init t Ht) as (x & Hx & Ha). rewrite Hj in Hx. injection Hx as <-. by rewrite Hp in Ha.
  - rewrite (alter_insert _ _ _ _ Hj). apply (same_slot t j p); cbn; rewrite ?Hp; try done.
    apply cm_same. cbn. by rewrite Hp.
  - by apply (exit_inv t c cur p).
  - destruct (find_zombie_inl _ _ _ _ _ _ Hz) as (k & -> & Hk & Hs & Hp). cbn [Nat.add].
    rewrite (alter_insert _ _ _ _ Hk). apply (one_slot t k p); cbn; rewrite ?Hs; try done; auto.
    + apply cm_same. cbn. by rewrite Hs.
    + by intros [?|?].
  - destruct (ti_slot t Ht c cur Hc) as [p Hp]. assert (Hr : state p = RUNNING) by (apply (ti_run t Ht cur p Hp); eauto).
    rewrite (alter_insert _ _ _ _ Hp). apply (same_slot t cur p); cbn; rewrite ?Hr; try done.
    + by apply cm_drop.
    + intros _. apply (ti_child t Ht cur p Hp). left. by rewrite Hr.
    + intros _ _. right. by eapply find_zombie_inr.
  - destruct (ti_slot t Ht c cur Hc) as [p Hp]. assert (Hr : state p = RUNNING) by (apply (ti_run t Ht cur p Hp); eauto).
    rewrite (alter_insert _ _ _ _ Hp). apply (same_slot t cur p); cbn; rewrite ?Hr; try done.
    + by apply cm_drop.
    + intros _. apply (ti_child t Ht cur p Hp). left. by rewrite Hr.
  - destruct (ti_slot t Ht c cur Hc) as [p Hp]. assert (Hr : state p = RUNNING) by (apply (ti_run t Ht cur p Hp); eauto).
    rewrite (alter_insert _ _ _ _ Hp). apply (same_slot t cur p); cbn; rewrite ?Hr; try done.
    + by apply cm_same.
    + intros _. apply (ti_child t Ht cur p Hp). left. by rewrite Hr.
  - destruct (ti_slot t Ht c cur Hc) as [p Hp]. assert (Hr : state p = RUNNING) by (apply (ti_run t Ht cur p Hp); eauto).
    rewrite (alter_insert _ _ _ _ Hp). apply (same_slot t cur p); cbn; rewrite ?Hr; try done.
    + by apply cm_drop.
    + intros _. apply (ti_child t Ht cur p Hp). left. by rewrite Hr.
  - by apply wakeup_inv.
  - by apply kill_inv.
Qed.

(** *** Pids *)

(** Every used slot of [ps'] was used in [ps], with the same pid. *)
Definition same_pids (ps ps' : list proc) : Prop :=
  ∀ i p', ps' !! i = Some p' → state p' ≠ UNUSED → ∃ p, ps !! i = Some p ∧ state p ≠ UNUSED ∧ pid p' = pid p.

Lemma same_pids_alter f j ps :
  (∀ p, ps !! j = Some p → state (f p) ≠ UNUSED → state p ≠ UNUSED ∧ pid (f p) = pid p) → same_pids ps (alter f j ps).
Proof.
  intros Hf i p' [(-> & p & Hp & ->)|[_ Hp]]%lookup_alter_Some Hu; [|by eauto].
  exists p. destruct (Hf p Hp Hu). auto.
Qed.

(** The same, and no used slot was freed. *)
Definition same_used (ps ps' : list proc) : Prop :=
  ∀ i p', ps' !! i = Some p' → ∃ p, ps !! i = Some p ∧ (state p' = UNUSED ↔ state p = UNUSED) ∧ pid p' = pid p.

Lemma same_used_refl ps : same_used ps ps.
Proof. intros i p Hp. eauto. Qed.

Lemma same_used_trans ps1 ps2 ps3 : same_used ps1 ps2 → same_used ps2 ps3 → same_used ps1 ps3.
Proof.
  intros H1 H2 i p Hp. destruct (H2 i p Hp) as (q & Hq & Hqu & ->). destruct (H1 i q Hq) as (r & ? & ? & ?). exists r. tauto.
Qed.

Lemma same_used_pids ps ps' : same_used ps ps' → same_pids ps ps'.
Proof. intros Hs i p' Hp' Hu. destruct (Hs i p' Hp') as (p & Hp & E & ?). exists p. tauto. Qed.

Lemma same_used_wakeup c ps : same_used ps (wakeup1 c ps).
Proof.
  intros i p'. rewrite wakeup1_lookup. intros (p & Hp & ->)%fmap_Some. exists p.
  pose proof (wake_nudged c p) as Hn. split_and!; [done|by eapply nudged_unused|apply Hn].
Qed.

Lemma same_used_reparent n i cur ini ps : same_used ps (reparent n i cur ini ps).
Proof.
  revert i ps. induction n as [|n IH]; intros i ps; cbn [reparent]; [apply same_used_refl|].
  destruct (ps !! i) as [p|] eqn:Hp; [|apply same_used_refl]. eapply same_used_trans; [|apply IH].
  case_decide; [|apply same_used_refl].
  assert (Hi : same_used ps (<[i := set_parent (Some ini) p]> ps)).
  { intros k q [[-> ->]|[_ Hq]]%(insert_Some _ _ _ _ _ _ Hp); eauto. }
  case_decide; [|exact Hi]. eapply same_used_trans; [exact Hi|apply same_used_wakeup].
Qed.

Lemma same_used_kill ps k : same_used ps (kill_table ps k).1.
Proof.
  intros i p' Hp'. destruct (kill_nudged ps k) as [Hl Hk].
  destruct (lookup_lt_is_Some_2 ps i) as [p Hp]; [rewrite <- Hl; by eapply lookup_lt_Some|].
  destruct (Hk i p p' Hp Hp') as (Epid & _ & _ & Hst). exists p. split_and!; [done| |done].
  destruct Hst as [->|[-> ->]]; done.
Qed.

Lemma same_pids_exit cur p q ini ps :
  ps !! cur = Some p → state p ≠ UNUSED → same_pids ps (exit_table cur (Some q) (Some ini) ps).
Proof.
  intros Hp Hu i x. unfold exit_table. set (ps2 := reparent _ _ _ _ _).
  assert (H2 : same_used ps ps2) by (eapply same_used_trans; [apply same_used_wakeup|apply same_used_reparent]).
  intros [(-> & y & Hy & ->)|[_ Hx]]%lookup_alter_Some Hxu; [|by eapply same_used_pids].
  destruct (H2 _ _ Hy) as (p0 & Hp0 & _ & E). rewrite Hp in Hp0. injection Hp0 as <-. eauto.
Qed.

Lemma tpids_same t ps' c' : tpids t → same_pids (tbl t) ps' → tpids (TSys ps' (nxt t) c').
Proof.
  intros [Hp Hn Hu] Hs. split; cbn [tbl nxt]; [|done|].
  - intros i p' Hp' Hu'. destruct (Hs i p' Hp' Hu') as (p & Hi & Hpu & ->). eauto.
  - intros i j p' q' Hi Hj Hpu Hqu. destruct (Hs _ _ Hi Hpu) as (p & ? & ? & ->).
    destruct (Hs _ _ Hj Hqu) as (q & ? & ? & ->). eauto.
Qed.

(** [nextpid++] either wraps to a negative number or adds one. *)
Lemma i32_succ n : 0 < n → n <= i32 (n + 1) → i32 (n + 1) = n + 1.
Proof. unfold i32. intros. Z.to_euclidean_division_equations. lia. Qed.

Lemma tpids_alloc t k p ps' :
  tpids t → nxt t <= i32 (nxt t + 1) → tbl t !! k = Some p →
  ps' = alter (λ p, set_pid (nxt t) (set_state EMBRYO p)) k (tbl t) →
  tpids (TSys ps' (i32 (nxt t + 1)) (cpu t)).
Proof.
  intros [Hp Hn Hu] Hw Hk ->. rewrite i32_succ by done. split; cbn [tbl nxt]; [|lia|].
  - intros i q [(-> & x & _ & ->)|[_ Hq]]%lookup_alter_Some Hqu; cbn; [lia|].
    pose proof (Hp i q Hq Hqu). lia.
  - intros i j q r Hi Hj Hqu Hru E. apply lookup_alter_Some in Hi, Hj.
    destruct Hi as [(-> & x & _ & ->)|[_ Hq]], Hj as [(-> & y & _ & ->)|[_ Hr]]; cbn in E; [done|..|by eauto].
    + pose proof (Hp j r Hr Hru). lia.
    + pose proof (Hp i q Hq Hqu). lia.
Qed.

Lemma runs_used t c cur p : tcore t → runs t c cur → tbl t !! cur = Some p → state p ≠ UNUSED.
Proof. intros Ht Hc Hp. rewrite (proj2 (ti_run t Ht cur p Hp)); [done|eauto]. Qed.

Lemma tstep_pids t t' : tstep t t' → nxt t <= nxt t' → tcore t → tpids t → tpids t'.
Proof.
  intros Hst Hw Ht Hpids. destruct Hst as [t c i ps Hc Hs|t j Hj|t j p Hj Hp Hpa|t j f Hf|t c cur j p Hc Hj Hp
    |t j p Hj Hp Hpa|t c cur p Hc Hne Hp|t c cur i p Hc Hz|t c cur Hc Hz|t c cur a Hc|t c cur Hc|t c cur Hc|t a|t k];
    cbn [nxt] in Hw.
  2:{ destruct (find_unused_Some _ _ _ Hj) as (k & p & -> & Hk & Hu). by eapply tpids_alloc. }
  all: apply tpids_same; [exact Hpids|].
  - unfold schedule in Hs. destruct (tbl t !! i) as [p|] eqn:Hi; [|done]. case_decide as Hr; [|done].
    injection Hs as <-. rewrite <- (alter_insert (set_state RUNNING) _ _ _ Hi). apply same_pids_alter.
    intros q Hq _. rewrite Hi in Hq. injection Hq as <-. by rewrite Hr.
  - by apply same_pids_alter.
  - apply same_pids_alter. intros p _. destruct (Hf p) as (-> & -> & _). done.
  - by apply same_pids_alter.
  - apply same_pids_alter. intros q Hq _. rewrite Hj in Hq. injection Hq as <-. by rewrite Hp.
  - destruct (parent p) as [q|] eqn:Hq; [by apply (same_pids_exit cur p); [|eapply runs_used]|].
    exfalso. apply (ti_child t Ht cur p Hp); [left|done|done].
    by rewrite (proj2 (ti_run t Ht cur p Hp)) by eauto.
  - by apply same_pids_alter.
  - apply same_pids_alter. intros p Hp _. split; [by eapply runs_used|done].
  - apply same_pids_alter. intros p Hp _. split; [by eapply runs_used|done].
  - by apply same_pids_alter.
  - apply same_pids_alter. intros p Hp _. split; [by eapply runs_used|done].
  - apply same_used_pids, same_used_wakeup.
  - apply same_used_pids, same_used_kill.
Qed.

Lemma tsteps_core t t' : rtc tstep t t' → tcore t → tcore t'.
Proof. induction 1; eauto using tstep_core. Qed.

(** A step in which [nextpid] does not wrap around. *)
Definition tfresh (t t' : tsys) : Prop := tstep t t' ∧ nxt t <= nxt t'.

Lemma tfresh_once t t' : tstep t t' → nxt t <= nxt t' → rtc tfresh t t'.
Proof. intros. by apply rtc_once. Qed.

Lemma tfresh_tsteps t t' : rtc tfresh t t' → rtc tstep t t'.
Proof. apply rtc_subrel. by intros x y [? _]. Qed.

Lemma tfresh_inv t t' : rtc tfresh t t' → tinv t → tinv t'.
Proof.
  induction 1 as [|t t1 t' [Hst Hw] _ IH]; [done|]. intros [Hc Hp]. apply IH.
  split; [by eapply tstep_core|by eapply tstep_pids].
Qed.
End steps.

(** ** The operations of proc.c make these steps *)

Section refine.
Context (end_ data_ : Z) (gpu : gpu_info) (forkret_addr trapret_addr initcode initcode_size : Z).
Context {F : Type} `{FileLayer F} (init : nat).
Implicit Types s : kstate F.

Abbreviation steps := (rtc (tfresh init)).

Definition tview s (c : list (option nat)) : tsys := TSys (ptable s) (nextpid s) c.

(** Slot [i] is being set up by [fork], its parent is [par]. *)
Definition building (i : nat) (par : option nat) s : Prop :=
  ∃ p, ptable s !! i = Some p ∧ state p = EMBRYO ∧ parent p = par.

(** [m] only prepares the slot being built. *)
Definition prepares {A} (i : nat) (par : option nat) (m : M (kstate F) A) : Prop :=
  ∀ s a s' c, m s = Ret a s' → building i par s → steps (tview s c) (tview s' c) ∧ building i par s'.

(** [m] returns nothing but [v]. *)
Definition returns {A} (m : M (kstate F) A) (v : A) : Prop := ∀ s a s', m s = Ret a s' → a = v.

Lemma returns_ret {A} (v : A) : returns (mret v) v.
Proof. by intros s a s' [= <- _]. Qed.

Lemma returns_bind {A B} (m : M (kstate F) A) (f : A → M (kstate F) B) v :
  (∀ a, returns (f a) v) → returns (m ≫= f) v.
Proof. intros Hf s b s'. unfold mbind, M_bind. destruct (m s); [|done..]. apply Hf. Qed.

Lemma prep_ret {A} i par (a : A) : prepares i par (mret a).
Proof. intros s b s' c [= <- <-] Hb. split; [apply rtc_refl|done]. Qed.

Lemma prep_bind {A B} i par (m : M (kstate F) A) (f : A → M (kstate F) B) :
  prepares i par m → (∀ a, prepares i par (f a)) → prepares i par (m ≫= f).
Proof.
  intros Hm Hf s b s' c. unfold mbind, M_bind. destruct (m s) as [a t| | | |] eqn:E; [|done..].
  intros Ht Hb. destruct (Hm _ _ _ c E Hb) as [H1 Hb1]. destruct (Hf a _ _ _ c Ht Hb1) as [H2 Hb2].
  split; [by etrans|done].
Qed.

Lemma prep_liftk {A} i par (m : M kmem A) : prepares i par (liftk m).
Proof.
  intros s a s' c. unfold liftk. destruct (m (km s)); [|done..]. intros [= <- <-] Hb.
  split; [apply rtc_refl|exact Hb].
Qed.

Lemma prep_liftf {A} i par (m : M F A) : prepares i par (liftf m).
Proof.
  intros s a s' c. unfold liftf. destruct (m (files s)); [|done..]. intros [= <- <-] Hb.
  split; [apply rtc_refl|exact Hb].
Qed.

Lemma prep_getproc i par k : prepares i par (getproc k).
Proof.
  intros s a s' c. unfold getproc. destruct (ptable s !! k); [|done]. intros [= <- <-] Hb.
  split; [apply rtc_refl|exact Hb].
Qed.

Lemma prep_gets {A} i par (f : kstate F → A) : prepares i par (gets f).
Proof. intros s a s' c [= <- <-] Hb. split; [apply rtc_refl|exact Hb]. Qed.

Lemma prep_fault {A} i par : prepares i par (fault : M (kstate F) A).
Proof. by intros s a s' c. Qed.

Lemma prep_setproc i par k f : (∀ p, same_core p (f p)) → prepares i par (setproc k f).
Proof.
  intros Hf s a s' c [= <- <-] (p & Hp & Hs & Hpa). split.
  - apply tfresh_once; [by apply (t_setup init (tview s c) k f)|cbn; lia].
  - unfold building. cbn [ptable]. destruct (decide (k = i)) as [->|Hne].
    + exists (f p). rewrite list_lookup_alter_eq, Hp. destruct (Hf p) as (E1 & _ & E3 & _).
      split_and!; [done|congruence|congruence].
    + exists p. by rewrite list_lookup_alter_ne.
Qed.

Lemma prep_for i par n k (body : nat → M (kstate F) unit) :
  (∀ j, prepares i par (body j)) → prepares i par (for_ n k body).
Proof.
  intros Hb. revert k. induction n as [|n IH]; intros k; cbn [for_]; [apply prep_ret|]. by apply prep_bind.
Qed.

Ltac prep :=
  repeat first
    [ apply prep_bind; [|intros] | apply prep_ret | apply prep_liftk | apply prep_liftf | apply prep_getproc
    | apply prep_gets | apply prep_fault | apply prep_for; intros
    | apply prep_setproc; intros; unfold same_core; split_and!; reflexivity
    | match goal with |- prepares _ _ (match ?x with _ => _ end) => destruct x end ].

Lemma prep_dup_files i par cur : prepares i par (dup_files cur i).
Proof. unfold dup_files. prep. Qed.

(** The rest of [allocproc] once the slot is claimed. *)
Lemma allocproc_steps s r s' c :
  tinv init (tview s c) → nextpid s < 2147483647 → allocproc forkret_addr trapret_addr s = Ret r s' →
  steps (tview s c) (tview s' c) ∧
  match r with Some i => building i None s' | None => True end.
Proof.
  intros Ht Hnp Hrun. unfold allocproc in Hrun. apply bind_inv in Hrun as (ps & s0 & [= <- <-] & Hrun).
  destruct (find_unused (ptable s) 0) as [i|] eqn:Hi.
  2:{ injection Hrun as <- <-. split; [apply rtc_refl|done]. }
  destruct (find_unused_Some _ _ _ Hi) as (k & p & Hk & Hp & Hu). cbn [Nat.add] in Hk. subst k.
  pose proof (ti_nxt _ (ti_pids _ _ Ht)) as Hn0. cbn in Hn0.
  apply bind_inv in Hrun as (n & s0 & [= <- <-] & Hrun). apply bind_inv in Hrun as (u & s0 & [= <- <-] & Hrun).
  apply bind_inv in Hrun as (u & s0 & [= <- <-] & Hrun).
  cbn [ptable nextpid initproc km files] in Hrun. rewrite i32_id in Hrun by lia.
  set (s1 := KState (alter _ i (ptable s)) (nextpid s + 1) (initproc s) (km s) (files s)) in Hrun.
  assert (H1 : steps (tview s c) (tview s1 c)).
  { pose proof (t_alloc init (tview s c) i Hi) as Hst. cbn [nxt tview] in Hst. rewrite i32_id in Hst by lia.
    apply tfresh_once; [exact Hst|cbn; lia]. }
  assert (Hb1 : building i None s1).
  { exists (set_pid (nextpid s) (set_state EMBRYO p)). split_and!; [|done|].
    - cbn [ptable s1]. by rewrite list_lookup_alter_eq, Hp.
    - by apply (ti_unused _ _ (ti_core _ _ Ht) i p). }
  apply bind_inv in Hrun as (k & s2 & Hk & Hrun).
  destruct (prep_liftk i None kalloc s1 k s2 c Hk Hb1) as [H2 Hb2].
  apply bind_inv in Hrun as (u & s3 & Hs3 & Hrun).
  destruct (prep_setproc i None i (set_kstack k) ltac:(by intros; unfold same_core) _ _ _ c Hs3 Hb2) as [H3 Hb3].
  assert (H13 : steps (tview s c) (tview s3 c)) by (etrans; [exact H1|]; by etrans).
  destruct (k =? 0).
  - destruct Hb3 as (q & Hq & Hqs & Hqp). apply bind_inv in Hrun as (v & s4 & [= <- <-] & Hrun).
    injection Hrun as <- <-. split; [|done]. etrans; [exact H13|]. apply tfresh_once; [by apply (t_free init (tview s3 c) i q)|cbn; lia].
  - match type of Hrun with ?m s3 = _ => assert (Hpm : prepares i None m) by prep;
      assert (Hret : returns m (Some i)) end.
    { repeat (apply returns_bind; intros). apply returns_ret. }
    rewrite (Hret _ _ _ Hrun). destruct (Hpm _ _ _ c Hrun Hb3) as [H4 Hb4]. split; [by etrans|done].
Qed.

Lemma prep_cwd i par (o : option nat) :
  prepares i par (match o with Some ip => c ← liftf (idup ip); mret (Some c) | None => fault end).
Proof. prep. Qed.

Lemma fork_steps s r s' c k cur :
  tinv init (tview s c) → nextpid s < 2147483647 → c !! k = Some (Some cur) →
  fork end_ data_ gpu forkret_addr trapret_addr cur s = Ret r s' → steps (tview s c) (tview s' c).
Proof.
  intros Ht Hnp Hc Hrun. unfold fork in Hrun. apply bind_inv in Hrun as (o & s1 & Ha & Hrun).
  destruct (allocproc_steps _ _ _ c Ht Hnp Ha) as [H1 Hb1].
  destruct o as [i|]; [|by injection Hrun as <- <-].
  apply bind_inv in Hrun as (p & s2 & E & Hrun).
  destruct (prep_getproc i None cur _ _ _ c E Hb1) as [H2 Hb2]. clear E.
  apply bind_inv in Hrun as (d & s3 & E & Hrun). destruct (prep_liftk i None _ _ _ _ c E Hb2) as [H3 Hb3]. clear E.
  apply bind_inv in Hrun as (u & s4 & E & Hrun).
  destruct (prep_setproc i None i (set_pgdir d) ltac:(by intros; unfold same_core) _ _ _ c E Hb3) as [H4 Hb4]. clear E.
  apply bind_inv in Hrun as (np & s5 & E & Hrun). destruct (prep_getproc i None i _ _ _ c E Hb4) as [H5 Hb5]. clear E.
  assert (H15 : steps (tview s c) (tview s5 c)) by (do 4 (etrans; [eassumption|]); done).
  clear H1 H2 H3 H4 H5 Hb1 Hb2 Hb3 Hb4. destruct (d =? 0).
  - apply bind_inv in Hrun as (u1 & s6 & E & Hrun). destruct (prep_liftk i None _ _ _ _ c E Hb5) as [H6 Hb6].
    apply bind_inv in Hrun as (u2 & s7 & E7 & Hrun).
    destruct (prep_setproc i None i (set_kstack 0) ltac:(by intros; unfold same_core) _ _ _ c E7 Hb6) as [H7 Hb7].
    destruct Hb7 as (q & Hq & Hqs & Hqp). apply bind_inv in Hrun as (u3 & s8 & [= <- <-] & Hrun).
    injection Hrun as <- <-. do 3 (etrans; [eassumption|]). apply tfresh_once; [by apply (t_free init (tview s7 c) i q)|cbn; lia].
  - apply bind_inv in Hrun as (u1 & s6 & E & Hrun).
    destruct (prep_setproc i None i (set_sz (sz p)) ltac:(by intros; unfold same_core) _ _ _ c E Hb5) as [H6 Hb6].
    apply bind_inv in Hrun as (u2 & s7 & [= <- <-] & Hrun). destruct Hb6 as (q & Hq & Hqs & Hqp).
    set (s7 := KState (alter (set_parent (Some cur)) i (ptable s6)) _ _ _ _) in *.
    assert (H7 : steps (tview s6 c) (tview s7 c)).
    { apply tfresh_once; [by apply (t_parent init (tview s6 c) k cur i q)|cbn; lia]. }
    assert (Hb7 : building i (Some cur) s7).
    { exists (set_parent (Some cur) q). split_and!; [|done|done]. cbn [ptable s7]. by rewrite list_lookup_alter_eq, Hq. }
    apply bind_inv in Hrun as (a8 & s8 & E8 & Hrun). destruct (prep_liftk i (Some cur) _ _ _ _ c E8 Hb7) as [H8 Hb8].
    apply bind_inv in Hrun as (a9 & s9 & E9 & Hrun). destruct (prep_liftk i (Some cur) _ _ _ _ c E9 Hb8) as [H9 Hb9].
    apply bind_inv in Hrun as (a10 & s10 & E10 & Hrun).
    destruct (prep_dup_files i (Some cur) cur _ _ _ c E10 Hb9) as [H10 Hb10].
    apply bind_inv in Hrun as (a11 & s11 & E11 & Hrun).
    destruct (prep_cwd i (Some cur) _ _ _ _ c E11 Hb10) as [H11 Hb11].
    apply bind_inv in Hrun as (a12 & s12 & E12 & Hrun).
    destruct (prep_setproc i (Some cur) i (set_cwd a11) ltac:(by intros; unfold same_core) _ _ _ c E12 Hb11) as [H12 Hb12].
    apply bind_inv in Hrun as (a13 & s13 & E13 & Hrun).
    destruct (prep_setproc i (Some cur) i (set_name (take 15 (name p))) ltac:(by intros; unfold same_core) _ _ _ c E13 Hb12) as [H13 Hb13].
    destruct Hb13 as (q8 & Hq8 & Hs8 & Hp8). apply bind_inv in Hrun as (u3 & s14 & [= <- <-] & Hrun).
    injection Hrun as <- <-. do 9 (etrans; [eassumption|]). apply tfresh_once; [|cbn; lia].
    apply (t_ready init (tview s13 c) i q8); [done|done|congruence].
Qed.

(** [m] leaves the fields the table operations look at alone. *)
Definition quiet {A} (m : M (kstate F) A) : Prop :=
  ∀ s a s' c, m s = Ret a s' → steps (tview s c) (tview s' c) ∧ initproc s' = initproc s.

Lemma quiet_ret {A} (a : A) : quiet (mret a).
Proof. intros s b s' c [= <- <-]. split; [apply rtc_refl|done]. Qed.

Lemma quiet_fault {A} : quiet (fault : M (kstate F) A).
Proof. by intros s a s' c. Qed.

Lemma quiet_bind {A B} (m : M (kstate F) A) (f : A → M (kstate F) B) :
  quiet m → (∀ a, quiet (f a)) → quiet (m ≫= f).
Proof.
  intros Hm Hf s b s' c Hrun. apply bind_inv in Hrun as (a & t & E & Hrun).
  destruct (Hm _ _ _ c E) as [H1 I1]. destruct (Hf a _ _ _ c Hrun) as [H2 I2].
  split; [by etrans|by rewrite I2].
Qed.

Lemma quiet_liftf {A} (m : M F A) : quiet (liftf m).
Proof.
  intros s a s' c. unfold liftf. destruct (m (files s)); [|done..]. intros [= <- <-]. split; [apply rtc_refl|done].
Qed.

Lemma quiet_getproc k : quiet (getproc k).
Proof.
  intros s a s' c. unfold getproc. destruct (ptable s !! k); [|done]. intros [= <- <-].
  split; [apply rtc_refl|done].
Qed.

Lemma quiet_setproc k f : (∀ p, same_core p (f p)) → quiet (setproc k f).
Proof.
  intros Hf s a s' c [= <- <-]. split; [|done]. apply tfresh_once; [by apply (t_setup init (tview s c) k f)|cbn; lia].
Qed.

Lemma quiet_for n k (body : nat → M (kstate F) unit) : (∀ j, quiet (body j)) → quiet (for_ n k body).
Proof.
  intros Hb. revert k. induction n as [|n IH]; intros k; cbn [for_]; [apply quiet_ret|]. by apply quiet_bind.
Qed.

Ltac quiet_tac :=
  repeat first
    [ apply quiet_bind; [|intros] | apply quiet_ret | apply quiet_fault | apply quiet_liftf | apply quiet_getproc
    | apply quiet_for; intros
    | apply quiet_setproc; intros; unfold same_core; split_and!; reflexivity
    | match goal with |- quiet (match ?x with _ => _ end) => destruct x end ].

Lemma exit_steps s r s' c k cur :
  initproc s = Some init → c !! k = Some (Some cur) → exit cur s = Ret r s' →
  steps (tview s c) (tview s' (<[k := None]> c)).
Proof.
  intros Hi Hc Hrun. unfold exit in Hrun. apply bind_inv in Hrun as (ini & s0 & [= <- <-] & Hrun).
  destruct (decide (initproc s = Some cur)) as [|Hne]; [done|].
  apply bind_inv in Hrun as (u1 & s1 & E1 & Hrun). destruct ((ltac:(unfold close_files; quiet_tac) : quiet (close_files cur)) _ _ _ c E1) as [H1 I1].
  apply bind_inv in Hrun as (p & s2 & E2 & Hrun). destruct (quiet_getproc _ _ _ _ c E2) as [H2 I2].
  apply bind_inv in Hrun as (u3 & s3 & E3 & Hrun).
  destruct ((ltac:(quiet_tac) : quiet (match cwd p with Some ip => liftf (iput_op ip) | None => fault end)) _ _ _ c E3) as [H3 I3].
  apply bind_inv in Hrun as (u4 & s4 & E4 & Hrun).
  destruct (quiet_setproc cur (set_cwd None) ltac:(by intros; unfold same_core) _ _ _ c E4) as [H4 I4].
  apply bind_inv in Hrun as (q & s5 & E5 & Hrun). unfold getproc in E5.
  destruct (ptable s4 !! cur) as [q'|] eqn:Hq; [|done]. injection E5 as -> <-.
  apply bind_inv in Hrun as (ini & s6 & [= <- <-] & Hrun). injection Hrun as <- <-.
  do 4 (etrans; [eassumption|]). apply tfresh_once; [|cbn; lia].
  rewrite I4, I3, I2, I1, Hi. apply (t_exit init (tview s4 c) k cur q); [done| |done]. congruence.
Qed.

Lemma alter_commute (f g f' g' : proc → proc) i (l : list proc) :
  (∀ p, g (f p) = f' (g' p)) → alter g i (alter f i l) = alter f' i (alter g' i l).
Proof.
  intros E. destruct (l !! i) as [p|] eqn:Hp; [|by rewrite !alter_none by by rewrite ?alter_none].
  pose proof (lookup_lt_Some _ _ _ Hp) as Hlt.
  rewrite (alter_insert f _ _ _ Hp), (alter_insert g' _ _ _ Hp).
  rewrite !(alter_insert _ (<[i:=_]> _) i _ (list_lookup_insert_eq _ _ _ Hlt)).
  by rewrite !list_insert_insert_eq, E.
Qed.

Lemma liftk_table {A} (m : M kmem A) s a s' c : liftk m s = Ret a s' → tview s' c = tview s c.
Proof. unfold liftk. destruct (m (km s)); [|done..]. by intros [= <- <-]. Qed.

(** The CPUs after a round of [wait]. *)
Definition after_wait (r : wait_result) (k : nat) (c : list (option nat)) : list (option nat) :=
  match r with WaitSleep => <[k := None]> c | _ => c end.

Lemma wait_steps s r s' c k cur :
  c !! k = Some (Some cur) → wait end_ cur s = Ret r s' → steps (tview s c) (tview s' (after_wait r k c)).
Proof.
  intros Hc Hrun. unfold wait in Hrun. apply bind_inv in Hrun as (ps & s0 & [= <- <-] & Hrun).
  destruct (find_zombie (ptable s) 0 cur false) as [[i p]|kids] eqn:Hz.
  - apply bind_inv in Hrun as (u1 & s1 & E1 & Hrun). apply bind_inv in Hrun as (u2 & s2 & [= <- <-] & Hrun).
    apply bind_inv in Hrun as (u3 & s3 & E3 & Hrun). apply bind_inv in Hrun as (u4 & s4 & [= <- <-] & Hrun).
    injection Hrun as <- <-. cbn [after_wait]. apply liftk_table with (c := c) in E1. apply liftk_table with (c := c) in E3.
    injection E3 as Ep3 En3. injection E1 as Ep1 En1. unfold tview. cbn [ptable nextpid].
    rewrite Ep3, En3, Ep1, En1.
    rewrite (alter_commute _ _ (set_kstack 0)
      (λ q, set_state UNUSED (set_killed 0 (set_name [] (set_parent None (set_pid 0 q)))))) by done.
    etrans; [apply tfresh_once; [by apply (t_reap init (tview s c) k cur i p)|cbn; lia]|].
    apply tfresh_once; [by apply (t_setup init (TSys _ _ _) i (set_kstack 0))|cbn; lia].
  - apply bind_inv in Hrun as (p & s1 & E & Hrun). unfold getproc in E.
    destruct (ptable s !! cur) as [p'|] eqn:Hp; [|done]. injection E as -> <-.
    destruct (negb kids || negb (killed p =? 0)) eqn:Hb.
    { injection Hrun as <- <-. apply rtc_refl. }
    apply bind_inv in Hrun as (u & s2 & [= <- <-] & Hrun). injection Hrun as <- <-.
    apply tfresh_once; [|cbn; lia]. apply (t_wait_sleep init (tview s c) k cur); [done|].
    destruct kids; [done|discriminate Hb].
Qed.

(** The operations a running process [cur] can call, and what becomes of the
    CPU it runs on. *)
Inductive kop := KFork | KExit | KWait | KSleep (a : Z) | KSleepReturn | KYield | KWakeup (a : Z) | KKill (pid : Z).

Definition run_kop (o : kop) (cur : nat) : M (kstate F) bool :=
  match o with
  | KFork => fork end_ data_ gpu forkret_addr trapret_addr cur ;; mret true
  | KExit => exit cur ;; mret false
  | KWait => r ← wait end_ cur; mret (match r with WaitSleep => false | _ => true end)
  | KSleep a => sleep cur (AChan a) ;; mret false
  | KSleepReturn => sleep_return cur ;; mret true
  | KYield => yield cur ;; mret false
  | KWakeup a => wakeup (AChan a) ;; mret true
  | KKill k => kill k ;; mret true
  end.

(** CPU [k] goes back to the scheduler unless [keep]. *)
Definition release_cpu (keep : bool) (k : nat) (c : list (option nat)) : list (option nat) :=
  if keep then c else <[k := None]> c.

Lemma kop_steps o s keep s' c k cur :
  tinv init (tview s c) → nextpid s < 2147483647 → initproc s = Some init → c !! k = Some (Some cur) →
  run_kop o cur s = Ret keep s' → steps (tview s c) (tview s' (release_cpu keep k c)).
Proof.
  intros Ht Hn Hi Hc Hrun. destruct o as [| | |a| | |a|j]; cbn [run_kop] in Hrun;
    apply bind_inv in Hrun as (r & s1 & E & Hrun); injection Hrun as <- <-; cbn [release_cpu].
  - by eapply fork_steps.
  - by eapply exit_steps.
  - pose proof (wait_steps _ _ _ c k cur Hc E) as Hw. by destruct r.
  - injection E as <- <-. apply tfresh_once; [by apply (t_sleep init (tview s c) k cur a)|cbn; lia].
  - injection E as <- <-. apply tfresh_once; [by apply (t_tidy init (tview s c) k cur)|cbn; lia].
  - injection E as <- <-. apply tfresh_once; [by apply (t_yield init (tview s c) k cur)|cbn; lia].
  - injection E as <- <-. apply tfresh_once; [by apply (t_wakeup init (tview s c) a)|cbn; lia].
  - unfold kill in E. apply bind_inv in E as (ps & s2 & [= <- <-] & E).
    destruct (kill_table (ptable s) j) as [ps' r'] eqn:Hk. apply bind_inv in E as (u & s3 & [= <- <-] & E).
    injection E as <- <-. apply tfresh_once; [|cbn; lia].
    replace ps' with (kill_table (ptable s) j).1 by (by rewrite Hk). by apply (t_kill init (tview s c) j).
Qed.
End refine.

(** ** The claims *)

(** The table [userinit] leaves: init is ready in slot 0, every other slot
    is free. *)
Definition boot_table : list proc :=
  set_state RUNNABLE (set_pid 1 proc0) :: replicate 63 proc0.

Definition boot (ncpu : nat) : tsys := TSys boot_table 2 (replicate ncpu None).

Lemma boot_lookup i p :
  boot_table !! i = Some p → (i = 0%nat ∧ p = set_state RUNNABLE (set_pid 1 proc0)) ∨ (i ≠ 0%nat ∧ p = proc0).
Proof.
  unfold boot_table. destruct i as [|i]; cbn [lookup list_lookup]; [intros [= <-]; by left|].
  intros [-> _]%lookup_replicate_1. right. split; [lia|done].
Qed.

Lemma boot_runs n c i : ¬ runs (boot n) c i.
Proof. unfold runs. cbn. intros [? _]%lookup_replicate_1. done. Qed.

Lemma boot_inv n : tinv 0 (boot n).
Proof.
  split; split; cbn [tbl nxt cpu boot].
  - reflexivity.
  - intros i p Hp. destruct (boot_lookup i p Hp) as [[_ ->]|[_ ->]]; cbn; split; try done;
      intros [c Hc]; by apply boot_runs in Hc.
  - intros c d i Hc. by apply boot_runs in Hc.
  - intros c i Hc. by apply boot_runs in Hc.
  - intros i p q Hp Hpa. by destruct (boot_lookup i p Hp) as [[_ ->]|[_ ->]].
  - intros i p Hp Hpa. by destruct (boot_lookup i p Hp) as [[_ ->]|[_ ->]].
  - intros r [= <-]. done.
  - intros i p Hp _. by destruct (boot_lookup i p Hp) as [[_ ->]|[_ ->]].
  - intros i p Hp Hal Hi. destruct (boot_lookup i p Hp) as [[-> _]|[_ ->]]; [done|].
    destruct Hal as [Hx|Hx]; discriminate Hx.
  - eexists. split; [reflexivity|done].
  - intros i p q r Hp Hs. by destruct (boot_lookup i p Hp) as [[_ ->]|[_ ->]].
  - intros i p Hp Hs. destruct (boot_lookup i p Hp) as [[_ ->]|[_ ->]]; cbn in *; [lia|done].
  - lia.
  - intros i j p q Hp Hq Hs Hs' _.
    destruct (boot_lookup i p Hp) as [[-> ->]|[_ ->]], (boot_lookup j q Hq) as [[-> ->]|[_ ->]]; done.
Qed.

(** The systems reached from boot on [n] CPUs, with the number of pids
    [allocproc] has handed out on the way. *)
Inductive reach (n : nat) : nat → tsys → Prop :=
| reach_boot : reach n 0 (boot n)
| reach_step k t t' : reach n k t → tstep 0 t t' → reach n (if nxt t' =? nxt t then k else S k) t'.

Lemma reach_core n k t : reach n k t → tcore 0 t.
Proof. induction 1; [apply boot_inv|by eapply tstep_core]. Qed.

(** A step leaves [nextpid] alone or increments it. *)
Lemma tstep_nxt t t' : tstep 0 t t' → nxt t' = nxt t ∨ nxt t' = i32 (nxt t + 1).
Proof. destruct 1; cbn; auto. Qed.

(** No pid is handed out twice before [nextpid] passes the largest int. *)
Lemma reach_pids n k t :
  reach n k t → Z.of_nat k < 2147483646 → tpids t ∧ nxt t = 2 + Z.of_nat k.
Proof.
  induction 1 as [|k t t' Hr IH Hst]; intros Hk; [split; [apply (boot_inv n)|reflexivity]|].
  destruct (Z.eqb_spec (nxt t') (nxt t)) as [E|E].
  - destruct (IH Hk) as [Hp Hn]. split; [|lia].
    eapply tstep_pids; [exact Hst|lia|by eapply reach_core|done].
  - destruct IH as [Hp Hn]; [lia|]. destruct (tstep_nxt _ _ Hst) as [?|Hx]; [done|].
    rewrite i32_id in Hx by lia. split; [|lia].
    eapply tstep_pids; [exact Hst|lia|by eapply reach_core|done].
Qed.

(** C4: from the table [userinit] leaves, on any number of CPUs and in any
    order of scheduling, forking, sleeping, waking, killing, exiting and
    reaping: a process is RUNNING exactly when one CPU runs it and no two do;
    init never leaves the table; every other process has a live parent; no
    process sleeps in [wait] while one of its children is a zombie (the exit
    wakeup is never lost); and as long as fewer than 2^31 - 2 pids have been
    handed out since boot, that is, until the int [nextpid] wraps around, the
    pids of used slots are distinct. *)
Theorem process_table_invariant n k t :
  reach n k t →
  (∀ i p, tbl t !! i = Some p → state p = RUNNING ↔ ∃ c, cpu t !! c = Some (Some i)) ∧
  (∀ c d i, cpu t !! c = Some (Some i) → cpu t !! d = Some (Some i) → c = d) ∧
  (∃ r, tbl t !! 0%nat = Some r ∧ alive (state r) = true) ∧
  (∀ i p, tbl t !! i = Some p → alive (state p) = true ∨ state p = ZOMBIE → i ≠ 0%nat →
     ∃ q r, parent p = Some q ∧ q ≠ i ∧ tbl t !! q = Some r ∧ alive (state r) = true) ∧
  (∀ i p q r, tbl t !! i = Some p → state p = ZOMBIE → parent p = Some q → tbl t !! q = Some r →
     ¬ (state r = SLEEPING ∧ p_chan r = Some (PChan q))) ∧
  (Z.of_nat k < 2147483646 →
   ∀ i j p q, tbl t !! i = Some p → tbl t !! j = Some q → state p ≠ UNUSED → state q ≠ UNUSED →
     pid p = pid q → i = j).
Proof.
  intros Hst. pose proof (reach_core n k t Hst) as Ht. split_and!.
  - exact (ti_run 0 t Ht).
  - exact (ti_one 0 t Ht).
  - exact (ti_init 0 t Ht).
  - intros i p Hp Hal Hi. pose proof (ti_child 0 t Ht i p Hp Hal Hi) as Hne.
    destruct (parent p) as [q|] eqn:Hpa; [|done]. destruct (ti_parent 0 t Ht i p q Hp Hpa) as (r & Hr & Ha).
    exists q, r. split_and!; [done| |done|done]. intros ->. by apply (ti_self 0 t Ht i p Hp).
  - exact (ti_wait 0 t Ht).
  - intros Hk. exact (ti_uniq t (proj1 (reach_pids n k t Hst Hk))).
Qed.

(** The system after CPU 0 has picked init, and after it has begun to fork. *)
Definition init_running : tsys :=
  TSys (set_state RUNNING (set_pid 1 proc0) :: replicate 63 proc0) 2 [Some 0%nat].
Definition init_forking : tsys :=
  TSys (set_state RUNNING (set_pid 1 proc0) :: set_pid 2 (set_state EMBRYO proc0) :: replicate 62 proc0) 3 [Some 0%nat].

Lemma boot_picks_init : rtc (tfresh 0) (boot 1) init_running.
Proof. apply tfresh_once; [by apply (t_pick 0 (boot 1) 0 0)|reflexivity]. Qed.

Lemma reach_init_forking : reach 1 1 init_forking.
Proof.
  assert (H1 : reach 1 0 init_running).
  { apply (reach_step 1 0 (boot 1) init_running (reach_boot 1)). by apply (t_pick 0 (boot 1) 0 0). }
  exact (reach_step 1 0 init_running init_forking H1 (t_alloc 0 init_running 1 eq_refl)).
Qed.

Lemma process_table_invariant_witness :
  reach 1 1 init_forking ∧
  ∀ i j p q, tbl init_forking !! i = Some p → tbl init_forking !! j = Some q →
    state p ≠ UNUSED → state q ≠ UNUSED → pid p = pid q → i = j.
Proof.
  split; [exact reach_init_forking|].
  destruct (process_table_invariant 1 1 init_forking reach_init_forking) as (_ & _ & _ & _ & _ & Hp).
  apply Hp. reflexivity.
Defined.

(** C5: every operation a process running on CPU [k] can make (fork, exit,
    one round of wait, sleep, the return from sleep, yield, wakeup, kill), as
    proc.c computes it with its page and file operations, changes the process
    table only by the transitions of the abstract system, and keeps its
    invariant. *)
Theorem proc_ops_refine end_ data_ gpu forkret_addr trapret_addr {F} `{FileLayer F} init o (s : kstate F) keep s' c k cur :
  tinv init (tview s c) → nextpid s < 2147483647 → initproc s = Some init → c !! k = Some (Some cur) →
  run_kop end_ data_ gpu forkret_addr trapret_addr o cur s = Ret keep s' →
  rtc (tstep init) (tview s c) (tview s' (release_cpu keep k c)) ∧ tinv init (tview s' (release_cpu keep k c)).
Proof.
  intros Ht Hn Hi Hc Hrun. pose proof (kop_steps _ _ _ _ _ _ _ _ _ _ _ _ _ Ht Hn Hi Hc Hrun) as Hst.
  split; [by apply tfresh_tsteps|]. exact (tfresh_inv init _ _ Hst Ht).
Qed.

#[export] Instance no_files : FileLayer unit := {|
  filedup := λ f, mret f;
  fileclose := λ _, mret tt;
  idup := λ i, mret i;
  iput_op := λ _, mret tt;
  namei_root := mret 0%nat;
|}.

Lemma proc_ops_refine_witness :
  let s := KState (tbl init_running) 2 (Some 0%nat) (Kmem 0 0 ∅) tt in
  ∃ s', run_kop 0 0 (Gpu 0 0) 0 0 (KSleep 7) 0 s = Ret false s' ∧
  rtc (tstep 0) (tview s [Some 0%nat]) (tview s' [None]).
Proof.
  eexists. split; [reflexivity|].
  assert (Ht : tinv 0 init_running) by exact (tfresh_inv 0 _ _ boot_picks_init (boot_inv 1)).
  exact (proj1 (proc_ops_refine 0 0 (Gpu 0 0) 0 0 0 (KSleep 7)
    (KState (tbl init_running) 2 (Some 0%nat) (Kmem 0 0 ∅) tt) false _ [Some 0%nat] 0 0
    Ht ltac:(cbn; lia) eq_refl eq_refl eq_refl)).
Defined.

Lemma kill_table_zero ps n i :
  find_unused ps n = Some (n + i)%nat →
  (∀ j p, ps !! j = Some p → state p = UNUSED ↔ pid p = 0) →
  kill_table ps 0 = (alter (set_killed 1) i ps, 0).
Proof.
  revert n i. induction ps as [|p ps IH]; intros n i Hf Hz; cbn [find_unused kill_table] in *; [done|].
  pose proof (Hz 0%nat p eq_refl) as Hp. destruct (decide (state p = UNUSED)) as [Hu|Hu].
  - injection Hf as E. replace i with 0%nat by lia. rewrite (proj2 (Z.eqb_eq _ _) (proj1 Hp Hu)).
    cbn [state set_killed]. destruct (decide _) as [Hs|_]; [by rewrite Hu in Hs|done].
  - destruct (find_unused_Some _ _ _ Hf) as (k & q & Hk & _ & _).
    rewrite (proj2 (Z.eqb_neq _ _)) by tauto. destruct i as [|i]; [lia|].
    rewrite (IH (S n) i); [done| |].
    + rewrite Hf. f_equal. lia.
    + intros j. exact (Hz (S j)).
Qed.

Lemma find_unused_killed ps n i v : find_unused (alter (set_killed v) i ps) n = find_unused ps n.
Proof.
  revert n i. induction ps as [|p ps IH]; intros n i; [done|]. destruct i as [|i]; [done|].
  cbn [alter list_alter find_unused]. by rewrite IH.
Qed.

Section kill_zero.
Context {F : Type} `{FileLayer F} (forkret_addr trapret_addr : Z).
Implicit Types s : kstate F.

(** Slot [i] has its [killed] flag set. *)
Definition marked (i : nat) s : Prop := ∃ p, ptable s !! i = Some p ∧ killed p = 1.

Lemma marked_setproc i j f s r s' :
  (∀ p, killed (f p) = killed p) → setproc j f s = Ret r s' → marked i s → marked i s'.
Proof.
  intros Hf [= <- <-] (p & Hp & Hk). unfold marked. cbn [ptable]. destruct (decide (j = i)) as [->|].
  - exists (f p). rewrite list_lookup_alter_eq, Hp. split; [done|]. by rewrite Hf.
  - exists p. by rewrite list_lookup_alter_ne.
Qed.

Lemma marked_liftk {A} i (m : M kmem A) s r s' : liftk m s = Ret r s' → marked i s → marked i s'.
Proof. unfold liftk. destruct (m (km s)); [|done..]. by intros [= <- <-]. Qed.

Lemma allocproc_marked s i j s' :
  find_unused (ptable s) 0 = Some i → marked i s → allocproc forkret_addr trapret_addr s = Ret (Some j) s' →
  j = i ∧ marked i s'.
Proof.
  intros Hi Hm Hrun. unfold allocproc in Hrun. apply bind_inv in Hrun as (ps & s0 & [= <- <-] & Hrun).
  rewrite Hi in Hrun. apply bind_inv in Hrun as (n & s0 & [= <- <-] & Hrun).
  apply bind_inv in Hrun as (u & s1 & E1 & Hrun). apply (marked_setproc i) in E1; [|done|exact Hm].
  apply bind_inv in Hrun as (u2 & s2 & [= <- <-] & Hrun).
  apply bind_inv in Hrun as (k & s3 & E3 & Hrun). apply (marked_liftk i) in E3; [|exact E1].
  apply bind_inv in Hrun as (u4 & s4 & E4 & Hrun). apply (marked_setproc i) in E4; [|done|exact E3].
  destruct (k =? 0). { by apply bind_inv in Hrun as (u5 & s5 & _ & Hrun). }
  apply bind_inv in Hrun as (u5 & s5 & E5 & Hrun). apply (marked_setproc i) in E5; [|done|exact E4].
  apply bind_inv in Hrun as (u6 & s6 & E6 & Hrun). apply (marked_liftk i) in E6; [|exact E5].
  apply bind_inv in Hrun as (u7 & s7 & E7 & Hrun). apply (marked_setproc i) in E7; [|done|exact E6].
  apply bind_inv in Hrun as (u8 & s8 & E8 & Hrun). apply (marked_liftk i) in E8; [|exact E7].
  apply bind_inv in Hrun as (u9 & s9 & E9 & Hrun). apply (marked_liftk i) in E9; [|exact E8].
  injection Hrun as <- <-. done.
Qed.

(** [kill(0)] reports success although no process has pid 0: it finds
    the first free slot of the table and sets its [killed] flag, and the next
    [allocproc] hands out that very slot with the flag still set, so the next
    process that [fork] builds there starts out killed. *)
Lemma kill_zero_kills_next_child s c init i :
  tinv init (tview s c) → find_unused (ptable s) 0 = Some i →
  (∀ j p, ptable s !! j = Some p → state p = UNUSED → pid p = 0) →
  ∃ s1, kill 0 s = Ret 0 s1 ∧
    ∀ j s2, allocproc forkret_addr trapret_addr s1 = Ret (Some j) s2 →
      j = i ∧ ∃ p, ptable s2 !! j = Some p ∧ killed p = 1.
Proof.
  intros Ht Hi Hz. destruct (find_unused_Some _ _ _ Hi) as (k & p & Hk & Hp & Hu). cbn in Hk. subst k.
  assert (Hkt : kill_table (ptable s) 0 = (alter (set_killed 1) i (ptable s), 0)).
  { apply (kill_table_zero _ 0); [done|]. intros j q Hq. split; [by eauto|]. intros Hq0.
    destruct (decide (state q = UNUSED)) as [|Hne]; [done|].
    pose proof (ti_pid _ (ti_pids _ _ Ht) j q Hq Hne). lia. }
  eexists. split.
  { unfold kill. cbn. unfold mbind, M_bind, gets. cbn. rewrite Hkt. reflexivity. }
  intros j s2 Hal.
  assert (Hm : marked i (KState (alter (set_killed 1) i (ptable s)) (nextpid s) (initproc s) (km s) (files s))).
  { exists (set_killed 1 p). cbn [ptable]. by rewrite list_lookup_alter_eq, Hp. }
  apply (allocproc_marked _ i) in Hal as [-> (q & Hq & Hqk)]; [by eauto| |exact Hm].
  cbn [ptable]. by rewrite find_unused_killed.
Qed.
End kill_zero.
