(* ===== verification/Percpu.v ===== *)
(** * The processor: segment and gate descriptors, and the per-CPU state

    mycpu, myproc, scheduler, sched, yield and forkret of proc.c, seginit, switchuvm,
    switchkvm and kvmalloc of vm.c, tvinit and idtinit of trap.c, pushcli,
    popcli, holding and getcallerpcs of spinlock.c, with the descriptor formats
    of mmu.h.  The state has the registers of the processor that runs the code,
    so that a thread that goes on after [swtch] may find itself on another
    processor.  Processors, processes and the entries of tables are named by
    their index. *)

From S2P Require Import Prelude Param Spinlock Proc.

(** ** Bit-fields

    A structure of bit-fields is the list of its widths and values, from the
    least significant bit up; a value that is too wide is truncated. *)

Fixpoint pack (l : list (Z * Z)) : Z :=
  match l with
  | [] => 0
  | (w, v) :: l => v mod 2 ^ w + 2 ^ w * pack l
  end.

Definition bits (lo w x : Z) : Z := (x / 2 ^ lo) mod 2 ^ w.

(** ** mmu.h *)

Definition SEG_KCODE : Z := 1.
Definition SEG_KDATA : Z := 2.
Definition SEG_TSS : Z := 5.
Definition NSEGS : nat := 6.
Definition STA_X : Z := 8.
Definition STA_W : Z := 2.
Definition STA_R : Z := 2.
Definition STS_T32A : Z := 9.
Definition STS_IG32 : Z := 14.
Definition STS_TG32 : Z := 15.
Definition T_SYSCALL : nat := 64.

Record segdesc := SegDesc {
  lim_15_0 : Z; base_15_0 : Z; base_23_16 : Z; type_ : Z; s_ : Z; dpl : Z; p_ : Z;
  lim_19_16 : Z; avl : Z; rsv1 : Z; db : Z; g_ : Z; base_31_24 : Z;
}.

(** The eight bytes of a descriptor as a number. *)
Definition seg_word (d : segdesc) : Z :=
  pack [(16, lim_15_0 d); (16, base_15_0 d); (8, base_23_16 d); (4, type_ d); (1, s_ d); (2, dpl d); (1, p_ d);
        (4, lim_19_16 d); (1, avl d); (1, rsv1 d); (1, db d); (1, g_ d); (8, base_31_24 d)].

Definition SEG (type base lim dpl : Z) : segdesc :=
  SegDesc (Z.land (Z.shiftr lim 12) 0xffff) (Z.land (u32 base) 0xffff) (Z.land (Z.shiftr (u32 base) 16) 0xff) type 1 dpl 1
    (Z.shiftr (u32 lim) 28) 0 0 1 1 (Z.shiftr (u32 base) 24).
Definition SEG16 (type base lim dpl : Z) : segdesc :=
  SegDesc (Z.land lim 0xffff) (Z.land (u32 base) 0xffff) (Z.land (Z.shiftr (u32 base) 16) 0xff) type 1 dpl 1
    (Z.shiftr (u32 lim) 16) 0 0 1 0 (Z.shiftr (u32 base) 24).
Definition set_s (v : Z) (d : segdesc) : segdesc :=
  SegDesc (lim_15_0 d) (base_15_0 d) (base_23_16 d) (type_ d) v (dpl d) (p_ d) (lim_19_16 d) (avl d) (rsv1 d) (db d) (g_ d) (base_31_24 d).

Record gatedesc := GateDesc {
  off_15_0 : Z; g_cs : Z; g_args : Z; g_rsv1 : Z; g_type : Z; g_s : Z; g_dpl : Z; g_p : Z; off_31_16 : Z;
}.
Definition gate_word (g : gatedesc) : Z :=
  pack [(16, off_15_0 g); (16, g_cs g); (5, g_args g); (3, g_rsv1 g); (4, g_type g); (1, g_s g); (2, g_dpl g); (1, g_p g); (16, off_31_16 g)].
Definition SETGATE (istrap sel off d : Z) : gatedesc :=
  GateDesc (Z.land (u32 off) 0xffff) sel 0 0 (if istrap =? 0 then STS_IG32 else STS_TG32) 0 d 1 (Z.shiftr (u32 off) 16).

(** The fields of [struct taskstate] the kernel sets. *)
Record taskstate := TaskState { esp0 : Z; ss0 : Z; iomb : Z }.
Definition sizeof_taskstate : Z := 104.

(** ** State *)

(** [struct cpu]. *)
Record kcpu := KCpu { apicid : Z; ts : taskstate; gdt : list segdesc; ncli : Z; intena : bool; c_proc : option nat }.
Definition set_ts v c := KCpu (apicid c) v (gdt c) (ncli c) (intena c) (c_proc c).
Definition set_gdt_entry (i : Z) d c := KCpu (apicid c) (ts c) (<[Z.to_nat i := d]> (gdt c)) (ncli c) (intena c) (c_proc c).
Definition set_ncli v c := KCpu (apicid c) (ts c) (gdt c) v (intena c) (c_proc c).
Definition set_intena v c := KCpu (apicid c) (ts c) (gdt c) (ncli c) v (c_proc c).

(** Memory, and the registers of the running processor: the number of its local
    APIC, the interrupt flag, the table and the limit loaded by [lgdt] (the
    processor whose table it is), the same for [lidt], the task register and
    the page directory. *)
Record core := Core {
  cpus : list kcpu;
  ncpu : nat;
  cpus_addr : Z;
  ptable : list proc;
  plock : spinlock;
  idt : list gatedesc;
  kpgdir : Z;
  first : bool;
  hw_id : Z;
  fl_if : bool;
  gdtr : option (nat * Z);
  idtr : option Z;
  tr : Z;
  cr3 : Z;
}.
Definition set_cpus v s := Core v (ncpu s) (cpus_addr s) (ptable s) (plock s) (idt s) (kpgdir s) (first s) (hw_id s) (fl_if s) (gdtr s) (idtr s) (tr s) (cr3 s).
Definition set_ptable v s := Core (cpus s) (ncpu s) (cpus_addr s) v (plock s) (idt s) (kpgdir s) (first s) (hw_id s) (fl_if s) (gdtr s) (idtr s) (tr s) (cr3 s).
Definition set_plock v s := Core (cpus s) (ncpu s) (cpus_addr s) (ptable s) v (idt s) (kpgdir s) (first s) (hw_id s) (fl_if s) (gdtr s) (idtr s) (tr s) (cr3 s).
Definition set_idt v s := Core (cpus s) (ncpu s) (cpus_addr s) (ptable s) (plock s) v (kpgdir s) (first s) (hw_id s) (fl_if s) (gdtr s) (idtr s) (tr s) (cr3 s).
Definition set_kpgdir v s := Core (cpus s) (ncpu s) (cpus_addr s) (ptable s) (plock s) (idt s) v (first s) (hw_id s) (fl_if s) (gdtr s) (idtr s) (tr s) (cr3 s).
Definition set_first v s := Core (cpus s) (ncpu s) (cpus_addr s) (ptable s) (plock s) (idt s) (kpgdir s) v (hw_id s) (fl_if s) (gdtr s) (idtr s) (tr s) (cr3 s).
Definition set_if v s := Core (cpus s) (ncpu s) (cpus_addr s) (ptable s) (plock s) (idt s) (kpgdir s) (first s) (hw_id s) v (gdtr s) (idtr s) (tr s) (cr3 s).
Definition set_gdtr v s := Core (cpus s) (ncpu s) (cpus_addr s) (ptable s) (plock s) (idt s) (kpgdir s) (first s) (hw_id s) (fl_if s) v (idtr s) (tr s) (cr3 s).
Definition set_idtr v s := Core (cpus s) (ncpu s) (cpus_addr s) (ptable s) (plock s) (idt s) (kpgdir s) (first s) (hw_id s) (fl_if s) (gdtr s) v (tr s) (cr3 s).
Definition set_tr v s := Core (cpus s) (ncpu s) (cpus_addr s) (ptable s) (plock s) (idt s) (kpgdir s) (first s) (hw_id s) (fl_if s) (gdtr s) (idtr s) v (cr3 s).
Definition set_cr3 v s := Core (cpus s) (ncpu s) (cpus_addr s) (ptable s) (plock s) (idt s) (kpgdir s) (first s) (hw_id s) (fl_if s) (gdtr s) (idtr s) (tr s) v.

Abbreviation C := (M core).

Definition upd_cpu (i : nat) (f : kcpu → kcpu) : C unit := modify (λ s, set_cpus (alter f i (cpus s)) s).
Definition the_cpu (i : nat) : C kcpu := s ← get; of_option (cpus s !! i).

(** ** proc.c: which processor is this *)

(** The loop of [mycpu] over the first [n] processors. *)
Fixpoint find_cpu (n i : nat) (l : list kcpu) (id : Z) : option nat :=
  match n, l with
  | S n, c :: l => if apicid c =? id then Some i else find_cpu n (S i) l id
  | _, _ => None
  end.

Definition mycpu : C nat :=
  s ← get;
  if fl_if s then panic "mycpu called with interrupts enabled" else
  match find_cpu (ncpu s) 0 (cpus s) (hw_id s) with
  | Some i => mret i
  | None => panic "unknown apicid"
  end.

Definition cpuid : C nat := mycpu.

(** ** spinlock.c *)

Definition pushcli : C unit :=
  s ← get;
  let eflags := fl_if s in
  modify (set_if false) ;;
  i ← mycpu;
  c ← the_cpu i;
  (if ncli c =? 0 then upd_cpu i (set_intena eflags) else mret tt) ;;
  upd_cpu i (λ c, set_ncli (ncli c + 1) c).

Definition popcli : C unit :=
  s ← get;
  if fl_if s then panic "popcli - interruptible" else
  i ← mycpu;
  upd_cpu i (λ c, set_ncli (ncli c - 1) c) ;;
  c ← the_cpu i;
  if ncli c <? 0 then panic "popcli" else
  i ← mycpu;
  c ← the_cpu i;
  if (ncli c =? 0) && intena c then modify (set_if true) else mret tt.

Definition holding (lk : spinlock) : C bool :=
  if locked lk =? 0 then mret false else
  i ← mycpu;
  mret (bool_decide (lcpu lk = Some i)).

(** [acquire] and [release] of [ptable.lock] as its holder sees them; a lock
    another processor holds makes the caller wait. *)
Definition acquire : C unit :=
  pushcli ;;
  s ← get;
  h ← holding (plock s);
  if h : bool then panic "acquire" else
  if negb (locked (plock s) =? 0) then wait_forever else
  i ← mycpu;
  modify (set_plock (Spin 1 (Some i))).

Definition release : C unit :=
  s ← get;
  h ← holding (plock s);
  if negb h then panic "release" else
  modify (set_plock (Spin 0 None)) ;;
  popcli.

(** [getcallerpcs]: [rd] reads a word of memory; [None] is a fault. *)
Fixpoint caller_pcs (n : nat) (rd : Z → option Z) (ebp : Z) : option (list Z) :=
  match n with
  | O => Some []
  | S n =>
      if (ebp =? 0) || (ebp <? KERNBASE) || (ebp =? 0xffffffff) then Some []
      else
        pc ← rd (u32 (ebp + 4));
        next ← rd ebp;
        pcs ← caller_pcs n rd next;
        Some (pc :: pcs)
  end.
Definition getcallerpcs (rd : Z → option Z) (v : Z) : option (list Z) :=
  pcs ← caller_pcs 10 rd (u32 (v - 8));
  Some (pcs ++ replicate (10 - length pcs) 0).

(** ** proc.c: giving up the processor *)

Definition myproc : C (option nat) :=
  pushcli ;;
  i ← mycpu;
  c ← the_cpu i;
  popcli ;;
  mret (c_proc c).

Section switch.
(** [swtch(&p->context, mycpu()->scheduler)]: the rest of the machine runs
    until the scheduler of some processor resumes this thread. *)
Context (swtch : C unit).

Definition sched : C unit :=
  p ← myproc;
  s ← get;
  h ← holding (plock s);
  if negb h then panic "sched ptable.lock" else
  i ← mycpu;
  c ← the_cpu i;
  if negb (ncli c =? 1) then panic "sched locks" else
  p ← of_option p;
  p ← of_option (ptable s !! p);
  if bool_decide (state p = RUNNING) then panic "sched running" else
  s ← get;
  if fl_if s then panic "sched interruptible" else
  i ← mycpu;
  c ← the_cpu i;
  let saved := intena c in
  swtch ;;
  i ← mycpu;
  upd_cpu i (set_intena saved).

Definition yield : C unit :=
  acquire ;;
  p ← myproc;
  p ← of_option p;
  modify (λ s, set_ptable (alter (set_state RUNNABLE) p (ptable s)) s) ;;
  sched ;;
  release.
End switch.

(** [forkret]; [fs_init] is [iinit(ROOTDEV); initlog(ROOTDEV)]. *)
Definition forkret (fs_init : C unit) : C unit :=
  release ;;
  s ← get;
  if first s then modify (set_first false) ;; fs_init else mret tt.

(** ** vm.c *)

Definition seginit : C unit :=
  i ← cpuid;
  upd_cpu i (set_gdt_entry SEG_KCODE (SEG (Z.lor STA_X STA_R) 0 0xffffffff 0)) ;;
  upd_cpu i (set_gdt_entry SEG_KDATA (SEG STA_W 0 0xffffffff 0)) ;;
  upd_cpu i (set_gdt_entry SEG_UCODE (SEG (Z.lor STA_X STA_R) 0 0xffffffff DPL_USER)) ;;
  upd_cpu i (set_gdt_entry SEG_UDATA (SEG STA_W 0 0xffffffff DPL_USER)) ;;
  modify (set_gdtr (Some (i, u16 (Z.of_nat NSEGS * 8 - 1)))).

Definition switchkvm : C unit := modify (λ s, set_cr3 (V2P (kpgdir s)) s).

Definition kvmalloc (setupkvm : C Z) : C unit :=
  k ← setupkvm;
  modify (set_kpgdir k) ;;
  switchkvm.

(** [&cpus[i].ts]; a [struct cpu] is 176 bytes and [ts] is at 8. *)
Definition ts_addr (i : nat) (s : core) : Z := u32 (cpus_addr s + 176 * Z.of_nat i + 8).

(** [mycpu()->gdt[SEG_TSS].s = 0]. *)
Definition clear_tss_s (c : kcpu) : kcpu :=
  match gdt c !! Z.to_nat SEG_TSS with Some d => set_gdt_entry SEG_TSS (set_s 0 d) c | None => c end.

Definition switchuvm (p : option nat) : C unit :=
  s ← get;
  match p with
  | None => panic "switchuvm: no process"
  | Some p =>
      p ← of_option (ptable s !! p);
      if kstack p =? 0 then panic "switchuvm: no kstack" else
      if pgdir p =? 0 then panic "switchuvm: no pgdir" else
      pushcli ;;
      i ← mycpu;
      upd_cpu i (set_gdt_entry SEG_TSS (SEG16 STS_T32A (ts_addr i s) (sizeof_taskstate - 1) 0)) ;;
      upd_cpu i clear_tss_s ;;
      upd_cpu i (λ c, set_ts (TaskState (u32 (kstack p + KSTACKSIZE)) (SEG_KDATA * 8) 0xffff) c) ;;
      modify (set_tr (SEG_TSS * 8)) ;;
      modify (set_cr3 (V2P (pgdir p))) ;;
      popcli
  end.

(** ** proc.c: scheduler *)

Definition set_proc v c := KCpu (apicid c) (ts c) (gdt c) (ncli c) (intena c) v.

(** The loop of [scheduler] on processor [i] from slot [k] on; [run] is
    [swtch(&(c->scheduler), p->context)], until the process switches back. *)
Fixpoint scheduler_loop (run : C unit) (i n k : nat) : C unit :=
  match n with
  | O => mret tt
  | S n =>
      s ← get;
      p ← of_option (ptable s !! k);
      (if bool_decide (state p = RUNNABLE) then
         upd_cpu i (set_proc (Some k)) ;;
         switchuvm (Some k) ;;
         modify (λ s, set_ptable (alter (set_state RUNNING) k (ptable s)) s) ;;
         run ;;
         switchkvm ;;
         upd_cpu i (set_proc None)
       else mret tt) ;;
      scheduler_loop run i n (S k)
  end.

(** One round of its [for(;;)]. *)
Definition scheduler_round (run : C unit) (i : nat) : C unit :=
  modify (set_if true) ;;
  acquire ;;
  scheduler_loop run i NPROC 0 ;;
  release.

(** ** trap.c *)

(** [vectors] is the table of vectors.S. *)
Definition tvinit (vectors : nat → Z) : C unit :=
  for_ 256 0 (λ i, modify (λ s, set_idt (<[i := SETGATE 0 (SEG_KCODE * 8) (vectors i) 0]> (idt s)) s)) ;;
  modify (λ s, set_idt (<[T_SYSCALL := SETGATE 1 (SEG_KCODE * 8) (vectors T_SYSCALL) DPL_USER]> (idt s)) s).

Definition idtinit : C unit := modify (set_idtr (Some (u16 (256 * 8 - 1)))).

(** ** Bit-fields, again: what is packed can be read *)

Fixpoint field (l : list (Z * Z)) (lo w : Z) : option Z :=
  match l with
  | [] => None
  | (w0, v) :: l =>
      if lo =? 0 then if w =? w0 then Some (v mod 2 ^ w) else None
      else if lo <? w0 then None else field l (lo - w0) w
  end.

Lemma bits_pack l lo w x : Forall (λ p, 0 <= p.1) l → 0 <= lo → 0 <= w → field l lo w = Some x → bits lo w (pack l) = x.
Proof.
  intros Hl. revert lo. induction Hl as [|[w0 v] l Hw Hl IH]; intros lo Hlo Hw' E; [done|]. cbn [pack field] in *. unfold bits.
  assert (Hp : 0 < 2 ^ w0) by (apply Z.pow_pos_nonneg; cbn in Hw; lia).
  destruct (Z.eqb_spec lo 0) as [->|Hlo'].
  - destruct (Z.eqb_spec w w0) as [->|]; [|done]. injection E as <-. rewrite Z.pow_0_r, Z.div_1_r.
    rewrite Z.mul_comm, Z_mod_plus_full, Z.mod_mod by lia. done.
  - destruct (Z.ltb_spec lo w0) as [|Hge]; [done|]. rewrite <- (IH (lo - w0)) by (done || lia). unfold bits. f_equal.
    cbn in Hw. replace lo with (w0 + (lo - w0)) at 1 by lia. rewrite Z.pow_add_r, <- Z.div_div by lia.
    rewrite Z.mul_comm, Z_div_plus_full by lia. rewrite (Z.div_small (v mod 2 ^ w0)) by (apply Z.mod_pos_bound; lia).
    done.
Qed.

(** ** What the processor reads in a descriptor *)

Definition desc_base (w : Z) : Z := bits 16 16 w + 65536 * bits 32 8 w + 16777216 * bits 56 8 w.
Definition desc_limit (w : Z) : Z :=
  let l := bits 0 16 w + 65536 * bits 48 4 w in
  if bits 55 1 w =? 1 then l * 4096 + 4095 else l.
Definition desc_type (w : Z) : Z := bits 40 4 w.
Definition desc_s (w : Z) : Z := bits 44 1 w.
Definition desc_dpl (w : Z) : Z := bits 45 2 w.
Definition desc_p (w : Z) : Z := bits 47 1 w.
Definition gate_off (w : Z) : Z := bits 0 16 w + 65536 * bits 48 16 w.
Definition gate_sel (w : Z) : Z := bits 16 16 w.

Ltac unpack :=
  repeat match goal with |- context [bits ?lo ?w (pack ?l)] => erewrite (bits_pack l lo w) by (first [by repeat constructor | lia | reflexivity]) end.

Lemma gate_word_fields istrap sel off d :
  is_u16 sel → 0 <= d < 4 →
  let w := gate_word (SETGATE istrap sel off d) in
  gate_off w = u32 off ∧ gate_sel w = sel ∧ desc_type w = (if istrap =? 0 then 14 else 15) ∧ desc_s w = 0 ∧ desc_dpl w = d ∧ desc_p w = 1.
Proof.
  intros Hs Hd w. subst w. unfold gate_word, SETGATE, gate_off, gate_sel, desc_type, desc_s, desc_dpl, desc_p.
  cbn [off_15_0 g_cs g_args g_rsv1 g_type g_s g_dpl g_p off_31_16]. unpack. change (2 ^ 16) with 65536. change (2 ^ 2) with 4.
  change (Z.land (u32 off) 0xffff) with (Z.land (u32 off) (Z.ones 16)). rewrite Z.land_ones, Z.shiftr_div_pow2 by lia. change (2 ^ 16) with 65536.
  unfold is_u16 in Hs. split_and!; [|by rewrite Z.mod_small| |done|by rewrite Z.mod_small|done].
  - pose proof (u32_range off). dlia.
  - by destruct (istrap =? 0).
Qed.

Lemma tss_word_fields type base lim d :
  is_u32 base → is_u16 lim → 0 <= type < 16 → 0 <= d < 4 →
  let w := seg_word (set_s 0 (SEG16 type base lim d)) in
  desc_base w = base ∧ desc_limit w = lim ∧ desc_type w = type ∧ desc_s w = 0 ∧ desc_dpl w = d ∧ desc_p w = 1.
Proof.
  intros Hb Hl Ht Hd w. subst w. unfold seg_word, SEG16, set_s, desc_base, desc_limit, desc_type, desc_s, desc_dpl, desc_p.
  cbn [lim_15_0 base_15_0 base_23_16 type_ s_ dpl p_ lim_19_16 avl rsv1 db g_ base_31_24]. unpack. cbn [Z.eqb]. unfold is_u32, is_u16 in *.
  rewrite !u32_id by lia. change 0xffff with (Z.ones 16). change 0xff with (Z.ones 8). rewrite !Z.land_ones, !Z.shiftr_div_pow2 by lia.
  change (2 ^ 16) with 65536. change (2 ^ 8) with 256. change (2 ^ 24) with 16777216. change (2 ^ 4) with 16. change (2 ^ 2) with 4. change (2 ^ 1) with 2.
  change (0 mod 2 =? 1) with false. cbv iota. split_and!; try dlia.
Qed.

(** ** The code on one processor *)

(** The running processor is number [i], with the state [c]. *)
Definition on (i : nat) (c : kcpu) (s : core) : Prop :=
  find_cpu (ncpu s) 0 (cpus s) (hw_id s) = Some i ∧ cpus s !! i = Some c.

Definition put_cpu (i : nat) (c : kcpu) (s : core) : core := set_cpus (<[i := c]> (cpus s)) s.

Lemma find_cpu_insert n k l id i c c' :
  l !! i = Some c → apicid c' = apicid c → find_cpu n k (<[i := c']> l) id = find_cpu n k l id.
Proof.
  revert n k i. induction l as [|x l IH]; intros n k i Hi Ha; [done|]. destruct n as [|n]; [by destruct i|].
  destruct i as [|i]; cbn in Hi |- *; [by injection Hi as ->; rewrite Ha|]. destruct (apicid x =? id); [done|]. by apply (IH n (S k) i).
Qed.

Lemma on_put i c c' s : on i c s → apicid c' = apicid c → on i c' (put_cpu i c' s).
Proof.
  intros [Hf Hc] Ha. split; cbn.
  - by rewrite (find_cpu_insert _ _ _ _ i c c').
  - apply list_lookup_insert_eq. by eapply lookup_lt_Some.
Qed.

Lemma on_if i c s b : on i c s → on i c (set_if b s).
Proof. done. Qed.

(** With different numbers for the local APICs, as the firmware's table has
    them, [mycpu] finds the running processor. *)
Lemma find_cpu_at n : ∀ l k i c,
  l !! i = Some c → (i < n)%nat → (∀ j c', (j < i)%nat → l !! j = Some c' → apicid c' ≠ apicid c) → find_cpu n k l (apicid c) = Some (k + i)%nat.
Proof.
  induction n as [|n IH]; intros l k i c Hi Hlt Hne; [lia|]. destruct l as [|x l]; [done|]. cbn [find_cpu]. destruct i as [|i].
  - injection Hi as ->. by rewrite Z.eqb_refl, Nat.add_0_r.
  - rewrite (proj2 (Z.eqb_neq _ _)) by (by apply (Hne 0%nat); [lia|]). rewrite (IH l (S k) i c); [f_equal; lia|done|lia|].
    intros j c' Hj Hc. by apply (Hne (S j)); [lia|].
Qed.

Lemma distinct_on s i c :
  cpus s !! i = Some c → (i < ncpu s)%nat → apicid c = hw_id s → NoDup (apicid <$> cpus s) → on i c s.
Proof.
  intros Hi Hlt Hid Hnd. split; [|done]. rewrite <- Hid, (find_cpu_at _ _ 0 i c); [done|done|done|]. intros j c' Hj Hc E.
  assert (j = i) by (eapply (NoDup_lookup _ j i (apicid c) Hnd); rewrite list_lookup_fmap; [by rewrite Hc, <- E|by rewrite Hi]). lia.
Qed.

Lemma mycpu_on i c s : on i c s → fl_if s = false → mycpu s = Ret i s.
Proof. intros [Hf _] Hi. unfold mycpu, mbind, M_bind, get. by rewrite Hi, Hf. Qed.

Lemma the_cpu_on i c s : on i c s → the_cpu i s = Ret c s.
Proof. intros [_ Hc]. unfold the_cpu, mbind, M_bind, get. by rewrite Hc. Qed.

Lemma upd_cpu_on i c f s : on i c s → upd_cpu i f s = Ret tt (put_cpu i (f c) s).
Proof. intros [_ Hc]. unfold upd_cpu, modify, put_cpu. by rewrite (alter_insert _ _ _ _ Hc). Qed.

Lemma put_put i c c' s : put_cpu i c' (put_cpu i c s) = put_cpu i c' s.
Proof. unfold put_cpu. destruct s. cbn. by rewrite list_insert_insert_eq. Qed.

Lemma put_same i c s : on i c s → put_cpu i c s = s.
Proof. intros [_ Hc]. unfold put_cpu. rewrite list_insert_id by done. by destruct s. Qed.

Lemma put_if i c s b : put_cpu i c (set_if b s) = set_if b (put_cpu i c s).
Proof. done. Qed.

Lemma set_if_same s b : fl_if s = b → set_if b s = s.
Proof. intros <-. by destruct s. Qed.

Definition push_cpu (e : bool) (c : kcpu) : kcpu := set_ncli (ncli c + 1) (if ncli c =? 0 then set_intena e c else c).

Lemma pushcli_on i c s : on i c s → pushcli s = Ret tt (set_if false (put_cpu i (push_cpu (fl_if s) c) s)).
Proof.
  intros Hon. unfold pushcli. rewrite (bind_Ret _ _ s s s) by done. rewrite (bind_Ret _ _ _ _ (set_if false s)) by done.
  pose proof (on_if i c s false Hon) as H1. rewrite (bind_Ret _ _ _ _ _ (mycpu_on i c _ H1 eq_refl)), (bind_Ret _ _ _ _ _ (the_cpu_on i c _ H1)).
  unfold push_cpu. destruct (ncli c =? 0) eqn:E.
  - rewrite (bind_Ret _ _ _ _ _ (upd_cpu_on i c _ _ H1)). rewrite (upd_cpu_on i (set_intena (fl_if s) c)) by (by apply (on_put i c)). by rewrite put_put.
  - rewrite (bind_Ret _ _ _ tt (set_if false s)) by done. by rewrite (upd_cpu_on i c _ _ H1).
Qed.

Lemma popcli_on i c s :
  on i c s → fl_if s = false → 1 <= ncli c →
  popcli s = Ret tt (set_if ((ncli c - 1 =? 0) && intena c) (put_cpu i (set_ncli (ncli c - 1) c) s)).
Proof.
  intros Hon Hf Hn. unfold popcli. rewrite (bind_Ret _ _ s s s) by done. rewrite Hf.
  rewrite (bind_Ret _ _ _ _ _ (mycpu_on i c s Hon Hf)), (bind_Ret _ _ _ _ _ (upd_cpu_on i c _ s Hon)).
  set (c' := set_ncli (ncli c - 1) c). assert (H1 : on i c' (put_cpu i c' s)) by (by apply (on_put i c)).
  rewrite (bind_Ret _ _ _ _ _ (the_cpu_on i c' _ H1)). cbn [ncli set_ncli c']. rewrite (proj2 (Z.ltb_ge _ 0)) by lia.
  rewrite (bind_Ret _ _ _ _ _ (mycpu_on i c' _ H1 Hf)), (bind_Ret _ _ _ _ _ (the_cpu_on i c' _ H1)). cbn [ncli set_ncli intena c'].
  destruct (_ && _); [done|]. by rewrite set_if_same.
Qed.

(** [pushcli] and [popcli] change the counters as Spinlock.v says. *)
Definition spin_view (c : kcpu) (s : core) : Spinlock.cpu := Spinlock.Cpu (fl_if s) (ncli c) (intena c).

Lemma pushcli_spin i c s :
  on i c s → ∃ c' s', pushcli s = Ret tt s' ∧ on i c' s' ∧ spin_view c' s' = Spinlock.pushcli (spin_view c s).
Proof.
  intros Hon. exists (push_cpu (fl_if s) c). eexists. split; [by apply pushcli_on|]. split.
  - apply on_if, (on_put i c); [done|]. unfold push_cpu. by destruct (ncli c =? 0).
  - unfold spin_view, push_cpu, Spinlock.pushcli. cbn. by destruct (ncli c =? 0).
Qed.

(** Interrupts are on only outside every critical section. *)
Definition cli_ok (c : kcpu) (s : core) : Prop := 0 <= ncli c ∧ (0 < ncli c → fl_if s = false).

Lemma myproc_on i c s :
  on i c s → cli_ok c s → myproc s = Ret (c_proc c) (put_cpu i (if ncli c =? 0 then set_intena (fl_if s) c else c) s).
Proof.
  intros Hon [Hn Hi]. unfold myproc. rewrite (bind_Ret _ _ _ _ _ (pushcli_on i c s Hon)). set (c1 := push_cpu (fl_if s) c).
  assert (H1 : on i c1 (set_if false (put_cpu i c1 s))).
  { apply on_if, (on_put i c); [done|]. subst c1. unfold push_cpu. by destruct (ncli c =? 0). }
  rewrite (bind_Ret _ _ _ _ _ (mycpu_on i c1 _ H1 eq_refl)), (bind_Ret _ _ _ _ _ (the_cpu_on i c1 _ H1)).
  assert (Hn1 : ncli c1 = ncli c + 1) by done.
  rewrite (bind_Ret _ _ _ _ _ (popcli_on i c1 _ H1 eq_refl ltac:(lia))). rewrite put_if, put_put.
  assert (Hp : c_proc c1 = c_proc c) by (subst c1; unfold push_cpu; by destruct (ncli c =? 0)). rewrite Hp. unfold mret, M_ret. f_equal.
  rewrite Hn1. replace (ncli c + 1 - 1) with (ncli c) by lia.
  assert (Hc : set_ncli (ncli c) c1 = if ncli c =? 0 then set_intena (fl_if s) c else c) by (subst c1; unfold push_cpu; destruct c; cbn; by destruct (_ =? 0)).
  rewrite Hc. set (t := put_cpu i _ s). change (set_if ?b (set_if false t)) with (set_if b t). apply set_if_same. change (fl_if t) with (fl_if s).
  destruct (Z.eqb_spec (ncli c) 0) as [E|E]; cbn [andb]; [|by rewrite Hi by lia].
  subst c1. unfold push_cpu. by rewrite (proj2 (Z.eqb_eq _ _) E).
Qed.

Lemma myproc_locked i c s : on i c s → fl_if s = false → 1 <= ncli c → myproc s = Ret (c_proc c) s.
Proof.
  intros Hon Hf Hn. rewrite (myproc_on i c) by (done || (split; [lia|done])). by rewrite (proj2 (Z.eqb_neq _ 0)), put_same by (done || lia).
Qed.

Lemma holding_on i c s lk : on i c s → fl_if s = false → holding lk s = Ret (negb (locked lk =? 0) && bool_decide (lcpu lk = Some i)) s.
Proof. intros Hon Hf. unfold holding. destruct (locked lk =? 0); [done|]. by rewrite (bind_Ret _ _ _ _ _ (mycpu_on i c s Hon Hf)). Qed.

(** In a section guarded by [ptable.lock] alone, on processor [i]. *)
Definition in_ptable (i : nat) (c : kcpu) (s : core) : Prop :=
  on i c s ∧ fl_if s = false ∧ ncli c = 1 ∧ plock s = Spin 1 (Some i).

Lemma acquire_on i c s :
  on i c s → ncli c = 0 → locked (plock s) = 0 →
  ∃ c' s', acquire s = Ret tt s' ∧ in_ptable i c' s' ∧ intena c' = fl_if s ∧ c_proc c' = c_proc c ∧ ptable s' = ptable s ∧ gdt c' = gdt c.
Proof.
  intros Hon Hn Hl. unfold acquire. rewrite (bind_Ret _ _ _ _ _ (pushcli_on i c s Hon)). set (c1 := push_cpu (fl_if s) c).
  assert (Hc1 : c1 = set_ncli 1 (set_intena (fl_if s) c)) by (subst c1; unfold push_cpu; by rewrite Hn). clearbody c1.
  set (s1 := set_if false (put_cpu i c1 s)). assert (H1 : on i c1 s1) by (apply on_if, (on_put i c); [done|by subst c1]).
  rewrite (bind_Ret _ _ s1 s1 s1) by done. rewrite (bind_Ret _ _ _ _ _ (holding_on i c1 s1 _ H1 eq_refl)).
  change (plock s1) with (plock s). rewrite Hl. cbn [Z.eqb negb andb]. rewrite (bind_Ret _ _ _ _ _ (mycpu_on i c1 s1 H1 eq_refl)).
  exists c1. eexists. split; [done|]. subst c1. by split_and!.
Qed.

Lemma release_on i c s :
  in_ptable i c s → release s = Ret tt (set_if (intena c) (put_cpu i (set_ncli 0 c) (set_plock (Spin 0 None) s))).
Proof.
  intros (Hon & Hf & Hn & Hl). unfold release. rewrite (bind_Ret _ _ s s s) by done. rewrite (bind_Ret _ _ _ _ _ (holding_on i c s _ Hon Hf)).
  rewrite Hl. cbn [locked lcpu Z.eqb negb andb]. rewrite bool_decide_true by done. cbn [negb]. rewrite (bind_Ret _ _ _ tt (set_plock (Spin 0 None) s)) by done.
  rewrite (popcli_on i c) by (done || lia). by rewrite Hn.
Qed.

(** What [sched] asks of the machine: when it gives up the processor with
    [ptable.lock] held, a scheduler resumes it, on some processor, with the
    lock held there. *)
Definition resumes (swtch : C unit) (p : nat) : Prop :=
  ∀ i c s, in_ptable i c s → (∃ pr, ptable s !! p = Some pr ∧ state pr ≠ RUNNING) → c_proc c = Some p →
  ∃ j c' s', swtch s = Ret tt s' ∧ in_ptable j c' s'.

Lemma sched_on swtch i c s p pr :
  resumes swtch p → in_ptable i c s → c_proc c = Some p → ptable s !! p = Some pr → state pr ≠ RUNNING →
  ∃ j c' s', sched swtch s = Ret tt s' ∧ in_ptable j c' s' ∧ intena c' = intena c.
Proof.
  intros Hsw Hin Hp Hpr Hst. pose proof Hin as (Hon & Hf & Hn & Hl). unfold sched.
  rewrite (bind_Ret _ _ _ _ _ (myproc_locked i c s Hon Hf ltac:(lia))), (bind_Ret _ _ s s s) by done.
  rewrite (bind_Ret _ _ _ _ _ (holding_on i c s _ Hon Hf)), Hl. cbn [locked lcpu Z.eqb negb andb]. rewrite bool_decide_true by done. cbn [negb].
  rewrite (bind_Ret _ _ _ _ _ (mycpu_on i c s Hon Hf)), (bind_Ret _ _ _ _ _ (the_cpu_on i c s Hon)), Hn. change (negb (1 =? 1)) with false. cbv iota. rewrite Hp.
  rewrite (bind_Ret _ _ s p s), Hpr, (bind_Ret _ _ s pr s) by done. rewrite bool_decide_false by done.
  rewrite (bind_Ret _ _ s s s) by done. rewrite Hf, (bind_Ret _ _ _ _ _ (mycpu_on i c s Hon Hf)), (bind_Ret _ _ _ _ _ (the_cpu_on i c s Hon)).
  destruct (Hsw i c s Hin) as (j & c' & s' & Es & Hon' & Hf' & Hn' & Hl'); [by exists pr|done|].
  rewrite (bind_Ret _ _ _ _ _ Es), (bind_Ret _ _ _ _ _ (mycpu_on j c' s' Hon' Hf')), (upd_cpu_on j c' _ s' Hon').
  exists j, (set_intena (intena c) c'). eexists. split; [done|]. split; [|done]. split_and!; [by apply (on_put j c')|done|done|done].
Qed.

(** C12: giving up the processor.  A thread that calls [yield] outside every
    critical section goes through all the checks of [acquire], [sched],
    [release] and [popcli] without a panic, whatever processor the scheduler
    resumes it on; then [ptable.lock] is free, the processor it is on is
    outside every critical section, and interrupts are on exactly when they
    were on before the call, although the flag was saved in the [struct cpu] of
    another processor. *)
Theorem yield_keeps_interrupts swtch s i c p pr :
  resumes swtch p → on i c s → ncli c = 0 → locked (plock s) = 0 → c_proc c = Some p → ptable s !! p = Some pr →
  ∃ j c' s', yield swtch s = Ret tt s' ∧ on j c' s' ∧ ncli c' = 0 ∧ plock s' = Spin 0 None ∧ fl_if s' = fl_if s.
Proof.
  intros Hsw Hon Hn Hl Hp Hpr. unfold yield. destruct (acquire_on i c s Hon Hn Hl) as (c1 & s1 & E1 & Hin & Hi & Hp1 & Ht & _).
  rewrite (bind_Ret _ _ _ _ _ E1). pose proof Hin as (Hon1 & Hf1 & Hn1 & Hl1).
  rewrite (bind_Ret _ _ _ _ _ (myproc_locked i c1 s1 Hon1 Hf1 ltac:(lia))), Hp1, Hp, (bind_Ret _ _ s1 p s1) by done.
  set (s2 := set_ptable (alter (set_state RUNNABLE) p (ptable s1)) s1). rewrite (bind_Ret _ _ _ tt s2) by done.
  destruct (sched_on swtch i c1 s2 p (set_state RUNNABLE pr) Hsw) as (j & c3 & s3 & E3 & Hin3 & Hi3); [done|by rewrite Hp1| |done|].
  { subst s2. cbn. rewrite Ht. by rewrite list_lookup_alter_eq, Hpr. }
  rewrite (bind_Ret _ _ _ _ _ E3), (release_on j c3 s3 Hin3). exists j, (set_ncli 0 c3). eexists. split; [done|].
  split_and!; [|done|done|by cbn; rewrite Hi3]. destruct Hin3 as (Hon3 & _). by apply on_if, (on_put j c3).
Qed.

(** The checks of [sched] catch their mistakes. *)
Lemma sched_panics swtch i c s p pr :
  on i c s → fl_if s = false → 1 <= ncli c → c_proc c = Some p → ptable s !! p = Some pr →
  (plock s ≠ Spin 1 (Some i) → locked (plock s) = 0 ∨ locked (plock s) = 1 → sched swtch s = Panic "sched ptable.lock") ∧
  (plock s = Spin 1 (Some i) → ncli c ≠ 1 → sched swtch s = Panic "sched locks") ∧
  (plock s = Spin 1 (Some i) → ncli c = 1 → state pr = RUNNING → sched swtch s = Panic "sched running").
Proof.
  intros Hon Hf Hn Hp Hpr. unfold sched.
  rewrite (bind_Ret _ _ _ _ _ (myproc_locked i c s Hon Hf ltac:(lia))), (bind_Ret _ _ s s s) by done.
  rewrite (bind_Ret _ _ _ _ _ (holding_on i c s _ Hon Hf)). split_and!.
  - intros Hne Hl. destruct (plock s) as [l o]. cbn [locked lcpu] in *. destruct Hl as [-> | ->]; [done|]. cbn [Z.eqb negb andb].
    rewrite bool_decide_false; [done|]. by intros ->.
  - intros -> Hn1. cbn [locked lcpu Z.eqb negb andb]. rewrite bool_decide_true by done. cbn [negb].
    rewrite (bind_Ret _ _ _ _ _ (mycpu_on i c s Hon Hf)), (bind_Ret _ _ _ _ _ (the_cpu_on i c s Hon)). by rewrite (proj2 (Z.eqb_neq _ _)).
  - intros -> Hn1 Hst. cbn [locked lcpu Z.eqb negb andb]. rewrite bool_decide_true by done. cbn [negb].
    rewrite (bind_Ret _ _ _ _ _ (mycpu_on i c s Hon Hf)), (bind_Ret _ _ _ _ _ (the_cpu_on i c s Hon)), Hn1. change (negb (1 =? 1)) with false. cbv iota. rewrite Hp.
    rewrite (bind_Ret _ _ s p s), Hpr, (bind_Ret _ _ s pr s) by done. by rewrite bool_decide_true.
Qed.

(** ** Entering the kernel

    What the processor does on interrupt [n], from the tables the kernel loaded
    (Intel's manual, volume 3, chapter 6): the gate and the code segment it
    names must be present and of the right kind, an [int] instruction needs the
    gate's privilege, and a change of privilege takes the stack from the task
    state. *)

Record entry := Entry { e_cs : Z; e_eip : Z; e_cpl : Z; e_stack : option (Z * Z); e_keeps_if : bool }.

Definition desc_at (s : core) (sel : Z) : option Z :=
  '(i, lim) ← gdtr s;
  c ← cpus s !! i;
  if 8 * (sel / 8) + 7 <=? lim then seg_word <$> gdt c !! Z.to_nat (sel / 8) else None.

(** The task state at an address. *)
Fixpoint ts_at (s : core) (a : Z) (i : nat) (l : list kcpu) : option taskstate :=
  match l with
  | [] => None
  | c :: l => if ts_addr i s =? a then Some (ts c) else ts_at s a (S i) l
  end.

Definition kernel_stack (s : core) : option (Z * Z) :=
  w ← desc_at s (tr s);
  if (desc_s w =? 0) && (desc_type w =? STS_T32A) && (desc_p w =? 1) && (sizeof_taskstate - 1 <=? desc_limit w) then
    t ← ts_at s (desc_base w) 0 (cpus s);
    Some (ss0 t, esp0 t)
  else None.

Definition enter (s : core) (int_insn : bool) (cpl : Z) (n : nat) : option entry :=
  lim ← idtr s;
  g ← (if 8 * Z.of_nat n + 7 <=? lim then idt s !! n else None);
  let w := gate_word g in
  if (desc_p w =? 1) && (desc_s w =? 0) && ((desc_type w =? STS_IG32) || (desc_type w =? STS_TG32)) && (negb int_insn || (cpl <=? desc_dpl w)) then
    d ← desc_at s (gate_sel w);
    if (desc_p d =? 1) && (desc_s d =? 1) && (8 <=? desc_type d) && (desc_dpl d <=? cpl) then
      if desc_dpl d <? cpl then
        k ← kernel_stack s;
        Some (Entry (gate_sel w) (gate_off w) (desc_dpl d) (Some k) (desc_type w =? STS_TG32))
      else Some (Entry (gate_sel w) (gate_off w) (desc_dpl d) None (desc_type w =? STS_TG32))
    else None
  else None.

Lemma ts_at_own s l i c : ∀ k,
  l !! i = Some c → 0 <= cpus_addr s → cpus_addr s + 176 * Z.of_nat (k + length l) <= 4294967296 →
  ts_at s (ts_addr (k + i) s) k l = Some (ts c).
Proof.
  revert i. induction l as [|x l IH]; intros i k Hi H0 Hl; [done|]. cbn [length] in Hl. cbn [ts_at]. destruct i as [|i].
  - rewrite Nat.add_0_r, Z.eqb_refl. by injection Hi as ->.
  - pose proof (lookup_lt_Some _ _ _ Hi) as Hlt. cbn [length] in Hlt. unfold ts_addr at 1 2. rewrite !u32_id by lia.
    rewrite (proj2 (Z.eqb_neq _ _)) by lia. replace (k + S i)%nat with (S k + i)%nat by lia. apply IH; [done|done|lia].
Qed.

Lemma tvinit_idt vectors s :
  length (idt s) = 256%nat →
  ∃ l, tvinit vectors s = Ret tt (set_idt l s) ∧
    ∀ n, (n < 256)%nat → l !! n = Some (if decide (n = T_SYSCALL) then SETGATE 1 8 (vectors n) DPL_USER else SETGATE 0 8 (vectors n) 0).
Proof.
  intros Hlen. unfold tvinit.
  assert (Hloop : ∀ k i l, (i + k <= 256)%nat → length l = 256%nat → (∀ n, (n < i)%nat → l !! n = Some (SETGATE 0 8 (vectors n) 0)) →
    ∃ l', for_ k i (λ i, modify (λ s, set_idt (<[i := SETGATE 0 (SEG_KCODE * 8) (vectors i) 0]> (idt s)) s)) (set_idt l s) = Ret tt (set_idt l' s) ∧
      length l' = 256%nat ∧ ∀ n, (n < i + k)%nat → l' !! n = Some (SETGATE 0 8 (vectors n) 0)).
  { induction k as [|k IH]; intros i l Hik Hl Hn; cbn [for_].
    { exists l. split; [done|]. split; [done|]. by rewrite Nat.add_0_r. }
    rewrite (bind_Ret _ _ _ tt (set_idt (<[i := SETGATE 0 8 (vectors i) 0]> l) s)) by done.
    destruct (IH (S i) (<[i := SETGATE 0 8 (vectors i) 0]> l)) as (l' & E & Hl' & Hn'); [lia|by rewrite length_insert| |].
    - intros n Hlt. rewrite list_lookup_insert_case by lia. case_decide; [by subst|]. apply Hn. lia.
    - exists l'. rewrite E. split; [done|]. split; [done|]. intros n Hlt. apply Hn'. lia. }
  destruct (Hloop 256%nat 0%nat (idt s)) as (l & E & Hl & Hn); [lia|done|lia|]. replace (set_idt (idt s) s) with s in E by (by destruct s).
  rewrite (bind_Ret _ _ _ _ _ E). eexists. split; [done|]. intros n Hlt. cbn [idt set_idt]. rewrite list_lookup_insert_case by (rewrite Hl; unfold T_SYSCALL; lia).
  destruct (decide (T_SYSCALL = n)) as [<-|Hne]; [by rewrite decide_True|]. rewrite decide_False by done. by apply Hn.
Qed.

(** The table of segments [seginit] leaves. *)
Definition kernel_gdt (g : list segdesc) : list segdesc :=
  <[4%nat := SEG STA_W 0 0xffffffff DPL_USER]> (<[3%nat := SEG (Z.lor STA_X STA_R) 0 0xffffffff DPL_USER]>
    (<[2%nat := SEG STA_W 0 0xffffffff 0]> (<[1%nat := SEG (Z.lor STA_X STA_R) 0 0xffffffff 0]> g))).
Definition with_gdt (g : list segdesc) (c : kcpu) : kcpu := KCpu (apicid c) (ts c) g (ncli c) (intena c) (c_proc c).

Lemma seginit_on i c s :
  on i c s → fl_if s = false → seginit s = Ret tt (set_gdtr (Some (i, 47)) (put_cpu i (with_gdt (kernel_gdt (gdt c)) c) s)).
Proof.
  intros Hon Hf. unfold seginit, cpuid. rewrite (bind_Ret _ _ _ _ _ (mycpu_on i c s Hon Hf)).
  rewrite (bind_Ret _ _ _ _ _ (upd_cpu_on i c _ s Hon)). set (c1 := set_gdt_entry SEG_KCODE _ c). assert (H1 : on i c1 (put_cpu i c1 s)) by (by apply (on_put i c)).
  rewrite (bind_Ret _ _ _ _ _ (upd_cpu_on i c1 _ _ H1)), put_put. set (c2 := set_gdt_entry SEG_KDATA _ c1).
  assert (H2 : on i c2 (put_cpu i c2 s)) by (by apply (on_put i c)). rewrite (bind_Ret _ _ _ _ _ (upd_cpu_on i c2 _ _ H2)), put_put.
  set (c3 := set_gdt_entry SEG_UCODE _ c2). assert (H3 : on i c3 (put_cpu i c3 s)) by (by apply (on_put i c)).
  rewrite (bind_Ret _ _ _ _ _ (upd_cpu_on i c3 _ _ H3)), put_put. done.
Qed.

Definition tss_desc (i : nat) (s : core) : segdesc := set_s 0 (SEG16 STS_T32A (ts_addr i s) (sizeof_taskstate - 1) 0).

Lemma switchuvm_on i c s p pr :
  on i c s → cli_ok c s → (5 < length (gdt c))%nat → ptable s !! p = Some pr → kstack pr ≠ 0 → pgdir pr ≠ 0 →
  ∃ c', switchuvm (Some p) s = Ret tt (set_cr3 (V2P (pgdir pr)) (set_tr 40 (put_cpu i c' s))) ∧ apicid c' = apicid c ∧
    gdt c' = <[5%nat := tss_desc i s]> (gdt c) ∧ ts c' = TaskState (u32 (kstack pr + KSTACKSIZE)) 16 0xffff ∧ ncli c' = ncli c ∧
    c_proc c' = c_proc c ∧ (0 < ncli c → intena c' = intena c).
Proof.
  intros Hon [Hn Hi] Hg Hp Hk Hd. unfold switchuvm. rewrite (bind_Ret _ _ s s s) by done. rewrite Hp, (bind_Ret _ _ s pr s) by done.
  rewrite !(proj2 (Z.eqb_neq _ 0)) by done. rewrite (bind_Ret _ _ _ _ _ (pushcli_on i c s Hon)).
  set (c1 := push_cpu (fl_if s) c). set (s0 := set_if false s). change (set_if false (put_cpu i c1 s)) with (put_cpu i c1 s0).
  assert (Hon0 : on i c s0) by done. assert (Ha : apicid c1 = apicid c) by (subst c1; unfold push_cpu; by destruct (_ =? _)).
  assert (Hgc : gdt c1 = gdt c) by (subst c1; unfold push_cpu; by destruct (_ =? _)). assert (Hnc : ncli c1 = ncli c + 1) by done.
  assert (Hpc : c_proc c1 = c_proc c) by (subst c1; unfold push_cpu; by destruct (_ =? _)).
  assert (Hie : 0 < ncli c → intena c1 = intena c) by (intros; subst c1; unfold push_cpu; by rewrite (proj2 (Z.eqb_neq _ _)) by lia).
  assert (Hic : (ncli c =? 0) && intena c1 = fl_if s).
  { subst c1. unfold push_cpu. destruct (Z.eqb_spec (ncli c) 0); [done|]. cbn. symmetry. apply Hi. lia. }
  clearbody c1. assert (Hput : ∀ c', apicid c' = apicid c1 → on i c' (put_cpu i c' s0)) by (intros; apply (on_put i c); congruence).
  pose proof (Hput c1 eq_refl) as H1. rewrite (bind_Ret _ _ _ _ _ (mycpu_on i c1 _ H1 eq_refl)).
  rewrite (bind_Ret _ _ _ _ _ (upd_cpu_on i c1 _ _ H1)), put_put. set (c2 := set_gdt_entry SEG_TSS _ c1). pose proof (Hput c2 eq_refl) as H2.
  rewrite (bind_Ret _ _ _ _ _ (upd_cpu_on i c2 _ _ H2)), put_put. set (c3 := clear_tss_s c2).
  assert (Hc3 : c3 = with_gdt (<[5%nat := tss_desc i s]> (gdt c1)) c1).
  { subst c3 c2. unfold clear_tss_s. unfold set_gdt_entry at 1. cbn [gdt]. change (Z.to_nat SEG_TSS) with 5%nat. rewrite list_lookup_insert_eq by (rewrite Hgc; lia).
    unfold set_gdt_entry, with_gdt. cbn [apicid ts gdt ncli intena c_proc]. change (Z.to_nat SEG_TSS) with 5%nat. by rewrite list_insert_insert_eq. }
  clearbody c3. subst c3. pose proof (Hput (with_gdt (<[5%nat := tss_desc i s]> (gdt c1)) c1) eq_refl) as H3.
  rewrite (bind_Ret _ _ _ _ _ (upd_cpu_on i _ _ _ H3)), put_put. set (c4 := set_ts _ _). pose proof (Hput c4 eq_refl) as H4.
  rewrite (bind_Ret _ _ _ tt (set_tr 40 (put_cpu i c4 s0))) by done.
  rewrite (bind_Ret _ _ _ tt (set_cr3 (V2P (pgdir pr)) (set_tr 40 (put_cpu i c4 s0)))) by done.
  rewrite (popcli_on i c4) by (done || (subst c4; cbn; lia)). exists (set_ncli (ncli c4 - 1) c4). subst c4. cbn [ncli set_ts with_gdt intena]. rewrite Hnc.
  replace (ncli c + 1 - 1) with (ncli c) by lia. rewrite Hic. split_and!; [|done|cbn; by rewrite Hgc|done|done|done|exact Hie].
  f_equal. unfold put_cpu. subst s0. destruct s. cbn. by rewrite list_insert_insert_eq.
Qed.

(** The scheduler of processor [i] with [ptable.lock] held: every process that
    can run has a stack and a page directory. *)
Record scheduling (i : nat) (c : kcpu) (s : core) : Prop := {
  sg_in : in_ptable i c s;
  sg_gdt : (5 < length (gdt c))%nat;
  sg_table : length (ptable s) = NPROC;
  sg_ready k p : ptable s !! k = Some p → state p = RUNNABLE → kstack p ≠ 0 ∧ pgdir p ≠ 0;
}.

(** What the scheduler asks of the processes it runs: they are entered on
    processor [i] as [resumes] says, with their page directory loaded and their
    slot running, and come back to it with the lock held. *)
Definition comes_back (run : C unit) (i : nat) : Prop :=
  ∀ k p c s, scheduling i c s → c_proc c = Some k → ptable s !! k = Some p → state p = RUNNING → cr3 s = V2P (pgdir p) →
  ts c = TaskState (u32 (kstack p + KSTACKSIZE)) 16 0xffff →
  ∃ c' s', run s = Ret tt s' ∧ scheduling i c' s'.

Lemma scheduler_loop_on run i n : ∀ k c s,
  comes_back run i → scheduling i c s → (k + n <= NPROC)%nat → ∃ c' s', scheduler_loop run i n k s = Ret tt s' ∧ scheduling i c' s'.
Proof.
  induction n as [|n IH]; intros k c s Hrun Hs Hk; cbn [scheduler_loop]; [by exists c, s|].
  destruct Hs as [Hin Hg Ht Hr]. destruct (lookup_lt_is_Some_2 (ptable s) k) as [p Hp]; [lia|].
  rewrite (bind_Ret _ _ s s s), Hp by done. rewrite (bind_Ret _ _ s p s) by done. case_bool_decide as Hst.
  2:{ rewrite (bind_Ret _ _ s tt s) by done. apply (IH (S k) c); [done|by split|lia]. }
  destruct Hin as (Hon & Hf & Hn & Hl). destruct (Hr k p Hp Hst) as [Hks Hpg].
  set (c1 := set_proc (Some k) c). set (s1 := put_cpu i c1 s). assert (Hon1 : on i c1 s1) by (by apply (on_put i c)).
  destruct (switchuvm_on i c1 s1 k p Hon1) as (c2 & E2 & Ha2 & Hg2 & Ht2 & Hn2 & Hp2 & _); [split; cbn; [lia|done]|done|done|done|done|].
  set (s2 := set_cr3 (V2P (pgdir p)) (set_tr 40 (put_cpu i c2 s1))) in *. set (s3 := set_ptable (alter (set_state RUNNING) k (ptable s2)) s2).
  assert (Hon3 : on i c2 s3) by (by apply (on_put i c1)). assert (Hs3 : scheduling i c2 s3).
  { split; [by split_and!; [done|done|rewrite Hn2|done]|by rewrite Hg2, length_insert|by cbn; rewrite length_alter|].
    intros j q Hq Hrun'. cbn in Hq. destruct (decide (k = j)) as [<-|Hne]; [rewrite list_lookup_alter_eq, Hp in Hq; by injection Hq as <-|].
    rewrite list_lookup_alter_ne in Hq by done. by apply (Hr j). }
  destruct (Hrun k (set_state RUNNING p) c2 s3 Hs3) as (c4 & s4 & E4 & [Hin4 Hg4 Ht4 Hr4]); [done|by cbn; rewrite list_lookup_alter_eq, Hp|done|done|done|].
  pose proof Hin4 as (Hon4 & Hf4 & Hn4 & Hl4). set (s5 := set_cr3 (V2P (kpgdir s4)) s4). set (c6 := set_proc None c4). set (s6 := put_cpu i c6 s5).
  assert (Hon5 : on i c4 s5) by done.
  rewrite (bind_Ret _ _ _ tt s6).
  - apply (IH (S k) c6); [done| |lia]. split; [|done|done|done]. split_and!; [by apply (on_put i c4)|done|done|done].
  - rewrite (bind_Ret _ _ _ _ _ (upd_cpu_on i c _ s Hon)), (bind_Ret _ _ _ _ _ E2), (bind_Ret _ _ _ tt s3), (bind_Ret _ _ _ _ _ E4), (bind_Ret _ _ _ tt s5) by done.
    by rewrite (upd_cpu_on i c4).
Qed.

(** A round of the scheduler passes all checks, runs every process it picks as
    [comes_back] says, and ends outside the critical section with the lock
    free. *)
Theorem scheduler_round_returns run i c s :
  comes_back run i → on i c s → ncli c = 0 → locked (plock s) = 0 → (5 < length (gdt c))%nat → length (ptable s) = NPROC →
  (∀ k p, ptable s !! k = Some p → state p = RUNNABLE → kstack p ≠ 0 ∧ pgdir p ≠ 0) →
  ∃ c' s', scheduler_round run i s = Ret tt s' ∧ on i c' s' ∧ ncli c' = 0 ∧ plock s' = Spin 0 None.
Proof.
  intros Hrun Hon Hn Hl Hg Ht Hr. unfold scheduler_round. set (s0 := set_if true s). rewrite (bind_Ret _ _ _ tt s0) by done.
  destruct (acquire_on i c s0) as (c1 & s1 & E1 & Hin1 & Hi1 & _ & Ht1 & Hg1); [done|done|done|]. rewrite (bind_Ret _ _ _ _ _ E1).
  destruct (scheduler_loop_on run i NPROC 0 c1 s1 Hrun) as (c2 & s2 & E2 & [Hin2 _ _ _]); [|lia|].
  { split; [done|by rewrite Hg1|by rewrite Ht1|by rewrite Ht1]. }
  rewrite (bind_Ret _ _ _ _ _ E2), (release_on i c2 s2 Hin2). exists (set_ncli 0 c2). eexists. split; [done|].
  split_and!; [|done|done]. destruct Hin2 as (Hon2 & _). by apply on_if, (on_put i c2).
Qed.

(** What a started processor finds: its own descriptors, gates for every
    vector, and the task state of the process. *)
Lemma desc_at_put s i c lim k d :
  gdtr s = Some (i, lim) → cpus s !! i = Some c → 8 * k + 7 <= lim → 0 <= k → gdt c !! Z.to_nat k = Some d →
  desc_at s (8 * k) = Some (seg_word d).
Proof.
  intros Hg Hc Hl Hk Hd. unfold desc_at. rewrite Hg. cbn [mbind option_bind]. rewrite Hc. cbn [mbind option_bind].
  rewrite (Z.mul_comm 8 k), Z.div_mul, Z.mul_comm by lia. by rewrite (proj2 (Z.leb_le _ _)), Hd by lia.
Qed.

Lemma kernel_gdt_lookup g : length g = 6%nat →
  kernel_gdt g !! 1%nat = Some (SEG (Z.lor STA_X STA_R) 0 0xffffffff 0) ∧ kernel_gdt g !! 2%nat = Some (SEG STA_W 0 0xffffffff 0) ∧
  kernel_gdt g !! 3%nat = Some (SEG (Z.lor STA_X STA_R) 0 0xffffffff DPL_USER) ∧ kernel_gdt g !! 4%nat = Some (SEG STA_W 0 0xffffffff DPL_USER).
Proof. intros Hl. do 6 (destruct g as [|? g]; [done|]). by destruct g. Qed.

Lemma enter_with s int_insn cpl n g :
  idtr s = Some 2047 → (n < 256)%nat → idt s !! n = Some g →
  desc_at s 8 = Some (seg_word (SEG (Z.lor STA_X STA_R) 0 0xffffffff 0)) → 0 <= cpl →
  ∀ istrap off d, g = SETGATE istrap 8 off d → 0 <= d < 4 →
  enter s int_insn cpl n =
    if negb int_insn || (cpl <=? d) then
      if 0 <? cpl then k ← kernel_stack s; Some (Entry 8 (u32 off) 0 (Some k) (negb (istrap =? 0)))
      else Some (Entry 8 (u32 off) 0 None (negb (istrap =? 0)))
    else None.
Proof.
  intros Hi Hn Hg Hd Hc istrap off d -> Hd4. unfold enter. rewrite Hi. cbn [mbind option_bind]. rewrite (proj2 (Z.leb_le _ _)) by lia. rewrite Hg.
  cbn [mbind option_bind]. destruct (gate_word_fields istrap 8 off d) as (-> & -> & -> & -> & -> & ->); [unfold is_u16; lia|done|].
  rewrite Hd. cbn [mbind option_bind]. change (desc_p (seg_word _)) with 1. change (desc_s (seg_word _)) with 1.
  change (desc_type (seg_word _)) with 10. change (desc_dpl (seg_word _)) with 0. rewrite (proj2 (Z.leb_le 0 cpl)) by lia.
  destruct (istrap =? 0); cbn; by destruct (negb int_insn || (cpl <=? d)).
Qed.

(** The state after start-up and [switchuvm]. *)
Definition boot (vectors : nat → Z) (p : nat) : C unit := tvinit vectors ;; idtinit ;; seginit ;; switchuvm (Some p).

(** What [boot] needs: interrupts off, tables of their full size, a process with
    a stack and a page directory, and the processors inside the address space. *)
Record bootable (s : core) (i : nat) (c : kcpu) (p : nat) (pr : proc) : Prop := {
  bt_on : on i c s;
  bt_if : fl_if s = false;
  bt_ncli : 0 <= ncli c;
  bt_gdt : length (gdt c) = NSEGS;
  bt_idt : length (idt s) = 256%nat;
  bt_proc : ptable s !! p = Some pr;
  bt_stack : kstack pr ≠ 0;
  bt_pgdir : pgdir pr ≠ 0;
  bt_addr : 0 <= cpus_addr s;
  bt_space : cpus_addr s + 176 * Z.of_nat (length (cpus s)) <= 4294967296;
}.

Lemma boot_state vectors s i c p pr :
  bootable s i c p pr →
  ∃ s', boot vectors p s = Ret tt s' ∧ cr3 s' = V2P (pgdir pr) ∧ fl_if s' = false ∧ idtr s' = Some 2047 ∧
    desc_at s' 8 = Some (seg_word (SEG (Z.lor STA_X STA_R) 0 0xffffffff 0)) ∧
    desc_at s' 24 = Some (seg_word (SEG (Z.lor STA_X STA_R) 0 0xffffffff DPL_USER)) ∧
    desc_at s' 32 = Some (seg_word (SEG STA_W 0 0xffffffff DPL_USER)) ∧
    kernel_stack s' = Some (16, u32 (kstack pr + KSTACKSIZE)) ∧
    ∀ n, (n < 256)%nat → idt s' !! n = Some (if decide (n = T_SYSCALL) then SETGATE 1 8 (vectors n) DPL_USER else SETGATE 0 8 (vectors n) 0).
Proof.
  intros [Hon Hf Hn Hg Hi Hp Hk Hd Ha Hs]. unfold boot. destruct (tvinit_idt vectors s Hi) as (l & E & Hl). rewrite (bind_Ret _ _ _ _ _ E).
  set (s1 := set_idtr (Some 2047) (set_idt l s)). rewrite (bind_Ret _ _ _ tt s1) by done.
  assert (Hon1 : on i c s1) by done. rewrite (bind_Ret _ _ _ _ _ (seginit_on i c s1 Hon1 Hf)). set (c1 := with_gdt (kernel_gdt (gdt c)) c).
  assert (Hon2 : on i c1 (set_gdtr (Some (i, 47)) (put_cpu i c1 s1))) by (by apply (on_put i c)).
  assert (Hlen : length (kernel_gdt (gdt c)) = 6%nat) by (unfold kernel_gdt; by rewrite !length_insert).
  destruct (switchuvm_on i c1 _ p pr Hon2) as (c2 & E2 & Ha2 & Hg2 & Ht2 & _); [by split|cbn; lia|done|done|done|]. rewrite E2. eexists. split; [done|].
  set (s' := set_cr3 _ _). assert (Hc : cpus s' !! i = Some c2).
  { subst s'. cbn. rewrite !list_insert_insert_eq. apply list_lookup_insert_eq. destruct Hon as [_ Hc]. by eapply lookup_lt_Some. }
  destruct (kernel_gdt_lookup (gdt c) Hg) as (G1 & _ & G3 & G4).
  assert (Hdesc : ∀ k d, 0 <= k < 5 → kernel_gdt (gdt c) !! Z.to_nat k = Some d → desc_at s' (8 * k) = Some (seg_word d)).
  { intros k d Hk5 Hkd. apply (desc_at_put s' i c2 47); [done|done|lia|lia|]. rewrite Hg2, list_lookup_insert_ne by lia. done. }
  split_and!; [done|done|done|by apply (Hdesc 1)|by apply (Hdesc 3)|by apply (Hdesc 4)| |exact Hl].
  unfold kernel_stack. change (tr s') with (8 * 5). rewrite (desc_at_put s' i c2 47 5 (tss_desc i s)) by (done || lia || (rewrite Hg2; apply list_lookup_insert_eq; cbn; lia)).
  cbn [mbind option_bind]. unfold tss_desc.
  destruct (tss_word_fields STS_T32A (ts_addr i s) (sizeof_taskstate - 1) 0) as (-> & -> & -> & -> & _ & ->);
    [apply u32_range|unfold is_u16, sizeof_taskstate; lia|unfold STS_T32A; lia|lia|]. cbn [Z.eqb andb].
  change ((_ && _)) with true. cbv iota. change (ts_addr i s) with (ts_addr (0 + i) s'). rewrite (ts_at_own s' (cpus s') i c2); [|done|done|].
  - cbn [mbind option_bind]. by rewrite Ht2.
  - subst s'. cbn. by rewrite !length_insert.
Qed.

(** C11: the way into the kernel.  After the kernel has filled and loaded its
    tables and switched to a process, every interrupt and exception enters at
    the address of its vector in the kernel's code segment at privilege 0, on
    the kernel stack of the process when it comes from user mode, with
    interrupts turned off; the [int] instruction gets a user program in only
    through vector 64, the system call, which leaves interrupts on; and the
    segments of user mode are flat. *)
Theorem traps_enter_kernel vectors s i c p pr :
  bootable s i c p pr →
  ∃ s', boot vectors p s = Ret tt s' ∧ cr3 s' = V2P (pgdir pr) ∧
    (∀ n, (n < 256)%nat →
      let stack := (SEG_KDATA * 8, u32 (kstack pr + KSTACKSIZE)) in
      let at_vector k := Some (Entry (SEG_KCODE * 8) (u32 (vectors n)) 0 k (bool_decide (n = T_SYSCALL))) in
      enter s' true 3 n = (if decide (n = T_SYSCALL) then at_vector (Some stack) else None) ∧
      enter s' false 3 n = at_vector (Some stack) ∧
      enter s' false 0 n = at_vector None) ∧
    (∀ sel, sel = SEG_UCODE * 8 ∨ sel = SEG_UDATA * 8 → ∃ w, desc_at s' sel = Some w ∧ desc_dpl w = DPL_USER ∧ desc_base w = 0 ∧ desc_limit w = 0xffffffff).
Proof.
  intros Hb. destruct (boot_state vectors s i c p pr Hb) as (s' & E & Hc & _ & Hidt & D1 & D3 & D4 & Hk & Hl). exists s'. split_and!; [done|done| |].
  - intros n Hn. specialize (Hl n Hn). cbn zeta. destruct (decide (n = T_SYSCALL)) as [Hs|Hs].
    + rewrite bool_decide_true by done.
      pose proof (λ b cpl Hcpl, enter_with s' b cpl n _ Hidt Hn Hl D1 Hcpl 1 (vectors n) DPL_USER eq_refl ltac:(unfold DPL_USER; lia)) as He.
      by rewrite !He, Hk by lia.
    + rewrite bool_decide_false by done.
      pose proof (λ b cpl Hcpl, enter_with s' b cpl n _ Hidt Hn Hl D1 Hcpl 0 (vectors n) 0 eq_refl ltac:(lia)) as He.
      by rewrite !He, Hk by lia.
  - intros sel [-> | ->]; [change (SEG_UCODE * 8) with 24; rewrite D3|change (SEG_UDATA * 8) with 32; rewrite D4]; eexists; (split; [done|by vm_compute]).
Qed.

(** ** Back traces *)

Definition frame_ends (ebp : Z) : bool := (ebp =? 0) || (ebp <? KERNBASE) || (ebp =? 0xffffffff).

(** The return addresses [pcs] of the frames linked from [ebp]. *)
Inductive frames (rd : Z → option Z) : Z → list Z → Prop :=
| frames_end ebp : frame_ends ebp = true → frames rd ebp []
| frames_next ebp pc next pcs :
    frame_ends ebp = false → rd (u32 (ebp + 4)) = Some pc → rd ebp = Some next → frames rd next pcs → frames rd ebp (pc :: pcs).

(** [getcallerpcs] records the innermost ten return addresses, and zeros after
    them when there are fewer. *)
Theorem getcallerpcs_frames rd v pcs :
  frames rd (u32 (v - 8)) pcs → getcallerpcs rd v = Some (take 10 (pcs ++ replicate 10 0)).
Proof.
  intros Hf. assert (H : ∀ n ebp pcs, frames rd ebp pcs → caller_pcs n rd ebp = Some (take n pcs)).
  { clear. induction n as [|n IH]; intros ebp pcs Hf; [done|]. cbn [caller_pcs]. fold (frame_ends ebp).
    destruct Hf as [ebp He|ebp pc next pcs He Hpc Hn Hf]; rewrite He; [done|]. rewrite Hpc. cbn [mbind option_bind]. rewrite Hn. cbn [mbind option_bind].
    by rewrite (IH _ _ Hf). }
  unfold getcallerpcs. rewrite (H _ _ _ Hf). cbn [mbind option_bind]. f_equal. rewrite take_app, take_replicate, length_take.
  destruct (decide (length pcs <= 10)%nat); f_equal; f_equal; lia.
Qed.

(** ** A machine with two processors *)

Definition ex_cpu (id : Z) (n : Z) (ie : bool) (p : option nat) : kcpu := KCpu id (TaskState 0 0 0) (replicate 6 (SEG 0 0 0 0)) n ie p.
Definition ex_proc : proc := Proc 4096 0x80400000 0x80401000 RUNNING 1 None 0 0 None 0 [] None [].
Definition ex_core : core :=
  Core [ex_cpu 0 0 false (Some 0%nat); ex_cpu 1 0 false None] 2 0x80110000 [ex_proc] (Spin 0 None) (replicate 256 (SETGATE 0 0 0 0)) 0 true 0 true None None 0 0.

(** The scheduler of processor 1, which runs with interrupts off, takes over the
    thread of processor 0. *)
Definition ex_swtch : C unit := λ s,
  Ret tt (Core [ex_cpu 0 0 false None; ex_cpu 1 1 false (Some 0%nat)] 2 (cpus_addr s) (ptable s) (Spin 1 (Some 1%nat)) (idt s) (kpgdir s) (first s) 1 false (gdtr s) (idtr s) (tr s) (cr3 s)).

Lemma yield_keeps_interrupts_witness :
  resumes ex_swtch 0 ∧ ∃ s', yield ex_swtch ex_core = Ret tt s' ∧ fl_if s' = true ∧ hw_id s' = 1.
Proof.
  assert (Hr : resumes ex_swtch 0).
  { intros i c s _ _ _. exists 1%nat, (ex_cpu 1 1 false (Some 0%nat)). eexists. split; [reflexivity|]. by split_and!. }
  split; [exact Hr|].
  destruct (yield_keeps_interrupts ex_swtch ex_core 0 (ex_cpu 0 0 false (Some 0%nat)) 0 ex_proc Hr) as (j & c' & s' & E & _ & _ & _ & Hf); try done.
  exists s'. split; [exact E|]. split; [exact Hf|]. vm_compute in E. by injection E as <-.
Defined.

Definition ex_boot : core := set_if false ex_core.

Lemma traps_enter_kernel_witness :
  ∃ s', boot (λ n, 0x80100000 + Z.of_nat n) 0 ex_boot = Ret tt s' ∧
    enter s' true 3 64 = Some (Entry 8 0x80100040 0 (Some (16, 0x80402000)) true) ∧ enter s' true 3 14 = None.
Proof.
  assert (Hb : bootable ex_boot 0 (ex_cpu 0 0 false (Some 0%nat)) 0 ex_proc) by (split; vm_compute; done).
  destruct (traps_enter_kernel (λ n, 0x80100000 + Z.of_nat n) ex_boot 0 (ex_cpu 0 0 false (Some 0%nat)) 0 ex_proc Hb) as (s' & E & _ & H & _).
  exists s'. split; [exact E|]. split; [exact (proj1 (H 64%nat ltac:(lia)))|exact (proj1 (H 14%nat ltac:(lia)))].
Defined.
