(* ===== verification/Apic.v ===== *)
(** * Interrupt controllers, clock and serial port: lapic.c, ioapic.c, picirq.c, uart.c

    The devices are a parameter, the class [Hw]: reads and writes of I/O ports
    and of device memory on a state of which only the laws of a class per device
    are known, taken from the data sheets: [IoapicOk] the index and data window
    of the I/O APIC, [RtcOk] the clock, [UartOk] the serial port, [LapicOk] the
    local APIC.  Messages on the console are left out, and [microdelay] is
    empty. *)

From S2P Require Import Prelude Param.

Class Hw (D : Type) := {
  inb_ : Z → D → Z * D;
  outb_ : Z → Z → D → D;
  ld32 : Z → D → Z * D;
  st32 : Z → Z → D → D;
  st16 : Z → Z → D → D;
}.

(** [lapic] and [uart] are the global variables. *)
Record dev (D : Type) := Dev { lapic : Z; uart : Z; hw : D }.
Arguments Dev {D} lapic uart hw.
Arguments lapic {D} d.
Arguments uart {D} d.
Arguments hw {D} d.

Section code.
Context {D : Type} `{Hw D}.
Abbreviation A := (M (dev D)).

Definition reading (f : D → Z * D) : A Z := λ s, let '(v, d) := f (hw s) in Ret v (Dev (lapic s) (uart s) d).
Definition writing (f : D → D) : A unit := modify (λ s, Dev (lapic s) (uart s) (f (hw s))).
Definition inb (port : Z) : A Z := reading (inb_ port).
Definition outb (port v : Z) : A unit := writing (outb_ port (u8 v)).

(** ** picirq.c *)

Definition IO_PIC1 : Z := 0x20.
Definition IO_PIC2 : Z := 0xA0.
Definition picinit : A unit :=
  outb (IO_PIC1 + 1) 0xFF ;;
  outb (IO_PIC2 + 1) 0xFF.

(** ** ioapic.c *)

Definition IOAPIC : Z := 0xFEC00000.
Definition REG_ID : Z := 0.
Definition REG_VER : Z := 1.
Definition REG_TABLE : Z := 0x10.
Definition INT_DISABLED : Z := 0x10000.
Definition T_IRQ0 : Z := 32.

Definition ioapicread (reg : Z) : A Z :=
  writing (st32 IOAPIC (u32 reg)) ;;
  reading (ld32 (IOAPIC + 16)).
Definition ioapicwrite (reg data : Z) : A unit :=
  writing (st32 IOAPIC (u32 reg)) ;;
  writing (st32 (IOAPIC + 16) (u32 data)).

Definition ioapicinit : A unit :=
  v ← ioapicread REG_VER;
  let maxintr := Z.land (Z.shiftr v 16) 0xFF in
  _ ← ioapicread REG_ID;
  for_ (S (Z.to_nat maxintr)) 0 (λ i,
    ioapicwrite (REG_TABLE + 2 * Z.of_nat i) (Z.lor INT_DISABLED (T_IRQ0 + Z.of_nat i)) ;;
    ioapicwrite (REG_TABLE + 2 * Z.of_nat i + 1) 0).

Definition ioapicenable (irq cpunum : Z) : A unit :=
  ioapicwrite (REG_TABLE + 2 * irq) (T_IRQ0 + irq) ;;
  ioapicwrite (REG_TABLE + 2 * irq + 1) (Z.shiftl cpunum 24).

(** ** lapic.c: the registers, as indices of words *)

Definition ID : Z := 0x20 / 4.
Definition VER : Z := 0x30 / 4.
Definition TPR : Z := 0x80 / 4.
Definition EOI : Z := 0xB0 / 4.
Definition SVR : Z := 0xF0 / 4.
Definition ENABLE : Z := 0x100.
Definition ESR : Z := 0x280 / 4.
Definition ICRLO : Z := 0x300 / 4.
Definition INIT : Z := 0x500.
Definition STARTUP : Z := 0x600.
Definition DELIVS : Z := 0x1000.
Definition ASSERT : Z := 0x4000.
Definition LEVEL : Z := 0x8000.
Definition BCAST : Z := 0x80000.
Definition ICRHI : Z := 0x310 / 4.
Definition TIMER : Z := 0x320 / 4.
Definition X1 : Z := 0xB.
Definition PERIODIC : Z := 0x20000.
Definition PCINT : Z := 0x340 / 4.
Definition LINT0 : Z := 0x350 / 4.
Definition LINT1 : Z := 0x360 / 4.
Definition ERROR : Z := 0x370 / 4.
Definition MASKED : Z := 0x10000.
Definition TICR : Z := 0x380 / 4.
Definition TDCR : Z := 0x3E0 / 4.
Definition IRQ_TIMER : Z := 0.
Definition IRQ_COM1 : Z := 4.
Definition IRQ_ERROR : Z := 19.
Definition IRQ_SPURIOUS : Z := 31.

Definition lapicr (index : Z) : A Z := s ← get; reading (ld32 (lapic s + 4 * index)).
Definition lapicw (index value : Z) : A unit :=
  s ← get;
  writing (st32 (lapic s + 4 * index) (u32 value)) ;;
  _ ← lapicr ID;
  mret tt.

(** [while(lapic[ICRLO] & DELIVS) ;] *)
Fixpoint wait_delivery (fuel : nat) : A unit :=
  match fuel with
  | O => diverge
  | S fuel => v ← lapicr ICRLO; if Z.land v DELIVS =? 0 then mret tt else wait_delivery fuel
  end.

Definition lapicinit (fuel : nat) : A unit :=
  s ← get;
  if lapic s =? 0 then mret tt else
  lapicw SVR (Z.lor ENABLE (T_IRQ0 + IRQ_SPURIOUS)) ;;
  lapicw TDCR X1 ;;
  lapicw TIMER (Z.lor PERIODIC (T_IRQ0 + IRQ_TIMER)) ;;
  lapicw TICR 10000000 ;;
  lapicw LINT0 MASKED ;;
  lapicw LINT1 MASKED ;;
  v ← lapicr VER;
  when (4 <=? Z.land (Z.shiftr v 16) 0xFF) (lapicw PCINT MASKED) ;;
  lapicw ERROR (T_IRQ0 + IRQ_ERROR) ;;
  lapicw ESR 0 ;;
  lapicw ESR 0 ;;
  lapicw EOI 0 ;;
  lapicw ICRHI 0 ;;
  lapicw ICRLO (Z.lor (Z.lor BCAST INIT) LEVEL) ;;
  wait_delivery fuel ;;
  lapicw TPR 0.

Definition lapicid : A Z :=
  s ← get;
  if lapic s =? 0 then mret 0 else
  v ← lapicr ID;
  mret (Z.shiftr v 24).

Definition lapiceoi : A unit :=
  s ← get;
  if lapic s =? 0 then mret tt else lapicw EOI 0.

Definition CMOS_PORT : Z := 0x70.
Definition CMOS_RETURN : Z := 0x71.

Definition lapicstartap (apicid addr : Z) : A unit :=
  outb CMOS_PORT 0xF ;;
  outb (CMOS_PORT + 1) 0x0A ;;
  let wrv := P2V (Z.lor (Z.shiftl 0x40 4) 0x67) in
  writing (st16 wrv 0) ;;
  writing (st16 (wrv + 2) (u16 (Z.shiftr addr 4))) ;;
  lapicw ICRHI (Z.shiftl apicid 24) ;;
  lapicw ICRLO (Z.lor (Z.lor INIT LEVEL) ASSERT) ;;
  lapicw ICRLO (Z.lor INIT LEVEL) ;;
  for_ 2 0 (λ _,
    lapicw ICRHI (Z.shiftl apicid 24) ;;
    lapicw ICRLO (Z.lor STARTUP (Z.shiftr addr 12))).

(** ** lapic.c: the time of day *)

Definition CMOS_STATA : Z := 0x0a.
Definition CMOS_STATB : Z := 0x0b.
Definition CMOS_UIP : Z := 128.
Definition SECS : Z := 0x00.
Definition MINS : Z := 0x02.
Definition HOURS : Z := 0x04.
Definition DAY : Z := 0x07.
Definition MONTH : Z := 0x08.
Definition YEAR : Z := 0x09.

Record rtcdate := RtcDate { second : Z; minute : Z; hour : Z; day : Z; month : Z; year : Z }.
#[export] Instance rtcdate_eq : EqDecision rtcdate.
Proof. solve_decision. Defined.

Definition cmos_read (reg : Z) : A Z :=
  outb CMOS_PORT reg ;;
  inb CMOS_RETURN.

Definition fill_rtcdate : A rtcdate :=
  s ← cmos_read SECS;
  m ← cmos_read MINS;
  h ← cmos_read HOURS;
  d ← cmos_read DAY;
  mo ← cmos_read MONTH;
  y ← cmos_read YEAR;
  mret (RtcDate s m h d mo y).

(** [for(;;)]: the time read twice in a row with no update in progress. *)
Fixpoint stable_time (fuel : nat) : A rtcdate :=
  match fuel with
  | O => diverge
  | S fuel =>
      t1 ← fill_rtcdate;
      sa ← cmos_read CMOS_STATA;
      if negb (Z.land sa CMOS_UIP =? 0) then stable_time fuel else
      t2 ← fill_rtcdate;
      if bool_decide (t1 = t2) then mret t1 else stable_time fuel
  end.

Definition CONV (x : Z) : Z := u32 (Z.shiftr x 4 * 10 + Z.land x 0xf).

Definition cmostime (fuel : nat) : A rtcdate :=
  sb ← cmos_read CMOS_STATB;
  let bcd := Z.land sb (Z.shiftl 1 2) =? 0 in
  t1 ← stable_time fuel;
  let t1 := if bcd : bool then RtcDate (CONV (second t1)) (CONV (minute t1)) (CONV (hour t1)) (CONV (day t1)) (CONV (month t1)) (CONV (year t1)) else t1 in
  mret (RtcDate (second t1) (minute t1) (hour t1) (day t1) (month t1) (u32 (year t1 + 2000))).

(** ** uart.c *)

Definition COM1 : Z := 0x3f8.

(** [for(i = 0; i < 128 && !(inb(COM1+5) & 0x20); i++) microdelay(10);] *)
Fixpoint wait_thr (n : nat) : A unit :=
  match n with
  | O => mret tt
  | S n => v ← inb (COM1 + 5); if Z.land v 0x20 =? 0 then wait_thr n else mret tt
  end.

Definition uartputc (c : Z) : A unit :=
  s ← get;
  if uart s =? 0 then mret tt else
  wait_thr 128 ;;
  outb (COM1 + 0) c.

Fixpoint uartputs (l : list Z) : A unit :=
  match l with
  | [] => mret tt
  | c :: l => uartputc c ;; uartputs l
  end.

(** "xv6...\n" *)
Definition banner : list Z := [120; 118; 54; 46; 46; 46; 10].

Definition uartinit : A unit :=
  outb (COM1 + 2) 0 ;;
  outb (COM1 + 3) 0x80 ;;
  outb (COM1 + 0) (115200 / 9600) ;;
  outb (COM1 + 1) 0 ;;
  outb (COM1 + 3) 0x03 ;;
  outb (COM1 + 4) 0 ;;
  outb (COM1 + 1) 0x01 ;;
  v ← inb (COM1 + 5);
  if v =? 0xFF then mret tt else
  modify (λ s, Dev (lapic s) 1 (hw s)) ;;
  _ ← inb (COM1 + 2);
  _ ← inb (COM1 + 0);
  ioapicenable IRQ_COM1 0 ;;
  uartputs banner.

(** debug.c: the port is set up again for every character. *)
Definition uart_debug (p : Z) : A unit :=
  outb (COM1 + 2) 0 ;;
  outb (COM1 + 3) 0x80 ;;
  outb (COM1 + 0) (115200 / 9600) ;;
  outb (COM1 + 1) 0 ;;
  outb (COM1 + 3) 0x03 ;;
  outb (COM1 + 4) 0 ;;
  wait_thr 128 ;;
  outb (COM1 + 0) p.

Fixpoint uart_debugs (l : list Z) : A unit :=
  match l with
  | [] => mret tt
  | c :: l => uart_debug c ;; uart_debugs l
  end.

Definition uartgetc : A Z :=
  s ← get;
  if uart s =? 0 then mret (-1) else
  v ← inb (COM1 + 5);
  if Z.land v 0x01 =? 0 then mret (-1) else inb (COM1 + 0).
End code.

(** ** The clock *)

(** A run of the clock: how many updates it has made when it is accessed for the
    [a]th time, the date after the [n]th update, whether an update is under way,
    what a register of the date reads as while it is, the status registers. *)
Record clock := Clock {
  shown : nat → nat; date : nat → rtcdate; busy : nat → bool; noise : Z → nat → Z; stata : nat → Z; statb : Z }.

Definition binary (k : clock) : bool := negb (Z.land (statb k) 4 =? 0).
Definition encode (k : clock) (x : Z) : Z := if binary k then x else 16 * (x / 10) + x mod 10.

(** What register [r] reads as at the [a]th access: during an update the
    registers of the date are undefined. *)
Definition rtc_reg (k : clock) (r : Z) (a : nat) : Z :=
  let d := date k (shown k a) in
  let show x := if busy k a then noise k r a else encode k x in
  if r =? SECS then show (second d) else if r =? MINS then show (minute d) else if r =? HOURS then show (hour d)
  else if r =? DAY then show (day d) else if r =? MONTH then show (month d) else if r =? YEAR then show (year d)
  else if r =? CMOS_STATA then stata k a else statb k.

(** The device shows the clock: port 0x70 selects a register, port 0x71 reads
    it. *)
Class RtcOk (D : Type) `{Hw D} (k : clock) := {
  rtc_age : D → nat;
  rtc_sel : D → Z;
  rtc_out v d : 0 <= v < 128 → rtc_age (outb_ CMOS_PORT v d) = S (rtc_age d) ∧ rtc_sel (outb_ CMOS_PORT v d) = v;
  rtc_in d v d' : inb_ CMOS_RETURN d = (v, d') → v = rtc_reg k (rtc_sel d) (rtc_age d) ∧ rtc_age d' = S (rtc_age d);
}.

Definition in_century (d : rtcdate) : Prop :=
  Forall (λ x, 0 <= x < 100) [second d; minute d; hour d; day d; month d; year d].

(** What the data sheet promises: the time only goes forward; while UIP reads
    as clear no update begins for at least 244 us, which is longer than the
    thirteen accesses (of about a microsecond) the loop makes after it reads UIP;
    and, an update coming once a second, within [wait] accesses there is a stretch
    of 52 in which UIP is clear. *)
Record clock_ok (k : clock) (wait : nat) : Prop := {
  ck_mono a b : (a <= b)%nat → (shown k a <= shown k b)%nat;
  ck_uip a i : Z.land (stata k a) CMOS_UIP = 0 → (a <= i <= a + 13)%nat → busy k i = false ∧ shown k i = shown k a;
  ck_date n : in_century (date k n);
  ck_quiet a : ∃ j, (a <= j <= a + wait)%nat ∧ ∀ i, (j <= i <= j + 52)%nat → Z.land (stata k i) CMOS_UIP = 0;
}.

Section rtc.
Context {D : Type} `{Hw D} (k : clock) `{!RtcOk D k} (wait : nat) (Hk : clock_ok k wait).

Definition age (s : dev D) : nat := rtc_age (hw s).

Lemma cmos_read_spec r s : 0 <= r < 128 → ∃ s', cmos_read r s = Ret (rtc_reg k r (age s + 1)) s' ∧ age s' = (age s + 2)%nat.
Proof.
  intros Hr. unfold cmos_read, outb. rewrite u8_id by lia. rewrite (bind_Ret _ _ _ tt (Dev (lapic s) (uart s) (outb_ CMOS_PORT r (hw s)))) by done.
  destruct (rtc_out r (hw s) Hr) as [Ha Hs]. unfold inb, reading. cbn [hw lapic uart]. destruct (inb_ CMOS_RETURN (outb_ CMOS_PORT r (hw s))) as [v d'] eqn:E.
  destruct (rtc_in _ _ _ E) as [-> Ha']. exists (Dev (lapic s) (uart s) d'). unfold age. cbn [hw].
  rewrite Hs, Ha', Ha. split; [|lia]. do 2 f_equal. lia.
Qed.

(** What one pass reads when it starts at the access [a]. *)
Definition read_at (a : nat) : rtcdate :=
  RtcDate (rtc_reg k SECS (a + 1)) (rtc_reg k MINS (a + 3)) (rtc_reg k HOURS (a + 5)) (rtc_reg k DAY (a + 7)) (rtc_reg k MONTH (a + 9)) (rtc_reg k YEAR (a + 11)).

Lemma fill_rtcdate_spec s : ∃ s', fill_rtcdate s = Ret (read_at (age s)) s' ∧ age s' = (age s + 12)%nat.
Proof.
  unfold fill_rtcdate.
  destruct (cmos_read_spec SECS s) as (s1 & E1 & A1); [unfold SECS; lia|]. rewrite (bind_Ret _ _ _ _ _ E1).
  destruct (cmos_read_spec MINS s1) as (s2 & E2 & A2); [unfold MINS; lia|]. rewrite (bind_Ret _ _ _ _ _ E2).
  destruct (cmos_read_spec HOURS s2) as (s3 & E3 & A3); [unfold HOURS; lia|]. rewrite (bind_Ret _ _ _ _ _ E3).
  destruct (cmos_read_spec DAY s3) as (s4 & E4 & A4); [unfold DAY; lia|]. rewrite (bind_Ret _ _ _ _ _ E4).
  destruct (cmos_read_spec MONTH s4) as (s5 & E5 & A5); [unfold MONTH; lia|]. rewrite (bind_Ret _ _ _ _ _ E5).
  destruct (cmos_read_spec YEAR s5) as (s6 & E6 & A6); [unfold YEAR; lia|]. rewrite (bind_Ret _ _ _ _ _ E6).
  exists s6. split; [|lia]. unfold read_at. by rewrite A5, A4, A3, A2, A1, <- !Nat.add_assoc.
Qed.

Definition encoded (d : rtcdate) : rtcdate :=
  RtcDate (encode k (second d)) (encode k (minute d)) (encode k (hour d)) (encode k (day d)) (encode k (month d)) (encode k (year d)).

(** A pass without an update reads the date. *)
Lemma read_at_still a n :
  (∀ i, (a + 1 <= i <= a + 11)%nat → busy k i = false ∧ shown k i = n) → read_at a = encoded (date k n).
Proof.
  intros Hs. unfold read_at, encoded, rtc_reg. cbn.
  by rewrite !(λ i Hi, proj1 (Hs i Hi)), !(λ i Hi, proj2 (Hs i Hi)) by lia.
Qed.

(** The pass that follows a clear UIP, read at the access [a]. *)
Lemma read_after_uip a : Z.land (stata k a) CMOS_UIP = 0 → read_at (a + 1) = encoded (date k (shown k a)).
Proof. intros Hu. apply read_at_still. intros i Hi. apply (ck_uip k wait Hk a i Hu). lia. Qed.

(** A stretch in which UIP is clear shows one date. *)
Lemma quiet_still j n :
  (∀ i, (j <= i <= j + n)%nat → Z.land (stata k i) CMOS_UIP = 0) →
  ∀ i, (j <= i <= j + n)%nat → busy k i = false ∧ shown k i = shown k j.
Proof.
  intros Hq i Hi. destruct Hi as [Hji Hin]. induction Hji as [|i Hji IH].
  - apply (ck_uip k wait Hk j j (Hq j ltac:(lia))). lia.
  - destruct IH as [_ <-]; [lia|]. apply (ck_uip k wait Hk i (S i) (Hq i ltac:(lia))). lia.
Qed.

Lemma stable_time_spec fuel : ∀ s j,
  (age s <= j + 26)%nat → (j < age s + fuel)%nat → (0 < fuel)%nat →
  (∀ i, (j <= i <= j + 52)%nat → Z.land (stata k i) CMOS_UIP = 0) →
  ∃ n s', stable_time fuel s = Ret (encoded (date k n)) s' ∧ (shown k (age s) <= n <= shown k (age s'))%nat.
Proof.
  induction fuel as [|fuel IH]; intros s j Hj Hf Hpos Hq; [lia|]. cbn [stable_time].
  destruct (fill_rtcdate_spec s) as (s1 & E1 & A1). rewrite (bind_Ret _ _ _ _ _ E1).
  destruct (cmos_read_spec CMOS_STATA s1) as (s2 & E2 & A2); [unfold CMOS_STATA; lia|]. rewrite (bind_Ret _ _ _ _ _ E2).
  change (rtc_reg k CMOS_STATA ?i) with (stata k i). replace (age s1 + 1)%nat with (age s + 13)%nat by lia.
  assert (Hagain : ∀ t, (age s + 14 <= age t <= age s + 26)%nat → (age s < j)%nat →
    ∃ n s', stable_time fuel t = Ret (encoded (date k n)) s' ∧ (shown k (age s) <= n <= shown k (age s'))%nat).
  { intros t Ht Hlt. destruct (IH t j) as (n & s' & E & Hn); [lia|lia|lia|done|]. exists n, s'. split; [done|].
    pose proof (ck_mono k wait Hk (age s) (age t) ltac:(lia)). lia. }
  destruct (Z.eqb_spec (Z.land (stata k (age s + 13)) CMOS_UIP) 0) as [Hu|Hu]; cbn [negb].
  2:{ apply Hagain; [lia|]. destruct (decide (age s < j)%nat); [done|]. exfalso. apply Hu, Hq. lia. }
  destruct (fill_rtcdate_spec s2) as (s3 & E3 & A3). rewrite (bind_Ret _ _ _ _ _ E3).
  replace (age s2) with (age s + 13 + 1)%nat by lia. rewrite (read_after_uip _ Hu).
  case_bool_decide as Heq.
  - exists (shown k (age s + 13)), s3. split; [by rewrite Heq|]. split; apply (ck_mono k wait Hk); lia.
  - apply Hagain; [lia|]. destruct (decide (age s < j)%nat); [done|]. exfalso. apply Heq.
    pose proof (quiet_still j 52 Hq) as Hst. rewrite (read_at_still _ (shown k j)) by (intros i Hi; apply Hst; lia).
    by rewrite (proj2 (Hst (age s + 13)%nat ltac:(lia))).
Qed.

Lemma CONV_bcd x : 0 <= x < 100 → CONV (16 * (x / 10) + x mod 10) = x.
Proof.
  intros Hx. unfold CONV. change 0xf with (Z.ones 4). rewrite Z.land_ones, Z.shiftr_div_pow2 by lia. change (2 ^ 4) with 16.
  rewrite u32_id; dlia.
Qed.

(** C38: the time of day.  Although the clock is read one register at a time,
    may be updated between any two accesses and shows anything while an update is
    under way, [cmostime] returns, and what it returns is a date the clock showed
    between the call and the return, never a mixture of two or a value read during
    an update, in binary whichever of the two formats the clock uses. *)
Theorem cmostime_consistent s fuel :
  (wait < fuel)%nat →
  ∃ n s', (shown k (age s) <= n <= shown k (age s'))%nat ∧
    cmostime fuel s = Ret (RtcDate (second (date k n)) (minute (date k n)) (hour (date k n)) (day (date k n)) (month (date k n)) (year (date k n) + 2000)) s'.
Proof.
  intros Hf. unfold cmostime. destruct (cmos_read_spec CMOS_STATB s) as (s1 & E1 & A1); [unfold CMOS_STATB; lia|]. rewrite (bind_Ret _ _ _ _ _ E1).
  destruct (ck_quiet k wait Hk (age s1)) as (j & Hj & Hq). destruct (stable_time_spec fuel s1 j) as (n & s2 & E2 & Hn); [lia|lia|lia|done|].
  rewrite (bind_Ret _ _ _ _ _ E2). exists n, s2. pose proof (ck_mono k wait Hk (age s) (age s1) ltac:(lia)). split; [lia|].
  pose proof (ck_date k wait Hk n) as Hd. unfold in_century in Hd. rewrite !Forall_cons in Hd. destruct Hd as (? & ? & ? & ? & ? & ? & _).
  change (rtc_reg k CMOS_STATB _) with (statb k). change (Z.shiftl 1 2) with 4. unfold mret, M_ret. f_equal. unfold encoded, encode, binary.
  destruct (Z.land (statb k) 4 =? 0); cbn [negb second minute hour day month year]; rewrite ?CONV_bcd by done; by rewrite u32_id by lia.
Qed.
End rtc.

(** ** The I/O APIC *)

(** The registers behind the window; [io_max] is the number of the last entry of
    the redirection table.  The entries are written as they are given, apart
    from bits that cannot be written. *)
Definition io_writable (r v : Z) : Prop := if Z.odd r then Z.land v 0xffffff = 0 else Z.land v 0x5000 = 0.

Class IoapicOk (D : Type) `{Hw D} := {
  io_sel : D → Z;
  io_reg : D → Z → Z;
  io_max : Z;
  io_max_ok : 0 <= io_max < 120;
  io_ver d : Z.land (Z.shiftr (io_reg d REG_VER) 16) 0xFF = io_max;
  io_select v d : io_sel (st32 IOAPIC v d) = v ∧ io_reg (st32 IOAPIC v d) = io_reg d;
  io_read d v d' : ld32 (IOAPIC + 16) d = (v, d') → v = io_reg d (io_sel d) ∧ io_reg d' = io_reg d;
  io_write v d r : REG_TABLE <= io_sel d <= REG_TABLE + 2 * io_max + 1 → io_writable (io_sel d) v →
    io_reg (st32 (IOAPIC + 16) v d) r = if r =? io_sel d then v else io_reg d r;
}.

(** What an entry does: [Some (vector, cpu)] when it is on, and an interrupt is
    delivered to the processor with that number as the rising edge says. *)
Definition route (lo hi : Z) : option (Z * Z) :=
  if Z.land lo 0x1FF00 =? 0 then Some (Z.land lo 0xFF, Z.shiftr hi 24) else None.

(** The calls in order; the last one for an interrupt counts. *)
Fixpoint routes (calls : list (Z * Z)) (irq : Z) : option (Z * Z) :=
  match calls with
  | [] => None
  | (i, cpu) :: calls => match routes calls irq with Some r => Some r | None => if i =? irq then Some (T_IRQ0 + irq, cpu) else None end
  end.

Section ioapic.
Context {D : Type} `{Hw D} `{!IoapicOk D}.
Abbreviation A := (M (dev D)).

Fixpoint enable_all (calls : list (Z * Z)) : A unit :=
  match calls with
  | [] => mret tt
  | (irq, cpu) :: calls => ioapicenable irq cpu ;; enable_all calls
  end.

Definition table (s : dev D) (irq : Z) : option (Z * Z) := route (io_reg (hw s) (REG_TABLE + 2 * irq)) (io_reg (hw s) (REG_TABLE + 2 * irq + 1)).

Lemma ioapicread_spec r s : is_u32 r → ∃ s', ioapicread r s = Ret (io_reg (hw s) r) s' ∧ io_reg (hw s') = io_reg (hw s).
Proof.
  intros Hr. unfold ioapicread. rewrite u32_id by done. rewrite (bind_Ret _ _ _ tt (Dev (lapic s) (uart s) (st32 IOAPIC r (hw s)))) by done.
  destruct (io_select r (hw s)) as [Hs Hg]. unfold reading. cbn [hw lapic uart]. destruct (ld32 (IOAPIC + 16) _) as [v d'] eqn:E.
  destruct (io_read _ _ _ E) as [-> Hd]. eexists. split; [by rewrite Hs, Hg|]. cbn [hw]. by rewrite Hd.
Qed.

Lemma ioapicwrite_spec r v s :
  REG_TABLE <= r <= REG_TABLE + 2 * io_max + 1 → io_writable r v → is_u32 v →
  ∃ s', ioapicwrite r v s = Ret tt s' ∧ ∀ q, io_reg (hw s') q = if q =? r then v else io_reg (hw s) q.
Proof.
  intros Hr Hw Hv. pose proof io_max_ok. unfold ioapicwrite. rewrite !u32_id by (done || (unfold REG_TABLE in *; lia)).
  rewrite (bind_Ret _ _ _ tt (Dev (lapic s) (uart s) (st32 IOAPIC r (hw s)))) by done.
  eexists. split; [done|]. intros q. cbn [hw]. destruct (io_select r (hw s)) as [Hs Hg]. rewrite io_write by (by rewrite Hs). by rewrite Hs, Hg.
Qed.

(** The two writes of an entry. *)
Lemma write_entry irq lo hi s :
  0 <= irq <= io_max → is_u32 lo → is_u32 hi → Z.land lo 0x5000 = 0 → Z.land hi 0xffffff = 0 →
  ∃ s', (ioapicwrite (REG_TABLE + 2 * irq) lo ;; ioapicwrite (REG_TABLE + 2 * irq + 1) hi) s = Ret tt s' ∧
    ∀ q, table s' q = if q =? irq then route lo hi else table s q.
Proof.
  intros Hi Hlo Hhi Wl Wh.
  destruct (ioapicwrite_spec (REG_TABLE + 2 * irq) lo s) as (s1 & E1 & R1); [lia| |done|].
  { unfold io_writable, REG_TABLE. rewrite Z.odd_add_mul_2. done. }
  rewrite (bind_Ret _ _ _ _ _ E1). destruct (ioapicwrite_spec (REG_TABLE + 2 * irq + 1) hi s1) as (s2 & E2 & R2); [lia| |done|].
  { unfold io_writable, REG_TABLE. replace (16 + 2 * irq + 1) with (17 + 2 * irq) by lia. rewrite Z.odd_add_mul_2. done. }
  exists s2. split; [done|]. intros q. unfold table. rewrite !R2, !R1.
  assert (E : ∀ x y, (REG_TABLE + 2 * x + 1 =? REG_TABLE + 2 * y) = false) by (intros; apply Z.eqb_neq; lia).
  assert (E' : ∀ x y, (REG_TABLE + 2 * x =? REG_TABLE + 2 * y + 1) = false) by (intros; apply Z.eqb_neq; lia).
  rewrite E, E'. destruct (Z.eqb_spec q irq) as [->|Hne]; [by rewrite !Z.eqb_refl|]. by rewrite !(proj2 (Z.eqb_neq _ _)) by lia.
Qed.

(** The values of an entry: both are found by checking the 120 entries. *)
Lemma entry_values : forallb (λ i, let i := Z.of_nat i in
    (Z.land (Z.lor INT_DISABLED (T_IRQ0 + i)) 0x5000 =? 0) && negb (Z.land (Z.lor INT_DISABLED (T_IRQ0 + i)) 0x1FF00 =? 0) &&
    (Z.lor INT_DISABLED (T_IRQ0 + i) <? 4294967296) && (0 <=? Z.lor INT_DISABLED (T_IRQ0 + i)) &&
    (Z.land (T_IRQ0 + i) 0x5000 =? 0) && (Z.land (T_IRQ0 + i) 0x1FF00 =? 0) && (Z.land (T_IRQ0 + i) 0xFF =? T_IRQ0 + i)) (seq 0 120) = true.
Proof. by vm_compute. Qed.

Lemma entry_value i : 0 <= i < 120 →
  (Z.land (Z.lor INT_DISABLED (T_IRQ0 + i)) 0x5000 = 0 ∧ is_u32 (Z.lor INT_DISABLED (T_IRQ0 + i)) ∧ ∀ hi, route (Z.lor INT_DISABLED (T_IRQ0 + i)) hi = None) ∧
  Z.land (T_IRQ0 + i) 0x5000 = 0 ∧ ∀ hi, route (T_IRQ0 + i) hi = Some (T_IRQ0 + i, Z.shiftr hi 24).
Proof.
  intros Hi. pose proof entry_values as Hv. rewrite forallb_forall in Hv. specialize (Hv (Z.to_nat i)). rewrite Z2Nat.id in Hv by lia.
  specialize (Hv ltac:(apply in_seq; lia)). cbn zeta in Hv. rewrite !andb_true_iff, negb_true_iff, !Z.eqb_eq, Z.ltb_lt, Z.leb_le in Hv.
  destruct Hv as ((((((H1 & H2) & H3) & H4) & H5) & H6) & H7). unfold route, is_u32. split_and!; try done; [by rewrite H2|]. intros hi. by rewrite H6, H7.
Qed.

Lemma ioapicinit_spec s : ∃ s', ioapicinit s = Ret tt s' ∧ ∀ irq, 0 <= irq <= io_max → table s' irq = None.
Proof.
  unfold ioapicinit. destruct (ioapicread_spec REG_VER s) as (s1 & E1 & R1); [unfold is_u32, REG_VER; lia|]. rewrite (bind_Ret _ _ _ _ _ E1), io_ver.
  destruct (ioapicread_spec REG_ID s1) as (s2 & E2 & _); [unfold is_u32, REG_ID; lia|]. rewrite (bind_Ret _ _ _ _ _ E2). pose proof io_max_ok as Hmax.
  assert (Hw : wp (for_ (S (Z.to_nat io_max)) 0 (λ i,
    ioapicwrite (REG_TABLE + 2 * Z.of_nat i) (Z.lor INT_DISABLED (T_IRQ0 + Z.of_nat i)) ;; ioapicwrite (REG_TABLE + 2 * Z.of_nat i + 1) 0))
    (λ _ s, ∀ irq, 0 <= irq < Z.of_nat (0 + S (Z.to_nat io_max)) → table s irq = None) s2).
  { apply (wp_for (λ j s, ∀ irq, 0 <= irq < Z.of_nat j → table s irq = None)); [lia|]. intros j t Hj Ht.
    destruct (entry_value (Z.of_nat j)) as ((W & U & Rt) & _); [lia|].
    destruct (write_entry (Z.of_nat j) (Z.lor INT_DISABLED (T_IRQ0 + Z.of_nat j)) 0 t) as (t' & E & Hq); [lia|done|unfold is_u32; lia|done|done|].
    apply (wp_intro _ _ _ _ _ E). intros irq Hirq. rewrite Hq. destruct (Z.eqb_spec irq (Z.of_nat j)); [done|]. apply Ht. lia. }
  apply wp_elim in Hw as ([] & s3 & E3 & Hq). exists s3. split; [done|]. intros irq Hirq. apply Hq. lia.
Qed.

Lemma enable_all_spec calls : ∀ s,
  Forall (λ c, 0 <= c.1 <= io_max ∧ is_u8 c.2) calls →
  ∃ s', enable_all calls s = Ret tt s' ∧ ∀ irq, 0 <= irq <= io_max → table s' irq = match routes calls irq with Some r => Some r | None => table s irq end.
Proof.
  pose proof io_max_ok as Hmax. induction calls as [|[i cpu] calls IH]; intros s Hc; cbn [enable_all routes]; [by exists s|].
  apply Forall_cons in Hc as [[Hi Hcpu] Hc]. cbn [fst snd] in *. unfold is_u8 in Hcpu.
  destruct (entry_value i) as (_ & W & Rt); [lia|].
  assert (Hsh : Z.shiftl cpu 24 = cpu * 16777216) by (by rewrite Z.shiftl_mul_pow2 by lia).
  destruct (write_entry i (T_IRQ0 + i) (Z.shiftl cpu 24) s) as (s1 & E1 & Q1); [lia|unfold is_u32, T_IRQ0; lia|unfold is_u32; lia|done| |].
  { change 0xffffff with (Z.ones 24). rewrite Z.land_ones, Hsh by lia. change (2 ^ 24) with 16777216. dlia. }
  unfold ioapicenable. rewrite (bind_Ret _ _ _ _ _ E1). destruct (IH s1 Hc) as (s' & E & Q). exists s'. split; [done|]. intros irq Hirq.
  rewrite (Q irq Hirq). destruct (routes calls irq); [done|]. rewrite Q1, Z.eqb_sym. destruct (Z.eqb_spec i irq) as [->|]; [|done].
  rewrite Rt, Hsh, Z.shiftr_div_pow2 by lia. change (2 ^ 24) with 16777216. by rewrite Z.div_mul.
Qed.

(** C26: interrupt routing.  After [ioapicinit] every interrupt is off; after any
    calls of [ioapicenable] exactly the interrupts named in them are on, each
    with its own vector 32 + irq, to the processor of the last call for it. *)
Theorem ioapic_routes calls s :
  Forall (λ c, 0 <= c.1 <= io_max ∧ is_u8 c.2) calls →
  ∃ s', (ioapicinit ;; enable_all calls) s = Ret tt s' ∧ ∀ irq, 0 <= irq <= io_max → table s' irq = routes calls irq.
Proof.
  intros Hc. destruct (ioapicinit_spec s) as (s1 & E1 & H1). rewrite (bind_Ret _ _ _ _ _ E1). destruct (enable_all_spec calls s1 Hc) as (s' & E & Hq).
  exists s'. split; [done|]. intros irq Hi. rewrite (Hq irq Hi), (H1 irq Hi). by destruct (routes calls irq).
Qed.
End ioapic.

(** ** The serial port *)

(** [ua_busy] is how many more times the status will say that the transmitter is
    not ready; a character written then may be lost. *)
Class UartOk (D : Type) `{Hw D} := {
  ua_dlab : D → bool;
  ua_busy : D → nat;
  ua_sent : D → list Z;
  ua_lcr v d : ua_sent (outb_ (COM1 + 3) v d) = ua_sent d ∧ ua_dlab (outb_ (COM1 + 3) v d) = Z.testbit v 7;
  ua_thr v d : ua_dlab d = false → ua_busy d = 0%nat → ua_sent (outb_ (COM1 + 0) v d) = ua_sent d ++ [v] ∧ ua_dlab (outb_ (COM1 + 0) v d) = false;
  ua_divisor v d : ua_dlab d = true → ua_sent (outb_ (COM1 + 0) v d) = ua_sent d ∧ ua_dlab (outb_ (COM1 + 0) v d) = true;
  ua_config p v d : p ∈ [COM1 + 1; COM1 + 2; COM1 + 4] → ua_sent (outb_ p v d) = ua_sent d ∧ ua_dlab (outb_ p v d) = ua_dlab d;
  ua_lsr d v d' : inb_ (COM1 + 5) d = (v, d') →
    (Z.land v 0x20 = 0 ↔ ua_busy d ≠ 0%nat) ∧ ua_busy d' = pred (ua_busy d) ∧ ua_sent d' = ua_sent d ∧ ua_dlab d' = ua_dlab d;
}.

Section uart.
Context {D : Type} `{Hw D} `{!UartOk D}.

Lemma wait_thr_spec n : ∀ s, (ua_busy (hw s) < n)%nat →
  ∃ s', wait_thr n s = Ret tt s' ∧ ua_busy (hw s') = 0%nat ∧ ua_sent (hw s') = ua_sent (hw s) ∧ ua_dlab (hw s') = ua_dlab (hw s) ∧ uart s' = uart s.
Proof.
  induction n as [|n IH]; intros s Hb; [lia|]. cbn [wait_thr]. unfold inb at 1, reading at 1, mbind, M_bind. destruct (inb_ (COM1 + 5) (hw s)) as [v d'] eqn:E.
  destruct (ua_lsr _ _ _ E) as (Hv & Hb' & Hs & Hd). destruct (Z.eqb_spec (Z.land v 0x20) 0) as [Ez|Ez].
  - apply Hv in Ez. destruct (IH (Dev (lapic s) (uart s) d')) as (s' & E' & B' & S' & D' & U'); [cbn; lia|]. exists s'. cbn in *. split_and!; congruence.
  - eexists. split; [done|]. cbn. split_and!; [|done..]. destruct (ua_busy (hw s)); [by rewrite Hb'|]. exfalso. apply Ez, Hv. lia.
Qed.

(** A character is sent when the transmitter gets ready within the 128 times
    [uartputc] looks. *)
Lemma uartputc_sends c s :
  uart s ≠ 0 → ua_dlab (hw s) = false → (ua_busy (hw s) < 128)%nat →
  ∃ s', uartputc c s = Ret tt s' ∧ ua_sent (hw s') = ua_sent (hw s) ++ [u8 c] ∧ ua_dlab (hw s') = false ∧ uart s' = uart s.
Proof.
  intros Hu Hd Hb. unfold uartputc. rewrite (bind_Ret _ _ s s s) by done. rewrite (proj2 (Z.eqb_neq _ _)) by done.
  destruct (wait_thr_spec 128 s Hb) as (s1 & E1 & B1 & S1 & D1 & U1). rewrite (bind_Ret _ _ _ _ _ E1).
  destruct (ua_thr (u8 c) (hw s1)) as [Hs Hd']; [congruence|done|]. eexists. split; [done|]. cbn [hw uart]. rewrite Hs, S1. by split_and!.
Qed.

(** The set-up leaves the divisor locked, so that characters are characters. *)
Lemma uart_debug_sends c s :
  (∀ d, (ua_busy d < 128)%nat) → ∃ s', uart_debug c s = Ret tt s' ∧ ua_sent (hw s') = ua_sent (hw s) ++ [u8 c].
Proof.
  intros Hb. unfold uart_debug, outb, writing.
  set (at_ := λ d : D, Dev (lapic s) (uart s) d). set (d1 := outb_ (COM1 + 2) (u8 0) (hw s)). rewrite (bind_Ret _ _ _ tt (at_ d1)) by done.
  set (d2 := outb_ (COM1 + 3) (u8 0x80) d1). rewrite (bind_Ret _ _ _ tt (at_ d2)) by done.
  set (d3 := outb_ (COM1 + 0) (u8 (115200 / 9600)) d2). rewrite (bind_Ret _ _ _ tt (at_ d3)) by done.
  set (d4 := outb_ (COM1 + 1) (u8 0) d3). rewrite (bind_Ret _ _ _ tt (at_ d4)) by done.
  set (d5 := outb_ (COM1 + 3) (u8 0x03) d4). rewrite (bind_Ret _ _ _ tt (at_ d5)) by done.
  set (d6 := outb_ (COM1 + 4) (u8 0) d5). rewrite (bind_Ret _ _ _ tt (at_ d6)) by done.
  destruct (ua_config (COM1 + 2) (u8 0) (hw s)) as [S1 _]; [set_solver|]. destruct (ua_lcr (u8 0x80) d1) as [S2 L2].
  destruct (ua_divisor (u8 (115200 / 9600)) d2) as [S3 _]; [done|]. destruct (ua_config (COM1 + 1) (u8 0) d3) as [S4 _]; [set_solver|].
  destruct (ua_lcr (u8 0x03) d4) as [S5 L5]. destruct (ua_config (COM1 + 4) (u8 0) d5) as [S6 L6]; [set_solver|].
  destruct (wait_thr_spec 128 (at_ d6)) as (s7 & E7 & B7 & S7 & D7 & _); [apply Hb|]. rewrite (bind_Ret _ _ _ _ _ E7).
  destruct (ua_thr (u8 c) (hw s7)) as [S8 _]; [rewrite D7; cbn [at_ hw]; fold d5 in L5; fold d6 in L6; by rewrite L6, L5|done|].
  eexists. split; [done|]. cbn [hw]. rewrite S8, S7. cbn [at_ hw]. fold d1 in S1. fold d2 in S2. fold d3 in S3. fold d4 in S4. fold d5 in S5. fold d6 in S6.
  by rewrite S6, S5, S4, S3, S2, S1.
Qed.
End uart.

(** ** The local APIC *)

(** A broadcast is delivered after the status has been read [la_pending] times. *)
Class LapicOk (D : Type) `{Hw D} (base : Z) := {
  la_pending : D → nat;
  la_icr d v d' : ld32 (base + 4 * ICRLO) d = (v, d') → (Z.land v DELIVS = 0 ↔ la_pending d = 0%nat) ∧ la_pending d' = pred (la_pending d);
}.

Lemma wait_delivery_returns {D} `{Hw D} base `{!LapicOk D base} n : ∀ s,
  lapic s = base → (la_pending (hw s) < n)%nat → ∃ s', wait_delivery n s = Ret tt s' ∧ lapic s' = base.
Proof.
  induction n as [|n IH]; intros s Hl Hn; [lia|]. cbn [wait_delivery]. unfold lapicr, reading, mbind, M_bind, get. rewrite Hl.
  destruct (ld32 (base + 4 * ICRLO) (hw s)) as [v d'] eqn:E. destruct (la_icr _ _ _ E) as [Hv Hp]. destruct (Z.eqb_spec (Z.land v DELIVS) 0) as [Ez|Ez].
  - by eexists.
  - apply IH; [done|]. cbn. destruct (la_pending (hw s)); [|lia]. exfalso. by apply Ez, Hv.
Qed.

(** The command [lapicstartap] sends last starts the processor at [addr]: its
    delivery mode is start-up and its vector the number of the page. *)
Lemma startup_command addr : 0 <= addr < 0x100000 → addr mod 4096 = 0 →
  let v := Z.lor STARTUP (Z.shiftr addr 12) in Z.land v 0xFF * 4096 = addr ∧ Z.land (Z.shiftr v 8) 7 = 6.
Proof.
  intros Ha Hm v. subst v. rewrite Z.shiftr_div_pow2 by lia. change (2 ^ 12) with 4096. assert (Hp : 0 <= addr / 4096 < 256) by dlia.
  assert (Hall : forallb (λ i, let v := Z.lor STARTUP (Z.of_nat i) in (Z.land v 0xFF =? Z.of_nat i) && (Z.land (Z.shiftr v 8) 7 =? 6)) (seq 0 256) = true) by (by vm_compute).
  rewrite forallb_forall in Hall. specialize (Hall (Z.to_nat (addr / 4096)) ltac:(apply in_seq; lia)). rewrite Z2Nat.id in Hall by lia.
  cbn zeta in Hall. rewrite andb_true_iff, !Z.eqb_eq in Hall. destruct Hall as [-> ->]. split; [dlia|done].
Qed.

(** ** A concrete machine *)

(** The clock counts accesses and changes every hundredth: the update takes five
    accesses, and UIP is set fifteen before it begins.  The I/O APIC has 24
    entries. *)
Record toy := Toy { t_age : nat; t_sel : Z; t_iosel : Z; t_io : gmap Z Z }.

Definition toy_date (n : nat) : rtcdate := RtcDate (Z.of_nat n mod 60) 30 12 17 6 24.
Definition toy_clock : clock :=
  Clock (λ a, a / 100)%nat toy_date (λ a, 95 <=? a mod 100)%nat (λ r a, 255 - r)
    (λ a, if (a mod 100 <? 80)%nat then 0 else 128) 2.

Definition toy_io_reg (t : toy) (r : Z) : Z := if r =? REG_VER then 0x170011 else default 0 (t_io t !! r).

#[export] Instance toy_hw : Hw toy := {|
  inb_ p t := if p =? CMOS_RETURN then (rtc_reg toy_clock (t_sel t) (t_age t), Toy (S (t_age t)) (t_sel t) (t_iosel t) (t_io t)) else (0, t);
  outb_ p v t := if p =? CMOS_PORT then Toy (S (t_age t)) v (t_iosel t) (t_io t) else t;
  ld32 a t := (if a =? IOAPIC + 16 then toy_io_reg t (t_iosel t) else 0, t);
  st32 a v t := if a =? IOAPIC then Toy (t_age t) (t_sel t) v (t_io t)
                else if a =? IOAPIC + 16 then Toy (t_age t) (t_sel t) (t_iosel t) (<[t_iosel t := v]> (t_io t)) else t;
  st16 _ _ t := t;
|}.

#[export] Program Instance toy_rtc : RtcOk toy toy_clock := {| rtc_age := t_age; rtc_sel := t_sel |}.
Next Obligation. done. Qed.
Next Obligation. intros d v d' E. cbn in E. by injection E as <- <-. Qed.

#[export] Program Instance toy_ioapic : IoapicOk toy := {| io_sel := t_iosel; io_reg := toy_io_reg; io_max := 23 |}.
Next Obligation. lia. Qed.
Next Obligation. done. Qed.
Next Obligation. done. Qed.
Next Obligation. intros d v d' E. cbn in E. by injection E as <- <-. Qed.
Next Obligation.
  intros v d r Hr _. change (REG_TABLE <= t_iosel d <= REG_TABLE + 2 * 23 + 1) in Hr. unfold REG_TABLE in Hr.
  change (toy_io_reg (Toy (t_age d) (t_sel d) (t_iosel d) (<[t_iosel d := v]> (t_io d))) r = if r =? t_iosel d then v else toy_io_reg d r).
  unfold toy_io_reg, REG_VER. cbn [t_io]. destruct (Z.eqb_spec r (t_iosel d)) as [->|Hne].
  - rewrite (proj2 (Z.eqb_neq (t_iosel d) 1)) by lia. by rewrite lookup_insert_eq.
  - destruct (Z.eqb_spec r 1); [done|]. by rewrite lookup_insert_ne by done.
Qed.

Lemma toy_uip a : Z.land (stata toy_clock a) CMOS_UIP = 0 ↔ (a mod 100 < 80)%nat.
Proof. cbn [stata toy_clock]. destruct (Nat.ltb_spec (a mod 100) 80); [done|]. split; [done|lia]. Qed.

Lemma toy_clock_ok : clock_ok toy_clock 100.
Proof.
  split.
  - intros a b Hab. by apply Nat.Div0.div_le_mono.
  - intros a i Hu%toy_uip Hi. cbn [shown busy toy_clock]. rewrite Nat.leb_gt.
    pose proof (Nat.div_mod a 100 ltac:(lia)) as H1. pose proof (Nat.div_mod i 100 ltac:(lia)) as H2.
    pose proof (Nat.mod_upper_bound i 100 ltac:(lia)) as H3. split; lia.
  - intros n. unfold in_century, toy_clock, toy_date. cbn [date second minute hour day month year]. repeat constructor; cbn; dlia.
  - intros a. pose proof (Nat.div_mod a 100 ltac:(lia)) as H1. pose proof (Nat.mod_upper_bound a 100 ltac:(lia)) as H2.
    exists (100 * (a / 100) + 100)%nat. split; [lia|]. intros i Hi. apply toy_uip.
    pose proof (Nat.div_mod i 100 ltac:(lia)) as H3. pose proof (Nat.mod_upper_bound i 100 ltac:(lia)) as H4. lia.
Qed.

(** Called just before an update, so that the first pass is a mixture. *)
Definition toy_start : dev toy := Dev 0 0 (Toy 96 0 0 ∅).

Lemma cmostime_consistent_witness :
  ∃ s', cmostime 101 toy_start = Ret (RtcDate 1 30 12 17 6 2024) s'.
Proof.
  destruct (cmostime_consistent toy_clock 100 toy_clock_ok toy_start 101 ltac:(lia)) as (n & s' & Hn & E).
  exists s'. assert (E' := E). vm_compute in E'. injection E' as Hsec _. rewrite E. f_equal. cbn [toy_clock date toy_date second minute hour day month year].
  change (24 + 2000) with 2024. f_equal. change (Z.of_nat n mod 60) with (second (date toy_clock n)). symmetry. exact Hsec.
Defined.

Lemma ioapic_routes_witness :
  ∃ s', (ioapicinit ;; enable_all [(1, 0); (4, 0); (14, 1)]) toy_start = Ret tt s' ∧
    table s' 1 = Some (33, 0) ∧ table s' 14 = Some (46, 1) ∧ table s' 0 = None.
Proof.
  destruct (ioapic_routes [(1, 0); (4, 0); (14, 1)] toy_start) as (s' & E & H); [repeat constructor; cbn; lia|].
  exists s'. split; [exact E|]. rewrite !H by (cbn; lia). done.
Defined.
