(* ===== verification/Fs.v ===== *)
(** * The file system: fs.c

    Block allocator, inodes, file contents, directories and path names, over
    the interface [BlockLayer].  [icache] entries are indices; a critical
    section of [icache.lock] is one atomic step, the sleep lock of each inode
    is kept.  A path is the list of its bytes without the NUL; the buffer a
    caller passes to [readi] or [writei] is the list of bytes copied. *)

From S2P Require Import Prelude Param Bio Log Blocks.

(** [struct inode]. *)
Record inode := Inode {
  i_dev : Z;
  i_inum : Z;
  i_ref : Z;
  i_lock : sleeplock;
  i_valid : Z;
  i_type : Z;
  i_major : Z;
  i_minor : Z;
  i_nlink : Z;
  i_size : Z;
  i_addrs : list Z;
}.

Definition set_i_ref v i := Inode (i_dev i) (i_inum i) v (i_lock i) (i_valid i) (i_type i) (i_major i) (i_minor i) (i_nlink i) (i_size i) (i_addrs i).
Definition set_i_lock v i := Inode (i_dev i) (i_inum i) (i_ref i) v (i_valid i) (i_type i) (i_major i) (i_minor i) (i_nlink i) (i_size i) (i_addrs i).
Definition set_i_valid v i := Inode (i_dev i) (i_inum i) (i_ref i) (i_lock i) v (i_type i) (i_major i) (i_minor i) (i_nlink i) (i_size i) (i_addrs i).
Definition set_i_type v i := Inode (i_dev i) (i_inum i) (i_ref i) (i_lock i) (i_valid i) v (i_major i) (i_minor i) (i_nlink i) (i_size i) (i_addrs i).
Definition set_i_major v i := Inode (i_dev i) (i_inum i) (i_ref i) (i_lock i) (i_valid i) (i_type i) v (i_minor i) (i_nlink i) (i_size i) (i_addrs i).
Definition set_i_minor v i := Inode (i_dev i) (i_inum i) (i_ref i) (i_lock i) (i_valid i) (i_type i) (i_major i) v (i_nlink i) (i_size i) (i_addrs i).
Definition set_i_nlink v i := Inode (i_dev i) (i_inum i) (i_ref i) (i_lock i) (i_valid i) (i_type i) (i_major i) (i_minor i) v (i_size i) (i_addrs i).
Definition set_i_size v i := Inode (i_dev i) (i_inum i) (i_ref i) (i_lock i) (i_valid i) (i_type i) (i_major i) (i_minor i) (i_nlink i) v (i_addrs i).
Definition set_i_addrs v i := Inode (i_dev i) (i_inum i) (i_ref i) (i_lock i) (i_valid i) (i_type i) (i_major i) (i_minor i) (i_nlink i) (i_size i) v.
(** The assignments of [iget] that recycle an entry. *)
Definition claim_inode dev inum i := Inode dev inum 1 (i_lock i) 0 (i_type i) (i_major i) (i_minor i) (i_nlink i) (i_size i) (i_addrs i).

Definition inode0 : inode := Inode 0 0 0 (Sleeplock false 0) 0 0 0 0 0 0 (replicate 13 0).

(** A dinode stored at offset [off] of a block. *)
Definition dinode_type (off : nat) (d : list Z) : Z := i16 (get_le off 2 d).
Definition dinode_addrs (off : nat) (d : list Z) : list Z :=
  (λ k, get_le (off + 12 + 4 * k) 4 d) <$> seq 0 13.
Definition load_dinode (off : nat) (d : list Z) (i : inode) : inode :=
  Inode (i_dev i) (i_inum i) (i_ref i) (i_lock i) (i_valid i) (dinode_type off d) (i16 (get_le (off + 2) 2 d))
    (i16 (get_le (off + 4) 2 d)) (i16 (get_le (off + 6) 2 d)) (get_le (off + 8) 4 d) (dinode_addrs off d).
Definition store_dinode (off : nat) (i : inode) (d : list Z) : list Z :=
  let d := put_le off 2 (i_type i) d in
  let d := put_le (off + 2) 2 (i_major i) d in
  let d := put_le (off + 4) 2 (i_minor i) d in
  let d := put_le (off + 6) 2 (i_nlink i) d in
  let d := put_le (off + 8) 4 (i_size i) d in
  splice (off + 12) (concat (le_bytes 4 <$> i_addrs i)) d.

Record fsst (S : Type) := Fs { fs_b : S; sb : superblock; icache : list inode; fs_pid : Z }.
Arguments Fs {S} fs_b sb icache fs_pid.
Arguments fs_b {S} f.
Arguments sb {S} f.
Arguments icache {S} f.
Arguments fs_pid {S} f.

(** [skipelem]: the next element, cut to DIRSIZ bytes, and the rest of the
    path; [None] when there is none. *)
Fixpoint skip_slashes (path : list Z) : list Z :=
  match path with
  | c :: p => if c =? 47 then skip_slashes p else path
  | [] => []
  end.
Fixpoint take_elem (path : list Z) : list Z * list Z :=
  match path with
  | c :: p => if c =? 47 then ([], path) else let '(e, r) := take_elem p in (c :: e, r)
  | [] => ([], [])
  end.
Definition skipelem (path : list Z) : option (list Z * list Z) :=
  match skip_slashes path with
  | [] => None
  | path =>
      let '(s, path) := take_elem path in
      let name := if (DIRSIZ <=? length s)%nat then take DIRSIZ s else s in
      Some (name, skip_slashes path)
  end.

(** [strncmp] on strings that end at a NUL or at the end of the list. *)
Fixpoint lstrncmp (n : nat) (p q : list Z) : Z :=
  match n with
  | O => 0
  | S n =>
      let a := byte_at p 0 in
      let b := byte_at q 0 in
      if (a =? 0) || negb (a =? b) then a - b else lstrncmp n (drop 1 p) (drop 1 q)
  end.
Definition namecmp (s t : list Z) : Z := lstrncmp DIRSIZ s t.

(** [struct dirent] from and to its 16 bytes; [strncpy] pads with NULs. *)
Definition de_inum (de : list Z) : Z := get_le 0 2 de.
Definition de_name (de : list Z) : list Z := slice 2 DIRSIZ de.
Fixpoint lstrncpy (n : nat) (t : list Z) : list Z :=
  match n with
  | O => []
  | S n => if byte_at t 0 =? 0 then replicate (S n) 0 else byte_at t 0 :: lstrncpy n (drop 1 t)
  end.
Definition mk_dirent (inum : Z) (name : list Z) : list Z := le_bytes 2 inum ++ lstrncpy DIRSIZ name.

(** [struct stat]. *)
Record stat := Stat { st_type : Z; st_dev : Z; st_ino : Z; st_nlink : Z; st_size : Z }.

Section fs.
Context {S : Type} `{BlockLayer S}.
Abbreviation F := (M (fsst S)).
(** [devsw[major].read] and [.write]; [None] is a null pointer.  A read
    returns its result and the bytes it stored. *)
Context (devsw_read : Z → option (nat → Z → F (Z * list Z))).
Context (devsw_write : Z → option (nat → list Z → F Z)).

Definition liftb {A} (m : M S A) : F A :=
  λ s, match m (fs_b s) with
       | Ret a b => Ret a (Fs b (sb s) (icache s) (fs_pid s))
       | Panic msg => Panic msg
       | Fault => Fault
       | Block => Block
       | Diverge => Diverge
       end.
Definition bread dev n : F nat := liftb (bl_bread dev (u32 n)).
Definition bdata b : F (list Z) := liftb (bl_data b).
Definition set_bdata b d : F unit := liftb (bl_set_data b d).
Definition log_write b : F unit := liftb (bl_log_write b).
Definition brelse b : F unit := liftb (bl_brelse b).

Definition geti (ip : nat) : F inode :=
  λ s, match icache s !! ip with Some i => Ret i s | None => Fault end.
Definition seti (ip : nat) (f : inode → inode) : F unit :=
  λ s, match icache s !! ip with
       | Some i => Ret tt (Fs (fs_b s) (sb s) (<[ip := f i]> (icache s)) (fs_pid s))
       | None => Fault
       end.
Definition locki (ip : nat) : F unit :=
  λ s, match icache s !! ip with
       | Some i =>
           match acquiresleep (fs_pid s) (i_lock i) with
           | Some lk => Ret tt (Fs (fs_b s) (sb s) (<[ip := set_i_lock lk i]> (icache s)) (fs_pid s))
           | None => Block
           end
       | None => Fault
       end.

(** ** Blocks *)

Definition readsb (dev : Z) : F superblock :=
  bp ← bread dev 1;
  d ← bdata bp;
  brelse bp ;;
  mret (superblock_of d).

Definition bzero (dev bno : Z) : F unit :=
  bp ← bread dev bno;
  set_bdata bp (replicate (Z.to_nat BSIZE) 0) ;;
  log_write bp ;;
  brelse bp.

(** Bit [bi] of a bitmap block. *)
Definition bit_mask (bi : Z) : Z := Z.shiftl 1 (bi mod 8).
Definition bit_set (d : list Z) (bi : Z) : bool :=
  negb (Z.land (byte_at d (Z.to_nat (bi / 8))) (bit_mask bi) =? 0).
Definition set_bit (d : list Z) (bi : Z) : list Z :=
  <[Z.to_nat (bi / 8) := Z.lor (byte_at d (Z.to_nat (bi / 8))) (bit_mask bi)]> d.
Definition clear_bit (d : list Z) (bi : Z) : list Z :=
  <[Z.to_nat (bi / 8) := Z.land (byte_at d (Z.to_nat (bi / 8))) (u8 (Z.lnot (bit_mask bi)))]> d.

(** The inner loop of [balloc], with [n] of the BPB bits left. *)
Fixpoint balloc_scan (n : nat) (d : list Z) (b bi size : Z) : option Z :=
  match n with
  | O => None
  | Datatypes.S n =>
      if b + bi <? size then
        if bit_set d bi then balloc_scan n d b (bi + 1) size else Some bi
      else None
  end.

(** The outer loop; [fuel] bounds its passes. *)
Fixpoint balloc_loop (fuel : nat) (dev b : Z) : F Z :=
  match fuel with
  | O => diverge
  | Datatypes.S fuel =>
      sb ← gets sb;
      if b <? sb_size sb then
        bp ← bread dev (BBLOCK b sb);
        d ← bdata bp;
        match balloc_scan (Z.to_nat BPB) d b 0 (sb_size sb) with
        | Some bi =>
            set_bdata bp (set_bit d bi) ;;
            log_write bp ;;
            brelse bp ;;
            bzero dev (b + bi) ;;
            mret (b + bi)
        | None =>
            brelse bp ;;
            balloc_loop fuel dev (b + BPB)
        end
      else panic "balloc: out of blocks"
  end.
Definition balloc (dev : Z) : F Z :=
  sb ← gets sb;
  balloc_loop (Z.to_nat (sb_size sb / BPB + 2)) dev 0.

Definition bfree (dev b : Z) : F unit :=
  sb ← readsb dev;
  modify (λ s, Fs (fs_b s) sb (icache s) (fs_pid s)) ;;
  bp ← bread dev (BBLOCK b sb);
  let bi := b mod BPB in
  d ← bdata bp;
  if negb (bit_set d bi) then panic "freeing free block" else
  set_bdata bp (clear_bit d bi) ;;
  log_write bp ;;
  brelse bp.

(** ** Inodes *)

Definition iinit (dev : Z) : F unit :=
  for_ NINODE 0 (λ i, seti i (set_i_lock initsleeplock)) ;;
  sb ← readsb dev;
  modify (λ s, Fs (fs_b s) sb (icache s) (fs_pid s)).

(** The scan of [iget]: the entry of the inode, or the first free one. *)
Fixpoint iget_scan (l : list inode) (k : nat) (dev inum : Z) (empty : option nat) : nat + option nat :=
  match l with
  | [] => inr empty
  | i :: l =>
      if (0 <? i_ref i) && (i_dev i =? dev) && (i_inum i =? inum) then inl k
      else
        iget_scan l (Datatypes.S k) dev inum
          (match empty with None => if i_ref i =? 0 then Some k else None | _ => empty end)
  end.

Definition iget (dev inum : Z) : F nat :=
  l ← gets icache;
  match iget_scan l 0 dev inum None with
  | inl ip => seti ip (λ i, set_i_ref (i_ref i + 1) i) ;; mret ip
  | inr None => panic "iget: no inodes"
  | inr (Some ip) => seti ip (claim_inode dev inum) ;; mret ip
  end.

Definition idup (ip : nat) : F nat := seti ip (λ i, set_i_ref (i_ref i + 1) i) ;; mret ip.

(** The loop of [ialloc], from [inum] on. *)
Fixpoint ialloc_loop (n : nat) (dev type inum : Z) : F nat :=
  match n with
  | O => panic "ialloc: no inodes"
  | Datatypes.S n =>
      sb ← gets sb;
      bp ← bread dev (IBLOCK inum sb);
      d ← bdata bp;
      let off := Z.to_nat (inum mod IPB * sizeof_dinode) in
      if dinode_type off d =? 0 then
        set_bdata bp (put_le off 2 type (splice off (replicate (Z.to_nat sizeof_dinode) 0) d)) ;;
        log_write bp ;;
        brelse bp ;;
        iget dev inum
      else
        brelse bp ;;
        ialloc_loop n dev type (inum + 1)
  end.
Definition ialloc (dev type : Z) : F nat :=
  sb ← gets sb;
  ialloc_loop (Z.to_nat (sb_ninodes sb - 1)) dev type 1.

Definition iupdate (ip : nat) : F unit :=
  i ← geti ip;
  sb ← gets sb;
  bp ← bread (i_dev i) (IBLOCK (i_inum i) sb);
  d ← bdata bp;
  set_bdata bp (store_dinode (Z.to_nat (i_inum i mod IPB * sizeof_dinode)) i d) ;;
  log_write bp ;;
  brelse bp.

Definition ilock (ip : nat) : F unit :=
  i ← geti ip;
  if i_ref i <? 1 then panic "ilock" else
  locki ip ;;
  if i_valid i =? 0 then
    sb ← gets sb;
    bp ← bread (i_dev i) (IBLOCK (i_inum i) sb);
    d ← bdata bp;
    seti ip (load_dinode (Z.to_nat (i_inum i mod IPB * sizeof_dinode)) d) ;;
    brelse bp ;;
    seti ip (set_i_valid 1) ;;
    i ← geti ip;
    if i_type i =? 0 then panic "ilock: no type" else mret tt
  else mret tt.

Definition iunlock (ip : nat) : F unit :=
  i ← geti ip;
  if negb (holdingsleep (i_lock i)) || (i_ref i <? 1) then panic "iunlock" else
  seti ip (λ i, set_i_lock (releasesleep (i_lock i)) i).

(** [bfree] of each non-zero address in a list, in order. *)
Fixpoint bfree_list (dev : Z) (l : list Z) : F unit :=
  match l with
  | [] => mret tt
  | a :: l => (if a =? 0 then mret tt else bfree dev a) ;; bfree_list dev l
  end.

(** The entries of an indirect block. *)
Definition indirect_entries (d : list Z) : list Z := (λ k, get_le (4 * k) 4 d) <$> seq 0 (Z.to_nat NINDIRECT).

Definition itrunc (ip : nat) : F unit :=
  for_ (Z.to_nat NDIRECT) 0 (λ k,
    i ← geti ip;
    let a := byte_at (i_addrs i) k in
    if a =? 0 then mret tt else
    bfree (i_dev i) a ;;
    seti ip (λ i, set_i_addrs (<[k := 0]> (i_addrs i)) i)) ;;
  i ← geti ip;
  let a := byte_at (i_addrs i) (Z.to_nat NDIRECT) in
  (if a =? 0 then mret tt else
   bp ← bread (i_dev i) a;
   d ← bdata bp;
   bfree_list (i_dev i) (indirect_entries d) ;;
   brelse bp ;;
   bfree (i_dev i) a ;;
   seti ip (λ i, set_i_addrs (<[Z.to_nat NDIRECT := 0]> (i_addrs i)) i)) ;;
  seti ip (set_i_size 0) ;;
  iupdate ip.

Definition iput (ip : nat) : F unit :=
  locki ip ;;
  i ← geti ip;
  (if negb (i_valid i =? 0) && (i_nlink i =? 0) then
     let r := i_ref i in
     if r =? 1 then
       itrunc ip ;;
       seti ip (set_i_type 0) ;;
       iupdate ip ;;
       seti ip (set_i_valid 0)
     else mret tt
   else mret tt) ;;
  seti ip (λ i, set_i_lock (releasesleep (i_lock i)) i) ;;
  seti ip (λ i, set_i_ref (i_ref i - 1) i).

Definition iunlockput (ip : nat) : F unit := iunlock ip ;; iput ip.

(** ** Contents *)

Definition bmap (ip : nat) (bn : Z) : F Z :=
  i ← geti ip;
  if bn <? NDIRECT then
    let addr := byte_at (i_addrs i) (Z.to_nat bn) in
    if addr =? 0 then
      addr ← balloc (i_dev i);
      seti ip (λ i, set_i_addrs (<[Z.to_nat bn := addr]> (i_addrs i)) i) ;;
      mret addr
    else mret addr
  else
    let bn := bn - NDIRECT in
    if bn <? NINDIRECT then
      let addr := byte_at (i_addrs i) (Z.to_nat NDIRECT) in
      addr ← (if addr =? 0 then
                addr ← balloc (i_dev i);
                seti ip (λ i, set_i_addrs (<[Z.to_nat NDIRECT := addr]> (i_addrs i)) i) ;;
                mret addr
              else mret addr);
      bp ← bread (i_dev i) addr;
      a ← bdata bp;
      let addr := get_le (4 * Z.to_nat bn) 4 a in
      addr ← (if addr =? 0 then
                addr ← balloc (i_dev i);
                set_bdata bp (put_le (4 * Z.to_nat bn) 4 addr a) ;;
                log_write bp ;;
                mret addr
              else mret addr);
      brelse bp ;;
      mret addr
    else panic "bmap: out of range".

Definition stati (ip : nat) : F stat :=
  i ← geti ip;
  mret (Stat (i_type i) (i_dev i) (i_inum i) (i_nlink i) (i_size i)).

(** The loop of [readi]; [acc] is what has been stored at [dst] so far. *)
Fixpoint readi_loop (fuel : nat) (ip : nat) (tot off n : Z) (acc : list Z) : F (list Z) :=
  if tot <? n then
    match fuel with
    | O => diverge
    | Datatypes.S fuel =>
        i ← geti ip;
        a ← bmap ip (off / BSIZE);
        bp ← bread (i_dev i) a;
        let m := Z.min (n - tot) (BSIZE - off mod BSIZE) in
        d ← bdata bp;
        brelse bp ;;
        readi_loop fuel ip (tot + m) (off + m) n (acc ++ slice (Z.to_nat (off mod BSIZE)) (Z.to_nat m) d)
    end
  else mret acc.

Definition readi (ip : nat) (off n : Z) : F (Z * list Z) :=
  i ← geti ip;
  if i_type i =? T_DEV then
    if (i_major i <? 0) || (NDEV <=? i_major i) then mret (-1, []) else
    match devsw_read (i_major i) with
    | None => mret (-1, [])
    | Some read => read ip n
    end
  else if (i_size i <? off) || (u32 (off + n) <? off) then mret (-1, [])
  else
    let n := if i_size i <? u32 (off + n) then i_size i - off else n in
    l ← readi_loop (Z.to_nat (n / BSIZE + 2)) ip 0 off n [];
    mret (n, l).

(** The loop of [writei] over the bytes [src]; it ends with the last [off]. *)
Fixpoint writei_loop (fuel : nat) (ip : nat) (tot off n : Z) (src : list Z) : F Z :=
  if tot <? n then
    match fuel with
    | O => diverge
    | Datatypes.S fuel =>
        i ← geti ip;
        a ← bmap ip (off / BSIZE);
        bp ← bread (i_dev i) a;
        let m := Z.min (n - tot) (BSIZE - off mod BSIZE) in
        d ← bdata bp;
        set_bdata bp (splice (Z.to_nat (off mod BSIZE)) (slice (Z.to_nat tot) (Z.to_nat m) src) d) ;;
        log_write bp ;;
        brelse bp ;;
        writei_loop fuel ip (tot + m) (off + m) n src
    end
  else mret off.

Definition writei (ip : nat) (src : list Z) (off : Z) : F Z :=
  let n := Z.of_nat (length src) in
  i ← geti ip;
  if i_type i =? T_DEV then
    if (i_major i <? 0) || (NDEV <=? i_major i) then mret (-1) else
    match devsw_write (i_major i) with
    | None => mret (-1)
    | Some write => write ip src
    end
  else if (i_size i <? off) || (u32 (off + n) <? off) then mret (-1)
  else if MAXFILE * BSIZE <? u32 (off + n) then mret (-1)
  else
    off ← writei_loop (Z.to_nat (n / BSIZE + 2)) ip 0 off n src;
    i ← geti ip;
    (if (0 <? n) && (i_size i <? off) then
       seti ip (set_i_size off) ;;
       iupdate ip
     else mret tt) ;;
    mret n.

(** ** Directories *)

(** The loop of [dirlookup] from [off] on: the inode and the offset found. *)
Fixpoint dirlookup_loop (n : nat) (dp : nat) (name : list Z) (off : Z) : F (option (nat * Z)) :=
  match n with
  | O => mret None
  | Datatypes.S n =>
      i ← geti dp;
      r ← readi dp off sizeof_dirent;
      let '(k, de) := r in
      if negb (k =? sizeof_dirent) then panic "dirlookup read" else
      if de_inum de =? 0 then dirlookup_loop n dp name (off + sizeof_dirent) else
      if namecmp name (de_name de) =? 0 then
        ip ← iget (i_dev i) (de_inum de);
        mret (Some (ip, off))
      else dirlookup_loop n dp name (off + sizeof_dirent)
  end.
(** The number of passes of [for(off = 0; off < size; off += 16)]. *)
Definition dirents (size : Z) : nat := Z.to_nat ((size + sizeof_dirent - 1) / sizeof_dirent).

Definition dirlookup (dp : nat) (name : list Z) : F (option (nat * Z)) :=
  i ← geti dp;
  if negb (i_type i =? T_DIR) then panic "dirlookup not DIR" else
  dirlookup_loop (dirents (i_size i)) dp name 0.

(** The second loop of [dirlink]: the offset of a free entry or the end. *)
Fixpoint dirlink_scan (n : nat) (dp : nat) (off : Z) : F Z :=
  match n with
  | O => mret off
  | Datatypes.S n =>
      r ← readi dp off sizeof_dirent;
      let '(k, de) := r in
      if negb (k =? sizeof_dirent) then panic "dirlink read" else
      if de_inum de =? 0 then mret off else dirlink_scan n dp (off + sizeof_dirent)
  end.

Definition dirlink (dp : nat) (name : list Z) (inum : Z) : F Z :=
  r ← dirlookup dp name;
  match r with
  | Some (ip, _) => iput ip ;; mret (-1)
  | None =>
      i ← geti dp;
      off ← dirlink_scan (dirents (i_size i)) dp 0;
      k ← writei dp (mk_dirent (u16 inum) name) off;
      if negb (k =? sizeof_dirent) then panic "dirlink" else mret 0
  end.

(** ** Paths *)

(** The loop of [namex]: [ip] is the inode reached, [name] the last element
    taken off the path; every pass shortens the path. *)
Fixpoint namex_loop (fuel : nat) (nameiparent : bool) (ip : nat) (path name : list Z) : F (option (nat * list Z)) :=
  match fuel with
  | O => diverge
  | Datatypes.S fuel =>
      match skipelem path with
      | Some (name, path) =>
          ilock ip ;;
          i ← geti ip;
          if negb (i_type i =? T_DIR) then iunlockput ip ;; mret None else
          if nameiparent && bool_decide (path = []) then iunlock ip ;; mret (Some (ip, name)) else
          r ← dirlookup ip name;
          match r with
          | None => iunlockput ip ;; mret None
          | Some (next, _) =>
              iunlockput ip ;;
              namex_loop fuel nameiparent next path name
          end
      | None =>
          if nameiparent then iput ip ;; mret None else mret (Some (ip, name))
      end
  end.

(** [cwd] is [myproc()->cwd]. *)
Definition namex (cwd : nat) (path : list Z) (nameiparent : bool) : F (option (nat * list Z)) :=
  ip ← (if byte_at path 0 =? 47 then iget ROOTDEV ROOTINO else idup cwd);
  namex_loop (Datatypes.S (length path)) nameiparent ip path [].

Definition namei (cwd : nat) (path : list Z) : F (option nat) :=
  r ← namex cwd path false;
  mret (match r with Some (ip, _) => Some ip | None => None end).

Definition nameiparent (cwd : nat) (path : list Z) : F (option (nat * list Z)) := namex cwd path true.
End fs.
