(* ===== verification/FsBlocks.v ===== *)
(** * The block allocator of fs.c

    The state of the file system as the proofs see it, the rules of the block
    interface lifted to it, the free bitmap, and what [bzero], [balloc] and
    [bfree] do to it. *)

From S2P Require Import Prelude Param Bio Log Blocks Fs.

(** ** Counting logged blocks

    [fits L T]: the blocks logged so far are distinct and among [T]. *)
Definition fits (L T : list Z) : Prop := NoDup L ∧ ∀ n, n ∈ L → n ∈ T.

Lemma fits_length L T : fits L T → (length L <= length T)%nat.
Proof. intros [Hnd Hin]. apply submseteq_length. by apply NoDup_submseteq. Qed.

Lemma fits_logged L T n : fits L T → n ∈ T → fits (logged L n) T.
Proof.
  intros [Hnd Hin] Hn. split.
  - unfold logged. case_decide; [done|]. apply NoDup_app. split_and!; [done| |apply NoDup_singleton].
    intros x Hx. by intros ->%list_elem_of_singleton.
  - intros m [->|Hm]%elem_of_logged; auto.
Qed.

Lemma fits_grow L T n : fits L T → fits L (T ++ [n]).
Proof. intros [Hnd Hin]. split; [done|]. intros m Hm. rewrite elem_of_app. left. by apply Hin. Qed.

Section rules.
Context {S : Type} `{BlockLayerOk S}.
(** Blocks the calls may touch and a lower bound of what they may log. *)
Context (V : Z → Prop) (lim : nat).
Context (V_u32 : ∀ n, V n → is_u32 n) (lim_buf : (lim + 3 <= NBUF)%nat).
Implicit Types s : fsst S.
Implicit Types Hd : gmap Z (nat * list Z).

(** [Hd] gives, for each block this thread holds, its buffer and what the
    buffer holds. *)
Record st (W : Z → list Z) Hd (L : list Z) (b : superblock) (ic : list inode) s : Prop := {
  st_bl : bl_st W (snd <$> Hd) L (fs_b s);
  st_valid n : V n → bl_valid (fs_b s) n;
  st_lim : (lim <= bl_limit (fs_b s))%nat;
  st_handle n i d : Hd !! n = Some (i, d) → bl_handle (fs_b s) i n;
  st_sb : sb s = b;
  st_ic : icache s = ic;
}.

Lemma fs_wp_liftb {A} (m : M S A) (Q : A → fsst S → Prop) s :
  wp (liftb m) Q s ↔ wp m (λ a b, Q a (Fs b (sb s) (icache s) (fs_pid s))) (fs_b s).
Proof. unfold wp, liftb. by destruct (m (fs_b s)). Qed.

Lemma st_ok W Hd L b ic s n : st W Hd L b ic s → V n → Hd !! n = None → block_ok (W n).
Proof.
  intros Hs Hn HHn. eapply bl_st_ok; [apply Hs|by apply Hs|]. by rewrite lookup_fmap, HHn.
Qed.

Lemma fsr_bread W Hd L b ic s n (Q : nat → fsst S → Prop) :
  st W Hd L b ic s → V n → Hd !! n = None → (size Hd <= 2)%nat → (length L <= lim)%nat →
  (∀ i s', st W (<[n := (i, W n)]> Hd) L b ic s' → Q i s') → wp (bread 1 n) Q s.
Proof.
  intros Hs Hn HHn Hsz HL HQ. unfold bread. rewrite fs_wp_liftb. rewrite u32_id by by apply V_u32.
  eapply bl_rule_bread; [apply Hs|by apply Hs|by rewrite lookup_fmap, HHn| |].
  { rewrite map_size_fmap. lia. }
  intros i b' Hb Hi [Hv Hl] Hk. apply HQ. split; cbn [fs_b sb icache]; try apply Hs.
  - rewrite fmap_insert. exact Hb.
  - intros m Hm. apply Hv. by apply Hs.
  - rewrite Hl. apply Hs.
  - intros m j d Hm. apply lookup_insert_Some in Hm as [[<- [= <- <-]]|[_ Hm]]; [done|].
    apply Hk. by eapply st_handle.
Qed.

Lemma fsr_bdata W Hd L b ic s i n d (Q : list Z → fsst S → Prop) :
  st W Hd L b ic s → V n → Hd !! n = Some (i, d) → Q d s → wp (bdata i) Q s.
Proof.
  intros Hs Hn Hi HQ. unfold bdata. rewrite fs_wp_liftb.
  eapply (bl_rule_data W (snd <$> Hd) L (fs_b s) i n d); [apply Hs|by apply Hs|by eapply st_handle| |].
  - by rewrite lookup_fmap, Hi.
  - by destruct s.
Qed.

Lemma fsr_set_bdata W Hd L b ic s i n d v (Q : unit → fsst S → Prop) :
  st W Hd L b ic s → V n → Hd !! n = Some (i, d) → block_ok v → n ≠ 1 →
  (∀ s', st W (<[n := (i, v)]> Hd) L b ic s' → Q tt s') → wp (set_bdata i v) Q s.
Proof.
  intros Hs Hn Hi Hv Hn1 HQ. unfold set_bdata. rewrite fs_wp_liftb.
  eapply (bl_rule_set_data W (snd <$> Hd) L (fs_b s) i n d);
    [apply Hs|by apply Hs|by eapply st_handle|by rewrite lookup_fmap, Hi|done|done|].
  intros b' Hb [Hva Hl] Hk. apply HQ. split; cbn [fs_b sb icache]; try apply Hs.
  - rewrite fmap_insert. exact Hb.
  - intros m Hm. apply Hva. by apply Hs.
  - rewrite Hl. apply Hs.
  - intros m j e Hm. apply Hk. apply lookup_insert_Some in Hm as [[<- [= <- <-]]|[_ Hm]]; by eapply st_handle.
Qed.

Lemma fsr_log_write W Hd L b ic s i n d (Q : unit → fsst S → Prop) :
  st W Hd L b ic s → V n → Hd !! n = Some (i, d) → (length L < lim)%nat → n ≠ 1 →
  (∀ s', st (upd W n d) Hd (logged L n) b ic s' → Q tt s') → wp (log_write i) Q s.
Proof.
  intros Hs Hn Hi HL Hn1 HQ. unfold log_write. rewrite fs_wp_liftb.
  eapply (bl_rule_log_write W (snd <$> Hd) L (fs_b s) i n d);
    [apply Hs|by apply Hs|by eapply st_handle|by rewrite lookup_fmap, Hi| |done|].
  { eapply Nat.lt_le_trans; [exact HL|]. apply Hs. }
  intros b' Hb [Hva Hl] Hk. apply HQ. split; cbn [fs_b sb icache]; try apply Hs.
  - exact Hb.
  - intros m Hm. apply Hva. by apply Hs.
  - rewrite Hl. apply Hs.
  - intros m j e Hm. apply Hk. by eapply st_handle.
Qed.

Lemma fsr_brelse W Hd L b ic s i n (Q : unit → fsst S → Prop) :
  st W Hd L b ic s → V n → Hd !! n = Some (i, W n) →
  (∀ s', st W (delete n Hd) L b ic s' → Q tt s') → wp (brelse i) Q s.
Proof.
  intros Hs Hn Hi HQ. unfold brelse. rewrite fs_wp_liftb.
  eapply (bl_rule_brelse W (snd <$> Hd) L (fs_b s) i n);
    [apply Hs|by apply Hs|by eapply st_handle|by rewrite lookup_fmap, Hi|].
  intros b' Hb [Hva Hl] Hk. apply HQ. split; cbn [fs_b sb icache]; try apply Hs.
  - rewrite fmap_delete. exact Hb.
  - intros m Hm. apply Hva. by apply Hs.
  - rewrite Hl. apply Hs.
  - intros m j e Hm. apply lookup_delete_Some in Hm as [Hne Hm]. apply Hk; [by eapply st_handle|done].
Qed.

(** [b->data = v; log_write(b); brelse(b)] *)
Lemma fsr_commit_block W Hd L b ic s i n d v (Q : unit → fsst S → Prop) :
  st W Hd L b ic s → V n → Hd !! n = Some (i, d) → block_ok v → n ≠ 1 → (length L < lim)%nat →
  (∀ s', st (upd W n v) (delete n Hd) (logged L n) b ic s' → Q tt s') →
  wp (set_bdata i v ;; log_write i ;; brelse i) Q s.
Proof.
  intros Hs Hn Hi Hv Hn1 HL HQ. rewrite wp_bind. eapply fsr_set_bdata; [done..|]. intros s1 H1.
  rewrite wp_bind. eapply fsr_log_write; [exact H1|done|apply lookup_insert_eq|done|done|]. intros s2 H2.
  eapply fsr_brelse; [exact H2|done|by rewrite lookup_insert_eq, upd_eq|]. intros s3 H3.
  apply HQ. by rewrite delete_insert_eq in H3.
Qed.

(** The same, followed by [m]. *)
Lemma fsr_commit_then {A} W Hd L b ic s i n d v (m : M (fsst S) A) (Q : A → fsst S → Prop) :
  st W Hd L b ic s → V n → Hd !! n = Some (i, d) → block_ok v → n ≠ 1 → (length L < lim)%nat →
  (∀ s', st (upd W n v) (delete n Hd) (logged L n) b ic s' → wp m Q s') →
  wp (set_bdata i v ;; log_write i ;; brelse i ;; m) Q s.
Proof.
  intros Hs Hn Hi Hv Hn1 HL HQ.
  pose proof (fsr_commit_block W Hd L b ic s i n d v (λ _, wp m Q) Hs Hn Hi Hv Hn1 HL HQ) as Hw.
  rewrite !wp_bind in *. eapply wp_mono; [exact Hw|]. intros [] s2. cbn beta. rewrite !wp_bind.
  intros Hw2. eapply wp_mono; [exact Hw2|]. intros [] s3. by rewrite wp_bind.
Qed.

Lemma fsr_geti W Hd L b ic s ip i (Q : inode → fsst S → Prop) :
  st W Hd L b ic s → ic !! ip = Some i → Q i s → wp (geti ip) Q s.
Proof. intros Hs Hi HQ. unfold wp, geti. by rewrite (st_ic _ _ _ _ _ _ Hs), Hi. Qed.

Lemma fsr_seti W Hd L b ic s ip i f (Q : unit → fsst S → Prop) :
  st W Hd L b ic s → ic !! ip = Some i →
  (∀ s', st W Hd L b (<[ip := f i]> ic) s' → Q tt s') → wp (seti ip f) Q s.
Proof.
  intros Hs Hi HQ. unfold wp, seti. rewrite (st_ic _ _ _ _ _ _ Hs), Hi. apply HQ.
  destruct Hs as [? ? ? ? ? ?]. by split.
Qed.

Lemma fsr_sb W Hd L b ic s (Q : superblock → fsst S → Prop) :
  st W Hd L b ic s → Q b s → wp (gets sb) Q s.
Proof. intros Hs HQ. rewrite wp_gets. by rewrite (st_sb _ _ _ _ _ _ Hs). Qed.

(** [bread; memset; log_write; brelse]. *)
Lemma bzero_spec W Hd L b ic s n (Q : unit → fsst S → Prop) :
  st W Hd L b ic s → V n → n ≠ 1 → Hd !! n = None → (size Hd <= 2)%nat → (length L < lim)%nat →
  (∀ s', st (upd W n (replicate 512 0)) Hd (logged L n) b ic s' → Q tt s') → wp (bzero 1 n) Q s.
Proof.
  intros Hs Hn Hn1 HHn Hsz HL HQ. unfold bzero. rewrite wp_bind.
  eapply fsr_bread; [exact Hs|done..|lia|]. intros i s1 H1.
  eapply fsr_commit_block; [exact H1|done|apply lookup_insert_eq| |done|done|].
  { split; [apply length_replicate|]. by apply Forall_replicate. }
  intros s2 H2. apply HQ. rewrite delete_insert_id in H2; done.
Qed.
End rules.

(** ** The free bitmap *)

Lemma land_mask_zero x k : 0 <= k → (Z.land x (Z.shiftl 1 k) =? 0) = negb (Z.testbit x k).
Proof.
  intros Hk. rewrite Z.shiftl_1_l. destruct (Z.testbit x k) eqn:E; cbn [negb].
  - apply Z.eqb_neq. intros Hz. pose proof (f_equal (λ z, Z.testbit z k) Hz) as Hb. cbn in Hb.
    rewrite Z.land_spec, E, Z.pow2_bits_true, Z.bits_0 in Hb by done. discriminate Hb.
  - apply Z.eqb_eq, Z.bits_inj_0. intros n. rewrite Z.land_spec.
    destruct (decide (n = k)) as [->|Hne]; [by rewrite E|].
    rewrite Z.pow2_bits_false by done. by rewrite andb_false_r.
Qed.

Lemma bit_set_testbit d bi : bit_set d bi = Z.testbit (byte_at d (Z.to_nat (bi / 8))) (bi mod 8).
Proof.
  unfold bit_set, bit_mask. rewrite land_mask_zero by dlia. by rewrite negb_involutive.
Qed.

Lemma byte_at_insert d k x j : (k < length d)%nat → byte_at (<[k := x]> d) j = if decide (k = j) then x else byte_at d j.
Proof. intros Hk. unfold byte_at. rewrite list_lookup_insert_case by done. by case_decide. Qed.

Lemma byte_at_ok d k : bytes_ok d → 0 <= byte_at d k < 256.
Proof.
  intros Hd. unfold byte_at. destruct (d !! k) eqn:E; cbn; [|lia]. exact (Forall_lookup_1 _ _ _ _ Hd E).
Qed.

Lemma bit_index bi bj : Z.to_nat (bi / 8) = Z.to_nat (bj / 8) → 0 <= bi → 0 <= bj → bi mod 8 = bj mod 8 → bi = bj.
Proof. intros. dlia. Qed.

Lemma bit_set_set d bi bj :
  length d = 512%nat → 0 <= bi < 4096 → 0 <= bj < 4096 →
  bit_set (set_bit d bi) bj = bool_decide (bj = bi) || bit_set d bj.
Proof.
  intros Hl Hi Hj. rewrite !bit_set_testbit. unfold set_bit, bit_mask.
  rewrite byte_at_insert by (rewrite Hl; dlia). case_decide as Hk.
  - rewrite Z.lor_spec, Z.shiftl_1_l, Hk. destruct (decide (bj mod 8 = bi mod 8)) as [E|E].
    + rewrite E, Z.pow2_bits_true, orb_true_r by dlia.
      rewrite bool_decide_true by (symmetry; by apply bit_index; try lia). done.
    + rewrite Z.pow2_bits_false, orb_false_r by congruence. rewrite bool_decide_false by (intros ->; done). done.
  - rewrite bool_decide_false by (intros ->; done). done.
Qed.

Lemma bit_set_clear d bi bj :
  length d = 512%nat → 0 <= bi < 4096 → 0 <= bj < 4096 →
  bit_set (clear_bit d bi) bj = negb (bool_decide (bj = bi)) && bit_set d bj.
Proof.
  intros Hl Hi Hj. rewrite !bit_set_testbit. unfold clear_bit, bit_mask.
  rewrite byte_at_insert by (rewrite Hl; dlia). case_decide as Hk.
  - rewrite Z.land_spec, Z.shiftl_1_l, Hk. unfold u8. change 256 with (2 ^ 8).
    rewrite Z.mod_pow2_bits_low by dlia. rewrite Z.lnot_spec by dlia.
    destruct (decide (bj mod 8 = bi mod 8)) as [E|E].
    + rewrite E, Z.pow2_bits_true, andb_false_r by dlia.
      rewrite bool_decide_true by (symmetry; by apply bit_index; try lia). done.
    + rewrite Z.pow2_bits_false, andb_true_r by congruence. rewrite bool_decide_false by (intros ->; done). done.
  - rewrite bool_decide_false by (intros ->; done). done.
Qed.

Lemma lor_byte x y : 0 <= x < 256 → 0 <= y < 256 → 0 <= Z.lor x y < 256.
Proof.
  intros Hx Hy. split; [apply Z.lor_nonneg; lia|]. destruct (decide (Z.lor x y = 0)) as [->|Hne]; [lia|].
  apply (Z.log2_lt_pow2 _ 8).
  { pose proof (Z.lor_nonneg x y). lia. }
  rewrite Z.log2_lor by lia. apply Z.max_lub_lt.
  - destruct (decide (x = 0)) as [->|]; [done|]. apply Z.log2_lt_pow2; lia.
  - destruct (decide (y = 0)) as [->|]; [done|]. apply Z.log2_lt_pow2; lia.
Qed.

Lemma land_byte x y : 0 <= x < 256 → 0 <= Z.land x y < 256.
Proof.
  intros Hx. split; [apply Z.land_nonneg; lia|].
  replace x with (Z.land x (Z.ones 8)) by (rewrite Z.land_ones by lia; apply Z.mod_small; cbn; lia).
  rewrite <- Z.land_assoc, (Z.land_comm (Z.ones 8)), Z.land_assoc, Z.land_ones by lia.
  cbn. dlia.
Qed.

Lemma bit_mask_byte bi : 0 <= bit_mask bi < 256.
Proof.
  unfold bit_mask. rewrite Z.shiftl_1_l. split; [apply Z.pow_nonneg; lia|].
  change 256 with (2 ^ 8). apply Z.pow_lt_mono_r; dlia.
Qed.

Lemma set_bit_ok d bi : block_ok d → block_ok (set_bit d bi).
Proof.
  intros [Hl Hd]. split; [by unfold set_bit; rewrite length_insert|].
  apply Forall_insert; [done|]. apply lor_byte; [by apply byte_at_ok|apply bit_mask_byte].
Qed.

Lemma clear_bit_ok d bi : block_ok d → block_ok (clear_bit d bi).
Proof.
  intros [Hl Hd]. split; [by unfold clear_bit; rewrite length_insert|].
  apply Forall_insert; [done|]. apply land_byte. by apply byte_at_ok.
Qed.

Lemma balloc_scan_Some n d b bi size k :
  balloc_scan n d b bi size = Some k → bi <= k < bi + Z.of_nat n ∧ b + k < size ∧ bit_set d k = false.
Proof.
  revert bi. induction n as [|n IH]; intros bi; cbn [balloc_scan]; [done|].
  destruct (b + bi <? size) eqn:E; [|done]. destruct (bit_set d bi) eqn:Eb.
  - intros (? & ? & ?)%IH. split_and!; [lia|lia|done..].
  - intros [= <-]. split_and!; [lia..|done].
Qed.

Lemma balloc_scan_None n d b bi size :
  balloc_scan n d b bi size = None →
  ∀ k, bi <= k < bi + Z.of_nat n → b + k < size → bit_set d k = true.
Proof.
  revert bi. induction n as [|n IH]; intros bi; cbn [balloc_scan]; [lia|].
  destruct (b + bi <? size) eqn:E; [|lia]. destruct (bit_set d bi) eqn:Eb; [|done].
  intros Hn k Hk Hs. destruct (decide (k = bi)) as [->|]; [done|]. apply (IH (bi + 1)); [done|lia|done].
Qed.

Section alloc.
Context {S : Type} `{BlockLayerOk S}.
Context (V : Z → Prop) (lim : nat) (b : superblock).
Context (V_u32 : ∀ n, V n → is_u32 n) (lim_buf : (lim + 3 <= NBUF)%nat).
Implicit Types s : fsst S.
Implicit Types Hd : gmap Z (nat * list Z).

(** Where the superblock puts things. *)
Record layout : Prop := {
  lay_start : 0 <= sb_bmapstart b ∧ 0 <= sb_inodestart b ∧ 0 < sb_size b;
  lay_small : sb_size b + sb_bmapstart b < 4294967296 ∧ sb_ninodes b + sb_inodestart b < 4294967296;
  lay_bitmap n : 0 <= n < sb_size b → V (BBLOCK n b) ∧ BBLOCK n b ≠ 1;
  lay_inode i : 0 <= i < sb_ninodes b → V (IBLOCK i b) ∧ IBLOCK i b ≠ 1;
  lay_boot : ¬ V 0;
  lay_apart n i : 0 <= n < sb_size b → 0 <= i < sb_ninodes b → BBLOCK n b ≠ IBLOCK i b;
}.

(** Block [n] is marked in use. *)
Definition used (W : Z → list Z) (n : Z) : bool := bit_set (W (BBLOCK n b)) (n mod BPB).
Definition free (W : Z → list Z) (n : Z) : Prop := 0 <= n < sb_size b ∧ used W n = false.

(** [n] can hold file contents. *)
Record data (n : Z) : Prop := {
  data_valid : V n;
  data_pos : 1 < n < sb_size b;
  data_bitmap m : 0 <= m < sb_size b → n ≠ BBLOCK m b;
  data_inode i : 0 <= i < sb_ninodes b → n ≠ IBLOCK i b;
}.

(** The file system's own blocks are marked in use. *)
Definition bitmap_ok (W : Z → list Z) : Prop := ∀ n, free W n → data n.

(** [W] with block [n] marked and zeroed. *)
Definition take_block (W : Z → list Z) (n : Z) : Z → list Z :=
  upd (upd W (BBLOCK n b) (set_bit (W (BBLOCK n b)) (n mod BPB))) n (replicate 512 0).
Definition drop_block (W : Z → list Z) (n : Z) : Z → list Z :=
  upd W (BBLOCK n b) (clear_bit (W (BBLOCK n b)) (n mod BPB)).

Context (Hlay : layout).

Lemma BBLOCK_eq n : 0 <= n < sb_size b → BBLOCK n b = n / 4096 + sb_bmapstart b.
Proof. intros Hn. destruct Hlay. unfold BBLOCK. change BPB with 4096. rewrite u32_id; [done|dlia]. Qed.

(** The bits of one bitmap block. *)
Lemma BBLOCK_pass p k : 0 <= p → p mod 4096 = 0 → 0 <= k < 4096 → p + k < sb_size b →
  BBLOCK (p + k) b = BBLOCK p b ∧ (p + k) mod BPB = k.
Proof.
  intros Hp Hm Hk Hs. change BPB with 4096. rewrite !BBLOCK_eq by lia. split; dlia.
Qed.

Lemma used_take W n m :
  (∀ k, 0 <= k < sb_size b → length (W (BBLOCK k b)) = 512%nat) → data n → 0 <= m < sb_size b →
  used (take_block W n) m = bool_decide (m = n) || used W m.
Proof.
  intros Hlen Hn Hm. pose proof (data_pos n Hn). unfold used, take_block.
  rewrite upd_ne by (intros E; by apply (data_bitmap n Hn m)).
  unfold upd. case_decide as E.
  - rewrite <- E. rewrite bit_set_set; [|by apply Hlen|change BPB with 4096; dlia..]. f_equal.
    apply bool_decide_ext. split; [|by intros ->]. intros Em.
    rewrite !BBLOCK_eq in E by lia. change BPB with 4096 in Em. dlia.
  - rewrite bool_decide_false by (intros ->; done). done.
Qed.

Lemma used_drop W n m :
  (∀ k, 0 <= k < sb_size b → length (W (BBLOCK k b)) = 512%nat) → 0 <= n < sb_size b → 0 <= m < sb_size b →
  used (drop_block W n) m = negb (bool_decide (m = n)) && used W m.
Proof.
  intros Hlen Hn Hm. unfold used, drop_block, upd. case_decide as E.
  - rewrite <- E. rewrite bit_set_clear; [|by apply Hlen|change BPB with 4096; dlia..]. do 2 f_equal.
    apply bool_decide_ext. split; [|by intros ->]. intros Em.
    rewrite !BBLOCK_eq in E by lia. change BPB with 4096 in Em. dlia.
  - rewrite bool_decide_false by (intros ->; done). done.
Qed.

Lemma take_other W n m : m ≠ n → (∀ k, 0 <= k < sb_size b → m ≠ BBLOCK k b) → 0 <= n < sb_size b →
  take_block W n m = W m.
Proof. intros Hne Hm Hn. unfold take_block. rewrite !upd_ne; auto. Qed.

Lemma bitmap_ok_take W n :
  (∀ k, 0 <= k < sb_size b → length (W (BBLOCK k b)) = 512%nat) → bitmap_ok W → data n → bitmap_ok (take_block W n).
Proof.
  intros Hlen Hb Hn m [Hm Hu]. rewrite used_take in Hu by done. apply orb_false_iff in Hu as [_ Hu].
  apply Hb. by split.
Qed.

(** Bitmap blocks of a state are whole blocks. *)
Lemma bitmap_len W Hd L ic s :
  st V lim W Hd L b ic s → (∀ k, 0 <= k < sb_size b → Hd !! BBLOCK k b = None) →
  ∀ k, 0 <= k < sb_size b → length (W (BBLOCK k b)) = 512%nat.
Proof. intros Hs Hh k Hk. apply (st_ok V lim W Hd L b ic s); [done|by apply Hlay|by apply Hh]. Qed.

(** No held block is a bitmap block or free. *)
Definition apart (W : Z → list Z) Hd : Prop :=
  (∀ k, 0 <= k < sb_size b → Hd !! BBLOCK k b = None) ∧ (∀ n, free W n → Hd !! n = None).

(** The bitmap blocks are among [T]. *)
Definition has_bitmap (T : list Z) : Prop := ∀ k, 0 <= k < sb_size b → BBLOCK k b ∈ T.

Lemma balloc_loop_spec fuel p W Hd L T ic s n0 (Q : Z → fsst S → Prop) :
  st V lim W Hd L b ic s → bitmap_ok W → apart W Hd → (size Hd <= 1)%nat → fits L T → has_bitmap T →
  (length T + 1 < lim)%nat → free W n0 → p <= n0 → 0 <= p → p mod 4096 = 0 →
  (sb_size b - p) / 4096 + 1 < Z.of_nat fuel →
  (∀ a s' L', free W a → st V lim (take_block W a) Hd L' b ic s' → fits L' (T ++ [a]) → Q a s') →
  wp (balloc_loop fuel 1 p) Q s.
Proof.
  intros Hs Hbm Hap Hsz Hfit HT Hlim Hn0 Hpn. revert p s Hs Hpn.
  induction fuel as [|fuel IH]; intros p s Hs Hpn Hp0 Hpm Hfuel HQ.
  { exfalso. pose proof (proj1 Hn0). dlia. }
  pose proof (fits_length _ _ Hfit) as HL. pose proof (proj1 Hn0) as Hn0r. destruct Hap as [Hap1 Hap2].
  cbn [balloc_loop]. rewrite wp_bind. eapply fsr_sb; [exact Hs|].
  rewrite (proj2 (Z.ltb_lt p (sb_size b))) by lia.
  destruct (lay_bitmap Hlay p ltac:(lia)) as [HVp Hp1].
  rewrite wp_bind. eapply fsr_bread; [exact V_u32|exact lim_buf|exact Hs|done|by apply Hap1; lia|lia|lia|].
  intros i s1 H1. rewrite wp_bind. eapply fsr_bdata; [exact H1|done|apply lookup_insert_eq|].
  assert (Hdel : delete (BBLOCK p b) (<[BBLOCK p b := (i, W (BBLOCK p b))]> Hd) = Hd).
  { apply delete_insert_id. apply Hap1. lia. }
  destruct (balloc_scan _ _ p 0 (sb_size b)) as [k|] eqn:Hsc.
  - destruct (balloc_scan_Some _ _ _ _ _ _ Hsc) as (Hk & Hks & Hkb). change (Z.of_nat (Z.to_nat BPB)) with 4096 in Hk.
    destruct (BBLOCK_pass p k Hp0 Hpm ltac:(lia) Hks) as [Eb Em].
    assert (Hf : free W (p + k)) by (split; [lia|]; unfold used; by rewrite Eb, Em).
    pose proof (Hbm _ Hf) as Hdata. pose proof (data_pos _ Hdata) as Hpos.
    eapply fsr_commit_then; [exact H1|done|apply lookup_insert_eq| |done|lia|].
    { apply set_bit_ok. apply (st_ok V lim W Hd L b ic s); [done|done|]. apply Hap1. lia. }
    intros s2 H2. rewrite Hdel in H2. rewrite wp_bind.
    eapply bzero_spec; [exact V_u32|exact lim_buf|exact H2|apply Hdata|lia|by apply Hap2|lia| |].
    { pose proof (fits_length _ _ (fits_logged _ _ (BBLOCK p b) Hfit (HT p ltac:(lia)))). lia. }
    intros s3 H3. rewrite wp_ret. apply (HQ _ _ (logged (logged L (BBLOCK p b)) (p + k))); [exact Hf| |].
    + unfold take_block. by rewrite Eb, Em.
    + apply fits_logged; [|rewrite elem_of_app; right; by apply list_elem_of_singleton].
      apply fits_grow. apply fits_logged; [done|]. apply HT. lia.
  - rewrite wp_bind. eapply fsr_brelse; [exact H1|done|apply lookup_insert_eq|]. intros s2 H2. rewrite Hdel in H2.
    assert (Hge : p + 4096 <= n0).
    { destruct (decide (p + 4096 <= n0)) as [|Hlt]; [done|]. exfalso.
      pose proof (balloc_scan_None _ _ _ _ _ Hsc (n0 - p)) as Hset.
      change (Z.of_nat (Z.to_nat BPB)) with 4096 in Hset. specialize (Hset ltac:(lia) ltac:(lia)).
      destruct (BBLOCK_pass p (n0 - p) Hp0 Hpm ltac:(lia) ltac:(lia)) as [Eb Em].
      replace (p + (n0 - p)) with n0 in Eb, Em by lia. destruct Hn0 as [_ Hu]. unfold used in Hu.
      rewrite Eb, Em in Hu. congruence. }
    change BPB with 4096. apply IH; [exact H2|done|lia|dlia| |exact HQ]. dlia.
Qed.

(** [balloc] takes some free block, marks it, zeroes it and logs it. *)
Lemma balloc_spec W Hd L T ic s n0 (Q : Z → fsst S → Prop) :
  st V lim W Hd L b ic s → bitmap_ok W → apart W Hd → (size Hd <= 1)%nat → fits L T → has_bitmap T →
  (length T + 1 < lim)%nat → free W n0 →
  (∀ a s' L', free W a → st V lim (take_block W a) Hd L' b ic s' → fits L' (T ++ [a]) → Q a s') →
  wp (balloc 1) Q s.
Proof.
  intros Hs Hbm Hap Hsz Hfit HT Hlim Hn0 HQ. unfold balloc. rewrite wp_bind. eapply fsr_sb; [exact Hs|].
  pose proof (proj1 Hn0). eapply (balloc_loop_spec _ 0); try done; [lia|].
  change BPB with 4096. pose proof (Z.div_pos (sb_size b) 4096). rewrite Z2Nat.id by lia. dlia.
Qed.

(** [bfree] clears the bit of a used block, given that block 1 still holds the
    superblock. *)
Lemma bfree_spec W Hd L T ic s n (Q : unit → fsst S → Prop) :
  st V lim W Hd L b ic s → V 1 → Hd !! 1 = None → superblock_of (W 1) = b →
  (∀ k, 0 <= k < sb_size b → Hd !! BBLOCK k b = None) → (size Hd <= 1)%nat → fits L T → has_bitmap T →
  (length T < lim)%nat → 0 <= n < sb_size b → used W n = true →
  (∀ s' L', st V lim (drop_block W n) Hd L' b ic s' → fits L' T → Q tt s') →
  wp (bfree 1 n) Q s.
Proof.
  intros Hs HV1 Hh1 Hsb Hap Hsz Hfit HT Hlim Hn Hu HQ. pose proof (fits_length _ _ Hfit) as HL.
  destruct (lay_bitmap Hlay n Hn) as [HVn Hn1].
  unfold bfree, readsb. rewrite !wp_bind. eapply fsr_bread; [exact V_u32|exact lim_buf|exact Hs|done|done|lia|lia|].
  intros i s1 H1. rewrite wp_bind. eapply fsr_bdata; [exact H1|exact HV1|apply lookup_insert_eq|].
  rewrite wp_bind. eapply fsr_brelse; [exact H1|exact HV1|apply lookup_insert_eq|]. intros s2 H2.
  rewrite delete_insert_id in H2 by done. rewrite wp_ret, wp_bind, wp_modify, Hsb.
  assert (H3 : st V lim W Hd L b ic (Fs (fs_b s2) b (icache s2) (fs_pid s2))) by (destruct H2; by split).
  rewrite wp_bind. eapply fsr_bread; [exact V_u32|exact lim_buf|exact H3|done|by apply Hap|lia|lia|].
  intros j s4 H4. rewrite wp_bind. eapply fsr_bdata; [exact H4|exact HVn|apply lookup_insert_eq|].
  unfold used in Hu. rewrite Hu. cbn [negb].
  eapply fsr_commit_block; [exact H4|exact HVn|apply lookup_insert_eq| |done|lia|].
  { apply clear_bit_ok. apply (st_ok V lim W Hd L b ic s); [done|done|]. by apply Hap. }
  intros s5 H5. rewrite delete_insert_id in H5 by by apply Hap. eapply HQ; [exact H5|].
  apply fits_logged; [done|]. by apply HT.
Qed.

(** Freeing a block twice is caught. *)
Lemma bfree_free W L ic s n :
  st V lim W ∅ L b ic s → V 1 → superblock_of (W 1) = b → (length L <= lim)%nat → 0 <= n < sb_size b →
  used W n = false → bfree 1 n s = Panic "freeing free block".
Proof.
  intros Hs HV1 Hsb HL Hn Hu. destruct (lay_bitmap Hlay n Hn) as [HVn Hn1].
  assert (Hw : wp (readsb 1) (λ sb s', sb = b ∧ st V lim W ∅ L b ic s') s).
  { unfold readsb. rewrite wp_bind. eapply fsr_bread; [exact V_u32|exact lim_buf|exact Hs|done|done|by rewrite map_size_empty; lia|lia|].
    intros i s1 H1. rewrite wp_bind. eapply fsr_bdata; [exact H1|exact HV1|apply lookup_insert_eq|].
    rewrite wp_bind. eapply fsr_brelse; [exact H1|exact HV1|apply lookup_insert_eq|]. intros s2 H2.
    rewrite delete_insert_id in H2 by done. rewrite wp_ret. done. }
  apply wp_elim in Hw as (sb' & s1 & E1 & -> & H1). unfold bfree. rewrite (bind_Ret _ _ _ _ _ E1).
  set (s2 := Fs (fs_b s1) b (icache s1) (fs_pid s1)).
  assert (H2 : st V lim W ∅ L b ic s2) by (destruct H1; by split).
  rewrite (bind_Ret _ _ s1 tt s2) by done.
  assert (Hw : wp (bread 1 (BBLOCK n b)) (λ i s', wp (bdata i) (λ d s'', d = W (BBLOCK n b)) s') s2).
  { eapply fsr_bread; [exact V_u32|exact lim_buf|exact H2|done|done|by rewrite map_size_empty; lia|lia|].
    intros i s3 H3. eapply fsr_bdata; [exact H3|exact HVn|apply lookup_insert_eq|]. done. }
  apply wp_elim in Hw as (i & s3 & E3 & Hw). apply wp_elim in Hw as (d & s4 & E4 & ->).
  rewrite (bind_Ret _ _ _ _ _ E3), (bind_Ret _ _ _ _ _ E4). unfold used in Hu. by rewrite Hu.
Qed.

(** C17: [balloc], when some block is free and the log has room, returns a
    block that was free, now marked and zeroed; no other bit of the bitmap and
    no other block changes, and only the bitmap block and the new block are
    logged. *)
Theorem balloc_correct W L T ic s n0 :
  st V lim W ∅ L b ic s → bitmap_ok W → fits L T → has_bitmap T → (length T + 1 < lim)%nat → free W n0 →
  wp (balloc 1) (λ a s', ∃ L', free W a ∧ st V lim (take_block W a) ∅ L' b ic s' ∧
    take_block W a a = replicate 512 0 ∧
    (∀ m, 0 <= m < sb_size b → used (take_block W a) m = bool_decide (m = a) || used W m) ∧
    (∀ m, m ≠ a → m ≠ BBLOCK a b → take_block W a m = W m) ∧ fits L' (T ++ [a])) s.
Proof.
  intros Hs Hbm Hfit HT Hlim Hn0. eapply balloc_spec; [exact Hs|exact Hbm| | |exact Hfit|exact HT|exact Hlim|exact Hn0|].
  { split; intros; apply lookup_empty. }
  { rewrite map_size_empty. lia. }
  intros a s' L' Ha Hs' Hfit'. exists L'. split_and!; [done|done|unfold take_block; by rewrite upd_eq| | |done].
  - intros m Hm. apply used_take; [|by apply Hbm|done].
    apply (bitmap_len W ∅ L ic s); [done|]. intros. apply lookup_empty.
  - intros m Hm1 Hm2. unfold take_block. by rewrite !upd_ne.
Qed.

(** C20: [bfree] of a block in use clears exactly its bit; of a block that is
    already free it panics, so a double free never corrupts the bitmap. *)
Theorem bfree_correct W L T ic s n :
  st V lim W ∅ L b ic s → V 1 → superblock_of (W 1) = b → fits L T → has_bitmap T → (length T < lim)%nat →
  0 <= n < sb_size b →
  if used W n then
    wp (bfree 1 n) (λ _ s', ∃ L', st V lim (drop_block W n) ∅ L' b ic s' ∧
      ∀ m, 0 <= m < sb_size b → used (drop_block W n) m = negb (bool_decide (m = n)) && used W m) s
  else bfree 1 n s = Panic "freeing free block".
Proof.
  intros Hs HV1 Hsb Hfit HT Hlim Hn. pose proof (fits_length _ _ Hfit) as HL. destruct (used W n) eqn:Hu.
  - eapply bfree_spec; [exact Hs|exact HV1|apply lookup_empty|exact Hsb| | |exact Hfit|exact HT|exact Hlim|exact Hn|exact Hu|].
    { intros. apply lookup_empty. }
    { rewrite map_size_empty. lia. }
    intros s' L' Hs' _. exists L'. split; [done|]. intros m Hm. apply used_drop; [|done|done].
    apply (bitmap_len W ∅ L ic s); [done|]. intros. apply lookup_empty.
  - eapply bfree_free; [exact Hs|exact HV1|exact Hsb|lia|exact Hn|exact Hu].
Qed.
End alloc.
