(* ===== verification/FsFile.v ===== *)
(** * File contents: [bmap], [readi], [writei]

    A file is the blocks its inode maps; [fbyte] is the byte it holds at an
    offset, zero where no block is mapped.  [bmap] never changes the contents
    it shows, [writei] replaces exactly the bytes it is given, and [readi]
    returns them; what is not the file's is left alone, and the number of
    blocks logged stays within the bound the callers reserve. *)

From S2P Require Import Prelude Param Bio Log Blocks Fs FsBlocks.

(** ** The block map *)

Definition ind (addrs : list Z) : Z := byte_at addrs 12.

(** The block address stored for file block [bn], 0 when there is none. *)
Definition amap (W : Z → list Z) (addrs : list Z) (bn : Z) : Z :=
  if bn <? 12 then byte_at addrs (Z.to_nat bn)
  else if ind addrs =? 0 then 0
  else get_le (4 * Z.to_nat (bn - 12)) 4 (W (ind addrs)).

(** The byte of the file at offset [o]. *)
Definition fbyte (W : Z → list Z) (addrs : list Z) (o : Z) : Z :=
  let a := amap W addrs (o / 512) in
  if a =? 0 then 0 else byte_at (W a) (Z.to_nat (o mod 512)).

(** The values of [f] at [off], [off+1], ... *)
Fixpoint tab (f : Z → Z) (off : Z) (n : nat) : list Z :=
  match n with
  | O => []
  | S n => f off :: tab f (off + 1) n
  end.

Lemma tab_app f off m n : tab f off (m + n) = tab f off m ++ tab f (off + Z.of_nat m) n.
Proof.
  revert off. induction m as [|m IH]; intros off; cbn [tab Nat.add app]; [by rewrite Z.add_0_r|].
  rewrite IH. do 3 f_equal. lia.
Qed.

Lemma tab_length f off n : length (tab f off n) = n.
Proof. revert off. induction n as [|n IH]; intros off; cbn [tab length]; [done|]. by rewrite IH. Qed.

Lemma tab_ext f g off off' n :
  (∀ k, (k < n)%nat → f (off + Z.of_nat k) = g (off' + Z.of_nat k)) → tab f off n = tab g off' n.
Proof.
  revert off off'. induction n as [|n IH]; intros off off' Hfg; cbn [tab]; [done|]. f_equal.
  - specialize (Hfg 0%nat ltac:(lia)). by rewrite !Z.add_0_r in Hfg.
  - apply IH. intros k Hk. specialize (Hfg (S k) ltac:(lia)). 
    by replace (off + 1 + Z.of_nat k) with (off + Z.of_nat (S k)) by lia;
      replace (off' + 1 + Z.of_nat k) with (off' + Z.of_nat (S k)) by lia.
Qed.

Lemma lookup_tab f off n k : (k < n)%nat → tab f off n !! k = Some (f (off + Z.of_nat k)).
Proof.
  revert off k. induction n as [|n IH]; intros off k Hk; [lia|]. cbn [tab]. destruct k as [|k]; cbn.
  - by rewrite Z.add_0_r.
  - rewrite IH by lia. do 2 f_equal. lia.
Qed.

Lemma slice_tab o m (d : list Z) :
  (o + m <= length d)%nat → slice o m d = tab (λ x, byte_at d (Z.to_nat x)) (Z.of_nat o) m.
Proof.
  intros Hl. apply list_eq_same_length with m; [apply tab_length|by apply slice_length|].
  intros k x y Hk. rewrite lookup_slice, lookup_tab by done. intros Hx Hy. injection Hy as <-. revert Hx. unfold byte_at.
  replace (Z.to_nat (Z.of_nat o + Z.of_nat k)) with (o + k)%nat by lia. by intros ->.
Qed.

Section file.
Context {S : Type} `{BlockLayerOk S}.
Context (V : Z → Prop) (lim : nat) (b : superblock).
Context (V_u32 : ∀ n, V n → is_u32 n) (lim_buf : (lim + 3 <= NBUF)%nat).
Context (Hlay : layout V b).
Implicit Types s : fsst S.
Implicit Types (W : Z → list Z) (addrs L T : list Z).

(** The mapped blocks are data blocks in use, all different. *)
Record file_ok W addrs : Prop := {
  f_len : length addrs = 13%nat;
  f_data bn : 0 <= bn < 140 → amap W addrs bn ≠ 0 → data V b (amap W addrs bn) ∧ used b W (amap W addrs bn) = true;
  f_inj bn bn' : 0 <= bn < 140 → 0 <= bn' < 140 → amap W addrs bn ≠ 0 → amap W addrs bn = amap W addrs bn' → bn = bn';
  f_ind : ind addrs ≠ 0 → data V b (ind addrs) ∧ used b W (ind addrs) = true;
  f_ind_ne bn : 0 <= bn < 140 → ind addrs ≠ 0 → amap W addrs bn ≠ ind addrs;
}.

(** At least [k] blocks are free. *)
Definition has_free W (k : nat) : Prop := ∃ l, NoDup l ∧ length l = k ∧ ∀ n, n ∈ l → free b W n.

(** [W'] has the block [a] in use and is otherwise as full as [W]. *)
Definition one_more W W' (a : Z) : Prop :=
  ∀ m, 0 <= m < sb_size b → used b W' m = bool_decide (m = a) || used b W m.

Lemma filter_ne_length (a : Z) (l : list Z) : NoDup l → (length l <= Datatypes.S (length (filter (λ x, x ≠ a) l)))%nat.
Proof.
  clear.
  induction 1 as [|x l Hx Hnd IH]; [cbn; lia|]. rewrite filter_cons. case_decide as Hd; [cbn [length]; lia|].
  cbn [length]. apply le_n_S. subst x.
  assert (E : filter (λ x, x ≠ a) l = l); [|by rewrite E].
  clear -Hx. induction l as [|y l IH]; [done|]. rewrite filter_cons. apply not_elem_of_cons in Hx as [Hy Hx].
  case_decide; [by rewrite IH|congruence].
Qed.

Lemma has_free_more W W' a k : one_more W W' a → has_free W (Datatypes.S k) → has_free W' k.
Proof.
  clear V V_u32 lim lim_buf Hlay.
  intros Hm (l & Hnd & Hl & Hf). exists (take k (filter (λ x, x ≠ a) l)).
  pose proof (filter_ne_length a l Hnd) as Hlen. split_and!.
  - eapply sublist_NoDup; [|apply sublist_take]. by apply NoDup_filter.
  - rewrite length_take. lia.
  - intros n Hn. assert (Hn' : n ∈ filter (λ x, x ≠ a) l) by (eapply elem_of_sublist; [exact Hn|apply sublist_take]).
    apply list_elem_of_filter in Hn' as [Hne Hin]. destruct (Hf n Hin) as [Hr Hu]. split; [done|].
    rewrite Hm by done. by rewrite bool_decide_false, Hu.
Qed.

Lemma has_free_one W k : has_free W (Datatypes.S k) → ∃ n, free b W n.
Proof. intros ([|n l] & _ & Hl & Hf); [done|]. exists n. apply Hf. by left. Qed.

Lemma has_free_le W k k' : (k' <= k)%nat → has_free W k → has_free W k'.
Proof.
  clear V V_u32 lim lim_buf Hlay.
  intros Hk (l & Hnd & Hl & Hf). exists (take k' l). split_and!.
  - by eapply sublist_NoDup; [|apply sublist_take].
  - rewrite length_take. lia.
  - intros n Hn. apply Hf. eapply elem_of_sublist; [exact Hn|apply sublist_take].
Qed.

(** Blocks that neither the bitmap nor the allocator may change. *)
Definition safe W (m : Z) : Prop := ¬ free b W m ∧ ∀ k, 0 <= k < sb_size b → m ≠ BBLOCK k b.

Lemma safe_used W m : data V b m → used b W m = true → safe W m.
Proof. intros Hd Hu. split; [intros [_ Hf]; congruence|apply Hd]. Qed.

Lemma safe_more W W' a m : one_more W W' a → safe W m → safe W' m.
Proof.
  intros Hm [Hf Hb]. split; [|done]. intros [Hr Hu]. apply Hf. split; [done|].
  rewrite Hm in Hu by done. by apply orb_false_iff in Hu as [_ ?].
Qed.

Lemma take_safe W a m : free b W a → safe W m → take_block b W a m = W m.
Proof.
  intros Ha [Hf Hb]. apply take_other; [intros ->; done|done|apply Ha].
Qed.

Lemma take_zero W a : data V b a → take_block b W a a = replicate 512 0.
Proof. intros Ha. unfold take_block. by rewrite upd_eq. Qed.

(** File block [bn] gets the fresh block [a]. *)
Lemma grow_block W addrs W' addrs' bn a :
  file_ok W addrs → length addrs' = 13%nat → 0 <= bn < 140 → free b W a → data V b a → one_more W W' a →
  (∀ k, 0 <= k < 140 → k ≠ bn → amap W' addrs' k = amap W addrs k) →
  amap W addrs bn = 0 → amap W' addrs' bn = a → ind addrs' = ind addrs →
  (∀ k, 0 <= k < 140 → amap W addrs k ≠ 0 → W' (amap W addrs k) = W (amap W addrs k)) →
  W' a = replicate 512 0 →
  file_ok W' addrs' ∧ ∀ o, 0 <= o < 71680 → fbyte W' addrs' o = fbyte W addrs o.
Proof.
  intros Hf Hlen Hbn Hfree Ha Hmore Hk Hno Hnew Hind HW Hz.
  assert (Hnot : ∀ m, data V b m → used b W m = true → m ≠ a) by (intros m _ Hu ->; destruct Hfree; congruence).
  assert (Hu : ∀ m, data V b m → used b W m = true → used b W' m = true).
  { intros m Hm Hu. rewrite Hmore by (pose proof (data_pos V b m Hm); lia). by rewrite Hu, orb_true_r. }
  assert (Hua : used b W' a = true).
  { rewrite Hmore by apply Hfree. by rewrite bool_decide_true. }
  split; [split|].
  - done.
  - intros k Hkr Hnz. destruct (decide (k = bn)) as [->|Hne]; [by rewrite Hnew|].
    rewrite Hk in * by done. destruct (f_data _ _ Hf k Hkr Hnz) as [? ?]. auto.
  - intros k k' Hkr Hkr' Hnz E. destruct (decide (k = bn)) as [->|Hne], (decide (k' = bn)) as [->|Hne']; [done|..].
    + rewrite Hnew, Hk in E by done. rewrite Hnew in Hnz.
      destruct (f_data _ _ Hf k' Hkr' ltac:(congruence)) as [Hd Hu']. by destruct (Hnot _ Hd Hu').
    + rewrite Hnew, Hk in E by done. rewrite Hk in Hnz by done.
      destruct (f_data _ _ Hf k Hkr Hnz) as [Hd Hu']. by destruct (Hnot _ Hd Hu').
    + rewrite !Hk in E by done. rewrite Hk in Hnz by done. by apply (f_inj _ _ Hf).
  - rewrite Hind. intros Hnz. destruct (f_ind _ _ Hf Hnz). auto.
  - rewrite Hind. intros k Hkr Hnz. destruct (decide (k = bn)) as [->|Hne].
    + rewrite Hnew. destruct (f_ind _ _ Hf Hnz) as [Hd Hu']. intros E. by apply (Hnot _ Hd Hu').
    + rewrite Hk by done. by apply (f_ind_ne _ _ Hf).
  - intros o Ho. unfold fbyte. assert (Hkr : 0 <= o / 512 < 140) by dlia.
    destruct (decide (o / 512 = bn)) as [E|Hne].
    + rewrite E, Hno, Hnew. cbn. destruct (a =? 0); [done|]. rewrite Hz. unfold byte_at.
      destruct (replicate 512 0 !! Z.to_nat (o mod 512)) eqn:Er; [|done]. by apply lookup_replicate in Er as [-> _].
    + rewrite Hk by done. destruct (amap W addrs (o / 512) =? 0) eqn:E0; [done|]. rewrite HW; [done..|]. lia.
Qed.

(** The indirect block is allocated. *)
Lemma grow_ind W addrs a :
  file_ok W addrs → ind addrs = 0 → free b W a → data V b a →
  one_more W (take_block b W a) a →
  let W' := take_block b W a in
  let addrs' := <[12%nat := a]> addrs in
  file_ok W' addrs' ∧ (∀ o, 0 <= o < 71680 → fbyte W' addrs' o = fbyte W addrs o) ∧
  (∀ k, 0 <= k < 140 → amap W' addrs' k = amap W addrs k).
Proof.
  intros Hf Hno Hfree Ha Hmore W' addrs'. pose proof (f_len _ _ Hf) as Hlen.
  assert (Hi : ind addrs' = a).
  { unfold ind, addrs'. rewrite byte_at_insert by lia. by rewrite decide_True. }
  assert (Hz : ∀ k, (k <= 127)%nat → get_le (4 * k) 4 (replicate 512 0) = 0).
  { intros k Hk. unfold get_le, slice. rewrite drop_replicate, take_replicate. 
    rewrite Nat.min_l by lia. reflexivity. }
  assert (Hk : ∀ k, 0 <= k < 140 → amap W' addrs' k = amap W addrs k).
  { intros k Hk. unfold amap. rewrite Hi, Hno. destruct (k <? 12) eqn:E.
    - unfold addrs'. rewrite byte_at_insert by lia. rewrite decide_False by lia. done.
    - cbn [Z.eqb]. destruct (a =? 0) eqn:Ea; [done|]. unfold W'. rewrite take_zero by done. apply Hz. lia. }
  assert (Hnot : ∀ m, data V b m → used b W m = true → m ≠ a) by (intros m _ Hu ->; destruct Hfree; congruence).
  assert (Hu : ∀ m, data V b m → used b W m = true → used b W' m = true).
  { intros m Hm Hu. unfold W'. rewrite Hmore by (pose proof (data_pos V b m Hm); lia). by rewrite Hu, orb_true_r. }
  split_and!; [split| |done].
  - unfold addrs'. by rewrite length_insert.
  - intros k Hkr Hnz. rewrite Hk in * by done. destruct (f_data _ _ Hf k Hkr Hnz). auto.
  - intros k k' Hkr Hkr' Hnz E. rewrite !Hk in * by done. by apply (f_inj _ _ Hf).
  - rewrite Hi. intros _. split; [done|]. unfold W'. rewrite Hmore by apply Hfree. by rewrite bool_decide_true.
  - intros k Hkr. rewrite Hi, Hk by done. intros Hnz E. assert (Hka : amap W addrs k ≠ 0) by congruence.
    destruct (f_data _ _ Hf k Hkr Hka) as [Hd Hu']. by destruct (Hnot _ Hd Hu').
  - intros o Ho. unfold fbyte. rewrite Hk by dlia. destruct (amap W addrs (o / 512) =? 0) eqn:E; [done|].
    destruct (f_data _ _ Hf (o / 512) ltac:(dlia) ltac:(lia)) as [Hd Hu'].
    unfold W'. rewrite take_safe; [done|done|]. by apply safe_used.
Qed.

(** ** [bmap] *)

(** [T] with the indirect block, when there is one. *)
Definition with_ind addrs T : list Z := if ind addrs =? 0 then T else ind addrs :: T.

(** What an operation on a file needs: [k] free blocks, and logged blocks
    that are the indirect block or among [T]. *)
Record ready W addrs L T (k : nat) : Prop := {
  r_file : file_ok W addrs;
  r_bitmap : bitmap_ok V b W;
  r_fits : fits L (with_ind addrs T);
  r_T : has_bitmap b T;
  r_free : has_free W k;
}.

(** The same file with more blocks mapped: contents, mapped blocks and
    everything that is not the bitmap, free or the indirect block are kept. *)
Record extends W addrs W' addrs' : Prop := {
  ex_bytes o : 0 <= o < 71680 → fbyte W' addrs' o = fbyte W addrs o;
  ex_keep k : 0 <= k < 140 → amap W addrs k ≠ 0 → amap W' addrs' k = amap W addrs k;
  ex_ind : ind addrs ≠ 0 → ind addrs' = ind addrs;
  ex_frame m : safe W m → ind addrs' = 0 ∨ m ≠ ind addrs' → W' m = W m;
  ex_safe m : safe W m → safe W' m;
}.

Lemma extends_refl W addrs : extends W addrs W addrs.
Proof. by split. Qed.

Lemma extends_trans W addrs W1 addrs1 W2 addrs2 :
  extends W addrs W1 addrs1 → extends W1 addrs1 W2 addrs2 → extends W addrs W2 addrs2.
Proof.
  intros [B1 K1 I1 F1 S1] [B2 K2 I2 F2 S2]. split.
  - intros o Ho. by rewrite B2, B1.
  - intros k Hk Hnz. rewrite K2; [by apply K1|done|]. by rewrite K1.
  - intros Hnz. rewrite I2; [by apply I1|]. by rewrite I1.
  - intros m Hm Hne. rewrite F2; [|by apply S1|done]. apply F1; [done|].
    destruct (decide (ind addrs1 = 0)) as [|Hi]; [by left|]. right. rewrite <- I2 by done.
    destruct Hne as [E|]; [|done]. rewrite I2 in E; done.
  - auto.
Qed.

Lemma with_ind_length addrs T : (length (with_ind addrs T) <= Datatypes.S (length T))%nat.
Proof. clear. unfold with_ind. destruct (_ =? _); cbn [length]; lia. Qed.

Lemma elem_with_ind addrs T n : n ∈ with_ind addrs T ↔ n ∈ T ∨ (ind addrs ≠ 0 ∧ n = ind addrs).
Proof.
  clear.
  unfold with_ind. destruct (ind addrs =? 0) eqn:E.
  - split; [by left|]. intros [|[? _]]; [done|lia].
  - rewrite elem_of_cons. split; intros [|]; auto; [right; split; [lia|done]|tauto].
Qed.

Lemma with_ind_bitmap addrs T : has_bitmap b T → has_bitmap b (with_ind addrs T).
Proof. intros HT k Hk. apply elem_with_ind. left. by apply HT. Qed.

Lemma fits_weaken L T T' : fits L T → (∀ n, n ∈ T → n ∈ T') → fits L T'.
Proof. intros [Hnd Hin] HT. split; [done|]. auto. Qed.

Lemma take_more W Hd L ic s a :
  st V lim W Hd L b ic s → (∀ k, 0 <= k < sb_size b → Hd !! BBLOCK k b = None) → data V b a →
  one_more W (take_block b W a) a.
Proof.
  intros Hs Hap Ha m Hm. eapply used_take; try done. by eapply bitmap_len.
Qed.

(** [balloc] inside a file operation that holds at most the indirect block. *)
Lemma alloc_spec W addrs Hd L T ic s k (Q : Z → fsst S → Prop) :
  st V lim W Hd L b ic s → ready W addrs L T (Datatypes.S k) → (length T + 2 < lim)%nat →
  (Hd = ∅ ∨ ∃ h, ind addrs ≠ 0 ∧ Hd = {[ind addrs := h]}) →
  (∀ a s' L', free b W a → data V b a → one_more W (take_block b W a) a →
     st V lim (take_block b W a) Hd L' b ic s' → fits L' (with_ind addrs T ++ [a]) → Q a s') →
  wp (balloc 1) Q s.
Proof.
  intros Hs Hr Hlim HHd HQ. destruct (has_free_one W k (r_free _ _ _ _ _ Hr)) as [n0 Hn0].
  pose proof (with_ind_length addrs T) as Hwl.
  assert (Hap : apart b W Hd).
  { destruct HHd as [->|(h & Hnz & ->)]; [split; intros; apply lookup_empty|].
    destruct (f_ind _ _ (r_file _ _ _ _ _ Hr) Hnz) as [Hd' Hu]. split.
    - intros j Hj. apply lookup_singleton_ne. by apply Hd'.
    - intros n [_ Hn]. apply lookup_singleton_ne. congruence. }
  eapply (balloc_spec V lim b V_u32 lim_buf Hlay W Hd L (with_ind addrs T) ic s n0);
    [exact Hs|apply Hr|exact Hap| |apply Hr|apply with_ind_bitmap, Hr|lia|exact Hn0|].
  { destruct HHd as [->|(h & _ & ->)]; [rewrite map_size_empty; lia|rewrite map_size_singleton; lia]. }
  intros a s' L' Hf Hs' Hfit. pose proof (r_bitmap _ _ _ _ _ Hr a Hf) as Ha.
  apply (HQ a s' L'); [done|done| |done|done].
  apply (take_more W Hd L ic s); [done|apply Hap|done].
Qed.

Lemma set_i_addrs_same i : set_i_addrs (i_addrs i) i = i.
Proof. by destruct i. Qed.

(** A direct block is allocated. *)
Lemma direct_grow W addrs L' T bn a k :
  ready W addrs L' T (Datatypes.S k) → 0 <= bn < 12 → amap W addrs bn = 0 → free b W a → data V b a →
  one_more W (take_block b W a) a →
  let W' := take_block b W a in
  let addrs' := <[Z.to_nat bn := a]> addrs in
  file_ok W' addrs' ∧ extends W addrs W' addrs' ∧ amap W' addrs' bn = a.
Proof.
  intros Hr Hbn Hno Hf Ha Hmore W' addrs'. pose proof (r_file _ _ _ _ _ Hr) as Hfile.
  pose proof (f_len _ _ Hfile) as Hlen.
  assert (Hind : ind addrs' = ind addrs).
  { unfold ind, addrs'. rewrite byte_at_insert by lia. by rewrite decide_False by lia. }
  assert (HWi : ind addrs ≠ 0 → W' (ind addrs) = W (ind addrs)).
  { intros Hnz. destruct (f_ind _ _ Hfile Hnz). unfold W'. rewrite take_safe; [done|done|by apply safe_used]. }
  assert (Hoth : ∀ j, 0 <= j < 140 → j ≠ bn → amap W' addrs' j = amap W addrs j).
  { intros j Hj Hne. unfold amap. rewrite Hind. destruct (j <? 12) eqn:E.
    - unfold addrs'. rewrite byte_at_insert by lia. by rewrite decide_False by lia.
    - destruct (ind addrs =? 0) eqn:Ei; [done|]. rewrite HWi by lia. done. }
  assert (Hat : amap W' addrs' bn = a).
  { unfold amap. rewrite (proj2 (Z.ltb_lt bn 12)) by lia. unfold addrs'. rewrite byte_at_insert by lia.
    by rewrite decide_True. }
  destruct (grow_block W addrs W' addrs' bn a) as [Hf' Hb'];
    [done|unfold addrs'; by rewrite length_insert|lia|done..| |by apply take_zero|].
  { intros j Hj Hnz. destruct (f_data _ _ Hfile j Hj Hnz). unfold W'. rewrite take_safe; [done|done|by apply safe_used]. }
  split_and!; [done| |done]. split; [done| |done| |].
  - intros j Hj Hnz. apply Hoth; [done|]. intros ->. done.
  - intros m Hm _. unfold W'. by apply take_safe.
  - intros m Hm. by eapply safe_more.
Qed.

(** An entry of the indirect block is filled. *)
Lemma entry_grow W addrs L' T bn a k :
  ready W addrs L' T (Datatypes.S k) → 12 <= bn < 140 → amap W addrs bn = 0 → ind addrs ≠ 0 → free b W a → data V b a →
  one_more W (take_block b W a) a → length (W (ind addrs)) = 512%nat →
  let W' := upd (take_block b W a) (ind addrs) (put_le (4 * Z.to_nat (bn - 12)) 4 a (W (ind addrs))) in
  file_ok W' addrs ∧ extends W addrs W' addrs ∧ amap W' addrs bn = a ∧ bitmap_ok V b W' ∧ has_free W' k.
Proof.
  intros Hr Hbn Hno Hnz Hf Ha Hmore Hlen W'. pose proof (r_file _ _ _ _ _ Hr) as Hfile.
  destruct (f_ind _ _ Hfile Hnz) as [Hid Hiu].
  assert (Hine : ind addrs ≠ a) by (intros E; destruct Hf as [_ Hfu]; congruence).
  assert (Hmore' : one_more W W' a).
  { intros m Hm. rewrite <- Hmore by done. unfold used, W'. rewrite upd_ne; [done|].
    intros E. symmetry in E. by apply (data_bitmap V b _ Hid m). }
  assert (HWo : ∀ m, m ≠ ind addrs → W' m = take_block b W a m) by (intros; by apply upd_ne).
  assert (HWi : W' (ind addrs) = put_le (4 * Z.to_nat (bn - 12)) 4 a (W (ind addrs))) by apply upd_eq.
  assert (Hoth : ∀ j, 0 <= j < 140 → j ≠ bn → amap W' addrs j = amap W addrs j).
  { intros j Hj Hne. unfold amap. destruct (j <? 12) eqn:E; [done|]. destruct (ind addrs =? 0) eqn:Ei; [done|].
    rewrite HWi. apply get_put_other; lia. }
  assert (Hau : 0 <= a < 2 ^ 32) by (pose proof (V_u32 a (data_valid V b a Ha)) as Hu; unfold is_u32 in Hu; lia).
  assert (Hat : amap W' addrs bn = a).
  { unfold amap. rewrite (proj2 (Z.ltb_ge bn 12)), (proj2 (Z.eqb_neq _ _)) by lia. rewrite HWi.
    rewrite get_put_same by lia. apply Z.mod_small. done. }
  destruct (grow_block W addrs W' addrs bn a) as [Hf' Hb']; [done|apply Hfile|lia|done..| | |].
  { intros j Hj Hjz. destruct (f_data _ _ Hfile j Hj Hjz). rewrite HWo by by apply (f_ind_ne _ _ Hfile).
    rewrite take_safe; [done|done|by apply safe_used]. }
  { rewrite HWo by congruence. by apply take_zero. }
  split_and!; [done| |done| |by eapply has_free_more, Hr].
  - split; [done| |done| |].
    + intros j Hj Hjz. apply Hoth; [done|]. intros ->. done.
    + intros m Hm [E|Hne]; [done|]. rewrite HWo by done. by apply take_safe.
    + intros m Hm. by eapply safe_more.
  - intros m [Hm Hu]. rewrite Hmore' in Hu by done. apply orb_false_iff in Hu as [_ Hu].
    apply (r_bitmap _ _ _ _ _ Hr). by split.
Qed.

Lemma ready_more W addrs L T k W' addrs' L' T' a :
  ready W addrs L T (Datatypes.S k) → file_ok W' addrs' → one_more W W' a → fits L' (with_ind addrs' T') →
  (∀ n, n ∈ T → n ∈ T') → ready W' addrs' L' T' k.
Proof.
  intros Hr Hf Hm Hfit HT. split; [done| |done| |].
  - intros m [Hmr Hu]. rewrite Hm in Hu by done. apply orb_false_iff in Hu as [_ Hu]. apply (r_bitmap _ _ _ _ _ Hr). by split.
  - intros j Hj. apply HT. by apply Hr.
  - eapply has_free_more; [exact Hm|apply Hr].
Qed.

Lemma ready_le W addrs L T k k' T' :
  ready W addrs L T k → (k' <= k)%nat → (∀ n, n ∈ T → n ∈ T') → ready W addrs L T' k'.
Proof.
  intros Hr Hk HT. split; [apply Hr|apply Hr| | |].
  - eapply fits_weaken; [apply Hr|]. intros n. rewrite !elem_with_ind. intros [|]; auto.
  - intros j Hj. apply HT. by apply Hr.
  - eapply has_free_le; [exact Hk|apply Hr].
Qed.

Lemma elem_snoc (l : list Z) (x n : Z) : n ∈ l ++ [x] ↔ n ∈ l ∨ n = x.
Proof. by rewrite elem_of_app, list_elem_of_singleton. Qed.

(** The first half of the indirect case: the indirect block exists. *)
Lemma bmap_ind_spec W L T ic s ip i k (Q : Z → fsst S → Prop) :
  st V lim W ∅ L b ic s → ic !! ip = Some i → i_dev i = 1 → ready W (i_addrs i) L T (Datatypes.S k) →
  (length T + 2 < lim)%nat →
  (∀ W' addrs' L' s', st V lim W' ∅ L' b (<[ip := set_i_addrs addrs' i]> ic) s' →
     ready W' addrs' L' T k → extends W (i_addrs i) W' addrs' → ind addrs' ≠ 0 →
     (∀ j, 0 <= j < 140 → amap W' addrs' j = amap W (i_addrs i) j) →
     (ind (i_addrs i) ≠ 0 → addrs' = i_addrs i) → Q (ind addrs') s') →
  wp (if ind (i_addrs i) =? 0 then
        addr ← balloc (i_dev i);
        seti ip (λ i, set_i_addrs (<[Z.to_nat NDIRECT := addr]> (i_addrs i)) i) ;;
        mret addr
      else mret (ind (i_addrs i))) Q s.
Proof.
  intros Hs Hi Hdev Hr Hlim HQ. pose proof (f_len _ _ (r_file _ _ _ _ _ Hr)) as Hlen.
  destruct (ind (i_addrs i) =? 0) eqn:E.
  - apply Z.eqb_eq in E. rewrite Hdev, wp_bind.
    eapply (alloc_spec W (i_addrs i) ∅ L T ic s k); [done|done|done|by left|].
    intros a s1 L1 Hf Ha Hmore H1 Hfit. rewrite wp_bind. eapply fsr_seti; [exact H1|exact Hi|].
    intros s2 H2. rewrite wp_ret. change (Z.to_nat NDIRECT) with 12%nat in H2.
    destruct (grow_ind W (i_addrs i) a (r_file _ _ _ _ _ Hr) E Hf Ha Hmore) as (Hf' & Hb' & Hk').
    assert (Hia : ind (<[12%nat:=a]> (i_addrs i)) = a).
    { unfold ind. rewrite byte_at_insert by lia. by rewrite decide_True. }
    rewrite <- Hia at 1. pose proof (data_pos V b a Ha).
    eapply HQ; [exact H2| | |rewrite Hia; lia|done|by rewrite E].
    + eapply ready_more; [exact Hr|done|exact Hmore| |done].
      eapply fits_weaken; [exact Hfit|]. intros n. unfold with_ind at 1. rewrite E, elem_snoc, elem_with_ind, Hia.
      cbn [Z.eqb]. intros [|]; [by left|right; split; [lia|done]].
    + split; [done| | | |].
      * intros j Hj _. by apply Hk'.
      * by rewrite E.
      * intros m Hm _. by apply take_safe.
      * intros m Hm. by eapply safe_more.
  - rewrite wp_ret. eapply HQ; [|by eapply ready_le; [exact Hr|lia|]|apply extends_refl|lia|done|done].
    rewrite set_i_addrs_same, list_insert_id by done. exact Hs.
Qed.

Lemma bmap_spec W L T ic s ip i bn k (Q : Z → fsst S → Prop) :
  st V lim W ∅ L b ic s → ic !! ip = Some i → i_dev i = 1 → 0 <= bn < 140 →
  ready W (i_addrs i) L T (2 + k) → (length T + 3 < lim)%nat →
  (∀ a W' addrs' L' s', st V lim W' ∅ L' b (<[ip := set_i_addrs addrs' i]> ic) s' →
     ready W' addrs' L' (T ++ [a]) k → extends W (i_addrs i) W' addrs' →
     amap W' addrs' bn = a → a ≠ 0 →
     (amap W (i_addrs i) bn ≠ 0 → addrs' = i_addrs i ∧ a = amap W (i_addrs i) bn) → Q a s') →
  wp (bmap ip bn) Q s.
Proof.
  intros Hs Hi Hdev Hbn Hr Hlim HQ. unfold bmap. rewrite wp_bind. eapply fsr_geti; [exact Hs|exact Hi|].
  change NDIRECT with 12. change NINDIRECT with 128. cbv zeta. pose proof (with_ind_length (i_addrs i) T) as Hwl0.
  destruct (bn <? 12) eqn:Ebn.
  - assert (Ham : byte_at (i_addrs i) (Z.to_nat bn) = amap W (i_addrs i) bn) by (unfold amap; by rewrite Ebn).
    rewrite Ham. destruct (amap W (i_addrs i) bn =? 0) eqn:E0.
    + apply Z.eqb_eq in E0. rewrite Hdev, wp_bind.
      eapply (alloc_spec W (i_addrs i) ∅ L T ic s (1 + k)); [done|done|lia|by left|].
      intros a s1 L1 Hf Ha Hmore H1 Hfit. rewrite wp_bind. eapply fsr_seti; [exact H1|exact Hi|].
      intros s2 H2. rewrite wp_ret. pose proof (data_pos V b a Ha) as Hpos.
      destruct (direct_grow W (i_addrs i) L T bn a (1 + k) Hr ltac:(lia) E0 Hf Ha Hmore) as (Hf' & Hx & Hat).
      eapply HQ; [exact H2| |exact Hx|exact Hat|lia|by intros []].
      eapply (ready_le _ _ _ (T ++ [a]) (1 + k)); [|lia|done].
      eapply ready_more; [exact Hr|done|exact Hmore| |intros n; rewrite elem_snoc; by left].
      eapply fits_weaken; [exact Hfit|]. intros n. rewrite elem_snoc, !elem_with_ind, elem_snoc.
      intros [[|[Hnz ->]]|]; auto. rewrite (ex_ind _ _ _ _ Hx) by done. auto.
    + rewrite wp_ret. eapply HQ; [|by eapply (ready_le _ _ _ T (2 + k)); [exact Hr|lia|intros n; rewrite elem_snoc; by left]
        |apply extends_refl|done|lia|done].
      rewrite set_i_addrs_same, list_insert_id by done. exact Hs.
  - rewrite (proj2 (Z.ltb_lt (bn - 12) 128)) by lia. rewrite wp_bind.
    change (byte_at (i_addrs i) (Z.to_nat 12)) with (ind (i_addrs i)).
    eapply (bmap_ind_spec W L T ic s ip i (1 + k)); [done|done|done|done|lia|].
    intros W1 addrs1 L1 s1 H1 Hr1 Hx1 Hnz Hk1 Hsame.
    pose proof (f_ind _ _ (r_file _ _ _ _ _ Hr1) Hnz) as [Hid Hiu].
    pose proof (with_ind_length addrs1 T) as Hwl. pose proof (fits_length _ _ (r_fits _ _ _ _ _ Hr1)) as HL1.
    pose proof (st_ok V lim _ _ _ _ _ _ (ind addrs1) H1 (data_valid V b _ Hid) (lookup_empty _)) as Hok.
    rewrite Hdev, wp_bind.
    eapply fsr_bread; [exact V_u32|exact lim_buf|exact H1|apply Hid|apply lookup_empty|rewrite map_size_empty; lia|lia|].
    intros h s2 H2. rewrite wp_bind. eapply fsr_bdata; [exact H2|apply Hid|apply lookup_insert_eq|].
    assert (Ham : get_le (4 * Z.to_nat (bn - 12)) 4 (W1 (ind addrs1)) = amap W1 addrs1 bn).
    { unfold amap. rewrite Ebn. by rewrite (proj2 (Z.eqb_neq _ _) Hnz). }
    rewrite Ham, !wp_bind. destruct (amap W1 addrs1 bn =? 0) eqn:E0.
    + apply Z.eqb_eq in E0. rewrite wp_bind.
      eapply (alloc_spec W1 addrs1 _ L1 T _ s2 k); [exact H2|exact Hr1|lia|right; eauto|].
      intros a s3 L3 Hf Ha Hmore H3 Hfit. rewrite wp_bind. pose proof (data_pos V b a Ha) as Hpos.
      destruct (entry_grow W1 addrs1 L1 T bn a k Hr1 ltac:(lia) E0 Hnz Hf Ha Hmore ltac:(apply Hok))
        as (Hf' & Hx & Hat & Hbm & Hfr).
      pose proof (data_pos V b _ Hid) as Hipos.
      eapply fsr_set_bdata; [exact H3|apply Hid|apply lookup_insert_eq| |lia|].
      { destruct Hok as [Hl Hb]. split; [rewrite put_le_length; lia|by apply put_le_ok]. }
      intros s4 H4. rewrite wp_bind. pose proof (fits_length _ _ Hfit) as HL3. rewrite length_app in HL3. cbn in HL3.
      eapply fsr_log_write; [exact H4|apply Hid|apply lookup_insert_eq|lia|lia|].
      intros s5 H5. rewrite wp_ret, wp_bind. eapply fsr_brelse; [exact H5|apply Hid| |].
      { by rewrite lookup_insert_eq, upd_eq. }
      intros s6 H6. rewrite wp_ret. rewrite insert_insert_eq, delete_insert_id in H6 by apply lookup_empty.
      eapply HQ; [exact H6| |by eapply extends_trans|exact Hat|lia|by rewrite <- Hk1, E0 by done]. split; [done|done| | |done].
      * apply fits_logged; [|apply elem_with_ind; by right].
        eapply fits_weaken; [exact Hfit|]. intros n. rewrite elem_snoc, !elem_with_ind, elem_snoc. tauto.
      * intros j Hj. rewrite elem_snoc. left. by apply Hr1.
    + rewrite wp_ret, wp_bind. eapply fsr_brelse; [exact H2|apply Hid|apply lookup_insert_eq|]. intros s3 H3.
      rewrite wp_ret. rewrite delete_insert_id in H3 by apply lookup_empty.
      eapply HQ; [exact H3| |done|done|lia|].
      2:{ intros Hnz'. rewrite Hk1 by done. split; [|done]. apply Hsame. intros E. apply Hnz'. unfold amap.
          by rewrite Ebn, (proj2 (Z.eqb_eq _ _) E). }
      eapply (ready_le _ _ _ T (1 + k)); [exact Hr1|lia|]. intros n. rewrite elem_snoc. by left.
Qed.

(** A file block that is there is found without a change. *)
Lemma bmap_mapped W L ic s ip i bn (Q : Z → fsst S → Prop) :
  st V lim W ∅ L b ic s → ic !! ip = Some i → i_dev i = 1 → 0 <= bn < 140 → file_ok W (i_addrs i) →
  amap W (i_addrs i) bn ≠ 0 → (length L <= lim)%nat →
  (∀ s', st V lim W ∅ L b ic s' → Q (amap W (i_addrs i) bn) s') → wp (bmap ip bn) Q s.
Proof.
  intros Hs Hi Hdev Hbn Hf Hnz HL HQ. unfold bmap. rewrite wp_bind. eapply fsr_geti; [exact Hs|exact Hi|].
  change NDIRECT with 12. change NINDIRECT with 128. cbv zeta.
  change (byte_at (i_addrs i) (Z.to_nat 12)) with (ind (i_addrs i)).
  destruct (bn <? 12) eqn:Ebn.
  - assert (Ham : byte_at (i_addrs i) (Z.to_nat bn) = amap W (i_addrs i) bn) by (unfold amap; by rewrite Ebn).
    rewrite Ham, (proj2 (Z.eqb_neq _ _) Hnz), wp_ret. by apply HQ.
  - assert (Hi0 : ind (i_addrs i) ≠ 0).
    { intros E. apply Hnz. unfold amap. by rewrite Ebn, (proj2 (Z.eqb_eq _ _) E). }
    destruct (f_ind _ _ Hf Hi0) as [Hid Hiu].
    rewrite (proj2 (Z.ltb_lt (bn - 12) 128)), (proj2 (Z.eqb_neq _ _) Hi0) by lia.
    rewrite wp_bind, wp_ret, Hdev, wp_bind.
    eapply fsr_bread; [exact V_u32|exact lim_buf|exact Hs|apply Hid|apply lookup_empty|rewrite map_size_empty; lia|lia|].
    intros h s2 H2. rewrite wp_bind. eapply fsr_bdata; [exact H2|apply Hid|apply lookup_insert_eq|].
    assert (Ham : get_le (4 * Z.to_nat (bn - 12)) 4 (W (ind (i_addrs i))) = amap W (i_addrs i) bn).
    { unfold amap. by rewrite Ebn, (proj2 (Z.eqb_neq _ _) Hi0). }
    rewrite Ham, wp_bind, (proj2 (Z.eqb_neq _ _) Hnz), wp_ret, wp_bind.
    eapply fsr_brelse; [exact H2|apply Hid|apply lookup_insert_eq|]. intros s3 H3.
    rewrite wp_ret. rewrite delete_insert_id in H3 by apply lookup_empty. by apply HQ.
Qed.

(** ** Reading *)

(** The loop of [readi] appends the bytes of the file. *)
Lemma readi_loop_spec fuel W L ic s ip i tot off n acc (Q : list Z → fsst S → Prop) :
  st V lim W ∅ L b ic s → ic !! ip = Some i → i_dev i = 1 → file_ok W (i_addrs i) → (length L <= lim)%nat →
  0 <= off → off + (n - tot) <= 71680 → tot <= n →
  (∀ o, off <= o < off + (n - tot) → amap W (i_addrs i) (o / 512) ≠ 0) →
  (tot < n → (off mod 512 + (n - tot) + 511) / 512 <= Z.of_nat fuel) →
  (∀ s', st V lim W ∅ L b ic s' → Q (acc ++ tab (fbyte W (i_addrs i)) off (Z.to_nat (n - tot))) s') →
  wp (readi_loop fuel ip tot off n acc) Q s.
Proof.
  intros Hs Hi Hdev Hf HL. revert tot off acc s Hs.
  induction fuel as [|fuel IH]; intros tot off acc s Hs Hoff Hmax Htot Hmap Hfuel HQ; cbn [readi_loop];
    destruct (tot <? n) eqn:E.
  - exfalso. specialize (Hfuel ltac:(lia)). dlia.
  - rewrite wp_ret. replace (Z.to_nat (n - tot)) with 0%nat in HQ by lia. cbn [tab] in HQ.
    rewrite app_nil_r in HQ. by apply HQ.
  - assert (Hbn : 0 <= off / 512 < 140) by dlia. specialize (Hmap off ltac:(lia)) as Hnz.
    destruct (f_data _ _ Hf _ Hbn Hnz) as [Hd Hu]. set (a := amap W (i_addrs i) (off / 512)) in *.
    pose proof (st_ok V lim _ _ _ _ _ _ a Hs (data_valid V b _ Hd) (lookup_empty _)) as [Hlen _].
    rewrite wp_bind. eapply fsr_geti; [exact Hs|exact Hi|]. rewrite wp_bind. change BSIZE with 512.
    eapply bmap_mapped; [exact Hs|exact Hi|done|done|done|done|done|]. fold a. intros s1 H1. rewrite wp_bind, Hdev.
    eapply fsr_bread; [exact V_u32|exact lim_buf|exact H1|apply Hd|apply lookup_empty|rewrite map_size_empty; lia|lia|].
    intros h s2 H2. cbv zeta. rewrite wp_bind. eapply fsr_bdata; [exact H2|apply Hd|apply lookup_insert_eq|].
    rewrite wp_bind. eapply fsr_brelse; [exact H2|apply Hd|apply lookup_insert_eq|]. intros s3 H3.
    rewrite delete_insert_id in H3 by apply lookup_empty.
    set (m := Z.min (n - tot) (512 - off mod 512)). assert (Hm : 0 < m <= n - tot) by dlia.
    apply (IH (tot + m) (off + m)); [exact H3|lia|lia|lia| | |].
    { intros o Ho. apply Hmap. lia. }
    { intros Hlt. specialize (Hfuel ltac:(lia)). assert (Em : m = 512 - off mod 512) by lia.
      replace ((off + m) mod 512) with 0 by dlia. dlia. }
    intros s4 H4. specialize (HQ s4 H4).
    replace (Z.to_nat (n - tot)) with (Z.to_nat m + Z.to_nat (n - (tot + m)))%nat in HQ by lia.
    rewrite tab_app, app_assoc in HQ. rewrite Z2Nat.id in HQ by lia.
    enough (Esl : slice (Z.to_nat (off mod 512)) (Z.to_nat m) (W a) = tab (fbyte W (i_addrs i)) off (Z.to_nat m))
      by by rewrite Esl.
    rewrite slice_tab by (rewrite Hlen; dlia). apply tab_ext. intros k Hk. unfold fbyte.
    replace ((off + Z.of_nat k) / 512) with (off / 512) by dlia. fold a.
    rewrite (proj2 (Z.eqb_neq a 0) Hnz). f_equal. dlia.
  - rewrite wp_ret. replace (Z.to_nat (n - tot)) with 0%nat in HQ by lia. cbn [tab] in HQ.
    rewrite app_nil_r in HQ. by apply HQ.
Qed.

(** ** Writing *)

(** Block [m] belongs to the file. *)
Definition own W addrs (m : Z) : Prop :=
  m ≠ 0 ∧ (m = ind addrs ∨ ∃ k, 0 <= k < 140 ∧ amap W addrs k = m).

(** The file now has the bytes [l] at [off]; the rest of it, and every block
    that is not its own, the bitmap's or free, is as before. *)
Record wrote W addrs W' addrs' (off : Z) (l : list Z) : Prop := {
  w_bytes o : 0 <= o < 71680 → fbyte W' addrs' o =
    if decide (off <= o < off + Z.of_nat (length l)) then byte_at l (Z.to_nat (o - off)) else fbyte W addrs o;
  w_keep k : 0 <= k < 140 → amap W addrs k ≠ 0 → amap W' addrs' k = amap W addrs k;
  w_ind : ind addrs ≠ 0 → ind addrs' = ind addrs;
  w_map o : 0 <= o < 71680 → off <= o < off + Z.of_nat (length l) → amap W' addrs' (o / 512) ≠ 0;
  w_frame m : safe W m → ¬ own W' addrs' m → W' m = W m;
  w_safe m : safe W m → safe W' m;
  w_same : (∀ o, off <= o < off + Z.of_nat (length l) → amap W addrs (o / 512) ≠ 0) → addrs' = addrs;
}.

Lemma wrote_nil W addrs off : wrote W addrs W addrs off [].
Proof.
  split; try done.
  - intros o _. rewrite decide_False; [done|cbn; lia].
  - intros o _ Ho. cbn in Ho. lia.
Qed.

Lemma own_keep W addrs W' addrs' m :
  (∀ k, 0 <= k < 140 → amap W addrs k ≠ 0 → amap W' addrs' k = amap W addrs k) →
  (ind addrs ≠ 0 → ind addrs' = ind addrs) → own W addrs m → own W' addrs' m.
Proof.
  intros Hk Hi [Hnz [->|(k & Hkr & <-)]]; (split; [done|]).
  - left. symmetry. by apply Hi.
  - right. exists k. split; [done|]. by apply Hk.
Qed.

Lemma wrote_trans W addrs W1 addrs1 W2 addrs2 off l1 l2 :
  0 <= off → off + Z.of_nat (length l1 + length l2) <= 71680 →
  wrote W addrs W1 addrs1 off l1 → wrote W1 addrs1 W2 addrs2 (off + Z.of_nat (length l1)) l2 →
  wrote W addrs W2 addrs2 off (l1 ++ l2).
Proof.
  intros Hoff Hmax [B1 K1 I1 M1 F1 S1 E1] [B2 K2 I2 M2 F2 S2 E2].
  assert (HK : ∀ k, 0 <= k < 140 → amap W addrs k ≠ 0 → amap W2 addrs2 k = amap W addrs k).
  { intros k Hk Hnz. rewrite K2; [by apply K1|done|]. by rewrite K1. }
  split; rewrite ?length_app, ?Nat2Z.inj_add.
  - intros o Ho. rewrite B2 by done. rewrite B1 by done. unfold byte_at. repeat case_decide; try lia.
    + rewrite lookup_app_r by lia. do 2 f_equal. lia.
    + rewrite lookup_app_l by lia. done.
  - done.
  - intros Hnz. rewrite I2; [by apply I1|]. by rewrite I1.
  - intros o Ho Hr. destruct (decide (o < off + Z.of_nat (length l1))) as [Hlt|Hge].
    + rewrite K2; [apply M1; lia|dlia|]. apply M1; lia.
    + apply M2; lia.
  - intros m Hm Hno. rewrite F2; [|by apply S1|done]. apply F1; [done|]. intros Ho. apply Hno.
    exact (own_keep W1 addrs1 W2 addrs2 m K2 I2 Ho).
  - auto.
  - intros Hmap. assert (Ea : addrs1 = addrs) by (apply E1; intros o Ho; apply Hmap; lia). rewrite <- Ea at 1.
    apply E2. intros o Ho. assert (Hz : amap W addrs (o / 512) ≠ 0) by (apply Hmap; lia). rewrite K1; [done|dlia|done].
Qed.

(** Data written into a mapped block. *)
Lemma write_block W addrs a off l :
  file_ok W addrs → amap W addrs (off / 512) = a → a ≠ 0 → length (W a) = 512%nat → 0 <= off < 71680 →
  off mod 512 + Z.of_nat (length l) <= 512 →
  let W' := upd W a (splice (Z.to_nat (off mod 512)) l (W a)) in
  file_ok W' addrs ∧ wrote W addrs W' addrs off l ∧ (∀ m, 0 <= m < sb_size b → used b W' m = used b W m).
Proof.
  intros Hf Ha Hnz Hlen Hoff Hfit W'. assert (Hbn : 0 <= off / 512 < 140) by dlia.
  destruct (f_data _ _ Hf _ Hbn ltac:(by rewrite Ha)) as [Hd Hu]. rewrite Ha in Hd, Hu.
  assert (Hu' : ∀ m, 0 <= m < sb_size b → used b W' m = used b W m).
  { intros m Hm. unfold used, W'. rewrite upd_ne; [done|]. intros E. symmetry in E. by apply (data_bitmap V b a Hd m). }
  assert (Ham : ∀ k, 0 <= k < 140 → amap W' addrs k = amap W addrs k).
  { intros k Hk. unfold amap. destruct (k <? 12); [done|]. destruct (ind addrs =? 0) eqn:E; [done|].
    unfold W'. rewrite upd_ne; [done|]. rewrite <- Ha. intros E'. symmetry in E'. by apply (f_ind_ne _ _ Hf _ Hbn ltac:(lia)). }
  split_and!; [split|split|done].
  - apply Hf.
  - intros k Hk Hz. rewrite Ham in * by done. destruct (f_data _ _ Hf k Hk Hz) as [Hdk Huk]. split; [done|].
    rewrite Hu'; [done|]. pose proof (data_pos V b _ Hdk). lia.
  - intros k k' Hk Hk' Hz E. rewrite !Ham in * by done. by apply (f_inj _ _ Hf).
  - intros Hz. destruct (f_ind _ _ Hf Hz) as [Hdk Huk]. split; [done|].
    rewrite Hu'; [done|]. pose proof (data_pos V b _ Hdk). lia.
  - intros k Hk Hz. rewrite Ham by done. by apply (f_ind_ne _ _ Hf).
  - intros o Ho. unfold fbyte. rewrite Ham by dlia. destruct (decide (o / 512 = off / 512)) as [E|E].
    + rewrite E, Ha. unfold W'. rewrite upd_eq. rewrite (proj2 (Z.eqb_neq a 0) Hnz). unfold byte_at. case_decide as Hr.
      * rewrite lookup_splice_in by dlia. do 2 f_equal. dlia.
      * rewrite lookup_splice_out by dlia. done.
    + rewrite decide_False by dlia. unfold W'.
      destruct (amap W addrs (o / 512) =? 0) eqn:Ez; [done|]. rewrite upd_ne; [done|]. intros Eq. apply E.
      apply (f_inj _ _ Hf); [dlia|done|lia|]. by rewrite Ha.
  - intros k Hk _. by apply Ham.
  - done.
  - intros o Ho Hr. rewrite Ham by dlia. replace (o / 512) with (off / 512) by dlia. by rewrite Ha.
  - intros m Hm Hno. unfold W'. apply upd_ne. intros ->. apply Hno. split; [done|]. right.
    exists (off / 512). split; [done|]. by rewrite Ham.
  - intros m [Hm1 Hm2]. split; [|done]. intros [Hr Hum]. apply Hm1. split; [done|]. by rewrite <- Hu'.
  - done.
Qed.

Lemma extends_wrote W addrs W1 addrs1 W2 off l :
  (l ≠ [] → amap W addrs (off / 512) ≠ 0 → addrs1 = addrs) → l ≠ [] → off mod 512 + Z.of_nat (length l) <= 512 →
  extends W addrs W1 addrs1 → wrote W1 addrs1 W2 addrs1 off l → wrote W addrs W2 addrs1 off l.
Proof.
  intros Hsame Hl Hblk [B1 K1 I1 F1 S1] [B2 K2 I2 M2 F2 S2 E2]. split.
  - intros o Ho. rewrite B2 by done. by rewrite B1.
  - intros k Hk Hnz. rewrite K2; [by apply K1|done|]. by rewrite K1.
  - done.
  - done.
  - intros m Hm Hno. rewrite F2; [|by apply S1|done]. apply F1; [done|].
    destruct (decide (ind addrs1 = 0)) as [|Hi]; [by left|]. right. intros ->. apply Hno. split; [done|]. by left.
  - auto.
  - intros Hmap. apply Hsame; [done|]. apply Hmap. destruct l; [done|]. cbn [length]. lia.
Qed.

(** Number of blocks a write of [n] bytes at [off] touches. *)
Definition touched (off n : Z) : Z := (off mod 512 + n + 511) / 512.

Lemma ready_used W addrs L T k W' L' :
  ready W addrs L T k → file_ok W' addrs → (∀ m, 0 <= m < sb_size b → used b W' m = used b W m) →
  fits L' (with_ind addrs T) → ready W' addrs L' T k.
Proof.
  intros Hr Hf Hu Hfit. split; [done| |done|apply Hr|].
  - intros m [Hm Hum]. apply (r_bitmap _ _ _ _ _ Hr). split; [done|]. by rewrite <- Hu.
  - destruct (r_free _ _ _ _ _ Hr) as (l & Hnd & Hl & Hfr). exists l. split_and!; [done..|].
    intros n Hn. destruct (Hfr n Hn) as [Hr' Hun]. split; [done|]. by rewrite Hu.
Qed.

Lemma writei_loop_spec fuel W L T ic s ip i tot off n src (Q : Z → fsst S → Prop) :
  st V lim W ∅ L b ic s → ic !! ip = Some i → i_dev i = 1 → n = Z.of_nat (length src) → bytes_ok src →
  0 <= tot <= n → 0 <= off → off + (n - tot) <= 71680 →
  (tot < n → touched off (n - tot) <= Z.of_nat fuel) →
  ready W (i_addrs i) L T (if decide (tot < n) then (2 * Z.to_nat (touched off (n - tot)))%nat else 0%nat) →
  (tot < n → (length T + Z.to_nat (touched off (n - tot)) + 3 < lim)%nat) →
  (∀ W' addrs' L' T' s', st V lim W' ∅ L' b (<[ip := set_i_addrs addrs' i]> ic) s' →
     ready W' addrs' L' T' 0 → (∀ m, m ∈ T → m ∈ T') →
     (length T' <= length T + if decide (tot < n)%Z then Z.to_nat (touched off (n - tot)) else 0)%nat →
     wrote W (i_addrs i) W' addrs' off (drop (Z.to_nat tot) src) → Q (off + (n - tot)) s') →
  wp (writei_loop fuel ip tot off n src) Q s.
Proof.
  intros Hs Hi Hdev Hn Hsrc. revert W L T ic s i tot off Hs Hi Hdev.
  induction fuel as [|fuel IH]; intros W L T ic s i tot off Hs Hi Hdev Htot Hoff Hmax Hfuel Hr Hlim HQ;
    cbn [writei_loop]; destruct (tot <? n) eqn:E.
  1: { exfalso. specialize (Hfuel ltac:(lia)). unfold touched in Hfuel. dlia. }
  1, 3: rewrite wp_ret; rewrite decide_False in Hr, HQ by lia; replace (n - tot) with 0 in HQ by lia;
    rewrite Z.add_0_r in HQ; eapply HQ; [rewrite set_i_addrs_same, list_insert_id by done; exact Hs|exact Hr|done|lia|];
    rewrite drop_ge by lia; apply wrote_nil.
  rewrite decide_True in Hr, HQ by lia. specialize (Hfuel ltac:(lia)). specialize (Hlim ltac:(lia)).
  pose proof (Z.mod_pos_bound off 512 ltac:(lia)) as Hmod. assert (Htn : tot < n) by lia.
  set (m := Z.min (n - tot) (512 - off mod 512)). assert (Hm : 0 < m <= n - tot) by (clear -Hmod Htn; lia).
  set (N := touched off (n - tot)) in *. assert (HN : 1 <= N) by (unfold N, touched; dlia).
  assert (HN' : tot + m < n → touched (off + m) (n - (tot + m)) = N - 1).
  { intros Hlt. assert (Em : m = 512 - off mod 512) by lia. unfold N, touched.
    replace ((off + m) mod 512) with 0 by dlia. dlia. }
  rewrite wp_bind. eapply fsr_geti; [exact Hs|exact Hi|]. rewrite wp_bind. change BSIZE with 512.
  eapply (bmap_spec W L T ic s ip i (off / 512) (2 * Z.to_nat N - 2));
    [exact Hs|exact Hi|done|dlia|by replace (2 + (2 * Z.to_nat N - 2))%nat with (2 * Z.to_nat N)%nat by lia|lia|].
  intros a W1 addrs1 L1 s1 H1 Hr1 Hx Hat Hnz Hsame. rewrite Hdev, wp_bind.
  assert (Hbn : 0 <= off / 512 < 140) by dlia.
  pose proof (r_file _ _ _ _ _ Hr1) as Hf1.
  destruct (f_data _ _ Hf1 _ Hbn ltac:(by rewrite Hat)) as [Hd Hu]. rewrite Hat in Hd, Hu.
  pose proof (data_pos V b a Hd) as Hpos.
  pose proof (st_ok V lim _ _ _ _ _ _ a H1 (data_valid V b _ Hd) (lookup_empty _)) as [Hlen Hbytes].
  pose proof (fits_length _ _ (r_fits _ _ _ _ _ Hr1)) as HL1. pose proof (with_ind_length addrs1 (T ++ [a])) as Hwl.
  rewrite length_app in Hwl. cbn [length] in Hwl.
  eapply fsr_bread; [exact V_u32|exact lim_buf|exact H1|apply Hd|apply lookup_empty|rewrite map_size_empty; lia|lia|].
  intros h s2 H2. cbv zeta. rewrite wp_bind. eapply fsr_bdata; [exact H2|apply Hd|apply lookup_insert_eq|].
  fold m. set (l := slice (Z.to_nat tot) (Z.to_nat m) src).
  assert (Hll : length l = Z.to_nat m) by (apply slice_length; lia).
  destruct (write_block W1 addrs1 a off l Hf1 Hat Hnz Hlen ltac:(lia) ltac:(rewrite Hll; dlia)) as (Hf2 & Hw2 & Hu2).
  eapply fsr_commit_then; [exact H2|apply Hd|apply lookup_insert_eq| |lia|lia|].
  { split; [rewrite splice_length; [done|rewrite Hll; dlia]|]. apply splice_ok; [by apply slice_ok|done]. }
  intros s3 H3. rewrite delete_insert_id in H3 by apply lookup_empty.
  set (W2 := upd W1 a (splice (Z.to_nat (off mod 512)) l (W1 a))) in *.
  set (i1 := set_i_addrs addrs1 i) in *.
  assert (Hw1 : wrote W (i_addrs i) W2 addrs1 off l).
  { eapply extends_wrote; [| |rewrite Hll; dlia|exact Hx|exact Hw2].
    - intros _ Hz. by apply Hsame.
    - intros ->. cbn in Hll. lia. }
  assert (Hr2 : ready W2 addrs1 (logged L1 a) (T ++ [a]) (2 * Z.to_nat N - 2)).
  { eapply ready_used; [exact Hr1|done|done|]. apply fits_logged; [apply Hr1|].
    apply elem_with_ind. left. rewrite elem_snoc. by right. }
  eapply (IH W2 (logged L1 a) (T ++ [a]) _ s3 i1 (tot + m) (off + m));
    [exact H3|apply list_lookup_insert_eq; by eapply lookup_lt_Some|done|lia|lia|lia| | | |].
  { intros Hlt. rewrite HN' by done. lia. }
  { cbn [i_addrs i1]. eapply ready_le; [exact Hr2| |done]. case_decide; [|lia]. rewrite HN' by done. lia. }
  { intros Hlt. rewrite HN' by done. rewrite length_app. cbn. lia. }
  intros W' addrs' L' T' s' Hs' Hr' HT' HTl Hw'. rewrite list_insert_insert_eq in Hs'.
  replace (off + m + (n - (tot + m))) with (off + (n - tot)) by lia.
  eapply HQ; [exact Hs'|exact Hr'| | |].
  - intros x Hx'. apply HT'. rewrite elem_snoc. by left.
  - rewrite length_app in HTl. cbn [length] in HTl. case_decide as Hlt; [rewrite HN' in HTl by done|]; lia.
  - cbn [i_addrs i1] in Hw'. replace (drop (Z.to_nat tot) src) with (l ++ drop (Z.to_nat (tot + m)) src).
    2:{ unfold l, slice. rewrite Z2Nat.inj_add, <- drop_drop by lia. apply take_drop. }
    eapply wrote_trans; [done| |exact Hw1|].
    + rewrite Hll, length_drop. lia.
    + rewrite Hll, Z2Nat.id by lia. exact Hw'.
Qed.
End file.
