(* ===== verification/FsInode.v ===== *)
(** * Reading and writing a file through its inode

    The on-disk inode ([iupdate]/[ilock] round trip), the invariant of a
    cached inode, and the theorems about [readi] and [writei]. *)

From S2P Require Import Prelude Param Bio Log Blocks Fs FsBlocks FsFile.

(** ** Storing and loading a dinode *)

Definition short_ok (x : Z) : Prop := -32768 <= x < 32768.

(** The fields fit the types of [struct dinode]. *)
Record inode_wf (i : inode) : Prop := {
  wf_type : short_ok (i_type i);
  wf_major : short_ok (i_major i);
  wf_minor : short_ok (i_minor i);
  wf_nlink : short_ok (i_nlink i);
  wf_size : is_u32 (i_size i);
  wf_len : length (i_addrs i) = 13%nat;
  wf_addrs : Forall is_u32 (i_addrs i);
}.

Lemma i16_mod x : short_ok x → i16 (x mod 256 ^ Z.of_nat 2) = x.
Proof. unfold short_ok, i16. change (256 ^ Z.of_nat 2) with 65536. intros. dlia. Qed.

Lemma addrs_bytes_length l : length (concat (le_bytes 4 <$> l)) = (4 * length l)%nat.
Proof. induction l as [|x l IH]; [done|]. cbn [fmap list_fmap concat]. rewrite length_app, IH, le_bytes_length. cbn. lia. Qed.

Lemma addrs_bytes_ok l : bytes_ok (concat (le_bytes 4 <$> l)).
Proof.
  induction l as [|x l IH]; [constructor|]. cbn [fmap list_fmap concat]. apply Forall_app. split; [apply le_bytes_ok|done].
Qed.

(** Entry [k] of an array of little-endian words. *)
Lemma addrs_bytes_slice l k x :
  l !! k = Some x → slice (4 * k) 4 (concat (le_bytes 4 <$> l)) = le_bytes 4 x.
Proof.
  revert k. induction l as [|y l IH]; intros k Hk; [done|]. cbn [fmap list_fmap concat]. destruct k as [|k].
  - injection Hk as ->. unfold slice. rewrite Nat.mul_0_r, drop_0.
    by rewrite take_app_length' by by rewrite le_bytes_length.
  - unfold slice. replace (4 * S k)%nat with (length (le_bytes 4 y) + 4 * k)%nat by (rewrite le_bytes_length; lia).
    rewrite drop_app_add. by apply IH.
Qed.

(** The words before the address array. *)
Definition dinode_head (off : nat) (i : inode) (d : list Z) : list Z :=
  put_le (off + 8) 4 (i_size i) (put_le (off + 6) 2 (i_nlink i) (put_le (off + 4) 2 (i_minor i)
    (put_le (off + 2) 2 (i_major i) (put_le off 2 (i_type i) d)))).

Lemma store_dinode_eq off i d :
  store_dinode off i d = splice (off + 12) (concat (le_bytes 4 <$> i_addrs i)) (dinode_head off i d).
Proof. done. Qed.

Lemma dinode_head_length off i d : (off + 64 <= length d)%nat → length (dinode_head off i d) = length d.
Proof. intros Hl. unfold dinode_head. rewrite !put_le_length; rewrite ?put_le_length; rewrite ?put_le_length; rewrite ?put_le_length; rewrite ?put_le_length; lia. Qed.

Lemma store_dinode_length off i d :
  length (i_addrs i) = 13%nat → (off + 64 <= length d)%nat → length (store_dinode off i d) = length d.
Proof.
  intros Ha Hl. rewrite store_dinode_eq, splice_length; [by apply dinode_head_length|].
  rewrite addrs_bytes_length, dinode_head_length by done. lia.
Qed.

Lemma store_dinode_bytes off i d : bytes_ok d → bytes_ok (store_dinode off i d).
Proof.
  intros Hd. rewrite store_dinode_eq. apply splice_ok; [apply addrs_bytes_ok|]. unfold dinode_head. by repeat apply put_le_ok.
Qed.

(** A field of the head survives the address array. *)
Lemma get_head off i d o n :
  length (i_addrs i) = 13%nat → (off + 64 <= length d)%nat → (o + n <= off + 12)%nat →
  get_le o n (store_dinode off i d) = get_le o n (dinode_head off i d).
Proof.
  intros Ha Hl Ho. unfold get_le. rewrite store_dinode_eq. f_equal. apply slice_splice_other.
  - rewrite addrs_bytes_length, dinode_head_length by done. lia.
  - left. lia.
Qed.

Ltac put_len := rewrite ?put_le_length by (rewrite ?put_le_length by (rewrite ?put_le_length by
  (rewrite ?put_le_length by lia; lia); lia); lia); lia.

(** [iupdate] then [ilock]: the inode read back is the one stored. *)
Lemma load_store_dinode off i d :
  inode_wf i → (off + 64 <= length d)%nat → load_dinode off (store_dinode off i d) i = i.
Proof.
  intros Hi Hl. pose proof (wf_len i Hi) as Hlen. pose proof (wf_size i Hi) as Hsz. unfold is_u32 in Hsz.
  unfold load_dinode, dinode_type. rewrite !get_head by (done || lia). unfold dinode_head.
  repeat (rewrite (get_put_other (off + 8)) by (put_len || lia)).
  repeat (rewrite (get_put_other (off + 6)) by (put_len || lia)).
  repeat (rewrite (get_put_other (off + 4)) by (put_len || lia)).
  repeat (rewrite (get_put_other (off + 2)) by (put_len || lia)).
  rewrite !get_put_same by put_len. rewrite !i16_mod by apply Hi.
  rewrite (Z.mod_small (i_size i)) by (cbn; lia).
  replace (dinode_addrs off (store_dinode off i d)) with (i_addrs i); [by destruct i|].
  unfold dinode_addrs. apply list_eq_same_length with 13%nat; [|done|].
  { by rewrite length_fmap, length_seq. }
  intros k x y Hk Hx Hy. rewrite list_lookup_fmap, lookup_seq_lt in Hy by done. cbn in Hy. injection Hy as <-.
  unfold get_le. rewrite store_dinode_eq.
  rewrite <- (slice_slice (off + 12) 52 (4 * k) 4) by lia.
  replace 52%nat with (length (concat (le_bytes 4 <$> i_addrs i))) at 1 by (rewrite addrs_bytes_length; lia).
  rewrite slice_splice_same by (rewrite addrs_bytes_length, dinode_head_length by done; lia).
  rewrite (addrs_bytes_slice _ _ _ Hx), le_val_bytes. symmetry. apply Z.mod_small.
  exact (Forall_lookup_1 _ _ _ _ (wf_addrs i Hi) Hx).
Qed.

Lemma slice_put_other off n v off' n' l :
  (off + n <= length l)%nat → (off' + n' <= off ∨ off + n <= off')%nat →
  slice off' n' (put_le off n v l) = slice off' n' l.
Proof. intros. unfold put_le. apply slice_splice_other; rewrite le_bytes_length; lia. Qed.

(** Other inodes of the block are left alone. *)
Lemma store_dinode_other off i d off' n :
  length (i_addrs i) = 13%nat → (off + 64 <= length d)%nat → (off' + n <= off ∨ off + 64 <= off')%nat →
  slice off' n (store_dinode off i d) = slice off' n d.
Proof.
  intros Ha Hl Ho. rewrite store_dinode_eq, slice_splice_other.
  - unfold dinode_head. by rewrite !slice_put_other by (put_len || lia).
  - rewrite addrs_bytes_length, dinode_head_length by done. lia.
  - rewrite addrs_bytes_length. lia.
Qed.

(** ** Files through the inode cache *)

Section inode.
Context {S : Type} `{BlockLayerOk S}.
Context (V : Z → Prop) (lim : nat) (b : superblock).
Context (V_u32 : ∀ n, V n → is_u32 n) (lim_buf : (lim + 3 <= NBUF)%nat).
Context (Hlay : layout V b).
Implicit Types s : fsst S.
Implicit Types (W : Z → list Z) (L T : list Z).

(** Offset of an inode in its block. *)
Definition inode_off (inum : Z) : nat := Z.to_nat (inum mod IPB * sizeof_dinode).

Lemma inode_off_in inum : 0 <= inum → (inode_off inum + 64 <= 512)%nat.
Proof. intros Hi. unfold inode_off. change IPB with 8. change sizeof_dinode with 64. dlia. Qed.

(** The inode on disk is the cached one. *)
Definition synced W i : Prop := load_dinode (inode_off (i_inum i)) (W (IBLOCK (i_inum i) b)) i = i.

(** A locked, valid inode of a file or directory. *)
Record file_inv W i : Prop := {
  fi_file : file_ok V b W (i_addrs i);
  fi_dev : i_dev i = 1;
  fi_inum : 0 <= i_inum i < sb_ninodes b;
  fi_size : 0 <= i_size i <= 71680;
  fi_map o : 0 <= o < i_size i → amap W (i_addrs i) (o / 512) ≠ 0;
  fi_type : i_type i ≠ T_DEV;
  fi_short : short_ok (i_type i) ∧ short_ok (i_major i) ∧ short_ok (i_minor i) ∧ short_ok (i_nlink i);
  fi_synced : synced W i;
}.

Lemma data_u32 n : data V b n → is_u32 n.
Proof. intros Hn. apply V_u32. by apply Hn. Qed.

Lemma file_addrs_u32 W addrs : file_ok V b W addrs → Forall is_u32 addrs.
Proof.
  intros Hf. apply Forall_lookup_2. intros k x Hx. pose proof (lookup_lt_Some _ _ _ Hx) as Hk.
  rewrite (f_len _ _ _ _ Hf) in Hk. destruct (decide (x = 0)) as [->|Hnz]; [unfold is_u32; lia|].
  destruct (decide (k = 12%nat)) as [->|Hne].
  - assert (Ei : ind addrs = x) by (unfold ind, byte_at; by rewrite Hx). apply data_u32. rewrite <- Ei.
    apply (f_ind _ _ _ _ Hf). congruence.
  - assert (Ea : amap W addrs (Z.of_nat k) = x).
    { unfold amap. rewrite (proj2 (Z.ltb_lt _ _)) by lia. unfold byte_at. by rewrite Nat2Z.id, Hx. }
    apply data_u32. rewrite <- Ea. apply (f_data _ _ _ _ Hf); [lia|congruence].
Qed.

(** A change outside the file and the bitmap. *)
Lemma file_ok_other W addrs m v :
  file_ok V b W addrs → ¬ data V b m → (∀ k, 0 <= k < sb_size b → m ≠ BBLOCK k b) →
  file_ok V b (upd W m v) addrs ∧ (∀ k, 0 <= k < 140 → amap (upd W m v) addrs k = amap W addrs k) ∧
  (∀ o, 0 <= o < 71680 → fbyte (upd W m v) addrs o = fbyte W addrs o).
Proof.
  intros Hf Hm Hb.
  assert (Hu : ∀ k, 0 <= k < sb_size b → used b (upd W m v) k = used b W k).
  { intros k Hk. unfold used. rewrite upd_ne; [done|]. intros E. symmetry in E. by apply (Hb k). }
  assert (Hd : ∀ n, data V b n → upd W m v n = W n) by (intros n Hn; apply upd_ne; intros ->; done).
  assert (Ha : ∀ k, 0 <= k < 140 → amap (upd W m v) addrs k = amap W addrs k).
  { intros k Hk. unfold amap. destruct (k <? 12); [done|]. destruct (ind addrs =? 0) eqn:E; [done|].
    rewrite Hd; [done|]. apply (f_ind _ _ _ _ Hf). lia. }
  split_and!; [split|done|].
  - apply Hf.
  - intros k Hk Hz. rewrite Ha in * by done. destruct (f_data _ _ _ _ Hf k Hk Hz) as [D U]. split; [done|].
    rewrite Hu; [done|]. pose proof (data_pos V b _ D). lia.
  - intros k k' Hk Hk' Hz E. rewrite !Ha in * by done. by apply (f_inj _ _ _ _ Hf).
  - intros Hz. destruct (f_ind _ _ _ _ Hf Hz) as [D U]. split; [done|]. rewrite Hu; [done|].
    pose proof (data_pos V b _ D). lia.
  - intros k Hk Hz. rewrite Ha by done. by apply (f_ind_ne _ _ _ _ Hf).
  - intros o Ho. unfold fbyte. rewrite Ha by dlia. destruct (amap W addrs (o / 512) =? 0) eqn:E; [done|].
    rewrite Hd; [done|]. apply (f_data _ _ _ _ Hf); [dlia|lia].
Qed.

Lemma iblock_not_data i : 0 <= i < sb_ninodes b → ¬ data V b (IBLOCK i b).
Proof. intros Hi Hd. by apply (data_inode V b _ Hd i). Qed.

Lemma iblock_safe W i : bitmap_ok V b W → 0 <= i < sb_ninodes b → safe b W (IBLOCK i b).
Proof.
  intros Hb Hi. split.
  - intros Hf. by apply (iblock_not_data i Hi), Hb.
  - intros k Hk E. symmetry in E. by apply (lay_apart _ _ Hlay k i).
Qed.

Lemma iupdate_spec W L ic s ip i (Q : unit → fsst S → Prop) :
  st V lim W ∅ L b ic s → ic !! ip = Some i → i_dev i = 1 → 0 <= i_inum i < sb_ninodes b →
  length (i_addrs i) = 13%nat → (length L < lim)%nat →
  (∀ s', st V lim (upd W (IBLOCK (i_inum i) b) (store_dinode (inode_off (i_inum i)) i (W (IBLOCK (i_inum i) b)))) ∅
     (logged L (IBLOCK (i_inum i) b)) b ic s' → Q tt s') →
  wp (iupdate ip) Q s.
Proof.
  intros Hs Hi Hdev Hin Hlen HL HQ. destruct (lay_inode _ _ Hlay _ Hin) as [Hv H1].
  pose proof (st_ok V lim _ _ _ _ _ _ _ Hs Hv (lookup_empty _)) as [Hl Hb].
  unfold iupdate. rewrite wp_bind. eapply fsr_geti; [exact Hs|exact Hi|]. rewrite wp_bind.
  eapply fsr_sb; [exact Hs|]. rewrite wp_bind, Hdev.
  eapply fsr_bread; [exact V_u32|exact lim_buf|exact Hs|exact Hv|apply lookup_empty|rewrite map_size_empty; lia|lia|].
  intros h s1 Hs1. rewrite wp_bind. eapply fsr_bdata; [exact Hs1|exact Hv|apply lookup_insert_eq|].
  eapply fsr_commit_block; [exact Hs1|exact Hv|apply lookup_insert_eq| |exact H1|lia|].
  { pose proof (inode_off_in (i_inum i) ltac:(lia)). split; [|by apply store_dinode_bytes].
    fold (inode_off (i_inum i)). rewrite store_dinode_length; [done|done|]. rewrite Hl. done. }
  intros s2 Hs2. rewrite delete_insert_id in Hs2 by apply lookup_empty. by apply HQ.
Qed.

(** What [readi] returns: the error, or the bytes up to the end of the file. *)
Definition read_result W i (off n : Z) : Z * list Z :=
  if (i_size i <? off) || (u32 (off + n) <? off) then (-1, [])
  else
    let n' := if i_size i <? off + n then i_size i - off else n in
    (n', tab (fbyte W (i_addrs i)) off (Z.to_nat n')).

Lemma readi_spec devsw_read W L ic s ip i off n (Q : Z * list Z → fsst S → Prop) :
  st V lim W ∅ L b ic s → ic !! ip = Some i → file_inv W i → (length L <= lim)%nat → is_u32 off → is_u32 n →
  (∀ s', st V lim W ∅ L b ic s' → Q (read_result W i off n) s') → wp (readi devsw_read ip off n) Q s.
Proof.
  intros Hs Hi Hf HL Hoff Hn HQ. unfold is_u32 in *. unfold readi. rewrite wp_bind.
  eapply fsr_geti; [exact Hs|exact Hi|]. rewrite (proj2 (Z.eqb_neq _ _) (fi_type _ _ Hf)).
  unfold read_result in HQ. destruct (_ || _) eqn:E; [rewrite wp_ret; by apply HQ|].
  apply orb_false_iff in E as [E1 E2]. pose proof (fi_size _ _ Hf) as Hsz.
  assert (Eu : u32 (off + n) = off + n).
  { apply u32_id. split; [lia|]. unfold u32 in E2. dlia. }
  cbv zeta in *. rewrite Eu. set (n' := if _ <? _ then _ else _) in *.
  assert (Hn' : 0 <= n' /\ off + n' <= i_size i) by (unfold n'; destruct (i_size i <? off + n) eqn:E3; lia).
  rewrite wp_bind. eapply readi_loop_spec;
    [exact V_u32|exact lim_buf|exact Hs|exact Hi|exact (fi_dev _ _ Hf)|exact (fi_file _ _ Hf)|exact HL|lia|lia|lia| | |].
  - intros o Ho. apply (fi_map _ _ Hf). lia.
  - intros _. change BSIZE with 512. rewrite Z.sub_0_r. dlia.
  - intros s1 H1. rewrite wp_ret. rewrite Z.sub_0_r. cbn [app]. by apply HQ.
Qed.

(** The inode after [n] bytes were written at [off]. *)
Definition grown i (addrs : list Z) (stop : Z) : inode := set_i_size (Z.max (i_size i) stop) (set_i_addrs addrs i).

(** The cached inode and the disk after [writei] stored [src] at [off]. *)
Record written W i W' i' (off : Z) (src : list Z) : Prop := {
  wr_inode : i' = grown i (i_addrs i') (off + Z.of_nat (length src));
  wr_inv : file_inv W' i';
  wr_bytes o : 0 <= o < 71680 → fbyte W' (i_addrs i') o =
    if decide (off <= o < off + Z.of_nat (length src)) then byte_at src (Z.to_nat (o - off)) else fbyte W (i_addrs i) o;
  wr_frame m : safe b W m → ¬ own W' (i_addrs i') m → m ≠ IBLOCK (i_inum i) b → W' m = W m;
  wr_others o n : (o + n <= inode_off (i_inum i) ∨ inode_off (i_inum i) + 64 <= o)%nat →
    slice o n (W' (IBLOCK (i_inum i) b)) = slice o n (W (IBLOCK (i_inum i) b));
}.

(** A nonempty write: the loop, then [iupdate] when the file grows. *)
Lemma wrote_written_same W i W1 addrs1 off src :
  file_inv W i → 0 <= off <= i_size i → off + Z.of_nat (length src) <= i_size i → bitmap_ok V b W →
  file_ok V b W1 addrs1 → wrote b W (i_addrs i) W1 addrs1 off src → written W i W1 (set_i_addrs addrs1 i) off src.
Proof.
  intros Hi Hoff Hend Hbm Hf1 Hw. pose proof (fi_size _ _ Hi) as Hsz.
  assert (Ea : addrs1 = i_addrs i) by (apply (w_same _ _ _ _ _ _ _ Hw); intros o Ho; apply (fi_map _ _ Hi); lia).
  subst addrs1. rewrite set_i_addrs_same.
  assert (Eib : W1 (IBLOCK (i_inum i) b) = W (IBLOCK (i_inum i) b)).
  { apply (w_frame _ _ _ _ _ _ _ Hw); [by apply iblock_safe, Hi|]. intros [Hz [E|(k & Hk & E)]].
    - apply (iblock_not_data (i_inum i)); [apply Hi|]. rewrite E. apply (f_ind _ _ _ _ Hf1). congruence.
    - apply (iblock_not_data (i_inum i)); [apply Hi|]. rewrite <- E. apply (f_data _ _ _ _ Hf1); [done|congruence]. }
  split.
  - unfold grown. rewrite Z.max_l by lia. by destruct i.
  - destruct Hi. split; try done.
    + intros o Ho. rewrite (w_keep _ _ _ _ _ _ _ Hw); [auto|dlia|auto].
    + unfold synced. by rewrite Eib.
  - exact (w_bytes _ _ _ _ _ _ _ Hw).
  - intros m Hm Hno _. by apply (w_frame _ _ _ _ _ _ _ Hw).
  - intros o n _. by rewrite Eib.
Qed.

Lemma wrote_written_grow W i W1 addrs1 off src W2 :
  let i' := grown i addrs1 (off + Z.of_nat (length src)) in
  file_inv W i → 0 <= off <= i_size i → i_size i < off + Z.of_nat (length src) <= 71680 → bitmap_ok V b W →
  file_ok V b W1 addrs1 → wrote b W (i_addrs i) W1 addrs1 off src →
  length (W1 (IBLOCK (i_inum i) b)) = 512%nat →
  W2 = upd W1 (IBLOCK (i_inum i) b) (store_dinode (inode_off (i_inum i)) i' (W1 (IBLOCK (i_inum i) b))) →
  written W i W2 i' off src.
Proof.
  intros i' Hi Hoff Hend Hbm Hf1 Hw Hlen ->. pose proof (fi_size _ _ Hi) as Hsz. pose proof (fi_inum _ _ Hi) as Hin.
  pose proof (inode_off_in (i_inum i) ltac:(lia)) as Hio.
  assert (Hnb : ∀ k, 0 <= k < sb_size b → IBLOCK (i_inum i) b ≠ BBLOCK k b).
  { intros k Hk E. symmetry in E. by apply (lay_apart _ _ Hlay k (i_inum i)). }
  assert (Hnown : ¬ own W1 addrs1 (IBLOCK (i_inum i) b)).
  { intros [Hz [E|(k & Hk & E)]]; apply (iblock_not_data (i_inum i)); [done| |done|].
    - rewrite E. apply (f_ind _ _ _ _ Hf1). congruence.
    - rewrite <- E. apply (f_data _ _ _ _ Hf1); [done|congruence]. }
  assert (Eib : W1 (IBLOCK (i_inum i) b) = W (IBLOCK (i_inum i) b)).
  { apply (w_frame _ _ _ _ _ _ _ Hw); [by apply iblock_safe|done]. }
  set (d' := store_dinode _ _ _). change (i_addrs i') with addrs1.
  destruct (file_ok_other W1 addrs1 (IBLOCK (i_inum i) b) d' Hf1) as (Hf2 & Ham & Hby);
    [by apply iblock_not_data|exact Hnb|].
  assert (Hwf : inode_wf i').
  { destruct (fi_short _ _ Hi) as (? & ? & ? & ?). split; try done.
    - cbn. unfold is_u32. lia.
    - apply Hf1.
    - cbn. by eapply file_addrs_u32. }
  split; cbn [i_addrs i' grown set_i_size set_i_addrs].
  - done.
  - split; cbn [i_addrs i_size i_dev i_inum i_type i_major i_minor i_nlink i' grown set_i_size set_i_addrs].
    + done.
    + exact (fi_dev _ _ Hi).
    + exact (fi_inum _ _ Hi).
    + lia.
    + intros o Ho. rewrite Ham by dlia. destruct (decide (o < i_size i)) as [Hlt|Hge].
      * rewrite (w_keep _ _ _ _ _ _ _ Hw); [|dlia|]; apply (fi_map _ _ Hi); lia.
      * apply (w_map _ _ _ _ _ _ _ Hw); lia.
    + exact (fi_type _ _ Hi).
    + exact (fi_short _ _ Hi).
    + unfold synced. change (i_inum i') with (i_inum i). rewrite upd_eq. apply load_store_dinode; [done|].
      by rewrite Hlen.
  - intros o Ho. rewrite Hby by done. by apply (w_bytes _ _ _ _ _ _ _ Hw).
  - intros m Hm Hno Hne. rewrite upd_ne by done. apply (w_frame _ _ _ _ _ _ _ Hw); [done|]. intros [Hz Ho].
    apply Hno. split; [done|]. destruct Ho as [|(k & Hk & E)]; [by left|]. right. exists k. split; [done|]. by rewrite Ham.
  - intros o n Ho. rewrite upd_eq. unfold d'. rewrite store_dinode_other; [by rewrite Eib|apply Hf1|by rewrite Hlen|done].
Qed.

Lemma writei_spec devsw_write W L T ic s ip i off src (Q : Z → fsst S → Prop) :
  let n := Z.of_nat (length src) in
  st V lim W ∅ L b ic s → ic !! ip = Some i → file_inv W i → bytes_ok src →
  ready V b W (i_addrs i) L T (2 * Z.to_nat (touched off n)) → IBLOCK (i_inum i) b ∈ T →
  (length T + Z.to_nat (touched off n) + 3 < lim)%nat →
  0 <= off <= i_size i → off + n <= 71680 →
  (∀ W' i' L' T' s', st V lim W' ∅ L' b (<[ip := i']> ic) s' → written W i W' i' off src →
     ready V b W' (i_addrs i') L' T' 0 → (length T' <= length T + Z.to_nat (touched off n))%nat → Q n s') →
  wp (writei devsw_write ip src off) Q s.
Proof.
  cbv zeta. set (n := Z.of_nat (length src)). intros Hs Hi Hf Hsrc Hr HT Hlim Hoff Hend HQ.
  pose proof (fi_size _ _ Hf) as Hsz. unfold writei. cbv zeta. fold n. rewrite wp_bind.
  eapply fsr_geti; [exact Hs|exact Hi|]. rewrite (proj2 (Z.eqb_neq _ _) (fi_type _ _ Hf)).
  rewrite (u32_id (off + n)) by lia. rewrite (proj2 (Z.ltb_ge (i_size i) off)), (proj2 (Z.ltb_ge (off + n) off)) by lia.
  cbn [orb]. change (MAXFILE * BSIZE) with 71680. rewrite (proj2 (Z.ltb_ge 71680 (off + n))) by lia.
  assert (Ht0 : 0 <= touched off n) by (unfold touched; dlia).
  rewrite wp_bind. eapply (writei_loop_spec V lim b V_u32 lim_buf Hlay _ W L T ic s ip i 0 off n src);
    [exact Hs|exact Hi|exact (fi_dev _ _ Hf)|done|done|lia|lia|lia| | | |]; rewrite ?Z.sub_0_r.
  { intros _. change BSIZE with 512. unfold touched. dlia. }
  { eapply ready_le; [exact Hr| |done]. case_decide; lia. }
  { intros _. exact Hlim. }
  intros W1 addrs1 L1 T1 s1 Hs1 Hr1 HT1 HTl Hw. rewrite Z2Nat.inj_0, drop_0 in Hw.
  assert (HTl' : (length T1 <= length T + Z.to_nat (touched off n))%nat) by (destruct (decide (0 < n)); lia).
  pose proof (r_file _ _ _ _ _ _ _ Hr1) as Hf1.
  assert (Hic : <[ip := set_i_addrs addrs1 i]> ic !! ip = Some (set_i_addrs addrs1 i)).
  { apply list_lookup_insert_eq. by eapply lookup_lt_Some. }
  rewrite wp_bind. eapply fsr_geti; [exact Hs1|exact Hic|]. cbn [i_size set_i_addrs].
  destruct (i_size i <? off + n) eqn:Eg.
  - rewrite (proj2 (Z.ltb_lt 0 n)) by lia. cbn [andb]. rewrite !wp_bind. eapply fsr_seti; [exact Hs1|exact Hic|].
    intros s2 Hs2. rewrite list_insert_insert_eq in Hs2.
    assert (Ei : set_i_size (off + n) (set_i_addrs addrs1 i) = grown i addrs1 (off + n)).
    { unfold grown. rewrite Z.max_r by lia. done. }
    rewrite Ei in Hs2. pose proof (fits_length _ _ (r_fits _ _ _ _ _ _ _ Hr1)) as HL1.
    pose proof (with_ind_length addrs1 T1) as Hwl. destruct (lay_inode _ _ Hlay _ (fi_inum _ _ Hf)) as [Hv _].
    pose proof (st_ok V lim _ _ _ _ _ _ _ Hs1 Hv (lookup_empty _)) as [Hl1 _].
    eapply iupdate_spec; [exact Hs2|apply list_lookup_insert_eq; by eapply lookup_lt_Some|exact (fi_dev _ _ Hf)|exact (fi_inum _ _ Hf)|exact (f_len _ _ _ _ Hf1)|lia|].
    intros s3 Hs3. rewrite wp_ret. cbn [i_inum grown set_i_size set_i_addrs] in Hs3.
    pose proof (wrote_written_grow W i W1 addrs1 off src _ Hf Hoff ltac:(fold n; lia) (r_bitmap _ _ _ _ _ _ _ Hr)
      Hf1 Hw Hl1 eq_refl) as Hwr.
    eapply HQ; [exact Hs3|exact Hwr| |exact HTl'].
    cbn [i_addrs grown set_i_size set_i_addrs]. eapply ready_used; [exact Hr1|exact (fi_file _ _ (wr_inv _ _ _ _ _ _ Hwr))| |].
    + intros m Hm. unfold used. rewrite upd_ne; [done|]. apply (lay_apart _ _ Hlay); [done|apply Hf].
    + apply fits_logged; [apply Hr1|]. apply elem_with_ind. left. by apply HT1.
  - rewrite andb_false_r, wp_bind, !wp_ret.
    pose proof (wrote_written_same W i W1 addrs1 off src Hf Hoff ltac:(fold n; lia) (r_bitmap _ _ _ _ _ _ _ Hr) Hf1 Hw) as Hwr.
    eapply HQ; [exact Hs1|exact Hwr|exact Hr1|exact HTl'].
Qed.

(** ** The claims *)

(** C3: [writei] of [src] at an offset inside the file (or at its end), with
    room in the file system and in the log, returns the number of bytes,
    leaves a file whose bytes are [src] there and the old ones elsewhere, an
    inode whose size is the larger of the old size and the end of the write
    and which is the same on disk as in memory, every other file's blocks and
    every other inode untouched; and it logs at most one block per file block
    it touches beyond the bitmap, the inode's and the indirect block. *)
Theorem writei_correct devsw_write W L T ic s ip i off src :
  let n := Z.of_nat (length src) in
  st V lim W ∅ L b ic s → ic !! ip = Some i → file_inv W i → bytes_ok src →
  ready V b W (i_addrs i) L T (2 * Z.to_nat (touched off n)) → IBLOCK (i_inum i) b ∈ T →
  (length T + Z.to_nat (touched off n) + 3 < lim)%nat → 0 <= off <= i_size i → off + n <= MAXFILE * BSIZE →
  wp (writei devsw_write ip src off) (λ r s', r = n ∧ ∃ W' i' L', st V lim W' ∅ L' b (<[ip := i']> ic) s' ∧
    written W i W' i' off src ∧ NoDup L' ∧ (length L' <= length T + Z.to_nat (touched off n) + 1)%nat) s.
Proof.
  cbv zeta. intros Hs Hi Hf Hsrc Hr HT Hlim Hoff Hend.
  eapply writei_spec; [exact Hs|exact Hi|exact Hf|exact Hsrc|exact Hr|exact HT|exact Hlim|exact Hoff|exact Hend|].
  intros W' i' L' T' s' Hs' Hw Hr' HT'. split; [done|]. exists W', i', L'. split_and!; [exact Hs'|exact Hw|apply Hr'|].
  pose proof (fits_length _ _ (r_fits _ _ _ _ _ _ _ Hr')). pose proof (with_ind_length (i_addrs i') T'). lia.
Qed.

(** C6: reading back what was just written, from the same offset, gives the
    bytes that were written. *)
Theorem write_then_read devsw_read devsw_write W L T ic s ip i off src :
  let n := Z.of_nat (length src) in
  st V lim W ∅ L b ic s → ic !! ip = Some i → file_inv W i → bytes_ok src →
  ready V b W (i_addrs i) L T (2 * Z.to_nat (touched off n)) → IBLOCK (i_inum i) b ∈ T →
  (length T + Z.to_nat (touched off n) + 3 < lim)%nat → 0 <= off <= i_size i → off + n <= MAXFILE * BSIZE →
  wp (r ← writei devsw_write ip src off; readi devsw_read ip off r) (λ r _, r = (n, src)) s.
Proof.
  cbv zeta. intros Hs Hi Hf Hsrc Hr HT Hlim Hoff Hend. change (MAXFILE * BSIZE) with 71680 in Hend. rewrite wp_bind.
  eapply writei_spec; [exact Hs|exact Hi|exact Hf|exact Hsrc|exact Hr|exact HT|exact Hlim|exact Hoff|exact Hend|].
  intros W' i' L' T' s' Hs' Hw Hr' HT'. pose proof (fits_length _ _ (r_fits _ _ _ _ _ _ _ Hr')) as HL'.
  pose proof (with_ind_length (i_addrs i') T') as Hwl. pose proof (fi_size _ _ Hf) as Hsz.
  eapply readi_spec; [exact Hs'|apply list_lookup_insert_eq; by eapply lookup_lt_Some|apply Hw|lia|unfold is_u32; lia..|].
  intros s2 _. unfold read_result.
  assert (Hsize : i_size i' = Z.max (i_size i) (off + Z.of_nat (length src))) by (by rewrite (wr_inode _ _ _ _ _ _ Hw)).
  rewrite (u32_id (off + _)) by lia. rewrite (proj2 (Z.ltb_ge (i_size i') off)), (proj2 (Z.ltb_ge _ off)) by lia.
  cbn [orb]. rewrite (proj2 (Z.ltb_ge (i_size i') (off + _))) by lia. rewrite Nat2Z.id. f_equal.
  apply list_eq_same_length with (length src); [done|by rewrite tab_length|]. intros k x y Hk Hx Hy.
  rewrite lookup_tab in Hx by done. injection Hx as <-. rewrite (wr_bytes _ _ _ _ _ _ Hw) by lia.
  rewrite decide_True by lia. unfold byte_at. replace (Z.to_nat (off + Z.of_nat k - off)) with k by lia. by rewrite Hy.
Qed.

(** [writei] past the end of the file, past the largest file, or with an
    offset that wraps around, returns -1 and changes nothing. *)
Theorem writei_rejects devsw_write s ip i off src :
  icache s !! ip = Some i → i_type i ≠ T_DEV → is_u32 off → Z.of_nat (length src) < 4294967296 →
  i_size i < off ∨ MAXFILE * BSIZE < off + Z.of_nat (length src) → writei devsw_write ip src off s = Ret (-1) s.
Proof.
  clear V V_u32 lim lim_buf Hlay.
  intros Hi Ht Hoff Hn Hbad. unfold is_u32 in Hoff. unfold writei.
  rewrite (bind_Ret _ _ s i s) by (unfold geti; by rewrite Hi). rewrite (proj2 (Z.eqb_neq _ _) Ht).
  change (MAXFILE * BSIZE) with 71680 in *. unfold u32. destruct (_ || _) eqn:E; [done|].
  apply orb_false_iff in E as [E1 E2]. destruct (71680 <? _) eqn:E3; [done|]. exfalso. dlia.
Qed.
End inode.
