(* ===== verification/FsExample.v ===== *)
(** * A concrete file system

    A disk of 26 blocks (log of twelve blocks at 2, inodes in block 14, bitmap
    in block 15, data in 16 to 25) with an empty file, inode 1, and a directory,
    inode 2, that names it, mounted through the
    in-memory driver, the buffer cache and the log, inside a transaction: the
    theorems on [writei] apply to it. *)

From S2P Require Import Prelude Param Bio Log Blocks Txn Fs FsBlocks FsFile FsInode.

Definition ex_sb : superblock := Superblock 26 8 8 12 2 14 15.

Definition ex_inode : inode :=
  Inode 1 1 1 (Sleeplock true 0) 1 T_FILE 0 0 1 0 (replicate 13 0).

(** A directory with one entry, "f", for inode 1. *)
Definition ex_dir : inode :=
  Inode 1 2 1 (Sleeplock true 0) 1 T_DIR 0 0 1 16 (16 :: replicate 12 0).

Definition ex_super_block : list Z :=
  le_bytes 4 26 ++ le_bytes 4 8 ++ le_bytes 4 8 ++ le_bytes 4 12 ++ le_bytes 4 2 ++
  le_bytes 4 14 ++ le_bytes 4 15 ++ replicate 484 0.
Definition ex_inode_block : list Z := store_dinode 128 ex_dir (store_dinode 64 ex_inode (replicate 512 0)).
Definition ex_bitmap_block : list Z := [255; 255; 1] ++ replicate 509 0.
Definition ex_dir_block : list Z := mk_dirent 1 [102] ++ replicate 496 0.

Definition ex_disk : Memide.memide :=
  Memide.ideinit (replicate 512 0 ++ ex_super_block ++ replicate 6144 0 ++ ex_inode_block ++ ex_bitmap_block ++
    ex_dir_block ++ replicate 4608 0).

Lemma ex_bytes_ok l : forallb (λ x, (0 <=? x) && (x <? 256)) l = true → bytes_ok l.
Proof.
  intros Hl. apply Forall_lookup_2. intros k x Hx. rewrite forallb_forall in Hl.
  specialize (Hl x). unfold is_u8. rewrite <- list_elem_of_In in Hl. specialize (Hl ltac:(by eapply list_elem_of_lookup_2)). lia.
Qed.

Lemma ex_dwf : dwf ex_disk.
Proof. split; [vm_compute; reflexivity|]. apply ex_bytes_ok. vm_compute. reflexivity. Qed.

Lemma ex_blocks_length : length (blocks ex_disk) = 26%nat.
Proof. vm_compute. reflexivity. Qed.

Lemma ex_mount_ok : mount_ok (blocks ex_disk) 2 12 [].
Proof.
  pose proof ex_blocks_length as Hlen.
  assert (Hnil : ∀ d : Z, d ∉ ([] : list Z)) by (intros d Hd; by apply elem_of_nil in Hd).
  split; [split|vm_compute; reflexivity|lia|lia|rewrite Hlen; lia|..].
  - vm_compute. reflexivity.
  - unfold in_blocks. rewrite Hlen. lia.
  - apply head_says_nil. vm_compute. reflexivity.
  - split; [unfold small|..]; rewrite ?Hlen; [lia|lia|simpl; lia|constructor|].
    intros d Hd. by apply Hnil in Hd.
  - apply Nat.ltb_lt. reflexivity.
  - intros d Hd. by apply Hnil in Hd.
  - pose proof (blocks_ok _ ex_dwf) as Hok.
    destruct (lookup_lt_is_Some_2 (blocks ex_disk) 2) as [v Hv]; [rewrite Hlen; lia|].
    unfold bat. rewrite (list_lookup_total_correct _ (Z.to_nat 2) v Hv).
    by apply (Forall_lookup_1 _ _ _ _ Hok Hv).
Qed.

(** The blocks outside the log. *)
Definition ex_V (n : Z) : Prop := n = 1 ∨ 14 <= n < 26.

Lemma ex_V_u32 n : ex_V n → is_u32 n.
Proof. unfold ex_V, is_u32. lia. Qed.

Lemma ex_BBLOCK n : 0 <= n < 26 → BBLOCK n ex_sb = 15.
Proof. intros Hn. unfold BBLOCK, u32. change BPB with 4096. cbn [sb_bmapstart ex_sb]. dlia. Qed.

Lemma ex_IBLOCK n : 0 <= n < 8 → IBLOCK n ex_sb = 14.
Proof. intros Hn. unfold IBLOCK, u32. change IPB with 8. cbn [sb_inodestart ex_sb]. dlia. Qed.

Lemma ex_layout : layout ex_V ex_sb.
Proof.
  split; cbn [sb_size sb_ninodes sb_bmapstart sb_inodestart ex_sb]; unfold ex_V; try lia.
  - intros n Hn. rewrite ex_BBLOCK by done. lia.
  - intros n Hn. rewrite ex_IBLOCK by done. lia.
  - intros n i Hn Hi. rewrite ex_BBLOCK, ex_IBLOCK by done. lia.
Qed.

(** What the theorems need of the blocks of the disk. *)
Definition ex_W (W : Z → list Z) : Prop :=
  superblock_of (W 1) = ex_sb ∧ W 14 = ex_inode_block ∧ W 15 = ex_bitmap_block ∧ W 16 = ex_dir_block.

Definition ex_upto (n : nat) (P : Z → bool) : bool := forallb (λ k, P (Z.of_nat k)) (seq 0 n).

Lemma ex_upto_spec n P k : ex_upto n P = true → 0 <= k < Z.of_nat n → P k = true.
Proof.
  intros Hn Hk. unfold ex_upto in Hn. rewrite forallb_forall in Hn. specialize (Hn (Z.to_nat k)).
  rewrite Z2Nat.id in Hn by lia. apply Hn. apply in_seq. lia.
Qed.

Lemma ex_used W n : ex_W W → 0 <= n < 26 → used ex_sb W n = (n <? 17).
Proof.
  intros (_ & _ & HW & _) Hn. unfold used. rewrite ex_BBLOCK, HW by done.
  apply Bool.eqb_prop. revert n Hn. intros n Hn.
  apply (ex_upto_spec 26 (λ n, Bool.eqb (bit_set ex_bitmap_block (n mod BPB)) (n <? 17))); [vm_compute; reflexivity|lia].
Qed.

Lemma ex_bitmap W : ex_W W → bitmap_ok ex_V ex_sb W.
Proof.
  intros HW n [Hn Hu]. cbn in Hn. rewrite ex_used in Hu by done.
  split; unfold ex_V; cbn [sb_size sb_ninodes ex_sb]; [lia..| |].
  - intros m Hm. rewrite ex_BBLOCK by done. lia.
  - intros m Hm. rewrite ex_IBLOCK by done. lia.
Qed.

Lemma ex_amap W k : 0 <= k < 140 → amap W (replicate 13 0) k = 0.
Proof.
  intros Hk. unfold amap. destruct (k <? 12) eqn:E; [|done]. unfold byte_at.
  rewrite lookup_replicate_2 by lia. done.
Qed.

Lemma ex_file_inv W : ex_W W → file_inv ex_V ex_sb W ex_inode.
Proof.
  intros HW. split; cbn [i_addrs i_dev i_inum i_size i_type i_major i_minor i_nlink ex_inode].
  - split; [done|..].
    + intros k Hk Hz. by rewrite ex_amap in Hz.
    + intros k k' Hk Hk' Hz. by rewrite ex_amap in Hz.
    + done.
    + intros k Hk Hz. done.
  - done.
  - cbn. lia.
  - lia.
  - lia.
  - done.
  - unfold short_ok, T_FILE. lia.
  - unfold synced. change (i_inum ex_inode) with 1. rewrite ex_IBLOCK by lia. destruct HW as (_ & -> & _ & _).
    vm_compute. reflexivity.
Qed.

Lemma ex_dir_amap W k : 0 <= k < 140 → amap W (i_addrs ex_dir) k = if k =? 0 then 16 else 0.
Proof.
  intros Hk. unfold amap. change (ind (i_addrs ex_dir)) with 0. destruct (k <? 12) eqn:E.
  - apply Z.eqb_eq.
    apply (ex_upto_spec 12 (λ k, byte_at (i_addrs ex_dir) (Z.to_nat k) =? (if k =? 0 then 16 else 0))); [done|lia].
  - rewrite (proj2 (Z.eqb_neq k 0)) by lia. done.
Qed.

Lemma ex_dir_inv W : ex_W W → file_inv ex_V ex_sb W ex_dir.
Proof.
  intros HW. assert (Hd : data ex_V ex_sb 16).
  { split; unfold ex_V; cbn [sb_size sb_ninodes ex_sb]; [lia|lia| |].
    - intros m Hm. rewrite ex_BBLOCK by done. lia.
    - intros m Hm. rewrite ex_IBLOCK by done. lia. }
  split.
  - split; [done|..].
    + intros k Hk Hz. rewrite ex_dir_amap in * by done. destruct (k =? 0); [|done]. split; [done|]. by rewrite ex_used.
    + intros k k' Hk Hk'. rewrite !ex_dir_amap by done. destruct (k =? 0) eqn:E; [|done].
      destruct (k' =? 0) eqn:E'; [|done]. lia.
    + done.
    + intros k Hk Hz. done.
  - done.
  - cbn. lia.
  - cbn. lia.
  - intros o Ho. cbn [i_size ex_dir] in Ho. rewrite ex_dir_amap by dlia. by rewrite (proj2 (Z.eqb_eq _ _)) by dlia.
  - done.
  - unfold short_ok. cbn [i_type i_major i_minor i_nlink ex_dir]. unfold T_DIR. lia.
  - unfold synced. change (i_inum ex_dir) with 2. rewrite ex_IBLOCK by lia. destruct HW as (_ & -> & _ & _).
    vm_compute. reflexivity.
Qed.

Lemma ex_ready W k : ex_W W → (k <= 9)%nat → ready ex_V ex_sb W (i_addrs ex_inode) [] [14; 15] k.
Proof.
  intros HW Hk. split.
  - apply (ex_file_inv W HW).
  - by apply ex_bitmap.
  - split; [constructor|]. intros n Hn. by apply elem_of_nil in Hn.
  - intros n Hn. cbn in Hn. rewrite ex_BBLOCK by done. right. by left.
  - apply (has_free_le _ _ 9); [done|]. exists (seqZ 17 9). split_and!; [apply NoDup_seqZ|done|].
    intros n Hn. apply elem_of_seqZ in Hn. split; [cbn; lia|]. rewrite ex_used by (done || lia). lia.
Qed.

(** A state inside a transaction on the mounted disk. *)
Lemma ex_state ic : ∃ W (s : fsst (lstate Memide.memide)), ex_W W ∧ st ex_V 10 W ∅ [] ex_sb ic s.
Proof.
  destruct (mount_logst ex_disk 0 2 12 [] ex_dwf ex_mount_ok)
    as (t & W & B & pa & _ & Ht & Ho & Hst & Hsz & HB & HW).
  destruct (begin_tx W B pa t Ht Ho) as (t1 & _ & H1 & _ & Hva & Hlim).
  exists W, (Fs t1 ex_sb ic 0). split.
  - assert (Hnil : ∀ d : Z, d ∉ ([] : list Z)) by (intros d Hd; by apply elem_of_nil in Hd).
    split_and!; rewrite HW by (auto || lia); vm_compute; reflexivity.
  - split; cbn [fs_b sb icache].
    + rewrite fmap_empty. exact H1.
    + intros n Hn. unfold ex_V in Hn. apply Hva. unfold in_blocks. rewrite Hst, Hsz, HB, ex_blocks_length. lia.
    + cbn. rewrite Hlim. unfold tx_limit. rewrite Hsz. apply Nat.leb_le. reflexivity.
    + intros n i d. by rewrite lookup_empty.
    + done.
    + done.
Qed.

(** Five bytes, "hello". *)
Definition hello : list Z := [104; 101; 108; 108; 111].

Lemma hello_ok : bytes_ok hello.
Proof. by apply ex_bytes_ok. Qed.

Lemma writei_correct_witness :
  ∃ W (s : fsst (lstate Memide.memide)), st ex_V 10 W ∅ [] ex_sb [ex_inode] s ∧
    wp (writei (λ _, None) 0 hello 0) (λ r s', r = 5 ∧ ∃ W' i' L', st ex_V 10 W' ∅ L' ex_sb [i'] s' ∧
      written ex_V ex_sb W ex_inode W' i' 0 hello ∧ NoDup L' ∧ (length L' <= 4)%nat) s.
Proof.
  destruct (ex_state [ex_inode]) as (W & s & HW & Hs). exists W, s. split; [exact Hs|].
  exact (writei_correct ex_V 10 ex_sb ex_V_u32 ltac:(apply Nat.leb_le; reflexivity) ex_layout (λ _, None) W [] [14; 15]
    [ex_inode] s 0 ex_inode 0 hello Hs eq_refl (ex_file_inv W HW) hello_ok (ex_ready W 2 HW ltac:(lia))
    ltac:(left) ltac:(apply Nat.ltb_lt; reflexivity) ltac:(cbn; lia) ltac:(vm_compute; discriminate)).
Defined.

Lemma write_then_read_witness :
  ∃ W (s : fsst (lstate Memide.memide)), st ex_V 10 W ∅ [] ex_sb [ex_inode] s ∧
    wp (r ← writei (λ _, None) 0 hello 0; readi (λ _, None) 0 0 r) (λ r _, r = (5, hello)) s.
Proof.
  destruct (ex_state [ex_inode]) as (W & s & HW & Hs). exists W, s. split; [exact Hs|].
  exact (write_then_read ex_V 10 ex_sb ex_V_u32 ltac:(apply Nat.leb_le; reflexivity) ex_layout (λ _, None) (λ _, None) W [] [14; 15]
    [ex_inode] s 0 ex_inode 0 hello Hs eq_refl (ex_file_inv W HW) hello_ok (ex_ready W 2 HW ltac:(lia))
    ltac:(left) ltac:(apply Nat.ltb_lt; reflexivity) ltac:(cbn; lia) ltac:(vm_compute; discriminate)).
Defined.

Lemma writei_rejects_witness :
  writei (S := lstate Memide.memide) (λ _, None) 0 hello 6 (Fs (LState log0 (BState [] ex_disk 0)) ex_sb [ex_inode] 0) =
  Ret (-1) (Fs (LState log0 (BState [] ex_disk 0)) ex_sb [ex_inode] 0).
Proof.
  apply (writei_rejects (λ _, None) _ 0 ex_inode 6 hello); [reflexivity|discriminate|unfold is_u32; lia|cbn; lia|].
  left. cbn. lia.
Defined.

Lemma balloc_correct_witness :
  ∃ W (s : fsst (lstate Memide.memide)), st ex_V 10 W ∅ [] ex_sb [ex_inode] s ∧
    wp (balloc 1) (λ a s', ∃ L', free ex_sb W a ∧ st ex_V 10 (take_block ex_sb W a) ∅ L' ex_sb [ex_inode] s' ∧
      take_block ex_sb W a a = replicate 512 0 ∧
      (∀ m, 0 <= m < sb_size ex_sb → used ex_sb (take_block ex_sb W a) m = bool_decide (m = a) || used ex_sb W m) ∧
      (∀ m, m ≠ a → m ≠ BBLOCK a ex_sb → take_block ex_sb W a m = W m) ∧ fits L' ([14; 15] ++ [a])) s.
Proof.
  destruct (ex_state [ex_inode]) as (W & s & HW & Hs). exists W, s. split; [exact Hs|].
  apply (balloc_correct ex_V 10 ex_sb ex_V_u32 ltac:(apply Nat.leb_le; reflexivity) ex_layout W [] [14; 15] [ex_inode] s 17 Hs
    (ex_bitmap W HW)).
  - apply (ex_ready W 0 HW). lia.
  - apply (ex_ready W 0 HW). lia.
  - apply Nat.ltb_lt. reflexivity.
  - split; [cbn; lia|]. rewrite ex_used by (done || lia). done.
Defined.

Lemma bfree_correct_witness :
  ∃ W (s : fsst (lstate Memide.memide)), st ex_V 10 W ∅ [] ex_sb [ex_inode] s ∧
    (if used ex_sb W 17 then
       wp (bfree 1 17) (λ _ s', ∃ L', st ex_V 10 (drop_block ex_sb W 17) ∅ L' ex_sb [ex_inode] s' ∧
         ∀ m, 0 <= m < sb_size ex_sb → used ex_sb (drop_block ex_sb W 17) m = negb (bool_decide (m = 17)) && used ex_sb W m) s
     else bfree 1 17 s = Panic "freeing free block").
Proof.
  destruct (ex_state [ex_inode]) as (W & s & HW & Hs). exists W, s. split; [exact Hs|].
  apply (bfree_correct ex_V 10 ex_sb ex_V_u32 ltac:(apply Nat.leb_le; reflexivity) ex_layout W [] [14; 15] [ex_inode] s 17 Hs).
  - by left.
  - apply HW.
  - apply (ex_ready W 0 HW). lia.
  - apply (ex_ready W 0 HW). lia.
  - apply Nat.ltb_lt. reflexivity.
  - cbn. lia.
Defined.
