(* ===== verification/Mkfs.v ===== *)
(** * The file system image: mkfs.c

    mkfs runs on the build machine and writes the image the kernel mounts:
    super block, empty log, inodes, bitmap, and the files named on its command
    line in one root directory.  The theorem of this file is that the image
    satisfies what the theorems about fs.c ask of a disk, and holds the files.

    The image is a list of sectors; [assert], [perror] and [exit(1)] are
    [Panic].  The host's byte order is little-endian. *)

From S2P Require Import Prelude Param Bio Log Blocks Fs FsBlocks FsFile FsInode.

Definition NINODES : Z := 200.
Definition nbitmap : Z := FSSIZE / (BSIZE * 8) + 1.
Definition ninodeblocks : Z := NINODES / IPB + 1.
Definition nlog : Z := LOGSIZE.
Definition nmeta : Z := 2 + nlog + ninodeblocks + nbitmap.
Definition nblocks : Z := FSSIZE - nmeta.

Definition xshort (x : Z) : Z := le_val [u8 x; u8 (Z.shiftr x 8)].
Definition xint (x : Z) : Z := le_val [u8 x; u8 (Z.shiftr x 8); u8 (Z.shiftr x 16); u8 (Z.shiftr x 24)].

(** [sb], after [main] has set it. *)
Definition mksb : superblock :=
  Superblock (xint FSSIZE) (xint nblocks) (xint NINODES) (xint nlog) (xint 2) (xint (2 + nlog)) (xint (2 + nlog + ninodeblocks)).
Definition sb_bytes (b : superblock) : list Z :=
  le_bytes 4 (sb_size b) ++ le_bytes 4 (sb_nblocks b) ++ le_bytes 4 (sb_ninodes b) ++ le_bytes 4 (sb_nlog b) ++
  le_bytes 4 (sb_logstart b) ++ le_bytes 4 (sb_inodestart b) ++ le_bytes 4 (sb_bmapstart b).

(** The image, [freeinode] and [freeblock]. *)
Record mk := Mk { img : list (list Z); freeinode : Z; freeblock : Z }.

Definition zeroes : list Z := replicate 512 0.
Definition set_img (f : list (list Z) → list (list Z)) : M mk unit := modify (λ s, Mk (f (img s)) (freeinode s) (freeblock s)).

(** Writing behind the end makes the file longer. *)
Definition wsect (sec : Z) (buf : list Z) : M mk unit :=
  set_img (λ l, if (Z.to_nat sec <? length l)%nat then <[Z.to_nat sec := buf]> l
                else l ++ replicate (Z.to_nat sec - length l) zeroes ++ [buf]).
Definition rsect (sec : Z) : M mk (list Z) :=
  λ s, match img s !! Z.to_nat sec with Some d => Ret d s | None => Panic "read" end.

Definition winode (inum : Z) (ip : inode) : M mk unit :=
  let bn := IBLOCK inum mksb in
  buf ← rsect bn;
  wsect bn (store_dinode (Z.to_nat (inum mod IPB * sizeof_dinode)) ip buf).
Definition rinode (inum : Z) : M mk inode :=
  buf ← rsect (IBLOCK inum mksb);
  mret (load_dinode (Z.to_nat (inum mod IPB * sizeof_dinode)) buf inode0).

Definition ialloc (type : Z) : M mk Z :=
  inum ← gets freeinode;
  modify (λ s, Mk (img s) (u32 (freeinode s + 1)) (freeblock s)) ;;
  winode inum (set_i_nlink (xshort 1) (set_i_type (xshort type) inode0)) ;;
  mret inum.

(** [freeblock++]. *)
Definition next_block : M mk Z :=
  b ← gets freeblock;
  modify (λ s, Mk (img s) (freeinode s) (u32 (freeblock s + 1))) ;;
  mret b.

(** The bitmap with the first [n] bits set. *)
Fixpoint mark (n : nat) (buf : list Z) : list Z :=
  match n with
  | O => buf
  | S n =>
      let buf := mark n buf in
      let i := Z.of_nat n in
      <[Z.to_nat (i / 8) := u8 (Z.lor (byte_at buf (Z.to_nat (i / 8))) (Z.shiftl 1 (i mod 8)))]> buf
  end.
Definition balloc (used : Z) : M mk unit :=
  if BSIZE * 8 <=? used then panic "used < BSIZE*8" else
  wsect (sb_bmapstart mksb) (mark (Z.to_nat used) zeroes).

(** The entry of the indirect block [a] for file block [fbn]. *)
Definition append_entry (din : inode) (a fbn : Z) : M mk (inode * Z) :=
  indirect ← rsect a;
  let k := (4 * Z.to_nat (fbn - NDIRECT))%nat in
  indirect ← (if get_le k 4 indirect =? 0 then
                b ← next_block;
                let indirect := put_le k 4 (xint b) indirect in
                wsect a indirect ;;
                mret indirect
              else mret indirect);
  mret (din, xint (get_le k 4 indirect)).

(** The block of the file that holds file block [fbn], allocated on demand. *)
Definition append_block (din : inode) (fbn : Z) : M mk (inode * Z) :=
  if fbn <? NDIRECT then
    din ← (if xint (byte_at (i_addrs din) (Z.to_nat fbn)) =? 0 then
             b ← next_block; mret (set_i_addrs (<[Z.to_nat fbn := xint b]> (i_addrs din)) din)
           else mret din);
    mret (din, xint (byte_at (i_addrs din) (Z.to_nat fbn)))
  else
    din ← (if xint (byte_at (i_addrs din) 12) =? 0 then
             b ← next_block; mret (set_i_addrs (<[12%nat := xint b]> (i_addrs din)) din)
           else mret din);
    append_entry din (xint (byte_at (i_addrs din) 12)) fbn.

(** The loop of [iappend]; every round takes a byte at least. *)
Fixpoint iappend_loop (fuel : nat) (din : inode) (off : Z) (p : list Z) : M mk (inode * Z) :=
  if (length p =? 0)%nat then mret (din, off) else
  match fuel with
  | O => diverge
  | S fuel =>
      let fbn := off / BSIZE in
      if MAXFILE <=? fbn then panic "fbn < MAXFILE" else
      r ← append_block din fbn;
      let '(din, x) := r in
      let n1 := Z.to_nat (Z.min (Z.of_nat (length p)) ((fbn + 1) * BSIZE - off)) in
      buf ← rsect x;
      wsect x (splice (Z.to_nat (off - fbn * BSIZE)) (take n1 p) buf) ;;
      iappend_loop fuel din (off + Z.of_nat n1) (drop n1 p)
  end.
Definition iappend (inum : Z) (p : list Z) : M mk unit :=
  din ← rinode inum;
  r ← iappend_loop (length p) din (xint (i_size din)) p;
  winode inum (set_i_size (xint r.2) r.1).

Fixpoint append_all (inum : Z) (bufs : list (list Z)) : M mk unit :=
  match bufs with
  | [] => mret tt
  | buf :: bufs => iappend inum buf ;; append_all inum bufs
  end.

(** One argument of mkfs: the name, and what each [read] of the file delivers. *)
Record hostfile := HostFile { hname : list Z; hreads : list (list Z) }.

(** [argv[i]] without a leading underscore. *)
Definition skip_underscore (name : list Z) : list Z :=
  match name with c :: l => if c =? 95 then l else name | [] => [] end.

Definition add_file (rootino : Z) (f : hostfile) : M mk unit :=
  if existsb (Z.eqb 47) (hname f) then panic "index(argv[i], '/') == 0" else
  inum ← ialloc T_FILE;
  iappend rootino (mk_dirent (xshort inum) (skip_underscore (hname f))) ;;
  append_all inum (hreads f).
Fixpoint add_files (rootino : Z) (fs : list hostfile) : M mk unit :=
  match fs with
  | [] => mret tt
  | f :: fs => add_file rootino f ;; add_files rootino fs
  end.

Definition main (fs : list hostfile) : M mk unit :=
  modify (λ _, Mk [] 1 nmeta) ;;
  for_ (Z.to_nat FSSIZE) 0 (λ i, wsect (Z.of_nat i) zeroes) ;;
  wsect 1 (splice 0 (sb_bytes mksb) zeroes) ;;
  rootino ← ialloc T_DIR;
  if negb (rootino =? ROOTINO) then panic "rootino == ROOTINO" else
  iappend rootino (mk_dirent (xshort rootino) [46]) ;;
  iappend rootino (mk_dirent (xshort rootino) [46; 46]) ;;
  add_files rootino fs ;;
  din ← rinode rootino;
  let off := (xint (i_size din) / BSIZE + 1) * BSIZE in
  winode rootino (set_i_size (xint off) din) ;;
  used ← gets freeblock;
  balloc used.

(** ** Sectors *)

Definition Wof (s : mk) (n : Z) : list Z := default zeroes (img s !! Z.to_nat n).

Lemma xint_id x : 0 <= x < 4294967296 → xint x = x.
Proof.
  intros Hx. unfold xint, u8. rewrite !Z.shiftr_div_pow2 by lia. cbn [le_val]. change (2 ^ 8) with 256. change (2 ^ 16) with 65536. change (2 ^ 24) with 16777216. dlia.
Qed.

Lemma xshort_id x : 0 <= x < 65536 → xshort x = x.
Proof. intros Hx. unfold xshort, u8. rewrite Z.shiftr_div_pow2 by lia. cbn [le_val]. change (2 ^ 8) with 256. dlia. Qed.

(** An image of the right size, whose sectors from [freeblock] on are unused. *)
Record image (s : mk) : Prop := {
  im_len : length (img s) = 1000%nat;
  im_blk n : 0 <= n < 1000 → block_ok (Wof s n);
  im_fb : 59 <= freeblock s <= 1000;
  im_zero n : freeblock s <= n < 1000 → Wof s n = zeroes;
}.

Lemma rsect_ret s n : image s → 0 <= n < 1000 → rsect n s = Ret (Wof s n) s.
Proof.
  intros Hs Hn. unfold rsect, Wof. destruct (lookup_lt_is_Some_2 (img s) (Z.to_nat n)) as [d ->]; [rewrite (im_len s Hs); lia|done].
Qed.

Definition put_sect (n : Z) (d : list Z) (s : mk) : mk := Mk (<[Z.to_nat n := d]> (img s)) (freeinode s) (freeblock s).

Lemma wsect_ret s n d : image s → 0 <= n < 1000 → wsect n d s = Ret tt (put_sect n d s).
Proof.
  intros Hs Hn. unfold wsect, set_img, modify, put_sect. rewrite (proj2 (Nat.ltb_lt _ _)) by (rewrite (im_len s Hs); lia). done.
Qed.

Lemma Wof_put s n d m : image s → 0 <= n < 1000 → 0 <= m → Wof (put_sect n d s) m = upd (Wof s) n d m.
Proof.
  intros Hs Hn Hm. unfold Wof, put_sect, upd. cbn [img]. case_decide as E.
  - subst m. by rewrite list_lookup_insert_eq by (rewrite (im_len s Hs); lia).
  - by rewrite list_lookup_insert_ne by lia.
Qed.

Lemma zeroes_ok : block_ok zeroes.
Proof. split; [done|]. apply Forall_replicate. unfold is_u8. lia. Qed.

Lemma image_put s n d : image s → 0 <= n < freeblock s → block_ok d → image (put_sect n d s).
Proof.
  intros Hs Hn Hd. pose proof (im_fb s Hs). split; cbn [put_sect img freeblock].
  - rewrite length_insert. apply (im_len s Hs).
  - intros m Hm. rewrite Wof_put by (done || lia). unfold upd. case_decide; [done|by apply im_blk].
  - done.
  - intros m Hm. rewrite Wof_put by (done || lia). rewrite upd_ne by lia. by apply im_zero.
Qed.

(** [freeblock++] when there is room. *)
Definition grab (s : mk) : mk := Mk (img s) (freeinode s) (freeblock s + 1).

Lemma next_block_ret s : image s → freeblock s < 1000 → next_block s = Ret (freeblock s) (grab s).
Proof. intros Hs Hr. pose proof (im_fb s Hs). unfold next_block, grab, mbind, M_bind, gets, modify, mret, M_ret. by rewrite u32_id by lia. Qed.

Lemma image_grab s : image s → freeblock s < 1000 → image (grab s).
Proof.
  intros Hs Hr. pose proof (im_fb s Hs). split; cbn [grab img freeblock]; [apply Hs|apply (im_blk s Hs)|lia|].
  intros n Hn. apply (im_zero s Hs). lia.
Qed.

(** ** One file *)

(** Blocks that hold [n] bytes, and all blocks of such a file. *)
Definition blocks (n : Z) : Z := (n + 511) / 512.
Definition cost (n : Z) : Z := blocks n + (if 12 <? blocks n then 1 else 0).

(** A file with [nb] blocks mapped and contents [c], zero behind them. *)
Record fok (W : Z → list Z) (fb : Z) (i : inode) (c : list Z) (nb : Z) : Prop := {
  fo_wf : inode_wf i;
  fo_nb : Z.of_nat (length c) <= 512 * nb ∧ 0 <= nb <= 140;
  fo_map bn : 0 <= bn < 140 → if bn <? nb then 59 <= amap W (i_addrs i) bn < fb else amap W (i_addrs i) bn = 0;
  fo_ind : if 12 <? nb then 59 <= ind (i_addrs i) < fb else ind (i_addrs i) = 0;
  fo_inj bn bn' : 0 <= bn < nb → 0 <= bn' < nb → amap W (i_addrs i) bn = amap W (i_addrs i) bn' → bn = bn';
  fo_ne bn : 0 <= bn < nb → amap W (i_addrs i) bn ≠ ind (i_addrs i);
  fo_bytes o : 0 <= o < 71680 → fbyte W (i_addrs i) o = byte_at c (Z.to_nat o);
}.

Lemma amap_frame W W' addrs bn : (ind addrs ≠ 0 → W' (ind addrs) = W (ind addrs)) → amap W' addrs bn = amap W addrs bn.
Proof.
  intros H. unfold amap. destruct (bn <? 12); [done|]. destruct (ind addrs =? 0) eqn:E; [done|]. rewrite H; [done|lia].
Qed.

Lemma own_frame W W' addrs m : (ind addrs ≠ 0 → W' (ind addrs) = W (ind addrs)) → own W' addrs m ↔ own W addrs m.
Proof. intros H. unfold own. setoid_rewrite (amap_frame W W' addrs); [done|done]. Qed.

Lemma own_mapped W addrs bn : 0 <= bn < 140 → amap W addrs bn ≠ 0 → own W addrs (amap W addrs bn).
Proof. intros Hb Hz. split; [done|]. right. eauto. Qed.

Lemma fok_own W fb i c nb m : fok W fb i c nb → own W (i_addrs i) m → 59 <= m < fb.
Proof.
  intros Hf [Hz [->|(k & Hk & <-)]].
  - pose proof (fo_ind _ _ _ _ _ Hf) as Hi. destruct (12 <? nb); [done|congruence].
  - pose proof (fo_map _ _ _ _ _ Hf k Hk) as Hm. destruct (k <? nb); [done|congruence].
Qed.

(** A file whose blocks are left alone. *)
Lemma fok_frame W W' fb fb' i c nb :
  fok W fb i c nb → fb <= fb' → (∀ m, own W (i_addrs i) m → W' m = W m) →
  fok W' fb' i c nb ∧ ∀ m, own W' (i_addrs i) m ↔ own W (i_addrs i) m.
Proof.
  intros Hf Hb He.
  assert (Hi : ind (i_addrs i) ≠ 0 → W' (ind (i_addrs i)) = W (ind (i_addrs i))) by (intros Hz; apply He; split; [done|by left]).
  assert (Ha : ∀ bn, amap W' (i_addrs i) bn = amap W (i_addrs i) bn) by (intros bn; by apply amap_frame).
  split; [|intros m; by apply own_frame]. destruct Hf as [F1 F2 F3 F4 F5 F6 F7]. split; try done.
  - intros bn Hbn. specialize (F3 bn Hbn). rewrite Ha. destruct (bn <? nb); [lia|done].
  - destruct (12 <? nb); [lia|done].
  - intros bn bn' H1 H2. rewrite !Ha. by apply F5.
  - intros bn H1. rewrite Ha. by apply F6.
  - intros o Ho. rewrite <- F7 by done. unfold fbyte. rewrite Ha.
    destruct (amap W (i_addrs i) (o / 512) =? 0) eqn:E; [done|]. rewrite He; [done|]. apply own_mapped; [dlia|lia].
Qed.

(** ** Mapping one more block *)

Lemma wf_set_addrs i addrs : inode_wf i → length addrs = 13%nat → Forall is_u32 addrs → inode_wf (set_i_addrs addrs i).
Proof. intros [] Hl Ha. by split. Qed.

Lemma byte_at_zeroes k : byte_at zeroes k = 0.
Proof.
  unfold byte_at, zeroes. destruct (decide (k < 512)%nat); [by rewrite lookup_replicate_2|].
  rewrite lookup_ge_None_2; [done|]. rewrite length_replicate. lia.
Qed.

Section extend.
Context (W W' : Z → list Z) (fb fb' : Z) (i : inode) (addrs' : list Z) (c : list Z) (nb n : Z).
Hypothesis Hf : fok W fb i c nb.
Hypothesis Hnb : nb < 140.
Hypothesis Hn : 59 <= fb ∧ fb <= n < fb'.
Hypothesis Hwf : inode_wf (set_i_addrs addrs' i).
Hypothesis Hmap : ∀ bn, 0 <= bn < 140 → amap W' addrs' bn = if bn =? nb then n else amap W (i_addrs i) bn.
Hypothesis Hind : if 12 <? nb + 1 then 59 <= ind addrs' < fb' ∧ ind addrs' ≠ n ∧ (∀ bn, 0 <= bn < nb → amap W (i_addrs i) bn ≠ ind addrs') else ind addrs' = 0.
Hypothesis Hkeep : ind (i_addrs i) ≠ 0 → ind addrs' = ind (i_addrs i).
Hypothesis Hdata : ∀ bn, 0 <= bn < nb → W' (amap W (i_addrs i) bn) = W (amap W (i_addrs i) bn).
Hypothesis Hzero : W' n = zeroes.

Lemma extend_range bn : 0 <= bn < nb → 59 <= amap W (i_addrs i) bn < fb.
Proof.
  intros Hb. pose proof (fo_nb _ _ _ _ _ Hf). pose proof (fo_map _ _ _ _ _ Hf bn ltac:(lia)) as Hm.
  by rewrite (proj2 (Z.ltb_lt bn nb)) in Hm by lia.
Qed.

Lemma extend_unmapped bn : nb <= bn < 140 → amap W (i_addrs i) bn = 0.
Proof.
  intros Hb. pose proof (fo_nb _ _ _ _ _ Hf). pose proof (fo_map _ _ _ _ _ Hf bn ltac:(lia)) as Hm.
  by rewrite (proj2 (Z.ltb_ge bn nb)) in Hm by lia.
Qed.

Lemma fok_extend : fok W' fb' (set_i_addrs addrs' i) c (nb + 1).
Proof.
  destruct (fo_nb _ _ _ _ _ Hf) as [Hc Hr]. split; cbn [set_i_addrs i_addrs].
  - done.
  - lia.
  - intros bn Hb. rewrite Hmap by done. destruct (Z.eqb_spec bn nb) as [->|Hne]; [rewrite (proj2 (Z.ltb_lt _ _)) by lia; lia|].
    destruct (bn <? nb + 1) eqn:E; [|apply extend_unmapped; lia]. pose proof (extend_range bn). lia.
  - destruct (12 <? nb + 1); [tauto|done].
  - intros bn bn' H1 H2. rewrite !Hmap by lia. destruct (Z.eqb_spec bn nb) as [->|Hne], (Z.eqb_spec bn' nb) as [->|Hne']; try done.
    + pose proof (extend_range bn'). lia.
    + pose proof (extend_range bn). lia.
    + apply (fo_inj _ _ _ _ _ Hf); lia.
  - intros bn H1. rewrite Hmap by lia. pose proof Hind as Hi. destruct (12 <? nb + 1) eqn:E.
    + destruct Hi as (_ & Hi1 & Hi2). destruct (Z.eqb_spec bn nb) as [->|Hne]; [congruence|]. apply Hi2. lia.
    + rewrite Hi. destruct (Z.eqb_spec bn nb) as [->|Hne]; [lia|]. pose proof (extend_range bn). lia.
  - intros o Ho. rewrite <- (fo_bytes _ _ _ _ _ Hf o Ho). unfold fbyte. rewrite Hmap by dlia.
    destruct (Z.eqb_spec (o / 512) nb) as [E|Hne].
    + rewrite E, (extend_unmapped nb) by lia. rewrite Hzero, byte_at_zeroes. by destruct (n =? 0).
    + destruct (decide (o / 512 < nb)) as [Hlt|Hge]; [rewrite Hdata by dlia; done|]. by rewrite extend_unmapped by dlia.
Qed.

Lemma own_extend m : own W' addrs' m → own W (i_addrs i) m ∨ m = n ∨ m = ind addrs'.
Proof.
  intros [Hz [->|(k & Hk & <-)]]; [auto|]. rewrite Hmap in * by done. destruct (k =? nb); [auto|]. left. by apply own_mapped.
Qed.

Lemma own_sub m : own W (i_addrs i) m → own W' addrs' m.
Proof.
  intros [Hz [->|(k & Hk & <-)]]; (split; [done|]); [left; symmetry; by apply Hkeep|]. right. exists k. split; [done|].
  rewrite Hmap by done. destruct (Z.eqb_spec k nb) as [->|]; [|done]. pose proof (fo_nb _ _ _ _ _ Hf). by rewrite extend_unmapped in Hz by lia.
Qed.
End extend.

(** What happens to the image while a file grows. *)
Record grew (s : mk) (i : inode) (s' : mk) (i' : inode) : Prop := {
  g_image : image s';
  g_ino : freeinode s' = freeinode s;
  g_fb : freeblock s <= freeblock s';
  g_keep m : 0 <= m < 1000 → ¬ own (Wof s') (i_addrs i') m → Wof s' m = Wof s m;
  g_sub m : own (Wof s) (i_addrs i) m → own (Wof s') (i_addrs i') m;
  g_new m : own (Wof s') (i_addrs i') m → own (Wof s) (i_addrs i) m ∨ freeblock s <= m < freeblock s';
  g_head : i' = set_i_addrs (i_addrs i') i;
}.

Lemma grew_refl s i : image s → grew s i s i.
Proof. intros Hs. split; try done; [auto|by destruct i]. Qed.

Lemma grew_trans s1 i1 s2 i2 s3 i3 : grew s1 i1 s2 i2 → grew s2 i2 s3 i3 → grew s1 i1 s3 i3.
Proof.
  intros [A1 A2 A3 A4 A5 A6 A7] [B1 B2 B3 B4 B5 B6 B7]. split; [done|congruence|lia| |auto| |].
  - intros m Hm Ho. rewrite B4 by done. apply A4; [done|]. auto.
  - intros m Ho. destruct (B6 m Ho) as [Ho'|?]; [|lia]. destruct (A6 m Ho'); [auto|lia].
  - rewrite B7, A7. by destruct i1.
Qed.

Lemma byte_at_insert_eq (l : list Z) k x : (k < length l)%nat → byte_at (<[k := x]> l) k = x.
Proof. intros Hk. unfold byte_at. by rewrite list_lookup_insert_eq. Qed.

Lemma byte_at_insert_ne (l : list Z) k x j : k ≠ j → byte_at (<[k := x]> l) j = byte_at l j.
Proof. intros Hk. unfold byte_at. by rewrite list_lookup_insert_ne. Qed.

(** A direct block. *)
Lemma grab_direct s i c nb :
  image s → freeblock s < 1000 → fok (Wof s) (freeblock s) i c nb → nb < 12 →
  let i' := set_i_addrs (<[Z.to_nat nb := freeblock s]> (i_addrs i)) i in
  fok (Wof (grab s)) (freeblock s + 1) i' c (nb + 1) ∧ grew s i (grab s) i' ∧ amap (Wof (grab s)) (i_addrs i') nb = freeblock s.
Proof.
  intros Hs Hr Hf Hlt i'. pose proof (im_fb s Hs). pose proof (fo_nb _ _ _ _ _ Hf) as [_ Hnb].
  pose proof (wf_len i (fo_wf _ _ _ _ _ Hf)) as Hlen. change (Wof (grab s)) with (Wof s).
  assert (Hind : ind (i_addrs i) = 0) by (pose proof (fo_ind _ _ _ _ _ Hf) as Hi; by rewrite (proj2 (Z.ltb_ge 12 nb)) in Hi by lia).
  assert (Hind' : ind (i_addrs i') = 0) by (subst i'; unfold ind; cbn; rewrite byte_at_insert_ne by lia; done).
  assert (Hmap : ∀ bn, 0 <= bn < 140 → amap (Wof s) (i_addrs i') bn = if bn =? nb then freeblock s else amap (Wof s) (i_addrs i) bn).
  { intros bn Hb. unfold amap. rewrite Hind, Hind'. destruct (bn <? 12) eqn:E; [|rewrite (proj2 (Z.eqb_neq bn nb)) by lia; done].
    subst i'. cbn [set_i_addrs i_addrs]. destruct (Z.eqb_spec bn nb) as [->|Hne]; [apply byte_at_insert_eq; lia|apply byte_at_insert_ne; lia]. }
  assert (Hwf : inode_wf i').
  { apply wf_set_addrs; [apply Hf|by rewrite length_insert|]. apply Forall_insert; [apply (wf_addrs i), Hf|unfold is_u32; lia]. }
  split_and!; [|split|].
  - apply (fok_extend (Wof s) (Wof s) (freeblock s) (freeblock s + 1) i (i_addrs i') c nb (freeblock s)); try done; [lia|lia| |].
    + rewrite (proj2 (Z.ltb_ge _ _)) by lia. done.
    + apply (im_zero s Hs). lia.
  - by apply image_grab.
  - done.
  - cbn. lia.
  - done.
  - apply (own_sub (Wof s) (Wof s) (freeblock s) i (i_addrs i') c nb (freeblock s)); try done; lia.
  - intros m Ho. destruct (own_extend (Wof s) (Wof s) i (i_addrs i') nb (freeblock s) Hmap m Ho) as [?|[->| ->]]; [auto|right; cbn; lia|].
    destruct Ho as [Hz _]. by rewrite Hind' in Hz.
  - done.
  - rewrite Hmap by lia. by rewrite Z.eqb_refl.
Qed.

Lemma get_zeroes k : (k + 4 <= 512)%nat → get_le k 4 zeroes = 0.
Proof.
  intros Hk. unfold get_le. replace (slice k 4 zeroes) with (replicate 4 0); [done|].
  unfold slice, zeroes. rewrite drop_replicate, take_replicate. f_equal. lia.
Qed.

(** An indirect block [n]; its entry goes to the block [a], which is new when
    it is the first one. *)
Definition indirect_step (s : mk) (i : inode) (nb a n : Z) (addrs' : list Z) (s2 : mk) : Prop :=
  nb = 12 ∧ a = freeblock s ∧ addrs' = <[12%nat := a]> (i_addrs i) ∧ n = freeblock s + 1 ∧ s2 = grab (grab s) ∨
  12 < nb ∧ a = ind (i_addrs i) ∧ addrs' = i_addrs i ∧ n = freeblock s ∧ s2 = grab s.

Lemma grab_indirect s i c nb a n addrs' s2 :
  image s → n < 1000 → fok (Wof s) (freeblock s) i c nb → nb < 140 → indirect_step s i nb a n addrs' s2 →
  let s' := put_sect a (put_le (4 * Z.to_nat (nb - 12)) 4 n (Wof s a)) s2 in
  let i' := set_i_addrs addrs' i in
  fok (Wof s') (n + 1) i' c (nb + 1) ∧ grew s i s' i' ∧ amap (Wof s') addrs' nb = n ∧ freeblock s' = n + 1.
Proof.
  intros Hs Hr Hf Hlt Hstep s' i'. pose proof (im_fb s Hs). pose proof (fo_nb _ _ _ _ _ Hf) as [_ Hnb].
  pose proof (wf_len i (fo_wf _ _ _ _ _ Hf)) as Hlen. pose proof (fo_ind _ _ _ _ _ Hf) as Hind0.
  assert (Hnb12 : 12 <= nb) by (destruct Hstep as [(-> & _)|(? & _)]; lia).
  assert (Hs2 : image s2 ∧ Wof s2 = Wof s ∧ freeblock s2 = n + 1 ∧ freeinode s2 = freeinode s ∧ freeblock s <= n).
  { destruct Hstep as [(-> & -> & -> & -> & ->)|(? & -> & -> & -> & ->)]; cbn; (split_and!; [|done|lia|done|lia]); repeat apply image_grab; cbn; done || lia. }
  destruct Hs2 as (I2 & EW & Efb & Efi & Hn).
  assert (Ha : 59 <= a < n + 1 ∧ a ≠ n ∧ ind addrs' = a ∧ (ind (i_addrs i) ≠ 0 → ind addrs' = ind (i_addrs i)) ∧
    (∀ bn, 0 <= bn < nb → amap (Wof s) (i_addrs i) bn ≠ a) ∧ (a = ind (i_addrs i) ∨ a = freeblock s ∧ ind (i_addrs i) = 0) ∧
    (∀ k, (k < 12)%nat → byte_at addrs' k = byte_at (i_addrs i) k) ∧ length addrs' = 13%nat ∧ Forall is_u32 addrs').
  { destruct Hstep as [(-> & -> & -> & -> & ->)|(Hgt & -> & -> & -> & ->)].
    - rewrite (proj2 (Z.ltb_ge 12 12)) in Hind0 by lia. split_and!; try lia; try done.
      + unfold ind. apply byte_at_insert_eq. lia.
      + intros bn Hb. pose proof (extend_range (Wof s) (freeblock s) i c 12 Hf Hlt bn Hb). lia.
      + intros k Hk. apply byte_at_insert_ne. lia.
      + by rewrite length_insert.
      + apply Forall_insert; [apply (wf_addrs i), Hf|unfold is_u32; lia].
    - rewrite (proj2 (Z.ltb_lt 12 nb)) in Hind0 by lia. split_and!; try lia; try done.
      + intros bn Hb. by apply (fo_ne _ _ _ _ _ Hf).
      + apply (wf_addrs i), Hf. }
  destruct Ha as (Ha & Han & Eind & Hkeep & Hne & Hcase & Hdir & Hlen' & Hu32).
  pose proof (im_blk s Hs a ltac:(lia)) as [Hal Hab].
  assert (HW : ∀ m, 0 <= m → Wof s' m = upd (Wof s) a (put_le (4 * Z.to_nat (nb - 12)) 4 n (Wof s a)) m).
  { intros m Hm. subst s'. rewrite Wof_put, EW by (done || lia). done. }
  assert (Hent : ∀ k, 12 <= k < 140 → get_le (4 * Z.to_nat (k - 12)) 4 (Wof s a) = amap (Wof s) (i_addrs i) k).
  { intros k Hk. destruct Hcase as [->|[-> Hz]].
    - unfold amap. rewrite (proj2 (Z.ltb_ge k 12)) by lia. destruct (ind (i_addrs i) =? 0) eqn:E; [|done].
      exfalso. assert (ind (i_addrs i) = 0) by lia. lia.
    - rewrite (im_zero s Hs) by lia. rewrite get_zeroes by lia. symmetry. apply (extend_unmapped (Wof s) (freeblock s) i c nb Hf).
      destruct Hstep as [(-> & _)|(_ & E & _)]; lia. }
  assert (Hmap : ∀ bn, 0 <= bn < 140 → amap (Wof s') addrs' bn = if bn =? nb then n else amap (Wof s) (i_addrs i) bn).
  { intros bn Hb. unfold amap at 1. destruct (bn <? 12) eqn:E.
    - rewrite (proj2 (Z.eqb_neq bn nb)) by lia. rewrite Hdir by lia. unfold amap. by rewrite E.
    - rewrite Eind, (proj2 (Z.eqb_neq a 0)), HW, upd_eq by lia. destruct (Z.eqb_spec bn nb) as [->|Hne'].
      + rewrite get_put_same by (rewrite Hal; lia). apply Z.mod_small. cbn. lia.
      + rewrite get_put_other by (rewrite ?Hal; lia). apply Hent. lia. }
  assert (Hwf : inode_wf i') by (apply wf_set_addrs; [apply Hf|done|done]).
  assert (Hf' : fok (Wof s') (n + 1) i' c (nb + 1)).
  { apply (fok_extend (Wof s) (Wof s') (freeblock s) (n + 1) i addrs' c nb n); try done; [lia| | |].
    - rewrite (proj2 (Z.ltb_lt 12 (nb + 1))) by lia. rewrite Eind. split_and!; [lia|lia|done|done].
    - intros bn Hb. pose proof (extend_range (Wof s) (freeblock s) i c nb Hf Hlt bn Hb). rewrite HW, upd_ne by (lia || by apply Hne). done.
    - rewrite HW, upd_ne by lia. apply (im_zero s Hs). lia. }
  assert (Hoa : own (Wof s') addrs' a) by (split; [lia|by left]).
  split_and!; [done| |by rewrite Hmap, Z.eqb_refl by lia|done]. split.
  - apply image_put; [done|lia|]. split; [rewrite put_le_length by (rewrite Hal; lia); done|by apply put_le_ok].
  - done.
  - cbn. lia.
  - intros m Hm Ho. rewrite HW, upd_ne; [done|intros ->; done|lia].
  - apply (own_sub (Wof s) (Wof s') (freeblock s) i addrs' c nb n Hf Hlt Hmap Hkeep).
  - intros m Ho. destruct (own_extend (Wof s) (Wof s') i addrs' nb n Hmap m Ho) as [?|[->| ->]]; [auto|right; cbn; lia|].
    rewrite Eind. destruct Hcase as [->|[-> _]]; [|right; cbn; lia]. left. destruct Ho as [Hz _]. rewrite Eind in Hz. split; [done|by left].
  - done.
Qed.

(** ** [iappend] *)

(** Blocks taken when file block [fbn] is reached with [nb] mapped. *)
Definition taken (nb fbn : Z) : Z := if fbn <? nb then 0 else if fbn =? 12 then 2 else 1.

Lemma fok_entry W fb i c nb k : fok W fb i c nb → fb <= 1000 → (k < 12)%nat → 0 <= byte_at (i_addrs i) k < 1000.
Proof.
  intros Hf Hfb Hk. pose proof (fo_map _ _ _ _ _ Hf (Z.of_nat k) ltac:(lia)) as Hm. unfold amap in Hm.
  rewrite (proj2 (Z.ltb_lt (Z.of_nat k) 12)), Nat2Z.id in Hm by lia. destruct (_ <? nb); lia.
Qed.

Lemma fok_ind_range W fb i c nb : fok W fb i c nb → fb <= 1000 → 0 <= byte_at (i_addrs i) 12 < 1000.
Proof. intros Hf Hfb. pose proof (fo_ind _ _ _ _ _ Hf) as Hi. unfold ind in Hi. destruct (12 <? nb); lia. Qed.

Lemma amap_direct W addrs bn : 0 <= bn < 12 → amap W addrs bn = byte_at addrs (Z.to_nat bn).
Proof. intros Hb. unfold amap. by rewrite (proj2 (Z.ltb_lt bn 12)) by lia. Qed.

Lemma amap_indirect W addrs bn : 12 <= bn → ind addrs ≠ 0 → amap W addrs bn = get_le (4 * Z.to_nat (bn - 12)) 4 (W (ind addrs)).
Proof. intros Hb Hi. unfold amap. by rewrite (proj2 (Z.ltb_ge bn 12)), (proj2 (Z.eqb_neq _ _) Hi) by lia. Qed.

Lemma append_entry_old s din a fbn v :
  image s → 0 <= a < 1000 → get_le (4 * Z.to_nat (fbn - 12)) 4 (Wof s a) = v → 0 < v < 4294967296 →
  append_entry din a fbn s = Ret (din, v) s.
Proof.
  intros Hs Ha Hv Hr. unfold append_entry, NDIRECT. rewrite (bind_Ret _ _ _ _ _ (rsect_ret s a Hs Ha)). rewrite Hv.
  rewrite (proj2 (Z.eqb_neq v 0)) by lia. rewrite (bind_Ret _ _ s (Wof s a) s eq_refl), Hv, xint_id by lia. done.
Qed.

Lemma append_entry_new s1 s2 din a fbn n :
  image s1 → image s2 → 0 <= a < 1000 → 12 <= fbn < 140 → get_le (4 * Z.to_nat (fbn - 12)) 4 (Wof s1 a) = 0 →
  next_block s1 = Ret n s2 → 0 <= n < 4294967296 →
  append_entry din a fbn s1 = Ret (din, n) (put_sect a (put_le (4 * Z.to_nat (fbn - 12)) 4 n (Wof s1 a)) s2).
Proof.
  intros Hs1 Hs2 Ha Hb Hv Hn Hr. destruct (im_blk s1 Hs1 a Ha) as [Hl _].
  unfold append_entry, NDIRECT. rewrite (bind_Ret _ _ _ _ _ (rsect_ret s1 a Hs1 Ha)). rewrite Hv. change (0 =? 0) with true. cbv iota zeta.
  rewrite (bind_Ret _ _ s1 (put_le (4 * Z.to_nat (fbn - 12)) 4 n (Wof s1 a)) (put_sect a (put_le (4 * Z.to_nat (fbn - 12)) 4 n (Wof s1 a)) s2)).
  - rewrite get_put_same by (rewrite Hl; lia). change (256 ^ Z.of_nat 4) with 4294967296. rewrite Z.mod_small, xint_id by lia. done.
  - rewrite (bind_Ret _ _ _ _ _ Hn), xint_id by lia. by rewrite (bind_Ret _ _ _ _ _ (wsect_ret s2 a _ Hs2 Ha)).
Qed.

(** Reaching the entry of a new indirect block. *)
Lemma append_block_step s i c nb :
  image s → fok (Wof s) (freeblock s) i c nb → 12 <= nb < 140 → freeblock s + (if nb =? 12 then 2 else 1) <= 1000 →
  ∃ a n addrs' s1 s2, indirect_step s i nb a n addrs' s2 ∧ n + 1 = freeblock s + (if nb =? 12 then 2 else 1) ∧
    append_block i nb s = append_entry (set_i_addrs addrs' i) a nb s1 ∧ image s1 ∧ Wof s1 = Wof s ∧ next_block s1 = Ret n s2 ∧ 59 <= a < 1000 ∧ image s2.
Proof.
  intros Hs Hf Hnb Hroom. pose proof (im_fb s Hs) as Hfb.
  unfold append_block, NDIRECT. rewrite (proj2 (Z.ltb_ge nb 12)) by lia. pose proof (fo_ind _ _ _ _ _ Hf) as Hi. unfold ind in Hi. destruct (Z.eqb_spec nb 12) as [->|Hne].
  - rewrite Z.ltb_irrefl in Hi. exists (freeblock s), (freeblock s + 1), (<[12%nat := freeblock s]> (i_addrs i)), (grab s), (grab (grab s)).
    pose proof (image_grab s Hs ltac:(lia)) as Hs1. split_and!; [left; done|lia| |done|done|apply (next_block_ret (grab s)); [done|cbn; lia]|lia|lia|apply image_grab; [done|cbn; lia]].
    rewrite Hi. change (xint 0 =? 0) with true. cbv iota.
    rewrite (bind_Ret _ _ s (set_i_addrs (<[12%nat:=freeblock s]> (i_addrs i)) i) (grab s)).
    + cbn [set_i_addrs i_addrs]. rewrite byte_at_insert_eq, xint_id by (rewrite ?(wf_len i (fo_wf _ _ _ _ _ Hf)); lia). done.
    + rewrite (bind_Ret _ _ _ _ _ (next_block_ret s Hs ltac:(lia))), xint_id by lia. done.
  - rewrite (proj2 (Z.ltb_lt 12 nb)) in Hi by lia. exists (byte_at (i_addrs i) 12), (freeblock s), (i_addrs i), s, (grab s).
    split_and!; [right; split_and!; done || lia|lia| |done|done|apply next_block_ret; [done|lia]|lia|lia|apply image_grab; [done|lia]].
    rewrite (xint_id (byte_at (i_addrs i) 12)), (proj2 (Z.eqb_neq (byte_at (i_addrs i) 12) 0)) by lia. rewrite (bind_Ret _ _ s i s eq_refl).
    rewrite (xint_id (byte_at (i_addrs i) 12)) by lia. by destruct i.
Qed.

Lemma append_block_spec s i c nb fbn :
  image s → fok (Wof s) (freeblock s) i c nb → 0 <= fbn <= nb → fbn < 140 → freeblock s + taken nb fbn <= 1000 →
  ∃ i' s', append_block i fbn s = Ret (i', amap (Wof s') (i_addrs i') fbn) s' ∧
    fok (Wof s') (freeblock s') i' c (Z.max nb (fbn + 1)) ∧ grew s i s' i' ∧ freeblock s' = freeblock s + taken nb fbn.
Proof.
  intros Hs Hf Hfbn H140 Hroom. pose proof (im_fb s Hs) as Hfb. pose proof (fo_nb _ _ _ _ _ Hf) as [_ Hnb].
  unfold taken in *. destruct (fbn <? nb) eqn:Elt.
  - (* mapped *)
    exists i, s. replace (Z.max nb (fbn + 1)) with nb by lia. split_and!; [|done|by apply grew_refl|lia].
    pose proof (extend_range (Wof s) (freeblock s) i c nb Hf) as Hr.
    assert (Hm : 59 <= amap (Wof s) (i_addrs i) fbn < freeblock s).
    { pose proof (fo_map _ _ _ _ _ Hf fbn ltac:(lia)) as Hm. by rewrite Elt in Hm. }
    unfold append_block, NDIRECT. destruct (fbn <? 12) eqn:E12.
    + rewrite amap_direct in * by lia. rewrite xint_id by lia. rewrite (proj2 (Z.eqb_neq _ 0)) by lia. rewrite (bind_Ret _ _ s i s eq_refl), xint_id by lia. done.
    + pose proof (fo_ind _ _ _ _ _ Hf) as Hi. rewrite (proj2 (Z.ltb_lt 12 nb)) in Hi by lia. unfold ind in Hi.
      rewrite (xint_id (byte_at (i_addrs i) 12)), (proj2 (Z.eqb_neq (byte_at (i_addrs i) 12) 0)) by lia.
      rewrite (bind_Ret _ _ s i s eq_refl), (xint_id (byte_at (i_addrs i) 12)) by lia.
      rewrite amap_indirect in * by (unfold ind; lia). apply append_entry_old; [done|lia|done|lia].
  - (* a new block *)
    assert (fbn = nb) as -> by lia. replace (Z.max nb (nb + 1)) with (nb + 1) by lia. rewrite Z.ltb_irrefl in *.
    pose proof (fo_map _ _ _ _ _ Hf nb ltac:(lia)) as Hm. rewrite Z.ltb_irrefl in Hm. destruct (nb <? 12) eqn:E12.
    + rewrite (proj2 (Z.eqb_neq nb 12)) in * by lia. destruct (grab_direct s i c nb Hs ltac:(lia) Hf ltac:(lia)) as (Hf' & Hg & Ha).
      eexists _, (grab s). split_and!; [|exact Hf'|exact Hg|done]. unfold append_block, NDIRECT. rewrite E12. rewrite amap_direct in Hm by lia. rewrite Hm.
      change (xint 0 =? 0) with true. cbv iota. rewrite (bind_Ret _ _ s (set_i_addrs (<[Z.to_nat nb:=freeblock s]> (i_addrs i)) i) (grab s)).
      * rewrite Ha. rewrite amap_direct in Ha by lia. rewrite Ha, xint_id by lia. done.
      * rewrite (bind_Ret _ _ _ _ _ (next_block_ret s Hs ltac:(lia))), xint_id by lia. done.
    + (* in the indirect block, which may be new too *)
      destruct (append_block_step s i c nb Hs Hf ltac:(lia) ltac:(lia)) as (a & n & addrs' & s1 & s2 & Hstep & En & E1 & Hs1 & EW & Enb & Ha & Hs2).
      destruct (grab_indirect s i c nb a n addrs' s2 Hs ltac:(lia) Hf ltac:(lia) Hstep) as (Hf' & Hg & Hmap & Efb').
      eexists _, _. split_and!; [|by rewrite Efb'|exact Hg|lia]. rewrite E1. cbn [set_i_addrs i_addrs]. rewrite Hmap.
      rewrite <- EW. apply append_entry_new; [done|done|lia|lia| |done|destruct (nb =? 12); lia].
      rewrite EW. destruct Hstep as [(-> & -> & _)|(Hgt & -> & _)].
      * rewrite (im_zero s Hs) by lia. apply get_zeroes. lia.
      * rewrite <- amap_indirect; [done|lia|unfold ind in *; lia].
Qed.

(** Writing behind the contents, inside a mapped block. *)
Lemma write_tail s i c nb fbn l :
  image s → fok (Wof s) (freeblock s) i c nb → 0 <= fbn < nb → bytes_ok l →
  512 * fbn <= Z.of_nat (length c) → Z.of_nat (length c + length l) <= 512 * (fbn + 1) →
  let x := amap (Wof s) (i_addrs i) fbn in
  let s' := put_sect x (splice (Z.to_nat (Z.of_nat (length c) - fbn * 512)) l (Wof s x)) s in
  59 <= x < freeblock s ∧ fok (Wof s') (freeblock s') i (c ++ l) nb ∧ grew s i s' i.
Proof.
  intros Hs Hf Hfbn Hl Hlo Hhi x s'. pose proof (im_fb s Hs) as Hfb. destruct (fo_nb _ _ _ _ _ Hf) as [Hc Hnb].
  pose proof (fo_map _ _ _ _ _ Hf fbn ltac:(lia)) as Hx. rewrite (proj2 (Z.ltb_lt fbn nb)) in Hx by lia. fold x in Hx.
  destruct (im_blk s Hs x ltac:(lia)) as [Hxl Hxb].
  set (d := splice (Z.to_nat (Z.of_nat (length c) - fbn * 512)) l (Wof s x)) in *.
  assert (HW : ∀ m, 0 <= m → Wof s' m = upd (Wof s) x d m) by (intros m Hm; apply Wof_put; [done|lia|done]).
  assert (Hd : block_ok d) by (split; [unfold d; rewrite splice_length; lia|by apply splice_ok]).
  assert (Hi : ind (i_addrs i) ≠ 0 → Wof s' (ind (i_addrs i)) = Wof s (ind (i_addrs i))).
  { intros Hz. pose proof (fo_ne _ _ _ _ _ Hf fbn Hfbn) as Hne. pose proof (fo_ind _ _ _ _ _ Hf) as Hi.
    destruct (12 <? nb); [|done]. rewrite HW, upd_ne by (done || lia). done. }
  assert (Ha : ∀ bn, amap (Wof s') (i_addrs i) bn = amap (Wof s) (i_addrs i) bn) by (intros bn; by apply amap_frame).
  assert (Hox : own (Wof s) (i_addrs i) x) by (apply own_mapped; [lia|fold x; lia]).
  split; [done|]. split.
  - pose proof Hf as [F1 F2 F3 F4 F5 F6 F7]. split; try done.
    + rewrite length_app. lia.
    + intros bn Hb. rewrite Ha. by apply F3.
    + intros bn bn' H1 H2. rewrite !Ha. by apply F5.
    + intros bn H1. rewrite Ha. by apply F6.
    + intros o Ho. specialize (F7 o Ho). unfold fbyte in *. rewrite Ha. set (a := amap (Wof s) (i_addrs i) (o / 512)) in *.
      assert (Eout : ¬ (Z.of_nat (length c) <= o < Z.of_nat (length c + length l)) → byte_at (c ++ l) (Z.to_nat o) = byte_at c (Z.to_nat o)).
      { intros Hout. unfold byte_at. destruct (decide (o < Z.of_nat (length c))); [by rewrite lookup_app_l by lia|].
        rewrite !lookup_ge_None_2; [done|lia|rewrite length_app; lia]. }
      destruct (decide (o / 512 = fbn)) as [Eb|Nb].
      * assert (a = x) as Eax by (unfold a, x; by rewrite Eb). rewrite Eax in *. rewrite (proj2 (Z.eqb_neq x 0)) in * by lia.
        rewrite HW, upd_eq by lia. unfold d. rewrite byte_at_splice by (rewrite Hxl; lia). case_decide as Hin.
        -- unfold byte_at. rewrite lookup_app_r by dlia. do 2 f_equal. dlia.
        -- rewrite F7. symmetry. apply Eout. dlia.
      * rewrite Eout by dlia. rewrite <- F7. destruct (a =? 0) eqn:Ea; [done|]. rewrite HW, upd_ne; [done| |].
        -- intros E. pose proof (F3 (o / 512) ltac:(dlia)) as Hm. fold a in Hm. destruct (o / 512 <? nb) eqn:El; [|lia].
           apply Nb, F5; [dlia|lia|done].
        -- pose proof (F3 (o / 512) ltac:(dlia)) as Hm. fold a in Hm. destruct (o / 512 <? nb); lia.
  - split; try done.
    + apply image_put; [done|lia|done].
    + intros m Hm Ho. rewrite HW, upd_ne; [done| |lia]. intros ->. apply Ho. by apply (own_frame (Wof s)).
    + intros m Ho. by apply (own_frame (Wof s)).
    + intros m Ho. left. by apply (own_frame (Wof s) (Wof s')).
    + by destruct i.
Qed.

Lemma cost_step n k :
  0 <= n → 0 < k → n + k <= 512 * (n / 512 + 1) →
  Z.max (blocks n) (n / 512 + 1) = blocks (n + k) ∧ n / 512 <= blocks n ∧ cost n + taken (blocks n) (n / 512) = cost (n + k).
Proof.
  intros Hn Hk Hm. assert (Eb : blocks (n + k) = n / 512 + 1) by (unfold blocks; dlia).
  unfold cost, taken. rewrite Eb. unfold blocks.
  destruct (Z.ltb_spec (n / 512) ((n + 511) / 512)), (Z.ltb_spec 12 ((n + 511) / 512)), (Z.ltb_spec 12 (n / 512 + 1)), (Z.eqb_spec (n / 512) 12); dlia.
Qed.

Lemma cost_mono n m : n <= m → cost n <= cost m.
Proof. intros H. unfold cost, blocks. destruct (Z.ltb_spec 12 ((n + 511) / 512)), (Z.ltb_spec 12 ((m + 511) / 512)); dlia. Qed.

(** The loop appends [p] at the end of the contents, taking just the blocks it
    needs, and touches no block of another file. *)
Lemma iappend_loop_spec fuel : ∀ s i c p,
  (length p <= fuel)%nat → image s → fok (Wof s) (freeblock s) i c (blocks (Z.of_nat (length c))) → bytes_ok p →
  Z.of_nat (length c + length p) <= 71680 →
  freeblock s + cost (Z.of_nat (length c + length p)) - cost (Z.of_nat (length c)) <= 1000 →
  ∃ i' s', iappend_loop fuel i (Z.of_nat (length c)) p s = Ret (i', Z.of_nat (length c + length p)) s' ∧
    fok (Wof s') (freeblock s') i' (c ++ p) (blocks (Z.of_nat (length c + length p))) ∧ grew s i s' i' ∧
    freeblock s' = freeblock s + cost (Z.of_nat (length c + length p)) - cost (Z.of_nat (length c)).
Proof.
  induction fuel as [|fuel IH]; intros s i c p Hfuel Hs Hf Hp Hsz Hroom.
  { destruct p; [|cbn in Hfuel; lia]. exists i, s. cbn [iappend_loop length Nat.eqb]. rewrite Nat.add_0_r, app_nil_r in *.
    split_and!; [done|done|by apply grew_refl|lia]. }
  destruct (decide (p = [])) as [->|Hne].
  { exists i, s. cbn [iappend_loop length Nat.eqb]. rewrite Nat.add_0_r, app_nil_r in *. split_and!; [done|done|by apply grew_refl|lia]. }
  assert (Hlp : (0 < length p)%nat) by (destruct p; [done|cbn; lia]).
  cbn [iappend_loop]. rewrite (proj2 (Nat.eqb_neq _ _)) by lia. change BSIZE with 512. change MAXFILE with 140.
  set (off := Z.of_nat (length c)) in *. rewrite (proj2 (Z.leb_gt 140 (off / 512))) by dlia.
  set (n1 := Z.to_nat (Z.min (Z.of_nat (length p)) ((off / 512 + 1) * 512 - off))).
  assert (Hn1 : (0 < n1 <= length p)%nat ∧ off + Z.of_nat n1 <= 512 * (off / 512 + 1)) by (unfold n1; dlia).
  destruct (cost_step off (Z.of_nat n1)) as (Emax & Hle & Ecost); [lia|lia|apply Hn1|].
  destruct (append_block_spec s i c (blocks off) (off / 512) Hs Hf) as (i1 & s1 & E1 & Hf1 & Hg1 & Efb1); [dlia|dlia| |].
  { pose proof (cost_mono (off + Z.of_nat n1) (Z.of_nat (length c + length p))). lia. }
  rewrite Emax in Hf1. pose proof (g_image _ _ _ _ Hg1) as Hs1.
  destruct (write_tail s1 i1 c (blocks (off + Z.of_nat n1)) (off / 512) (take n1 p) Hs1 Hf1) as (Hx & Hf2 & Hg2);
    [dlia|by apply Forall_take|fold off; dlia|rewrite length_take; lia|].
  rewrite (bind_Ret _ _ _ _ _ E1). cbv beta iota. pose proof (im_fb s1 Hs1) as Hfb1. fold n1.
  set (x := amap (Wof s1) (i_addrs i1) (off / 512)) in *. assert (Hx' : 0 <= x < 1000) by lia.
  rewrite (bind_Ret _ _ _ _ _ (rsect_ret s1 x Hs1 Hx')), (bind_Ret _ _ _ _ _ (wsect_ret s1 x _ Hs1 Hx')).
  fold off in Hf2, Hg2. set (s2 := put_sect _ _ s1) in *. cbv beta in Hf2. change (freeblock s2) with (freeblock s1) in *.
  assert (El : off + Z.of_nat n1 = Z.of_nat (length (c ++ take n1 p))) by (rewrite length_app, length_take; lia).
  rewrite El in *. assert (El2 : (length (c ++ take n1 p) + length (drop n1 p) = length c + length p)%nat) by (rewrite length_app, length_take, length_drop; lia).
  destruct (IH s2 i1 (c ++ take n1 p) (drop n1 p)) as (i' & s' & E & Hf' & Hg' & Efb').
  - rewrite length_drop. lia.
  - apply (g_image _ _ _ _ Hg2).
  - done.
  - by apply Forall_drop.
  - lia.
  - rewrite El2. cbn. lia.
  - rewrite El2 in *. exists i', s'. rewrite E. rewrite <- app_assoc, take_drop in Hf'. split_and!; [done|done| |].
    + eapply grew_trans; [exact Hg1|]. eapply grew_trans; [exact Hg2|exact Hg'].
    + change (freeblock s2) with (freeblock s1) in Efb'. lia.
Qed.
