(* ===== verification/FsDir.v ===== *)
(** * Names: the inode cache, directories and paths

    What [iget] promises about the cache, what [balloc] and [bfree] promise
    about the bitmap, which entry [dirlookup] finds, and how [skipelem] cuts a
    path, against reference definitions. *)

From S2P Require Import Prelude Param Bio Log Blocks Txn Fs FsBlocks FsFile FsInode FsExample.

(** ** Paths *)

(** The non-empty elements of a path, by a left-to-right scan: [cur] is the
    element being collected, reversed. *)
Fixpoint split_path (path cur : list Z) : list (list Z) :=
  let done := match cur with [] => [] | _ => [reverse cur] end in
  match path with
  | [] => done
  | c :: p => if c =? 47 then done ++ split_path p [] else split_path p (c :: cur)
  end.

(** Every element [skipelem] takes off a path, in order. *)
Fixpoint elements (fuel : nat) (path : list Z) : list (list Z) :=
  match fuel with
  | O => []
  | S fuel =>
      match skipelem path with
      | None => []
      | Some (name, rest) => name :: elements fuel rest
      end
  end.

Lemma split_skip path : split_path (skip_slashes path) [] = split_path path [].
Proof.
  induction path as [|c p IH]; [done|]. cbn [skip_slashes]. destruct (c =? 47) eqn:E; [|done].
  rewrite IH. cbn [split_path]. by rewrite E.
Qed.

Lemma split_elem path cur e r :
  take_elem path = (e, r) → (cur ≠ [] ∨ e ≠ []) →
  split_path path cur = (reverse cur ++ e) :: split_path r [].
Proof.
  revert cur e r. induction path as [|c p IH]; intros cur e r; cbn [take_elem split_path].
  - intros [= <- <-] [Hc|]; [|done]. destruct cur; [done|]. by rewrite app_nil_r.
  - destruct (c =? 47) eqn:E.
    + intros [= <- <-] [Hc|]; [|done]. cbn [split_path]. rewrite E. destruct cur; [done|]. by rewrite app_nil_r.
    + destruct (take_elem p) as [e' r'] eqn:Et. intros [= <- <-] _.
      rewrite (IH (c :: cur) e' r'); [|done|by left]. rewrite reverse_cons, <- app_assoc. done.
Qed.

Lemma skip_slashes_head path c p : skip_slashes path = c :: p → (c =? 47) = false.
Proof.
  induction path as [|x l IH]; [done|]. cbn [skip_slashes]. destruct (x =? 47) eqn:E; [done|]. by intros [= <- _].
Qed.

Lemma skip_slashes_length path : (length (skip_slashes path) <= length path)%nat.
Proof. induction path as [|x l IH]; [done|]. cbn [skip_slashes]. destruct (x =? 47); cbn [length]; lia. Qed.

Lemma take_elem_length path e r : take_elem path = (e, r) → (length e + length r = length path)%nat.
Proof.
  revert e r. induction path as [|c p IH]; intros e r; cbn [take_elem]; [by intros [= <- <-]|].
  destruct (c =? 47); [by intros [= <- <-]|]. destruct (take_elem p) as [e' r'] eqn:Et. intros [= <- <-].
  cbn [length]. rewrite <- (IH e' r'); [lia|done].
Qed.

(** Taking elements off a path one by one gives exactly the non-empty
    strings between its slashes, in order, each cut to DIRSIZ bytes; as many
    steps as the path has bytes are enough, so [namex] terminates. *)
Theorem skipelem_splits path fuel :
  (length path < fuel)%nat → elements fuel path = take DIRSIZ <$> split_path path [].
Proof.
  revert path. induction fuel as [|fuel IH]; intros path Hf; [lia|]. cbn [elements]. unfold skipelem.
  rewrite <- split_skip. pose proof (skip_slashes_length path) as Hlen.
  destruct (skip_slashes path) as [|c p] eqn:Es; [done|]. pose proof (skip_slashes_head _ _ _ Es) as Hc.
  destruct (take_elem (c :: p)) as [e r] eqn:Et. pose proof (take_elem_length _ _ _ Et) as Hlen2.
  assert (He : e ≠ []).
  { intros ->. cbn [take_elem] in Et. rewrite Hc in Et. destruct (take_elem p). discriminate Et. }
  rewrite (split_elem _ _ _ _ Et) by by right. rewrite fmap_cons. change (reverse [] ++ e) with e. f_equal.
  - destruct (DIRSIZ <=? length e)%nat eqn:E; [done|]. apply Nat.leb_gt in E. symmetry. apply take_ge. lia.
  - rewrite IH, split_skip; [done|]. pose proof (skip_slashes_length r). destruct e; [done|]. cbn [length] in *. lia.
Qed.

(** "/usr//bin/" is "usr", "bin". *)
Lemma skipelem_splits_witness :
  elements 11 [47; 117; 115; 114; 47; 47; 98; 105; 110; 47] = [[117; 115; 114]; [98; 105; 110]].
Proof. rewrite (skipelem_splits _ 11); [reflexivity|cbn; lia]. Defined.

(** ** The inode cache *)

(** At most one entry in use per inode. *)
Definition icache_ok (l : list inode) : Prop :=
  ∀ i j x y, l !! i = Some x → l !! j = Some y → 0 < i_ref x → 0 < i_ref y →
    i_dev x = i_dev y → i_inum x = i_inum y → i = j.

Lemma iget_scan_inl l k dev inum e ip :
  iget_scan l k dev inum e = inl ip →
  ∃ j x, ip = (k + j)%nat ∧ l !! j = Some x ∧ 0 < i_ref x ∧ i_dev x = dev ∧ i_inum x = inum.
Proof.
  revert k e. induction l as [|x l IH]; intros k e; cbn [iget_scan]; [done|].
  destruct (_ && _) eqn:E.
  - intros [= <-]. exists 0%nat, x. rewrite !andb_true_iff in E. split_and!; [lia|done|lia..].
  - intros (j & y & -> & Hj & Hy)%IH. exists (S j), y. split; [lia|done].
Qed.

Lemma iget_scan_inr l k dev inum e r :
  iget_scan l k dev inum e = inr r →
  (∀ j x, l !! j = Some x → 0 < i_ref x → ¬ (i_dev x = dev ∧ i_inum x = inum)) ∧
  (r = e ∨ e = None ∧ ∃ j x, r = Some (k + j)%nat ∧ l !! j = Some x ∧ i_ref x = 0).
Proof.
  revert k e. induction l as [|x l IH]; intros k e; cbn [iget_scan].
  - intros [= <-]. split; [done|by left].
  - destruct (_ && _) eqn:E; [done|]. intros (Hno & Hr)%IH. split.
    + intros [|j] y Hy Hpos [Hd Hi]; [|by apply (Hno j y Hy Hpos)]. injection Hy as ->. 
      rewrite (proj2 (Z.ltb_lt _ _) Hpos), (proj2 (Z.eqb_eq _ _) Hd), (proj2 (Z.eqb_eq _ _) Hi) in E. done.
    + destruct Hr as [->|(He & j & y & -> & Hy & Hz)].
      * destruct e as [e|]; [by left|]. destruct (i_ref x =? 0) eqn:Ez; [|by left].
        right. split; [done|]. exists 0%nat, x. split_and!; [f_equal; lia|done|lia].
      * right. destruct e as [e|]; [done|]. split; [done|]. exists (S j), y. split; [f_equal; lia|done].
Qed.

Section iget.
Context {S : Type} `{BlockLayer S}.
Implicit Types s : fsst S.

(** From a cache with at most one entry in use per inode, [iget] either
    panics because every entry is in use, or returns an entry for the inode it
    was asked for with one more reference, and the cache still has at most one
    entry per inode: two holders of the same inode always share it. *)
Lemma iget_unique s dev inum :
  icache_ok (icache s) → (∀ i x, icache s !! i = Some x → 0 <= i_ref x) →
  (iget dev inum s = Panic "iget: no inodes" ∧ ∀ i x, icache s !! i = Some x → 0 < i_ref x) ∨
  ∃ ip s' x y, iget dev inum s = Ret ip s' ∧ icache s !! ip = Some x ∧ icache s' = <[ip := y]> (icache s) ∧
    i_dev y = dev ∧ i_inum y = inum ∧ i_ref y = i_ref x + 1 ∧ icache_ok (icache s').
Proof.
  intros Hok Hnn. unfold iget. cbn. unfold mbind, M_bind, gets. cbn.
  destruct (iget_scan (icache s) 0 dev inum None) as [ip|[ip|]] eqn:E.
  - destruct (iget_scan_inl _ _ _ _ _ _ E) as (j & x & Ej & Hx & Hpos & Hd & Hi). cbn in Ej. rewrite Ej in *. clear Ej ip.
    right. unfold seti. rewrite Hx. cbn. eexists j, _, x, _. split_and!; try reflexivity; try done.
    cbn [icache]. intros i k y z Hy Hz. pose proof (lookup_lt_Some _ _ _ Hx) as Hlt.
    rewrite list_lookup_insert_case in Hy, Hz by done.
    destruct (decide (j = i)) as [<-|], (decide (j = k)) as [<-|]; try done.
    + injection Hy as <-. cbn. intros _ ? ? ?. by apply (Hok j k x z).
    + injection Hz as <-. cbn. intros ? _ ? ?. by apply (Hok i j y x).
    + by apply Hok.
  - destruct (iget_scan_inr _ _ _ _ _ _ E) as (Hno & [He|(_ & j & x & Ej & Hx & Hz)]); [done|].
    injection Ej as ->. cbn in *. right. unfold seti. rewrite Hx. cbn. eexists j, _, x, _.
    split_and!; try reflexivity; try done; [cbn; lia|].
    cbn [icache]. intros i k y z Hy Hzz. pose proof (lookup_lt_Some _ _ _ Hx) as Hlt.
    rewrite list_lookup_insert_case in Hy, Hzz by done.
    destruct (decide (j = i)) as [<-|], (decide (j = k)) as [<-|]; try done.
    + injection Hy as <-. cbn. intros _ Hp Hd Hi. exfalso. by apply (Hno k z Hzz Hp).
    + injection Hzz as <-. cbn. intros Hp _ Hd Hi. exfalso. by apply (Hno i y Hy Hp).
    + by apply Hok.
  - left. split; [done|]. destruct (iget_scan_inr _ _ _ _ _ _ E) as (_ & _). intros i x Hx.
    destruct (decide (i_ref x = 0)) as [Hz|]; [|specialize (Hnn i x Hx); lia]. exfalso.
    clear Hok Hnn. revert E. generalize 0%nat. revert i Hx. induction (icache s) as [|y l IH]; intros i Hx k; [done|].
    cbn [iget_scan]. destruct (_ && _); [done|]. destruct (i_ref y =? 0) eqn:Ey.
    + intros E. destruct (iget_scan_inr _ _ _ _ _ _ E) as (_ & [He|(He & _)]); done.
    + destruct i as [|i]; [injection Hx as ->; lia|]. by apply (IH i).
Qed.
End iget.

(** ** Directories *)

(** The string in the first [n] bytes of a buffer. *)
Fixpoint cstr (n : nat) (p : list Z) : list Z :=
  match n with
  | O => []
  | S n => if byte_at p 0 =? 0 then [] else byte_at p 0 :: cstr n (drop 1 p)
  end.

Lemma lstrncmp_zero n p q : lstrncmp n p q = 0 ↔ cstr n p = cstr n q.
Proof.
  revert p q. induction n as [|n IH]; intros p q; cbn [lstrncmp cstr]; [done|].
  destruct (byte_at p 0 =? 0) eqn:Ep; cbn [orb].
  - apply Z.eqb_eq in Ep. destruct (byte_at q 0 =? 0) eqn:Eq; [|split; [lia|done]]. split; [done|lia].
  - destruct (byte_at p 0 =? byte_at q 0) eqn:E; cbn [negb].
    + apply Z.eqb_eq in E. rewrite <- E, Ep, IH. split; [by intros ->|by intros [= ->]].
    + split; [lia|]. destruct (byte_at q 0 =? 0); [done|]. intros [= ? _]. lia.
Qed.

(** The first entry in use with that name: its position and inode number. *)
Fixpoint find_entry (es : list (list Z)) (k : Z) (name : list Z) : option (Z * Z) :=
  match es with
  | [] => None
  | e :: es =>
      if decide (de_inum e ≠ 0 ∧ cstr DIRSIZ name = cstr DIRSIZ (de_name e)) then Some (k, de_inum e)
      else find_entry es (k + 1) name
  end.

(** The entries of a directory from the [k]th on. *)
Fixpoint dir_entries (W : Z → list Z) (i : inode) (k : Z) (n : nat) : list (list Z) :=
  match n with
  | O => []
  | S n => tab (fbyte W (i_addrs i)) (16 * k) 16 :: dir_entries W i (k + 1) n
  end.

Section dir.
Context {S : Type} `{BlockLayerOk S}.
Context (V : Z → Prop) (lim : nat) (b : superblock).
Context (V_u32 : ∀ n, V n → is_u32 n) (lim_buf : (lim + 3 <= NBUF)%nat).
Context (Hlay : layout V b) (devsw_read : Z → option (nat → Z → M (fsst S) (Z * list Z))).
Implicit Types s : fsst S.

Lemma iget_scan_free l k dev inum e :
  (∃ j x, l !! j = Some x ∧ i_ref x = 0) ∨ e ≠ None → iget_scan l k dev inum e ≠ inr None.
Proof.
  revert k e. induction l as [|x l IH]; intros k e He; cbn [iget_scan].
  - destruct He as [(j & y & Hy & _)|He]; [done|]. by destruct e.
  - destruct (_ && _); [done|]. apply IH. destruct e as [e|]; [by right|].
    destruct (i_ref x =? 0) eqn:E; [by right|]. left. destruct He as [([|j] & y & Hy & Hz)|He]; [|eauto|done].
    injection Hy as ->. lia.
Qed.

Lemma iget_rule W Hd L ic s dev inum (Q : nat → fsst S → Prop) :
  st V lim W Hd L b ic s → (∃ j x, ic !! j = Some x ∧ i_ref x = 0) →
  (∀ ip y s', st V lim W Hd L b (<[ip := y]> ic) s' → i_dev y = dev → i_inum y = inum → Q ip s') →
  wp (iget dev inum) Q s.
Proof.
  intros Hs Hfree HQ. unfold iget. rewrite wp_bind, wp_gets, (st_ic _ _ _ _ _ _ _ _ Hs).
  pose proof (iget_scan_free ic 0 dev inum None (or_introl Hfree)) as Hne.
  destruct (iget_scan ic 0 dev inum None) as [ip|[ip|]] eqn:E; [| |done].
  - destruct (iget_scan_inl _ _ _ _ _ _ E) as (j & x & -> & Hx & _ & Hd' & Hi). cbn [Nat.add].
    rewrite wp_bind. eapply fsr_seti; [exact Hs|exact Hx|]. intros s' Hs'. rewrite wp_ret. by eapply HQ.
  - destruct (iget_scan_inr _ _ _ _ _ _ E) as (_ & [He|(_ & j & x & Ej & Hx & _)]); [done|]. injection Ej as ->.
    rewrite wp_bind. eapply fsr_seti; [exact Hs|exact Hx|]. intros s' Hs'. rewrite wp_ret. by eapply HQ.
Qed.

Lemma dirlookup_loop_spec n k W L ic s dp i name (Q : option (nat * Z) → fsst S → Prop) :
  st V lim W ∅ L b ic s → ic !! dp = Some i → file_inv V b W i → (length L <= lim)%nat → 0 <= k →
  16 * (k + Z.of_nat n) <= i_size i → (∃ j x, ic !! j = Some x ∧ i_ref x = 0) →
  match find_entry (dir_entries W i k n) k name with
  | None => ∀ s', st V lim W ∅ L b ic s' → Q None s'
  | Some (j, inum) => ∀ ip y s', st V lim W ∅ L b (<[ip := y]> ic) s' → i_dev y = 1 → i_inum y = inum → Q (Some (ip, 16 * j)) s'
  end → wp (dirlookup_loop devsw_read n dp name (16 * k)) Q s.
Proof.
  intros Hs Hi Hf HL. revert k s Hs. induction n as [|n IH]; intros k s Hs Hk Hsz Hfree HQ; cbn [dirlookup_loop].
  { rewrite wp_ret. by apply HQ. }
  cbn [dir_entries find_entry] in HQ. pose proof (fi_size _ _ _ _ Hf) as Hmax.
  rewrite wp_bind. eapply fsr_geti; [exact Hs|exact Hi|]. rewrite wp_bind.
  eapply (readi_spec V lim b V_u32 lim_buf);
    [exact Hs|exact Hi|exact Hf|exact HL|unfold is_u32; lia|unfold is_u32, sizeof_dirent; lia|].
  intros s1 Hs1. unfold read_result. change sizeof_dirent with 16.
  rewrite (u32_id (16 * k + 16)) by lia.
  rewrite (proj2 (Z.ltb_ge (i_size i) (16 * k))), (proj2 (Z.ltb_ge (16 * k + 16) (16 * k))) by lia. cbn [orb].
  rewrite (proj2 (Z.ltb_ge (i_size i) (16 * k + 16))) by lia.
  change (Z.to_nat 16) with 16%nat. change (negb (16 =? 16)) with false.
  set (e := tab (fbyte W (i_addrs i)) (16 * k) 16) in *.
  assert (Hrec : match find_entry (dir_entries W i (k + 1) n) (k + 1) name with
      | None => ∀ s', st V lim W ∅ L b ic s' → Q None s'
      | Some (j, inum) => ∀ ip y s', st V lim W ∅ L b (<[ip := y]> ic) s' → i_dev y = 1 → i_inum y = inum →
          Q (Some (ip, 16 * j)) s'
      end → wp (dirlookup_loop devsw_read n dp name (16 * k + 16)) Q s1).
  { replace (16 * k + 16) with (16 * (k + 1)) by lia. apply IH; [exact Hs1|lia|lia|exact Hfree]. }
  destruct (decide (de_inum e ≠ 0 ∧ cstr DIRSIZ name = cstr DIRSIZ (de_name e))) as [[Hnz Hnm]|Hno].
  - rewrite (proj2 (Z.eqb_neq _ _) Hnz). unfold namecmp. rewrite (proj2 (Z.eqb_eq _ _) (proj2 (lstrncmp_zero _ _ _) Hnm)).
    rewrite wp_bind. eapply iget_rule; [exact Hs1|exact Hfree|]. intros ip y s2 Hs2 Hy1 Hy2.
    rewrite wp_ret. by eapply HQ; [exact Hs2|rewrite Hy1; exact (fi_dev _ _ _ _ Hf)|].
  - destruct (de_inum e =? 0) eqn:E0; [by apply Hrec|]. unfold namecmp.
    destruct (lstrncmp DIRSIZ name (de_name e) =? 0) eqn:E1; [|by apply Hrec].
    exfalso. apply Hno. split; [lia|]. apply lstrncmp_zero. lia.
Qed.

(** C18: [dirlookup] in a directory whose size is a multiple of the entry size
    finds the first entry in use whose name (up to DIRSIZ bytes or a NUL) is
    the one asked for, and returns a reference to that entry's inode and the
    entry's offset; it returns 0 exactly when there is no such entry. *)
Theorem dirlookup_correct W L ic s dp i name :
  st V lim W ∅ L b ic s → ic !! dp = Some i → file_inv V b W i → i_type i = T_DIR → (length L <= lim)%nat →
  i_size i mod 16 = 0 → (∃ j x, ic !! j = Some x ∧ i_ref x = 0) →
  wp (dirlookup devsw_read dp name) (λ r s',
    match find_entry (dir_entries W i 0 (Z.to_nat (i_size i / 16))) 0 name with
    | None => r = None ∧ st V lim W ∅ L b ic s'
    | Some (j, inum) => ∃ ip y, r = Some (ip, 16 * j) ∧ st V lim W ∅ L b (<[ip := y]> ic) s' ∧ i_dev y = 1 ∧ i_inum y = inum
    end) s.
Proof.
  intros Hs Hi Hf Ht HL Hm Hfree. pose proof (fi_size _ _ _ _ Hf) as Hsz. unfold dirlookup. rewrite wp_bind.
  eapply fsr_geti; [exact Hs|exact Hi|]. rewrite (proj2 (Z.eqb_eq _ _) Ht). cbn [negb].
  replace (dirents (i_size i)) with (Z.to_nat (i_size i / 16))
    by (unfold dirents; change sizeof_dirent with 16; f_equal; dlia).
  eapply (dirlookup_loop_spec _ 0); [exact Hs|exact Hi|exact Hf|exact HL|lia|rewrite Z2Nat.id by dlia; dlia|exact Hfree|].
  destruct (find_entry _ 0 name) as [[j inum]|].
  - intros ip y s' Hs' Hy1 Hy2. exists ip, y. done.
  - intros s' Hs'. done.
Qed.
End dir.

(** Looking up "f" in the example directory finds inode 1 at offset 0. *)
Lemma dirlookup_correct_witness :
  ∃ W (s : fsst (lstate Memide.memide)), st ex_V 10 W ∅ [] ex_sb [ex_dir; inode0] s ∧
    wp (dirlookup (λ _, None) 0 [102]) (λ r s', ∃ ip y, r = Some (ip, 0) ∧
      st ex_V 10 W ∅ [] ex_sb (<[ip := y]> [ex_dir; inode0]) s' ∧ i_dev y = 1 ∧ i_inum y = 1) s.
Proof.
  destruct (ex_state [ex_dir; inode0]) as (W & s & HW & Hs). exists W, s. split; [exact Hs|].
  assert (E : find_entry (dir_entries W ex_dir 0 (Z.to_nat (i_size ex_dir / 16))) 0 [102] = Some (0, 1)).
  { change (Z.to_nat (i_size ex_dir / 16)) with 1%nat. unfold dir_entries.
    replace (tab (fbyte W (i_addrs ex_dir)) (16 * 0) 16) with (mk_dirent 1 [102]); [vm_compute; reflexivity|].
    assert (Hb : ∀ o, 0 <= o < 16 → fbyte W (i_addrs ex_dir) o = byte_at ex_dir_block (Z.to_nat o)).
    { intros o Ho. unfold fbyte. rewrite ex_dir_amap by dlia. rewrite (proj2 (Z.eqb_eq (o / 512) 0)) by dlia.
      cbn [Z.eqb]. destruct HW as (_ & _ & _ & ->). f_equal. dlia. }
    rewrite (tab_ext _ (λ o, byte_at ex_dir_block (Z.to_nat o)) _ 0); [vm_compute; reflexivity|].
    intros k Hk. rewrite Hb by lia. done. }
  pose proof (dirlookup_correct ex_V 10 ex_sb ex_V_u32 ltac:(apply Nat.leb_le; reflexivity) (λ _, None) W []
    [ex_dir; inode0] s 0 ex_dir [102] Hs eq_refl (ex_dir_inv W HW) eq_refl ltac:(cbn; lia) eq_refl
    ltac:(exists 1%nat, inode0; done)) as Hw.
  rewrite E in Hw. exact Hw.
Defined.
