(* ===== verification/FsCache.v ===== *)
(** * References to inodes

    The inode cache (fs.c) as its clients see it: a list of the references
    they hold, each with the inode it was obtained for, and the operations of
    fs.c that take, copy and drop references, find them by name, or only use
    them. *)

From S2P Require Import Prelude Param Bio Log Blocks Txn Fs FsExample FsDir.

(** A pointer into the cache and the inode it was obtained for. *)
Record iref := IRef { ir_ip : nat; ir_dev : Z; ir_inum : Z }.

#[export] Instance iref_eq : EqDecision iref.
Proof. solve_decision. Defined.

(** How many of the references [h] are to entry [ip]. *)
Definition refs (ip : nat) (h : list iref) : nat := length (filter (λ r, ir_ip r = ip) h).

(** The cache [l] agrees with the references [h]: every count is exact, every
    reference still designates its inode, and no inode has two entries. *)
Record icinv (l : list inode) (h : list iref) : Prop := {
  ic_ref ip x : l !! ip = Some x → i_ref x = Z.of_nat (refs ip h);
  ic_held r : r ∈ h → ∃ x, l !! ir_ip r = Some x ∧ i_dev x = ir_dev r ∧ i_inum x = ir_inum r;
  ic_uniq : icache_ok l;
}.

Lemma refs_cons ip r h : refs ip (r :: h) = ((if decide (ir_ip r = ip) then 1 else 0) + refs ip h)%nat.
Proof. unfold refs. rewrite filter_cons. by case_decide. Qed.

Lemma refs_perm ip h h' : h ≡ₚ h' → refs ip h = refs ip h'.
Proof. intros E. unfold refs. by rewrite E. Qed.

Lemma refs_pos r h : r ∈ h → (0 < refs (ir_ip r) h)%nat.
Proof.
  intros Hr. unfold refs. destruct (filter _ h) as [|x t] eqn:E; [|cbn; lia].
  assert (Hx : r ∈ filter (λ x, ir_ip x = ir_ip r) h) by (by apply list_elem_of_filter). rewrite E in Hx.
  by apply elem_of_nil in Hx.
Qed.

Lemma refs_zero ip h r : refs ip h = 0%nat → r ∈ h → ir_ip r ≠ ip.
Proof. intros Hz Hr <-. apply refs_pos in Hr. lia. Qed.

Lemma icinv_perm l h h' : h ≡ₚ h' → icinv l h → icinv l h'.
Proof.
  intros E [H1 H2 H3]. split; [|intros r Hr; apply H2; by rewrite E|done].
  intros ip x Hx. rewrite <- (refs_perm ip _ _ E). by apply H1.
Qed.

(** ** What identifies an entry *)

Definition ids (l : list inode) : list (Z * Z * Z) := (λ x, (i_dev x, i_inum x, i_ref x)) <$> l.

Lemma ids_lookup l l' i x : ids l = ids l' → l !! i = Some x →
  ∃ y, l' !! i = Some y ∧ i_dev y = i_dev x ∧ i_inum y = i_inum x ∧ i_ref y = i_ref x.
Proof.
  intros E Hx. assert (Hi : ids l' !! i = Some (i_dev x, i_inum x, i_ref x)).
  { rewrite <- E. unfold ids. by rewrite list_lookup_fmap, Hx. }
  unfold ids in Hi. rewrite list_lookup_fmap in Hi. destruct (l' !! i) as [y|]; [|done].
  exists y. cbn in Hi. by simplify_eq.
Qed.

Lemma icinv_ids l l' h : ids l = ids l' → icinv l h → icinv l' h.
Proof.
  intros E [H1 H2 H3]. symmetry in E. split.
  - intros ip x Hx. destruct (ids_lookup _ _ _ _ E Hx) as (y & Hy & _ & _ & <-). by apply H1.
  - intros r Hr. destruct (H2 r Hr) as (x & Hx & ? & ?). symmetry in E.
    destruct (ids_lookup _ _ _ _ E Hx) as (y & Hy & ? & ? & _). exists y. split_and!; congruence.
  - intros i j x y Hx Hy Px Py Ed Ei. destruct (ids_lookup _ _ _ _ E Hx) as (x' & Hx' & ? & ? & ?).
    destruct (ids_lookup _ _ _ _ E Hy) as (y' & Hy' & ? & ? & ?). apply (H3 i j x' y'); congruence.
Qed.

Lemma ids_insert l ip x y : l !! ip = Some x →
  i_dev y = i_dev x → i_inum y = i_inum x → i_ref y = i_ref x → ids (<[ip := y]> l) = ids l.
Proof.
  intros Hx E1 E2 E3. unfold ids. rewrite list_fmap_insert, E1, E2, E3. apply list_insert_id.
  by rewrite list_lookup_fmap, Hx.
Qed.

Section cache.
Context {S : Type} `{BlockLayer S}.
Abbreviation F := (M (fsst S)).
Implicit Types s : fsst S.

(** ** Operations that leave the references alone *)

Definition ikeeps {A} (m : F A) : Prop := ∀ s a s', m s = Ret a s' → ids (icache s) = ids (icache s').

Lemma ikeeps_ret {A} (a : A) : ikeeps (mret a).
Proof. by intros s b s' [= _ <-]. Qed.

Lemma ikeeps_bind {A B} (m : F A) (f : A → F B) : ikeeps m → (∀ a, ikeeps (f a)) → ikeeps (m ≫= f).
Proof.
  intros Hm Hf s b s' Hrun. apply bind_inv in Hrun as (a & t & E & Hrun). rewrite (Hm _ _ _ E). by eapply Hf.
Qed.

Lemma ikeeps_panic {A} msg : ikeeps (panic msg : F A).
Proof. by intros s b s'. Qed.

Lemma ikeeps_diverge {A} : ikeeps (diverge : F A).
Proof. by intros s b s'. Qed.

Lemma ikeeps_liftb {A} (m : M S A) : ikeeps (Fs.liftb m).
Proof. intros s b s'. unfold Fs.liftb. destruct (m (fs_b s)); [|done..]. by intros [= _ <-]. Qed.

Lemma ikeeps_gets {A} (f : fsst S → A) : ikeeps (gets f).
Proof. by intros s b s' [= _ <-]. Qed.

Lemma ikeeps_setsb b : ikeeps (modify (λ s : fsst S, Fs (fs_b s) b (icache s) (fs_pid s))).
Proof. by intros s c s' [= _ <-]. Qed.

Lemma ikeeps_geti ip : ikeeps (geti ip : F inode).
Proof. intros s b s'. unfold geti. destruct (icache s !! ip); [|done]. by intros [= _ <-]. Qed.

Lemma ikeeps_seti ip f :
  (∀ x, i_dev (f x) = i_dev x) → (∀ x, i_inum (f x) = i_inum x) → (∀ x, i_ref (f x) = i_ref x) →
  ikeeps (seti ip f : F unit).
Proof.
  intros H1 H2 H3 s b s'. unfold seti. destruct (icache s !! ip) as [x|] eqn:Hx; [|done]. intros [= _ <-].
  cbn [icache]. symmetry. by eapply ids_insert.
Qed.

Lemma ikeeps_locki ip : ikeeps (locki ip : F unit).
Proof.
  intros s b s'. unfold locki. destruct (icache s !! ip) as [x|] eqn:Hx; [|done].
  destruct (acquiresleep _ _); [|done]. intros [= _ <-]. cbn [icache]. symmetry. by eapply ids_insert.
Qed.

Lemma ikeeps_for n k (body : nat → F unit) : (∀ j, ikeeps (body j)) → ikeeps (for_ n k body).
Proof.
  intros Hb. revert k. induction n as [|n IH]; intros k; cbn [for_]; [apply ikeeps_ret|]. by apply ikeeps_bind.
Qed.

Create HintDb ikeeps.
Hint Resolve ikeeps_ret ikeeps_panic ikeeps_diverge ikeeps_liftb ikeeps_gets ikeeps_setsb ikeeps_geti ikeeps_locki : ikeeps.

Ltac ikeep :=
  repeat first
    [ solve [eauto 2 with ikeeps] | apply ikeeps_bind; intros | apply ikeeps_for; intros
    | apply ikeeps_seti; reflexivity
    | match goal with |- ikeeps (match ?x with _ => _ end) => destruct x end ].

Lemma ikeeps_readsb dev : ikeeps (readsb dev : F superblock).
Proof. unfold readsb, bread, bdata, brelse. ikeep. Qed.
Hint Resolve ikeeps_readsb : ikeeps.

Lemma ikeeps_bzero dev b : ikeeps (bzero dev b : F unit).
Proof. unfold bzero, bread, set_bdata, log_write, brelse. ikeep. Qed.
Hint Resolve ikeeps_bzero : ikeeps.

Lemma ikeeps_balloc dev : ikeeps (balloc dev : F Z).
Proof.
  unfold balloc. apply ikeeps_bind; [apply ikeeps_gets|intros sb]. generalize (Z.to_nat (sb_size sb / BPB + 2)), 0.
  intros n. induction n as [|n IH]; intros b; cbn [balloc_loop]; unfold bread, bdata, set_bdata, log_write, brelse; ikeep.
Qed.
Hint Resolve ikeeps_balloc : ikeeps.

Lemma ikeeps_bfree dev b : ikeeps (bfree dev b : F unit).
Proof. unfold bfree, bread, bdata, set_bdata, log_write, brelse. ikeep. Qed.
Hint Resolve ikeeps_bfree : ikeeps.

Lemma ikeeps_bfree_list dev l : ikeeps (bfree_list dev l : F unit).
Proof. induction l as [|a l IH]; cbn [bfree_list]; ikeep. Qed.
Hint Resolve ikeeps_bfree_list : ikeeps.

Lemma ikeeps_iupdate ip : ikeeps (iupdate ip : F unit).
Proof. unfold iupdate, bread, bdata, set_bdata, log_write, brelse. ikeep. Qed.
Hint Resolve ikeeps_iupdate : ikeeps.

Lemma ikeeps_itrunc ip : ikeeps (itrunc ip : F unit).
Proof. unfold itrunc, bread, bdata, brelse. ikeep. Qed.
Hint Resolve ikeeps_itrunc : ikeeps.

Lemma ikeeps_iinit dev : ikeeps (iinit dev : F unit).
Proof. unfold iinit. ikeep. Qed.

Lemma ikeeps_ilock ip : ikeeps (ilock ip : F unit).
Proof. unfold ilock, bread, bdata, brelse. ikeep. Qed.

Lemma ikeeps_iunlock ip : ikeeps (iunlock ip : F unit).
Proof. unfold iunlock. ikeep. Qed.

Lemma ikeeps_bmap ip bn : ikeeps (bmap ip bn : F Z).
Proof. unfold bmap, bread, bdata, set_bdata, log_write, brelse. ikeep. Qed.
Hint Resolve ikeeps_iinit ikeeps_ilock ikeeps_iunlock ikeeps_bmap : ikeeps.

(** ** What an operation does to the references held *)

(** From references [h], [m] can only return [a] with references [h'] such
    that [Q a h']. *)
Definition trip {A} (h : list iref) (m : F A) (Q : A → list iref → Prop) : Prop :=
  ∀ s a s', icinv (icache s) h → m s = Ret a s' → ∃ h', Q a h' ∧ icinv (icache s') h'.

Lemma trip_bind {A B} h (m : F A) (f : A → F B) Q R :
  trip h m Q → (∀ a h', Q a h' → trip h' (f a) R) → trip h (m ≫= f) R.
Proof.
  intros Hm Hf s b s' Hi Hrun. apply bind_inv in Hrun as (a & t & E & Hrun).
  destruct (Hm _ _ _ Hi E) as (h' & Ha & Hi'). by eapply Hf.
Qed.

Lemma trip_keep {A} h (m : F A) : ikeeps m → trip h m (λ _ h', h' = h).
Proof. intros Hm s a s' Hi Hrun. exists h. split; [done|]. eapply icinv_ids; [by eapply Hm|done]. Qed.

Lemma trip_mono {A} h (m : F A) (Q R : A → list iref → Prop) :
  trip h m Q → (∀ a h', Q a h' → R a h') → trip h m R.
Proof. intros Hm HQ s a s' Hi Hrun. destruct (Hm _ _ _ Hi Hrun) as (h' & Ha & Hi'). eauto. Qed.

Lemma trip_then {A B} h (m : F A) (f : A → F B) R :
  ikeeps m → (∀ a, trip h (f a) R) → trip h (m ≫= f) R.
Proof. intros Hm Hf. eapply trip_bind; [by apply trip_keep|]. intros a h' ->. apply Hf. Qed.

Lemma trip_ret {A} h (a : A) (Q : A → list iref → Prop) : Q a h → trip h (mret a) Q.
Proof. intros Ha s b s' Hi [= <- <-]. eauto. Qed.

Lemma trip_panic {A} h msg (Q : A → list iref → Prop) : trip h (panic msg) Q.
Proof. by intros s b s'. Qed.

Lemma icinv_add l h ip x y d n :
  icinv l h → l !! ip = Some x → i_dev y = d → i_inum y = n → i_ref y = i_ref x + 1 →
  (0 < i_ref x ∧ i_dev x = d ∧ i_inum x = n) ∨
    (i_ref x = 0 ∧ ∀ j z, l !! j = Some z → 0 < i_ref z → ¬ (i_dev z = d ∧ i_inum z = n)) →
  icinv (<[ip := y]> l) (IRef ip d n :: h).
Proof.
  intros [H1 H2 H3] Hx Hd Hn Hr Hor. pose proof (lookup_lt_Some _ _ _ Hx) as Hlt.
  split.
  - intros j z. rewrite refs_cons, list_lookup_insert_case by done. cbn [ir_ip].
    case_decide; [intros [= <-]; subst|intros Hz; by apply H1].
    rewrite Hr, (H1 _ _ Hx). lia.
  - intros r [->|Hr']%elem_of_cons; cbn [ir_ip ir_dev ir_inum].
    { exists y. by rewrite list_lookup_insert_eq. }
    destruct (H2 r Hr') as (z & Hz & Ed & En). rewrite list_lookup_insert_case by done.
    case_decide as He; [|by eauto]. subst ip. exists y. rewrite Hx in Hz. injection Hz as <-.
    destruct Hor as [(_ & ? & ?)|[Hz _]]; [split_and!; congruence|].
    rewrite (H1 _ _ Hx) in Hz. apply refs_pos in Hr'. lia.
  - intros i j a b. rewrite !list_lookup_insert_case by done.
    destruct (decide (ip = i)) as [<-|], (decide (ip = j)) as [<-|]; try done; intros Ha Hb; simplify_eq.
    + intros _ Pb Ed En. destruct Hor as [(Px & ? & ?)|[_ Hno]]; [apply (H3 ip j x b); congruence|].
      exfalso. by apply (Hno j b).
    + intros Pa _ Ed En. destruct Hor as [(Px & ? & ?)|[_ Hno]]; [apply (H3 i ip a x); congruence|].
      exfalso. by apply (Hno i a).
    + by apply H3.
Qed.

Lemma trip_iget h dev inum : trip h (iget dev inum : F nat) (λ ip h', h' = IRef ip dev inum :: h).
Proof.
  intros s ip s' Hi Hrun. unfold iget in Hrun. apply bind_inv in Hrun as (l & s0 & [= <- <-] & Hrun).
  destruct (iget_scan (icache s) 0 dev inum None) as [jp|[jp|]] eqn:E; [..|done];
    apply bind_inv in Hrun as (u & s1 & E1 & [= <- <-]); unfold seti in E1.
  - destruct (iget_scan_inl _ _ _ _ _ _ E) as (j & x & Ej & Hx & Hpos & Hd & Hn). cbn in Ej. subst j.
    rewrite Hx in E1. injection E1 as _ <-. eexists. split; [done|]. cbn [icache].
    apply (icinv_add _ _ _ x); auto.
  - destruct (iget_scan_inr _ _ _ _ _ _ E) as (Hno & [He|(_ & j & x & Ej & Hx & Hz)]); [done|].
    injection Ej as ->. cbn [Nat.add] in *. rewrite Hx in E1. injection E1 as _ <-. eexists. split; [done|].
    cbn [icache]. apply (icinv_add _ _ _ x); auto. cbn. lia.
Qed.

Lemma trip_idup h r : r ∈ h → trip h (idup (ir_ip r) : F nat) (λ ip h', ip = ir_ip r ∧ h' = r :: h).
Proof.
  intros Hr s ip s' Hi Hrun. unfold idup in Hrun. apply bind_inv in Hrun as (u & s1 & E1 & [= <- <-]).
  unfold seti in E1. destruct (ic_held _ _ Hi r Hr) as (x & Hx & Hd & Hn). rewrite Hx in E1. injection E1 as _ <-.
  eexists. split; [done|]. cbn [icache]. destruct r as [jp d n]. cbn in *.
  apply (icinv_add _ _ _ x); auto. left. rewrite (ic_ref _ _ Hi _ _ Hx). pose proof (refs_pos _ _ Hr) as Hp. cbn in Hp.
  split_and!; [lia|done..].
Qed.

(** The last reference but one goes. *)
Lemma icinv_drop l h r x y :
  icinv l (r :: h) → l !! ir_ip r = Some x → i_dev y = i_dev x → i_inum y = i_inum x → i_ref y = i_ref x - 1 →
  icinv (<[ir_ip r := y]> l) h.
Proof.
  intros [H1 H2 H3] Hx Hd Hn Hr. pose proof (lookup_lt_Some _ _ _ Hx) as Hlt. split.
  - intros j z. rewrite list_lookup_insert_case by done.
    case_decide as He; [intros [= <-]; subst; rewrite Hr, (H1 _ _ Hx), refs_cons, decide_True by done; lia|].
    intros Hz. rewrite (H1 _ _ Hz), refs_cons, decide_False by done. done.
  - intros q Hq. destruct (H2 q) as (z & Hz & Ed & En); [by right|]. rewrite list_lookup_insert_case by done.
    case_decide as He; [|by eauto]. exists y. rewrite <- He, Hx in Hz. injection Hz as <-. split_and!; congruence.
  - intros i j a b. rewrite !list_lookup_insert_case by done.
    destruct (decide (ir_ip r = i)) as [<-|], (decide (ir_ip r = j)) as [<-|]; try done; intros Ha Hb; simplify_eq.
    + intros ? ? ? ?. apply (H3 _ j x b); [done|done|lia|done|congruence|congruence].
    + intros ? ? ? ?. apply (H3 i _ a x); [done|done|done|lia|congruence|congruence].
    + by apply H3.
Qed.

Lemma trip_iput h r : trip (r :: h) (iput (ir_ip r) : F unit) (λ _ h', h' = h).
Proof.
  unfold iput. apply trip_then; [ikeep|intros _]. apply trip_then; [ikeep|intros i].
  apply trip_then; [ikeep|intros _]. apply trip_then; [ikeep|intros _].
  intros s a s' Hi Hrun. exists h. split; [done|]. unfold seti in Hrun.
  destruct (icache s !! ir_ip r) as [x|] eqn:Hx; [|done]. injection Hrun as _ <-. by eapply icinv_drop.
Qed.

Lemma trip_iunlockput h r : trip (r :: h) (iunlockput (ir_ip r) : F unit) (λ _ h', h' = h).
Proof. unfold iunlockput. apply trip_then; [ikeep|intros _]. apply trip_iput. Qed.

(** What a search that may find an inode adds: a reference to it. *)
Definition adds (h : list iref) (o : option nat) (h' : list iref) : Prop :=
  match o with
  | Some ip => ∃ d n, h' = IRef ip d n :: h
  | None => h' = h
  end.

Lemma trip_ialloc h dev type : trip h (ialloc dev type : F nat) (λ ip h', ∃ n, h' = IRef ip dev n :: h).
Proof.
  unfold ialloc. apply trip_then; [ikeep|intros sb].
  generalize (Z.to_nat (sb_ninodes sb - 1)). intros k. generalize 1.
  induction k as [|k IH]; intros inum; cbn [ialloc_loop]; [apply trip_panic|].
  apply trip_then; [ikeep|intros sb']. apply trip_then; [apply ikeeps_liftb|intros bp].
  apply trip_then; [apply ikeeps_liftb|intros d]. destruct (_ =? 0).
  - do 3 (apply trip_then; [apply ikeeps_liftb|intros _]).
    eapply trip_mono; [apply trip_iget|]. cbn. eauto.
  - apply trip_then; [apply ikeeps_liftb|intros _]. apply IH.
Qed.

(** *** Files, directories and paths *)

Context (devsw_read : Z → option (nat → Z → F (Z * list Z))).
Context (devsw_write : Z → option (nat → list Z → F Z)).
(** A driver unlocks and locks the device's inode, and no more. *)
Context (Hdr : ∀ mj f ip n, devsw_read mj = Some f → ikeeps (f ip n)).
Context (Hdw : ∀ mj f ip l, devsw_write mj = Some f → ikeeps (f ip l)).

Lemma ikeeps_readi ip off n : ikeeps (readi devsw_read ip off n).
Proof.
  assert (Hl : ∀ k tot off n acc, ikeeps (readi_loop k ip tot off n acc : F (list Z))).
  { induction k as [|k IH]; intros; cbn [readi_loop]; unfold bread, bdata, brelse; ikeep. }
  unfold readi. apply ikeeps_bind; [ikeep|intros i]. destruct (_ =? T_DEV); [|ikeep].
  destruct (_ || _); [ikeep|]. destruct (devsw_read (i_major i)) eqn:E; [by eapply Hdr|ikeep].
Qed.

Lemma ikeeps_writei ip src off : ikeeps (writei devsw_write ip src off).
Proof.
  assert (Hl : ∀ k tot off n src, ikeeps (writei_loop k ip tot off n src : F Z)).
  { induction k as [|k IH]; intros; cbn [writei_loop]; unfold bread, bdata, set_bdata, log_write, brelse; ikeep. }
  unfold writei. apply ikeeps_bind; [ikeep|intros i]. destruct (_ =? T_DEV); [|ikeep].
  destruct (_ || _); [ikeep|]. destruct (devsw_write (i_major i)) eqn:E; [by eapply Hdw|ikeep].
Qed.
Hint Resolve ikeeps_readi ikeeps_writei : ikeeps.

Lemma trip_dirlookup h dp name :
  trip h (dirlookup devsw_read dp name) (λ r, adds h (fst <$> r)).
Proof.
  unfold dirlookup. apply trip_then; [ikeep|intros i]. destruct (negb _); [apply trip_panic|].
  generalize (dirents (i_size i)). intros k. generalize 0.
  induction k as [|k IH]; intros off; cbn [dirlookup_loop]; [by apply trip_ret|].
  apply trip_then; [ikeep|intros x]. apply trip_then; [apply ikeeps_readi|intros [c de]].
  destruct (negb _); [apply trip_panic|]. destruct (_ =? 0); [apply IH|].
  destruct (_ =? 0); [|apply IH]. eapply trip_bind; [apply trip_iget|]. intros ip h' ->. apply trip_ret. cbn. eauto.
Qed.

Lemma trip_dirlink h dp name inum :
  trip h (dirlink devsw_read devsw_write dp name inum) (λ _ h', h' = h).
Proof.
  assert (Hs : ∀ k off, ikeeps (dirlink_scan devsw_read k dp off)).
  { induction k as [|k IH]; intros off; cbn [dirlink_scan]; ikeep. }
  unfold dirlink. eapply trip_bind; [apply trip_dirlookup|]. intros [[ip o]|] h'; cbn.
  - intros (d & n & ->). eapply trip_bind; [apply (trip_iput h (IRef ip d n))|]. intros _ h' ->. by apply trip_ret.
  - intros ->. apply trip_keep. ikeep.
Qed.

Lemma trip_namex_loop fuel par h r path name :
  trip (r :: h) (namex_loop devsw_read fuel par (ir_ip r) path name) (λ o, adds h (fst <$> o)).
Proof.
  revert r path name. induction fuel as [|fuel IH]; intros r path name; cbn [namex_loop]; [by intros s a s'|].
  destruct (skipelem path) as [[nm rest]|].
  - apply trip_then; [ikeep|intros _]. apply trip_then; [ikeep|intros i]. destruct (negb _).
    { eapply trip_bind; [apply trip_iunlockput|]. intros _ h' ->. by apply trip_ret. }
    destruct (par && _).
    { apply trip_then; [ikeep|intros _]. apply trip_ret. cbn. destruct r. eauto. }
    eapply trip_bind; [apply trip_dirlookup|]. intros [[ip o]|] h'; cbn.
    + intros (d & n & ->). eapply trip_bind.
      { intros s a s' Hi Hrun. apply (trip_iunlockput (IRef ip d n :: h) r s a s'); [|done].
        by eapply icinv_perm; [apply perm_swap|]. }
      intros _ h' ->. apply (IH (IRef ip d n)).
    + intros ->. eapply trip_bind; [apply trip_iunlockput|]. intros _ h' ->. by apply trip_ret.
  - destruct par; [|apply trip_ret; cbn; destruct r; eauto].
    eapply trip_bind; [apply trip_iput|]. intros _ h' ->. by apply trip_ret.
Qed.

Lemma trip_namex h r path par : r ∈ h →
  trip h (namex devsw_read (ir_ip r) path par) (λ o, adds h (fst <$> o)).
Proof.
  intros Hr. unfold namex.
  eapply (trip_bind _ _ _ (λ ip h', ∃ d n, h' = IRef ip d n :: h)).
  - destruct (_ =? 47); [eapply trip_mono; [apply trip_iget|cbn; eauto]|].
    eapply trip_mono; [by apply trip_idup|]. intros ip h' [-> ->]. destruct r. eauto.
  - intros ip h' (d & n & ->). apply (trip_namex_loop _ _ h (IRef ip d n)).
Qed.

(** ** The cache and its clients *)

(** Operations that use an inode without taking or dropping a reference. *)
Inductive iuse :=
| UInit (dev : Z) | ULock (ip : nat) | UUnlock (ip : nat) | UUpdate (ip : nat) | UTrunc (ip : nat)
| URead (ip : nat) (off n : Z) | UWrite (ip : nat) (src : list Z) (off : Z) | UStat (ip : nat)
| ULinks (ip : nat) (nlink : Z) | UMake (ip : nat) (major minor : Z).

Definition use (u : iuse) : F unit :=
  match u with
  | UInit dev => iinit dev
  | ULock ip => ilock ip
  | UUnlock ip => iunlock ip
  | UUpdate ip => iupdate ip
  | UTrunc ip => itrunc ip
  | URead ip off n => readi devsw_read ip off n ;; mret tt
  | UWrite ip src off => writei devsw_write ip src off ;; mret tt
  | UStat ip => stati ip ;; mret tt
  | ULinks ip nlink => seti ip (set_i_nlink nlink)
  | UMake ip major minor => seti ip (λ i, set_i_minor minor (set_i_major major i))
  end.

Lemma ikeeps_use u : ikeeps (use u).
Proof. destruct u; cbn [use]; unfold stati; ikeep. Qed.

(** The references [h] and the one a call has returned, to the inode its
    entry holds in [s]. *)
Definition note s (o : option nat) (h : list iref) : list iref :=
  match o with
  | Some ip => match icache s !! ip with Some x => IRef ip (i_dev x) (i_inum x) :: h | None => h end
  | None => h
  end.

(** A client calls an operation of fs.c; it passes [idup], [iput] and the
    path functions only references it holds. *)
Inductive rstep : fsst S * list iref → fsst S * list iref → Prop :=
| r_get s s' h dev inum ip : iget dev inum s = Ret ip s' → rstep (s, h) (s', IRef ip dev inum :: h)
| r_alloc s s' h dev type ip : ialloc dev type s = Ret ip s' → rstep (s, h) (s', note s' (Some ip) h)
| r_dup s s' h r ip : r ∈ h → idup (ir_ip r) s = Ret ip s' → rstep (s, h) (s', r :: h)
| r_put s s' h h' r : h ≡ₚ r :: h' → iput (ir_ip r) s = Ret tt s' → rstep (s, h) (s', h')
| r_unlockput s s' h h' r : h ≡ₚ r :: h' → iunlockput (ir_ip r) s = Ret tt s' → rstep (s, h) (s', h')
| r_lookup s s' h dp name o :
    dirlookup devsw_read dp name s = Ret o s' → rstep (s, h) (s', note s' (fst <$> o) h)
| r_link s s' h dp name inum k : dirlink devsw_read devsw_write dp name inum s = Ret k s' → rstep (s, h) (s', h)
| r_namei s s' h cwd path o : cwd ∈ h → namei devsw_read (ir_ip cwd) path s = Ret o s' → rstep (s, h) (s', note s' o h)
| r_nameiparent s s' h cwd path o :
    cwd ∈ h → nameiparent devsw_read (ir_ip cwd) path s = Ret o s' → rstep (s, h) (s', note s' (fst <$> o) h)
| r_use s s' h u : use u s = Ret tt s' → rstep (s, h) (s', h).

Lemma adds_note s o h h' : icinv (icache s) h' → adds h o h' → h' = note s o h.
Proof.
  intros Hi. destruct o as [ip|]; cbn; [|done]. intros (d & n & ->).
  destruct (ic_held _ _ Hi (IRef ip d n)) as (x & Hx & Hd & Hn); [by left|]. cbn in *. by rewrite Hx, Hd, Hn.
Qed.

Lemma trip_note {A} h (m : F A) (g : A → option nat) s a s' :
  trip h m (λ a, adds h (g a)) → icinv (icache s) h → m s = Ret a s' → icinv (icache s') (note s' (g a) h).
Proof.
  intros Hm Hi Hrun. destruct (Hm _ _ _ Hi Hrun) as (h' & Ha & Hi'). by rewrite <- (adds_note _ _ _ _ Hi' Ha).
Qed.

Lemma rstep_inv c c' : rstep c c' → icinv (icache c.1) c.2 → icinv (icache c'.1) c'.2.
Proof.
  intros Hst Hi. destruct Hst as [s s' h dev inum ip E|s s' h dev type ip E|s s' h r ip Hr E|s s' h h' r Hp E
    |s s' h h' r Hp E|s s' h dp name o E|s s' h dp name inum k E|s s' h cwd path o Hc E|s s' h cwd path o Hc E
    |s s' h u E]; cbn [fst snd] in *.
  - by destruct (trip_iget h dev inum _ _ _ Hi E) as (? & -> & ?).
  - apply (trip_note h (ialloc dev type) Some s ip s'); [|done|done].
    eapply trip_mono; [apply trip_ialloc|]. intros a h' [n ->]. cbn. eauto.
  - by destruct (trip_idup h r Hr _ _ _ Hi E) as (? & [_ ->] & ?).
  - apply (icinv_perm _ _ _ Hp) in Hi. by destruct (trip_iput h' r _ _ _ Hi E) as (? & -> & ?).
  - apply (icinv_perm _ _ _ Hp) in Hi. by destruct (trip_iunlockput h' r _ _ _ Hi E) as (? & -> & ?).
  - apply (trip_note h (dirlookup devsw_read dp name) (λ o, fst <$> o) s o s'); [apply trip_dirlookup|done|done].
  - by destruct (trip_dirlink h dp name inum _ _ _ Hi E) as (? & -> & ?).
  - unfold namei in E. apply bind_inv in E as (x & s1 & E & [= <- <-]).
    pose proof (trip_note h _ (λ o, fst <$> o) s x s1 (trip_namex h cwd path false Hc) Hi E) as Hn. by destruct x as [[]|].
  - exact (trip_note h _ (λ o, fst <$> o) s o s' (trip_namex h cwd path true Hc) Hi E).
  - eapply icinv_ids; [by eapply ikeeps_use|done].
Qed.

(** C19: the inode cache never aliases an inode.  From a cache with no entry
    in use, whatever sequence of operations of fs.c the kernel makes (taking,
    copying and dropping references, allocating inodes, looking up and linking
    names, resolving paths, locking, reading, writing and truncating), every
    reference held designates, in the cache, the inode it was obtained for;
    its count is the number of references held to it; two references to the
    same inode are the same entry; and an entry nobody holds has count 0, so
    it can be reused. *)
Theorem icache_refs_exact s0 s h :
  (∀ ip x, icache s0 !! ip = Some x → i_ref x = 0) → rtc rstep (s0, []) (s, h) →
  (∀ r, r ∈ h → ∃ x, icache s !! ir_ip r = Some x ∧ i_dev x = ir_dev r ∧ i_inum x = ir_inum r ∧
     i_ref x = Z.of_nat (refs (ir_ip r) h)) ∧
  (∀ r r', r ∈ h → r' ∈ h → ir_dev r = ir_dev r' → ir_inum r = ir_inum r' → ir_ip r = ir_ip r') ∧
  (∀ ip x, icache s !! ip = Some x → (∀ r, r ∈ h → ir_ip r ≠ ip) → i_ref x = 0).
Proof.
  intros H0 Hr. assert (Hi : icinv (icache s) h).
  { assert (Hi0 : icinv (icache s0) []).
    { split; [by apply H0|intros r Hx; by apply elem_of_nil in Hx|].
      intros i j x y Hx _ Px. rewrite (H0 i x Hx) in Px. lia. }
    change (icinv (icache (s, h).1) (s, h).2). change (icinv (icache (s0, @nil iref).1) (s0, @nil iref).2) in Hi0.
    revert Hi0. clear H0. induction Hr; eauto using rstep_inv. }
  destruct Hi as [H1 H2 H3]. split_and!.
  - intros r Hh. destruct (H2 r Hh) as (x & Hx & Hd & Hn). eauto 10.
  - intros r r' Hh Hh' Ed En. destruct (H2 r Hh) as (x & Hx & Hd & Hn). destruct (H2 r' Hh') as (y & Hy & Hd' & Hn').
    apply refs_pos in Hh, Hh'. apply (H3 _ _ x y); rewrite ?(H1 _ _ Hx), ?(H1 _ _ Hy); try done; try lia; congruence.
  - intros ip x Hx Hno. rewrite (H1 _ _ Hx). unfold refs.
    destruct (filter _ h) as [|r t] eqn:E; [done|].
    assert (Hf : r ∈ filter (λ r, ir_ip r = ip) h) by (rewrite E; by left).
    apply list_elem_of_filter in Hf as [Hf ?]. by apply Hno in Hf.
Qed.
End cache.

(** Two clients ask for the root directory, of a cache with no entry in use. *)
Definition ex_root (ref : Z) : inode := Inode 1 1 ref (Sleeplock false 0) 0 0 0 0 0 0 (replicate 13 0).
Definition ex_cache (l : list inode) : fsst (lstate Memide.memide) :=
  Fs (LState log0 (BState [] ex_disk 0)) ex_sb (l ++ replicate 49 inode0) 0.

(** Drivers that, like the console's, let go of the inode while they work. *)
Definition ex_read (mj : Z) : option (nat → Z → M (fsst (lstate Memide.memide)) (Z * list Z)) :=
  Some (λ ip n, iunlock ip ;; ilock ip ;; mret (0, [])).
Definition ex_write (mj : Z) : option (nat → list Z → M (fsst (lstate Memide.memide)) Z) :=
  Some (λ ip l, iunlock ip ;; ilock ip ;; mret (Z.of_nat (length l))).

Lemma ex_root_twice :
  rtc (rstep ex_read ex_write) (ex_cache [inode0], []) (ex_cache [ex_root 2], [IRef 0 1 1; IRef 0 1 1]).
Proof.
  unfold ex_cache. generalize (LState log0 (BState [] ex_disk 0)). intros b.
  apply (rtc_l _ _ (Fs b ex_sb ([ex_root 1] ++ replicate 49 inode0) 0, [IRef 0 1 1])).
  - apply r_get. reflexivity.
  - apply rtc_once, r_get. reflexivity.
Qed.

Lemma icache_refs_exact_witness :
  ∃ x, icache (ex_cache [ex_root 2]) !! 0%nat = Some x ∧ i_dev x = 1 ∧ i_inum x = 1 ∧
    i_ref x = Z.of_nat (refs 0 [IRef 0 1 1; IRef 0 1 1]).
Proof.
  refine (proj1 (icache_refs_exact ex_read ex_write _ _ (ex_cache [inode0]) _ _ _ ex_root_twice) (IRef 0 1 1) _);
    [..|by left].
  1,2: intros mj f ip n [= <-]; apply ikeeps_bind; [apply ikeeps_iunlock|intros _];
    apply ikeeps_bind; [apply ikeeps_ilock|intros _]; apply ikeeps_ret.
  intros [|ip] x; [intros [= <-]; reflexivity|]. cbn [ex_cache icache app lookup list_lookup].
  intros [-> _]%lookup_replicate_1. reflexivity.
Defined.
