(* ===== verification/MkfsImage.v ===== *)
(** * What mkfs builds

    The inodes and files of the image under construction, each operation of
    Mkfs.v on them, and the theorem about the finished image. *)

From S2P Require Import Prelude Param Bio Log Blocks Txn Fs FsBlocks FsFile FsInode FsDir Mkfs.

(** ** Inodes *)

Lemma mksb_eq : mksb = Superblock 1000 941 200 30 2 32 58.
Proof. vm_compute. reflexivity. Qed.

Lemma mk_IBLOCK n : 0 <= n < 200 → IBLOCK n mksb = 32 + n / 8.
Proof. intros Hn. rewrite mksb_eq. unfold IBLOCK, u32. change IPB with 8. cbn [sb_inodestart]. dlia. Qed.

Lemma mk_BBLOCK n : 0 <= n < 1000 → BBLOCK n mksb = 58.
Proof. intros Hn. rewrite mksb_eq. unfold BBLOCK, u32. change BPB with 4096. cbn [sb_bmapstart]. dlia. Qed.

(** Inode [n] of the image. *)
Definition D (s : mk) (n : Z) : inode := load_dinode (inode_off n) (Wof s (IBLOCK n mksb)) inode0.

(** The fields that are not in a [struct dinode] are zero. *)
Definition head0 (i : inode) : Prop := i_dev i = 0 ∧ i_inum i = 0 ∧ i_ref i = 0 ∧ i_lock i = Sleeplock false 0 ∧ i_valid i = 0.

Lemma head0_load off d i : head0 i → load_dinode off d inode0 = load_dinode off d i.
Proof. intros (E1 & E2 & E3 & E4 & E5). unfold load_dinode. by rewrite E1, E2, E3, E4, E5. Qed.

Lemma D_head0 s n : head0 (D s n).
Proof. done. Qed.

Lemma D_ext s s' n : Wof s' (IBLOCK n mksb) = Wof s (IBLOCK n mksb) → D s' n = D s n.
Proof. intros E. unfold D. by rewrite E. Qed.

Lemma rinode_ret s n : image s → 0 <= n < 200 → rinode n s = Ret (D s n) s.
Proof.
  intros Hs Hn. unfold rinode, D, inode_off. pose proof (mk_IBLOCK n Hn) as Ei.
  rewrite (bind_Ret _ _ _ _ _ (rsect_ret s (IBLOCK n mksb) Hs ltac:(dlia))). done.
Qed.

(** One inode replaced. *)
Record wrote_inode (s : mk) (n : Z) (i : inode) (s' : mk) : Prop := {
  wi_image : image s';
  wi_ino : freeinode s' = freeinode s;
  wi_fb : freeblock s' = freeblock s;
  wi_same : D s' n = i;
  wi_other m : 0 <= m < 200 → m ≠ n → D s' m = D s m;
  wi_frame m : 0 <= m < 1000 → ¬ (32 <= m < 58) → Wof s' m = Wof s m;
}.

Lemma load_ext off d d' i : slice off 64 d = slice off 64 d' → load_dinode off d i = load_dinode off d' i.
Proof.
  intros E. assert (Hg : ∀ o n, (o + n <= 64)%nat → get_le (off + o) n d = get_le (off + o) n d').
  { intros o n Hn. unfold get_le. rewrite <- !(slice_slice off 64 o n) by lia. by rewrite E. }
  unfold load_dinode, dinode_type, dinode_addrs. pose proof (Hg 0%nat 2%nat ltac:(lia)) as H0. rewrite Nat.add_0_r in H0.
  rewrite H0, !Hg by lia. f_equal. apply list_fmap_ext. intros j k Hk. apply lookup_seq in Hk.
  rewrite <- !Nat.add_assoc. apply Hg. lia.
Qed.

Lemma winode_spec s n i :
  image s → 0 <= n < 200 → inode_wf i → head0 i → ∃ s', winode n i s = Ret tt s' ∧ wrote_inode s n i s'.
Proof.
  intros Hs Hn Hi H0. pose proof (mk_IBLOCK n Hn) as Ei. pose proof (im_fb s Hs) as Hfb.
  assert (Hr : 0 <= IBLOCK n mksb < 1000) by dlia. 
  assert (Ho : (inode_off n + 64 <= 512)%nat) by (unfold inode_off; change IPB with 8; change sizeof_dinode with 64; dlia).
  destruct (im_blk s Hs _ Hr) as [Hl Hb]. set (d := store_dinode (inode_off n) i (Wof s (IBLOCK n mksb))).
  assert (Hd : block_ok d) by (split; [unfold d; rewrite store_dinode_length by (apply Hi || lia); done|by apply store_dinode_bytes]).
  exists (put_sect (IBLOCK n mksb) d s). split.
  { unfold winode. rewrite (bind_Ret _ _ _ _ _ (rsect_ret s _ Hs Hr)). by rewrite (wsect_ret s _ _ Hs Hr). }
  split; [apply image_put; [done|dlia|done]|done|done|..].
  - unfold D. rewrite Wof_put, upd_eq by (done || lia). rewrite (head0_load _ _ i H0). apply load_store_dinode; [done|lia].
  - intros m Hm Hne. pose proof (mk_IBLOCK m Hm) as Em. unfold D. rewrite Wof_put by (done || dlia). unfold upd. case_decide as E; [|done].
    rewrite E. apply load_ext, store_dinode_other; [apply Hi|lia|].
    unfold inode_off in *. change IPB with 8 in *. change sizeof_dinode with 64 in *. rewrite Ei, Em in E. dlia.
  - intros m Hm Hout. rewrite Wof_put, upd_ne by (done || dlia). done.
Qed.

(** ** The image under construction *)

Definition len (c : list Z) : Z := Z.of_nat (length c).

(** Blocks taken by the files [al], each a type and its contents. *)
Definition total (al : list (Z * list Z)) : Z := foldr (λ f n, cost (len f.2) + n) 0 al.

Definition super : list Z := splice 0 (sb_bytes mksb) zeroes.

(** Inode [k+1] is file [k] of [al]; no two files share a block, the blocks in
    use are exactly those the files need, and nothing else is written. *)
Record minv (s : mk) (al : list (Z * list Z)) : Prop := {
  mi_image : image s;
  mi_next : freeinode s = 1 + Z.of_nat (length al);
  mi_count : (length al <= 199)%nat;
  mi_fb : freeblock s = 59 + total al;
  mi_file k t c : al !! k = Some (t, c) →
    let i := D s (Z.of_nat k + 1) in
    fok (Wof s) (freeblock s) i c (blocks (len c)) ∧ i_type i = t ∧ i_size i = len c ∧ i_nlink i = 1;
  mi_disj k k' f f' m : al !! k = Some f → al !! k' = Some f' →
    own (Wof s) (i_addrs (D s (Z.of_nat k + 1))) m → own (Wof s) (i_addrs (D s (Z.of_nat k' + 1))) m → k = k';
  mi_meta n : 0 <= n < 32 → Wof s n = if n =? 1 then super else zeroes;
  mi_free n : Z.of_nat (length al) < n < 200 → i_type (D s n) = 0;
}.

Lemma cost_nonneg n : 0 <= n → 0 <= cost n.
Proof. intros Hn. unfold cost, blocks. destruct (12 <? _); dlia. Qed.

Lemma total_nonneg al : 0 <= total al.
Proof. induction al as [|f al IH]; cbn; [lia|]. pose proof (cost_nonneg (len f.2) ltac:(unfold len; lia)). unfold total in IH. lia. Qed.

Lemma total_app al al' : total (al ++ al') = total al + total al'.
Proof. unfold total. induction al as [|f al IH]; [done|]. cbn [app foldr]. lia. Qed.

Lemma total_insert al k t c c' :
  al !! k = Some (t, c) → total (<[k := (t, c')]> al) = total al - cost (len c) + cost (len c').
Proof.
  unfold total. revert k. induction al as [|f al IH]; intros k Hk; [done|]. destruct k as [|k].
  - injection Hk as ->. cbn [insert list_insert foldr snd]. lia.
  - change (<[S k := (t, c')]> (f :: al)) with (f :: <[k := (t, c')]> al). cbn [foldr]. rewrite (IH k Hk). lia.
Qed.

(** A new inode has no blocks. *)
Definition fresh (t : Z) : inode := set_i_nlink 1 (set_i_type t inode0).

Lemma fresh_amap W t bn : amap W (i_addrs (fresh t)) bn = 0.
Proof.
  unfold amap. change (ind (i_addrs (fresh t))) with 0. destruct (bn <? 12); [|done].
  change (i_addrs (fresh t)) with (replicate 13 0). unfold byte_at. destruct (decide (Z.to_nat bn < 13)%nat); [by rewrite lookup_replicate_2|].
  rewrite lookup_ge_None_2; [done|]. rewrite length_replicate. lia.
Qed.

Lemma fresh_fok W fb t : short_ok t → fok W fb (fresh t) [] (blocks (len [])).
Proof.
  intros Ht. change (blocks (len [])) with 0. split; try done; try (cbn; lia).
  - split; try done; cbn; unfold short_ok, is_u32; try lia. repeat constructor; lia.
  - intros bn Hb. rewrite fresh_amap. rewrite (proj2 (Z.ltb_ge _ _)) by lia. done.
  - intros o Ho. unfold fbyte. by rewrite fresh_amap.
Qed.

Lemma fresh_own W t m : ¬ own W (i_addrs (fresh t)) m.
Proof. intros [Hz [->|(k & _ & E)]]; [done|]. by rewrite fresh_amap in E. Qed.

(** A file's blocks are data blocks, so rewriting inodes leaves it alone. *)
Lemma minv_keep s al s' k t c :
  minv s al → al !! k = Some (t, c) → (∀ m, 59 <= m < 1000 → own (Wof s) (i_addrs (D s (Z.of_nat k + 1))) m → Wof s' m = Wof s m) →
  freeblock s <= freeblock s' → 
  fok (Wof s') (freeblock s') (D s (Z.of_nat k + 1)) c (blocks (len c)) ∧
  ∀ m, own (Wof s') (i_addrs (D s (Z.of_nat k + 1))) m ↔ own (Wof s) (i_addrs (D s (Z.of_nat k + 1))) m.
Proof.
  intros Hm Hk He Hfb. destruct (mi_file _ _ Hm k t c Hk) as [Hf _]. pose proof (im_fb s (mi_image _ _ Hm)).
  eapply fok_frame; [exact Hf|done|]. intros m Ho. apply He; [|done]. pose proof (fok_own _ _ _ _ _ _ Hf Ho). lia.
Qed.

(** [s] with [n] as the next inode. *)
Definition set_freeinode (n : Z) (s : mk) : mk := Mk (img s) n (freeblock s).

Lemma image_ino s n : image s → image (set_freeinode n s).
Proof. intros []. by split. Qed.

Lemma ialloc_spec s al t :
  minv s al → (length al < 199)%nat → 0 < t < 4 →
  ∃ s', ialloc t s = Ret (Z.of_nat (length al) + 1) s' ∧ minv s' (al ++ [(t, [])]).
Proof.
  intros Hm Hl Ht. pose proof (mi_next _ _ Hm) as Hn. set (n := Z.of_nat (length al) + 1). set (s0 := set_freeinode (n + 1) s).
  destruct (winode_spec s0 n (fresh t)) as (s' & E & [I1 I2 I3 I4 I5 I6]).
  { apply image_ino, Hm. } { lia. } { apply (fresh_fok (Wof s) 0). unfold short_ok. lia. } { done. }
  exists s'. split.
  { unfold ialloc. rewrite (bind_Ret _ _ s n s) by (unfold gets; f_equal; lia).
    assert (En : u32 (freeinode s + 1) = n + 1) by (rewrite u32_id; unfold n; lia).
    rewrite (bind_Ret _ _ s tt s0) by (unfold modify, s0, set_freeinode; by rewrite En).
    rewrite !xshort_id by lia. fold (fresh t). by rewrite (bind_Ret _ _ _ _ _ E). }
  assert (Hold : ∀ k f, al !! k = Some f → D s' (Z.of_nat k + 1) = D s (Z.of_nat k + 1)).
  { intros k f Hk. apply lookup_lt_Some in Hk. apply (I5 (Z.of_nat k + 1)); unfold n; lia. }
  assert (Hblk : ∀ m, 59 <= m < 1000 → Wof s' m = Wof s m) by (intros m Hr; apply I6; lia).
  assert (Hcase : ∀ k f, (al ++ [(t, [])]) !! k = Some f → al !! k = Some f ∨ k = length al ∧ f = (t, [])).
  { intros k f [Hk|[Hk Hk2]]%lookup_app_Some; [auto|]. destruct (k - length al)%nat eqn:Ek; [|done]. injection Hk2 as <-. right. split; [lia|done]. }
  assert (Hnew : D s' (Z.of_nat (length al) + 1) = fresh t) by exact I4.
  split; [done| | | | | | |].
  - rewrite length_app. cbn. rewrite I2. cbn. lia.
  - rewrite length_app. cbn. lia.
  - rewrite total_app, I3. cbn. rewrite (mi_fb _ _ Hm). change (cost (len [])) with 0. lia.
  - intros k t' c [Hk|[-> [= -> ->]]]%Hcase; cbv zeta.
    + rewrite (Hold _ _ Hk). destruct (mi_file _ _ Hm k t' c Hk) as (_ & Hr). split; [|exact Hr].
      apply (minv_keep s al s' k t'); [done|done|auto|rewrite I3; done].
    + rewrite Hnew. split; [|done]. apply fresh_fok. unfold short_ok. lia.
  - intros k k' f f' m Hk Hk' Ho Ho'.
    destruct (Hcase k f Hk) as [Hk1|[-> ->]]; [|rewrite Hnew in Ho; by apply fresh_own in Ho].
    destruct (Hcase k' f' Hk') as [Hk1'|[-> ->]]; [|rewrite Hnew in Ho'; by apply fresh_own in Ho'].
    rewrite (Hold _ _ Hk1) in Ho. rewrite (Hold _ _ Hk1') in Ho'. destruct f as [t1 c1], f' as [t2 c2].
    apply (mi_disj _ _ Hm k k' _ _ m Hk1 Hk1').
    + apply (minv_keep s al s' k t1 c1); auto. rewrite I3. done.
    + apply (minv_keep s al s' k' t2 c2); auto. rewrite I3. done.
  - intros m Hr. rewrite I6 by lia. by apply (mi_meta _ _ Hm).
  - intros m Hr. rewrite length_app in Hr. cbn in Hr. rewrite I5 by (unfold n; lia). apply (mi_free _ _ Hm). lia.
Qed.

(** The rest of the image when file [k] has grown and its inode is written. *)
Section grown.
Context (s : mk) (al : list (Z * list Z)) (k : nat) (t : Z) (c c' : list Z) (s1 : mk) (i1 : inode) (s' : mk).
Hypothesis Hm : minv s al.
Hypothesis Hk : al !! k = Some (t, c).
Hypothesis Hf1 : fok (Wof s1) (freeblock s1) i1 c' (blocks (len c')).
Hypothesis Hg : grew s (D s (Z.of_nat k + 1)) s1 i1.
Hypothesis Hwf : inode_wf (set_i_size (len c') i1).
Hypothesis Hw : wrote_inode s1 (Z.of_nat k + 1) (set_i_size (len c') i1) s'.

Lemma grown_low m : 0 <= m < 59 → Wof s1 m = Wof s m.
Proof using Hm Hk Hf1 Hg Hwf Hw.
  intros Hr. apply (g_keep _ _ _ _ Hg); [lia|]. intros Ho. pose proof (fok_own _ _ _ _ _ _ Hf1 Ho). lia.
Qed.

Lemma grown_D m : 0 <= m < 200 → m ≠ Z.of_nat k + 1 → D s' m = D s m.
Proof using Hm Hk Hf1 Hg Hwf Hw.
  intros Hr Hne. rewrite (wi_other _ _ _ _ Hw) by done. apply D_ext, grown_low. rewrite mk_IBLOCK by done. dlia.
Qed.

Lemma grown_hi m : 59 <= m < 1000 → Wof s' m = Wof s1 m.
Proof using Hm Hk Hf1 Hg Hwf Hw. intros Hr. apply (wi_frame _ _ _ _ Hw); lia. Qed.

Lemma grown_file :
  fok (Wof s') (freeblock s') (set_i_size (len c') i1) c' (blocks (len c')) ∧
  ∀ m, own (Wof s') (i_addrs i1) m ↔ own (Wof s1) (i_addrs i1) m.
Proof using Hm Hk Hf1 Hg Hwf Hw.
  rewrite (wi_fb _ _ _ _ Hw).
  destruct (fok_frame (Wof s1) (Wof s') (freeblock s1) (freeblock s1) i1 c' (blocks (len c')) Hf1) as [Hf' Ho]; [done| |].
  - intros m Ho. apply grown_hi. pose proof (fok_own _ _ _ _ _ _ Hf1 Ho). pose proof (im_fb s1 (g_image _ _ _ _ Hg)). lia.
  - split; [|done]. destruct Hf' as [F1 F2 F3 F4 F5 F6 F7]. by split.
Qed.

(** A block of another file was not given to this one. *)
Lemma grown_apart k' f' m :
  al !! k' = Some f' → k' ≠ k → own (Wof s) (i_addrs (D s (Z.of_nat k' + 1))) m → ¬ own (Wof s1) (i_addrs i1) m.
Proof using Hm Hk Hf1 Hg Hwf Hw.
  intros Hk' Hne Ho Ho1. destruct (g_new _ _ _ _ Hg m Ho1) as [Ho0|?].
  - apply Hne. eapply (mi_disj _ _ Hm k' k); [exact Hk'|exact Hk|exact Ho|exact Ho0].
  - destruct f' as [t' c2]. destruct (mi_file _ _ Hm k' t' c2 Hk') as [Hf' _]. pose proof (fok_own _ _ _ _ _ _ Hf' Ho). lia.
Qed.

Lemma grown_other k' t' c2 :
  al !! k' = Some (t', c2) → k' ≠ k →
  D s' (Z.of_nat k' + 1) = D s (Z.of_nat k' + 1) ∧ fok (Wof s') (freeblock s') (D s (Z.of_nat k' + 1)) c2 (blocks (len c2)) ∧
  ∀ m, own (Wof s') (i_addrs (D s' (Z.of_nat k' + 1))) m → own (Wof s) (i_addrs (D s (Z.of_nat k' + 1))) m.
Proof using Hm Hk Hf1 Hg Hwf Hw.
  intros Hk' Hne. pose proof (lookup_lt_Some _ _ _ Hk') as Hl. pose proof (mi_count _ _ Hm) as Hc199. pose proof (im_fb s (mi_image _ _ Hm)) as Hfb.
  assert (ED : D s' (Z.of_nat k' + 1) = D s (Z.of_nat k' + 1)) by (apply grown_D; lia).
  destruct (minv_keep s al s' k' t' c2 Hm Hk') as [Hf' Ho].
  - intros m Hr Ho. rewrite grown_hi by done. apply (g_keep _ _ _ _ Hg); [lia|]. by eapply grown_apart.
  - rewrite (wi_fb _ _ _ _ Hw). apply (g_fb _ _ _ _ Hg).
  - split_and!; [done|done|]. intros m. rewrite ED. apply Ho.
Qed.

Lemma minv_grown :
  freeblock s1 = freeblock s + cost (len c') - cost (len c) → minv s' (<[k := (t, c')]> al).
Proof using Hm Hk Hf1 Hg Hwf Hw.
  intros Efb. pose proof (lookup_lt_Some _ _ _ Hk) as Hkl. pose proof (mi_count _ _ Hm) as Hc199.
  destruct (mi_file _ _ Hm k t c Hk) as (_ & Ht & _ & Hnl). destruct grown_file as [Hf2 Ho2].
  assert (Hmem : ∀ k' f', <[k := (t, c')]> al !! k' = Some f' → k' = k ∧ f' = (t, c') ∨ k' ≠ k ∧ al !! k' = Some f').
  { intros k' f' Hk'. destruct (decide (k = k')) as [<-|Hne].
    - rewrite list_lookup_insert_eq in Hk' by done. injection Hk' as <-. auto.
    - rewrite list_lookup_insert_ne in Hk' by done. auto. }
  split; [apply Hw|..].
  - rewrite length_insert, (wi_ino _ _ _ _ Hw), (g_ino _ _ _ _ Hg). apply (mi_next _ _ Hm).
  - by rewrite length_insert.
  - rewrite (total_insert al k t c c' Hk), (wi_fb _ _ _ _ Hw), Efb, (mi_fb _ _ Hm). lia.
  - intros k' t' c2 Hk'. cbv zeta. destruct (Hmem _ _ Hk') as [[-> [= -> ->]]|(Hne & Hk2)].
    + rewrite (wi_same _ _ _ _ Hw). split; [done|]. rewrite (g_head _ _ _ _ Hg). done.
    + destruct (grown_other k' t' c2 Hk2 Hne) as (-> & Hf' & _). split; [done|]. apply (mi_file _ _ Hm k' t' c2 Hk2).
  - intros k1 k2 [t1 c1] [t2 c2] m Hk1 Hk2 Ho1 Hoo2.
    destruct (Hmem _ _ Hk1) as [[-> _]|(Hne1 & Hk1')], (Hmem _ _ Hk2) as [[-> _]|(Hne2 & Hk2')]; [done|..].
    + rewrite (wi_same _ _ _ _ Hw) in Ho1. apply Ho2 in Ho1. apply (grown_other k2 t2 c2 Hk2' Hne2) in Hoo2. by destruct (grown_apart k2 (t2, c2) m Hk2' Hne2).
    + rewrite (wi_same _ _ _ _ Hw) in Hoo2. apply Ho2 in Hoo2. apply (grown_other k1 t1 c1 Hk1' Hne1) in Ho1. by destruct (grown_apart k1 (t1, c1) m Hk1' Hne1).
    + apply (grown_other k1 t1 c1 Hk1' Hne1) in Ho1. apply (grown_other k2 t2 c2 Hk2' Hne2) in Hoo2. by apply (mi_disj _ _ Hm k1 k2 _ _ m Hk1' Hk2').
  - intros m Hr. rewrite (wi_frame _ _ _ _ Hw), grown_low by lia. by apply (mi_meta _ _ Hm).
  - intros m Hr. rewrite length_insert in Hr. rewrite grown_D by lia. by apply (mi_free _ _ Hm).
Qed.
End grown.

Lemma iappend_spec s al k t c p :
  minv s al → al !! k = Some (t, c) → bytes_ok p → len (c ++ p) <= 71680 → 59 + total (<[k := (t, c ++ p)]> al) <= 1000 →
  ∃ s', iappend (Z.of_nat k + 1) p s = Ret tt s' ∧ minv s' (<[k := (t, c ++ p)]> al).
Proof.
  intros Hm Hk Hp Hsz Hroom. pose proof (lookup_lt_Some _ _ _ Hk) as Hkl. pose proof (mi_count _ _ Hm) as Hc199.
  pose proof (mi_image _ _ Hm) as Hs. destruct (mi_file _ _ Hm k t c Hk) as (Hf & _ & Hsz0 & _).
  rewrite (total_insert al k t c _ Hk) in Hroom. unfold len in Hroom, Hsz. rewrite length_app in Hroom, Hsz.
  destruct (iappend_loop_spec (length p) s (D s (Z.of_nat k + 1)) c p) as (i1 & s1 & E1 & Hf1 & Hg & Efb);
    [done|done|done|done|done|rewrite (mi_fb _ _ Hm); lia|].
  pose proof (fo_wf _ _ _ _ _ Hf1) as Hwf. set (i2 := set_i_size (Z.of_nat (length c + length p)) i1).
  assert (Hwf2 : inode_wf i2) by (destruct Hwf; split; try done; cbn; unfold is_u32; lia).
  assert (H0 : head0 i2) by (unfold i2; rewrite (g_head _ _ _ _ Hg); done).
  destruct (winode_spec s1 (Z.of_nat k + 1) i2 (g_image _ _ _ _ Hg) ltac:(lia) Hwf2 H0) as (s' & E2 & Hw).
  exists s'. split.
  - unfold iappend. rewrite (bind_Ret _ _ _ _ _ (rinode_ret s (Z.of_nat k + 1) Hs ltac:(lia))). rewrite Hsz0, xint_id by (unfold len; lia).
    unfold len. rewrite (bind_Ret _ _ _ _ _ E1). cbn [fst snd]. rewrite xint_id by lia. exact E2.
  - assert (El : len (c ++ p) = Z.of_nat (length c + length p)) by (unfold len; by rewrite length_app).
    apply (minv_grown s al k t c (c ++ p) s1 i1 s' Hm Hk); rewrite ?El; done.
Qed.

Lemma append_all_spec bufs : ∀ s al k t c,
  minv s al → al !! k = Some (t, c) → Forall bytes_ok bufs → len (c ++ concat bufs) <= 71680 →
  59 + total (<[k := (t, c ++ concat bufs)]> al) <= 1000 →
  ∃ s', append_all (Z.of_nat k + 1) bufs s = Ret tt s' ∧ minv s' (<[k := (t, c ++ concat bufs)]> al).
Proof.
  induction bufs as [|p bufs IH]; intros s al k t c Hm Hk Hb Hsz Hroom; cbn [concat append_all] in *.
  { exists s. rewrite app_nil_r in *. by rewrite list_insert_id. }
  apply Forall_cons in Hb as [Hp Hb]. rewrite app_assoc in *. pose proof (lookup_lt_Some _ _ _ Hk) as Hkl.
  assert (Hle : len (c ++ p) <= len ((c ++ p) ++ concat bufs)) by (unfold len; rewrite !length_app; lia).
  destruct (iappend_spec s al k t c p Hm Hk Hp) as (s1 & E1 & Hm1); [lia| |].
  { pose proof (cost_mono _ _ Hle). rewrite !(total_insert al k t c _ Hk) in *. lia. }
  destruct (IH s1 (<[k := (t, c ++ p)]> al) k t (c ++ p) Hm1) as (s' & E' & Hm').
  - by apply list_lookup_insert_eq.
  - done.
  - done.
  - by rewrite list_insert_insert_eq.
  - exists s'. rewrite (bind_Ret _ _ _ _ _ E1). rewrite list_insert_insert_eq in Hm'. done.
Qed.

(** ** The command line *)

Definition content (f : hostfile) : list Z := concat (hreads f).

(** Directory entries for the files [fs], the first being inode [n]. *)
Fixpoint rows (n : Z) (fs : list hostfile) : list (list Z) :=
  match fs with
  | [] => []
  | f :: fs => mk_dirent n (skip_underscore (hname f)) :: rows (n + 1) fs
  end.
Definition entries (n : Z) (fs : list hostfile) : list Z := concat (rows n fs).

(** A file mkfs accepts: no slash in the name, contents of at most MAXFILE blocks. *)
Record acceptable (f : hostfile) : Prop := {
  ac_name : bytes_ok (hname f) ∧ existsb (Z.eqb 47) (hname f) = false;
  ac_bytes : Forall bytes_ok (hreads f);
  ac_size : len (content f) <= 71680;
}.

Definition files (fs : list hostfile) : list (Z * list Z) := (λ f, (T_FILE, content f)) <$> fs.

Lemma lstrncpy_length n l : length (lstrncpy n l) = n.
Proof. revert l. induction n as [|n IH]; intros l; [done|]. cbn [lstrncpy]. destruct (_ =? 0); [apply length_replicate|]. cbn. by rewrite IH. Qed.

Lemma lstrncpy_ok n l : bytes_ok l → bytes_ok (lstrncpy n l).
Proof.
  revert l. induction n as [|n IH]; intros l Hl; [constructor|]. cbn [lstrncpy]. destruct (_ =? 0); [apply Forall_replicate; unfold is_u8; lia|].
  constructor; [|apply IH; by apply Forall_drop]. unfold byte_at. destruct (l !! 0%nat) as [x|] eqn:E; [by apply (Forall_lookup_1 _ _ _ _ Hl E)|unfold is_u8; cbn; lia].
Qed.

Lemma mk_dirent_length n l : length (mk_dirent n l) = 16%nat.
Proof. unfold mk_dirent. by rewrite length_app, le_bytes_length, lstrncpy_length. Qed.

Lemma mk_dirent_ok n l : bytes_ok l → bytes_ok (mk_dirent n l).
Proof. intros Hl. apply Forall_app. split; [apply le_bytes_ok|by apply lstrncpy_ok]. Qed.

Lemma skip_underscore_ok l : bytes_ok l → bytes_ok (skip_underscore l).
Proof. intros Hl. destruct l as [|x l]; [done|]. cbn. destruct (x =? 95); [by apply Forall_cons in Hl as [_ ?]|done]. Qed.

Lemma entries_length n fs : length (entries n fs) = (16 * length fs)%nat.
Proof. unfold entries. revert n. induction fs as [|f fs IH]; intros n; [done|]. cbn [rows concat length]. rewrite length_app, mk_dirent_length, IH. lia. Qed.

Lemma total_cons t c al : total ((t, c) :: al) = cost (len c) + total al.
Proof. done. Qed.

(** One file: the inode, the directory entry, the contents. *)
Lemma add_file_spec s r al f :
  let e := mk_dirent (Z.of_nat (length al) + 2) (skip_underscore (hname f)) in
  minv s ((T_DIR, r) :: al) → acceptable f → (length al < 198)%nat → len (r ++ e) <= 71680 →
  59 + cost (len (r ++ e)) + total al + cost (len (content f)) <= 1000 →
  ∃ s', add_file 1 f s = Ret tt s' ∧ minv s' ((T_DIR, r ++ e) :: al ++ [(T_FILE, content f)]).
Proof.
  intros e Hm [[Hn Hslash] Hb Hsz] Hlen Hroot Hroom. unfold add_file. rewrite Hslash.
  destruct (ialloc_spec s _ T_FILE Hm) as (s1 & E1 & Hm1); [cbn; lia|unfold T_FILE; lia|].
  cbn [length] in E1. rewrite (bind_Ret _ _ _ _ _ E1). cbn [app] in Hm1.
  pose proof (cost_nonneg (len (content f)) ltac:(unfold len; lia)) as Hcn.
  destruct (iappend_spec s1 _ 0 T_DIR r e Hm1) as (s2 & E2 & Hm2);
    [done|by apply mk_dirent_ok, skip_underscore_ok|done| |].
  { cbn [insert list_insert]. rewrite total_cons, total_app. change (total [(T_FILE, [])]) with 0. lia. }
  change (Z.of_nat 0 + 1) with 1 in E2. rewrite xshort_id by lia.
  replace (Z.of_nat (S (length al)) + 1) with (Z.of_nat (length al) + 2) by lia. fold e. rewrite (bind_Ret _ _ _ _ _ E2).
  change (<[0%nat := (T_DIR, r ++ e)]> ((T_DIR, r) :: al ++ [(T_FILE, [])])) with ((T_DIR, r ++ e) :: al ++ [(T_FILE, [])]) in Hm2.
  assert (Hk : ∀ c, <[S (length al) := (T_FILE, c)]> ((T_DIR, r ++ e) :: al ++ [(T_FILE, [])]) = (T_DIR, r ++ e) :: al ++ [(T_FILE, c)]).
  { intros c. transitivity ((T_DIR, r ++ e) :: <[length al := (T_FILE, c)]> (al ++ [(T_FILE, [])])); [done|]. f_equal.
    rewrite insert_app_r_alt by lia. by rewrite Nat.sub_diag. }
  destruct (append_all_spec (hreads f) s2 _ (S (length al)) T_FILE [] Hm2) as (s' & E' & Hm').
  - by apply (list_lookup_middle al []).
  - done.
  - done.
  - rewrite Hk, total_cons, total_app, total_cons. change (total []) with 0. cbn [app]. fold (content f). lia.
  - exists s'. rewrite Hk in Hm'. split; [|done]. rewrite <- E'. f_equal. lia.
Qed.

Lemma add_files_spec fs : ∀ s r al,
  let r' := r ++ entries (Z.of_nat (length al) + 2) fs in
  minv s ((T_DIR, r) :: al) → Forall acceptable fs → (length al + length fs <= 198)%nat → len r' <= 71680 →
  59 + total ((T_DIR, r') :: al ++ files fs) <= 1000 →
  ∃ s', add_files 1 fs s = Ret tt s' ∧ minv s' ((T_DIR, r') :: al ++ files fs).
Proof.
  induction fs as [|f fs IH]; intros s r al r' Hm Hfs Hlen Hroot Hroom; subst r'; unfold entries in *; cbn [rows concat add_files files fmap list_fmap] in *.
  { exists s. by rewrite !app_nil_r in *. }
  apply Forall_cons in Hfs as [Hf Hfs]. cbn [length] in Hlen. set (e := mk_dirent (Z.of_nat (length al) + 2) (skip_underscore (hname f))) in *.
  fold (files fs) in *. rewrite app_assoc in *. change ((T_FILE, content f) :: files fs) with ([(T_FILE, content f)] ++ files fs) in *.
  rewrite app_assoc in *. set (es := concat (rows (Z.of_nat (length al) + 2 + 1) fs)) in *.
  assert (Hle : len (r ++ e) <= len ((r ++ e) ++ es)) by (unfold len; rewrite !length_app; lia).
  pose proof (total_nonneg (files fs)) as Hnn. pose proof (cost_mono _ _ Hle) as Hcm.
  rewrite total_cons, !total_app in Hroom. change (total [(T_FILE, content f)]) with (cost (len (content f)) + 0) in Hroom.
  destruct (add_file_spec s r al f Hm Hf) as (s1 & E1 & Hm1); [lia|fold e; lia|fold e; lia|].
  fold e in Hm1. assert (Ees : es = concat (rows (Z.of_nat (length (al ++ [(T_FILE, content f)])) + 2) fs)).
  { unfold es. rewrite length_app. cbn [length]. do 2 f_equal. lia. }
  rewrite Ees in *. destruct (IH s1 (r ++ e) (al ++ [(T_FILE, content f)]) Hm1 Hfs) as (s' & E' & Hm').
  - rewrite length_app. cbn. lia.
  - done.
  - rewrite total_cons, !total_app. change (total [(T_FILE, content f)]) with (cost (len (content f)) + 0). lia.
  - exists s'. by rewrite (bind_Ret _ _ _ _ _ E1).
Qed.

(** ** The whole run *)

Definition dots : list Z := mk_dirent 1 [46] ++ mk_dirent 1 [46; 46].

(** The blank image with the super block. *)
Definition blank : mk := Mk (<[1%nat := super]> (replicate 1000 zeroes)) 1 59.

Lemma blank_loop k n fi fb :
  for_ k n (λ i, wsect (Z.of_nat i) zeroes) (Mk (replicate n zeroes) fi fb) = Ret tt (Mk (replicate (n + k) zeroes) fi fb).
Proof.
  revert n. induction k as [|k IH]; intros n; cbn [for_]; [by rewrite Nat.add_0_r|].
  rewrite (bind_Ret _ _ _ tt (Mk (replicate (S n) zeroes) fi fb)).
  - rewrite IH. do 3 f_equal. lia.
  - unfold wsect, set_img, modify. cbn [img freeinode freeblock]. rewrite length_replicate, Nat2Z.id, Nat.ltb_irrefl, Nat.sub_diag.
    change (replicate 0 zeroes ++ [zeroes]) with (replicate 1 zeroes). rewrite <- replicate_add. do 3 f_equal. lia.
Qed.

Lemma super_ok : block_ok super.
Proof. split; [vm_compute; reflexivity|]. apply splice_ok; [repeat apply Forall_app_2; apply le_bytes_ok|apply zeroes_ok]. Qed.

Lemma blank_W n : 0 <= n < 1000 → Wof blank n = if n =? 1 then super else zeroes.
Proof.
  intros Hn. unfold Wof, blank. cbn [img]. destruct (Z.eqb_spec n 1) as [->|Hne]; [done|].
  rewrite list_lookup_insert_ne by lia. by rewrite lookup_replicate_2 by lia.
Qed.

Lemma load_zeroes n : 0 <= n < 200 → load_dinode (inode_off n) zeroes inode0 = inode0.
Proof.
  intros Hn. assert (Hc : n mod 8 = 0 ∨ n mod 8 = 1 ∨ n mod 8 = 2 ∨ n mod 8 = 3 ∨ n mod 8 = 4 ∨ n mod 8 = 5 ∨ n mod 8 = 6 ∨ n mod 8 = 7) by dlia.
  unfold inode_off. change IPB with 8. change sizeof_dinode with 64. by destruct Hc as [-> |[-> |[-> |[-> |[-> |[-> |[-> | ->]]]]]]].
Qed.

Lemma blank_minv : minv blank [].
Proof.
  assert (HD : ∀ n, 0 <= n < 200 → D blank n = inode0).
  { intros n Hn. unfold D. rewrite mk_IBLOCK, blank_W, (proj2 (Z.eqb_neq _ _)) by dlia. by apply load_zeroes. }
  split; try done; try (cbn; lia).
  - split.
    + cbn [blank img]. by rewrite length_insert, length_replicate.
    + intros n Hn. rewrite blank_W by done. destruct (n =? 1); [apply super_ok|apply zeroes_ok].
    + cbn. lia.
    + intros n Hn. cbn in Hn. rewrite blank_W, (proj2 (Z.eqb_neq _ _)) by lia. done.
  - intros n Hn. apply blank_W. lia.
  - intros n Hn. cbn in Hn. by rewrite HD by lia.
Qed.

(** [main] up to the size of the root directory. *)
Definition root (fs : list hostfile) : list Z := dots ++ entries 2 fs.

Lemma root_length fs : len (root fs) = 16 * (Z.of_nat (length fs) + 2).
Proof. unfold len, root. rewrite length_app, entries_length. change (length dots) with 32%nat. lia. Qed.

(** The bitmap block. *)
Lemma mark_spec n :
  (n <= 4096)%nat → block_ok (mark n zeroes) ∧ ∀ k, 0 <= k < 4096 → bit_set (mark n zeroes) k = (k <? Z.of_nat n).
Proof.
  induction n as [|n IH]; intros Hn.
  - split; [apply zeroes_ok|]. intros k Hk. cbn [mark]. rewrite bit_set_testbit, byte_at_zeroes, Z.bits_0. symmetry. apply Z.ltb_ge. lia.
  - destruct (IH ltac:(lia)) as [Hb Hk]. destruct Hb as [Hl Hby].
    assert (E : mark (S n) zeroes = set_bit (mark n zeroes) (Z.of_nat n)).
    { cbn [mark]. unfold set_bit. f_equal. apply u8_id. apply lor_byte; [by apply byte_at_ok|apply bit_mask_byte]. }
    rewrite E. split; [by apply set_bit_ok|]. intros k Hr. rewrite bit_set_set by (done || lia). rewrite Hk by done.
    case_bool_decide; destruct (Z.ltb_spec k (Z.of_nat n)), (Z.ltb_spec k (Z.of_nat (S n))); lia || done.
Qed.

Lemma main_body fs s :
  Forall acceptable fs → (length fs <= 198)%nat → 59 + total ((T_DIR, root fs) :: files fs) <= 1000 →
  ∃ s1 s2, minv s1 ((T_DIR, root fs) :: files fs) ∧
    wrote_inode s1 1 (set_i_size ((len (root fs) / 512 + 1) * 512) (D s1 1)) s2 ∧
    main fs s = Ret tt (put_sect 58 (mark (Z.to_nat (freeblock s1)) zeroes) s2).
Proof.
  intros Hfs Hn Hroom. unfold main. rewrite total_cons in Hroom. pose proof (total_nonneg (files fs)) as Hnn.
  pose proof (root_length fs) as Hrl.
  rewrite (bind_Ret _ _ s tt (Mk (replicate 0 zeroes) 1 59) eq_refl).
  rewrite (bind_Ret _ _ _ _ _ (blank_loop (Z.to_nat FSSIZE) 0 1 59)).
  rewrite (bind_Ret _ _ _ tt blank) by done.
  destruct (ialloc_spec blank [] T_DIR blank_minv) as (s1 & E1 & M1); [cbn; lia|unfold T_DIR; lia|].
  rewrite (bind_Ret _ _ _ _ _ E1). change (Z.of_nat (length (@nil (Z * list Z))) + 1) with 1. change (negb (1 =? ROOTINO)) with false. cbv iota.
  change (xshort 1) with 1. cbn [app] in M1.
  destruct (iappend_spec s1 _ 0 T_DIR [] (mk_dirent 1 [46]) M1) as (s2 & E2 & M2); [done|apply mk_dirent_ok; repeat constructor; unfold is_u8; lia|vm_compute; done|vm_compute; done|].
  rewrite (bind_Ret _ _ _ _ _ E2).
  destruct (iappend_spec s2 _ 0 T_DIR (mk_dirent 1 [46]) (mk_dirent 1 [46; 46]) M2) as (s3 & E3 & M3); [done|apply mk_dirent_ok; repeat constructor; unfold is_u8; lia|vm_compute; done|vm_compute; done|].
  rewrite (bind_Ret _ _ _ _ _ E3).
  destruct (add_files_spec fs s3 dots [] M3 Hfs) as (s4 & E4 & M4);
    [done|change (len (root fs) <= 71680); lia|change (59 + (cost (len (root fs)) + total (files fs)) <= 1000); lia|].
  change (dots ++ entries (Z.of_nat (length (@nil (Z * list Z))) + 2) fs) with (root fs) in M4.
  rewrite (bind_Ret _ _ _ _ _ E4). pose proof (mi_image _ _ M4) as I4. cbn [app] in M4.
  rewrite (bind_Ret _ _ _ _ _ (rinode_ret s4 1 I4 ltac:(lia))).
  destruct (mi_file _ _ M4 0 T_DIR (root fs) eq_refl) as (Hf & _ & Hsz & _). change (Z.of_nat 0 + 1) with 1 in *.
  rewrite Hsz, (xint_id (len (root fs))) by lia. change BSIZE with 512. rewrite xint_id by dlia.
  destruct (winode_spec s4 1 (set_i_size ((len (root fs) / 512 + 1) * 512) (D s4 1)) I4) as (s5 & E5 & M5); [lia| |done|].
  { destruct (fo_wf _ _ _ _ _ Hf). split; try done. cbn [set_i_size i_size]. unfold is_u32. dlia. }
  rewrite (bind_Ret _ _ _ _ _ E5). exists s4, s5. split_and!; [done|done|].
  rewrite (bind_Ret _ _ s5 (freeblock s4) s5) by (unfold gets; by rewrite (wi_fb _ _ _ _ M5)).
  pose proof (im_fb _ I4). unfold balloc. change (BSIZE * 8) with 4096. rewrite (proj2 (Z.leb_gt _ _)) by lia.
  change (sb_bmapstart mksb) with 58. apply wsect_ret; [apply M5|lia].
Qed.

(** ** Directory entries *)

Lemma mk_dirent_inum n l : 0 <= n < 65536 → de_inum (mk_dirent n l) = n.
Proof.
  intros Hn. unfold de_inum, get_le, slice, mk_dirent. rewrite drop_0, take_app_length' by by rewrite le_bytes_length.
  rewrite le_val_bytes. apply Z.mod_small. cbn. lia.
Qed.

Lemma cstr_lstrncpy n l : cstr n (lstrncpy n l) = cstr n l.
Proof.
  revert l. induction n as [|n IH]; intros l; [done|]. cbn [cstr lstrncpy]. destruct (byte_at l 0 =? 0) eqn:E; [done|].
  change (byte_at (byte_at l 0 :: lstrncpy n (drop 1 l)) 0) with (byte_at l 0). rewrite E. f_equal. apply IH.
Qed.

Lemma mk_dirent_name n l : cstr DIRSIZ (de_name (mk_dirent n l)) = cstr DIRSIZ l.
Proof.
  unfold de_name, mk_dirent, slice. rewrite drop_app_length' by by rewrite le_bytes_length.
  rewrite take_ge by (rewrite lstrncpy_length; done). apply cstr_lstrncpy.
Qed.

(** A file that is the concatenation of 16-byte rows. *)
Lemma dir_entries_rows W i rs k :
  Forall (λ r, length r = 16%nat) rs →
  (∀ o, (o < 16 * length rs)%nat → fbyte W (i_addrs i) (16 * k + Z.of_nat o) = byte_at (concat rs) o) →
  dir_entries W i k (length rs) = rs.
Proof.
  revert k. induction rs as [|r rs IH]; intros k Hl Hb; [done|]. apply Forall_cons in Hl as [Hr Hl]. cbn [length dir_entries concat] in *. f_equal.
  - apply list_eq_same_length with 16%nat; [done|apply tab_length|]. intros o x y Ho Hx Hy.
    rewrite lookup_tab in Hx by done. injection Hx as <-. rewrite Hb by lia. unfold byte_at. rewrite lookup_app_l, Hy by lia. done.
  - apply IH; [done|]. intros o Ho. replace (16 * (k + 1) + Z.of_nat o) with (16 * k + Z.of_nat (16 + o)) by lia.
    rewrite Hb by lia. unfold byte_at. rewrite lookup_app_r by lia. do 2 f_equal. lia.
Qed.

Definition name_of (f : hostfile) : list Z := cstr DIRSIZ (skip_underscore (hname f)).

(** The rows of the root directory: "." and "..", the files, unused entries. *)
Definition root_rows (fs : list hostfile) (pad : nat) : list (list Z) :=
  mk_dirent 1 [46] :: mk_dirent 1 [46; 46] :: rows 2 fs ++ replicate pad (replicate 16 0).

Lemma rows_lookup n fs pad k f j :
  0 < n → n + Z.of_nat (length fs) < 65536 → fs !! k = Some f → (∀ i g, fs !! i = Some g → (i < k)%nat → name_of g ≠ name_of f) →
  find_entry (rows n fs ++ pad) j (skip_underscore (hname f)) = Some (j + Z.of_nat k, n + Z.of_nat k).
Proof.
  revert n k j. induction fs as [|g fs IH]; intros n k j Hn Hm Hk Hfirst; [done|]. cbn [rows app find_entry length] in *.
  rewrite mk_dirent_inum, mk_dirent_name by lia. fold (name_of g) (name_of f). destruct k as [|k].
  - injection Hk as ->. rewrite decide_True by (split; [lia|done]). do 2 f_equal; lia.
  - rewrite decide_False; [|intros [_ E]; by eapply (Hfirst 0%nat g); [|lia|]].
    rewrite (IH (n + 1) k (j + 1)); [do 2 f_equal; lia|lia|lia|done|]. intros i g' Hi Hik. apply (Hfirst (S i)); [done|lia].
Qed.

Lemma root_lookup fs pad k f :
  (length fs <= 198)%nat → fs !! k = Some f → (∀ i g, fs !! i = Some g → (i < k)%nat → name_of g ≠ name_of f) →
  name_of f ≠ [46] → name_of f ≠ [46; 46] →
  find_entry (root_rows fs pad) 0 (skip_underscore (hname f)) = Some (Z.of_nat k + 2, Z.of_nat k + 2).
Proof.
  intros Hl Hk Hfirst H1 H2. unfold root_rows. cbn [find_entry]. rewrite !mk_dirent_name. fold (name_of f).
  rewrite !decide_False by (intros [_ ?]; done). rewrite (rows_lookup 2 fs _ k f); [do 2 f_equal; lia|lia|lia|done|done].
Qed.

(** ** The finished image *)

(** The blocks outside the log. *)
Definition mk_V (n : Z) : Prop := n = 1 ∨ 32 <= n < 1000.

Lemma mk_layout : FsBlocks.layout mk_V mksb.
Proof.
  split.
  - rewrite mksb_eq. cbn. lia.
  - rewrite mksb_eq. cbn. lia.
  - change (sb_size mksb) with 1000. intros n Hn. rewrite mk_BBLOCK by done. unfold mk_V. lia.
  - change (sb_ninodes mksb) with 200. intros n Hn. rewrite mk_IBLOCK by done. unfold mk_V. dlia.
  - unfold mk_V. lia.
  - change (sb_size mksb) with 1000. change (sb_ninodes mksb) with 200. intros n i Hn Hi. rewrite mk_BBLOCK, mk_IBLOCK by done. dlia.
Qed.

Lemma mk_data n : 59 <= n < 1000 → data mk_V mksb n.
Proof.
  intros Hn. split.
  - unfold mk_V. lia.
  - change (sb_size mksb) with 1000. lia.
  - change (sb_size mksb) with 1000. intros m Hm. rewrite mk_BBLOCK by done. lia.
  - change (sb_ninodes mksb) with 200. intros m Hm. rewrite mk_IBLOCK by done. dlia.
Qed.

(** Inode [n] as [ilock] brings it into the kernel's cache. *)
Definition cached (s : mk) (n : Z) : inode :=
  load_dinode (inode_off n) (Wof s (IBLOCK n mksb)) (Inode 1 n 1 (Sleeplock true 0) 1 0 0 0 0 0 []).

Lemma cached_fields s n :
  i_type (cached s n) = i_type (D s n) ∧ i_nlink (cached s n) = i_nlink (D s n) ∧ i_size (cached s n) = i_size (D s n) ∧
  i_addrs (cached s n) = i_addrs (D s n) ∧ i_major (cached s n) = i_major (D s n) ∧ i_minor (cached s n) = i_minor (D s n).
Proof. done. Qed.

(** A file of the image is one the theorems about [readi] and [writei] apply to. *)
Lemma fok_file_inv s fb n c nb :
  fok (Wof s) fb (D s n) c nb → (∀ m, 59 <= m < fb → used mksb (Wof s) m = true) → fb <= 1000 → 0 <= n < 200 →
  0 <= i_size (D s n) <= 512 * nb → i_type (D s n) ≠ T_DEV → file_inv mk_V mksb (Wof s) (cached s n).
Proof.
  intros Hf Hu Hfb Hn Hsz Ht. pose proof (fo_nb _ _ _ _ _ Hf) as [_ Hnb]. pose proof (fo_wf _ _ _ _ _ Hf) as Hwf.
  assert (Hr : ∀ bn, 0 <= bn < 140 → amap (Wof s) (i_addrs (D s n)) bn ≠ 0 → bn < nb ∧ 59 <= amap (Wof s) (i_addrs (D s n)) bn < fb).
  { intros bn Hb Hz. pose proof (fo_map _ _ _ _ _ Hf bn Hb) as Hm. destruct (Z.ltb_spec bn nb); [done|congruence]. }
  assert (Hi : ind (i_addrs (D s n)) ≠ 0 → 59 <= ind (i_addrs (D s n)) < fb).
  { intros Hz. pose proof (fo_ind _ _ _ _ _ Hf) as Hi. destruct (12 <? nb); [done|congruence]. }
  split.
  - change (i_addrs (cached s n)) with (i_addrs (D s n)). split.
    + apply Hwf.
    + intros bn Hb Hz. destruct (Hr bn Hb Hz) as [_ Ha]. split; [apply mk_data; lia|by apply Hu].
    + intros bn bn' Hb Hb' Hz E. destruct (Hr bn Hb Hz). destruct (Hr bn' Hb') as [? _]; [congruence|]. apply (fo_inj _ _ _ _ _ Hf); [lia|lia|done].
    + intros Hz. specialize (Hi Hz). split; [apply mk_data; lia|by apply Hu].
    + intros bn Hb Hz E. destruct (Hr bn Hb) as [Hlt _]; [congruence|]. exact (fo_ne _ _ _ _ _ Hf bn (conj (proj1 Hb) Hlt) E).
  - done.
  - exact Hn.
  - change (i_size (cached s n)) with (i_size (D s n)). lia.
  - intros o Ho. change (i_size (cached s n)) with (i_size (D s n)) in Ho. change (i_addrs (cached s n)) with (i_addrs (D s n)).
    pose proof (fo_map _ _ _ _ _ Hf (o / 512) ltac:(dlia)) as Hm. rewrite (proj2 (Z.ltb_lt _ _)) in Hm by dlia. lia.
  - done.
  - split_and!; apply Hwf.
  - done.
Qed.

(** What the kernel needs of an image, and what it finds there. *)
Record mkfs_ok (fs : list hostfile) (s : mk) : Prop := {
  ok_mount : mount_ok (img s) 2 30 [];
  ok_super : superblock_of (Wof s 1) = mksb;
  ok_blocks n : 0 <= n < 1000 → block_ok (Wof s n);
  ok_bitmap : bitmap_ok mk_V mksb (Wof s);
  ok_used n : 0 <= n < 1000 → used mksb (Wof s) n = (n <? 59 + total ((T_DIR, root fs) :: files fs));
  ok_dir : i_type (cached s 1) = T_DIR ∧ i_size (cached s 1) = (len (root fs) / 512 + 1) * 512 ∧
    ∃ pad, dir_entries (Wof s) (cached s 1) 0 (Z.to_nat (i_size (cached s 1) / 16)) = root_rows fs pad;
  ok_lookup k f : fs !! k = Some f → (∀ j g, fs !! j = Some g → (j < k)%nat → name_of g ≠ name_of f) →
    name_of f ≠ [46] → name_of f ≠ [46; 46] →
    find_entry (dir_entries (Wof s) (cached s 1) 0 (Z.to_nat (i_size (cached s 1) / 16))) 0 (skip_underscore (hname f)) =
      Some (Z.of_nat k + 2, Z.of_nat k + 2);
  ok_hole : (Z.of_nat (length fs) + 2) mod 32 = 0 → amap (Wof s) (i_addrs (cached s 1)) (i_size (cached s 1) / 512 - 1) = 0;
  ok_root : (Z.of_nat (length fs) + 2) mod 32 ≠ 0 → file_inv mk_V mksb (Wof s) (cached s 1);
  ok_file k f : fs !! k = Some f → let i := cached s (Z.of_nat k + 2) in
    file_inv mk_V mksb (Wof s) i ∧ i_type i = T_FILE ∧ i_nlink i = 1 ∧ i_size i = len (content f) ∧
    tab (fbyte (Wof s) (i_addrs i)) 0 (length (content f)) = content f;
  ok_apart n n' m : 0 < n < Z.of_nat (length fs) + 2 → 0 < n' < Z.of_nat (length fs) + 2 →
    own (Wof s) (i_addrs (cached s n)) m → own (Wof s) (i_addrs (cached s n')) m → n = n';
  ok_free n : Z.of_nat (length fs) + 2 <= n < 200 → i_type (cached s n) = 0;
}.

Lemma img_bat s n : image s → 0 <= n < 1000 → bat (img s) n = Wof s n.
Proof.
  intros Hs Hn. unfold bat, Wof. rewrite list_lookup_total_alt.
  destruct (lookup_lt_is_Some_2 (img s) (Z.to_nat n)) as [d ->]; [rewrite (im_len s Hs); lia|done].
Qed.

Lemma image_mount s : image s → Wof s 1 = super → Wof s 2 = zeroes → mount_ok (img s) 2 30 [].
Proof.
  intros Hs H1 H2. pose proof (im_len s Hs) as Hlen. assert (Hnil : ∀ d : Z, d ∉ ([] : list Z)) by (intros d Hd; by apply elem_of_nil in Hd).
  split; [split|..]; rewrite ?img_bat, ?H1, ?H2 by (done || lia).
  - vm_compute. reflexivity.
  - unfold in_blocks. lia.
  - apply head_says_nil. vm_compute. reflexivity.
  - split; [unfold small; lia|lia|rewrite Hlen; cbn; lia|constructor|]. intros d Hd. by apply Hnil in Hd.
  - apply Nat.ltb_lt. reflexivity.
  - vm_compute. reflexivity.
  - lia.
  - lia.
  - lia.
  - intros d Hd. by apply Hnil in Hd.
  - apply zeroes_ok.
Qed.

Lemma byte_at_pad c k o : byte_at (c ++ replicate k 0) o = byte_at c o.
Proof.
  unfold byte_at. destruct (decide (o < length c)%nat); [by rewrite lookup_app_l by lia|]. rewrite lookup_app_r, (lookup_ge_None_2 c) by lia.
  destruct (replicate k 0 !! (o - length c)%nat) as [x|] eqn:E; [|done]. by apply lookup_replicate in E as [-> _].
Qed.

Lemma concat_root_rows fs pad : concat (root_rows fs pad) = root fs ++ replicate (16 * pad) 0.
Proof.
  unfold root_rows, root, dots, entries. cbn [concat]. rewrite concat_app, <- !app_assoc. do 3 f_equal.
  induction pad as [|pad IH]; [done|].
  transitivity (replicate 16 0 ++ concat (replicate pad (replicate 16 0))); [done|]. rewrite IH, <- replicate_add. f_equal. lia.
Qed.

Lemma rows_length n fs : length (rows n fs) = length fs.
Proof. revert n. induction fs as [|f fs IH]; intros n; [done|]. cbn [rows length]. by rewrite IH. Qed.

Lemma root_rows_16 fs pad : Forall (λ r, length r = 16%nat) (root_rows fs pad).
Proof.
  repeat (apply Forall_cons; split; [apply mk_dirent_length|]). apply Forall_app. split.
  - generalize 2. induction fs as [|f fs IH]; intros n; [constructor|]. constructor; [apply mk_dirent_length|apply IH].
  - by apply Forall_replicate.
Qed.

Section finish.
Context (fs : list hostfile) (s1 s2 : mk).
Hypothesis Hn : (length fs <= 198)%nat.
Hypothesis M1 : minv s1 ((T_DIR, root fs) :: files fs).
Hypothesis M2 : wrote_inode s1 1 (set_i_size ((len (root fs) / 512 + 1) * 512) (D s1 1)) s2.
Definition finished : mk := put_sect 58 (mark (Z.to_nat (freeblock s1)) zeroes) s2.

Lemma finished_image : image finished ∧ block_ok (mark (Z.to_nat (freeblock s1)) zeroes).
Proof using Hn M1 M2.
  pose proof (im_fb _ (mi_image _ _ M1)). destruct (mark_spec (Z.to_nat (freeblock s1)) ltac:(lia)) as [Hb _]. split; [|done].
  apply image_put; [apply M2| |done]. rewrite (wi_fb _ _ _ _ M2). lia.
Qed.

Lemma finished_W m : 0 <= m < 1000 → m ≠ 58 → Wof finished m = Wof s2 m.
Proof using Hn M1 M2. intros Hm Hne. unfold finished. rewrite Wof_put, upd_ne by (apply M2 || lia || done). done. Qed.

Lemma finished_keep m : 0 <= m < 1000 → ¬ (32 <= m < 59) → Wof finished m = Wof s1 m.
Proof using Hn M1 M2. intros Hm Hne. rewrite finished_W by lia. apply (wi_frame _ _ _ _ M2); lia. Qed.

Lemma finished_used n : 0 <= n < 1000 → used mksb (Wof finished) n = (n <? freeblock s1).
Proof using Hn M1 M2.
  intros Hr. pose proof (im_fb _ (mi_image _ _ M1)). unfold used. rewrite mk_BBLOCK by done. unfold finished.
  rewrite Wof_put, upd_eq by (apply M2 || lia). change BPB with 4096. rewrite Z.mod_small by lia.
  destruct (mark_spec (Z.to_nat (freeblock s1)) ltac:(lia)) as [_ Hk]. rewrite Hk by lia. by rewrite Z2Nat.id by lia.
Qed.

Lemma finished_D n : 0 <= n < 200 → D finished n = if n =? 1 then set_i_size ((len (root fs) / 512 + 1) * 512) (D s1 1) else D s1 n.
Proof using Hn M1 M2.
  intros Hr. rewrite (D_ext s2) by (apply finished_W; rewrite mk_IBLOCK by done; dlia).
  destruct (Z.eqb_spec n 1) as [->|Hne]; [apply M2|by apply (wi_other _ _ _ _ M2)].
Qed.

(** Every file of the image, with the size it has in the end. *)
Lemma finished_file k t c :
  ((T_DIR, root fs) :: files fs) !! k = Some (t, c) → let i := D finished (Z.of_nat k + 1) in
  fok (Wof finished) (freeblock s1) i c (blocks (len c)) ∧ i_type i = t ∧ i_nlink i = 1 ∧
  i_size i = (if (k =? 0)%nat then (len (root fs) / 512 + 1) * 512 else len c) ∧
  ∀ m, own (Wof finished) (i_addrs i) m ↔ own (Wof s1) (i_addrs (D s1 (Z.of_nat k + 1))) m.
Proof using Hn M1 M2.
  intros Hk. pose proof (lookup_lt_Some _ _ _ Hk) as Hl. cbn [length] in Hl. unfold files in Hl. rewrite length_fmap in Hl.
  destruct (mi_file _ _ M1 k t c Hk) as (Hf & Ht & Hs & Hln). pose proof (im_fb _ (mi_image _ _ M1)).
  destruct (minv_keep s1 ((T_DIR, root fs) :: files fs) finished k t c M1 Hk) as [Hf' Ho]; [intros m Hr _; apply finished_keep; lia|by rewrite <- (wi_fb _ _ _ _ M2)|].
  change (freeblock finished) with (freeblock s2) in Hf'. rewrite (wi_fb _ _ _ _ M2) in Hf'. rewrite finished_D by lia. cbv zeta.
  destruct k as [|k]; [|rewrite (proj2 (Z.eqb_neq _ _)) by lia; done].
  change (Z.of_nat 0 + 1) with 1 in *. change (1 =? 1) with true. cbv iota. change ((0 =? 0)%nat) with true. cbv iota.
  injection Hk as <- <-. pose proof (root_length fs). split_and!; [|exact Ht|exact Hln|reflexivity|exact Ho].
  destruct Hf' as [[W1 W2 W3 W4 W5 W6 W7] F2 F3 F4 F5 F6 F7]. split; [|exact F2|exact F3|exact F4|exact F5|exact F6|exact F7].
  split; [exact W1|exact W2|exact W3|exact W4| |exact W6|exact W7]. cbn [set_i_size i_size]. unfold is_u32. dlia.
Qed.

Lemma finished_dir :
  ∃ pad, dir_entries (Wof finished) (cached finished 1) 0 (Z.to_nat (i_size (cached finished 1) / 16)) = root_rows fs pad.
Proof using Hn M1 M2.
  destruct (finished_file 0 T_DIR (root fs) eq_refl) as (Hf & _ & _ & Hs & _). change (Z.of_nat 0 + 1) with 1 in *. pose proof (root_length fs) as Hl.
  change (i_size (cached finished 1)) with (i_size (D finished 1)). rewrite Hs. change ((0 =? 0)%nat) with true. cbv iota.
  set (sz := (len (root fs) / 512 + 1) * 512). set (pad := Z.to_nat (sz / 16 - Z.of_nat (length fs) - 2)). exists pad.
  assert (El : length (root_rows fs pad) = Z.to_nat (sz / 16)).
  { unfold root_rows. cbn [length]. rewrite length_app, length_replicate, rows_length. unfold pad, sz. rewrite Hl. dlia. }
  rewrite <- El. apply dir_entries_rows; [apply root_rows_16|]. intros o Ho. rewrite El in Ho.
  rewrite concat_root_rows, byte_at_pad. change (i_addrs (cached finished 1)) with (i_addrs (D finished 1)). rewrite (fo_bytes _ _ _ _ _ Hf) by (unfold sz in Ho; rewrite Hl in Ho; dlia).
  replace (16 * 0 + Z.of_nat o) with (Z.of_nat o) by lia. by rewrite Nat2Z.id.
Qed.

Lemma finished_ok : mkfs_ok fs finished.
Proof using Hn M1 M2.
  destruct finished_image as [Him _]. pose proof (im_fb _ (mi_image _ _ M1)) as Hfb. pose proof (root_length fs) as Hl.
  assert (Hu : ∀ m, 59 <= m < freeblock s1 → used mksb (Wof finished) m = true) by (intros m Hm; rewrite finished_used by lia; apply Z.ltb_lt; lia).
  assert (Hblocks : ∀ n, 0 <= n → n <= 512 * blocks n) by (intros n; unfold blocks; dlia).
  destruct (finished_file 0 T_DIR (root fs) eq_refl) as (Hf & Ht & _ & Hs & _). change (Z.of_nat 0 + 1) with 1 in *. change ((0 =? 0)%nat) with true in Hs. cbv iota in Hs.
  assert (Hown : ∀ n m, 0 < n < Z.of_nat (length fs) + 2 → own (Wof finished) (i_addrs (cached finished n)) m →
    ∃ k f, n = Z.of_nat k + 1 ∧ ((T_DIR, root fs) :: files fs) !! k = Some f ∧ own (Wof s1) (i_addrs (D s1 (Z.of_nat k + 1))) m).
  { intros n m Hr Ho. destruct (lookup_lt_is_Some_2 ((T_DIR, root fs) :: files fs) (Z.to_nat (n - 1))) as [[t c] Hk].
    { cbn [length]. unfold files. rewrite length_fmap. lia. }
    exists (Z.to_nat (n - 1)), (t, c). destruct (finished_file _ _ _ Hk) as (_ & _ & _ & _ & Hi).
    replace (Z.of_nat (Z.to_nat (n - 1)) + 1) with n in * by lia. split_and!; [done|done|]. by apply Hi. }
  split.
  - apply image_mount; [done|..]; rewrite finished_keep by lia; by rewrite (mi_meta _ _ M1) by lia.
  - rewrite finished_keep, (mi_meta _ _ M1) by lia. vm_compute. reflexivity.
  - apply Him.
  - intros n [Hr Hz]. change (sb_size mksb) with 1000 in Hr. rewrite finished_used in Hz by done. apply mk_data. lia.
  - intros n Hr. rewrite finished_used by done. by rewrite (mi_fb _ _ M1).
  - split_and!; [exact Ht|exact Hs|apply finished_dir].
  - intros k f Hk Hfirst H1 H2. destruct finished_dir as [pad ->]. by apply root_lookup.
  - intros Hmod. change (i_size (cached finished 1)) with (i_size (D finished 1)). change (i_addrs (cached finished 1)) with (i_addrs (D finished 1)).
    rewrite Hs, Hl. pose proof (fo_map _ _ _ _ _ Hf ((16 * (Z.of_nat (length fs) + 2) / 512 + 1) * 512 / 512 - 1) ltac:(dlia)) as Hm.
    rewrite (proj2 (Z.ltb_ge _ _)) in Hm by (rewrite Hl; unfold blocks; dlia). exact Hm.
  - intros Hmod. eapply fok_file_inv; [exact Hf|done|lia|lia| |by rewrite Ht]. rewrite Hs. rewrite Hl. unfold blocks. dlia.
  - intros k f Hk i. assert (Hk' : ((T_DIR, root fs) :: files fs) !! S k = Some (T_FILE, content f)) by (change (files fs !! k = Some (T_FILE, content f)); unfold files; by rewrite list_lookup_fmap, Hk).
    destruct (finished_file (S k) _ _ Hk') as (Hf' & Ht' & Hn' & Hs' & _). cbn [Nat.eqb] in Hs'. pose proof (lookup_lt_Some _ _ _ Hk) as Hlt.
    replace (Z.of_nat (S k) + 1) with (Z.of_nat k + 2) in * by lia. destruct (fo_nb _ _ _ _ _ Hf') as [Hc1 Hc2].
    split_and!; [|exact Ht'|exact Hn'|exact Hs'|].
    + eapply fok_file_inv; [exact Hf'|done|lia|lia| |by rewrite Ht']. rewrite Hs'. unfold len in Hc1 |- *. lia.
    + apply list_eq_same_length with (length (content f)); [done|apply tab_length|]. intros j x y Hj Hx Hy.
      rewrite lookup_tab in Hx by done. injection Hx as <-. unfold i. change (i_addrs (cached finished ?n)) with (i_addrs (D finished n)).
      rewrite (fo_bytes _ _ _ _ _ Hf') by lia. unfold byte_at. replace (Z.to_nat (0 + Z.of_nat j)) with j by lia. by rewrite Hy.
  - intros n n' m Hr Hr' Ho Ho'. destruct (Hown n m Hr Ho) as (k & f & -> & Hk & Hok). destruct (Hown n' m Hr' Ho') as (k' & f' & -> & Hk' & Hok').
    by rewrite (mi_disj _ _ M1 k k' f f' m Hk Hk' Hok Hok').
  - intros n Hr. change (i_type (cached finished n)) with (i_type (D finished n)). rewrite finished_D, (proj2 (Z.eqb_neq _ _)) by lia.
    apply (mi_free _ _ M1). cbn [length]. unfold files. rewrite length_fmap. lia.
Qed.
End finish.

(** C13: given at most 198 files, with names without a slash, contents of at most
    71680 bytes each, and together small enough for the 1000 blocks of the
    image, mkfs ends normally and leaves an image the kernel can use: it mounts
    with an empty log, the super block describes the layout the kernel's
    theorems ask for, the bitmap marks exactly the blocks in use, the root
    directory has the entries ".", ".." and one for each file, in order, so that
    a lookup of a file's name finds its inode, each file's inode maps blocks of
    its own and reading it gives the contents of the host's file, and every
    other inode is free.  When the entries fill their blocks exactly, the
    rounding of the directory's size adds one block that is not mapped. *)
Theorem mkfs_image_ok fs s :
  Forall acceptable fs → (length fs <= 198)%nat → 59 + total ((T_DIR, root fs) :: files fs) <= 1000 →
  ∃ s', main fs s = Ret tt s' ∧ mkfs_ok fs s'.
Proof.
  intros Hfs Hn Hroom. destruct (main_body fs s Hfs Hn Hroom) as (s1 & s2 & M1 & M2 & E).
  exists (finished s1 s2). split; [exact E|]. by apply finished_ok.
Qed.

Definition ex_files : list hostfile := [HostFile [95; 97] [[104; 105; 10]]; HostFile [98] [replicate 512 7; [1; 2]]].

Lemma mkfs_image_ok_witness :
  59 + total ((T_DIR, root ex_files) :: files ex_files) = 63 ∧ ∃ s', main ex_files (Mk [] 0 0) = Ret tt s' ∧ mkfs_ok ex_files s'.
Proof.
  split; [vm_compute; reflexivity|]. apply mkfs_image_ok.
  - repeat constructor; cbn; unfold is_u8; try lia; vm_compute; done.
  - cbn. lia.
  - vm_compute. done.
Defined.
