(* ===== verification/Syscall.v ===== *)
(** * System call arguments: syscall.c

    A process passes its arguments on its user stack; the kernel fetches them
    with bounds checks against [proc->sz].  [u_mem] is the process's memory as
    the kernel sees it through the page table, an address without a byte is
    not mapped. *)

From S2P Require Import Prelude Param StringC Kalloc.

(** What the fetch functions look at: [proc->sz], [proc->tf->esp] and the
    user memory. *)
Record uctx := Uctx { u_sz : Z; u_esp : Z; u_mem : mem }.

(** The word at [a], as a bit pattern. *)
Definition fetch_word (m : mem) (a : Z) : option Z :=
  b0 ← m !! a; b1 ← m !! (a + 1); b2 ← m !! (a + 2); b3 ← m !! (a + 3);
  Some (le_val [b0; b1; b2; b3]).

(** Results: [None] is a page fault, [Some None] the error return. *)
Definition fetchint (addr : Z) (u : uctx) : option (option Z) :=
  if (u_sz u <=? addr) || (u_sz u <? u32 (addr + 4)) then Some None
  else v ← fetch_word (u_mem u) addr; Some (Some (i32 v)).

(** The scan of [fetchstr] from [s] with [n] bytes left before [ep]. *)
Fixpoint fetchstr_loop (n : nat) (s : Z) (m : mem) : option (option (list Z)) :=
  match n with
  | O => Some None
  | S n =>
      c ← m !! s;
      if c =? 0 then Some (Some [])
      else r ← fetchstr_loop n (s + 1) m; Some (option_map (cons c) r)
  end.
(** The string instead of its address and length. *)
Definition fetchstr (addr : Z) (u : uctx) : option (option (list Z)) :=
  if u_sz u <=? addr then Some None
  else fetchstr_loop (Z.to_nat (u_sz u - addr)) addr (u_mem u).

Definition argint (n : Z) (u : uctx) : option (option Z) := fetchint (u32 (u_esp u + 4 + 4 * n)) u.

Definition argptr (n size : Z) (u : uctx) : option (option Z) :=
  r ← argint n u;
  Some (match r with
        | None => None
        | Some i =>
            if (size <? 0) || (u_sz u <=? u32 i) || (u_sz u <? u32 (u32 i + size)) then None
            else Some (u32 i)
        end).

Definition argstr (n : Z) (u : uctx) : option (option (list Z)) :=
  r ← argint n u;
  match r with
  | None => Some None
  | Some addr => fetchstr (u32 addr) u
  end.

(** The entries of [syscalls], in order of their numbers from 1. *)
Inductive sysname :=
| SYS_fork | SYS_exit | SYS_wait | SYS_pipe | SYS_read | SYS_kill | SYS_exec | SYS_fstat | SYS_chdir | SYS_dup
| SYS_getpid | SYS_sbrk | SYS_sleep | SYS_uptime | SYS_open | SYS_write | SYS_mknod | SYS_unlink | SYS_link
| SYS_mkdir | SYS_close.

Definition syscalls : list sysname :=
  [SYS_fork; SYS_exit; SYS_wait; SYS_pipe; SYS_read; SYS_kill; SYS_exec; SYS_fstat; SYS_chdir; SYS_dup;
   SYS_getpid; SYS_sbrk; SYS_sleep; SYS_uptime; SYS_open; SYS_write; SYS_mknod; SYS_unlink; SYS_link;
   SYS_mkdir; SYS_close].

(** [syscall]: the number in eax chooses the handler [run], whose result goes
    back to eax; -1 for a number outside the table. *)
Definition syscall {S} (run : sysname → M S Z) (eax : Z) : M S Z :=
  let num := i32 eax in
  if (0 <? num) && (num <? 22) then
    match syscalls !! Z.to_nat (num - 1) with
    | Some f => r ← run f; mret (u32 r)
    | None => mret (u32 (-1))
    end
  else mret (u32 (-1)).

(** ** What the checks guarantee *)

(** User memory is what lies below [sz], and [sz] is below the kernel. *)
Definition user_ok (u : uctx) : Prop :=
  0 <= u_sz u <= KERNBASE ∧ is_u32 (u_esp u) ∧
  (∀ a, 0 <= a < u_sz u → ∃ c, u_mem u !! a = Some c ∧ is_u8 c).

Lemma fetch_word_ok u a :
  user_ok u → 0 <= a → a + 4 <= u_sz u → ∃ v, fetch_word (u_mem u) a = Some v ∧ is_u32 v.
Proof.
  intros (_ & _ & Hm) Ha Hs.
  destruct (Hm a ltac:(lia)) as (c0 & E0 & K0). destruct (Hm (a + 1) ltac:(lia)) as (c1 & E1 & K1).
  destruct (Hm (a + 2) ltac:(lia)) as (c2 & E2 & K2). destruct (Hm (a + 3) ltac:(lia)) as (c3 & E3 & K3).
  exists (le_val [c0; c1; c2; c3]). split.
  - unfold fetch_word. cbn. by rewrite E0, E1, E2, E3.
  - unfold is_u8, is_u32 in *. cbn [le_val]. lia.
Qed.

Lemma fetchint_safe u addr :
  user_ok u → is_u32 addr →
  (∃ v, fetchint addr u = Some (Some v) ∧ addr + 4 <= u_sz u ∧ -2147483648 <= v < 2147483648) ∨
  fetchint addr u = Some None ∧ u_sz u < addr + 4.
Proof.
  intros Hu Ha. pose proof Hu as (Hsz & _ & _). unfold KERNBASE in Hsz. unfold is_u32 in Ha. unfold fetchint.
  destruct (_ || _) eqn:E.
  - right. split; [done|]. apply orb_true_iff in E as [E|E]; [lia|]. unfold u32 in E. dlia.
  - left. apply orb_false_iff in E as [E1 E2]. assert (Hend : addr + 4 <= u_sz u) by (unfold u32 in E2; dlia).
    destruct (fetch_word_ok u addr Hu ltac:(lia) Hend) as (v & -> & Hv). exists (i32 v). cbn.
    split_and!; [done|done|unfold i32; dlia..].
Qed.

Lemma fetchstr_loop_safe u n s :
  user_ok u → 0 <= s → s + Z.of_nat n <= u_sz u →
  (∃ l, fetchstr_loop n s (u_mem u) = Some (Some l) ∧ (length l < n)%nat ∧ u_mem u !! (s + Z.of_nat (length l)) = Some 0 ∧
     ∀ k c, l !! k = Some c → u_mem u !! (s + Z.of_nat k) = Some c ∧ c ≠ 0) ∨
  fetchstr_loop n s (u_mem u) = Some None ∧ ∀ k, 0 <= k < Z.of_nat n → u_mem u !! (s + k) ≠ Some 0.
Proof.
  intros Hu. revert s. induction n as [|n IH]; intros s Hs Hn; cbn [fetchstr_loop].
  { right. split; [done|lia]. }
  destruct Hu as (? & ? & Hm). destruct (Hm s ltac:(lia)) as (c & Ec & _). rewrite Ec. cbn.
  destruct (c =? 0) eqn:E0.
  { left. exists []. apply Z.eqb_eq in E0. subst c. split_and!; [done|cbn; lia|by rewrite Z.add_0_r|done]. }
  destruct (IH (s + 1) ltac:(lia) ltac:(lia)) as [(l & -> & Hl & Hnul & Hk)|[-> Hno]].
  - left. exists (c :: l). cbn [option_map length]. split_and!; [done|lia| |].
    + rewrite <- Hnul. f_equal. lia.
    + intros [|k] c' Hc; cbn in Hc.
      * injection Hc as <-. rewrite Z.add_0_r. split; [done|lia].
      * destruct (Hk k c' Hc) as [E Hz]. split; [|done]. rewrite <- E. f_equal. lia.
  - right. split; [done|]. intros k Hk. destruct (decide (k = 0)) as [->|].
    + rewrite Z.add_0_r, Ec. intros [= ->]. done.
    + replace (s + k) with (s + 1 + (k - 1)) by lia. apply Hno. lia.
Qed.

(** C22: whatever stack pointer, argument words and size a process passes,
    fetching an argument never faults, and a pointer [argptr] accepts names
    [size] bytes that all lie in the process's own memory: the kernel never
    reads or writes kernel memory on behalf of a user pointer. *)
Theorem argptr_safe u n size :
  user_ok u → 0 <= n < 6 → -2147483648 <= size < 2147483648 →
  ∃ r, argptr n size u = Some r ∧
    match r with
    | Some p => 0 <= size ∧ 0 <= p ∧ p + size <= u_sz u ∧ ∀ k, 0 <= k < size → is_Some (u_mem u !! (p + k))
    | None => True
    end.
Proof.
  intros Hu Hn Hsize. unfold argptr, argint.
  destruct (fetchint_safe u (u32 (u_esp u + 4 + 4 * n)) Hu ltac:(apply u32_range)) as [(v & -> & _ & Hv)|[-> _]]; cbn.
  2:{ eexists. split; [done|done]. }
  eexists. split; [done|]. destruct (_ || _) eqn:E; [done|]. apply orb_false_iff in E as [E E3].
  apply orb_false_iff in E as [E1 E2]. pose proof Hu as (Hsz & _ & Hm). pose proof (u32_range v) as Hr.
  unfold KERNBASE in Hsz. rewrite (u32_id (u32 v + size)) in E3 by lia.
  split_and!; [lia..|]. intros k Hk. destruct (Hm (u32 v + k) ltac:(lia)) as (c & -> & _). done.
Qed.

Definition ex_user : uctx := Uctx 16 4 (list_to_map (imap (λ k c, (Z.of_nat k, c)) ([0; 0; 0; 0; 0; 0; 0; 0; 12; 0; 0; 0; 104; 105; 0; 0] : list Z))).

Lemma ex_user_ok : user_ok ex_user.
Proof.
  split_and!; [cbn; unfold KERNBASE; lia..|unfold is_u32; cbn; lia|].
  intros a Ha. cbn in Ha.
  assert (E : forallb (λ k, match u_mem ex_user !! Z.of_nat k with Some c => (0 <=? c) && (c <? 256) | None => false end) (seq 0 16) = true)
    by (vm_compute; reflexivity).
  rewrite forallb_forall in E. specialize (E (Z.to_nat a) ltac:(apply in_seq; lia)). rewrite Z2Nat.id in E by lia.
  destruct (u_mem ex_user !! a) as [c|]; [|done]. exists c. split; [done|]. unfold is_u8. lia.
Qed.

Lemma argptr_safe_witness :
  ∃ r, argptr 0 3 ex_user = Some r ∧
    match r with
    | Some p => 0 <= 3 ∧ 0 <= p ∧ p + 3 <= u_sz ex_user ∧ ∀ k, 0 <= k < 3 → is_Some (u_mem ex_user !! (p + k))
    | None => True
    end.
Proof. apply (argptr_safe ex_user 0 3 ex_user_ok); lia. Defined.

(** [argstr] never faults; it returns exactly the bytes from the argument
    address up to the first NUL when there is one below [sz], and fails
    otherwise. *)
Theorem argstr_correct u n :
  user_ok u → 0 <= n < 6 →
  ∃ r, argstr n u = Some r ∧
    match r with
    | Some l => ∃ v, argint n u = Some (Some v) ∧ u32 v + Z.of_nat (length l) < u_sz u ∧
        u_mem u !! (u32 v + Z.of_nat (length l)) = Some 0 ∧
        ∀ k c, l !! k = Some c → u_mem u !! (u32 v + Z.of_nat k) = Some c ∧ c ≠ 0
    | None => ∀ v, argint n u = Some (Some v) → ∀ a, u32 v <= a < u_sz u → u_mem u !! a ≠ Some 0
    end.
Proof.
  intros Hu Hn. unfold argstr. destruct (fetchint_safe u (u32 (u_esp u + 4 + 4 * n)) Hu ltac:(apply u32_range))
    as [(v & E & _ & Hv)|[E _]]; unfold argint; rewrite E; cbn.
  2:{ exists None. split; [done|]. done. }
  unfold fetchstr. pose proof (u32_range v) as Hr. destruct (u_sz u <=? u32 v) eqn:Eb.
  { exists None. split; [done|]. intros w [= <-] a Ha. lia. }
  destruct (fetchstr_loop_safe u (Z.to_nat (u_sz u - u32 v)) (u32 v) Hu ltac:(lia) ltac:(lia))
    as [(l & -> & Hl & Hnul & Hk)|[-> Hno]].
  - exists (Some l). split; [done|]. exists v. split_and!; [done|lia|done|done].
  - exists None. split; [done|]. intros w [= <-] a Ha. replace a with (u32 v + (a - u32 v)) by lia. apply Hno. lia.
Qed.

Lemma argstr_correct_witness :
  ∃ r, argstr 0 ex_user = Some r ∧
    match r with
    | Some l => ∃ v, argint 0 ex_user = Some (Some v) ∧ u32 v + Z.of_nat (length l) < u_sz ex_user ∧
        u_mem ex_user !! (u32 v + Z.of_nat (length l)) = Some 0 ∧
        ∀ k c, l !! k = Some c → u_mem ex_user !! (u32 v + Z.of_nat k) = Some c ∧ c ≠ 0
    | None => ∀ v, argint 0 ex_user = Some (Some v) → ∀ a, u32 v <= a < u_sz ex_user → u_mem ex_user !! a ≠ Some 0
    end.
Proof. apply (argstr_correct ex_user 0 ex_user_ok). lia. Defined.
