(* ===== verification/File.v ===== *)
(** * Files and their system calls: file.c, sysfile.c (and [pipealloc])

    One process's view: the open-file table, the file system below it, the
    pipes, the process's descriptors and current directory, and the user
    memory its arguments come from.  A call that would sleep on a pipe is a
    blocked outcome. *)

From S2P Require Import Pipe.
From S2P Require Import Prelude Param Bio Log Blocks Fs StringC Syscall.

(** [begin_op] and [end_op] of the log. *)
Class TxLayer (S : Type) := { tx_begin : M S unit; tx_end : M S unit }.

Inductive fdtype := FD_NONE | FD_PIPE | FD_INODE.

#[export] Instance fdtype_eq : EqDecision fdtype.
Proof. solve_decision. Defined.

Record file := File {
  f_type : fdtype;
  f_ref : Z;
  f_readable : bool;
  f_writable : bool;
  f_pipe : nat;
  f_ip : nat;
  f_off : Z;
}.

Definition set_f_type v f := File v (f_ref f) (f_readable f) (f_writable f) (f_pipe f) (f_ip f) (f_off f).
Definition set_f_ref v f := File (f_type f) v (f_readable f) (f_writable f) (f_pipe f) (f_ip f) (f_off f).
Definition set_f_off v f := File (f_type f) (f_ref f) (f_readable f) (f_writable f) (f_pipe f) (f_ip f) v.
(** The assignments of [pipealloc] and [sys_open] to a new file. *)
Definition as_pipe r w p f := File FD_PIPE (f_ref f) r w p (f_ip f) (f_off f).
Definition as_inode ip r w f := File FD_INODE (f_ref f) r w (f_pipe f) ip 0.

Definition file0 : file := File FD_NONE 0 false false 0 0 0.

(** [w_pages] are the pages [kalloc] has left; a pipe is the index of its
    page, [None] once it is freed. *)
Record world (S : Type) := World {
  w_fs : fsst S;
  ftable : list file;
  w_pipes : list (option Pipe.pipe);
  w_pages : list (list Z);
  w_ofile : list (option nat);
  w_cwd : nat;
  w_killed : bool;
  w_user : uctx;
}.
Arguments World {S} w_fs ftable w_pipes w_pages w_ofile w_cwd w_killed w_user.
Arguments w_fs {S} w.
Arguments ftable {S} w.
Arguments w_pipes {S} w.
Arguments w_pages {S} w.
Arguments w_ofile {S} w.
Arguments w_cwd {S} w.
Arguments w_killed {S} w.
Arguments w_user {S} w.

Definition O_RDONLY : Z := 0x000.
Definition O_WRONLY : Z := 0x001.
Definition O_RDWR : Z := 0x002.
Definition O_CREATE : Z := 0x200.

Section file.
Context {S : Type} `{BlockLayer S, TxLayer S}.
Abbreviation F := (M (fsst S)).
Context (devsw_read : Z → option (nat → Z → F (Z * list Z))).
Context (devsw_write : Z → option (nat → list Z → F Z)).
Abbreviation K := (M (world S)).

Definition liftfs {A} (m : F A) : K A :=
  λ w, match m (w_fs w) with
       | Ret a s => Ret a (World s (ftable w) (w_pipes w) (w_pages w) (w_ofile w) (w_cwd w) (w_killed w) (w_user w))
       | Panic msg => Panic msg
       | Fault => Fault
       | Block => Block
       | Diverge => Diverge
       end.
Definition begin_op : K unit := liftfs (liftb tx_begin).
Definition end_op : K unit := liftfs (liftb tx_end).

Definition getf (f : nat) : K file :=
  λ w, match ftable w !! f with Some x => Ret x w | None => Fault end.
Definition setf (f : nat) (g : file → file) : K unit :=
  modify (λ w, World (w_fs w) (alter g f (ftable w)) (w_pipes w) (w_pages w) (w_ofile w) (w_cwd w) (w_killed w) (w_user w)).
Definition set_pipes (v : list (option Pipe.pipe)) : K unit :=
  modify (λ w, World (w_fs w) (ftable w) v (w_pages w) (w_ofile w) (w_cwd w) (w_killed w) (w_user w)).
Definition set_pages (v : list (list Z)) : K unit :=
  modify (λ w, World (w_fs w) (ftable w) (w_pipes w) v (w_ofile w) (w_cwd w) (w_killed w) (w_user w)).
Definition set_ofile (g : list (option nat) → list (option nat)) : K unit :=
  modify (λ w, World (w_fs w) (ftable w) (w_pipes w) (w_pages w) (g (w_ofile w)) (w_cwd w) (w_killed w) (w_user w)).
Definition set_cwd (ip : nat) : K unit :=
  modify (λ w, World (w_fs w) (ftable w) (w_pipes w) (w_pages w) (w_ofile w) ip (w_killed w) (w_user w)).

(** ** file.c *)

(** The first entry with no reference. *)
Fixpoint find_file (l : list file) (i : nat) : option nat :=
  match l with
  | [] => None
  | f :: l => if f_ref f =? 0 then Some i else find_file l (Datatypes.S i)
  end.

Definition filealloc : K (option nat) :=
  l ← gets ftable;
  match find_file l 0 with
  | Some f => setf f (set_f_ref 1) ;; mret (Some f)
  | None => mret None
  end.

Definition filedup (f : nat) : K nat :=
  x ← getf f;
  if f_ref x <? 1 then panic "filedup" else
  setf f (set_f_ref (f_ref x + 1)) ;;
  mret f.

Definition getpipe (p : nat) : K Pipe.pipe :=
  l ← gets w_pipes;
  match l !! p with Some (Some x) => mret x | _ => fault end.
Definition setpipe (p : nat) (x : option Pipe.pipe) : K unit :=
  l ← gets w_pipes;
  set_pipes (<[p := x]> l).

(** [pipeclose] with the [kfree] of a pipe closed at both ends. *)
Definition pipe_close (p : nat) (writable : bool) : K unit :=
  x ← getpipe p;
  let '(x, freed) := Pipe.pipeclose writable x in
  if freed then
    l ← gets w_pages;
    setpipe p None ;;
    set_pages (Pipe.data x :: l)
  else setpipe p (Some x).

Definition fileclose (f : nat) : K unit :=
  x ← getf f;
  if f_ref x <? 1 then panic "fileclose" else
  setf f (set_f_ref (f_ref x - 1)) ;;
  if 0 <? f_ref x - 1 then mret tt else
  setf f (λ y, set_f_type FD_NONE (set_f_ref 0 y)) ;;
  match f_type x with
  | FD_PIPE => pipe_close (f_pipe x) (f_writable x)
  | FD_INODE => begin_op ;; liftfs (iput (f_ip x)) ;; end_op
  | FD_NONE => mret tt
  end.

Definition filestat (f : nat) : K (option stat) :=
  x ← getf f;
  match f_type x with
  | FD_INODE =>
      liftfs (ilock (f_ip x)) ;;
      st ← liftfs (stati (f_ip x));
      liftfs (iunlock (f_ip x)) ;;
      mret (Some st)
  | _ => mret None
  end.

(** The result and the bytes stored at [addr]. *)
Definition fileread (f : nat) (n : Z) : K (Z * list Z) :=
  x ← getf f;
  if negb (f_readable x) then mret (-1, []) else
  match f_type x with
  | FD_PIPE =>
      p ← getpipe (f_pipe x);
      killed ← gets w_killed;
      match Pipe.piperead killed (Z.to_nat n) p with
      | Pipe.RDone got p => setpipe (f_pipe x) (Some p) ;; mret (Z.of_nat (length got), got)
      | Pipe.RErr p => setpipe (f_pipe x) (Some p) ;; mret (-1, [])
      | Pipe.RSleep _ => wait_forever
      end
  | FD_INODE =>
      liftfs (ilock (f_ip x)) ;;
      x ← getf f;
      r ← liftfs (readi devsw_read (f_ip x) (f_off x) (u32 n));
      (if 0 <? r.1 then setf f (λ y, set_f_off (u32 (f_off y + r.1)) y) else mret tt) ;;
      liftfs (iunlock (f_ip x)) ;;
      mret r
  | FD_NONE => panic "fileread"
  end.

Definition write_max : Z := Z.quot (MAXOPBLOCKS - 1 - 1 - 2) 2 * 512.

(** One pass of the loop of [filewrite]: a chunk in its own transaction. *)
Definition write_chunk (f : nat) (chunk : list Z) : K Z :=
  begin_op ;;
  x ← getf f;
  liftfs (ilock (f_ip x)) ;;
  x ← getf f;
  r ← liftfs (writei devsw_write (f_ip x) chunk (f_off x));
  (if 0 <? r then setf f (λ y, set_f_off (u32 (f_off y + r)) y) else mret tt) ;;
  liftfs (iunlock (f_ip x)) ;;
  end_op ;;
  mret r.

(** The loop over [addr], [i] bytes of which are written. *)
Fixpoint filewrite_loop (fuel : nat) (f : nat) (addr : list Z) (i : Z) : K Z :=
  let n := Z.of_nat (length addr) in
  if i <? n then
    match fuel with
    | O => diverge
    | Datatypes.S fuel =>
        let n1 := n - i in
        let n1 := if write_max <? n1 then write_max else n1 in
        r ← write_chunk f (slice (Z.to_nat i) (Z.to_nat n1) addr);
        if r <? 0 then mret i else
        if negb (r =? n1) then panic "short filewrite" else
        filewrite_loop fuel f addr (i + r)
    end
  else mret i.

Definition filewrite (f : nat) (addr : list Z) : K Z :=
  let n := Z.of_nat (length addr) in
  x ← getf f;
  if negb (f_writable x) then mret (-1) else
  match f_type x with
  | FD_PIPE =>
      p ← getpipe (f_pipe x);
      killed ← gets w_killed;
      match Pipe.pipewrite killed addr p with
      | Pipe.WDone p => setpipe (f_pipe x) (Some p) ;; mret n
      | Pipe.WErr _ p => setpipe (f_pipe x) (Some p) ;; mret (-1)
      | Pipe.WSleep _ _ => wait_forever
      end
  | FD_INODE =>
      i ← filewrite_loop (length addr) f addr 0;
      mret (if i =? n then n else -1)
  | FD_NONE => panic "filewrite"
  end.

(** pipe.c: two files on a new pipe. *)
Definition pipealloc : K (option (nat * nat)) :=
  f0 ← filealloc;
  match f0 with
  | None => mret None
  | Some f0 =>
      f1 ← filealloc;
      match f1 with
      | None => fileclose f0 ;; mret None
      | Some f1 =>
          pages ← gets w_pages;
          match pages with
          | [] => fileclose f0 ;; fileclose f1 ;; mret None
          | page :: pages =>
              set_pages pages ;;
              l ← gets w_pipes;
              set_pipes (l ++ [Some (Pipe.pipe_init page)]) ;;
              setf f0 (as_pipe true false (length l)) ;;
              setf f1 (as_pipe false true (length l)) ;;
              mret (Some (f0, f1))
          end
      end
  end.

(** ** sysfile.c *)

(** Fetch an argument; a page fault is a fault of the kernel. *)
Definition arg {A} (g : uctx → option (option A)) : K (option A) :=
  u ← gets w_user;
  of_option (g u).

Definition argfd (n : Z) : K (option (nat * nat)) :=
  r ← arg (argint n);
  l ← gets w_ofile;
  mret (match r with
        | Some fd =>
            if (fd <? 0) || (Z.of_nat NOFILE <=? fd) then None
            else match l !! Z.to_nat fd with Some (Some f) => Some (Z.to_nat fd, f) | _ => None end
        | None => None
        end).

(** The first descriptor not in use. *)
Fixpoint find_fd (l : list (option nat)) (i : nat) : option nat :=
  match l with
  | [] => None
  | o :: l => match o with None => Some i | Some _ => find_fd l (Datatypes.S i) end
  end.

Definition fdalloc (f : nat) : K (option nat) :=
  l ← gets w_ofile;
  match find_fd l 0 with
  | Some fd => set_ofile (<[fd := Some f]>) ;; mret (Some fd)
  | None => mret None
  end.

Definition sys_dup : K Z :=
  r ← argfd 0;
  match r with
  | None => mret (-1)
  | Some (_, f) =>
      fd ← fdalloc f;
      match fd with
      | None => mret (-1)
      | Some fd => filedup f ;; mret (Z.of_nat fd)
      end
  end.

(** Store bytes at a user address the checks have accepted. *)
Fixpoint put_bytes (a : Z) (l : list Z) (m : mem) : mem :=
  match l with
  | [] => m
  | c :: l => put_bytes (a + 1) l (<[a := c]> m)
  end.
Definition copy_to_user (p : Z) (l : list Z) : K unit :=
  modify (λ w, World (w_fs w) (ftable w) (w_pipes w) (w_pages w) (w_ofile w) (w_cwd w) (w_killed w)
    (Uctx (u_sz (w_user w)) (u_esp (w_user w)) (put_bytes p l (u_mem (w_user w))))).
(** The [n] bytes at a user address. *)
Fixpoint get_bytes (n : nat) (a : Z) (m : mem) : option (list Z) :=
  match n with
  | O => Some []
  | Datatypes.S n => c ← m !! a; l ← get_bytes n (a + 1) m; Some (c :: l)
  end.

Definition sys_read : K Z :=
  r ← argfd 0;
  match r with
  | None => mret (-1)
  | Some (_, f) =>
      n ← arg (argint 2);
      match n with
      | None => mret (-1)
      | Some n =>
          p ← arg (argptr 1 n);
          match p with
          | None => mret (-1)
          | Some p => r ← fileread f n; copy_to_user p r.2 ;; mret r.1
          end
      end
  end.

Definition sys_write : K Z :=
  r ← argfd 0;
  match r with
  | None => mret (-1)
  | Some (_, f) =>
      n ← arg (argint 2);
      match n with
      | None => mret (-1)
      | Some n =>
          p ← arg (argptr 1 n);
          match p with
          | None => mret (-1)
          | Some p =>
              u ← gets w_user;
              l ← of_option (get_bytes (Z.to_nat n) p (u_mem u));
              filewrite f l
          end
      end
  end.

Definition sys_close : K Z :=
  r ← argfd 0;
  match r with
  | None => mret (-1)
  | Some (fd, f) =>
      set_ofile (<[fd := None]>) ;;
      fileclose f ;;
      mret 0
  end.

(** [struct stat] as the compiler lays it out: [type] is padded to a word. *)
Definition stat_bytes (st : stat) : list Z :=
  le_bytes 2 (st_type st) ++ [0; 0] ++ le_bytes 4 (st_dev st) ++ le_bytes 4 (st_ino st) ++
  le_bytes 2 (st_nlink st) ++ [0; 0] ++ le_bytes 4 (st_size st).

Definition sys_fstat : K Z :=
  r ← argfd 0;
  match r with
  | None => mret (-1)
  | Some (_, f) =>
      p ← arg (argptr 1 20);
      match p with
      | None => mret (-1)
      | Some p =>
          st ← filestat f;
          match st with
          | Some st => copy_to_user p (stat_bytes st) ;; mret 0
          | None => mret (-1)
          end
      end
  end.

(** [ip->nlink++] and [ip->nlink--] on a short. *)
Definition add_nlink (d : Z) (i : inode) : inode := set_i_nlink (i16 (i_nlink i + d)) i.

(** The label [bad] of [sys_link]. *)
Definition link_bad (ip : nat) : K Z :=
  liftfs (ilock ip) ;;
  liftfs (seti ip (add_nlink (-1))) ;;
  liftfs (iupdate ip) ;;
  liftfs (iunlockput ip) ;;
  end_op ;;
  mret (-1).

Definition sys_link : K Z :=
  old ← arg (argstr 0);
  match old with
  | None => mret (-1)
  | Some old =>
      new ← arg (argstr 1);
      match new with
      | None => mret (-1)
      | Some new =>
          begin_op ;;
          cwd ← gets w_cwd;
          r ← liftfs (namei devsw_read cwd old);
          match r with
          | None => end_op ;; mret (-1)
          | Some ip =>
              liftfs (ilock ip) ;;
              i ← liftfs (geti ip);
              if i_type i =? T_DIR then liftfs (iunlockput ip) ;; end_op ;; mret (-1) else
              liftfs (seti ip (add_nlink 1)) ;;
              liftfs (iupdate ip) ;;
              liftfs (iunlock ip) ;;
              r ← liftfs (nameiparent devsw_read cwd new);
              match r with
              | None => link_bad ip
              | Some (dp, name) =>
                  liftfs (ilock dp) ;;
                  d ← liftfs (geti dp);
                  i ← liftfs (geti ip);
                  r ← (if negb (i_dev d =? i_dev i) then mret (-1)
                       else liftfs (dirlink devsw_read devsw_write dp name (i_inum i)));
                  if r <? 0 then liftfs (iunlockput dp) ;; link_bad ip else
                  liftfs (iunlockput dp) ;;
                  liftfs (iput ip) ;;
                  end_op ;;
                  mret 0
              end
          end
      end
  end.

(** The loop of [isdirempty] from [off] on. *)
Fixpoint isdirempty_loop (n : nat) (dp : nat) (off : Z) : F bool :=
  match n with
  | O => mret true
  | Datatypes.S n =>
      r ← readi devsw_read dp off sizeof_dirent;
      let '(k, de) := r in
      if negb (k =? sizeof_dirent) then panic "isdirempty: readi" else
      if negb (de_inum de =? 0) then mret false else isdirempty_loop n dp (off + sizeof_dirent)
  end.
Definition isdirempty (dp : nat) : F bool :=
  i ← geti dp;
  isdirempty_loop (dirents (i_size i) - 2) dp (2 * sizeof_dirent).

(** The label [bad] of [sys_unlink]. *)
Definition unlink_bad (dp : nat) : K Z := liftfs (iunlockput dp) ;; end_op ;; mret (-1).

Definition sys_unlink : K Z :=
  path ← arg (argstr 0);
  match path with
  | None => mret (-1)
  | Some path =>
      begin_op ;;
      cwd ← gets w_cwd;
      r ← liftfs (nameiparent devsw_read cwd path);
      match r with
      | None => end_op ;; mret (-1)
      | Some (dp, name) =>
          liftfs (ilock dp) ;;
          if (namecmp name [46] =? 0) || (namecmp name [46; 46] =? 0) then unlink_bad dp else
          r ← liftfs (dirlookup devsw_read dp name);
          match r with
          | None => unlink_bad dp
          | Some (ip, off) =>
              liftfs (ilock ip) ;;
              i ← liftfs (geti ip);
              if i_nlink i <? 1 then panic "unlink: nlink < 1" else
              full ← (if i_type i =? T_DIR then e ← liftfs (isdirempty ip); mret (negb e) else mret false);
              if full : bool then liftfs (iunlockput ip) ;; unlink_bad dp else
              k ← liftfs (writei devsw_write dp (replicate (Z.to_nat sizeof_dirent) 0) off);
              if negb (k =? sizeof_dirent) then panic "unlink: writei" else
              (if i_type i =? T_DIR then
                 liftfs (seti dp (add_nlink (-1))) ;; liftfs (iupdate dp)
               else mret tt) ;;
              liftfs (iunlockput dp) ;;
              liftfs (seti ip (add_nlink (-1))) ;;
              liftfs (iupdate ip) ;;
              liftfs (iunlockput ip) ;;
              end_op ;;
              mret 0
          end
      end
  end.

Definition create (path : list Z) (type major minor : Z) : K (option nat) :=
  cwd ← gets w_cwd;
  r ← liftfs (nameiparent devsw_read cwd path);
  match r with
  | None => mret None
  | Some (dp, name) =>
      liftfs (ilock dp) ;;
      r ← liftfs (dirlookup devsw_read dp name);
      match r with
      | Some (ip, _) =>
          liftfs (iunlockput dp) ;;
          liftfs (ilock ip) ;;
          i ← liftfs (geti ip);
          if (type =? T_FILE) && (i_type i =? T_FILE) then mret (Some ip) else
          liftfs (iunlockput ip) ;;
          mret None
      | None =>
          d ← liftfs (geti dp);
          ip ← liftfs (ialloc (i_dev d) type);
          liftfs (ilock ip) ;;
          liftfs (seti ip (λ i, set_i_nlink 1 (set_i_minor minor (set_i_major major i)))) ;;
          liftfs (iupdate ip) ;;
          i ← liftfs (geti ip);
          (if type =? T_DIR then
             liftfs (seti dp (add_nlink 1)) ;;
             liftfs (iupdate dp) ;;
             r ← liftfs (dirlink devsw_read devsw_write ip [46] (i_inum i));
             if r <? 0 then panic "create dots" else
             r ← liftfs (dirlink devsw_read devsw_write ip [46; 46] (i_inum d));
             if r <? 0 then panic "create dots" else mret tt
           else mret tt) ;;
          r ← liftfs (dirlink devsw_read devsw_write dp name (i_inum i));
          if r <? 0 then panic "create: dirlink" else
          liftfs (iunlockput dp) ;;
          mret (Some ip)
      end
  end.

(** The second half of [sys_open]: a file and a descriptor for the locked
    inode [ip]. *)
Definition open_inode (ip : nat) (omode : Z) : K Z :=
  f ← filealloc;
  fd ← (match f with Some f => fdalloc f | None => mret None end);
  match f, fd with
  | Some f, Some fd =>
      liftfs (iunlock ip) ;;
      end_op ;;
      let wr := negb (Z.land omode O_WRONLY =? 0) in
      setf f (as_inode ip (negb wr) (wr || negb (Z.land omode O_RDWR =? 0))) ;;
      mret (Z.of_nat fd)
  | _, _ =>
      (match f with Some f => fileclose f | None => mret tt end) ;;
      liftfs (iunlockput ip) ;;
      end_op ;;
      mret (-1)
  end.

Definition sys_open : K Z :=
  path ← arg (argstr 0);
  match path with
  | None => mret (-1)
  | Some path =>
      omode ← arg (argint 1);
      match omode with
      | None => mret (-1)
      | Some omode =>
          begin_op ;;
          if negb (Z.land omode O_CREATE =? 0) then
            ip ← create path T_FILE 0 0;
            match ip with
            | None => end_op ;; mret (-1)
            | Some ip => open_inode ip omode
            end
          else
            cwd ← gets w_cwd;
            ip ← liftfs (namei devsw_read cwd path);
            match ip with
            | None => end_op ;; mret (-1)
            | Some ip =>
                liftfs (ilock ip) ;;
                i ← liftfs (geti ip);
                if (i_type i =? T_DIR) && negb (omode =? O_RDONLY) then
                  liftfs (iunlockput ip) ;; end_op ;; mret (-1)
                else open_inode ip omode
            end
      end
  end.

Definition sys_mkdir : K Z :=
  begin_op ;;
  path ← arg (argstr 0);
  ip ← (match path with Some path => create path T_DIR 0 0 | None => mret None end);
  match ip with
  | None => end_op ;; mret (-1)
  | Some ip => liftfs (iunlockput ip) ;; end_op ;; mret 0
  end.

Definition sys_mknod : K Z :=
  begin_op ;;
  path ← arg (argstr 0);
  major ← (match path with Some _ => arg (argint 1) | None => mret None end);
  minor ← (match major with Some _ => arg (argint 2) | None => mret None end);
  ip ← (match path, major, minor with
        | Some path, Some major, Some minor => create path T_DEV (i16 major) (i16 minor)
        | _, _, _ => mret None
        end);
  match ip with
  | None => end_op ;; mret (-1)
  | Some ip => liftfs (iunlockput ip) ;; end_op ;; mret 0
  end.

Definition sys_chdir : K Z :=
  begin_op ;;
  path ← arg (argstr 0);
  cwd ← gets w_cwd;
  ip ← (match path with Some path => liftfs (namei devsw_read cwd path) | None => mret None end);
  match ip with
  | None => end_op ;; mret (-1)
  | Some ip =>
      liftfs (ilock ip) ;;
      i ← liftfs (geti ip);
      if negb (i_type i =? T_DIR) then liftfs (iunlockput ip) ;; end_op ;; mret (-1) else
      liftfs (iunlock ip) ;;
      liftfs (iput cwd) ;;
      end_op ;;
      set_cwd ip ;;
      mret 0
  end.

Definition sys_pipe : K Z :=
  p ← arg (argptr 0 8);
  match p with
  | None => mret (-1)
  | Some p =>
      r ← pipealloc;
      match r with
      | None => mret (-1)
      | Some (rf, wf) =>
          fd0 ← fdalloc rf;
          fd1 ← (match fd0 with Some _ => fdalloc wf | None => mret None end);
          match fd0, fd1 with
          | Some fd0, Some fd1 =>
              copy_to_user p (le_bytes 4 (Z.of_nat fd0)) ;;
              copy_to_user (p + 4) (le_bytes 4 (Z.of_nat fd1)) ;;
              mret 0
          | _, _ =>
              (match fd0 with Some fd0 => set_ofile (<[fd0 := None]>) | None => mret tt end) ;;
              fileclose rf ;;
              fileclose wf ;;
              mret (-1)
          end
      end
  end.
End file.
