(* ===== verification/FileInv.v ===== *)
(** * What file.c guarantees

    References to open files are counted exactly, and a chunk of [filewrite]
    fits the log space its transaction has reserved. *)

From S2P Require Import Pipe.
From S2P Require Import Prelude Param Bio Log Blocks Txn Fs FsBlocks FsFile FsInode FsExample StringC Syscall File.

(** ** Reference counts *)

Definition count (f : nat) (h : list nat) : Z := Z.of_nat (length (filter (λ g, g = f) h)).

(** [h] without one occurrence of [f]. *)
Fixpoint remove1 (f : nat) (h : list nat) : list nat :=
  match h with
  | [] => []
  | g :: h => if decide (g = f) then h else g :: remove1 f h
  end.

Lemma count_cons f g h : count f (g :: h) = (if decide (g = f) then 1 else 0) + count f h.
Proof. unfold count. rewrite filter_cons. case_decide; cbn [length]; lia. Qed.

Lemma count_remove1 f g h : f ∈ h → count g (remove1 f h) = count g h - if decide (f = g) then 1 else 0.
Proof.
  induction h as [|x h IH]; intros Hf; [by apply elem_of_nil in Hf|]. cbn [remove1].
  destruct (decide (x = f)) as [->|Hne]; rewrite ?count_cons.
  - lia.
  - apply elem_of_cons in Hf as [->|Hf]; [done|]. rewrite IH by done. lia.
Qed.

Lemma count_pos f h : f ∈ h → 1 <= count f h.
Proof.
  induction h as [|x h IH]; intros Hf; [by apply elem_of_nil in Hf|]. rewrite count_cons.
  apply elem_of_cons in Hf as [->|Hf].
  - rewrite decide_True by done. unfold count. lia.
  - specialize (IH Hf). destruct (decide (x = f)); lia.
Qed.

Lemma count_zero f h : count f h = 0 → f ∉ h.
Proof. intros Hz Hf. pose proof (count_pos f h Hf). lia. Qed.

Section refs.
Context {S : Type} `{BlockLayer S, TxLayer S}.
Implicit Types w : world S.

(** The table counts the references [h] that processes hold. *)
Definition refs_ok w (h : list nat) : Prop :=
  (∀ f x, ftable w !! f = Some x → f_ref x = count f h) ∧ (∀ f, f ∈ h → is_Some (ftable w !! f)).

(** Opening, sharing and closing a file, with the references held. *)
Inductive fstep : world S * list nat → world S * list nat → Prop :=
| f_alloc w w' h f : filealloc w = Ret (Some f) w' → fstep (w, h) (w', f :: h)
| f_dup w w' h f : f ∈ h → filedup f w = Ret f w' → fstep (w, h) (w', f :: h)
| f_close w w' h f : f ∈ h → fileclose f w = Ret tt w' → fstep (w, h) (w', remove1 f h)
| f_other w w' h : ftable w' = ftable w → fstep (w, h) (w', h).

Lemma find_file_Some l i f : find_file l i = Some f → ∃ k x, f = (i + k)%nat ∧ l !! k = Some x ∧ f_ref x = 0.
Proof.
  revert i. induction l as [|x l IH]; intros i; cbn [find_file]; [done|]. destruct (f_ref x =? 0) eqn:E.
  - intros [= <-]. exists 0%nat, x. split_and!; [lia|done|lia].
  - intros (k & y & -> & Hk & Hy)%IH. exists (Datatypes.S k), y. split; [lia|done].
Qed.

Lemma filealloc_run w f w' :
  filealloc w = Ret (Some f) w' →
  ∃ x, ftable w !! f = Some x ∧ f_ref x = 0 ∧ ftable w' = <[f := set_f_ref 1 x]> (ftable w).
Proof.
  unfold filealloc. intros Hrun. apply bind_inv in Hrun as (l & w0 & [= <- <-] & Hrun).
  destruct (find_file (ftable w) 0) as [g|] eqn:E; [|done].
  apply bind_inv in Hrun as (u & w1 & [= <- <-] & Hrun). injection Hrun as <- <-.
  destruct (find_file_Some _ _ _ E) as (k & x & Ek & Hx & Hz). cbn [Nat.add] in Ek. subst g. exists x. split_and!; [done|done|].
  cbn [ftable]. apply list_eq. intros j. destruct (decide (k = j)) as [<-|].
  - rewrite list_lookup_alter_eq, Hx, list_lookup_insert_eq; [done|]. by eapply lookup_lt_Some.
  - by rewrite list_lookup_alter_ne, list_lookup_insert_ne.
Qed.

(** Commands that leave the file table alone. *)
Definition keeps_table {A} (m : M (world S) A) : Prop := ∀ w a w', m w = Ret a w' → ftable w' = ftable w.

Lemma kt_ret {A} (a : A) : keeps_table (mret a).
Proof. by intros w b w' [= <- <-]. Qed.

Lemma kt_bind {A B} (m : M (world S) A) (g : A → M (world S) B) :
  keeps_table m → (∀ a, keeps_table (g a)) → keeps_table (m ≫= g).
Proof. intros Hm Hg w b w' Hrun. apply bind_inv in Hrun as (a & t & E & Hrun). rewrite (Hg a _ _ _ Hrun). by apply (Hm _ _ _ E). Qed.

Lemma kt_liftfs {A} (m : M (fsst S) A) : keeps_table (liftfs m).
Proof. intros w a w'. unfold liftfs. destruct (m (w_fs w)); [|done..]. by intros [= <- <-]. Qed.

Lemma kt_pipe_close p wr : keeps_table (pipe_close p wr : M (world S) unit).
Proof.
  unfold pipe_close. apply kt_bind.
  { unfold getpipe. apply kt_bind; [by intros w a w' [= <- <-]|]. intros l. destruct (l !! p) as [[x|]|]; [apply kt_ret|by intros w a w'..]. }
  intros x. destruct (pipeclose wr x) as [y freed]. destruct freed.
  - apply kt_bind; [by intros w a w' [= <- <-]|]. intros l. apply kt_bind; [|by intros u w a w' [= <- <-]].
    unfold setpipe. apply kt_bind; [by intros w a w' [= <- <-]|]. by intros q w a w' [= <- <-].
  - unfold setpipe. apply kt_bind; [by intros w a w' [= <- <-]|]. by intros q w a w' [= <- <-].
Qed.

(** [fileclose] drops one reference; the entry is recycled with the last. *)
Lemma fileclose_run w f w' :
  fileclose f w = Ret tt w' →
  ∃ x y, ftable w !! f = Some x ∧ ftable w' = <[f := y]> (ftable w) ∧ f_ref y = f_ref x - 1 ∧
    (f_ref y = 0 → f_type y = FD_NONE) ∧ (0 < f_ref y → y = set_f_ref (f_ref x - 1) x).
Proof.
  unfold fileclose. intros Hrun. apply bind_inv in Hrun as (x & w0 & E & Hrun). unfold getf in E.
  destruct (ftable w !! f) as [x'|] eqn:Hx; [|done]. injection E as -> <-. exists x.
  destruct (f_ref x <? 1) eqn:E1; [done|]. apply bind_inv in Hrun as (u & w1 & [= <- <-] & Hrun).
  destruct (0 <? f_ref x - 1) eqn:E2.
  - injection Hrun as <-. cbn [ftable]. rewrite (alter_insert _ _ _ _ Hx). eexists. split_and!; try done.
    cbn. intros. lia.
  - apply bind_inv in Hrun as (u2 & w2 & [= <- <-] & Hrun).
    assert (Ht : ftable w' = alter (λ y, set_f_type FD_NONE (set_f_ref 0 y)) f (alter (set_f_ref (f_ref x - 1)) f (ftable w))).
    { destruct (f_type x).
      - by injection Hrun as <-.
      - by apply (kt_pipe_close _ _ _ _ _ Hrun).
      - revert Hrun. apply kt_bind; [apply kt_liftfs|]. intros _. apply kt_bind; [apply kt_liftfs|]. intros _. apply kt_liftfs. }
    rewrite Ht, (alter_alter_insert _ _ _ _ _ Hx). eexists. split_and!; try done; cbn; lia.
Qed.

Lemma refs_insert w w' h h' f x y :
  refs_ok w h → ftable w !! f = Some x → ftable w' = <[f := y]> (ftable w) → f_ref y = count f h' →
  (∀ g, g ≠ f → count g h' = count g h) → (∀ g, g ∈ h' → g = f ∨ g ∈ h) → refs_ok w' h'.
Proof.
  intros [Hr Hs] Hx Ht Hy Hc Hin. pose proof (lookup_lt_Some _ _ _ Hx) as Hlt. split.
  - intros g z Hz. rewrite Ht, list_lookup_insert_case in Hz by done. destruct (decide (f = g)) as [<-|Hne].
    + by injection Hz as <-.
    + rewrite Hc by done. by apply Hr.
  - intros g Hg. rewrite Ht, list_lookup_insert_case by done. destruct (decide (f = g)) as [<-|Hne]; [done|].
    apply Hs. by destruct (Hin g Hg) as [->|].
Qed.

Lemma remove1_sub f g h : g ∈ remove1 f h → g ∈ h.
Proof.
  induction h as [|x h IH]; cbn [remove1]; [done|]. case_decide; rewrite ?elem_of_cons; tauto.
Qed.

Lemma fstep_ok c c' : fstep c c' → refs_ok c.1 c.2 → refs_ok c'.1 c'.2.
Proof.
  intros Hst Hok. destruct Hst as [w w' h f Hrun|w w' h f Hf Hrun|w w' h f Hf Hrun|w w' h Ht]; cbn [fst snd] in *.
  - destruct (filealloc_run _ _ _ Hrun) as (x & Hx & Hz & Ht). pose proof (proj1 Hok f x Hx) as Hc.
    eapply refs_insert; [exact Hok|exact Hx|exact Ht| | |].
    + rewrite count_cons, decide_True by done. cbn. lia.
    + intros g Hg. rewrite count_cons, decide_False by congruence. lia.
    + intros g. by rewrite elem_of_cons.
  - unfold filedup in Hrun. apply bind_inv in Hrun as (x & w0 & E & Hrun). unfold getf in E.
    destruct (ftable w !! f) as [x'|] eqn:Hx; [|done]. injection E as -> <-. pose proof (proj1 Hok f x Hx) as Hc.
    destruct (f_ref x <? 1); [done|]. apply bind_inv in Hrun as (u & w1 & [= <- <-] & Hrun). injection Hrun as <-.
    eapply refs_insert; [exact Hok|exact Hx|cbn [ftable]; by apply alter_insert| | |].
    + rewrite count_cons, decide_True by done. cbn. lia.
    + intros g Hg. rewrite count_cons, decide_False by congruence. lia.
    + intros g. by rewrite elem_of_cons.
  - destruct (fileclose_run _ _ _ Hrun) as (x & y & Hx & Ht & Hy & _). pose proof (proj1 Hok f x Hx) as Hc.
    eapply refs_insert; [exact Hok|exact Hx|exact Ht| | |].
    + rewrite count_remove1, decide_True by done. lia.
    + intros g Hg. rewrite count_remove1, decide_False by congruence. lia.
    + intros g Hg. right. by eapply remove1_sub.
  - destruct Hok as [Hr Hs]. split; rewrite Ht; done.
Qed.

Lemma fsteps_ok c c' : rtc fstep c c' → refs_ok c.1 c.2 → refs_ok c'.1 c'.2.
Proof. induction 1; eauto using fstep_ok. Qed.

(** C23: over any sequence of opening, sharing and closing files from an empty
    table, an entry's count is the number of references processes hold, so
    [filealloc] only ever returns an entry nobody holds, [filedup] and
    [fileclose] of a held file never panic, and closing one of several
    references leaves the file open for the others. *)
Theorem file_references_counted w0 w h f x :
  (∀ g y, ftable w0 !! g = Some y → f_ref y = 0) → rtc fstep (w0, []) (w, h) → ftable w !! f = Some x →
  f_ref x = count f h ∧
  (∀ w', filealloc w = Ret (Some f) w' → f ∉ h) ∧
  (f ∈ h → ∃ w', filedup f w = Ret f w') ∧
  (∀ w', f ∈ remove1 f h → fileclose f w = Ret tt w' → ftable w' = <[f := set_f_ref (f_ref x - 1) x]> (ftable w)).
Proof.
  intros H0' Hst Hx. assert (Hok : refs_ok w h).
  { apply (fsteps_ok _ _ Hst). split; cbn [fst snd]; [intros g y Hg; by rewrite (H0' g y Hg)|]. intros g Hg. by apply elem_of_nil in Hg. }
  pose proof (proj1 Hok f x Hx) as Hc. split_and!; [done|..].
  - intros w' Hrun. destruct (filealloc_run _ _ _ Hrun) as (y & Hy & Hz & _). rewrite Hx in Hy. injection Hy as <-.
    apply count_zero. lia.
  - intros Hf. pose proof (count_pos f h Hf). unfold filedup.
    rewrite (bind_Ret _ _ w x w) by (unfold getf; by rewrite Hx). rewrite (proj2 (Z.ltb_ge (f_ref x) 1)) by lia. eauto.
  - intros w' Hf Hrun. destruct (fileclose_run _ _ _ Hrun) as (y & z & Hy & Ht & Hz & _ & Hkeep). rewrite Hx in Hy. injection Hy as <-.
    rewrite Ht. f_equal. apply Hkeep. pose proof (count_pos f _ Hf) as Hp. rewrite count_remove1, decide_True in Hp; [lia|done|by eapply remove1_sub].
Qed.
End refs.

#[export] Instance log_tx {D} `{BlockDriver D} : TxLayer (lstate D) := {
  tx_begin := Log.begin_op;
  tx_end := Log.end_op;
}.

(** A world with two free entries. *)
Definition ex_world : world (lstate Memide.memide) :=
  World (Fs (LState log0 (BState [] ex_disk 0)) ex_sb [ex_inode] 0) [file0; file0] [] [] (replicate NOFILE None) 0 false ex_user.

Definition ex_world1 : world (lstate Memide.memide) :=
  World (w_fs ex_world) [set_f_ref 1 file0; file0] [] [] (replicate NOFILE None) 0 false ex_user.

Lemma file_references_counted_witness :
  filealloc ex_world = Ret (Some 0%nat) ex_world1 ∧
  ∃ w', filedup 0 ex_world1 = Ret 0%nat w'.
Proof.
  split; [reflexivity|].
  destruct (file_references_counted ex_world ex_world1 [0%nat] 0 (set_f_ref 1 file0)) as (_ & _ & Hd & _).
  - intros [|[|g]] y Hy; [by injection Hy as <-..|done].
  - eapply rtc_l; [|apply rtc_refl]. apply f_alloc. reflexivity.
  - reflexivity.
  - apply Hd. by left.
Defined.

(** ** A chunk of [filewrite] and its reservation *)

Section chunk.
Context {S : Type} `{BlockLayerOk S}.
Context (V : Z → Prop) (b : superblock).
Context (V_u32 : ∀ n, V n → is_u32 n) (Hlay : layout V b).
Implicit Types s : fsst S.

(** C24: one pass of [filewrite]'s loop, at most [write_max] = 1536 bytes at
    any offset of the file, logs at most seven blocks in its transaction (four
    of data, the bitmap, the inode and the indirect block): within the
    MAXOPBLOCKS that [begin_op] reserved, on a disk with one bitmap block. *)
Theorem filewrite_chunk_fits devsw_write W ic s ip i off chunk :
  sb_size b <= BPB →
  st V 10 W ∅ [] b ic s → ic !! ip = Some i → file_inv V b W i → bytes_ok chunk →
  Z.of_nat (length chunk) <= write_max → 0 <= off <= i_size i → off + Z.of_nat (length chunk) <= MAXFILE * BSIZE →
  bitmap_ok V b W → has_free b W 8 →
  wp (writei devsw_write ip chunk off) (λ r s', r = Z.of_nat (length chunk) ∧
    ∃ W' i' L', st V 10 W' ∅ L' b (<[ip := i']> ic) s' ∧ written V b W i W' i' off chunk ∧
      Z.of_nat (length L') <= 7 ∧ 7 <= MAXOPBLOCKS) s.
Proof.
  intros Hsz Hs Hi Hf Hc Hlen Hoff Hend Hbm Hfree. change write_max with 1536 in Hlen. change (MAXFILE * BSIZE) with 71680 in Hend.
  pose proof (lay_start _ _ Hlay) as Hst. change BPB with 4096 in Hsz.
  assert (Ht : 0 <= touched off (Z.of_nat (length chunk)) <= 4) by (unfold touched; dlia).
  set (T := [BBLOCK 0 b; IBLOCK (i_inum i) b]).
  assert (HT : has_bitmap b T).
  { intros k Hk. apply elem_of_cons. left. destruct Hst as (H1 & _ & H3). pose proof (lay_small _ _ Hlay).
    unfold BBLOCK. change BPB with 4096. f_equal. f_equal. dlia. }
  eapply (writei_spec V 10 b V_u32 ltac:(apply Nat.leb_le; reflexivity) Hlay devsw_write W [] T);
    [exact Hs|exact Hi|exact Hf|exact Hc| |right; left|cbn [length T]; lia|exact Hoff|exact Hend|].
  { split; [exact (fi_file _ _ _ _ Hf)|exact Hbm| |exact HT|].
    - split; [constructor|]. intros n Hn. by apply elem_of_nil in Hn.
    - eapply has_free_le; [|exact Hfree]. lia. }
  intros W' i' L' T' s' Hs' Hw Hr HT'. split; [done|]. exists W', i', L'. split_and!; [exact Hs'|exact Hw| |unfold MAXOPBLOCKS; lia].
  pose proof (fits_length _ _ (r_fits _ _ _ _ _ _ _ Hr)). pose proof (with_ind_length (i_addrs i') T').
  cbn [length T] in HT'. lia.
Qed.
End chunk.

Lemma filewrite_chunk_fits_witness :
  ∃ W (s : fsst (lstate Memide.memide)), st ex_V 10 W ∅ [] ex_sb [ex_inode] s ∧
    wp (writei (λ _, None) 0 hello 0) (λ r s', r = Z.of_nat (length hello) ∧ ∃ W' i' L', st ex_V 10 W' ∅ L' ex_sb [i'] s' ∧
      written ex_V ex_sb W ex_inode W' i' 0 hello ∧ Z.of_nat (length L') <= 7 ∧ 7 <= MAXOPBLOCKS) s.
Proof.
  destruct (ex_state [ex_inode]) as (W & s & HW & Hs). exists W, s. split; [exact Hs|].
  exact (filewrite_chunk_fits ex_V ex_sb ex_V_u32 ex_layout (λ _, None) W [ex_inode] s 0 ex_inode 0 hello
    ltac:(vm_compute; discriminate) Hs eq_refl (ex_file_inv W HW) hello_ok ltac:(vm_compute; discriminate) ltac:(cbn; lia)
    ltac:(vm_compute; discriminate) (ex_bitmap W HW) (r_free _ _ _ _ _ _ _ (ex_ready W 8 HW ltac:(lia)))).
Defined.
