(* ===== verification/Exec.v ===== *)
(** * Loading a program: exec.c, [loaduvm] of vm.c and [sys_exec] of sysfile.c

    [exec] works on the page allocator and page tables, the file system and
    the calling process at once.  The argument strings and the local array
    [ustack] are at addresses of the memory the kernel sees. *)

From S2P Require Import Prelude Param StringC Kalloc Vm Proc Bio Log Blocks Txn Fs FsExample Syscall File FileInv.

(** [x_cr3] is the page directory register of the processor. *)
Record xst (S : Type) := X { x_km : kmem; x_fs : fsst S; x_proc : proc; x_cr3 : Z }.
Arguments X {S} x_km x_fs x_proc x_cr3.
Arguments x_cr3 {S} x.
Arguments x_km {S} x.
Arguments x_fs {S} x.
Arguments x_proc {S} x.

(** Fields of [struct elfhdr] and [struct proghdr]. *)
Definition ELF_MAGIC : Z := 0x464C457F.
Definition ELF_PROG_LOAD : Z := 1.
Definition sizeof_elfhdr : Z := 52.
Definition sizeof_proghdr : Z := 32.

Record elfhdr := Elfhdr { e_magic : Z; e_entry : Z; e_phoff : Z; e_phnum : Z }.
Definition elfhdr_of (d : list Z) : elfhdr := Elfhdr (get_le 0 4 d) (get_le 24 4 d) (get_le 28 4 d) (get_le 44 2 d).
Record proghdr := Proghdr { ph_type : Z; ph_off : Z; ph_vaddr : Z; ph_filesz : Z; ph_memsz : Z }.
Definition proghdr_of (d : list Z) : proghdr :=
  Proghdr (get_le 0 4 d) (get_le 4 4 d) (get_le 8 4 d) (get_le 16 4 d) (get_le 20 4 d).

Section exec.
Context (end_ data_ : Z) (gpu : gpu_info).
(** More than the length of any argument string (they end below [sz]). *)
Context (strmax : nat).
Context {S : Type} `{BlockLayer S, TxLayer S}.
Context (devsw_read : Z → option (nat → Z → M (fsst S) (Z * list Z))).
Abbreviation E := (M (xst S)).

Definition xlift_km {A} (m : M kmem A) : E A :=
  λ s, match m (x_km s) with
       | Ret a k => Ret a (X k (x_fs s) (x_proc s) (x_cr3 s))
       | Panic msg => Panic msg
       | Fault => Fault
       | Block => Block
       | Diverge => Diverge
       end.
Definition xlift_fs {A} (m : M (fsst S) A) : E A :=
  λ s, match m (x_fs s) with
       | Ret a f => Ret a (X (x_km s) f (x_proc s) (x_cr3 s))
       | Panic msg => Panic msg
       | Fault => Fault
       | Block => Block
       | Diverge => Diverge
       end.
Definition xbegin_op : E unit := xlift_fs (liftb tx_begin).
Definition xend_op : E unit := xlift_fs (liftb tx_end).
Definition set_proc (f : proc → proc) : E unit := modify (λ s, X (x_km s) (x_fs s) (f (x_proc s)) (x_cr3 s)).

(** [switchuvm(curproc)]: its tests and the address space; the task state
    segment and task register it loads are in Percpu.v. *)
Definition xswitchuvm : E unit :=
  p ← gets x_proc;
  if kstack p =? 0 then panic "switchuvm: no kstack" else
  if Proc.pgdir p =? 0 then panic "switchuvm: no pgdir" else
  modify (λ s, X (x_km s) (x_fs s) (x_proc s) (V2P (Proc.pgdir p))).

(** Store the bytes [readi] delivered at a kernel address. *)
Fixpoint store_bytes (a : Z) (l : list Z) : M mem unit :=
  match l with
  | [] => mret tt
  | c :: l => store a c ;; store_bytes (a + 1) l
  end.

Fixpoint loaduvm_loop (fuel : nat) (pgdir addr : Z) (ip : nat) (offset i sz : Z) : E Z :=
  if i <? sz then
    match fuel with
    | O => diverge
    | Datatypes.S fuel =>
        pte ← xlift_km (walkpgdir pgdir (u32 (addr + i)) false);
        if pte =? 0 then panic "loaduvm: address should exist" else
        e ← xlift_km (liftm (load32 pte));
        let pa := PTE_ADDR e in
        let n := if sz - i <? PGSIZE then sz - i else PGSIZE in
        r ← xlift_fs (readi devsw_read ip (u32 (offset + i)) n);
        xlift_km (liftm (store_bytes (P2V pa) r.2)) ;;
        if negb (r.1 =? n) then mret (-1)
        else loaduvm_loop fuel pgdir addr ip offset (u32 (i + PGSIZE)) sz
    end
  else mret 0.
Definition loaduvm (pgdir addr : Z) (ip : nat) (offset sz : Z) : E Z :=
  if negb (addr mod PGSIZE =? 0) then panic "loaduvm: addr must be page aligned" else
  loaduvm_loop (Z.to_nat (sz / PGSIZE + 1)) pgdir addr ip offset 0 sz.

(** The label [bad]; [pgdir] and [ip] as they are at the jump. *)
Definition exec_bad (pgdir : Z) (ip : option nat) : E Z :=
  (if pgdir =? 0 then mret tt else xlift_km (freevm end_ pgdir)) ;;
  (match ip with
   | Some ip => xlift_fs (iunlockput ip) ;; xend_op
   | None => mret tt
   end) ;;
  mret (-1).

(** The loop over the program headers, [n] of them left: [None] is a jump to
    [bad], [Some sz] the new size. *)
Fixpoint load_segments (n : nat) (pgdir : Z) (ip : nat) (off sz : Z) : E (option Z) :=
  match n with
  | O => mret (Some sz)
  | Datatypes.S n =>
      r ← xlift_fs (readi devsw_read ip (u32 off) sizeof_proghdr);
      if negb (r.1 =? sizeof_proghdr) then mret None else
      let ph := proghdr_of r.2 in
      if negb (ph_type ph =? ELF_PROG_LOAD) then load_segments n pgdir ip (off + sizeof_proghdr) sz else
      if ph_memsz ph <? ph_filesz ph then mret None else
      if u32 (ph_vaddr ph + ph_memsz ph) <? ph_vaddr ph then mret None else
      sz ← xlift_km (allocuvm end_ pgdir sz (u32 (ph_vaddr ph + ph_memsz ph)));
      if sz =? 0 then mret None else
      if negb (ph_vaddr ph mod PGSIZE =? 0) then mret None else
      r ← loaduvm pgdir (ph_vaddr ph) ip (ph_off ph) (ph_filesz ph);
      if r <? 0 then mret None else
      load_segments n pgdir ip (off + sizeof_proghdr) sz
  end.

(** The loop over [argv]: the strings go below [sp], their addresses to
    [ustack].  The result is the final [sp] and [argc]. *)
Fixpoint push_args (argv : list Z) (pgdir sp ustack argc : Z) : E (option (Z * Z)) :=
  match argv with
  | [] => xlift_km (liftm (store32 (ustack + 4 * (3 + argc)) 0)) ;; mret (Some (sp, argc))
  | a :: argv =>
      if MAXARG <=? argc then mret None else
      len ← xlift_km (liftm (strlen strmax a));
      let sp := Z.land (u32 (sp - (len + 1))) (u32 (Z.lnot 3)) in
      r ← xlift_km (copyout pgdir sp a (len + 1));
      if r <? 0 then mret None else
      xlift_km (liftm (store32 (ustack + 4 * (3 + argc)) sp)) ;;
      push_args argv pgdir sp ustack (argc + 1)
  end.

(** The part of the path after its last slash. *)
Fixpoint last_elem (path last : list Z) : list Z :=
  match path with
  | [] => last
  | c :: p => last_elem p (if c =? 47 then p else last)
  end.

(** [exec(path, argv)]; [argv] are the addresses before the null one. *)
Definition exec (cwd : nat) (path : list Z) (argv : list Z) (ustack : Z) : E Z :=
  xbegin_op ;;
  r ← xlift_fs (namei devsw_read cwd path);
  match r with
  | None => xend_op ;; mret (-1)
  | Some ip =>
      xlift_fs (ilock ip) ;;
      r ← xlift_fs (readi devsw_read ip 0 sizeof_elfhdr);
      if negb (r.1 =? sizeof_elfhdr) then exec_bad 0 (Some ip) else
      let elf := elfhdr_of r.2 in
      if negb (e_magic elf =? ELF_MAGIC) then exec_bad 0 (Some ip) else
      pgdir ← xlift_km (setupkvm end_ data_ gpu);
      if pgdir =? 0 then exec_bad 0 (Some ip) else
      r ← load_segments (Z.to_nat (e_phnum elf)) pgdir ip (e_phoff elf) 0;
      match r with
      | None => exec_bad pgdir (Some ip)
      | Some sz =>
          xlift_fs (iunlockput ip) ;;
          xend_op ;;
          let sz := PGROUNDUP sz in
          sz ← xlift_km (allocuvm end_ pgdir sz (u32 (sz + 2 * PGSIZE)));
          if sz =? 0 then exec_bad pgdir None else
          xlift_km (clearpteu pgdir (u32 (sz - 2 * PGSIZE))) ;;
          r ← push_args argv pgdir sz ustack 0;
          match r with
          | None => exec_bad pgdir None
          | Some (sp, argc) =>
              xlift_km (liftm (store32 ustack 0xffffffff)) ;;
              xlift_km (liftm (store32 (ustack + 4) argc)) ;;
              xlift_km (liftm (store32 (ustack + 8) (u32 (sp - (argc + 1) * 4)))) ;;
              let sp := u32 (sp - (3 + argc + 1) * 4) in
              r ← xlift_km (copyout pgdir sp ustack ((3 + argc + 1) * 4));
              if r <? 0 then exec_bad pgdir None else
              set_proc (Proc.set_name (take 15 (last_elem path path))) ;;
              p ← gets x_proc;
              let oldpgdir := Proc.pgdir p in
              set_proc (set_pgdir pgdir) ;;
              set_proc (set_sz sz) ;;
              xlift_km (liftm (store32 (tf p + tf_eip) (e_entry elf))) ;;
              xlift_km (liftm (store32 (tf p + tf_esp) sp)) ;;
              xswitchuvm ;;
              xlift_km (freevm end_ oldpgdir) ;;
              mret 0
          end
      end
  end.

(** The loop of [sys_exec]: the argument pointers, at most MAXARG with the
    null one; [None] is the error return. *)
Fixpoint fetch_argv (n : nat) (uargv : Z) (u : uctx) : option (option (list Z)) :=
  match n with
  | O => Some None
  | Datatypes.S n =>
      r ← fetchint (u32 uargv) u;
      match r with
      | None => Some None
      | Some uarg =>
          if uarg =? 0 then Some (Some []) else
          s ← fetchstr (u32 uarg) u;
          match s with
          | None => Some None
          | Some _ => l ← fetch_argv n (uargv + 4) u; Some (option_map (cons (u32 uarg)) l)
          end
      end
  end.

Definition sys_exec (cwd : nat) (u : uctx) (ustack : Z) : E Z :=
  path ← of_option (argstr 0 u);
  match path with
  | None => mret (-1)
  | Some path =>
      uargv ← of_option (argint 1 u);
      match uargv with
      | None => mret (-1)
      | Some uargv =>
          argv ← of_option (fetch_argv (Z.to_nat MAXARG) (u32 uargv) u);
          match argv with
          | None => mret (-1)
          | Some argv => exec cwd path argv ustack
          end
      end
  end.
End exec.

(** ** A failed [exec] changes nothing the caller sees *)

Section failure.
Context {S : Type} `{BlockLayer S, TxLayer S}.
Context (devsw_read : Z → option (nat → Z → M (fsst S) (Z * list Z))).

(** [m] leaves the process alone. *)
Definition keeps_proc {A} (m : M (xst S) A) : Prop :=
  ∀ s a s', m s = Ret a s' → x_proc s' = x_proc s ∧ x_cr3 s' = x_cr3 s.

Lemma kp_ret {A} (a : A) : keeps_proc (mret a).
Proof. by intros s b s' [= <- <-]. Qed.

Lemma kp_panic {A} msg : keeps_proc (panic msg : M (xst S) A).
Proof. by intros s b s'. Qed.

Lemma kp_diverge {A} : keeps_proc (diverge : M (xst S) A).
Proof. by intros s b s'. Qed.

Lemma kp_km {A} (m : M kmem A) : keeps_proc (xlift_km m).
Proof. intros s a s'. unfold xlift_km. destruct (m (x_km s)); [|done..]. by intros [= <- <-]. Qed.

Lemma kp_fs {A} (m : M (fsst S) A) : keeps_proc (xlift_fs m).
Proof. intros s a s'. unfold xlift_fs. destruct (m (x_fs s)); [|done..]. by intros [= <- <-]. Qed.

Lemma kp_bind {A B} (m : M (xst S) A) (f : A → M (xst S) B) :
  keeps_proc m → (∀ a, keeps_proc (f a)) → keeps_proc (m ≫= f).
Proof.
  intros Hm Hf s b s' Hrun. apply bind_inv in Hrun as (a & t & E & Hrun). destruct (Hf a _ _ _ Hrun) as [-> ->]. by apply (Hm _ _ _ E).
Qed.

Ltac kp :=
  repeat first
    [ apply kp_bind; [|intros] | apply kp_ret | apply kp_panic | apply kp_diverge | apply kp_km | apply kp_fs
    | match goal with |- keeps_proc (match ?x with _ => _ end) => destruct x end
    | match goal with |- keeps_proc (let _ := _ in _) => cbv zeta end ].

Lemma kp_loaduvm pgdir addr ip offset sz : keeps_proc (loaduvm devsw_read pgdir addr ip offset sz).
Proof.
  unfold loaduvm. destruct (negb _); [apply kp_panic|]. generalize (Z.to_nat (sz / PGSIZE + 1)) as n. generalize 0 as i.
  intros i n. revert i. induction n as [|n IH]; intros i; cbn [loaduvm_loop]; kp. apply IH.
Qed.

Lemma kp_segments end_ n pgdir ip off sz : keeps_proc (load_segments end_ devsw_read n pgdir ip off sz).
Proof.
  revert off sz. induction n as [|n IH]; intros off sz; cbn [load_segments]; kp; try apply IH; try apply kp_loaduvm; kp; apply IH.
Qed.

Lemma kp_push strmax argv pgdir sp ustack argc : keeps_proc (push_args strmax argv pgdir sp ustack argc).
Proof. revert sp argc. induction argv as [|a argv IH]; intros sp argc; cbn [push_args]; kp. apply IH. Qed.

Lemma kp_bad end_ pgdir ip : keeps_proc (exec_bad end_ pgdir ip).
Proof. unfold exec_bad, xend_op. kp. Qed.

(** What [exec] does on success: it ends with a return of 0. *)
Lemma bad_result end_ pgdir ip s r s' : exec_bad end_ pgdir ip s = Ret r s' → r = -1.
Proof.
  unfold exec_bad. intros Hrun. apply bind_inv in Hrun as (u & t & _ & Hrun). apply bind_inv in Hrun as (u' & t' & _ & Hrun).
  by injection Hrun as <- _.
Qed.

(** [m] either fails without touching the process or returns 0. *)
Definition all_or_nothing (m : M (xst S) Z) : Prop :=
  ∀ s r s', m s = Ret r s' → r = 0 ∨ r = -1 ∧ x_proc s' = x_proc s ∧ x_cr3 s' = x_cr3 s.

Lemma an_bind {A} (m : M (xst S) A) (f : A → M (xst S) Z) :
  keeps_proc m → (∀ a, all_or_nothing (f a)) → all_or_nothing (m ≫= f).
Proof.
  intros Hm Hf s b s' Hrun. apply bind_inv in Hrun as (a & t & E & Hrun).
  destruct (Hf a _ _ _ Hrun) as [->|(-> & -> & ->)]; [by left|]. right. split; [done|]. by apply (Hm _ _ _ E).
Qed.

Lemma an_bad end_ pgdir ip : all_or_nothing (exec_bad end_ pgdir ip).
Proof. intros s r s' Hrun. right. split; [by eapply bad_result|]. by apply (kp_bad _ _ _ _ _ _ Hrun). Qed.

Lemma an_done {A} (m : M (xst S) A) : all_or_nothing (m ;; mret 0).
Proof. intros s r s' Hrun. left. apply bind_inv in Hrun as (a & t & _ & Hrun). by injection Hrun as <- _. Qed.

Lemma an_done_bind {A} (m : M (xst S) A) (f : A → M (xst S) Z) :
  (∀ a s r s', f a s = Ret r s' → r = 0) → all_or_nothing (m ≫= f).
Proof. intros Hf s r s' Hrun. left. apply bind_inv in Hrun as (a & t & _ & Hrun). by eapply Hf. Qed.

Lemma an_ret_minus : all_or_nothing (mret (-1)).
Proof. intros s r s' [= <- <-]. by right. Qed.

(** [exec] either succeeds, or returns -1 with the [struct proc] of the caller
    and the address space of the processor as they were. *)
Lemma exec_all_or_nothing end_ data_ gpu strmax cwd path argv ustack s r s' :
  exec end_ data_ gpu strmax devsw_read cwd path argv ustack s = Ret r s' →
  r = 0 ∨ r = -1 ∧ x_proc s' = x_proc s ∧ x_cr3 s' = x_cr3 s.
Proof.
  revert s r s'. change (all_or_nothing (exec end_ data_ gpu strmax devsw_read cwd path argv ustack)). unfold exec, xbegin_op, xend_op.
  apply an_bind; [apply kp_fs|intros _]. apply an_bind; [apply kp_fs|intros [ip|]].
  2:{ apply an_bind; [apply kp_fs|intros _]. apply an_ret_minus. }
  apply an_bind; [apply kp_fs|intros _]. apply an_bind; [apply kp_fs|intros e].
  destruct (negb _); [apply an_bad|]. cbv zeta. destruct (negb _); [apply an_bad|].
  apply an_bind; [apply kp_km|intros pgdir]. destruct (pgdir =? 0); [apply an_bad|].
  apply an_bind; [apply kp_segments|intros [sz|]]; [|apply an_bad].
  apply an_bind; [apply kp_fs|intros _]. apply an_bind; [apply kp_fs|intros _].
  apply an_bind; [apply kp_km|intros sz2]. destruct (sz2 =? 0); [apply an_bad|].
  apply an_bind; [apply kp_km|intros _]. apply an_bind; [apply kp_push|intros [[sp argc]|]]; [|apply an_bad].
  do 3 (apply an_bind; [apply kp_km|intros _]). apply an_bind; [apply kp_km|intros c]. destruct (c <? 0); [apply an_bad|].
  apply an_done_bind. intros _ s1 r s1' Hrun. do 7 (apply bind_inv in Hrun as (? & ? & _ & Hrun)). by injection Hrun as <- _.
Qed.
End failure.
