(* ===== verification/Trap.v ===== *)
(** * Traps and process system calls: trap.c and sysproc.c

    [trap] gives the CPU away in three places: in the system call it makes, in
    [yield] and in [exit].  Each stretch between them is one definition; what
    happens in between (the handler of the system call, other processes) is
    any change of the state. *)

From S2P Require Import Prelude Param StringC Kalloc Vm Proc ProcInv Syscall.

Definition T_SYSCALL : Z := 64.
Definition T_IRQ0 : Z := 32.
Definition IRQ_TIMER : Z := 0.
Definition IRQ_KBD : Z := 1.
Definition IRQ_COM1 : Z := 4.
Definition IRQ_IDE : Z := 14.
Definition IRQ_SPURIOUS : Z := 31.

(** The fields of [struct trapframe] that [trap] looks at, and its address. *)
Record trapframe := Trapframe { tf_addr : Z; trapno : Z; tcs : Z }.

(** The kernel state with [ticks] and the number of interrupts acknowledged. *)
Record tstate (F : Type) := TState { t_k : kstate F; ticks : Z; eois : Z }.
Arguments TState {F} t_k ticks eois.
Arguments t_k {F} t.
Arguments ticks {F} t.
Arguments eois {F} t.

(** Where a stretch of [trap] ends: it returned, the process called [exit],
    is about to run [syscall], or gave up the CPU in [yield]. *)
Inductive tnext := TDone | TExit | TSyscall | TYield.

(** Where a stretch of a system call ends: it returned or sleeps. *)
Inductive sysres := SRet (v : Z) | SSleep.

Section trap.
Context (end_ data_ : Z) (gpu : gpu_info) (forkret_addr trapret_addr ticks_addr : Z).
Context {F : Type} `{FileLayer F}.
(** The device handlers [ideintr], [kbdintr], [uartintr], [i8254_intr]. *)
Context (ideintr kbdintr uartintr i8254_intr : M (tstate F) unit).
Abbreviation T := (M (tstate F)).

Definition liftt {A} (m : M (kstate F) A) : T A :=
  λ s, match m (t_k s) with
       | Ret a k => Ret a (TState k (ticks s) (eois s))
       | Panic msg => Panic msg
       | Fault => Fault
       | Block => Block
       | Diverge => Diverge
       end.

Definition lapiceoi : T unit := modify (λ s, TState (t_k s) (ticks s) (eois s + 1)).

(** The timer interrupt on CPU 0. *)
Definition clock_tick : T unit :=
  modify (λ s, TState (t_k s) (u32 (ticks s + 1)) (eois s)) ;;
  liftt (wakeup (AChan ticks_addr)).

Definition is_user (t : trapframe) : bool := Z.land (tcs t) 3 =? DPL_USER.

(** [myproc() && myproc()->killed]. *)
Definition is_killed (cur : option nat) : T bool :=
  match cur with
  | None => mret false
  | Some i => p ← liftt (getproc i); mret (negb (killed p =? 0))
  end.

(** [exit()] of the current process. *)
Definition trap_exit (cur : option nat) : T tnext :=
  match cur with
  | None => fault
  | Some i => liftt (exit i) ;; mret TExit
  end.

(** The [switch]. *)
Definition trap_switch (cpuid : Z) (cur : option nat) (t : trapframe) : T unit :=
  if trapno t =? T_IRQ0 + IRQ_TIMER then when (cpuid =? 0) clock_tick ;; lapiceoi
  else if trapno t =? T_IRQ0 + IRQ_IDE then ideintr ;; lapiceoi
  else if trapno t =? T_IRQ0 + IRQ_IDE + 1 then mret tt
  else if trapno t =? T_IRQ0 + IRQ_KBD then kbdintr ;; lapiceoi
  else if trapno t =? T_IRQ0 + IRQ_COM1 then uartintr ;; lapiceoi
  else if trapno t =? T_IRQ0 + 0xB then i8254_intr ;; lapiceoi
  else if trapno t =? T_IRQ0 + IRQ_SPURIOUS then lapiceoi
  else
    match cur with
    | None => panic "trap"
    | Some i =>
        if Z.land (tcs t) 3 =? 0 then panic "trap"
        else liftt (setproc i (set_killed 1))
    end.

(** The last check of [trap], also reached from [yield]. *)
Definition trap_last (cur : option nat) (t : trapframe) : T tnext :=
  k ← is_killed cur;
  if k && is_user t then trap_exit cur else mret TDone.

(** [trap] up to the first place where it gives up the CPU: a system call,
    or anything else. *)
Definition trap_syscall (i : nat) (t : trapframe) : T tnext :=
  k ← is_killed (Some i);
  if (k : bool) then trap_exit (Some i)
  else liftt (setproc i (set_tf (tf_addr t))) ;; mret TSyscall.
Definition trap (cpuid : Z) (cur : option nat) (t : trapframe) : T tnext :=
  if trapno t =? T_SYSCALL then
    match cur with None => fault | Some i => trap_syscall i t end
  else
    trap_switch cpuid cur t ;;
    k ← is_killed cur;
    if k && is_user t then trap_exit cur else
    match cur with
    | None => trap_last cur t
    | Some i =>
        p ← liftt (getproc i);
        if bool_decide (state p = RUNNING) && (trapno t =? T_IRQ0 + IRQ_TIMER) then liftt (yield i) ;; mret TYield
        else trap_last cur t
    end.

(** [trap] after [syscall] has returned. *)
Definition trap_sysret (cur : option nat) : T tnext :=
  k ← (match cur with None => fault | Some _ => is_killed cur end);
  if (k : bool) then trap_exit cur else mret TDone.

(** ** sysproc.c; [u] is the user context of the caller [cur] *)

Definition sys_fork (cur : nat) : T Z := liftt (fork end_ data_ gpu forkret_addr trapret_addr cur).

Definition sys_exit (cur : nat) : T unit := liftt (exit cur).

(** One round of [wait]. *)
Definition sys_wait (cur : nat) : T sysres :=
  r ← liftt (wait end_ cur);
  mret (match r with WaitPid p => SRet p | WaitNone => SRet (-1) | WaitSleep => SSleep end).

Definition sys_kill (u : uctx) : T Z :=
  a ← of_option (argint 0 u);
  match a with
  | None => mret (-1)
  | Some pid => liftt (kill pid)
  end.

Definition sys_getpid (cur : nat) : T Z := p ← liftt (getproc cur); mret (pid p).

Definition sys_sbrk (cur : nat) (u : uctx) : T Z :=
  a ← of_option (argint 0 u);
  match a with
  | None => mret (-1)
  | Some n =>
      p ← liftt (getproc cur);
      let addr := i32 (sz p) in
      r ← liftt (growproc end_ cur n);
      if r <? 0 then mret (-1) else mret addr
  end.

(** One test of the loop of [sys_sleep]; [ticks - ticks0 < n] compares as
    unsigned. *)
Definition sleep_test (cur : nat) (ticks0 n : Z) : T sysres :=
  now ← gets ticks;
  if u32 (now - ticks0) <? u32 n then
    p ← liftt (getproc cur);
    if negb (killed p =? 0) then mret (SRet (-1))
    else liftt (sleep cur (AChan ticks_addr)) ;; mret SSleep
  else mret (SRet 0).
Definition sys_sleep (cur : nat) (u : uctx) : T sysres :=
  a ← of_option (argint 0 u);
  match a with
  | None => mret (SRet (-1))
  | Some n => ticks0 ← gets ticks; sleep_test cur ticks0 n
  end.
(** When the process runs again, [sleep] returns and the loop goes on. *)
Definition sleep_resume (cur : nat) (ticks0 n : Z) : T sysres :=
  liftt (sleep_return cur) ;; sleep_test cur ticks0 n.

Definition sys_uptime : T Z := xticks ← gets ticks; mret (i32 xticks).
End trap.

(** ** A killed process does not get back to user mode *)

(** The places a trap can be in. *)
Inductive tpc := Entering | InSyscall | SysBack | Yielded | Resumed | Returned | Exited.

Definition after (n : tnext) : tpc :=
  match n with TDone => Returned | TExit => Exited | TSyscall => InSyscall | TYield => Yielded end.

Section killed.
Context (ticks_addr : Z) {F : Type} `{FileLayer F}.
Context (ideintr kbdintr uartintr i8254_intr : M (tstate F) unit).
Implicit Types s : tstate F.

(** One trap of process [cur] on [cpuid]: the stretches of [trap], with any
    change of the state while the system call runs or others have the CPU. *)
Inductive tpstep (cpuid : Z) (cur : option nat) (t : trapframe) : tpc * tstate F → tpc * tstate F → Prop :=
| tp_trap s n s' : trap ticks_addr ideintr kbdintr uartintr i8254_intr cpuid cur t s = Ret n s' →
    tpstep cpuid cur t (Entering, s) (after n, s')
| tp_syscall s s' : tpstep cpuid cur t (InSyscall, s) (SysBack, s')
| tp_sysret s n s' : trap_sysret cur s = Ret n s' → tpstep cpuid cur t (SysBack, s) (after n, s')
| tp_others s s' : tpstep cpuid cur t (Yielded, s) (Resumed, s')
| tp_last s n s' : trap_last cur t s = Ret n s' → tpstep cpuid cur t (Resumed, s) (after n, s').

Definition alive_at s (cur : option nat) : Prop :=
  ∀ i p, cur = Some i → ptable (t_k s) !! i = Some p → killed p = 0.
Definition gone_at s (cur : option nat) : Prop :=
  ∃ i p, cur = Some i ∧ ptable (t_k s) !! i = Some p ∧ state p = ZOMBIE.

Lemma is_killed_inv cur s k s' :
  is_killed cur s = Ret k s' → s' = s ∧ (k = false → alive_at s cur).
Proof.
  unfold is_killed. destruct cur as [i|]; [|intros [= <- <-]; by split].
  intros Hrun. apply bind_inv in Hrun as (p & t & E & Hrun). unfold liftt, getproc in E.
  destruct (ptable (t_k s) !! i) as [q|] eqn:Hq; [|done]. injection E as <- <-. injection Hrun as <- <-.
  split; [by destruct s|]. intros Hk j q' [= <-] Hq'. rewrite Hq in Hq'. injection Hq' as <-.
  apply negb_false_iff in Hk. lia.
Qed.

Lemma exit_table_zombie cur par ini ps p :
  ps !! cur = Some p → ∃ q, exit_table cur par ini ps !! cur = Some q ∧ state q = ZOMBIE.
Proof.
  intros Hp. unfold exit_table. set (ps1 := match par with Some q => wakeup1 (PChan q) ps | None => ps end).
  set (ps2 := match ini with Some q => _ | None => ps1 end).
  assert (Hlen : length ps2 = length ps).
  { subst ps2 ps1. destruct ini, par; rewrite ?reparent_length; unfold wakeup1; by rewrite ?length_fmap. }
  destruct (lookup_lt_is_Some_2 ps2 cur) as [q Hq]; [rewrite Hlen; by eapply lookup_lt_Some|].
  exists (set_state ZOMBIE q). by rewrite list_lookup_alter_eq, Hq.
Qed.

Lemma trap_exit_inv cur s n s' : trap_exit cur s = Ret n s' → n = TExit ∧ gone_at s' cur.
Proof.
  unfold trap_exit. destruct cur as [i|]; [|done]. intros Hrun. apply bind_inv in Hrun as (u & t & E & Hrun).
  injection Hrun as <- <-. split; [done|]. unfold liftt in E. destruct (exit i (t_k s)) as [a k| | | |] eqn:Hx; [|done..].
  injection E as <- <-. unfold exit in Hx. apply bind_inv in Hx as (ini0 & k0 & _ & Hx). destruct (decide _); [done|].
  do 4 (apply bind_inv in Hx as (? & ? & _ & Hx)). apply bind_inv in Hx as (p & k' & E & Hx).
  unfold getproc in E. destruct (ptable _ !! i) as [q|] eqn:Hq; [|done]. injection E as <- <-.
  apply bind_inv in Hx as (ini & k2 & [= <- <-] & Hx). injection Hx as _ <-.
  destruct (exit_table_zombie i (parent q) (initproc x6) _ _ Hq) as (r & Hr & Hz). by exists i, r.
Qed.

Lemma trap_last_inv cur t s n s' :
  is_user t = true → trap_last cur t s = Ret n s' →
  n = TDone ∧ alive_at s' cur ∨ n = TExit ∧ gone_at s' cur.
Proof.
  intros Hu Hrun. unfold trap_last in Hrun. apply bind_inv in Hrun as (k & s1 & E & Hrun).
  destruct (is_killed_inv _ _ _ _ E) as [-> Hk]. rewrite Hu, andb_true_r in Hrun. destruct k.
  - right. by apply trap_exit_inv in Hrun.
  - injection Hrun as <- <-. left. auto.
Qed.

Lemma trap_sysret_inv cur s n s' :
  trap_sysret cur s = Ret n s' → n = TDone ∧ alive_at s' cur ∨ n = TExit ∧ gone_at s' cur.
Proof.
  intros Hrun. unfold trap_sysret in Hrun. apply bind_inv in Hrun as (k & s1 & E & Hrun).
  destruct cur as [i|]; [|done]. destruct (is_killed_inv _ _ _ _ E) as [-> Hk]. destruct k.
  - right. by apply trap_exit_inv in Hrun.
  - injection Hrun as <- <-. left. auto.
Qed.

(** The first stretch of a trap from user mode. *)
Lemma trap_inv cpuid cur t s n s' :
  trapno t = T_SYSCALL ∨ is_user t = true →
  trap ticks_addr ideintr kbdintr uartintr i8254_intr cpuid cur t s = Ret n s' →
  n = TDone ∧ alive_at s' cur ∨ n = TExit ∧ gone_at s' cur ∨ n = TSyscall ∧ trapno t = T_SYSCALL ∨
  n = TYield ∧ is_user t = true.
Proof.
  intros Hu Hrun. unfold trap in Hrun. destruct (trapno t =? T_SYSCALL) eqn:Hs.
  - destruct cur as [i|]; [|done]. unfold trap_syscall in Hrun. apply bind_inv in Hrun as (k & s1 & E & Hrun). destruct k.
    + apply trap_exit_inv in Hrun. tauto.
    + apply bind_inv in Hrun as (u & s2 & _ & Hrun). injection Hrun as <- <-. right. right. left. split; [done|lia].
  - destruct Hu as [|Hu]; [lia|]. apply bind_inv in Hrun as (u & s1 & _ & Hrun). apply bind_inv in Hrun as (k & s2 & E & Hrun).
    rewrite Hu, andb_true_r in Hrun. destruct k; [apply trap_exit_inv in Hrun; tauto|]. destruct cur as [i|].
    + apply bind_inv in Hrun as (p & s3 & _ & Hrun). destruct (_ && _).
      * apply bind_inv in Hrun as (u' & s4 & _ & Hrun). injection Hrun as <- <-. tauto.
      * apply trap_last_inv in Hrun; [tauto|done].
    + apply trap_last_inv in Hrun; [tauto|done].
Qed.

Definition trap_ok (cur : option nat) (t : trapframe) (c : tpc * tstate F) : Prop :=
  match c.1 with
  | Entering => trapno t = T_SYSCALL ∨ is_user t = true
  | InSyscall | SysBack => trapno t = T_SYSCALL
  | Yielded | Resumed => is_user t = true
  | Returned => alive_at c.2 cur
  | Exited => gone_at c.2 cur
  end.

Lemma tpstep_ok cpuid cur t c c' : trap_ok cur t c → tpstep cpuid cur t c c' → trap_ok cur t c'.
Proof.
  intros Hc Hst. destruct Hst as [s n s' Hrun|s s'|s n s' Hrun|s s'|s n s' Hrun]; unfold trap_ok in *; cbn [fst snd] in *.
  - destruct (trap_inv _ _ _ _ _ _ Hc Hrun) as [[-> Hx]|[[-> Hx]|[[-> Hx]|[-> Hx]]]]; exact Hx.
  - done.
  - destruct (trap_sysret_inv _ _ _ _ Hrun) as [[-> Hx]|[-> Hx]]; exact Hx.
  - done.
  - destruct (trap_last_inv _ _ _ _ _ Hc Hrun) as [[-> Hx]|[-> Hx]]; exact Hx.
Qed.

(** C27: a system call, or any other trap from user mode, however the system
    call and the processes that run meanwhile change the state: when [trap]
    returns to the process, it is not marked killed; otherwise it has exited
    and is a zombie. *)
Theorem killed_never_returns cpuid cur t s c :
  trapno t = T_SYSCALL ∨ Z.land (tcs t) 3 = DPL_USER →
  rtc (tpstep cpuid cur t) (Entering, s) c →
  (c.1 = Returned → ∀ i p, cur = Some i → ptable (t_k c.2) !! i = Some p → killed p = 0) ∧
  (c.1 = Exited → ∃ i p, cur = Some i ∧ ptable (t_k c.2) !! i = Some p ∧ state p = ZOMBIE).
Proof.
  intros Hu Hst. assert (Hc : trap_ok cur t c).
  { assert (H0 : trap_ok cur t (Entering, s)) by (destruct Hu as [Hu|Hu]; [by left|right; unfold is_user; by rewrite Hu]).
    clear Hu. revert H0. induction Hst as [c|c c1 c2 Hstep _ IH]; [done|]. intros H0. apply IH. by eapply tpstep_ok. }
  unfold trap_ok in Hc. split; intros E; rewrite E in Hc; exact Hc.
Qed.
End killed.

(** Slot 1 runs in user mode, init waits in slot 0. *)
Definition ex_trap_state : tstate unit :=
  TState (KState [set_state SLEEPING (set_pid 1 proc0); set_cwd (Some 0%nat) (set_parent (Some 0%nat) (set_state RUNNING (set_pid 2 proc0)))]
    3 (Some 0%nat) (Kmem 0 0 ∅) tt) 0 0.

(** An undefined instruction (trap 6) in slot 1. *)
Lemma killed_never_returns_witness :
  ∃ s p, trap 7 (mret tt) (mret tt) (mret tt) (mret tt) 0 (Some 1%nat) (Trapframe 0 6 27) ex_trap_state = Ret TExit s ∧
    ptable (t_k s) !! 1%nat = Some p ∧ state p = ZOMBIE.
Proof.
  destruct (trap 7 (mret tt) (mret tt) (mret tt) (mret tt) 0 (Some 1%nat) (Trapframe 0 6 27) ex_trap_state) as [n s| | | |] eqn:E;
    [|vm_compute in E; discriminate..].
  assert (n = TExit) as -> by (vm_compute in E; by injection E as <- _).
  destruct (killed_never_returns 7 (mret tt) (mret tt) (mret tt) (mret tt) 0 (Some 1%nat) (Trapframe 0 6 27) ex_trap_state (Exited, s))
    as [_ Hx]; [by right|eapply rtc_l; [exact (tp_trap _ _ _ _ _ _ _ _ _ _ _ E)|apply rtc_refl]|].
  destruct (Hx eq_refl) as (i & p & [= <-] & Hp & Hz). exists s, p. auto.
Defined.

(** ** [sys_sleep] and the clock *)

Section sleeping.
Context (ticks_addr : Z) {F : Type} `{FileLayer F}.
Implicit Types s : tstate F.

Definition with_table (ps : list proc) s : tstate F :=
  TState (KState ps (nextpid (t_k s)) (initproc (t_k s)) (km (t_k s)) (files (t_k s))) (ticks s) (eois s).

Definition phase (r : sysres) : option Z := match r with SRet v => Some v | SSleep => None end.

(** A process in [sys_sleep(n)] since [ticks0], with the number of clock ticks
    since then: the clock ticks, someone is killed, other processes run, or
    the scheduler picks it. *)
Inductive slstep (cur : nat) (ticks0 n : Z) : option Z * Z * tstate F → option Z * Z * tstate F → Prop :=
| sl_tick k s s' : clock_tick ticks_addr s = Ret tt s' → slstep cur ticks0 n (None, k, s) (None, k + 1, s')
| sl_kill k s j r s' : liftt (kill j) s = Ret r s' → slstep cur ticks0 n (None, k, s) (None, k, s')
| sl_other k s s' : ticks s' = ticks s → ptable (t_k s') !! cur = ptable (t_k s) !! cur →
    slstep cur ticks0 n (None, k, s) (None, k, s')
| sl_run k s ps r s' : schedule cur (ptable (t_k s)) = Some ps →
    sleep_resume ticks_addr cur ticks0 n (with_table ps s) = Ret r s' →
    slstep cur ticks0 n (None, k, s) (phase r, k, s').

Definition sleep_ok (cur : nat) (ticks0 n : Z) (c : option Z * Z * tstate F) : Prop :=
  let '(r, k, s) := c in
  0 <= k ∧ ticks s = u32 (ticks0 + k) ∧
  match r with
  | None => ∀ p, ptable (t_k s) !! cur = Some p → state p = SLEEPING →
      p_chan p = Some (AChan ticks_addr) ∧ u32 k < u32 n
  | Some v => v = 0 ∧ u32 n <= u32 k ∨
      v = -1 ∧ ∃ p, ptable (t_k s) !! cur = Some p ∧ killed p ≠ 0
  end.

Lemma u32_elapsed t k : u32 (u32 (t + k) - t) = u32 k.
Proof. unfold u32. rewrite Zminus_mod_idemp_l. f_equal. lia. Qed.

Lemma u32_tick t k : u32 (u32 (t + k) + 1) = u32 (t + (k + 1)).
Proof. unfold u32. rewrite Zplus_mod_idemp_l. f_equal. lia. Qed.

Lemma sleep_test_ok cur ticks0 n k s r s' :
  0 <= k → ticks s = u32 (ticks0 + k) → sleep_test ticks_addr cur ticks0 n s = Ret r s' →
  sleep_ok cur ticks0 n (phase r, k, s').
Proof.
  intros Hk Ht Hrun. unfold sleep_test in Hrun. apply bind_inv in Hrun as (now & s1 & [= <- <-] & Hrun).
  rewrite Ht, u32_elapsed in Hrun. destruct (u32 k <? u32 n) eqn:E.
  - apply bind_inv in Hrun as (p & s2 & E2 & Hrun). unfold liftt, getproc in E2.
    destruct (ptable (t_k s) !! cur) as [q|] eqn:Hq; [|done]. injection E2 as <- <-.
    destruct (negb (killed q =? 0)) eqn:Ek.
    + injection Hrun as <- <-. cbn. split_and!; [done|done|]. right. split; [done|]. exists q. split; [done|].
      apply negb_true_iff in Ek. lia.
    + apply bind_inv in Hrun as (u & s3 & [= <- <-] & Hrun). injection Hrun as <- <-. cbn. split_and!; [done|done|].
      intros p. rewrite list_lookup_alter_eq, Hq. intros [= <-] _. cbn. split; [done|lia].
  - injection Hrun as <- <-. cbn. split_and!; [done|done|]. left. split; [done|lia].
Qed.

Lemma wake_not_asleep c p : state (wake c p) = SLEEPING → wake c p = p ∧ p_chan p ≠ Some c.
Proof. unfold wake. destruct (decide _) as [|Hn]; [done|]. intros Hs. split; [done|]. tauto. Qed.

Lemma kill_table_lookup ps j cur p :
  (kill_table ps j).1 !! cur = Some p → state p = SLEEPING → ps !! cur = Some p.
Proof.
  revert cur. induction ps as [|q ps IH]; intros cur; cbn [kill_table]; [done|].
  destruct (pid q =? j); cbn [fst].
  - destruct cur as [|cur]; [|done]. intros [= <-]. case_decide; done.
  - destruct (kill_table ps j) as [ps' r]. cbn [fst] in *. destruct cur as [|cur]; [done|]. apply IH.
Qed.

Lemma slstep_ok cur ticks0 n c c' :
  sleep_ok cur ticks0 n c → slstep cur ticks0 n c c' → sleep_ok cur ticks0 n c'.
Proof.
  intros Hc Hst. destruct Hst as [k s s' Hrun|k s j r s' Hrun|k s s' Ht Hp|k s ps r s' Hps Hrun];
    destruct Hc as (Hk & Hti & Hs).
  - injection Hrun as <-. cbn. split_and!; [lia|by rewrite Hti, u32_tick|]. intros p Hp Hz.
    unfold wakeup1 in Hp. rewrite list_lookup_fmap in Hp. destruct (ptable (t_k s) !! cur) as [q|] eqn:Hq; [|done].
    injection Hp as <-. destruct (wake_not_asleep _ _ Hz) as [E Hne]. rewrite E in Hz.
    by destruct (Hs q eq_refl Hz) as [? _].
  - unfold liftt, kill, gets, mbind, M_bind in Hrun. destruct (kill_table (ptable (t_k s)) j) as [ps' r'] eqn:E.
    injection Hrun as <- <-. cbn. split_and!; [done|done|]. intros p Hp Hz. apply (Hs p); [|done].
    apply (kill_table_lookup _ j); [by rewrite E|done].
  - cbn. rewrite Ht, Hp. auto.
  - unfold sleep_resume in Hrun. apply bind_inv in Hrun as (u & s1 & [= <- <-] & Hrun). by eapply sleep_test_ok; [exact Hk| |exact Hrun].
Qed.

(** C28: a process that calls [sys_sleep(n)], under any interleaving of clock
    ticks, kills, other processes and scheduling: the call returns 0 only
    when at least [n] ticks have passed, returns -1 only when the process was
    killed, and the process is never still asleep once [n] ticks have passed.
    Ticks are counted modulo 2^32 and [n] is taken as unsigned, so
    [sleep(-1)] waits for 2^32 - 1 ticks. *)
Theorem sleep_on_time cur n s0 r0 s1 r k s :
  sleep_test ticks_addr cur (ticks s0) n s0 = Ret r0 s1 → is_u32 (ticks s0) →
  rtc (slstep cur (ticks s0) n) (phase r0, 0, s1) (r, k, s) →
  (r = Some 0 → u32 n <= k) ∧
  (∀ v, r = Some v → v ≠ 0 → v = -1 ∧ ∃ p, ptable (t_k s) !! cur = Some p ∧ killed p ≠ 0) ∧
  (r = None → ∀ p, ptable (t_k s) !! cur = Some p → state p = SLEEPING → u32 k < u32 n).
Proof.
  intros Hrun Hu Hst. assert (H0 : sleep_ok cur (ticks s0) n (phase r0, 0, s1)).
  { eapply sleep_test_ok; [done| |exact Hrun]. rewrite Z.add_0_r. unfold u32, is_u32 in *. rewrite Z.mod_small; lia. }
  assert (Hc : sleep_ok cur (ticks s0) n (r, k, s)).
  { clear Hrun Hu. revert H0. generalize (phase r0, 0, s1) (r, k, s) Hst. clear. intros c c' Hst.
    induction Hst as [c|c c1 c2 Hstep _ IH]; [done|]. intros H0. apply IH. by eapply slstep_ok. }
  destruct Hc as (Hk & _ & Hc). split_and!.
  - intros ->. destruct Hc as [[_ Hc]|[? _]]; [|done]. pose proof (Z.mod_le k 4294967296 Hk ltac:(done)). unfold u32 in *. lia.
  - intros v -> Hv. destruct Hc as [[-> _]|Hc]; [done|exact Hc].
  - intros -> p Hp Hz. by destruct (Hc p Hp Hz).
Qed.
End sleeping.

Lemma sleep_on_time_witness :
  ∃ s1 s2, sleep_test 7 1 (ticks ex_trap_state) 1 ex_trap_state = Ret SSleep s1 ∧ clock_tick 7 s1 = Ret tt s2 ∧
    (∀ p, ptable (t_k s2) !! 1%nat = Some p → state p ≠ SLEEPING).
Proof.
  eexists _, _. split_and!; [vm_compute; reflexivity..|]. intros p Hp Hz.
  assert (Hlt : u32 1 < u32 1); [|lia].
  eapply (proj2 (proj2 (sleep_on_time 7 1 1 ex_trap_state SSleep _ None 1 _ _ _ _)) eq_refl p Hp Hz).
  Unshelve. all: try (vm_compute; reflexivity).
  - unfold is_u32. cbn. lia.
  - eapply rtc_l; [|apply rtc_refl]. apply (sl_tick 7 1 0 1 0). vm_compute. reflexivity.
Defined.
