(* ===== verification/Console.v ===== *)
(** * The console: console.c, font.c and the drawing part of graphic.c

    Output goes to the serial port and, as glyphs on a 53 by 20 grid, to the
    frame buffer; input comes from the interrupt handlers through a ring
    buffer with line editing.  The serial port is the list of bytes sent, the
    screen the list of drawing calls. *)

From S2P Require Import Prelude Param StringC.

Definition CONSOLE_HORIZONTAL_MAX : Z := 53.
Definition CONSOLE_VERTICAL_MAX : Z := 20.
Definition FONT_WIDTH : Z := 15.
Definition FONT_HEIGHT : Z := 30.
Definition BACKSPACE : Z := 0x100.
Definition INPUT_BUF : Z := 128.

Definition c_newline : Z := 10.
Definition c_percent : Z := 37.
(** [C('D')] and the like. *)
Definition Ctrl (c : Z) : Z := c - 64.

Inductive gfx := Glyph (x y c : Z) | Scroll (height : Z).

(** [input], [console_pos], [panicked], the output devices, and the number of
    calls of [wakeup(&input.r)]. *)
Record con := Con {
  c_buf : list Z;
  c_r : Z;
  c_w : Z;
  c_e : Z;
  c_pos : Z;
  c_panicked : bool;
  c_uart : list Z;
  c_gfx : list gfx;
  c_wake : Z;
}.

Definition set_input b r w e s := Con b r w e (c_pos s) (c_panicked s) (c_uart s) (c_gfx s) (c_wake s).
Definition set_screen p g s := Con (c_buf s) (c_r s) (c_w s) (c_e s) p (c_panicked s) (c_uart s) g (c_wake s).
Definition set_uart u s := Con (c_buf s) (c_r s) (c_w s) (c_e s) (c_pos s) (c_panicked s) u (c_gfx s) (c_wake s).
Definition add_wake s := Con (c_buf s) (c_r s) (c_w s) (c_e s) (c_pos s) (c_panicked s) (c_uart s) (c_gfx s) (c_wake s + 1).

Definition con0 : con :=
  Con (replicate 128 0) 0 0 0 (CONSOLE_HORIZONTAL_MAX * CONSOLE_VERTICAL_MAX) false [] [] 0.

(** ** Output *)

Definition draw (g : gfx) : M con unit := modify (λ s, set_screen (c_pos s) (c_gfx s ++ [g]) s).
Definition set_pos (p : Z) : M con unit := modify (λ s, set_screen p (c_gfx s) s).

Definition graphic_putc (c : Z) : M con unit :=
  pos ← gets c_pos;
  if c =? c_newline then
    let pos := pos + (CONSOLE_HORIZONTAL_MAX - pos mod CONSOLE_HORIZONTAL_MAX) in
    set_pos pos ;;
    if CONSOLE_VERTICAL_MAX * CONSOLE_HORIZONTAL_MAX <=? pos then
      set_pos (pos - CONSOLE_HORIZONTAL_MAX) ;; draw (Scroll 30)
    else mret tt
  else if c =? BACKSPACE then
    if 0 <? pos then set_pos (pos - 1) else mret tt
  else
    (if CONSOLE_VERTICAL_MAX * CONSOLE_HORIZONTAL_MAX <=? pos then
      set_pos (pos - CONSOLE_HORIZONTAL_MAX) ;; draw (Scroll 30)
     else mret tt) ;;
    pos ← gets c_pos;
    draw (Glyph ((pos mod CONSOLE_HORIZONTAL_MAX) * FONT_WIDTH + 2) ((pos / CONSOLE_HORIZONTAL_MAX) * FONT_HEIGHT) c) ;;
    set_pos (pos + 1).

Definition uartputc (c : Z) : M con unit := modify (λ s, set_uart (c_uart s ++ [u8 c]) s).

Definition consputc (c : Z) : M con unit :=
  p ← gets c_panicked;
  if (p : bool) then diverge else
  (if c =? BACKSPACE then uartputc 8 ;; uartputc 32 ;; uartputc 8 else uartputc c) ;;
  graphic_putc c.

Fixpoint putall (l : list Z) : M con unit :=
  match l with
  | [] => mret tt
  | c :: l => consputc c ;; putall l
  end.

(** [digits[d]]: "0123456789abcdef". *)
Definition digit (d : Z) : Z := if d <? 10 then 48 + d else 87 + d.

(** The loop of [printint]: digits from the lowest; 32 rounds are enough for
    any 32-bit number and base from 2 on. *)
Fixpoint digits (fuel : nat) (x base : Z) : list Z :=
  match fuel with
  | O => []
  | S fuel => digit (x mod base) :: if x / base =? 0 then [] else digits fuel (x / base) base
  end.

Definition printint (xx base : Z) (sign : bool) : M con unit :=
  let neg := sign && (xx <? 0) in
  let x := if neg then u32 (- xx) else u32 xx in
  let buf := digits 32 x base ++ (if neg then [45] else []) in
  if 16 <? Z.of_nat (length buf) then fault else putall (rev buf).

(** [cprintf]; [str] is the string at an address, [args] the words after the
    format on the stack. *)
Definition null_str : list Z := [40; 110; 117; 108; 108; 41].
Fixpoint cprintf (str : Z → list Z) (fmt args : list Z) : M con unit :=
  match fmt with
  | [] => mret tt
  | c :: fmt =>
      if c =? 0 then mret tt else
      if negb (c =? c_percent) then consputc c ;; cprintf str fmt args else
      match fmt with
      | [] => mret tt
      | c :: fmt =>
          if c =? 0 then mret tt else
          if c =? 100 then
            match args with [] => fault | a :: args => printint (i32 a) 10 true ;; cprintf str fmt args end
          else if (c =? 120) || (c =? 112) then
            match args with [] => fault | a :: args => printint (i32 a) 16 false ;; cprintf str fmt args end
          else if c =? 115 then
            match args with
            | [] => fault
            | a :: args => putall (if a =? 0 then null_str else i8 <$> str a) ;; cprintf str fmt args
            end
          else if c =? c_percent then consputc c_percent ;; cprintf str fmt args
          else consputc c_percent ;; consputc c ;; cprintf str fmt args
      end
  end.

(** ** Input *)

Definition bufat (s : con) (i : Z) : Z := byte_at (c_buf s) (Z.to_nat (i mod INPUT_BUF)).

(** The loop of control-U, at most [e - w] rounds. *)
Fixpoint kill_line (fuel : nat) : M con unit :=
  s ← get;
  if negb (c_e s =? c_w s) && negb (bufat s (u32 (c_e s - 1)) =? c_newline) then
    match fuel with
    | O => diverge
    | S fuel =>
        modify (set_input (c_buf s) (c_r s) (c_w s) (u32 (c_e s - 1))) ;;
        consputc BACKSPACE ;;
        kill_line fuel
    end
  else mret tt.

(** The [switch] of [consoleintr] for one character, process listing apart. *)
Definition console_key (c : Z) : M con unit :=
  s ← get;
  if c =? Ctrl 80 then mret tt
  else if c =? Ctrl 85 then kill_line (Z.to_nat (u32 (c_e s - c_w s)))
  else if (c =? Ctrl 72) || (c =? 127) then
    if negb (c_e s =? c_w s) then
      modify (set_input (c_buf s) (c_r s) (c_w s) (u32 (c_e s - 1))) ;; consputc BACKSPACE
    else mret tt
  else if negb (c =? 0) && (u32 (c_e s - c_r s) <? INPUT_BUF) then
    let c := if c =? 13 then c_newline else c in
    modify (set_input (<[Z.to_nat (c_e s mod INPUT_BUF) := u8 c]> (c_buf s)) (c_r s) (c_w s) (u32 (c_e s + 1))) ;;
    consputc c ;;
    s ← get;
    if (c =? c_newline) || (c =? Ctrl 68) || (c_e s =? u32 (c_r s + INPUT_BUF)) then
      modify (set_input (c_buf s) (c_r s) (c_e s) (c_e s)) ;;
      modify add_wake
    else mret tt
  else mret tt.

(** [consoleintr]: the characters [getc] delivers, up to a negative one; the
    result is whether to list the processes. *)
Fixpoint consoleintr (keys : list Z) (doprocdump : bool) : M con bool :=
  match keys with
  | [] => mret doprocdump
  | c :: keys =>
      if c <? 0 then mret doprocdump else
      console_key c ;;
      consoleintr keys (doprocdump || (c =? Ctrl 80))
  end.

(** How a stretch of [consoleread] ends. *)
Inductive rdend := RDone | RKilled | RSleep.

(** [consoleread] with [n] bytes of [target] still to read, up to its end or
    to the [sleep] in it: the bytes copied to [dst] and the [n] left. *)
Fixpoint read_loop (fuel : nat) (n target : Z) (killed : bool) : M con (list Z * Z * rdend) :=
  if 0 <? n then
    match fuel with
    | O => diverge
    | S fuel =>
        s ← get;
        if c_r s =? c_w s then mret ([], n, if killed then RKilled else RSleep) else
        let c := bufat s (c_r s) in
        modify (set_input (c_buf s) (u32 (c_r s + 1)) (c_w s) (c_e s)) ;;
        if c =? Ctrl 68 then
          (if n <? target then modify (λ s, set_input (c_buf s) (u32 (c_r s - 1)) (c_w s) (c_e s) s) else mret tt) ;;
          mret ([], n, RDone)
        else if c =? c_newline then mret ([c], n - 1, RDone)
        else
          r ← read_loop fuel (n - 1) target killed;
          mret (c :: r.1.1, r.1.2, r.2)
    end
  else mret ([], n, RDone).
Definition read_round (n target : Z) (killed : bool) : M con (list Z * Z * rdend) :=
  read_loop (Z.to_nat n) n target killed.

Section device.
(** The file system the console device is called from. *)
Context {F : Type} (iunlock ilock : nat → M F unit).

Definition liftc {A} (m : M con A) : M (con * F) A :=
  λ s, match m s.1 with
       | Ret a c => Ret a (c, s.2)
       | Panic msg => Panic msg
       | Fault => Fault
       | Block => Block
       | Diverge => Diverge
       end.
Definition liftfs {A} (m : M F A) : M (con * F) A :=
  λ s, match m s.2 with
       | Ret a f => Ret a (s.1, f)
       | Panic msg => Panic msg
       | Fault => Fault
       | Block => Block
       | Diverge => Diverge
       end.

(** [consoleread] from where it was; [None] is a [sleep] with the bytes read
    so far in [dst]. *)
Definition consoleread_go (ip : nat) (n target : Z) (killed : bool) : M (con * F) (option Z * list Z * Z) :=
  r ← liftc (read_round n target killed);
  match r.2 with
  | RSleep => mret (None, r.1.1, r.1.2)
  | RKilled => liftfs (ilock ip) ;; mret (Some (-1), r.1.1, r.1.2)
  | RDone => liftfs (ilock ip) ;; mret (Some (i32 (target - r.1.2)), r.1.1, r.1.2)
  end.
Definition consoleread (ip : nat) (n : Z) (killed : bool) : M (con * F) (option Z * list Z * Z) :=
  liftfs (iunlock ip) ;; consoleread_go ip n (u32 n) killed.

Definition consolewrite (ip : nat) (buf : list Z) : M (con * F) Z :=
  liftfs (iunlock ip) ;;
  liftc (putall (u8 <$> buf)) ;;
  liftfs (ilock ip) ;;
  mret (Z.of_nat (length buf)).
End device.

(** ** What the console promises *)

(** Every glyph is inside the 53 by 20 grid of the screen and is that of a byte,
    signed or not; the screen scrolls by one line of text. *)
Definition on_grid (g : gfx) : Prop :=
  match g with
  | Glyph x y c => 2 <= x <= 52 * 15 + 2 ∧ 0 <= y <= 19 * 30 ∧ -128 <= c < 256
  | Scroll h => h = FONT_HEIGHT
  end.
Definition grid (s : con) : Prop := 0 <= c_pos s <= 1060 ∧ Forall on_grid (c_gfx s).

(** [s'] differs from [s] in the output devices only. *)
Definition out_only (s s' : con) : Prop :=
  c_buf s' = c_buf s ∧ c_r s' = c_r s ∧ c_w s' = c_w s ∧ c_e s' = c_e s ∧ c_panicked s' = c_panicked s ∧ c_wake s' = c_wake s.

Lemma graphic_putc_run c s :
  ∃ s', graphic_putc c s = Ret tt s' ∧ out_only s s' ∧ c_uart s' = c_uart s ∧ (-128 <= c <= BACKSPACE → grid s → grid s').
Proof.
  unfold graphic_putc, draw, set_pos. rewrite (bind_Ret (gets c_pos) _ s (c_pos s) s) by done.
  destruct (c =? c_newline).
  - rewrite (bind_Ret (modify _) _ s tt _ eq_refl). destruct (_ <=? _) eqn:E; eexists; (split; [reflexivity|]);
      (split; [by split_and!|]); (split; [done|]); intros _ [Hp Hg]; (split; [|try exact Hg]); cbn in *.
    + unfold CONSOLE_HORIZONTAL_MAX in *. dlia.
    + apply Forall_app. by repeat constructor.
    + unfold CONSOLE_HORIZONTAL_MAX, CONSOLE_VERTICAL_MAX in *. dlia.
  - destruct (Z.eqb_spec c BACKSPACE) as [Eb|Eb].
    + destruct (0 <? c_pos s) eqn:E; eexists; (split; [reflexivity|]); (split; [by split_and!|]); (split; [done|]);
        intros _ [Hp Hg]; split; cbn in *; try done; lia.
    + destruct (_ <=? _) eqn:E; eexists; (split; [reflexivity|]); (split; [by split_and!|]); (split; [done|]);
        intros Hc [Hp Hg]; unfold BACKSPACE in *; split; cbn in *; unfold CONSOLE_HORIZONTAL_MAX, CONSOLE_VERTICAL_MAX, FONT_WIDTH, FONT_HEIGHT in *;
        try dlia; repeat (apply Forall_app; split); try done; repeat constructor; dlia.
Qed.

Lemma consputc_run c s :
  c_panicked s = false →
  ∃ s', consputc c s = Ret tt s' ∧ out_only s s' ∧
    c_uart s' = c_uart s ++ (if c =? BACKSPACE then [8; 32; 8] else [u8 c]) ∧ (-128 <= c <= BACKSPACE → grid s → grid s').
Proof.
  intros Hp. unfold consputc. rewrite (bind_Ret (gets c_panicked) _ s false s) by (cbn; by rewrite <- Hp).
  set (s1 := set_uart (c_uart s ++ (if c =? BACKSPACE then [8; 32; 8] else [u8 c])) s).
  destruct (graphic_putc_run c s1) as (s' & E & Ho & Hu & Hg). exists s'. split; [|by split_and!; [..|done]].
  rewrite <- E. subst s1. destruct (c =? BACKSPACE); [|done]. unfold uartputc, modify, mbind, M_bind. cbn. by rewrite <- !app_assoc.
Qed.

Lemma putall_run l s :
  c_panicked s = false → Forall (λ c, c ≠ BACKSPACE) l →
  ∃ s', putall l s = Ret tt s' ∧ out_only s s' ∧ c_uart s' = c_uart s ++ (u8 <$> l) ∧
    (Forall (λ c, -128 <= c <= BACKSPACE) l → grid s → grid s').
Proof.
  intros Hp Hl. revert s Hp. induction Hl as [|c l Hc Hl IH]; intros s Hp; cbn [putall].
  - exists s. rewrite app_nil_r. unfold out_only. by split_and!.
  - destruct (consputc_run c s Hp) as (s1 & E1 & (B1 & R1 & W1 & X1 & P1 & K1) & U1 & G1). rewrite (bind_Ret _ _ _ _ _ E1).
    destruct (IH s1) as (s2 & E2 & (B2 & R2 & W2 & X2 & P2 & K2) & U2 & G2); [congruence|].
    exists s2. split; [exact E2|]. split; [unfold out_only; split_and!; congruence|].
    split; [|intros [Hcb Hlb]%Forall_cons; auto]. rewrite U2, U1, (proj2 (Z.eqb_neq c BACKSPACE) Hc), <- app_assoc. done.
Qed.

(** *** Numbers *)

(** The number a string of digits denotes, highest first. *)
Definition digit_value (c : Z) : Z := if c <? 58 then c - 48 else c - 87.
Fixpoint numeral (base : Z) (l : list Z) : Z :=
  match l with
  | [] => 0
  | c :: l => digit_value c * base ^ Z.of_nat (length l) + numeral base l
  end.
(** What a printed number says: an optional minus sign and digits. *)
Definition printed_value (base : Z) (l : list Z) : Z :=
  match l with
  | c :: ds => if c =? 45 then - numeral base ds else numeral base l
  | [] => 0
  end.

Lemma numeral_snoc base l c : numeral base (l ++ [c]) = numeral base l * base + digit_value c.
Proof.
  induction l as [|d l IH]; cbn [app numeral length]; [cbn; lia|].
  rewrite IH, length_app. cbn [length]. rewrite Nat2Z.inj_add. change (Z.of_nat 1) with 1.
  rewrite Z.pow_add_r by lia. lia.
Qed.

Lemma digit_value_digit d : 0 <= d < 16 → digit_value (digit d) = d ∧ 48 <= digit d < 103.
Proof.
  intros Hd. unfold digit_value, digit. destruct (d <? 10) eqn:E; [rewrite (proj2 (Z.ltb_lt _ _)) by lia; lia|].
  rewrite (proj2 (Z.ltb_ge _ _)) by lia. lia.
Qed.

(** [fuel] digits are enough below [base ^ fuel]. *)
Lemma digits_spec base n fuel x :
  2 <= base <= 16 → (n < fuel)%nat → 0 <= x < base ^ Z.of_nat (S n) →
  numeral base (rev (digits fuel x base)) = x ∧ (length (digits fuel x base) <= S n)%nat ∧
  Forall (λ c, 48 <= c < 103) (digits fuel x base) ∧ digits fuel x base ≠ [].
Proof.
  intros Hb. revert fuel x. induction n as [|n IH]; intros [|fuel] x Hf Hx; [lia| |lia|]; cbn [digits].
  - change (Z.of_nat 1) with 1 in Hx. rewrite Z.pow_1_r in Hx. rewrite Z.div_small, Z.mod_small by lia.
    destruct (digit_value_digit x ltac:(lia)) as [E Hr]. cbn. split_and!; [lia|lia|by constructor|done].
  - pose proof (Z.mod_pos_bound x base ltac:(lia)) as Hm. pose proof (Z.div_mod x base ltac:(lia)) as Hdm.
    destruct (digit_value_digit (x mod base) ltac:(lia)) as [E Hr]. destruct (x / base =? 0) eqn:Hz.
    + cbn [rev app numeral length]. cbn [length] in *. rewrite E. split_and!; [cbn; lia|lia|by constructor|done].
    + destruct (IH fuel (x / base)) as (H1 & H2 & H3 & _); [lia| |].
      { split; [apply Z.div_pos; lia|]. apply Z.div_lt_upper_bound; [lia|].
        rewrite (Nat2Z.inj_succ (S n)), Z.pow_succ_r in Hx by lia. lia. }
      cbn [rev]. rewrite numeral_snoc, H1, E. cbn [length]. split_and!; [lia|lia|by constructor|done].
Qed.

Lemma number_run base n x (neg : bool) s :
  c_panicked s = false → 2 <= base <= 16 → (n < 15)%nat → 0 <= x < base ^ Z.of_nat (S n) →
  ∃ s' l, (let buf := digits 32 x base ++ (if neg then [45] else []) in
           if 16 <? Z.of_nat (length buf) then fault else putall (rev buf)) s = Ret tt s' ∧
    c_uart s' = c_uart s ++ l ∧ printed_value base l = (if neg then - x else x) ∧
    Z.of_nat (length l) <= Z.of_nat n + 1 + (if neg then 1 else 0).
Proof.
  intros Hp Hb Hn Hx. destruct (digits_spec base n 32 x Hb ltac:(lia) Hx) as (Hv & Hl & Hd & Hne). cbv zeta.
  rewrite (proj2 (Z.ltb_ge _ _)) by (rewrite length_app; destruct neg; cbn [length]; lia).
  set (out := rev (digits 32 x base ++ (if neg then [45] else []))).
  assert (Hout : Forall (λ c, 45 <= c < 103) out).
  { apply Forall_rev, Forall_app. split; [eapply Forall_impl; [exact Hd|cbn; lia]|].
    destruct neg; repeat constructor; lia. }
  destruct (putall_run out s Hp) as (s' & E & _ & Hu & _).
  { eapply Forall_impl; [exact Hout|]. cbn. unfold BACKSPACE. lia. }
  exists s', out. split; [exact E|]. split.
  { rewrite Hu. f_equal. clear -Hout. induction Hout as [|c l Hc _ IH]; [done|]. cbn. rewrite IH, u8_id by lia. done. }
  subst out. rewrite rev_app_distr. split.
  - destruct neg; cbn [rev app printed_value]; [by rewrite Hv|].
    apply Forall_rev in Hd. destruct (rev (digits 32 x base)) as [|c l] eqn:Er.
    + apply (f_equal (@rev Z)) in Er. by rewrite rev_involutive in Er.
    + inversion Hd; subst. cbn [printed_value]. rewrite (proj2 (Z.eqb_neq _ _)) by lia. done.
  - rewrite length_app, !length_rev. destruct neg; cbn [length]; lia.
Qed.

(** [printint(xx, 10, 1)] sends the decimal numeral of [xx] to the serial
    port, for every 32-bit [xx], the most negative included, and
    [printint(xx, 16, 0)] the hexadecimal numeral of its bit pattern; both fit
    the 16-byte buffer. *)
Theorem printint_exact xx s :
  c_panicked s = false → -2147483648 <= xx < 2147483648 →
  (∃ s' l, printint xx 10 true s = Ret tt s' ∧ c_uart s' = c_uart s ++ l ∧ printed_value 10 l = xx ∧
     Z.of_nat (length l) <= 11) ∧
  (∃ s' l, printint xx 16 false s = Ret tt s' ∧ c_uart s' = c_uart s ++ l ∧ printed_value 16 l = u32 xx ∧
     Z.of_nat (length l) <= 8).
Proof.
  intros Hp Hx. split; unfold printint; cbn [andb].
  - destruct (xx <? 0) eqn:Hs.
    + destruct (number_run 10 9 (u32 (- xx)) true s) as (s' & l & E & Hu & Hv & Hl); [done|lia|lia|unfold u32; cbn; dlia|].
      exists s', l. split_and!; [exact E|exact Hu| |lia]. rewrite Hv. unfold u32. dlia.
    + destruct (number_run 10 9 (u32 xx) false s) as (s' & l & E & Hu & Hv & Hl); [done|lia|lia|unfold u32; cbn; dlia|].
      exists s', l. split_and!; [exact E|exact Hu| |lia]. rewrite Hv. unfold u32. dlia.
  - destruct (number_run 16 7 (u32 xx) false s) as (s' & l & E & Hu & Hv & Hl); [done|lia|lia|unfold u32; cbn; dlia|].
    exists s', l. split_and!; [exact E|exact Hu|exact Hv|lia].
Qed.

Lemma printint_exact_witness :
  ∃ s' l, printint (-2147483648) 10 true con0 = Ret tt s' ∧ c_uart s' = l ∧ printed_value 10 l = -2147483648.
Proof.
  destruct (printint_exact (-2147483648) con0 eq_refl ltac:(lia)) as [(s' & l & E & Hu & Hv & _) _]. exists s', l. auto.
Defined.

(** *** Line editing *)

(** The console as its users see it: the bytes of finished lines, the line
    being edited, and how often readers were woken. *)
Record line := Line { committed : list Z; editing : list Z; woken : Z }.

Definition line_key (c : Z) (a : line) : line :=
  if c =? Ctrl 80 then a
  else if c =? Ctrl 85 then Line (committed a) [] (woken a)
  else if (c =? Ctrl 72) || (c =? 127) then Line (committed a) (removelast (editing a)) (woken a)
  else if negb (c =? 0) && (Z.of_nat (length (committed a ++ editing a)) <? INPUT_BUF) then
    let c := if c =? 13 then c_newline else c in
    let ed := editing a ++ [c] in
    if (c =? c_newline) || (c =? Ctrl 68) || (Z.of_nat (length (committed a ++ ed)) =? INPUT_BUF) then
      Line (committed a ++ ed) [] (woken a + 1)
    else Line (committed a) ed (woken a)
  else a.

(** A read takes bytes up to a newline, which it returns, or a control-D,
    which ends the read without being returned and stays for the next read if
    this one returns something. *)
Fixpoint line_read (com : list Z) (n target : Z) (killed : bool) : list Z * Z * rdend * list Z :=
  if 0 <? n then
    match com with
    | [] => ([], n, if killed then RKilled else RSleep, [])
    | c :: com' =>
        if c =? Ctrl 68 then ([], n, RDone, if n <? target then com else com')
        else if c =? c_newline then ([c], n - 1, RDone, com')
        else let '(l, n', e, k) := line_read com' (n - 1) target killed in (c :: l, n', e, k)
    end
  else ([], n, RDone, com).

(** The ring buffer holds the line: [R] counts the bytes ever read; the
    indices are it and its successors modulo 2^32. *)
Definition rep (a : line) (s : con) : Prop :=
  ∃ R, 0 <= R ∧
    let l := committed a ++ editing a in
    c_r s = u32 R ∧ c_w s = u32 (R + Z.of_nat (length (committed a))) ∧ c_e s = u32 (R + Z.of_nat (length l)) ∧
    Z.of_nat (length l) <= INPUT_BUF ∧ length (c_buf s) = 128%nat ∧
    (∀ k, (k < length l)%nat → byte_at (c_buf s) (Z.to_nat ((R + Z.of_nat k) mod 128)) = byte_at l k) ∧
    c_newline ∉ editing a ∧ c_wake s = woken a ∧ c_panicked s = false.

Lemma rep_out a s s' : rep a s → out_only s s' → rep a s'.
Proof. intros (R & HR & Hrep) (B & Rr & Ww & E & P & K). exists R. split; [done|]. by rewrite B, Rr, Ww, E, P, K. Qed.

Lemma rep_putc a s c :
  -128 <= c <= BACKSPACE → rep a s → ∃ s', consputc c s = Ret tt s' ∧ rep a s' ∧ (grid s → grid s').
Proof.
  intros Hc Hr. destruct (consputc_run c s) as (s' & E & Ho & _ & Hg); [by destruct Hr as (R & _ & _ & _ & _ & _ & _ & _ & _ & _ & ?)|].
  exists s'. split_and!; [exact E|by eapply rep_out|by apply Hg].
Qed.

Lemma u32_mod128 x : u32 x mod 128 = x mod 128.
Proof. unfold u32. dlia. Qed.

(** The indices of a represented line. *)
Lemma line_empty a s : rep a s → (c_e s =? c_w s) = bool_decide (editing a = []).
Proof.
  intros (R & HR & Er & Ew & Ee & Hl & _). rewrite Ew, Ee, length_app in *. unfold INPUT_BUF in Hl. case_bool_decide as Hd.
  - rewrite Hd. cbn [length]. rewrite Nat.add_0_r. apply Z.eqb_refl.
  - apply Z.eqb_neq. destruct (editing a) as [|x ed]; [done|]. cbn [length] in *. unfold u32. dlia.
Qed.

Lemma rep_count a s : rep a s → u32 (c_e s - c_r s) = Z.of_nat (length (committed a ++ editing a)).
Proof. intros (R & HR & Er & Ew & Ee & Hl & _). rewrite Er, Ee. unfold INPUT_BUF in Hl. unfold u32. dlia. Qed.

Lemma rep_edit_count a s : rep a s → u32 (c_e s - c_w s) = Z.of_nat (length (editing a)).
Proof. intros (R & HR & Er & Ew & Ee & Hl & _). rewrite Ew, Ee. rewrite length_app in *. unfold INPUT_BUF in Hl. unfold u32. dlia. Qed.

Lemma rep_last com ed x wk s : rep (Line com (ed ++ [x]) wk) s → bufat s (u32 (c_e s - 1)) = x ∧ x ≠ c_newline.
Proof.
  intros (R & HR & Er & Ew & Ee & Hl & Hb & Hk & Hn & _). cbn [committed editing] in *. split.
  - unfold bufat, INPUT_BUF. rewrite u32_mod128, Ee. rewrite app_assoc in *. set (l := com ++ ed) in *. clearbody l.
    assert (Hs : length (l ++ [x]) = S (length l)) by (rewrite length_app; cbn; lia). rewrite Hs in *.
    specialize (Hk (length l) ltac:(lia)). transitivity (byte_at (l ++ [x]) (length l)).
    + rewrite <- Hk. f_equal. f_equal. rewrite <- (u32_mod128 (_ - 1)). unfold u32. dlia.
    + unfold byte_at. by rewrite list_lookup_middle.
  - intros ->. apply Hn. apply elem_of_app. right. by left.
Qed.

(** Erasing the last character of the line. *)
Lemma rep_erase com ed x wk s :
  rep (Line com (ed ++ [x]) wk) s → rep (Line com ed wk) (set_input (c_buf s) (c_r s) (c_w s) (u32 (c_e s - 1)) s).
Proof.
  intros (R & HR & Er & Ew & Ee & Hl & Hb & Hk & Hn & Hw & Hp). exists R. cbn in *. rewrite app_assoc in *. set (l := com ++ ed) in *. clearbody l.
  assert (Hs : length (l ++ [x]) = S (length l)) by (rewrite length_app; cbn; lia). rewrite Hs in *.
  split_and!; [done|done|done| |lia|done| |set_solver|done|done].
  - rewrite Ee. unfold u32. dlia.
  - intros k Hk'. rewrite (Hk k ltac:(lia)). unfold byte_at. by rewrite lookup_app_l.
Qed.

Lemma kill_line_run fuel com ed wk s :
  (length ed <= fuel)%nat → rep (Line com ed wk) s →
  ∃ s', kill_line fuel s = Ret tt s' ∧ rep (Line com [] wk) s' ∧ (grid s → grid s').
Proof.
  revert ed s. induction fuel as [|fuel IH]; intros ed s Hf Hr;
    (destruct (decide (ed = [])) as [->|Hne];
     [exists s; split_and!; [|exact Hr|done]; cbn [kill_line]; unfold get; rewrite (bind_Ret _ _ s s s) by done;
      rewrite (line_empty _ _ Hr); done|]).
  - destruct ed; [done|cbn in Hf; lia].
  - destruct (exists_last Hne) as (ed' & x & ->). destruct (rep_last _ _ _ _ _ Hr) as [Hx Hnl].
    cbn [kill_line]. unfold get. rewrite (bind_Ret _ _ s s s) by done.
    rewrite (line_empty _ _ Hr), Hx, (proj2 (Z.eqb_neq x c_newline) Hnl), bool_decide_false by exact Hne. cbn [negb andb].
    rewrite (bind_Ret (modify _) _ s tt _ eq_refl). apply rep_erase in Hr.
    destruct (rep_putc _ _ BACKSPACE ltac:(unfold BACKSPACE; lia) Hr) as (s1 & E1 & R1 & G1). rewrite (bind_Ret _ _ _ _ _ E1).
    rewrite length_app in Hf. cbn [length] in Hf. destruct (IH ed' s1 ltac:(lia) R1) as (s' & E & R' & G').
    exists s'. split_and!; [exact E|exact R'|]. auto.
Qed.

(** Storing one more byte in the ring. *)
Lemma ring_store (buf l : list Z) R c k :
  0 <= R → length buf = 128%nat → Z.of_nat (length l) < 128 →
  (∀ k, (k < length l)%nat → byte_at buf (Z.to_nat ((R + Z.of_nat k) mod 128)) = byte_at l k) →
  (k < S (length l))%nat →
  byte_at (<[Z.to_nat ((R + Z.of_nat (length l)) mod 128) := c]> buf) (Z.to_nat ((R + Z.of_nat k) mod 128)) = byte_at (l ++ [c]) k.
Proof.
  intros HR Hb Hl Hk Hlt. unfold byte_at in *. destruct (decide (k = length l)) as [->|Hne].
  - rewrite list_lookup_insert_eq by (rewrite Hb; dlia). by rewrite list_lookup_middle.
  - rewrite list_lookup_insert_ne by dlia. rewrite lookup_app_l by lia. apply Hk. lia.
Qed.

Lemma line_key_run c a s :
  c < 256 → 0 <= c → rep a s → ∃ s', console_key c s = Ret tt s' ∧ rep (line_key c a) s' ∧ (grid s → grid s').
Proof.
  intros Hc Hc0 Hr. destruct a as [com ed wk]. unfold console_key, line_key, get. rewrite (bind_Ret _ _ s s s) by done. cbn [committed editing woken].
  destruct (c =? Ctrl 80); [by exists s|]. destruct (c =? Ctrl 85).
  { rewrite (rep_edit_count _ _ Hr), Nat2Z.id. by eapply kill_line_run. }
  destruct (_ || _).
  { rewrite (line_empty _ _ Hr). cbn [editing]. case_bool_decide as Hd; cbn [negb].
    - subst ed. by exists s.
    - destruct (exists_last Hd) as (ed' & x & ->). rewrite removelast_last. apply rep_erase in Hr.
      rewrite (bind_Ret (modify _) _ s tt _ eq_refl). exact (rep_putc _ _ BACKSPACE ltac:(unfold BACKSPACE; lia) Hr). }
  rewrite (rep_count _ _ Hr). cbn [committed editing]. destruct (negb (c =? 0) && _) eqn:Hroom; [|by exists s].
  apply andb_true_iff in Hroom as [_ Hroom]. cbv zeta. set (d := if c =? 13 then c_newline else c).
  assert (Hd : 0 <= d < 256) by (subst d; unfold c_newline; destruct (c =? 13); lia). clearbody d. clear c Hc Hc0.
  rewrite (bind_Ret (modify _) _ s tt _ eq_refl). rewrite (u8_id d Hd).
  destruct Hr as (R & HR & Er & Ew & Ee & Hl & Hb & Hk & Hn & Hw & Hp). cbn [committed editing woken] in *.
  unfold INPUT_BUF in Hroom, Hl. assert (Hlt : Z.of_nat (length (com ++ ed)) < 128) by lia.
  pose proof (λ k, ring_store _ _ R d k HR Hb Hlt Hk) as Hins.
  replace (Z.to_nat ((R + Z.of_nat (length (com ++ ed))) mod 128)) with (Z.to_nat (c_e s mod INPUT_BUF)) in Hins
    by (unfold INPUT_BUF; by rewrite Ee, u32_mod128).
  set (buf := <[Z.to_nat (c_e s mod INPUT_BUF) := d]> (c_buf s)) in *.
  assert (Hb' : length buf = 128%nat) by (subst buf; by rewrite length_insert). clearbody buf.
  destruct (consputc_run d (set_input buf (c_r s) (c_w s) (u32 (c_e s + 1)) s) Hp) as (s2 & E2 & (B2 & R2 & W2 & X2 & P2 & K2) & _ & G2).
  specialize (G2 ltac:(unfold BACKSPACE; lia)).
  cbn in B2, R2, W2, X2, P2, K2. rewrite (bind_Ret _ _ _ _ _ E2). rewrite (bind_Ret _ _ s2 s2 s2) by done.
  assert (Hs : length (com ++ ed ++ [d]) = S (length (com ++ ed))) by (rewrite app_assoc, length_app; cbn; lia).
  assert (He : c_e s2 = u32 (R + Z.of_nat (length (com ++ ed ++ [d])))) by (rewrite X2, Hs, Ee; unfold u32; dlia).
  replace (c_e s2 =? u32 (c_r s2 + INPUT_BUF)) with (Z.of_nat (length (com ++ ed ++ [d])) =? INPUT_BUF).
  2:{ rewrite He, R2, Er, Hs. unfold INPUT_BUF. apply eq_bool_prop_intro. rewrite !Is_true_true, !Z.eqb_eq. unfold u32. split; [|dlia].
      intros ->. dlia. }
  destruct (_ || _) eqn:Hcommit.
  - rewrite (bind_Ret (modify _) _ s2 tt _ eq_refl). eexists. split; [reflexivity|]. split; [|exact G2].
    exists R. cbn. rewrite app_nil_r. unfold INPUT_BUF. split_and!; try done; [congruence|lia|congruence| |set_solver|lia|congruence].
    intros k Hk'. rewrite B2, app_assoc. apply Hins. lia.
  - exists s2. split_and!; [done| |exact G2]. apply orb_false_iff in Hcommit as [Hcommit _]. apply orb_false_iff in Hcommit as [Hnl _].
    exists R. cbn. unfold INPUT_BUF. split_and!; try done; [congruence|congruence|lia|congruence| | |lia|congruence].
    + intros k Hk'. rewrite B2, app_assoc. apply Hins. lia.
    + intros [Hin|Hin]%elem_of_app; [done|]. apply list_elem_of_singleton in Hin. unfold c_newline in *. lia.
Qed.

(** The characters of one interrupt. *)
Fixpoint line_keys (keys : list Z) (a : line) : line :=
  match keys with
  | [] => a
  | c :: keys => if c <? 0 then a else line_keys keys (line_key c a)
  end.

Lemma consoleintr_run keys dump a s :
  Forall (λ c, c < 256) keys → rep a s →
  ∃ b s', consoleintr keys dump s = Ret b s' ∧ rep (line_keys keys a) s' ∧ (grid s → grid s').
Proof.
  intros Hk. revert dump a s. induction Hk as [|c keys Hc _ IH]; intros dump a s Hr; cbn [consoleintr line_keys]; [by eexists _, _|].
  destruct (c <? 0) eqn:E; [by eexists _, _|].
  destruct (line_key_run c a s Hc ltac:(lia) Hr) as (s1 & E1 & R1 & G1). rewrite (bind_Ret _ _ _ _ _ E1).
  destruct (IH (dump || (c =? Ctrl 80)) _ _ R1) as (b & s' & E' & R' & G'). exists b, s'. auto.
Qed.

(** Taking the oldest byte out of the ring. *)
Lemma line_take x com ed wk s :
  rep (Line (x :: com) ed wk) s →
  (c_r s =? c_w s) = false ∧ bufat s (c_r s) = x ∧
  rep (Line com ed wk) (set_input (c_buf s) (u32 (c_r s + 1)) (c_w s) (c_e s) s) ∧
  u32 (u32 (c_r s + 1) - 1) = c_r s.
Proof.
  intros (R & HR & Er & Ew & Ee & Hl & Hb & Hk & Hn & Hw & Hp). cbn [committed editing woken app length] in *.
  rewrite length_app in *. unfold INPUT_BUF in Hl. split_and!.
  - apply Z.eqb_neq. rewrite Er, Ew. unfold u32. dlia.
  - unfold bufat, INPUT_BUF. rewrite Er, u32_mod128. specialize (Hk 0%nat ltac:(lia)). rewrite Z.add_0_r in Hk. exact Hk.
  - exists (R + 1). cbn. rewrite length_app. unfold INPUT_BUF. split_and!; try done; [lia|rewrite Er|rewrite Ew|rewrite Ee|lia|];
      [unfold u32; dlia|f_equal; lia|f_equal; lia|].
    intros k Hk'. specialize (Hk (S k) ltac:(lia)). rewrite <- Z.add_assoc. replace (1 + Z.of_nat k) with (Z.of_nat (S k)) by lia. exact Hk.
  - rewrite Er. unfold u32. dlia.
Qed.

Lemma read_run fuel n target killed com ed wk s :
  Z.of_nat fuel = Z.max 0 n → rep (Line com ed wk) s →
  let '(l, n', e, com') := line_read com n target killed in
  ∃ s', read_loop fuel n target killed s = Ret (l, n', e) s' ∧ rep (Line com' ed wk) s' ∧ (grid s → grid s').
Proof.
  revert fuel n s. induction com as [|c com IH]; intros fuel n s Hf Hr; cbn [line_read]; destruct (0 <? n) eqn:En;
    destruct fuel as [|fuel]; try lia; cbn [read_loop]; rewrite En; try (by eexists; split_and!; [..|done]);
    unfold get; rewrite (bind_Ret _ _ s s s) by done.
  - pose proof Hr as (R & HR & Er & Ew & _). cbn in Ew. rewrite Er, Ew, Z.add_0_r, Z.eqb_refl. eexists. split; [reflexivity|]. done.
  - destruct (line_take _ _ _ _ _ Hr) as (Hne & Hx & Hr' & Hback). rewrite Hne, Hx. cbv zeta.
    rewrite (bind_Ret (modify _) _ s tt _ eq_refl). destruct (c =? Ctrl 68) eqn:Ed.
    + destruct (n <? target); eexists; (split; [reflexivity|]); (split; [|done]); [|exact Hr'].
      cbn. rewrite Hback. destruct s; exact Hr.
    + destruct (c =? c_newline) eqn:Enl; [eexists; split; [reflexivity|]; by split|].
      specialize (IH fuel (n - 1) _ ltac:(lia) Hr'). destruct (line_read com (n - 1) target killed) as [[[l n'] e] com'].
      destruct IH as (s' & E & R' & G'). rewrite (bind_Ret _ _ _ _ _ E). exists s'. auto.
Qed.

(** What happens to the console: an interrupt, or a stretch of a read by some
    process. *)
Inductive conop := Keys (keys : list Z) | Read (n target : Z) (killed : bool).

(** The results of the reads among some operations, as console.c computes
    them and as the line editor says. *)
Fixpoint run_ops (ops : list conop) : M con (list (list Z * Z * rdend)) :=
  match ops with
  | [] => mret []
  | Keys keys :: ops => consoleintr keys false ;; run_ops ops
  | Read n target killed :: ops => r ← read_round n target killed; rs ← run_ops ops; mret (r :: rs)
  end.
Fixpoint line_ops (ops : list conop) (a : line) : list (list Z * Z * rdend) * line :=
  match ops with
  | [] => ([], a)
  | Keys keys :: ops => line_ops ops (line_keys keys a)
  | Read n target killed :: ops =>
      let '(l, n', e, com) := line_read (committed a) n target killed in
      let '(rs, a') := line_ops ops (Line com (editing a) (woken a)) in
      ((l, n', e) :: rs, a')
  end.

Definition keys_ok (op : conop) : Prop := match op with Keys keys => Forall (λ c, c < 256) keys | Read _ _ _ => True end.

Lemma ops_run ops a s :
  Forall keys_ok ops → rep a s →
  ∃ s', run_ops ops s = Ret (line_ops ops a).1 s' ∧ rep (line_ops ops a).2 s' ∧ (grid s → grid s').
Proof.
  intros Ho. revert a s. induction Ho as [|op ops Hop _ IH]; intros a s Hr; cbn [run_ops line_ops]; [by exists s|].
  destruct op as [keys|n target killed].
  - destruct (consoleintr_run keys false a s Hop Hr) as (b & s1 & E1 & R1 & G1). rewrite (bind_Ret _ _ _ _ _ E1).
    destruct (IH _ _ R1) as (s' & E' & R' & G'). exists s'. auto.
  - destruct a as [com ed wk]. unfold read_round. pose proof (read_run (Z.to_nat n) n target killed com ed wk s ltac:(lia) Hr) as Hread.
    cbn [committed editing woken]. destruct (line_read com n target killed) as [[[l n'] e] com'].
    destruct Hread as (s1 & E1 & R1 & G1). rewrite (bind_Ret _ _ _ _ _ E1). destruct (IH _ _ R1) as (s' & E' & R' & G').
    rewrite (bind_Ret _ _ _ _ _ E'). destruct (line_ops ops _) as [rs a']. exists s'. auto.
Qed.

Lemma rep_start : rep (Line [] [] 0) con0.
Proof. exists 0. split; [done|]. cbn. unfold INPUT_BUF. split_and!; try done; [intros k Hk; cbn in Hk; lia|apply not_elem_of_nil]. Qed.

(** C29: whatever characters arrive and however the reads of any number of
    processes are interleaved with them, the ring buffer of console.c, its
    indices wrapping at 2^32 and at 128, gives every read exactly what the
    line editor [line_ops] gives it: finished lines only, in order, with
    erase, kill-line and end-of-file; readers are woken each time a line is
    finished; no operation faults or loops; and every drawing call the echo
    makes is one that the screen can carry out: the glyph of a byte on the
    53 by 20 grid, or scrolling by one line of text. *)
Theorem console_refines_line ops :
  Forall keys_ok ops →
  ∃ s, run_ops ops con0 = Ret (line_ops ops (Line [] [] 0)).1 s ∧ c_wake s = woken (line_ops ops (Line [] [] 0)).2 ∧ grid s.
Proof.
  intros Ho. destruct (ops_run ops _ _ Ho rep_start) as (s & E & (R & _ & _ & _ & _ & _ & _ & _ & _ & Hw & _) & Hg).
  exists s. split_and!; [exact E|exact Hw|]. apply Hg. split; [cbn; unfold CONSOLE_HORIZONTAL_MAX, CONSOLE_VERTICAL_MAX; lia|constructor].
Qed.

(** "hx", erase, "i" and return, typed; then a read of ten bytes. *)
Lemma console_refines_line_witness :
  ∃ s, run_ops [Keys [104; 120; 127; 105; 13]; Read 10 10 false] con0 = Ret [([104; 105; 10], 7, RDone)] s ∧ c_wake s = 1.
Proof.
  destruct (console_refines_line [Keys [104; 120; 127; 105; 13]; Read 10 10 false]) as (s & E & Hw & _).
  - repeat constructor; cbn; lia.
  - exists s. split; [exact E|exact Hw].
Defined.
