(* ===== verification/Kbd.v ===== *)
(** * The keyboard: kbd.c

    [kbdgetc] turns scan codes into characters, with the modifier keys in
    [shift].  Its results are what the console's interrupt handler gets. *)

From S2P Require Import Prelude Param Console.

Definition KBS_DIB : Z := 0x01.
Definition SHIFT : Z := 0x1.
Definition CTL : Z := 0x2.
Definition ALT : Z := 0x4.
Definition CAPSLOCK : Z := 0x8.
Definition NUMLOCK : Z := 0x10.
Definition SCROLLLOCK : Z := 0x20.
Definition E0ESC : Z := 0x40.

(** A table of 256 bytes: its first entries, and some others by index. *)
Definition table (l : list Z) (at_ : list (Z * Z)) (i : Z) : Z :=
  match List.find (λ p, p.1 =? i) at_ with
  | Some p => p.2
  | None => byte_at l (Z.to_nat i)
  end.

Definition shiftcode : Z → Z :=
  table [] [(0x1D, CTL); (0x2A, SHIFT); (0x36, SHIFT); (0x38, ALT); (0x9D, CTL); (0xB8, ALT)].
Definition togglecode : Z → Z := table [] [(0x3A, CAPSLOCK); (0x45, NUMLOCK); (0x46, SCROLLLOCK)].
Definition normalmap : Z → Z :=
  table
  [0; 27; 49; 50; 51; 52; 53; 54; 55; 56; 57; 48; 45; 61; 8; 9;
   113; 119; 101; 114; 116; 121; 117; 105; 111; 112; 91; 93; 10; 0; 97; 115;
   100; 102; 103; 104; 106; 107; 108; 59; 39; 96; 0; 92; 122; 120; 99; 118;
   98; 110; 109; 44; 46; 47; 0; 42; 0; 32; 0; 0; 0; 0; 0; 0;
   0; 0; 0; 0; 0; 0; 0; 55; 56; 57; 45; 52; 53; 54; 43; 49;
   50; 51; 48; 46; 0; 0; 0; 0]
  [(0x9C, 0xA); (0xB5, 0x2F); (0xC8, 0xE2); (0xD0, 0xE3); (0xC9, 0xE6); (0xD1, 0xE7); (0xCB, 0xE4); (0xCD, 0xE5); (0x97, 0xE0); (0xCF, 0xE1); (0xD2, 0xE8); (0xD3, 0xE9)].
Definition shiftmap : Z → Z :=
  table
  [0; 27; 33; 64; 35; 36; 37; 94; 38; 42; 40; 41; 95; 43; 8; 9;
   81; 87; 69; 82; 84; 89; 85; 73; 79; 80; 123; 125; 10; 0; 65; 83;
   68; 70; 71; 72; 74; 75; 76; 58; 34; 126; 0; 124; 90; 88; 67; 86;
   66; 78; 77; 60; 62; 63; 0; 42; 0; 32; 0; 0; 0; 0; 0; 0;
   0; 0; 0; 0; 0; 0; 0; 55; 56; 57; 45; 52; 53; 54; 43; 49;
   50; 51; 48; 46; 0; 0; 0; 0]
  [(0x9C, 0xA); (0xB5, 0x2F); (0xC8, 0xE2); (0xD0, 0xE3); (0xC9, 0xE6); (0xD1, 0xE7); (0xCB, 0xE4); (0xCD, 0xE5); (0x97, 0xE0); (0xCF, 0xE1); (0xD2, 0xE8); (0xD3, 0xE9)].
Definition ctlmap : Z → Z :=
  table
  [0; 0; 0; 0; 0; 0; 0; 0; 0; 0; 0; 0; 0; 0; 0; 0;
   17; 23; 5; 18; 20; 25; 21; 9; 15; 16; 0; 0; 13; 0; 1; 19;
   4; 6; 7; 8; 10; 11; 12; 0; 0; 0; 0; 28; 26; 24; 3; 22;
   2; 14; 13; 0; 0; 0xEF; 0; 0]
  [(0x9C, 0xD); (0xB5, 0xEF); (0xC8, 0xE2); (0xD0, 0xE3); (0xC9, 0xE6); (0xD1, 0xE7); (0xCB, 0xE4); (0xCD, 0xE5); (0x97, 0xE0); (0xCF, 0xE1); (0xD2, 0xE8); (0xD3, 0xE9)].

(** [charcode[i]]. *)
Definition charcode (i : Z) : Z → Z :=
  if i =? 0 then normalmap else if i =? 1 then shiftmap else ctlmap.

(** The character under caps lock. *)
Definition capslock (c : Z) : Z :=
  if (97 <=? c) && (c <=? 122) then u32 (c + (65 - 97))
  else if (65 <=? c) && (c <=? 90) then u32 (c + (97 - 65))
  else c.

(** [kbdgetc] with the status byte [st] and the data byte: the result and the
    new [shift]. *)
Definition kbdgetc (st data shift : Z) : Z * Z :=
  if Z.land st KBS_DIB =? 0 then (-1, shift) else
  if data =? 0xE0 then (0, Z.lor shift E0ESC) else
  if negb (Z.land data 0x80 =? 0) then
    let data := if negb (Z.land shift E0ESC =? 0) then data else Z.land data 0x7F in
    (0, Z.land shift (u32 (Z.lnot (Z.lor (shiftcode data) E0ESC))))
  else
    let '(data, shift) :=
      if negb (Z.land shift E0ESC =? 0) then (Z.lor data 0x80, Z.land shift (u32 (Z.lnot E0ESC))) else (data, shift) in
    let shift := Z.lor shift (shiftcode data) in
    let shift := Z.lxor shift (togglecode data) in
    let c := charcode (Z.land shift (Z.lor CTL SHIFT)) data in
    (if negb (Z.land shift CAPSLOCK =? 0) then capslock c else c, shift).

(** [kbdintr]: the console takes characters until the controller has no more;
    [bytes] are the data bytes it has. *)
Fixpoint kbd_keys (bytes : list Z) (shift : Z) : list Z * Z :=
  match bytes with
  | [] => ([(kbdgetc 0 0 shift).1], shift)
  | d :: bytes =>
      let '(c, shift) := kbdgetc KBS_DIB d shift in
      let '(l, shift) := kbd_keys bytes shift in
      (c :: l, shift)
  end.
Definition kbdintr (bytes : list Z) (shift : Z) : M con (bool * Z) :=
  let '(keys, shift) := kbd_keys bytes shift in
  b ← consoleintr keys false;
  mret (b, shift).

(** ** What it delivers *)

(** All values below [n]. *)
Definition below (n : nat) (P : Z → bool) : bool := forallb (λ k, P (Z.of_nat k)) (seq 0 n).

Lemma below_spec n P k : below n P = true → 0 <= k < Z.of_nat n → P k = true.
Proof.
  intros Hn Hk. unfold below in Hn. rewrite forallb_forall in Hn. specialize (Hn (Z.to_nat k)).
  rewrite Z2Nat.id in Hn by lia. apply Hn. apply in_seq. lia.
Qed.

(** One character: the result is a byte, and [shift] keeps to its seven bits. *)
Lemma kbdgetc_range d shift :
  0 <= d < 256 → 0 <= shift < 128 →
  0 <= (kbdgetc KBS_DIB d shift).1 < 256 ∧ 0 <= (kbdgetc KBS_DIB d shift).2 < 128.
Proof.
  intros Hd Hs.
  assert (Hall : below 128 (λ s, below 256 (λ d, let r := kbdgetc KBS_DIB d s in
    (0 <=? r.1) && (r.1 <? 256) && (0 <=? r.2) && (r.2 <? 128))) = true) by (vm_compute; reflexivity).
  pose proof (below_spec 256 _ d (below_spec 128 _ shift Hall ltac:(lia)) ltac:(lia)) as H. cbv zeta beta in H. lia.
Qed.

(** The modifier keys: a key pressed and released leaves [shift] as it was,
    less the bit of the key, unless it is a lock key.  (Scan code 0x60 has no
    release code: 0xE0 is the escape.) *)
Lemma press_release d shift :
  0 < d < 128 → d ≠ 0x60 → 0 <= shift < 64 → togglecode d = 0 →
  (kbdgetc KBS_DIB (d + 128) (kbdgetc KBS_DIB d shift).2).2 = Z.land shift (Z.lnot (shiftcode d)).
Proof.
  intros Hd Hd' Hs Ht.
  assert (Hall : below 64 (λ s, below 127 (λ k, let d := k + 1 in (d =? 0x60) || negb (togglecode d =? 0) ||
    ((kbdgetc KBS_DIB (d + 128) (kbdgetc KBS_DIB d s).2).2 =? Z.land s (Z.lnot (shiftcode d))))) = true) by (vm_compute; reflexivity).
  pose proof (below_spec 127 _ (d - 1) (below_spec 64 _ shift Hall ltac:(lia)) ltac:(lia)) as H. cbv zeta beta in H.
  replace (d - 1 + 1) with d in H by lia. rewrite Ht in H.
  rewrite (proj2 (Z.eqb_neq d 0x60) Hd') in H. cbn [orb negb Z.eqb] in H. apply Z.eqb_eq. exact H.
Qed.

(** The characters of one keyboard interrupt are bytes, so the theorem on the
    console applies to them. *)
Lemma kbd_keys_ok bytes shift : bytes_ok bytes → 0 <= shift < 128 → keys_ok (Keys (kbd_keys bytes shift).1).
Proof.
  intros Hb. revert shift. cbn [keys_ok]. induction Hb as [|d bytes Hd _ IH]; intros shift Hs; cbn [kbd_keys].
  - apply Forall_singleton. vm_compute. reflexivity.
  - destruct (kbdgetc_range d shift Hd Hs) as [Hc Hs']. destruct (kbdgetc KBS_DIB d shift) as [c shift'].
    specialize (IH shift' Hs'). destruct (kbd_keys bytes shift') as [l s]. cbn [fst snd] in *. constructor; [lia|exact IH].
Qed.
