(* ===== verification/Graphic.v ===== *)
(** * The screen: graphic.c and font.c

    The frame buffer is memory at [vvram_addr], four bytes per pixel and
    [pixels_per_line] pixels per line; a character is 15 pixels wide and 30
    high.  The table of glyphs is that of font_bin.h. *)

From S2P Require Import Prelude Param StringC Kalloc Vm Console.

(** [struct graphic_config] of the boot parameters, and [gpu]. *)
Record graphic_config := GConfig { frame_base : Z; frame_size : Z; g_hres : Z; g_vres : Z; g_ppl : Z }.
Record gpu_t := GpuT { g_pvram : Z; vvram_addr : Z; g_size : Z; horizontal_resolution : Z; vertical_resolution : Z; pixels_per_line : Z }.

Definition graphic_init (c : graphic_config) : gpu_t :=
  GpuT (u32 (frame_base c)) (u32 (DEVSPACE - u32 (frame_size c))) (u32 (frame_size c))
    (u32 (Z.land (g_hres c) 0xFFFFFFFF)) (u32 (Z.land (g_vres c) 0xFFFFFFFF)) (u32 (Z.land (g_ppl c) 0xFFFFFFFF)).

Record graphic_pixel := Pixel { blue : Z; green : Z; red : Z; black : Z }.
Definition black_pixel : graphic_pixel := Pixel 0 0 0 0.
Definition white_pixel : graphic_pixel := Pixel 0xFF 0xFF 0xFF 0.

(** font_bin.h: bit [14 - dx] of entry [dy] is the pixel ([dx], [dy]). *)
Definition font_bin : list (list Z) := [
  [0; 0; 0; 0; 0; 0; 0; 0; 0; 0; 0; 0; 0; 0; 0; 0; 0; 0; 0; 0; 0; 0; 0; 0; 0; 0; 0; 0; 0; 0];
  [0; 0x1C0; 0x1C0; 0x1C0; 0x1C0; 0x1C0; 0x1C0; 0x1C0; 0x1C0; 0x1C0; 0x1C0; 0x180; 0x180; 0x180; 0x180; 0x180; 0; 0; 0; 0x1C0; 0x3C0; 0x3C0; 0x1C0; 0; 0; 0; 0; 0; 0; 0];
  [0xC38; 0x1E38; 0x1E38; 0xE38; 0xE38; 0xC38; 0xC38; 0xC38; 0xC30; 0xC10; 0; 0; 0; 0; 0; 0; 0; 0; 0; 0; 0; 0; 0; 0; 0; 0; 0; 0; 0; 0];
  [0; 0; 0x318; 0x318; 0x318; 0x210; 0x630; 0x738; 0x3FFE; 0x3FFE; 0x630; 0x630; 0x630; 0x630; 0x3FFC; 0x3FFC; 0x3FFC; 0xC60; 0xC60; 0xC60; 0xC60; 0xC60; 0x18C0; 0; 0; 0; 0; 0; 0; 0];
  [0x180; 0x180; 0x3E0; 0x7F0; 0xFF8; 0xE18; 0x1C00; 0x1C00; 0x1E00; 0xF00; 0xF80; 0x7C0; 0x3F0; 0x1F8; 0x78; 0x3C; 0x1C; 0x1C; 0x1C; 0x183C; 0x1FF8; 0x1FF0; 0x7E0; 0x180; 0x180; 0x180; 0x80; 0; 0; 0];
  [0; 0; 0x1E00; 0x3F04; 0x330E; 0x730C; 0x6318; 0x6338; 0x6330; 0x3320; 0x3700; 0x1E00; 0x800; 0x3C; 0x7C; 0x6C6; 0xCC6; 0x1CC6; 0x18C6; 0x38C6; 0x30C6; 0x7C; 0x3C; 0; 0; 0; 0; 0; 0; 0];
  [0; 0x380; 0x7C0; 0xFE0; 0xC60; 0xC60; 0xC60; 0xC60; 0xEE0; 0xFC0; 0xF80; 0x70E; 0xF0E; 0x1F8E; 0x1F8C; 0x39DC; 0x39FC; 0x38F8; 0x3878; 0x387C; 0x3CFE; 0x1FFE; 0xFC4; 0; 0; 0; 0; 0; 0; 0];
  [0x1C0; 0x1C0; 0x1C0; 0x1C0; 0x1C0; 0x1C0; 0x1C0; 0x180; 0x180; 0x80; 0; 0; 0; 0; 0; 0; 0; 0; 0; 0; 0; 0; 0; 0; 0; 0; 0; 0; 0; 0];
  [0x38; 0x70; 0xE0; 0x1E0; 0x1C0; 0x380; 0x380; 0x380; 0x700; 0x700; 0x700; 0x700; 0x700; 0x700; 0x700; 0x700; 0x700; 0x700; 0x700; 0x300; 0x380; 0x380; 0x180; 0x1C0; 0xE0; 0xE0; 0x70; 0x38; 0; 0];
  [0xE00; 0xF00; 0x700; 0x380; 0x1C0; 0x1C0; 0xC0; 0xE0; 0xE0; 0xE0; 0x60; 0x70; 0x70; 0x70; 0x70; 0x70; 0x70; 0x60; 0xE0; 0xE0; 0xE0; 0xC0; 0x1C0; 0x380; 0x380; 0x700; 0xE00; 0xE00; 0; 0];
  [0x180; 0x180; 0x180; 0x1FF8; 0xFF8; 0x3E0; 0x3E0; 0x760; 0x630; 0x420; 0; 0; 0; 0; 0; 0; 0; 0; 0; 0; 0; 0; 0; 0; 0; 0; 0; 0; 0; 0];
  [0; 0; 0; 0; 0; 0x180; 0x180; 0x180; 0x180; 0x180; 0x180; 0x3FFE; 0x3FFE; 0x1C0; 0x180; 0x180; 0x180; 0x180; 0x180; 0x180; 0; 0; 0; 0; 0; 0; 0; 0; 0; 0];
  [0; 0; 0; 0; 0; 0; 0; 0; 0; 0; 0; 0; 0; 0; 0; 0; 0; 0; 0; 0x3C0; 0x3E0; 0x3E0; 0x1E0; 0x60; 0xC0; 0xC0; 0x380; 0x300; 0x200; 0];
  [0; 0; 0; 0; 0; 0; 0; 0; 0; 0; 0; 0; 0; 0xFF0; 0xFF0; 0xFF0; 0; 0; 0; 0; 0; 0; 0; 0; 0; 0; 0; 0; 0; 0];
  [0; 0; 0; 0; 0; 0; 0; 0; 0; 0; 0; 0; 0; 0; 0; 0; 0; 0; 0; 0x1C0; 0x3C0; 0x3C0; 0x1C0; 0; 0; 0; 0; 0; 0; 0];
  [0xC; 0xC; 0x1C; 0x18; 0x18; 0x30; 0x30; 0x30; 0x60; 0x60; 0xE0; 0xC0; 0xC0; 0x180; 0x180; 0x180; 0x300; 0x300; 0x300; 0x600; 0x600; 0xE00; 0xC00; 0xC00; 0x1800; 0x1800; 0x1800; 0x3000; 0; 0];
  [0; 0; 0x3E0; 0x7F0; 0xFF0; 0xE38; 0x1C38; 0x1C1C; 0x1C1C; 0x1C1C; 0x3C1C; 0x3C1C; 0x3C1C; 0x3C1C; 0x1C1C; 0x1C1C; 0x1C1C; 0x1C1C; 0x1C38; 0xE38; 0xF78; 0x7F0; 0x3E0; 0; 0; 0; 0; 0; 0; 0];
  [0; 0; 0x1C0; 0x7C0; 0xFC0; 0xFC0; 0x1C0; 0x1C0; 0x1C0; 0x1C0; 0x1C0; 0x1C0; 0x1C0; 0x1C0; 0x1C0; 0x1C0; 0x1C0; 0x1C0; 0x1C0; 0x1C0; 0x1FFC; 0x1FFC; 0x1FFC; 0; 0; 0; 0; 0; 0; 0];
  [0; 0; 0x7E0; 0x1FF0; 0x3FF0; 0x1838; 0x38; 0x38; 0x38; 0x38; 0x38; 0x78; 0x70; 0xF0; 0xE0; 0x1C0; 0x3C0; 0x780; 0x700; 0xE00; 0x1FFC; 0x3FFC; 0x3FFC; 0; 0; 0; 0; 0; 0; 0];
  [0; 0; 0x7E0; 0x1FF0; 0x1FF8; 0x1838; 0x38; 0x38; 0x38; 0x38; 0xF0; 0x3E0; 0x3E0; 0x3F0; 0x78; 0x38; 0x1C; 0x1C; 0x1C; 0x1838; 0x3EF8; 0x1FF0; 0xFE0; 0; 0; 0; 0; 0; 0; 0];
  [0; 0; 0xF0; 0xF0; 0x1F0; 0x1F0; 0x3F0; 0x370; 0x770; 0x670; 0xE70; 0xC70; 0x1C70; 0x1870; 0x3878; 0x3FFC; 0x3FFC; 0x78; 0x70; 0x70; 0x70; 0x70; 0x70; 0; 0; 0; 0; 0; 0; 0];
  [0; 0; 0xFF8; 0xFF8; 0xFF8; 0xE00; 0xE00; 0xE00; 0xC00; 0xC00; 0xFE0; 0x1FF0; 0xC78; 0x38; 0x3C; 0x1C; 0x1C; 0x1C; 0x3C; 0x1038; 0x3EF8; 0x1FF0; 0xFE0; 0; 0; 0; 0; 0; 0; 0];
  [0; 0; 0x1F0; 0x7F8; 0x7F8; 0xE08; 0x1E00; 0x1C00; 0x1C00; 0x1C00; 0x1CE0; 0x1FF0; 0x1FF8; 0x1E3C; 0x1C1C; 0x1C1C; 0x1C1C; 0x1C1C; 0x1C1C; 0xE1C; 0xF78; 0x7F0; 0x3E0; 0; 0; 0; 0; 0; 0; 0];
  [0; 0; 0x1FFC; 0x1FFC; 0x1FFC; 0x38; 0x38; 0x70; 0x70; 0xE0; 0xE0; 0xE0; 0x1C0; 0x1C0; 0x1C0; 0x1C0; 0x3C0; 0x380; 0x380; 0x380; 0x380; 0x380; 0x380; 0; 0; 0; 0; 0; 0; 0];
  [0; 0; 0x7E0; 0xFF0; 0xE78; 0x1C38; 0x1C18; 0x1C18; 0x1C18; 0x1E38; 0xF30; 0x7F0; 0x7E0; 0xFF0; 0x1C78; 0x1C3C; 0x381C; 0x381C; 0x381C; 0x1C1C; 0x1E3C; 0xFF8; 0x7F0; 0; 0; 0; 0; 0; 0; 0];
  [0; 0; 0x7C0; 0xFE0; 0x1E70; 0x1C38; 0x1C38; 0x381C; 0x381C; 0x381C; 0x1C1C; 0x1C3C; 0x1FFC; 0xFFC; 0x79C; 0x1C; 0x1C; 0x38; 0x38; 0x878; 0x1CF0; 0x1FE0; 0xFC0; 0; 0; 0; 0; 0; 0; 0];
  [0; 0; 0; 0; 0; 0; 0; 0x180; 0x3C0; 0x3C0; 0x3C0; 0x1C0; 0; 0; 0; 0; 0; 0; 0; 0x1C0; 0x3C0; 0x3C0; 0x1C0; 0; 0; 0; 0; 0; 0; 0];
  [0; 0; 0; 0; 0; 0; 0; 0x180; 0x3C0; 0x3C0; 0x3C0; 0x1C0; 0; 0; 0; 0; 0; 0; 0; 0x3C0; 0x3E0; 0x3E0; 0x1E0; 0x60; 0xC0; 0xC0; 0x380; 0x300; 0x200; 0];
  [0; 0; 0; 0; 0; 0; 0x6; 0x1E; 0xFE; 0x3F0; 0x1F80; 0x3E00; 0x3C00; 0x3F00; 0x7E0; 0x1FC; 0x3E; 0xE; 0; 0; 0; 0; 0; 0; 0; 0; 0; 0; 0; 0];
  [0; 0; 0; 0; 0; 0; 0; 0x3FFC; 0x3FFE; 0x3FFE; 0; 0; 0; 0; 0; 0x3FFE; 0x3FFE; 0; 0; 0; 0; 0; 0; 0; 0; 0; 0; 0; 0; 0];
  [0; 0; 0; 0; 0; 0; 0x2000; 0x3C00; 0x3F00; 0xFE0; 0x1F8; 0x3C; 0x1C; 0xFC; 0x7F0; 0x3F80; 0x3E00; 0x3000; 0; 0; 0; 0; 0; 0; 0; 0; 0; 0; 0; 0];
  [0; 0x7E0; 0xFF0; 0x1E78; 0x838; 0x38; 0x38; 0x38; 0x38; 0x70; 0xF0; 0xE0; 0x1C0; 0x1C0; 0x380; 0x380; 0; 0; 0; 0x3C0; 0x3C0; 0x3C0; 0x3C0; 0; 0; 0; 0; 0; 0; 0];
  [0; 0; 0x1E0; 0x7F0; 0xF38; 0xC1C; 0x1C0C; 0x180C; 0x380C; 0x380C; 0x301C; 0x307C; 0x31FC; 0x31CC; 0x338C; 0x338C; 0x338C; 0x339C; 0x31FC; 0x31E4; 0x3800; 0x1800; 0x1800; 0x1C00; 0xE00; 0x738; 0x3F8; 0xE0; 0; 0];
  [0; 0; 0x3E0; 0x3E0; 0x7E0; 0x7E0; 0x770; 0x770; 0x670; 0xE70; 0xE70; 0xE38; 0xE38; 0xC38; 0x1FF8; 0x1FF8; 0x1FFC; 0x1C1C; 0x381C; 0x381C; 0x381C; 0x380E; 0x380E; 0; 0; 0; 0; 0; 0; 0];
  [0; 0; 0x1FE0; 0x1FF8; 0x1C78; 0x1C3C; 0x1C3C; 0x1C3C; 0x1C38; 0x1C38; 0x1EF0; 0x1FE0; 0x1FF8; 0x1C3C; 0x1C1C; 0x1C1C; 0x1C1C; 0x1C1C; 0x1C1C; 0x1C3C; 0x1FF8; 0x1FF0; 0x1FE0; 0; 0; 0; 0; 0; 0; 0];
  [0; 0xE0; 0x3F8; 0x7FC; 0xF9C; 0xE00; 0x1E00; 0x1C00; 0x1C00; 0x1C00; 0x3C00; 0x3C00; 0x3C00; 0x3C00; 0x3C00; 0x1C00; 0x1C00; 0x1C00; 0x1E00; 0xF0C; 0xFFE; 0x7FC; 0x1F8; 0; 0; 0; 0; 0; 0; 0];
  [0; 0; 0x1FC0; 0x1FF0; 0x1CF0; 0x1C78; 0x1C38; 0x1C3C; 0x1C1C; 0x1C1C; 0x1C1C; 0x1C1C; 0x1C1C; 0x1C1C; 0x1C1C; 0x1C1C; 0x1C1C; 0x1C3C; 0x1C38; 0x1C78; 0x1FF0; 0x1FE0; 0x1F80; 0; 0; 0; 0; 0; 0; 0];
  [0; 0; 0x1FFC; 0x1FFC; 0x1E00; 0x1E00; 0x1E00; 0x1E00; 0x1E00; 0x1E00; 0x1FF0; 0x1FF0; 0x1FF0; 0x1E00; 0x1E00; 0x1E00; 0x1E00; 0x1E00; 0x1E00; 0x1E00; 0x1FFC; 0x1FFC; 0x1FFC; 0; 0; 0; 0; 0; 0; 0];
  [0; 0; 0xFFC; 0xFFC; 0xE00; 0xE00; 0xE00; 0xE00; 0xE00; 0xE00; 0xE00; 0xFF8; 0xFF8; 0xFF8; 0xE00; 0xE00; 0xE00; 0xE00; 0xE00; 0xE00; 0xE00; 0xE00; 0xE00; 0; 0; 0; 0; 0; 0; 0];
  [0; 0xE0; 0x3F8; 0x7FC; 0xF1C; 0x1E08; 0x1C00; 0x1C00; 0x1C00; 0x3C00; 0x3C00; 0x3800; 0x387C; 0x3C7C; 0x3C1C; 0x3C1C; 0x1C1C; 0x1C1C; 0x1E1C; 0xE1C; 0xFFC; 0x7FC; 0x3F8; 0; 0; 0; 0; 0; 0; 0];
  [0; 0; 0x1C1C; 0x1C1C; 0x1C1C; 0x1C1C; 0x1C1C; 0x1C1C; 0x1C1C; 0x1C1C; 0x1FFC; 0x1FFC; 0x1FFC; 0x1C1C; 0x1C1C; 0x1C1C; 0x1C1C; 0x1C1C; 0x1C1C; 0x1C1C; 0x1C1C; 0x1C1C; 0x1C1C; 0; 0; 0; 0; 0; 0; 0];
  [0; 0; 0x1FFC; 0x1FFC; 0x3C0; 0x1C0; 0x1C0; 0x1C0; 0x1C0; 0x1C0; 0x1C0; 0x1C0; 0x1C0; 0x1C0; 0x1C0; 0x1C0; 0x1C0; 0x1C0; 0x1C0; 0x1C0; 0x1FFC; 0x1FFC; 0x1FFC; 0; 0; 0; 0; 0; 0; 0];
  [0; 0; 0x38; 0x38; 0x38; 0x38; 0x38; 0x38; 0x38; 0x38; 0x38; 0x38; 0x38; 0x38; 0x38; 0x38; 0x38; 0x38; 0x38; 0x1838; 0x1FF8; 0x1FF0; 0x7E0; 0; 0; 0; 0; 0; 0; 0];
  [0; 0; 0x1C1C; 0x1C3C; 0x1C38; 0x1C70; 0x1C70; 0x1CE0; 0x1CE0; 0x1DC0; 0x1DE0; 0x1FE0; 0x1FE0; 0x1FF0; 0x1E70; 0x1E70; 0x1C38; 0x1C38; 0x1C38; 0x1C1C; 0x1C1C; 0x1C1C; 0x1C0E; 0; 0; 0; 0; 0; 0; 0];
  [0; 0; 0xE00; 0xE00; 0xE00; 0xE00; 0xE00; 0xE00; 0xE00; 0xE00; 0xE00; 0xE00; 0xE00; 0xE00; 0xE00; 0xE00; 0xE00; 0xE00; 0xE00; 0xE00; 0xFFC; 0xFFC; 0xFFC; 0; 0; 0; 0; 0; 0; 0];
  [0; 0; 0x3C1C; 0x3C1C; 0x3C3C; 0x3C3C; 0x3E3C; 0x3E3C; 0x3E7C; 0x3E6C; 0x3B6C; 0x3B4C; 0x3BCC; 0x39CC; 0x39CC; 0x398C; 0x398C; 0x380C; 0x380C; 0x380C; 0x380C; 0x380C; 0x380C; 0; 0; 0; 0; 0; 0; 0];
  [0; 0; 0x1C1C; 0x1E1C; 0x1E1C; 0x1E1C; 0x1F1C; 0x1F1C; 0x1B1C; 0x1B1C; 0x199C; 0x199C; 0x199C; 0x18DC; 0x18DC; 0x18DC; 0x18FC; 0x187C; 0x187C; 0x187C; 0x183C; 0x183C; 0x183C; 0; 0; 0; 0; 0; 0; 0];
  [0; 0x1C0; 0x7F0; 0xFF0; 0x1E78; 0x1C38; 0x1C1C; 0x3C1C; 0x3C1C; 0x381C; 0x381C; 0x381C; 0x381C; 0x381C; 0x381C; 0x381C; 0x3C1C; 0x1C1C; 0x1C3C; 0x1E38; 0xFF8; 0xFF0; 0x3E0; 0; 0; 0; 0; 0; 0; 0];
  [0; 0; 0x1FF0; 0x1FF8; 0x1C7C; 0x1C1C; 0x1C1C; 0x1C1E; 0x1C1E; 0x1C1C; 0x1C1C; 0x1C3C; 0x1FF8; 0x1FF0; 0x1FC0; 0x1C00; 0x1C00; 0x1C00; 0x1C00; 0x1C00; 0x1C00; 0x1C00; 0x1C00; 0; 0; 0; 0; 0; 0; 0];
  [0; 0x1C0; 0x7F0; 0xFF0; 0x1E78; 0x1C38; 0x1C1C; 0x3C1C; 0x3C1C; 0x381C; 0x381C; 0x381C; 0x381C; 0x381C; 0x381C; 0x381C; 0x3C1C; 0x1C1C; 0x1C3C; 0x1C38; 0xF78; 0xFF0; 0x3E0; 0x1C0; 0x1C0; 0xF0; 0x7E; 0x3E; 0xC; 0];
  [0; 0; 0x1FF0; 0x1FF8; 0x1C7C; 0x1C3C; 0x1C1C; 0x1C1C; 0x1C1C; 0x1C1C; 0x1C3C; 0x1C78; 0x1FF8; 0x1FE0; 0x1CE0; 0x1CF0; 0x1C70; 0x1C70; 0x1C38; 0x1C38; 0x1C3C; 0x1C1C; 0x1C1E; 0; 0; 0; 0; 0; 0; 0];
  [0; 0x1C0; 0x7F0; 0xFF8; 0x1E38; 0x1C00; 0x1C00; 0x1C00; 0x1E00; 0x1F00; 0xF80; 0x7E0; 0x3F0; 0xF8; 0x7C; 0x3C; 0x1C; 0x1C; 0x81C; 0x1C3C; 0x3FF8; 0x1FF8; 0x7E0; 0; 0; 0; 0; 0; 0; 0];
  [0; 0; 0x3FFE; 0x3FFE; 0x3C0; 0x1C0; 0x1C0; 0x1C0; 0x1C0; 0x1C0; 0x1C0; 0x1C0; 0x1C0; 0x1C0; 0x1C0; 0x1C0; 0x1C0; 0x1C0; 0x1C0; 0x1C0; 0x1C0; 0x1C0; 0x1C0; 0; 0; 0; 0; 0; 0; 0];
  [0; 0; 0x1C1C; 0x1C1C; 0x1C1C; 0x1C1C; 0x1C1C; 0x1C1C; 0x1C1C; 0x1C1C; 0x1C1C; 0x1C1C; 0x1C1C; 0x1C1C; 0x1C1C; 0x1C1C; 0x1C1C; 0x1C1C; 0x1C1C; 0x1C3C; 0x1FF8; 0xFF8; 0x7E0; 0; 0; 0; 0; 0; 0; 0];
  [0; 0; 0x381E; 0x381C; 0x381C; 0x3C1C; 0x1C1C; 0x1C1C; 0x1C38; 0x1C38; 0xE38; 0xE38; 0xE38; 0xE30; 0xE70; 0x670; 0x770; 0x760; 0x760; 0x7E0; 0x3E0; 0x3E0; 0x3C0; 0; 0; 0; 0; 0; 0; 0];
  [0; 0; 0x7006; 0x7006; 0x3006; 0x300E; 0x300E; 0x31CE; 0x31CE; 0x39CE; 0x39CC; 0x39CC; 0x3BCC; 0x3BCC; 0x3B6C; 0x1B6C; 0x1A6C; 0x1E7C; 0x1E7C; 0x1E3C; 0x1E3C; 0x1E38; 0x1C38; 0; 0; 0; 0; 0; 0; 0];
  [0; 0; 0x3C1C; 0x1C1C; 0x1C38; 0xE38; 0xE38; 0xE70; 0x770; 0x7E0; 0x3E0; 0x3E0; 0x3C0; 0x3E0; 0x7E0; 0x770; 0xE70; 0xE70; 0xE38; 0x1C38; 0x1C3C; 0x3C1C; 0x381C; 0; 0; 0; 0; 0; 0; 0];
  [0; 0; 0x381E; 0x3C1C; 0x1C1C; 0x1C38; 0x1C38; 0xE38; 0xE30; 0xE70; 0x770; 0x7E0; 0x3E0; 0x3E0; 0x3C0; 0x1C0; 0x1C0; 0x1C0; 0x1C0; 0x1C0; 0x1C0; 0x1C0; 0x1C0; 0; 0; 0; 0; 0; 0; 0];
  [0; 0; 0x1FFC; 0x1FFC; 0x3C; 0x38; 0x78; 0x70; 0xF0; 0xE0; 0x1E0; 0x1C0; 0x3C0; 0x380; 0x780; 0x700; 0x700; 0xE00; 0xE00; 0x1C00; 0x1FFC; 0x3FFC; 0x3FFC; 0; 0; 0; 0; 0; 0; 0];
  [0x3F8; 0x3F8; 0x300; 0x300; 0x300; 0x300; 0x300; 0x300; 0x300; 0x300; 0x300; 0x300; 0x300; 0x300; 0x300; 0x300; 0x300; 0x300; 0x300; 0x300; 0x300; 0x300; 0x300; 0x300; 0x300; 0x300; 0x3F8; 0x3F8; 0; 0];
  [0x3000; 0x1800; 0x1800; 0x1800; 0xC00; 0xC00; 0xE00; 0x600; 0x600; 0x300; 0x300; 0x300; 0x180; 0x180; 0x180; 0xC0; 0xC0; 0xE0; 0x60; 0x60; 0x30; 0x30; 0x30; 0x18; 0x18; 0x18; 0xC; 0xC; 0; 0];
  [0xFC0; 0xFC0; 0xC0; 0xC0; 0xC0; 0xC0; 0xC0; 0xC0; 0xC0; 0xC0; 0xC0; 0xC0; 0xC0; 0xC0; 0xC0; 0xC0; 0xC0; 0xC0; 0xC0; 0xC0; 0xC0; 0xC0; 0xC0; 0xC0; 0xC0; 0xC0; 0xFC0; 0xFC0; 0; 0];
  [0; 0x1C0; 0x3C0; 0x3C0; 0x3E0; 0x760; 0x660; 0x670; 0xE30; 0xE30; 0xC38; 0x1C18; 0x1C1C; 0x181C; 0; 0; 0; 0; 0; 0; 0; 0; 0; 0; 0; 0; 0; 0; 0; 0];
  [0; 0; 0; 0; 0; 0; 0; 0; 0; 0; 0; 0; 0; 0; 0; 0; 0; 0; 0; 0; 0; 0; 0; 0; 0; 0x1FFC; 0x1FFC; 0; 0; 0];
  [0x780; 0x380; 0x180; 0x1C0; 0; 0; 0; 0; 0; 0; 0; 0; 0; 0; 0; 0; 0; 0; 0; 0; 0; 0; 0; 0; 0; 0; 0; 0; 0; 0];
  [0; 0; 0; 0; 0; 0; 0; 0x7E0; 0x1FF8; 0xE78; 0x38; 0x3C; 0x1C; 0xFC; 0x7FC; 0xF1C; 0x1C1C; 0x1C1C; 0x1C1C; 0x1C3C; 0x1E7C; 0x1FFC; 0xF9C; 0; 0; 0; 0; 0; 0; 0];
  [0; 0x1C00; 0x1C00; 0x1C00; 0x1C00; 0x1C00; 0x1C00; 0x1DF0; 0x1FF8; 0x1F78; 0x1E3C; 0x1C1C; 0x1C1C; 0x1C1C; 0x1C1C; 0x1C1C; 0x1C1C; 0x1C1C; 0x1C3C; 0x1C3C; 0x1F78; 0x1FF0; 0x19E0; 0; 0; 0; 0; 0; 0; 0];
  [0; 0; 0; 0; 0; 0; 0; 0x3F8; 0x7FC; 0xF98; 0xE00; 0x1E00; 0x1C00; 0x1C00; 0x1C00; 0x1C00; 0x1C00; 0x1C00; 0x1E00; 0xE00; 0xF9C; 0x7FC; 0x3F8; 0; 0; 0; 0; 0; 0; 0];
  [0; 0x3C; 0x3C; 0x3C; 0x3C; 0x3C; 0x3C; 0x7FC; 0xFFC; 0x1F7C; 0x1E3C; 0x1C3C; 0x3C3C; 0x3C3C; 0x3C3C; 0x3C3C; 0x3C3C; 0x3C3C; 0x1C3C; 0x1C3C; 0x1E7C; 0xFFC; 0x79C; 0; 0; 0; 0; 0; 0; 0];
  [0; 0; 0; 0; 0; 0; 0; 0x3F0; 0x7F8; 0xF38; 0x1C1C; 0x1C1C; 0x1C1C; 0x3C1C; 0x3FFC; 0x3FFC; 0x3C00; 0x1C00; 0x1C00; 0x1E00; 0xF18; 0x7F8; 0x3F8; 0; 0; 0; 0; 0; 0; 0];
  [0x38; 0xFE; 0x1FE; 0x1C0; 0x3C0; 0x380; 0x380; 0x1FFC; 0x1FFC; 0x1FF8; 0x380; 0x380; 0x380; 0x380; 0x380; 0x380; 0x380; 0x380; 0x380; 0x380; 0x380; 0x380; 0x380; 0; 0; 0; 0; 0; 0; 0];
  [0; 0; 0; 0; 0; 0; 0; 0x7FE; 0xFFE; 0x1E7C; 0x1C30; 0x1C38; 0x1C38; 0x1C38; 0x1C30; 0xE70; 0xFE0; 0xD80; 0x1C00; 0x1C00; 0x1E00; 0xFFC; 0xFFC; 0x1C1E; 0x180E; 0x380E; 0x381C; 0x1E7C; 0xFF8; 0x3C0];
  [0; 0x1C00; 0x1C00; 0x1C00; 0x1C00; 0x1C00; 0x1C00; 0x1CF8; 0x1FF8; 0x1FFC; 0x1E1C; 0x1C1C; 0x1C1C; 0x1C1C; 0x1C1C; 0x1C1C; 0x1C1C; 0x1C1C; 0x1C1C; 0x1C1C; 0x1C1C; 0x1C1C; 0x1C1C; 0; 0; 0; 0; 0; 0; 0];
  [0xE0; 0x1E0; 0x1E0; 0xE0; 0; 0; 0; 0x1FE0; 0x1FE0; 0x1FE0; 0xE0; 0xE0; 0xE0; 0xE0; 0xE0; 0xE0; 0xE0; 0xE0; 0xE0; 0xE0; 0xE0; 0xE0; 0xE0; 0; 0; 0; 0; 0; 0; 0];
  [0xE0; 0x1E0; 0x1E0; 0xE0; 0; 0; 0; 0x1FE0; 0x1FE0; 0x1FE0; 0xE0; 0xE0; 0xE0; 0xE0; 0xE0; 0xE0; 0xE0; 0xE0; 0xE0; 0xE0; 0xE0; 0xE0; 0xE0; 0xE0; 0xE0; 0xE0; 0x1BE0; 0x3FC0; 0x3F80; 0];
  [0; 0x1C00; 0x1C00; 0x1C00; 0x1C00; 0x1C00; 0x1C00; 0x1C1C; 0x1C3C; 0x1C38; 0x1C70; 0x1CF0; 0x1CE0; 0x1DC0; 0x1FE0; 0x1FE0; 0x1FF0; 0x1E70; 0x1C38; 0x1C38; 0x1C1C; 0x1C1C; 0x1C1E; 0; 0; 0; 0; 0; 0; 0];
  [0; 0x1F80; 0x1F80; 0x380; 0x380; 0x380; 0x380; 0x380; 0x380; 0x380; 0x380; 0x380; 0x380; 0x380; 0x380; 0x380; 0x380; 0x380; 0x380; 0x3C0; 0x1E8; 0x1FC; 0xFC; 0; 0; 0; 0; 0; 0; 0];
  [0; 0; 0; 0; 0; 0; 0; 0x37BC; 0x3FFC; 0x3FFE; 0x39CE; 0x398E; 0x398E; 0x398E; 0x398E; 0x398E; 0x398E; 0x398E; 0x398E; 0x398E; 0x398E; 0x398E; 0x398E; 0; 0; 0; 0; 0; 0; 0];
  [0; 0; 0; 0; 0; 0; 0; 0x18F8; 0x1FF8; 0x1FFC; 0x1E1C; 0x1C1C; 0x1C1C; 0x1C1C; 0x1C1C; 0x1C1C; 0x1C1C; 0x1C1C; 0x1C1C; 0x1C1C; 0x1C1C; 0x1C1C; 0x1C1C; 0; 0; 0; 0; 0; 0; 0];
  [0; 0; 0; 0; 0; 0; 0; 0x7E0; 0xFF0; 0x1F78; 0x1C3C; 0x1C1C; 0x3C1C; 0x3C1C; 0x381C; 0x381C; 0x3C1C; 0x3C1C; 0x1C1C; 0x1C3C; 0x1F78; 0xFF0; 0x7E0; 0; 0; 0; 0; 0; 0; 0];
  [0; 0; 0; 0; 0; 0; 0; 0x19F0; 0x1FF8; 0x1F78; 0x1E3C; 0x1C1C; 0x1C1C; 0x1C1C; 0x1C1C; 0x1C1C; 0x1C1C; 0x1C1C; 0x1C3C; 0x1C3C; 0x1F78; 0x1FF0; 0x1DE0; 0x1C00; 0x1C00; 0x1C00; 0x1C00; 0x1C00; 0x1C00; 0];
  [0; 0; 0; 0; 0; 0; 0; 0x7DC; 0xFFC; 0x1F7C; 0x1C3C; 0x1C3C; 0x3C3C; 0x3C3C; 0x383C; 0x383C; 0x3C3C; 0x3C3C; 0x1C3C; 0x1C3C; 0x1E7C; 0xFFC; 0x7BC; 0x3C; 0x3C; 0x3C; 0x3C; 0x3C; 0x3C; 0];
  [0; 0; 0; 0; 0; 0; 0; 0xE7C; 0xEFC; 0xFFC; 0xF80; 0xF00; 0xF00; 0xE00; 0xE00; 0xE00; 0xE00; 0xE00; 0xE00; 0xE00; 0xE00; 0xE00; 0xE00; 0; 0; 0; 0; 0; 0; 0];
  [0; 0; 0; 0; 0; 0; 0; 0x7F0; 0xFF8; 0x1E38; 0x1C00; 0x1C00; 0x1E00; 0xF80; 0x7E0; 0x1F8; 0x78; 0x3C; 0x1C; 0x1C; 0x1C3C; 0x1FF8; 0xFF0; 0; 0; 0; 0; 0; 0; 0];
  [0; 0; 0; 0x380; 0x380; 0x380; 0x380; 0x3FFC; 0x3FFC; 0x1FF8; 0x780; 0x780; 0x780; 0x780; 0x780; 0x780; 0x780; 0x780; 0x780; 0x380; 0x3C0; 0x3FC; 0x1FC; 0; 0; 0; 0; 0; 0; 0];
  [0; 0; 0; 0; 0; 0; 0; 0x3C3C; 0x3C3C; 0x3C3C; 0x3C3C; 0x3C3C; 0x3C3C; 0x3C3C; 0x3C3C; 0x3C3C; 0x3C3C; 0x3C3C; 0x3C3C; 0x3C7C; 0x1FFC; 0x1FDC; 0xF9C; 0; 0; 0; 0; 0; 0; 0];
  [0; 0; 0; 0; 0; 0; 0; 0x381E; 0x381C; 0x3C1C; 0x1C1C; 0x1C18; 0x1C38; 0xE38; 0xE38; 0xE30; 0xE70; 0x770; 0x760; 0x7E0; 0x3E0; 0x3E0; 0x3C0; 0; 0; 0; 0; 0; 0; 0];
  [0; 0; 0; 0; 0; 0; 0; 0x7006; 0x7186; 0x71CE; 0x31CE; 0x31CE; 0x31CE; 0x3BCE; 0x3B4C; 0x3B4C; 0x3B6C; 0x1A7C; 0x1E7C; 0x1E7C; 0x1E3C; 0x1E38; 0x1E38; 0; 0; 0; 0; 0; 0; 0];
  [0; 0; 0; 0; 0; 0; 0; 0x3C1C; 0x1C3C; 0x1E38; 0xE38; 0x770; 0x7E0; 0x3E0; 0x3C0; 0x3C0; 0x7E0; 0x7F0; 0xE70; 0xE78; 0x1C38; 0x1C3C; 0x381C; 0; 0; 0; 0; 0; 0; 0];
  [0; 0; 0; 0; 0; 0; 0; 0x381E; 0x381C; 0x1C1C; 0x1C1C; 0x1C18; 0xE38; 0xE38; 0xE38; 0x630; 0x770; 0x770; 0x370; 0x3E0; 0x3E0; 0x1E0; 0x1C0; 0x1C0; 0x1C0; 0x380; 0x1F80; 0x1F00; 0x1E00; 0];
  [0; 0; 0; 0; 0; 0; 0; 0xFFC; 0xFFC; 0xFF8; 0x38; 0x70; 0xE0; 0xE0; 0x1C0; 0x3C0; 0x380; 0x700; 0xF00; 0xE00; 0x1FFC; 0x1FFC; 0x1FFC; 0; 0; 0; 0; 0; 0; 0];
  [0xF8; 0x1F8; 0x1C0; 0x180; 0x180; 0x180; 0x180; 0x180; 0x180; 0x180; 0x180; 0x180; 0x380; 0xF00; 0xF00; 0x380; 0x180; 0x180; 0x180; 0x180; 0x180; 0x180; 0x180; 0x180; 0x180; 0x1C0; 0x1F8; 0xF8; 0; 0];
  [0x180; 0x180; 0x180; 0x180; 0x180; 0x180; 0x180; 0x180; 0x180; 0x180; 0x180; 0x180; 0x180; 0x180; 0x180; 0x180; 0x180; 0x180; 0x180; 0x180; 0x180; 0x180; 0x180; 0x180; 0x180; 0x180; 0x180; 0x180; 0x180; 0x180];
  [0xF00; 0xF80; 0x1C0; 0x1C0; 0x1C0; 0x1C0; 0x1C0; 0x1C0; 0x180; 0x180; 0x180; 0x1C0; 0x1E0; 0x78; 0xF8; 0x1E0; 0x1C0; 0x180; 0x180; 0x1C0; 0x1C0; 0x1C0; 0x1C0; 0x1C0; 0x1C0; 0x1C0; 0xF80; 0xF00; 0; 0];
  [0; 0; 0; 0; 0; 0; 0; 0; 0; 0; 0x1F00; 0x3F86; 0x31FE; 0x20FC; 0x30; 0; 0; 0; 0; 0; 0; 0; 0; 0; 0; 0; 0; 0; 0; 0]].

Section graphic.
Context (gpu : gpu_t).
(** The 16-bit words of the kernel image around [font_bin], by their distance
    from its first word: what [font_bin[index - 0x20][i]] reads when [index]
    is not one of the 95 characters of the table.  For the codes the console
    draws, -128 to 255, this is at most 9600 bytes before the table and 7680
    after it, inside the kernel's mapping of physical memory. *)
Context (around : Z → Z).

Definition graphic_draw_pixel (x y : Z) (p : graphic_pixel) : M mem unit :=
  let pixel_addr := u32 (4 * u32 (y * pixels_per_line gpu + x)) in
  let pixel := u32 (vvram_addr gpu + pixel_addr) in
  store pixel (blue p) ;; store (pixel + 1) (green p) ;; store (pixel + 2) (red p).

Definition graphic_scroll_up (height : Z) : M mem unit :=
  let addr_diff := u32 (4 * pixels_per_line gpu * height) in
  memmove (vvram_addr gpu) (u32 (vvram_addr gpu + addr_diff)) (u32 (g_size gpu - addr_diff)) ;;
  memset (u32 (vvram_addr gpu + g_size gpu - addr_diff)) 0 addr_diff ;;
  mret tt.

(** [font_bin[index - 0x20][i]]. *)
Definition font_row (index : Z) (i : nat) : Z :=
  if (0x20 <=? index) && (index <=? 0x7E) then
    default 0 (r ← font_bin !! Z.to_nat (index - 0x20); r !! i)
  else around ((index - 0x20) * 30 + Z.of_nat i).

(** [k] is [14 - j]. *)
Definition font_pixel (x y index : Z) (i k : nat) : M mem unit :=
  let j := 14 - Z.of_nat k in
  let bin := Z.land (font_row index i) (Z.shiftl 1 j) in
  graphic_draw_pixel (x + (14 - j)) (y + Z.of_nat i) (if bin =? Z.shiftl 1 j then white_pixel else black_pixel).
Definition font_render (x y index : Z) : M mem unit := for_ 30 0 (λ i, for_ 15 0 (font_pixel x y index i)).

(** [font_render_string] from character [i] on, 52 at most. *)
Fixpoint render_chars (n : nat) (string i row : Z) : M mem unit :=
  match n with
  | O => _ ← load (string + i); mret tt
  | S n =>
      c ← load (string + i);
      if c =? 0 then mret tt else
      font_render (i * 15 + 2) (row * 30) (i8 c) ;;
      render_chars n string (i + 1) row
  end.
Definition font_render_string (string row : Z) : M mem unit := render_chars 52 string 0 row.
End graphic.

(** ** Drawing *)

(** The geometry: [rows] lines of the frame are in memory. *)
Record frame (gpu : gpu_t) (rows : Z) (m : mem) : Prop := {
  fr_addr : 0 <= vvram_addr gpu;
  fr_end : vvram_addr gpu + g_size gpu < 4294967296;
  fr_ppl : 0 < pixels_per_line gpu;
  fr_rows : 4 * (pixels_per_line gpu * rows) <= g_size gpu;
  fr_map : ∀ a, vvram_addr gpu <= a < vvram_addr gpu + g_size gpu → is_Some (m !! a);
}.

(** [m'] is [m] with the pixels in [P] painted by [color]; the byte at [a]
    belongs to pixel number [(a - vvram_addr) / 4]. *)
Definition painted (gpu : gpu_t) (P color : Z → Z → bool) (m m' : mem) : Prop :=
  ∀ a, let d := a - vvram_addr gpu in
       let px := (d / 4) mod pixels_per_line gpu in
       let py := d / 4 / pixels_per_line gpu in
  m' !! a = if (0 <=? d) && (d mod 4 <? 3) && P px py then Some (if color px py then 255 else 0) else m !! a.

Lemma painted_ext gpu P P' color m m' : (∀ x y, P x y = P' x y) → painted gpu P color m m' → painted gpu P' color m m'.
Proof. intros HP H a. rewrite (H a). by rewrite HP. Qed.

Lemma pixel_index ppl x y q : 0 < ppl → 0 <= x < ppl → q = y * ppl + x ↔ q mod ppl = x ∧ q / ppl = y.
Proof.
  intros Hp Hx. split.
  - intros ->. split; [rewrite Z.add_comm, Z.mod_add by lia; by apply Z.mod_small|].
    rewrite Z.div_add_l, Z.div_small by lia. lia.
  - intros [<- <-]. pose proof (Z.div_mod q ppl). lia.
Qed.

Lemma pixel_range ppl x y rows : 0 < ppl → 0 <= x < ppl → 0 <= y < rows → 0 <= y * ppl + x < ppl * rows.
Proof. nia. Qed.

(** One pixel. *)
Lemma draw_pixel_spec gpu rows P color m0 m x y (Q : unit → mem → Prop) :
  frame gpu rows m → painted gpu P color m0 m → 0 <= x < pixels_per_line gpu → 0 <= y < rows →
  (∀ m', frame gpu rows m' → painted gpu (λ u v, P u v || (u =? x) && (v =? y)) color m0 m' → Q tt m') →
  wp (graphic_draw_pixel gpu x y (if color x y then white_pixel else black_pixel)) Q m.
Proof.
  intros F HP Hx Hy HQ. destruct F as [F1 F2 F3 F4 F5]. pose proof (pixel_range _ x y rows F3 Hx Hy) as Hr. unfold graphic_draw_pixel.
  set (n := y * pixels_per_line gpu + x) in *. rewrite (u32_id n), (u32_id (4 * n)), (u32_id (vvram_addr gpu + 4 * n)) by lia. set (p := vvram_addr gpu + 4 * n).
  set (v := if color x y then 255 else 0).
  replace (blue (if color x y then white_pixel else black_pixel)) with v by (subst v; by destruct (color x y)).
  replace (green (if color x y then white_pixel else black_pixel)) with v by (subst v; by destruct (color x y)).
  replace (red (if color x y then white_pixel else black_pixel)) with v by (subst v; by destruct (color x y)).
  assert (Hv : u8 v = v) by (subst v; by destruct (color x y)).
  rewrite wp_bind. apply wp_store; [apply F5; lia|lia|]. rewrite wp_bind.
  apply wp_store; [rewrite lookup_insert_ne by lia; apply F5; lia|lia|].
  apply wp_store; [rewrite !lookup_insert_ne by lia; apply F5; lia|lia|]. rewrite Hv.
  assert (Hl : ∀ a, (<[p + 2 := v]> (<[p + 1 := v]> (<[p := v]> m)) : mem) !! a = if decide (p <= a < p + 3) then Some v else m !! a).
  { intros a. rewrite !lookup_insert. repeat case_decide; done || lia. }
  apply HQ.
  - split; try done. intros a Ha. rewrite Hl. case_decide; [done|by apply F5].
  - intros a. cbv zeta. rewrite Hl, (HP a). cbv zeta. set (d := a - vvram_addr gpu).
    destruct (pixel_index (pixels_per_line gpu) x y (d / 4) F3 Hx) as [I1 I2]. fold n in I1, I2.
    destruct (decide (p <= a < p + 3)) as [Hin|Hout].
    + assert (d / 4 = n) by (subst p d; dlia). destruct (I1 ltac:(done)) as [-> ->].
      rewrite (proj2 (Z.leb_le 0 d)), (proj2 (Z.ltb_lt (d mod 4) 3)), !Z.eqb_refl by (subst p d; dlia). cbn [andb]. by rewrite orb_true_r.
    + destruct (0 <=? d) eqn:E1; cbn [andb]; [|done]. destruct (d mod 4 <? 3) eqn:E2; cbn [andb]; [|done].
      assert (Hne : ((d / 4) mod pixels_per_line gpu =? x) && (d / 4 / pixels_per_line gpu =? y) = false).
      { apply andb_false_iff. destruct (decide ((d / 4) mod pixels_per_line gpu = x)) as [Ex|Ex]; [right|left; lia].
        apply Z.eqb_neq. intros Ey. specialize (I2 (conj Ex Ey)). subst p d. apply Hout. clear - I2 E1 E2. dlia. }
      by rewrite Hne, orb_false_r.
Qed.

(** ** Glyphs *)

Lemma font_shape : length font_bin = 95%nat ∧ Forall (λ r, length r = 30%nat) font_bin.
Proof. split; [reflexivity|]. apply (bool_decide_unpack _). vm_compute. exact I. Qed.

(** The pixel ([dx], [dy]) of a character: bit [14 - dx] of line [dy] of its
    glyph, or of the words that stand in its place. *)
Definition glyph (around : Z → Z) (c dx dy : Z) : bool :=
  Z.testbit
    (match font_bin !! Z.to_nat (c - 0x20) with
     | Some r => if c <? 0x20 then around ((c - 0x20) * 30 + dy) else r !!! Z.to_nat dy
     | None => around ((c - 0x20) * 30 + dy)
     end) (14 - dx).

Lemma glyph_row around c i dx : (i < 30)%nat → glyph around c dx (Z.of_nat i) = Z.testbit (font_row around c i) (14 - dx).
Proof.
  intros Hi. destruct font_shape as [Hl Hr]. unfold font_row, glyph. f_equal. rewrite Nat2Z.id.
  destruct (font_bin !! Z.to_nat (c - 0x20)) as [row|] eqn:Hrow.
  - pose proof (lookup_lt_Some _ _ _ Hrow) as Hlt. pose proof (Forall_lookup_1 _ _ _ _ Hr Hrow) as Hlen. cbn beta in Hlen.
    destruct (Z.ltb_spec c 0x20); [by rewrite (proj2 (Z.leb_gt 0x20 c)) by lia|].
    rewrite (proj2 (Z.leb_le 0x20 c)), (proj2 (Z.leb_le c 0x7E)) by lia. cbn [andb mbind option_bind].
    destruct (lookup_lt_is_Some_2 row i ltac:(lia)) as [r Er]. rewrite Er. by apply list_lookup_total_correct.
  - apply lookup_ge_None in Hrow. rewrite (proj2 (Z.leb_gt c 0x7E)) by lia. by rewrite andb_false_r.
Qed.

Lemma bit_test r j : 0 <= j → (Z.land r (Z.shiftl 1 j) =? Z.shiftl 1 j) = Z.testbit r j.
Proof.
  intros Hj. assert (Hb : ∀ k, 0 <= k → Z.testbit (Z.shiftl 1 j) k = (k =? j)).
  { intros k Hk. rewrite Z.shiftl_1_l, Z.pow2_bits_eqb by lia. apply Z.eqb_sym. }
  destruct (Z.testbit r j) eqn:E.
  - apply Z.eqb_eq, Z.bits_inj'. intros k Hk. rewrite Z.land_spec, Hb by done. destruct (Z.eqb_spec k j) as [->|?]; [by rewrite E|apply andb_false_r].
  - apply Z.eqb_neq. intros Heq%(f_equal (λ z, Z.testbit z j)). rewrite Z.land_spec, Hb, E, Z.eqb_refl in Heq by done. done.
Qed.

(** The pixels of a glyph at ([x], [y]) drawn before column [k] of line [i]. *)
Definition drawn (x y i k u v : Z) : bool :=
  (x <=? u) && (u <? x + 15) && (y <=? v) && ((v <? y + i) || (v =? y + i) && (u <? x + k)).

Section glyphs.
Context (gpu : gpu_t) (around : Z → Z) (rows x y c : Z) (m0 : mem).
Hypothesis Hframe : frame gpu rows m0.
Hypothesis Hx : 0 <= x ∧ x + 15 <= pixels_per_line gpu.
Hypothesis Hy : 0 <= y ∧ y + 30 <= rows.

Definition glyph_color (u v : Z) : bool := glyph around c (u - x) (v - y).
Definition progress (i k : Z) (m : mem) : Prop := frame gpu rows m ∧ painted gpu (drawn x y i k) glyph_color m0 m.

Lemma progress_same i k i' k' m : (∀ u v, drawn x y i k u v = drawn x y i' k' u v) → progress i k m → progress i' k' m.
Proof. intros H [F P]. split; [done|]. by apply (painted_ext _ _ _ _ _ _ H). Qed.

Lemma font_pixel_spec i k m :
  (i < 30)%nat → (k < 15)%nat → progress (Z.of_nat i) (Z.of_nat k) m →
  wp (font_pixel gpu around x y c i k) (λ _, progress (Z.of_nat i) (Z.of_nat (S k))) m.
Proof.
  intros Hi Hk [F P]. unfold font_pixel. rewrite bit_test by lia.
  replace (x + (14 - (14 - Z.of_nat k))) with (x + Z.of_nat k) by lia.
  replace (Z.testbit (font_row around c i) (14 - Z.of_nat k)) with (glyph_color (x + Z.of_nat k) (y + Z.of_nat i)).
  2: { unfold glyph_color. rewrite <- glyph_row by done. f_equal; lia. }
  apply (draw_pixel_spec gpu rows _ _ m0 m _ _ _ F P); [lia|lia|]. intros m' F' P'. split; [done|].
  apply (painted_ext gpu (λ u v, drawn x y (Z.of_nat i) (Z.of_nat k) u v || (u =? x + Z.of_nat k) && (v =? y + Z.of_nat i))); [|done].
  intros u v. unfold drawn. apply eq_true_iff_eq. rewrite !orb_true_iff, !andb_true_iff, !orb_true_iff, !andb_true_iff, !Z.leb_le, !Z.ltb_lt, !Z.eqb_eq. lia.
Qed.

Lemma font_line_spec i m :
  (i < 30)%nat → progress (Z.of_nat i) 0 m → wp (for_ 15 0 (font_pixel gpu around x y c i)) (λ _, progress (Z.of_nat (S i)) 0) m.
Proof.
  intros Hi H. eapply wp_mono; [apply (wp_for (λ k, progress (Z.of_nat i) (Z.of_nat k)) _ 15 0 m H)|].
  - intros k t Hk Ht. apply font_pixel_spec; [done|lia|done].
  - intros [] m' H'. apply (progress_same (Z.of_nat i) (Z.of_nat (0 + 15))); [|exact H'].
    intros u v. unfold drawn. apply eq_true_iff_eq. rewrite !andb_true_iff, !orb_true_iff, !andb_true_iff, !Z.leb_le, !Z.ltb_lt, !Z.eqb_eq. lia.
Qed.

(** [font_render] paints the glyph and nothing else. *)
Lemma font_render_spec :
  wp (font_render gpu around x y c) (λ _ m', frame gpu rows m' ∧
    painted gpu (λ u v, (x <=? u) && (u <? x + 15) && (y <=? v) && (v <? y + 30)) glyph_color m0 m') m0.
Proof.
  eapply wp_mono; [apply (wp_for (λ i, progress (Z.of_nat i) 0) _ 30 0 m0)|].
  - split; [done|]. intros a. cbv zeta. replace (drawn x y (Z.of_nat 0) 0 _ _) with false; [by rewrite andb_false_r|].
    symmetry. unfold drawn. apply not_true_is_false. rewrite !andb_true_iff, !orb_true_iff, !andb_true_iff, !Z.leb_le, !Z.ltb_lt, !Z.eqb_eq. lia.
  - intros i t Hi Ht. apply font_line_spec; [lia|done].
  - intros [] m' [F P]. split; [done|]. apply (painted_ext gpu (drawn x y (Z.of_nat (0 + 30)) 0)); [|exact P].
    intros u v. unfold drawn. apply eq_true_iff_eq. rewrite !andb_true_iff, !orb_true_iff, !andb_true_iff, !Z.leb_le, !Z.ltb_lt, !Z.eqb_eq. lia.
Qed.
End glyphs.

(** ** Scrolling *)

Definition bytes_of (m : mem) (a : Z) (n : nat) : list Z := (λ k, default 0 (m !! (a + Z.of_nat k))) <$> seq 0 n.

Lemma bytes_of_lookup m a n k : (k < n)%nat → bytes_of m a n !! k = Some (default 0 (m !! (a + Z.of_nat k))).
Proof. intros Hk. unfold bytes_of. by rewrite list_lookup_fmap, lookup_seq_lt by lia. Qed.

Lemma bytes_of_holds m a n : mem_ok m → mapped m a n → holds m a (bytes_of m a n) ∧ bytes_ok (bytes_of m a n) ∧ length (bytes_of m a n) = n.
Proof.
  intros Hok (H0 & H1 & Hm). assert (Hl : length (bytes_of m a n) = n) by (unfold bytes_of; by rewrite length_fmap, length_seq).
  split_and!; [split_and!; [lia|lia|]| |done].
  - intros k v Hk. assert (k < n)%nat by (rewrite <- Hl; by apply lookup_lt_Some in Hk).
    rewrite bytes_of_lookup in Hk by done. simplify_eq. destruct (Hm k ltac:(lia)) as [w ->]. done.
  - unfold bytes_of. apply Forall_fmap, Forall_forall. intros k _. cbn. destruct (m !! _) eqn:E; [by apply (Hok _ _ E)|done].
Qed.

(** Nothing but the frame buffer differs. *)
Definition outside (gpu : gpu_t) (m m' : mem) : Prop :=
  ∀ a, a < vvram_addr gpu ∨ vvram_addr gpu + g_size gpu <= a → m' !! a = m !! a.

(** Every byte moves up by [height] lines, and the last lines become black. *)
Lemma scroll_spec gpu rows m height :
  frame gpu rows m → mem_ok m → 0 <= height → 4 * (pixels_per_line gpu * height) <= g_size gpu →
  let diff := 4 * (pixels_per_line gpu * height) in
  wp (graphic_scroll_up gpu height) (λ _ m', frame gpu rows m' ∧ mem_ok m' ∧
    (∀ a, vvram_addr gpu <= a < vvram_addr gpu + g_size gpu →
      m' !! a = if a <? vvram_addr gpu + g_size gpu - diff then m !! (a + diff) else Some 0) ∧
    outside gpu m m') m.
Proof.
  intros [F1 F2 F3 F4 F5] Hok Hh Hd diff. unfold graphic_scroll_up. set (vv := vvram_addr gpu) in *. set (size := g_size gpu) in *.
  assert (0 <= diff) by (subst diff; nia). replace (4 * pixels_per_line gpu * height) with diff by (subst diff; lia).
  rewrite (u32_id diff), (u32_id (vv + diff)), (u32_id (size - diff)), (u32_id (vv + size - diff)) by lia.
  assert (Hmap : ∀ a n, vv <= a → a + Z.of_nat n <= vv + size → mapped m a n).
  { intros a n Ha Hn. split_and!; [lia|lia|]. intros k Hk. apply F5. lia. }
  set (n := Z.to_nat (size - diff)).
  destruct (bytes_of_holds m (vv + diff) n Hok ltac:(apply Hmap; lia)) as (Hl & Hlok & Hlen).
  set (l := bytes_of m (vv + diff) n) in *. set (m1 := mput vv l m).
  assert (Hm1 : ∀ a, m1 !! a = if decide (vv <= a < vv + size - diff) then l !! Z.to_nat (a - vv) else m !! a).
  { intros a. subst m1. rewrite mput_lookup, Hlen. apply decide_ext. lia. }
  assert (E1 : memmove vv (vv + diff) (size - diff) m = Ret vv m1).
  { unfold memmove. rewrite (proj2 (Z.ltb_ge (vv + diff) vv)) by lia. cbn [andb].
    fold n. rewrite <- Hlen. assert (Hw : wp (copy_up (length l) vv (vv + diff)) (λ _ m', m' = m1) m).
    { apply copy_up_spec; [done|done|apply Hmap; lia|lia|done]. }
    apply wp_elim in Hw as ([] & m' & E & ->). by rewrite (bind_Ret _ _ _ _ _ E). }
  set (m2 := mput (vv + size - diff) (replicate (Z.to_nat diff) 0) m1).
  assert (E2 : memset (vv + size - diff) 0 diff m1 = Ret (vv + size - diff) m2).
  { rewrite memset_correct; [done|lia|]. apply mapped_mput, Hmap; lia. }
  apply (wp_intro _ _ _ tt m2); [by rewrite (bind_Ret _ _ _ _ _ E1), (bind_Ret _ _ _ _ _ E2)|].
  assert (Hm2 : ∀ a, m2 !! a = if decide (vv + size - diff <= a < vv + size) then Some 0 else m1 !! a).
  { intros a. subst m2. rewrite mput_lookup, length_replicate. destruct (decide (vv + size - diff <= a < vv + size)) as [Ha|Ha].
    - rewrite decide_True by lia. apply lookup_replicate_2. lia.
    - rewrite decide_False by lia. done. }
  split_and!.
  - split; try done. intros a Ha. fold vv size in Ha. rewrite Hm2. case_decide; [done|]. rewrite Hm1. case_decide; [|by apply F5].
    apply lookup_lt_is_Some_2. lia.
  - intros a v. rewrite Hm2. case_decide; [intros; by simplify_eq|]. rewrite Hm1. case_decide; [|apply Hok].
    intros Hv. by apply (Forall_lookup_1 _ _ _ _ Hlok Hv).
  - intros a Ha. rewrite Hm2. destruct (a <? vv + size - diff) eqn:E; [rewrite decide_False by lia|by rewrite decide_True by lia].
    rewrite Hm1, decide_True by lia. subst l. rewrite bytes_of_lookup by lia.
    replace (vv + diff + Z.of_nat (Z.to_nat (a - vv))) with (a + diff) by lia. destruct (F5 (a + diff) ltac:(lia)) as [v ->]. done.
  - intros a Ha. fold vv size in Ha. by rewrite Hm2, decide_False, Hm1, decide_False by lia.
Qed.

(** ** What the screen shows *)

(** The console's drawing calls on the frame buffer. *)
Definition show (gpu : gpu_t) (around : Z → Z) (g : gfx) : M mem unit :=
  match g with
  | Glyph x y c => font_render gpu around x y c
  | Scroll h => graphic_scroll_up gpu h
  end.
Fixpoint show_all (gpu : gpu_t) (around : Z → Z) (l : list gfx) : M mem unit :=
  match l with
  | [] => mret tt
  | g :: l => show gpu around g ;; show_all gpu around l
  end.

(** The picture these calls mean: white or not for every pixel. *)
Abbreviation picture := (Z → Z → bool).
Definition draw_on (around : Z → Z) (rows : Z) (pic : picture) (g : gfx) : picture :=
  match g with
  | Glyph x y c => λ u v, if (x <=? u) && (u <? x + 15) && (y <=? v) && (v <? y + 30) then glyph around c (u - x) (v - y) else pic u v
  | Scroll h => λ u v, if v <? rows - h then pic u (v + h) else false
  end.

Definition shows (gpu : gpu_t) (rows : Z) (pic : picture) (m : mem) : Prop :=
  ∀ u v k, 0 <= u < pixels_per_line gpu → 0 <= v < rows → 0 <= k < 3 →
    m !! (vvram_addr gpu + 4 * (v * pixels_per_line gpu + u) + k) = Some (if pic u v then 255 else 0).

Section screen.
Context (gpu : gpu_t) (around : Z → Z) (rows : Z).
(** 53 characters of 15 pixels from column 2 on, and 20 lines of 30 pixels; the
    frame is all of the video memory. *)
Hypothesis Hppl : 797 <= pixels_per_line gpu.
Hypothesis Hrows : 600 <= rows.
Hypothesis Hsize : g_size gpu = 4 * (pixels_per_line gpu * rows).

Definition screen_ok (pic : picture) (m : mem) : Prop := frame gpu rows m ∧ mem_ok m ∧ shows gpu rows pic m.


Lemma pixel_byte u v k :
  0 <= u < pixels_per_line gpu → 0 <= k < 3 →
  let d := vvram_addr gpu + 4 * (v * pixels_per_line gpu + u) + k - vvram_addr gpu in
  (d / 4) mod pixels_per_line gpu = u ∧ d / 4 / pixels_per_line gpu = v ∧ d mod 4 = k.
Proof.
  intros Hu Hk d. set (n := v * pixels_per_line gpu + u) in *.
  assert (E : d / 4 = n ∧ d mod 4 = k) by (subst d; clearbody n; dlia). destruct E as [-> ->].
  destruct (proj1 (pixel_index (pixels_per_line gpu) u v n ltac:(lia) Hu) eq_refl) as [-> ->]. done.
Qed.

Lemma show_glyph pic m x y c :
  screen_ok pic m → on_grid (Glyph x y c) → wp (font_render gpu around x y c) (λ _ m', screen_ok (draw_on around rows pic (Glyph x y c)) m' ∧ outside gpu m m') m.
Proof.
  intros (F & Hok & Hs) (Hx & Hy & _).
  eapply wp_mono; [apply (font_render_spec gpu around rows x y c m F); [lia|lia]|]. intros [] m' [F' P]. split_and!; [split_and!; [done| |]|].
  - intros a w Hw. rewrite (P a) in Hw. cbv zeta in Hw. destruct (_ && _) in Hw; [|by apply (Hok a)]. simplify_eq. unfold is_u8. destruct (glyph_color _ _ _ _ _ _); lia.
  - intros u v k Hu Hv Hk. rewrite (P _). cbv zeta. destruct (pixel_byte u v k Hu Hk) as (-> & -> & ->).
    rewrite (proj2 (Z.leb_le 0 _)) by nia. rewrite (proj2 (Z.ltb_lt k 3)) by lia. cbn [andb draw_on].
    destruct (_ && _ && _ && _); [done|]. by apply Hs.
  - intros a Ha. rewrite (P a). cbv zeta. destruct F as [_ _ F3 _ _]. set (d := a - vvram_addr gpu).
    destruct (0 <=? d) eqn:Ed; cbn [andb]; [|done]. rewrite (proj2 (Z.ltb_ge (d / 4 / pixels_per_line gpu) (y + 30))); [by rewrite !andb_false_r|].
    apply Z.div_le_lower_bound; [lia|]. assert (pixels_per_line gpu * rows <= d / 4) by (subst d; dlia). nia.
Qed.

Lemma show_scroll pic m h :
  screen_ok pic m → 0 <= h <= rows → wp (graphic_scroll_up gpu h) (λ _ m', screen_ok (draw_on around rows pic (Scroll h)) m' ∧ outside gpu m m') m.
Proof.
  intros (F & Hok & Hs) Hh. eapply wp_mono; [apply (scroll_spec gpu rows m h F Hok); [lia|rewrite Hsize; nia]|].
  intros [] m' (F' & Hok' & Hb & Ho). split; [|done]. split_and!; [done|done|]. intros u v k Hu Hv Hk. cbn [draw_on].
  pose proof (pixel_range (pixels_per_line gpu) u v rows ltac:(lia) Hu Hv) as Hr. rewrite Hb by lia.
  set (w := pixels_per_line gpu) in *. destruct (v <? rows - h) eqn:E.
  - pose proof (pixel_range w u (v + h) rows ltac:(lia) Hu ltac:(lia)) as Hr'. fold w in Hr'.
    rewrite (proj2 (Z.ltb_lt _ _)) by (rewrite Hsize; fold w; lia).
    replace (vvram_addr gpu + 4 * (v * w + u) + k + 4 * (w * h)) with (vvram_addr gpu + 4 * ((v + h) * w + u) + k) by lia.
    apply Hs; lia.
  - rewrite (proj2 (Z.ltb_ge _ _)); [done|]. rewrite Hsize. fold w. nia.
Qed.

Lemma show_all_ok l pic m :
  screen_ok pic m → Forall on_grid l → wp (show_all gpu around l) (λ _ m', screen_ok (foldl (draw_on around rows) pic l) m' ∧ outside gpu m m') m.
Proof.
  intros Hs Hl. revert pic m Hs. induction Hl as [|g l Hg _ IH]; intros pic m Hs; cbn [show_all foldl]; [done|].
  rewrite wp_bind. eapply wp_mono; [destruct g as [x y c|h]; cbn [show]; [by apply show_glyph|cbn in Hg; subst h; apply show_scroll; [done|unfold FONT_HEIGHT; lia]]|].
  intros [] m1 [H1 O1]. eapply wp_mono; [by apply IH|]. intros [] m2 [H2 O2]. split; [done|]. intros a Ha. by rewrite O2, O1.
Qed.
End screen.

(** C30: the picture on the screen.  On a frame of at least 797 by 600 pixels
    whose lines fill the video memory exactly, any sequence of the drawing calls
    the console makes (the character of any byte on the 53 by 20 grid, scrolling
    by one line of text) returns without touching memory outside the frame
    buffer, and every pixel is then the one the sequence means: a character
    replaces its 15 by 30 box by its glyph (for a byte that is not one of the 95
    characters of the font, by the bits of the kernel image that [font_bin] is
    indexed to), scrolling moves each line up by 30 pixels and blackens the
    last 30. *)
Theorem screen_shows gpu around rows l pic m :
  797 <= pixels_per_line gpu → 600 <= rows → g_size gpu = 4 * (pixels_per_line gpu * rows) →
  screen_ok gpu rows pic m → Forall on_grid l →
  ∃ m', show_all gpu around l m = Ret tt m' ∧ screen_ok gpu rows (foldl (draw_on around rows) pic l) m' ∧ outside gpu m m'.
Proof.
  intros Hp Hr Hs H Hl. destruct (proj1 (wp_elim _ _ _) (show_all_ok gpu around rows Hp Hr Hs l pic m H Hl)) as ([] & m' & E & H').
  by exists m'.
Qed.

(** A black screen. *)
Definition black_gpu (vv ppl rows : Z) : gpu_t := GpuT vv vv (4 * (ppl * rows)) ppl rows ppl.
Definition black_frame (vv ppl rows : Z) : mem := mput vv (replicate (Z.to_nat (4 * (ppl * rows))) 0) ∅.

Lemma black_frame_lookup vv ppl rows a : vv <= a < vv + 4 * (ppl * rows) → black_frame vv ppl rows !! a = Some 0.
Proof.
  intros Ha. unfold black_frame. rewrite mput_lookup, length_replicate, decide_True by lia. apply lookup_replicate_2. lia.
Qed.

Lemma black_screen vv ppl rows :
  0 <= vv → 0 < ppl → 0 <= rows → vv + 4 * (ppl * rows) < 4294967296 → screen_ok (black_gpu vv ppl rows) rows (λ _ _, false) (black_frame vv ppl rows).
Proof.
  intros Hv Hp Hr He. split; [|split].
  - split; cbn [black_gpu vvram_addr g_size pixels_per_line]; [lia..|]. intros a Ha. rewrite black_frame_lookup by lia. eauto.
  - intros a v Ha. unfold black_frame in Ha. rewrite mput_lookup in Ha. case_decide; [|by rewrite lookup_empty in Ha].
    apply lookup_replicate_1 in Ha as [-> _]. unfold is_u8. lia.
  - intros u v k Hu Hv' Hk. cbn [black_gpu vvram_addr g_size pixels_per_line] in *. apply black_frame_lookup. nia.
Qed.

(** What a key ("A") and an end-of-file (control-D, outside the font) draw on a
    fresh console, in a kernel image that is zero around the font. *)
Definition ex_calls : list gfx := [Scroll 30; Glyph 2 570 65; Glyph 17 570 4].

Definition ex_con : con := match run_ops [Keys [65; 4]] con0 with Ret _ s => s | _ => con0 end.

Lemma ex_calls_run : ∃ s, run_ops [Keys [65; 4]] con0 = Ret [] s ∧ c_gfx s = ex_calls.
Proof. exists ex_con. split; vm_compute; reflexivity. Qed.

Lemma screen_shows_witness :
  ∃ s m', run_ops [Keys [65; 4]] con0 = Ret [] s ∧
    show_all (black_gpu 0xFD000000 800 600) (λ _, 0) (c_gfx s) (black_frame 0xFD000000 800 600) = Ret tt m' ∧
    screen_ok (black_gpu 0xFD000000 800 600) 600 (foldl (draw_on (λ _, 0) 600) (λ _ _, false) (c_gfx s)) m'.
Proof.
  destruct ex_calls_run as (s & Hs & Hg). exists s. rewrite Hg.
  destruct (screen_shows (black_gpu 0xFD000000 800 600) (λ _, 0) 600 ex_calls (λ _ _, false)
    (black_frame 0xFD000000 800 600)) as (m' & E & H & _).
  - cbn [black_gpu pixels_per_line]. lia.
  - lia.
  - reflexivity.
  - apply black_screen; lia.
  - repeat constructor; cbn; lia.
  - exists m'. split; [exact Hs|]. split; [exact E|exact H].
Defined.

(** A control character is outside the table of glyphs: the bits that are drawn
    for it are those of the kernel image before the table. *)
Example font_control_char around : font_row around 4 0 = around (-840).
Proof. reflexivity. Qed.
