(* ===== verification/Grep.v ===== *)
(** * grep: the matcher of Kernighan and Pike, and the line loop (grep.c)

    A pattern or a text is the list of its bytes before the NUL. *)

From S2P Require Import Prelude Param.

Definition c_caret : Z := 94.
Definition c_star : Z := 42.
Definition c_dot : Z := 46.
Definition c_dollar : Z := 36.
Definition c_nl : Z := 10.

(** [matchstar(c, re, text)], with [matchhere re] as [here]. *)
Fixpoint matchstar (here : list Z → bool) (c : Z) (text : list Z) : bool :=
  if here text then true else
  match text with
  | [] => false
  | t :: text => if (t =? c) || (c =? c_dot) then matchstar here c text else false
  end.

Fixpoint matchhere (re text : list Z) : bool :=
  match re with
  | [] => true
  | r :: re1 =>
      match re1 with
      | s :: re2 =>
          if s =? c_star then matchstar (matchhere re2) r text
          else match text with
               | [] => false
               | t :: text => if (r =? c_dot) || (r =? t) then matchhere re1 text else false
               end
      | [] =>
          if r =? c_dollar then match text with [] => true | _ => false end
          else match text with
               | [] => false
               | t :: text => if (r =? c_dot) || (r =? t) then matchhere re1 text else false
               end
      end
  end.

(** The loop of [match]. *)
Fixpoint match_loop (re text : list Z) : bool :=
  if matchhere re text then true else
  match text with
  | [] => false
  | _ :: text => match_loop re text
  end.
Definition match_ (re text : list Z) : bool :=
  match re with
  | r :: re1 => if r =? c_caret then matchhere re1 text else match_loop re text
  | [] => match_loop re text
  end.

(** [strchr(p, '\n')] on the bytes [p] up to the NUL at their end: the bytes
    before the newline and those after it. *)
Fixpoint split_line (p : list Z) : option (list Z * list Z) :=
  match p with
  | [] => None
  | c :: p =>
      if c =? 0 then None else
      if c =? c_nl then Some ([], p) else
      match split_line p with
      | Some (l, q) => Some (c :: l, q)
      | None => None
      end
  end.

(** The inner loop of [grep], at most one round per byte: what it writes, and
    the bytes left from [p] on. *)
Fixpoint grep_lines (fuel : nat) (pattern p : list Z) : list Z * list Z :=
  match fuel with
  | O => ([], p)
  | S fuel =>
      match split_line p with
      | None => ([], p)
      | Some (l, q) =>
          let '(out, rest) := grep_lines fuel pattern q in
          ((if match_ pattern l then l ++ [c_nl] else []) ++ out, rest)
      end
  end.

(** What is left in [buf] for the next round: nothing if [p == buf]. *)
Definition grep_keep (buf rest : list Z) : list Z :=
  if (length rest =? length buf)%nat then [] else rest.

(** [read] of a descriptor whose data arrive in the pieces [chunks]. *)
Definition read_chunk (room : nat) (chunks : list (list Z)) : list Z * list (list Z) :=
  match chunks with
  | [] => ([], [])
  | c :: chunks => if (length c <=? room)%nat then (c, chunks) else (take room c, drop room c :: chunks)
  end.

(** The outer loop of [grep] with the kept bytes [kept] (the first [m] of
    [buf]); [None] when the bound on the rounds is too small. *)
Fixpoint grep_loop (fuel : nat) (pattern kept : list Z) (chunks : list (list Z)) : option (list Z) :=
  match fuel with
  | O => None
  | S fuel =>
      let '(got, chunks) := read_chunk (1024 - length kept - 1) chunks in
      match got with
      | [] => Some []
      | _ =>
          let buf := kept ++ got in
          let '(out, rest) := grep_lines (length buf) pattern buf in
          more ← grep_loop fuel pattern (grep_keep buf rest) chunks;
          Some (out ++ more)
      end
  end.
Definition grep (pattern : list Z) (chunks : list (list Z)) : option (list Z) :=
  grep_loop (S (length (concat chunks) + length chunks)) pattern [] chunks.

(** ** What a pattern means *)

(** A pattern as a sequence of items: a single character, a starred one, or
    the end of the line. *)
Inductive item := One (c : Z) | Star (c : Z) | End.

Fixpoint items (re : list Z) : list item :=
  match re with
  | [] => []
  | r :: re1 =>
      match re1 with
      | s :: re2 => if s =? c_star then Star r :: items re2 else One r :: items re1
      | [] => if r =? c_dollar then [End] else [One r]
      end
  end.

Definition fits (c x : Z) : Prop := c = c_dot ∨ c = x.

(** [accepts its mid post]: the items match exactly [mid] when [post] follows
    it in the line. *)
Inductive accepts : list item → list Z → list Z → Prop :=
| acc_nil post : accepts [] [] post
| acc_end : accepts [End] [] []
| acc_one c x its mid post : fits c x → accepts its mid post → accepts (One c :: its) (x :: mid) post
| acc_star_stop c its mid post : accepts its mid post → accepts (Star c :: its) mid post
| acc_star_more c x its mid post : fits c x → accepts (Star c :: its) mid post → accepts (Star c :: its) (x :: mid) post.

(** The line has a substring the pattern matches, at its start if the pattern
    begins with a caret. *)
Definition occurs (re text : list Z) : Prop :=
  match re with
  | r :: re1 => if r =? c_caret then ∃ mid post, text = mid ++ post ∧ accepts (items re1) mid post
                else ∃ pre mid post, text = pre ++ mid ++ post ∧ accepts (items re) mid post
  | [] => True
  end.

Lemma fits_bool c x : (c =? c_dot) || (c =? x) = true ↔ fits c x.
Proof. unfold fits. rewrite orb_true_iff, !Z.eqb_eq. done. Qed.

(** The items match some prefix of the text. *)
Definition prefix_accepts (its : list item) (text : list Z) : Prop :=
  ∃ mid post, text = mid ++ post ∧ accepts its mid post.

Lemma prefix_one c its text :
  prefix_accepts (One c :: its) text ↔ ∃ x rest, text = x :: rest ∧ fits c x ∧ prefix_accepts its rest.
Proof.
  split.
  - intros (mid & post & -> & Ha). inversion Ha; subst. cbn. eexists _, _. split; [done|]. split; [done|]. by eexists _, _.
  - intros (x & rest & -> & Hx & mid & post & -> & Ha). exists (x :: mid), post. split; [done|]. by constructor.
Qed.

Lemma prefix_star c its text :
  prefix_accepts (Star c :: its) text ↔
  prefix_accepts its text ∨ ∃ x rest, text = x :: rest ∧ fits c x ∧ prefix_accepts (Star c :: its) rest.
Proof.
  split.
  - intros (mid & post & -> & Ha). inversion Ha; subst.
    + left. by eexists _, _.
    + right. cbn. eexists _, _. split; [done|]. split; [done|]. by eexists _, _.
  - intros [(mid & post & -> & Ha)|(x & rest & -> & Hx & mid & post & -> & Ha)].
    + exists mid, post. split; [done|]. by apply acc_star_stop.
    + exists (x :: mid), post. split; [done|]. by apply acc_star_more.
Qed.

Lemma matchstar_spec here c its text :
  (∀ t, here t = true ↔ prefix_accepts its t) → matchstar here c text = true ↔ prefix_accepts (Star c :: its) text.
Proof.
  intros Hh. induction text as [|t text IH]; cbn [matchstar]; rewrite prefix_star, <- Hh.
  - destruct (here []); [tauto|]. split; [done|]. by intros [?|(x & rest & ? & _)].
  - destruct (here (t :: text)); [tauto|]. rewrite Z.eqb_sym, orb_comm. destruct (_ || _) eqn:E.
    + apply fits_bool in E. rewrite IH. split; [eauto 10|]. intros [?|(x & rest & [= <- <-] & _ & ?)]; done.
    + split; [done|]. intros [?|(x & rest & [= <- <-] & Hx & _)]; [done|]. apply fits_bool in Hx. congruence.
Qed.

Lemma matchhere_spec n re text : (length re <= n)%nat → matchhere re text = true ↔ prefix_accepts (items re) text.
Proof.
  revert re text. induction n as [|n IH]; intros [|r re1] text Hn; cbn [length] in Hn; [|lia| |].
  1, 2: split; [intros _; exists [], text; split; [done|constructor]|done].
  assert (Hone : prefix_accepts (items re1) (tail text) ↔ matchhere re1 (tail text) = true) by (symmetry; apply IH; lia).
  assert (Hstep : match text with [] => false | t :: text => if (r =? c_dot) || (r =? t) then matchhere re1 text else false end = true
    ↔ prefix_accepts (One r :: items re1) text).
  { rewrite prefix_one. destruct text as [|t text]; cbn [tail] in Hone; [split; [done|by intros (? & ? & ? & _)]|].
    destruct (_ || _) eqn:E.
    - apply fits_bool in E. rewrite <- Hone. split; [eauto 10|]. by intros (x & rest & [= <- <-] & _ & ?).
    - split; [done|]. intros (x & rest & [= <- <-] & Hx & _). apply fits_bool in Hx. congruence. }
  destruct re1 as [|s re2]; cbn [matchhere items].
  - destruct (r =? c_dollar) eqn:E; [|exact Hstep]. destruct text as [|t text].
    + split; [|done]. intros _. exists [], []. split; [done|constructor].
    + split; [done|]. intros (mid & post & Et & Ha). inversion Ha; subst. done.
  - destruct (s =? c_star) eqn:E.
    + apply matchstar_spec. intros t. apply IH. cbn in Hn. lia.
    + exact Hstep.
Qed.

Lemma match_loop_spec re text :
  match_loop re text = true ↔ ∃ pre mid post, text = pre ++ mid ++ post ∧ accepts (items re) mid post.
Proof.
  induction text as [|t text IH]; cbn [match_loop].
  - destruct (matchhere re []) eqn:E.
    + split; [|done]. intros _. apply (matchhere_spec (length re)) in E as (mid & post & -> & Ha); [|done]. by exists [], mid, post.
    + split; [done|]. intros (pre & mid & post & Ht & Ha). exfalso. symmetry in Ht. apply app_nil in Ht as [-> Ht].
      assert (matchhere re [] = true); [|congruence]. apply (matchhere_spec (length re)); [done|]. by exists mid, post.
  - destruct (matchhere re (t :: text)) eqn:E.
    + split; [|done]. intros _. apply (matchhere_spec (length re)) in E as (mid & post & -> & Ha); [|done]. by exists [], mid, post.
    + rewrite IH. split.
      * intros (pre & mid & post & -> & Ha). by exists (t :: pre), mid, post.
      * intros ([|p pre] & mid & post & Ht & Ha).
        -- exfalso. assert (matchhere re (t :: text) = true); [|congruence]. apply (matchhere_spec (length re)); [done|]. by exists mid, post.
        -- injection Ht as <- ->. by exists pre, mid, post.
Qed.

(** C31: [match] says yes exactly when the line contains a substring that the
    pattern, read as a regular expression over [.], [*] and a final [$],
    matches; at the start of the line when the pattern begins with [^]. *)
Theorem match_correct re text : match_ re text = true ↔ occurs re text.
Proof.
  unfold match_, occurs. destruct re as [|r re1].
  - rewrite match_loop_spec. split; [done|]. intros _. exists [], [], text. split; [done|constructor].
  - destruct (r =? c_caret); [by apply (matchhere_spec (length re1))|apply match_loop_spec].
Qed.

(** ** The lines grep prints *)

(** The complete lines of a stream after the unfinished line [cur], and the
    unfinished line at its end. *)
Fixpoint lines_of (s cur : list Z) : list (list Z) * list Z :=
  match s with
  | [] => ([], cur)
  | c :: s =>
      if c =? c_nl then (cur :: (lines_of s []).1, (lines_of s []).2)
      else lines_of s (cur ++ [c])
  end.

Definition matching (pattern : list Z) (ls : list (list Z)) : list Z :=
  concat (map (λ l, if match_ pattern l then l ++ [c_nl] else []) ls).

Lemma lines_of_app a b cur :
  lines_of (a ++ b) cur =
  ((lines_of a cur).1 ++ (lines_of b (lines_of a cur).2).1, (lines_of b (lines_of a cur).2).2).
Proof.
  revert cur. induction a as [|c a IH]; intros cur; cbn [app lines_of]; [apply surjective_pairing|].
  destruct (c =? c_nl); rewrite IH; done.
Qed.

Lemma lines_of_cur l cur : c_nl ∉ l → lines_of l cur = ([], cur ++ l).
Proof.
  revert cur. induction l as [|c l IH]; intros cur Hl; cbn [lines_of]; [by rewrite app_nil_r|].
  apply not_elem_of_cons in Hl as [Hc Hl]. rewrite (proj2 (Z.eqb_neq c c_nl)) by done. rewrite IH, <- app_assoc by done. done.
Qed.

Lemma lines_of_tail s cur : c_nl ∉ cur → c_nl ∉ (lines_of s cur).2.
Proof.
  revert cur. induction s as [|c s IH]; intros cur Hc; cbn [lines_of]; [done|]. destruct (c =? c_nl) eqn:E.
  - cbn [snd]. apply IH. apply not_elem_of_nil.
  - apply IH. rewrite not_elem_of_app, list_elem_of_singleton. split; [done|]. lia.
Qed.

Lemma lines_of_short s cur : c_nl ∈ s → (length (lines_of s cur).2 < length s)%nat.
Proof.
  assert (Hle : ∀ s cur, (length (lines_of s cur).2 <= length s + length cur)%nat).
  { clear. induction s as [|c s IH]; intros cur; cbn [lines_of]; [done|]. destruct (c =? c_nl); cbn [snd length].
    - specialize (IH []). cbn [length] in IH. lia.
    - specialize (IH (cur ++ [c])). rewrite length_app in IH. cbn [length] in IH. lia. }
  revert cur. induction s as [|c s IH]; intros cur Hs; [by apply elem_of_nil in Hs|]. cbn [lines_of].
  destruct (c =? c_nl) eqn:E; cbn [snd length].
  - specialize (Hle s []). cbn [length] in Hle. lia.
  - assert (c_nl ∈ s); [|specialize (IH (cur ++ [c]) ltac:(done)); lia]. apply elem_of_cons in Hs as [<-|Hs]; [lia|done].
Qed.

Lemma split_line_Some p l q : split_line p = Some (l, q) → p = l ++ c_nl :: q ∧ c_nl ∉ l.
Proof.
  revert l. induction p as [|c p IH]; intros l; cbn [split_line]; [done|]. destruct (c =? 0); [done|].
  destruct (c =? c_nl) eqn:E.
  - intros [= <- <-]. split; [cbn; f_equal; lia|apply not_elem_of_nil].
  - destruct (split_line p) as [[l' q']|]; [|done]. intros [= <- <-]. destruct (IH l' eq_refl) as [-> Hl].
    split; [done|]. apply not_elem_of_cons. split; [lia|done].
Qed.

Lemma split_line_None p : Forall (λ c, c ≠ 0) p → split_line p = None → c_nl ∉ p.
Proof.
  induction 1 as [|c p Hc _ IH]; cbn [split_line]; [intros _; apply not_elem_of_nil|].
  rewrite (proj2 (Z.eqb_neq c 0) Hc). destruct (c =? c_nl) eqn:E; [done|]. destruct (split_line p) as [[l q]|]; [done|].
  intros _. apply not_elem_of_cons. split; [lia|auto].
Qed.

Lemma grep_lines_spec fuel pattern p :
  Forall (λ c, c ≠ 0) p → (length p <= fuel)%nat →
  grep_lines fuel pattern p = (matching pattern (lines_of p []).1, (lines_of p []).2).
Proof.
  revert p. induction fuel as [|fuel IH]; intros p Hz Hf; cbn [grep_lines].
  { destruct p; [done|cbn in Hf; lia]. }
  destruct (split_line p) as [[l q]|] eqn:E.
  - apply split_line_Some in E as [-> Hl]. rewrite length_app in Hf. cbn [length] in Hf.
    apply Forall_app in Hz as [_ Hz]. apply Forall_cons in Hz as [_ Hz].
    rewrite IH by (done || lia). rewrite lines_of_app, (lines_of_cur l []) by done. done.
  - apply split_line_None in E; [|done]. by rewrite (lines_of_cur p []) by done.
Qed.

Lemma lines_of_nonzero s cur :
  Forall (λ x, x ≠ 0) s → Forall (λ x, x ≠ 0) cur → Forall (λ x, x ≠ 0) (lines_of s cur).2.
Proof.
  intros Hs. revert cur. induction Hs as [|y l Hy _ IH]; intros cur Hz; cbn [lines_of]; [done|].
  destruct (y =? c_nl); cbn [snd]; apply IH; [constructor|]. apply Forall_app. by repeat constructor.
Qed.

(** A piece [grep] handles: no NUL, a newline, and at most 511 bytes. *)
Definition piece_ok (c : list Z) : Prop := Forall (λ x, x ≠ 0) c ∧ c_nl ∈ c ∧ (length c <= 511)%nat.

Lemma grep_loop_spec pattern chunks : ∀ fuel kept,
  Forall piece_ok chunks → (length chunks < fuel)%nat → Forall (λ x, x ≠ 0) kept → c_nl ∉ kept → (length kept <= 511)%nat →
  grep_loop fuel pattern kept chunks = Some (matching pattern (lines_of (concat chunks) kept).1).
Proof.
  induction chunks as [|c chunks IH]; intros [|fuel] kept Hp Hf Hz Hn Hk; cbn [length] in Hf; try lia; cbn [grep_loop read_chunk]; [done|].
  apply Forall_cons in Hp as [(Hcz & Hcn & Hcl) Hp]. rewrite (proj2 (Nat.leb_le _ _)) by lia.
  destruct c as [|x c]; [by apply elem_of_nil in Hcn|]. set (got := x :: c) in *.
  assert (Hcut : lines_of (kept ++ got) [] = lines_of got kept) by (rewrite lines_of_app, (lines_of_cur kept []) by done; symmetry; apply surjective_pairing).
  rewrite grep_lines_spec, Hcut by (done || by apply Forall_app).
  pose proof (lines_of_short got kept Hcn) as Hs. unfold grep_keep. rewrite (proj2 (Nat.eqb_neq _ _)) by (rewrite length_app; lia).
  assert (Htz : Forall (λ x, x ≠ 0) (lines_of got kept).2) by by apply lines_of_nonzero.
  rewrite IH; [|done|lia|done|by apply lines_of_tail|lia].
  cbn [concat]. rewrite lines_of_app. cbn [fst mbind option_bind]. unfold matching. by rewrite map_app, concat_app.
Qed.

(** Input that arrives in short pieces, as from a pipe or the console: on
    pieces of at most 511 bytes, each with a newline in it, [grep] terminates
    and prints exactly the complete lines that the pattern matches, however the
    lines are cut into pieces. *)
Lemma grep_pieces pattern chunks :
  Forall piece_ok chunks → grep pattern chunks = Some (matching pattern (lines_of (concat chunks) []).1).
Proof. intros Hp. unfold grep. apply grep_loop_spec; [done|lia|constructor|apply not_elem_of_nil|cbn; lia]. Qed.

(** *** A file

    [read] fills the room in the buffer, or reads to the end of the file. *)

Lemma lines_of_first s cur : c_nl ∈ s → ∃ l ls, (lines_of s cur).1 = (cur ++ l) :: ls.
Proof.
  revert cur. induction s as [|c s IH]; intros cur Hs; [by apply elem_of_nil in Hs|]. cbn [lines_of].
  destruct (Z.eqb_spec c c_nl) as [E|E].
  - exists [], (lines_of s []).1. by rewrite app_nil_r.
  - apply elem_of_cons in Hs as [?|Hs]; [congruence|]. destruct (IH (cur ++ [c]) Hs) as (l & ls & ->).
    exists (c :: l), ls. by rewrite <- app_assoc.
Qed.

Lemma matching_app pattern a b : matching pattern (a ++ b) = matching pattern a ++ matching pattern b.
Proof. unfold matching. by rewrite map_app, concat_app. Qed.

(** One round of the loop on a buffer that holds [kept] and then [got]. *)
Lemma grep_round fuel pattern kept got chunks chunks' :
  read_chunk (1024 - length kept - 1) chunks = (got, chunks') → got ≠ [] → c_nl ∉ kept →
  Forall (λ x, x ≠ 0) kept → Forall (λ x, x ≠ 0) got →
  grep_loop (S fuel) pattern kept chunks =
  app (matching pattern (lines_of got kept).1) <$>
    grep_loop fuel pattern (grep_keep (kept ++ got) (lines_of got kept).2) chunks'.
Proof.
  intros Hr Hg Hk Hz Hgz. cbn [grep_loop]. rewrite Hr. destruct got as [|x got]; [done|].
  assert (Hcut : lines_of (kept ++ x :: got) [] = lines_of (x :: got) kept)
    by (rewrite lines_of_app, (lines_of_cur kept []) by done; symmetry; apply surjective_pairing).
  rewrite grep_lines_spec, Hcut by (done || by apply Forall_app). by destruct (grep_loop _ _ _ _).
Qed.

Lemma grep_file_loop pattern n : ∀ rest fuel kept,
  (length rest <= n)%nat → (length rest + 1 < fuel)%nat → Forall (λ x, x ≠ 0) rest → Forall (λ x, x ≠ 0) kept →
  c_nl ∉ kept → (length kept <= 1022)%nat → Forall (λ l, length l <= 1022)%nat (lines_of rest kept).1 →
  grep_loop fuel pattern kept [rest] = Some (matching pattern (lines_of rest kept).1).
Proof.
  induction n as [|n IH]; intros rest [|fuel] kept Hn Hf Hz Hkz Hk Hkl Hl; try lia;
    (destruct (decide (rest = [])) as [->|Hr]; [done|]).
  { by destruct rest; [|cbn in Hn; lia]. }
  destruct (decide (length rest <= 1024 - length kept - 1)%nat) as [Hroom|Hroom].
  { rewrite (grep_round _ _ _ rest _ []); [|cbn [read_chunk]; by rewrite (proj2 (Nat.leb_le _ _) Hroom)|done..].
    destruct fuel; [lia|]. cbn. by rewrite app_nil_r. }
  set (room := (1024 - length kept - 1)%nat) in *. set (got := take room rest). set (rest' := drop room rest).
  assert (Hgl : length got = room) by (apply length_take_le; lia).
  assert (Hrl : length rest' = (length rest - room)%nat) by apply length_drop.
  assert (Egr : rest = got ++ rest') by (symmetry; apply take_drop).
  assert (Hgn : got ≠ []) by (intros E; rewrite E in Hgl; cbn in Hgl; lia).
  assert (Hgz : Forall (λ x, x ≠ 0) got) by by apply Forall_take.
  assert (Hrz : Forall (λ x, x ≠ 0) rest') by by apply Forall_drop.
  rewrite (grep_round _ _ _ got _ [rest']); [|cbn [read_chunk]; by rewrite (proj2 (Nat.leb_gt _ _)) by lia|done..].
  rewrite Egr, lines_of_app in Hl |- *. cbn [fst] in *. apply Forall_app in Hl as [_ Hl]. rewrite matching_app.
  destruct (decide (c_nl ∈ got)) as [Hnl|Hnl].
  - pose proof (lines_of_short got kept Hnl) as Hs. unfold grep_keep.
    rewrite (proj2 (Nat.eqb_neq _ _)) by (rewrite length_app; lia).
    by rewrite IH; [|lia|lia|done|by apply lines_of_nonzero|by apply lines_of_tail|lia|].
  - rewrite (lines_of_cur got kept Hnl) in Hl |- *. cbn [fst snd] in *.
    unfold grep_keep. rewrite Nat.eqb_refl.
    assert (Hno : c_nl ∉ rest').
    { intros Hin. destruct (lines_of_first rest' (kept ++ got) Hin) as (l & ls & E). rewrite E in Hl.
      apply Forall_cons in Hl as [Hl _]. rewrite !length_app in Hl. lia. }
    rewrite IH; [|lia|lia|done|constructor|apply not_elem_of_nil|cbn; lia|].
    + by rewrite !lines_of_cur by done.
    + rewrite lines_of_cur by done. constructor.
Qed.

(** C32: on a file, whatever its length, [grep] terminates and prints exactly
    the complete lines of the file that the pattern matches, in order, however
    they are cut by the 1023-byte buffer, provided that the file has no NUL
    byte and that no complete line has more than 1022 characters (a longer one
    does not fit in the buffer). *)
Theorem grep_prints_matching_lines pattern content :
  Forall (λ x, x ≠ 0) content → Forall (λ l, length l <= 1022)%nat (lines_of content []).1 →
  grep pattern [content] = Some (matching pattern (lines_of content []).1).
Proof.
  intros Hz Hl. unfold grep. cbn [concat]. rewrite app_nil_r. cbn [length].
  apply (grep_file_loop pattern (length content)); [done|lia|done|constructor|apply not_elem_of_nil|cbn; lia|done].
Qed.

(** Five lines of 299 characters and "cd": the file takes two reads. *)
Lemma grep_prints_matching_lines_witness :
  let content := concat (replicate 5 (replicate 299 97 ++ [10])) ++ [99; 100; 10] in
  grep [99; 100] [content] = Some [99; 100; 10].
Proof.
  apply (grep_prints_matching_lines [99; 100] (concat (replicate 5 (replicate 299 97 ++ [10])) ++ [99; 100; 10])).
  - apply (Forall_impl (λ x, bool_decide (x ≠ 0) = true)); [|intros x Hx; by apply bool_decide_eq_true in Hx].
    vm_compute. repeat constructor.
  - apply (Forall_impl (λ l, (length l <=? 1022)%nat = true)); [|intros l Hx; by apply Nat.leb_le].
    vm_compute. repeat constructor.
Defined.

(** A piece without a newline is thrown away: "c" and "d\n". *)
Example grep_loses_partial_line : grep [99; 100] [[99]; [100; 10]] = Some [].
Proof. reflexivity. Qed.
