(* ===== verification/Sh.v ===== *)
(** * The shell's parser: sh.c

    The parser walks a pointer [*ps] over the line [s, es); here the state is
    the part of the line from [*ps] on, so that an address is the length of
    the line less the length of the rest.  A syntax error is a [panic]. *)

From S2P Require Import Prelude Param File.

Definition MAXARGS : Z := 10.

(** A token between [q] and [eq]: its offset in the line and its bytes. *)
Record token := Token { t_q : nat; t_text : list Z }.

(** [struct redircmd] without its command, and the commands. *)
Record redir := MkRedir { r_file : token; r_mode : Z; r_fd : Z }.
Inductive cmd :=
| EXEC (argv : list token)
| REDIR (c : cmd) (r : redir)
| PIPE (left right : cmd)
| LIST (left right : cmd)
| BACK (c : cmd).

Definition whitespace : list Z := [32; 9; 13; 10; 11].
Definition symbols : list Z := [60; 124; 62; 38; 59; 40; 41].
Definition strchr (l : list Z) (c : Z) : bool := existsb (Z.eqb c) l.

Definition tok_a : Z := 97.
Definition tok_append : Z := 43.
Definition c_lt : Z := 60.
Definition c_gt : Z := 62.
Definition c_bar : Z := 124.
Definition c_amp : Z := 38.
Definition c_semi : Z := 59.
Definition c_lpar : Z := 40.
Definition c_rpar : Z := 41.

Fixpoint skip_ws (s : list Z) : list Z :=
  match s with
  | c :: s' => if strchr whitespace c then skip_ws s' else s
  | [] => []
  end.

(** The word at the start of [s] and the rest. *)
Fixpoint span_word (s : list Z) : list Z * list Z :=
  match s with
  | [] => ([], [])
  | c :: s' =>
      if negb (strchr whitespace c) && negb (strchr symbols c) then
        let '(w, r) := span_word s' in (c :: w, r)
      else ([], s)
  end.

Section parser.
(** The length of the line. *)
Context (N : nat).
Abbreviation P := (M (list Z)).

Definition set_rest (s : list Z) : P unit := modify (λ _, s).

(** The token code, and the token [q, eq). *)
Definition gettoken : P (Z * token) :=
  s ← gets skip_ws;
  let q := (N - length s)%nat in
  match s with
  | [] => set_rest [] ;; mret (0, Token q [])
  | c :: s1 =>
      if strchr [c_bar; c_lpar; c_rpar; c_semi; c_amp; c_lt] c then
        set_rest (skip_ws s1) ;; mret (c, Token q [c])
      else if c =? c_gt then
        match s1 with
        | c' :: s2 =>
            if c' =? c_gt then set_rest (skip_ws s2) ;; mret (tok_append, Token q [c; c'])
            else set_rest (skip_ws s1) ;; mret (c, Token q [c])
        | [] => set_rest [] ;; mret (c, Token q [c])
        end
      else
        let '(w, r) := span_word s in
        set_rest (skip_ws r) ;; mret (tok_a, Token q w)
  end.

Definition peek (toks : list Z) : P bool :=
  s ← gets skip_ws;
  set_rest s ;;
  mret (match s with c :: _ => strchr toks c | [] => false end).

(** [redircmd] applied in order; [parseexec] fills the [execcmd] inside while
    it wraps redirections around it, so it collects both and builds the
    command when it is done. *)
Definition redircmds (c : cmd) (rs : list redir) : cmd := foldl REDIR c rs.

Fixpoint parseredirs (fuel : nat) : P (list redir) :=
  b ← peek [c_lt; c_gt];
  if negb b then mret [] else
  match fuel with
  | O => diverge
  | S fuel =>
      tok ← gettoken;
      f ← gettoken;
      if negb (f.1 =? tok_a) then panic "missing file for redirection" else
      let r := if tok.1 =? c_lt then [MkRedir f.2 O_RDONLY 0]
               else if tok.1 =? c_gt then [MkRedir f.2 (Z.lor O_WRONLY O_CREATE) 1]
               else if tok.1 =? tok_append then [MkRedir f.2 (Z.lor O_WRONLY O_CREATE) 1]
               else [] in
      rs ← parseredirs fuel;
      mret (r ++ rs)
  end.
Definition redirs : P (list redir) := s ← get; parseredirs (length s).

(** The loop of [parseexec] with [argc] arguments read. *)
Fixpoint parseargs (fuel : nat) (argc : Z) : P (list token * list redir) :=
  b ← peek [c_bar; c_rpar; c_amp; c_semi];
  if (b : bool) then mret ([], []) else
  match fuel with
  | O => diverge
  | S fuel =>
      t ← gettoken;
      if t.1 =? 0 then mret ([], []) else
      if negb (t.1 =? tok_a) then panic "syntax" else
      if MAXARGS <=? argc + 1 then panic "too many args" else
      rs ← redirs;
      more ← parseargs fuel (argc + 1);
      mret (t.2 :: more.1, rs ++ more.2)
  end.

(** The loop over [&] of [parseline]. *)
Fixpoint parseback (fuel : nat) (c : cmd) : P cmd :=
  b ← peek [c_amp];
  if negb b then mret c else
  match fuel with
  | O => diverge
  | S fuel => gettoken ;; parseback fuel (BACK c)
  end.

Fixpoint parseline (fuel : nat) : P cmd :=
  match fuel with
  | O => diverge
  | S fuel =>
      c ← parsepipe fuel;
      s ← get;
      c ← parseback (length s) c;
      b ← peek [c_semi];
      if negb b then mret c else
      gettoken ;;
      r ← parseline fuel;
      mret (LIST c r)
  end
with parsepipe (fuel : nat) : P cmd :=
  match fuel with
  | O => diverge
  | S fuel =>
      c ← parseexec fuel;
      b ← peek [c_bar];
      if negb b then mret c else
      gettoken ;;
      r ← parsepipe fuel;
      mret (PIPE c r)
  end
with parseexec (fuel : nat) : P cmd :=
  match fuel with
  | O => diverge
  | S fuel =>
      b ← peek [c_lpar];
      if (b : bool) then parseblock fuel else
      rs ← redirs;
      s ← get;
      a ← parseargs (S (length s)) 0;
      mret (redircmds (EXEC a.1) (rs ++ a.2))
  end
with parseblock (fuel : nat) : P cmd :=
  match fuel with
  | O => diverge
  | S fuel =>
      b ← peek [c_lpar];
      if negb b then panic "parseblock" else
      gettoken ;;
      c ← parseline fuel;
      b ← peek [c_rpar];
      if negb b then panic "syntax - missing )" else
      gettoken ;;
      rs ← redirs;
      mret (redircmds c rs)
  end.
End parser.

(** [nulterminate]: a NUL at the end of every string of the command. *)
Definition end_string (t : token) (buf : list Z) : list Z := <[(t_q t + length (t_text t))%nat := 0]> buf.
Fixpoint nulterminate (c : cmd) (buf : list Z) : list Z :=
  match c with
  | EXEC argv => foldl (λ b t, end_string t b) buf argv
  | REDIR c r => end_string (r_file r) (nulterminate c buf)
  | PIPE l r | LIST l r => nulterminate r (nulterminate l buf)
  | BACK c => nulterminate c buf
  end.

(** [parsecmd] of the line [s], which has a NUL after it: the command and the
    buffer with its strings. *)
Definition parsecmd (s : list Z) : outcome (list Z) (cmd * list Z) :=
  (c ← parseline (length s) (4 * length s + 4);
   peek [] ;;
   rest ← get;
   match rest with
   | [] => mret (c, nulterminate c (s ++ [0]))
   | _ => panic "syntax"
   end) s.

(** ** The parser terminates, and the strings it finds are what was typed *)

Definition wordc (c : Z) : bool := negb (strchr whitespace c) && negb (strchr symbols c).

(** The strings of a command, in the order [nulterminate] ends them. *)
Fixpoint strings (c : cmd) : list token :=
  match c with
  | EXEC argv => argv
  | REDIR c r => strings c ++ [r_file r]
  | PIPE l r | LIST l r => strings l ++ strings r
  | BACK c => strings c
  end.

(** [m] returns with [Q] or is stopped by a syntax error; it does not run out
    of its loop bounds. *)
Definition runs {A} (m : M (list Z) A) (Q : A → list Z → Prop) (rest : list Z) : Prop :=
  match m rest with
  | Ret a rest' => Q a rest'
  | Panic _ => True
  | _ => False
  end.

Lemma runs_bind {A B} (m : M (list Z) A) (f : A → M (list Z) B) Q rest :
  runs m (λ a r, runs (f a) Q r) rest → runs (m ≫= f) Q rest.
Proof. unfold runs, mbind, M_bind. destruct (m rest); done. Qed.

Lemma runs_mono {A} (m : M (list Z) A) (Q Q' : A → list Z → Prop) rest :
  runs m Q rest → (∀ a r, Q a r → Q' a r) → runs m Q' rest.
Proof. unfold runs. destruct (m rest); auto. Qed.

Lemma runs_panic {A} msg (Q : A → list Z → Prop) rest : runs (panic msg) Q rest.
Proof. done. Qed.

Lemma runs_ret {A} (a : A) (Q : A → list Z → Prop) rest : Q a rest → runs (mret a) Q rest.
Proof. done. Qed.

Lemma skip_ws_suffix s : skip_ws s `suffix_of` s.
Proof.
  induction s as [|c s IH]; cbn [skip_ws]; [done|]. destruct (strchr whitespace c); [|done]. by apply suffix_cons_r.
Qed.

Lemma skip_ws_idem s : skip_ws (skip_ws s) = skip_ws s.
Proof.
  induction s as [|c s IH]; cbn [skip_ws]; [done|]. destruct (strchr whitespace c) eqn:E; [done|]. cbn [skip_ws]. by rewrite E.
Qed.

Lemma span_word_eq s : s = (span_word s).1 ++ (span_word s).2.
Proof.
  induction s as [|c s IH]; cbn [span_word]; [done|]. destruct (_ && _); [|done].
  destruct (span_word s) as [w r]. cbn in *. by f_equal.
Qed.

Lemma span_word_chars s : Forall (λ c, wordc c = true) (span_word s).1.
Proof.
  induction s as [|c s IH]; cbn [span_word]; [constructor|]. destruct (_ && _) eqn:E; [|constructor].
  destruct (span_word s) as [w r]. by constructor.
Qed.

Lemma span_word_stop s : match (span_word s).2 with c :: _ => wordc c = false | [] => True end.
Proof.
  induction s as [|c s IH]; cbn [span_word]; [done|]. destruct (_ && _) eqn:E; [|exact E].
  destruct (span_word s) as [w r]. exact IH.
Qed.

(** Chains of suffixes. *)
Ltac sufs :=
  solve [ assumption | reflexivity
        | match goal with H : ?a `suffix_of` ?b |- ?a `suffix_of` _ => transitivity b; [exact H|clear H; sufs] end ].

Section sound.
Context (s : list Z).

(** A token that is a word of the line, up to a character that is not. *)
Definition tok_ok (t : token) : Prop :=
  ∃ pre post, s = pre ++ t_text t ++ post ∧ length pre = t_q t ∧ t_text t ≠ [] ∧
    Forall (λ c, wordc c = true) (t_text t) ∧ match post with c :: _ => wordc c = false | [] => True end.

Lemma gettoken_ok rest :
  rest `suffix_of` s →
  runs (gettoken (length s)) (λ r rest', rest' `suffix_of` rest ∧ skip_ws rest' = rest' ∧
    (skip_ws rest = [] ∧ r.1 = 0 ∨ (length rest' < length rest)%nat ∧ r.1 ≠ 0) ∧ (r.1 = tok_a → tok_ok r.2)) rest.
Proof.
  intros Hs. unfold gettoken. apply runs_bind. unfold runs at 1, gets. pose proof (skip_ws_suffix rest) as Hsk.
  destruct (skip_ws rest) as [|c s1] eqn:E.
  { cbn. split_and!; [by destruct rest; [|apply suffix_nil]|done|by left|done]. }
  assert (Hd : ∀ r, r `suffix_of` s1 → skip_ws r `suffix_of` rest ∧ skip_ws (skip_ws r) = skip_ws r ∧ (length (skip_ws r) < length rest)%nat).
  { intros r Hr. split_and!; [|apply skip_ws_idem|].
    - etrans; [apply skip_ws_suffix|]. etrans; [exact Hr|]. etrans; [|exact Hsk]. by apply suffix_cons_r.
    - apply suffix_length in Hr, Hsk. pose proof (suffix_length _ _ (skip_ws_suffix r)). cbn [length] in Hsk. lia. }
  assert (Hsym : ∀ k t r, r `suffix_of` s1 → k ≠ 0 → k ≠ tok_a →
    runs (set_rest (skip_ws r) ;; mret (k, t)) (λ r rest', rest' `suffix_of` rest ∧ skip_ws rest' = rest' ∧
      (c :: s1 = [] ∧ r.1 = 0 ∨ (length rest' < length rest)%nat ∧ r.1 ≠ 0) ∧ (r.1 = tok_a → tok_ok r.2)) rest).
  { intros k t r Hr Hk Ha. destruct (Hd r Hr) as (H1 & H2 & H3). unfold runs, set_rest, modify, mbind, M_bind, mret, M_ret.
    cbn [fst snd]. split_and!; [done|done|by right|done]. }
  destruct (strchr _ c) eqn:Esym.
  { apply Hsym; [done|..]; cbn in Esym; unfold c_bar, c_lpar, c_rpar, c_semi, c_amp, c_lt, tok_a in *; lia. }
  destruct (c =? c_gt) eqn:Egt.
  { apply Z.eqb_eq in Egt. assert (Hc : c ≠ 0 ∧ c ≠ tok_a) by (by rewrite Egt). destruct Hc as [Hc Hc'].
    destruct s1 as [|c' s2]; [by apply (Hsym c _ [])|]. destruct (c' =? c_gt); apply Hsym; try done. by apply suffix_cons_r. }
  assert (Hw : wordc c = true).
  { pose proof (f_equal skip_ws E) as Ew. rewrite skip_ws_idem, E in Ew. cbn [skip_ws] in Ew.
    unfold wordc. destruct (strchr whitespace c) eqn:Ec.
    - exfalso. pose proof (suffix_length _ _ (skip_ws_suffix s1)) as Hl. rewrite <- Ew in Hl. cbn in Hl. lia.
    - cbn in Esym |- *. unfold c_bar, c_lpar, c_rpar, c_semi, c_amp, c_lt, c_gt in *. lia. }
  pose proof (span_word_eq (c :: s1)) as Heq. pose proof (span_word_chars (c :: s1)) as Hch. pose proof (span_word_stop (c :: s1)) as Hst.
  assert (Hne : (span_word (c :: s1)).1 ≠ []).
  { cbn [span_word]. unfold wordc in Hw. rewrite Hw. by destruct (span_word s1). }
  destruct (span_word (c :: s1)) as [w r] eqn:Esp. cbn [fst snd] in *. unfold runs, set_rest, modify, mbind, M_bind, mret, M_ret. cbn [fst snd t_q t_text].
  destruct (Hd r) as (H1 & H2 & H3).
  { destruct w as [|x w]; [done|]. injection Heq as _ ->. by exists w. }
  split_and!; [done|done|right; done|]. intros _.
  assert (Hsuf : (c :: s1) `suffix_of` s) by (etrans; [exact Hsk|exact Hs]). destruct Hsuf as [pre Hpre].
  exists pre, r. cbn [t_text t_q]. split_and!; [by rewrite Hpre, Heq| |done|done|done].
  rewrite Hpre, length_app. cbn [length]. lia.
Qed.

Lemma peek_ok toks rest :
  runs (peek toks) (λ b rest', rest' = skip_ws rest ∧ (b = true → rest' ≠ [])) rest.
Proof. unfold peek, runs, gets, set_rest, modify, mbind, M_bind, mret, M_ret. split; [done|]. by destruct (skip_ws rest). Qed.

(** The rest after a piece of the parser: a suffix of what was there. *)
Definition shrinks {A} (m : M (list Z) A) (Q : A → Prop) rest : Prop :=
  runs m (λ a rest', rest' `suffix_of` rest ∧ Q a) rest.

(** A token where [peek] saw one. *)
Lemma token_ok {A} (f : Z * token → M (list Z) A) (Q : A → list Z → Prop) rest :
  rest `suffix_of` s → skip_ws rest ≠ [] →
  (∀ r rest', rest' `suffix_of` rest → (length rest' < length rest)%nat → (r.1 = tok_a → tok_ok r.2) → runs (f r) Q rest') →
  runs (gettoken (length s) ≫= f) Q rest.
Proof.
  intros Hs Hne Hf. apply runs_bind. eapply runs_mono; [by apply gettoken_ok|]. cbn beta.
  intros r rest' (H1 & _ & [[? _]|[H2 _]] & H3); [done|]. by apply Hf.
Qed.

Lemma peek_then {A} toks (f : bool → M (list Z) A) (Q : A → list Z → Prop) rest :
  (∀ b rest', rest' `suffix_of` rest → skip_ws rest' = rest' → (b = true → rest' ≠ []) → runs (f b) Q rest') →
  runs (peek toks ≫= f) Q rest.
Proof.
  intros Hf. apply runs_bind. eapply runs_mono; [apply peek_ok|]. cbn beta. intros b r [-> Hb].
  apply Hf; [apply skip_ws_suffix|apply skip_ws_idem|done].
Qed.

Lemma get_then {A} (f : list Z → M (list Z) A) (Q : A → list Z → Prop) rest :
  runs (f rest) Q rest → runs (get ≫= f) Q rest.
Proof. done. Qed.

Lemma parseredirs_ok fuel rest :
  rest `suffix_of` s → (length rest <= fuel)%nat →
  shrinks (parseredirs (length s) fuel) (λ rs, Forall tok_ok (map r_file rs)) rest.
Proof.
  revert rest. induction fuel as [|fuel IH]; intros rest Hs Hf; unfold shrinks; cbn [parseredirs];
    apply peek_then; intros b r1 Hr1 Hw Hb; pose proof (suffix_length _ _ Hr1) as Hl1;
    (destruct b; cbn [negb]; [|by apply runs_ret; split; [|constructor]]); specialize (Hb eq_refl).
  { destruct r1; [done|cbn in Hl1; lia]. }
  assert (Hs1 : r1 `suffix_of` s) by by etrans. apply token_ok; [done|by rewrite Hw|]. intros tok r2 Hr2 Hl2 _.
  apply runs_bind. eapply runs_mono; [apply gettoken_ok; by etrans|]. cbn beta. intros f r3 (Hr3 & _ & _ & Hf3).
  pose proof (suffix_length _ _ Hr3) as Hl3. destruct (f.1 =? tok_a) eqn:Ea; cbn [negb]; [|done]. cbv zeta.
  apply Z.eqb_eq in Ea. specialize (Hf3 Ea). apply runs_bind. eapply runs_mono.
  - apply IH; [|lia]. etrans; [exact Hr3|]. by etrans.
  - cbn beta. intros rs r4 [Hr4 Hrs]. apply runs_ret. split; [sufs|].
    rewrite map_app. apply Forall_app. split; [|done]. repeat case_match; repeat constructor; done.
Qed.

Lemma redirs_ok rest : rest `suffix_of` s → shrinks (redirs (length s)) (λ rs, Forall tok_ok (map r_file rs)) rest.
Proof. intros Hs. unfold redirs, shrinks. apply get_then. by apply parseredirs_ok. Qed.

Lemma parseargs_ok fuel argc rest :
  rest `suffix_of` s → (length rest < fuel)%nat →
  shrinks (parseargs (length s) fuel argc) (λ a, Forall tok_ok a.1 ∧ Forall tok_ok (map r_file a.2)) rest.
Proof.
  revert argc rest. induction fuel as [|fuel IH]; intros argc rest Hs Hf; [lia|]. unfold shrinks. cbn [parseargs].
  apply peek_then. intros b r1 Hr1 Hw Hb. pose proof (suffix_length _ _ Hr1) as Hl1.
  assert (Hs1 : r1 `suffix_of` s) by by etrans.
  destruct b; [apply runs_ret; split; [exact Hr1|by split; constructor]|]. apply runs_bind. eapply runs_mono; [by apply gettoken_ok|].
  cbn beta. intros t r2 (Hr2 & _ & Hc & Ht). destruct (t.1 =? 0) eqn:E0.
  { apply runs_ret. split; [by etrans|by split; constructor]. }
  destruct (t.1 =? tok_a) eqn:Ea; cbn [negb]; [|done]. destruct (MAXARGS <=? argc + 1); [done|].
  destruct Hc as [[_ Hc]|[Hl2 _]]; [lia|]. apply Z.eqb_eq in Ea. specialize (Ht Ea).
  apply runs_bind. eapply runs_mono; [apply redirs_ok; by etrans|]. cbn beta. intros rs r3 [Hr3 Hrs].
  pose proof (suffix_length _ _ Hr3) as Hl3. apply runs_bind. eapply runs_mono.
  - apply IH; [|lia]. etrans; [exact Hr3|]. by etrans.
  - cbn beta. intros more r4 (Hr4 & Ha & Hm). apply runs_ret. split; [sufs|]. cbn [fst snd].
    split; [by constructor|]. rewrite map_app. by apply Forall_app.
Qed.

Definition cmd_ok (c : cmd) : Prop := Forall tok_ok (strings c).

Lemma redircmds_ok c rs : cmd_ok c → Forall tok_ok (map r_file rs) → cmd_ok (redircmds c rs).
Proof.
  unfold redircmds, cmd_ok. revert c. induction rs as [|r rs IH]; intros c Hc Hr; cbn [foldl map] in *; [done|].
  apply Forall_cons in Hr as [Hr Hrs]. apply IH; [|done]. cbn [strings]. apply Forall_app. by repeat constructor.
Qed.

Lemma parseback_ok fuel c rest :
  rest `suffix_of` s → (length rest <= fuel)%nat → cmd_ok c → shrinks (parseback (length s) fuel c) cmd_ok rest.
Proof.
  revert c rest. induction fuel as [|fuel IH]; intros c rest Hs Hf Hc; unfold shrinks; cbn [parseback];
    apply peek_then; intros b r1 Hr1 Hw Hb; pose proof (suffix_length _ _ Hr1) as Hl1;
    (destruct b; cbn [negb]; [|by apply runs_ret]); specialize (Hb eq_refl).
  { destruct r1; [done|cbn in Hl1; lia]. }
  assert (Hs1 : r1 `suffix_of` s) by by etrans. apply token_ok; [done|by rewrite Hw|]. intros tok r2 Hr2 Hl2 _.
  eapply runs_mono; [apply (IH (BACK c)); [by etrans|lia|done]|]. cbn beta. intros c' r3 [Hr3 Hc'].
  split; [sufs|done].
Qed.

Lemma parse_ok fuel : 
  (∀ rest, rest `suffix_of` s → (4 * length rest + 4 <= fuel)%nat → shrinks (parseline (length s) fuel) cmd_ok rest) ∧
  (∀ rest, rest `suffix_of` s → (4 * length rest + 3 <= fuel)%nat → shrinks (parsepipe (length s) fuel) cmd_ok rest) ∧
  (∀ rest, rest `suffix_of` s → (4 * length rest + 2 <= fuel)%nat → shrinks (parseexec (length s) fuel) cmd_ok rest) ∧
  (∀ rest, rest `suffix_of` s → (4 * length rest + 1 <= fuel)%nat → shrinks (parseblock (length s) fuel) cmd_ok rest).
Proof.
  induction fuel as [|fuel (IHl & IHp & IHe & IHb)]; [split_and!; intros; lia|].
  split_and!; intros rest Hs Hf; unfold shrinks; cbn [parseline parsepipe parseexec parseblock].
  - apply runs_bind. eapply runs_mono; [apply IHp; [done|lia]|]. cbn beta. intros c r1 [Hr1 Hc].
    assert (Hs1 : r1 `suffix_of` s) by by etrans. apply get_then, runs_bind. eapply runs_mono; [by apply parseback_ok|].
    cbn beta. intros c' r2 [Hr2 Hc']. apply peek_then. intros b r3 Hr3 Hw Hb.
    destruct b; cbn [negb]; [|apply runs_ret; split; [sufs|done]].
    assert (Hs3 : r3 `suffix_of` s) by (sufs). apply token_ok; [done|rewrite Hw; auto|].
    intros tok r4 Hr4 Hl4 _. pose proof (suffix_length _ _ Hr1). pose proof (suffix_length _ _ Hr2). pose proof (suffix_length _ _ Hr3).
    apply runs_bind. eapply runs_mono; [apply IHl; [by etrans|lia]|]. cbn beta. intros c2 r5 [Hr5 Hc2].
    apply runs_ret. split; [sufs|]. by apply Forall_app.
  - apply runs_bind. eapply runs_mono; [apply IHe; [done|lia]|]. cbn beta. intros c r1 [Hr1 Hc].
    assert (Hs1 : r1 `suffix_of` s) by by etrans. apply peek_then. intros b r3 Hr3 Hw Hb.
    destruct b; cbn [negb]; [|apply runs_ret; split; [by etrans|done]].
    assert (Hs3 : r3 `suffix_of` s) by by etrans. apply token_ok; [done|rewrite Hw; auto|].
    intros tok r4 Hr4 Hl4 _. pose proof (suffix_length _ _ Hr1). pose proof (suffix_length _ _ Hr3).
    apply runs_bind. eapply runs_mono; [apply IHp; [by etrans|lia]|]. cbn beta. intros c2 r5 [Hr5 Hc2].
    apply runs_ret. split; [sufs|]. by apply Forall_app.
  - apply peek_then. intros b r1 Hr1 Hw Hb. assert (Hs1 : r1 `suffix_of` s) by by etrans. pose proof (suffix_length _ _ Hr1).
    destruct b.
    + eapply runs_mono; [apply IHb; [done|lia]|]. cbn beta. intros c r2 [Hr2 Hc]. split; [by etrans|done].
    + apply runs_bind. eapply runs_mono; [by apply redirs_ok|]. cbn beta. intros rs r2 [Hr2 Hrs]. apply get_then, runs_bind.
      eapply runs_mono; [apply parseargs_ok; [by etrans|lia]|]. cbn beta. intros a r3 (Hr3 & Ha & Hm). apply runs_ret.
      split; [sufs|]. apply redircmds_ok; [done|]. rewrite map_app. by apply Forall_app.
  - apply peek_then. intros b r1 Hr1 Hw Hb. assert (Hs1 : r1 `suffix_of` s) by by etrans. pose proof (suffix_length _ _ Hr1).
    destruct b; cbn [negb]; [|done]. apply token_ok; [done|rewrite Hw; auto|]. intros tok r2 Hr2 Hl2 _.
    apply runs_bind. eapply runs_mono; [apply IHl; [by etrans|lia]|]. cbn beta. intros c r3 [Hr3 Hc]. apply peek_then.
    intros b r4 Hr4 Hw4 Hb4. destruct b; cbn [negb]; [|done].
    assert (Hs4 : r4 `suffix_of` s) by (sufs). apply token_ok; [done|rewrite Hw4; auto|].
    intros tok' r5 Hr5 Hl5 _. apply runs_bind. eapply runs_mono; [apply redirs_ok; by etrans|]. cbn beta. intros rs r6 [Hr6 Hrs].
    apply runs_ret. split; [sufs|]. by apply redircmds_ok.
Qed.
End sound.

(** *** The strings in the buffer *)

(** The C string at offset [q]. *)
Fixpoint cstring (buf : list Z) : list Z :=
  match buf with
  | [] => []
  | c :: buf => if c =? 0 then [] else c :: cstring buf
  end.

Lemma nulterminate_strings c buf : nulterminate c buf = foldl (λ b t, end_string t b) buf (strings c).
Proof.
  revert buf. induction c as [argv|c IH r|l IHl r IHr|l IHl r IHr|c IH]; intros buf; cbn [nulterminate strings]; [done|..].
  - by rewrite foldl_app, IH.
  - by rewrite foldl_app, IHl, IHr.
  - by rewrite foldl_app, IHl, IHr.
  - apply IH.
Qed.

(** Ending strings at places that are not inside a word leaves the words. *)
Lemma end_strings_keep s ts buf i c :
  Forall (tok_ok s) ts → s !! i = Some c → wordc c = true → buf !! i = Some c →
  foldl (λ b t, end_string t b) buf ts !! i = Some c.
Proof.
  intros Hts Hi Hw. revert buf. induction Hts as [|t ts (pre & post & Hs & Hq & _ & _ & Hp) _ IH]; intros buf Hb; cbn [foldl]; [done|].
  apply IH. unfold end_string. rewrite list_lookup_insert_ne; [done|]. intros He. subst i.
  rewrite Hs, app_assoc, <- Hq, <- length_app in Hi. destruct post as [|x post].
  - rewrite lookup_app_r, Nat.sub_diag in Hi by lia. done.
  - rewrite list_lookup_middle in Hi by done. injection Hi as <-. congruence.
Qed.

Lemma end_strings_length ts buf : length (foldl (λ b t, end_string t b) buf ts) = length buf.
Proof. revert buf. induction ts as [|t ts IH]; intros buf; cbn [foldl]; [done|]. rewrite IH. apply length_insert. Qed.

Lemma end_strings_zero ts buf t :
  t ∈ ts → (t_q t + length (t_text t) < length buf)%nat →
  foldl (λ b t, end_string t b) buf ts !! (t_q t + length (t_text t))%nat = Some 0.
Proof.
  revert buf. induction ts as [|u ts IH] using rev_ind; intros buf Hin Hl; [by apply elem_of_nil in Hin|].
  rewrite foldl_app. cbn [foldl]. unfold end_string at 1.
  destruct (decide ((t_q u + length (t_text u))%nat = (t_q t + length (t_text t))%nat)) as [->|Hne].
  - apply list_lookup_insert_eq. by rewrite end_strings_length.
  - rewrite list_lookup_insert_ne by done. apply IH; [|done]. apply elem_of_app in Hin as [Hin|Hin]; [done|].
    apply list_elem_of_singleton in Hin. by subst.
Qed.

Lemma cstring_text buf q text :
  (∀ k c, text !! k = Some c → buf !! (q + k)%nat = Some c ∧ c ≠ 0) → buf !! (q + length text)%nat = Some 0 →
  cstring (drop q buf) = text.
Proof.
  revert q. induction text as [|c text IH]; intros q Hk Hz.
  - cbn [length] in Hz. rewrite Nat.add_0_r in Hz. rewrite (drop_S buf 0 q Hz). done.
  - destruct (Hk 0%nat c eq_refl) as [Hc Hne]. rewrite Nat.add_0_r in Hc. rewrite (drop_S _ _ _ Hc). cbn [cstring].
    rewrite (proj2 (Z.eqb_neq c 0) Hne). f_equal. apply IH.
    + intros k x Hx. specialize (Hk (S k) x Hx). by rewrite Nat.add_succ_r in Hk.
    + cbn [length] in Hz. by rewrite Nat.add_succ_r in Hz.
Qed.

Lemma terminated_string s c t :
  Forall (λ x, x ≠ 0) s → cmd_ok s c → t ∈ strings c →
  cstring (drop (t_q t) (nulterminate c (s ++ [0]))) = t_text t ∧ t_text t = take (length (t_text t)) (drop (t_q t) s).
Proof.
  intros Hz Hc Ht. rewrite nulterminate_strings. pose proof (proj1 (Forall_forall _ _) Hc t Ht) as (pre & post & Hs & Hq & Hne & Hw & Hp).
  assert (Htext : ∀ k x, t_text t !! k = Some x → s !! (t_q t + k)%nat = Some x).
  { intros k x Hk. rewrite Hs, <- Hq, lookup_app_r, Nat.add_comm, Nat.add_sub by lia. by rewrite lookup_app_l by by eapply lookup_lt_Some. }
  split.
  - apply cstring_text.
    + intros k x Hk. pose proof (Htext k x Hk) as Hx. split.
      * eapply end_strings_keep; [exact Hc|exact Hx|by eapply (Forall_lookup_1 _ _ _ _ Hw)|]. rewrite lookup_app_l; [done|by eapply lookup_lt_Some].
      * by eapply (Forall_lookup_1 _ _ _ _ Hz).
    + apply end_strings_zero; [done|]. rewrite length_app, Hs, !length_app, Hq. cbn [length]. lia.
  - rewrite Hs, <- Hq, drop_app_length, take_app_length. done.
Qed.

(** C33: for every line without NULs, [parsecmd] terminates: it stops with a
    syntax error or returns a command; and then every argument and file name
    in the command, as the NUL-terminated string [nulterminate] leaves in the
    buffer, is exactly the word typed at that place of the line. *)
Theorem parsecmd_total s :
  Forall (λ x, x ≠ 0) s →
  (∃ msg, parsecmd s = Panic msg) ∨
  ∃ c buf, parsecmd s = Ret (c, buf) [] ∧ ∀ t, t ∈ strings c →
    cstring (drop (t_q t) buf) = t_text t ∧ t_text t = take (length (t_text t)) (drop (t_q t) s).
Proof.
  intros Hz. unfold parsecmd. pose proof (proj1 (parse_ok s (4 * length s + 4)) s ltac:(done) ltac:(done)) as Hp.
  unfold shrinks, runs in Hp. destruct (parseline (length s) (4 * length s + 4) s) as [c rest|msg| | |] eqn:E; [|by left; exists msg; unfold mbind, M_bind; rewrite E|done..].
  destruct Hp as [_ Hc]. rewrite (bind_Ret _ _ _ _ _ E). unfold peek, gets, get, set_rest, modify, mbind, M_bind, mret, M_ret.
  destruct (skip_ws rest) as [|x l]; [right|by left; exists "syntax"%string].
  eexists _, _. split; [reflexivity|]. intros t Ht. by apply terminated_string.
Qed.

(** The line "cat<in". *)
Lemma parsecmd_total_witness :
  ∃ c buf, parsecmd [99; 97; 116; 60; 105; 110] = Ret (c, buf) [] ∧
    ∀ t, t ∈ strings c → cstring (drop (t_q t) buf) = t_text t.
Proof.
  destruct (parsecmd_total [99; 97; 116; 60; 105; 110]) as [[msg E]|(c & buf & E & Hs)].
  - repeat constructor; lia.
  - vm_compute in E. discriminate.
  - exists c, buf. split; [exact E|]. intros t Ht. by apply Hs.
Defined.

(** ** Printing and parsing *)

(** Commands with the text of their strings. *)
Inductive ast :=
| AExec (argv : list (list Z))
| ARedir (a : ast) (file : list Z) (mode fd : Z)
| APipe (l r : ast)
| AList (l r : ast)
| ABack (a : ast).

Fixpoint erase (c : cmd) : ast :=
  match c with
  | EXEC argv => AExec (map t_text argv)
  | REDIR c r => ARedir (erase c) (t_text (r_file r)) (r_mode r) (r_fd r)
  | PIPE l r => APipe (erase l) (erase r)
  | LIST l r => AList (erase l) (erase r)
  | BACK c => ABack (erase c)
  end.

Definition word_ok (w : list Z) : Prop := w ≠ [] ∧ Forall (λ c, wordc c = true) w.

(** What the parser can produce: at most nine arguments, and redirections for
    input or for output. *)
Fixpoint ast_ok (a : ast) : Prop :=
  match a with
  | AExec argv => Forall word_ok argv ∧ (length argv <= 9)%nat
  | ARedir a f mode fd => ast_ok a ∧ word_ok f ∧ (mode = O_RDONLY ∧ fd = 0 ∨ mode = Z.lor O_WRONLY O_CREATE ∧ fd = 1)
  | APipe l r | AList l r => ast_ok l ∧ ast_ok r
  | ABack a => ast_ok a
  end.

Definition spaced (ws : list (list Z)) : list Z := concat (map (cons 32) ws).
Definition pr_words (ws : list (list Z)) : list Z := match ws with [] => [] | w :: ws => w ++ spaced ws end.
Definition pr_redir (file : list Z) (fd : Z) : list Z := (if fd =? 0 then c_lt else c_gt) :: file.
Definition paren (b : bool) (s : list Z) : list Z := if b then c_lpar :: s ++ [c_rpar] else s.

(** A command as text; [lvl] is 0 in a line, 1 before an ampersand, 2 in a
    pipeline and 3 as a single command: a looser command gets parentheses. *)
Fixpoint print (lvl : nat) (a : ast) : list Z :=
  match a with
  | AExec ws => pr_words ws
  | ARedir a f mode fd => print 3 a ++ pr_redir f fd
  | APipe l r => paren (2 <? lvl)%nat (print 3 l ++ c_bar :: print 2 r)
  | ABack a => paren (1 <? lvl)%nat (print 1 a ++ [c_amp])
  | AList l r => paren (0 <? lvl)%nat (print 1 l ++ c_semi :: print 0 r)
  end.

(** Text that can follow a command. *)
Definition follows (toks s : list Z) : Prop := match s with [] => True | c :: _ => strchr toks c = true end.
Abbreviation ends_exec := (follows [c_bar; c_rpar; c_amp; c_semi]).
Abbreviation ends_pipe := (follows [c_rpar; c_amp; c_semi]).
Abbreviation ends_line := (follows [c_rpar]).

Section print.
Context (N : nat).

Lemma strchr_iff l c : strchr l c = true ↔ c ∈ l.
Proof.
  unfold strchr. rewrite existsb_exists. setoid_rewrite Z.eqb_eq. split.
  - intros (x & Hx & ->). by apply list_elem_of_In.
  - intros Hc. exists c. split; [by apply list_elem_of_In|done].
Qed.

(** A symbol is no white space. *)
Lemma symbol_not_space c : strchr symbols c = true → strchr whitespace c = false.
Proof. cbn. lia. Qed.

Lemma skip_symbol c s : strchr symbols c = true → skip_ws (c :: s) = c :: s.
Proof. intros Hc. cbn [skip_ws]. by rewrite symbol_not_space. Qed.

Lemma skip_word w s : word_ok w → skip_ws (w ++ s) = w ++ s.
Proof.
  intros [Hne Hw]. destruct w as [|c w]; [done|]. apply Forall_cons in Hw as [Hc _]. cbn [app skip_ws].
  unfold wordc in Hc. by destruct (strchr whitespace c).
Qed.

Lemma follows_symbols toks s : follows toks s → (∀ c, strchr toks c = true → strchr symbols c = true) →
  skip_ws s = s ∧ match s with c :: _ => wordc c = false | [] => True end.
Proof.
  intros Hf Hsub. destruct s as [|c s]; [done|]. cbn [follows] in Hf. apply Hsub in Hf. split; [by apply skip_symbol|].
  unfold wordc. rewrite Hf. by destruct (negb _).
Qed.

Lemma span_word_app w s :
  Forall (λ c, wordc c = true) w → match s with c :: _ => wordc c = false | [] => True end → span_word (w ++ s) = (w, s).
Proof.
  intros Hw Hs. induction Hw as [|c w Hc _ IH]; cbn [app].
  - destruct s as [|c s]; [done|]. cbn [span_word]. unfold wordc in Hs. by rewrite Hs.
  - cbn [span_word]. unfold wordc in Hc. rewrite Hc, IH. done.
Qed.

Lemma get_word w s :
  word_ok w → match s with c :: _ => wordc c = false | [] => True end →
  gettoken N (w ++ s) = Ret (tok_a, Token (N - length (w ++ s)) w) (skip_ws s).
Proof.
  intros Hw Hs. unfold gettoken. rewrite (bind_Ret (gets skip_ws) _ _ (w ++ s) (w ++ s)) by (unfold gets; by rewrite skip_word).
  destruct Hw as [Hne Hw]. pose proof (span_word_app w s Hw Hs) as E. destruct w as [|c w]; [done|]. apply Forall_cons in Hw as [Hc _].
  cbn [app] in *. assert (Hsym : strchr symbols c = false) by (unfold wordc in Hc; by destruct (strchr symbols c), (negb (strchr whitespace c))).
  rewrite E. destruct (strchr [c_bar; c_lpar; c_rpar; c_semi; c_amp; c_lt] c) eqn:E1; [cbn in E1, Hsym; unfold c_bar, c_lpar, c_rpar, c_semi, c_amp, c_lt in E1; lia|].
  destruct (c =? c_gt) eqn:E2; [cbn in Hsym; unfold c_gt in E2; lia|]. done.
Qed.

Lemma get_symbol c s :
  strchr [c_bar; c_lpar; c_rpar; c_semi; c_amp; c_lt] c = true →
  gettoken N (c :: s) = Ret (c, Token (N - length (c :: s)) [c]) (skip_ws s).
Proof.
  intros Hc. unfold gettoken. rewrite (bind_Ret (gets skip_ws) _ _ (c :: s) (c :: s)).
  - by rewrite Hc.
  - unfold gets. rewrite skip_symbol; [done|]. cbn in Hc |- *. unfold c_bar, c_lpar, c_rpar, c_semi, c_amp, c_lt in Hc. lia.
Qed.

Lemma peek_at toks s : skip_ws s = s → peek toks s = Ret (match s with c :: _ => strchr toks c | [] => false end) s.
Proof. intros Hs. unfold peek, gets, set_rest, modify, mbind, M_bind, mret, M_ret. by rewrite Hs. Qed.

(** Redirections as text. *)
Definition rtext : Type := list Z * Z * Z.
Definition rt_ok (r : rtext) : Prop :=
  word_ok r.1.1 ∧ (r.1.2 = O_RDONLY ∧ r.2 = 0 ∨ r.1.2 = Z.lor O_WRONLY O_CREATE ∧ r.2 = 1).
Definition pr_redirs (rs : list rtext) : list Z := concat (map (λ r, pr_redir r.1.1 r.2) rs).
Definition rerase (r : redir) : rtext := (t_text (r_file r), r_mode r, r_fd r).

Lemma redirs_stop rs s :
  ends_exec s → skip_ws (pr_redirs rs ++ s) = pr_redirs rs ++ s ∧
    match pr_redirs rs ++ s with c :: _ => wordc c = false ∧ strchr [c_lpar] c = false | [] => True end.
Proof.
  intros Hs. destruct rs as [|r rs]; cbn.
  - destruct s as [|c s]; [done|]. cbn [follows] in Hs. assert (Hsym : strchr symbols c = true ∧ strchr [c_lpar] c = false).
    { cbn in Hs |- *. unfold c_bar, c_rpar, c_amp, c_semi, c_lpar in *. lia. }
    destruct Hsym as [Hsym Hp]. split; [by apply skip_symbol|]. split; [|done]. unfold wordc. rewrite Hsym. by destruct (negb _).
  - by destruct (r.2 =? 0).
Qed.

Lemma parse_redirs rs s fuel :
  Forall rt_ok rs → ends_exec s → (length (pr_redirs rs ++ s) <= fuel)%nat →
  ∃ rs', parseredirs N fuel (pr_redirs rs ++ s) = Ret rs' s ∧ map rerase rs' = rs.
Proof.
  intros Hrs Hs. revert fuel. induction Hrs as [|[[f mode] fd] rs [Hf Hm] Hrs IH]; intros fuel Hfuel.
  - change (pr_redirs [] ++ s) with s in *. destruct (redirs_stop [] s Hs) as [Hsk _]. cbn [pr_redirs map concat app] in Hsk.
    exists []. split; [|done]. destruct fuel as [|fuel]; cbn [parseredirs]; rewrite (bind_Ret _ _ _ _ _ (peek_at _ _ Hsk));
      (destruct s as [|c s]; [done|]; cbn [follows] in Hs;
       assert (Hn : strchr [c_lt; c_gt] c = false)
         by (cbn in Hs |- *; unfold c_bar, c_rpar, c_amp, c_semi, c_lt, c_gt in *; lia); by rewrite Hn).
  - change (pr_redirs ((f, mode, fd) :: rs)) with (((if fd =? 0 then c_lt else c_gt) :: f) ++ pr_redirs rs) in *.
    rewrite <- app_assoc in *. cbn [app] in *. set (k := if fd =? 0 then c_lt else c_gt) in *. cbn [fst snd] in *.
    destruct (redirs_stop rs s Hs) as [Hsk Hstop]. cbn [length] in Hfuel. rewrite length_app in Hfuel.
    destruct fuel as [|fuel]; [lia|]. destruct (IH fuel) as (rs' & E & Hrs'); [lia|].
    cbn [parseredirs]. assert (Hk : strchr symbols k = true ∧ strchr [c_lt; c_gt] k = true) by (subst k; by destruct (fd =? 0)).
    destruct Hk as [Hk Hk']. rewrite (bind_Ret _ _ _ _ _ (peek_at _ _ (skip_symbol k _ Hk))). rewrite Hk'. cbn [negb].
    assert (Hget : gettoken N (k :: f ++ pr_redirs rs ++ s) = Ret (k, Token (N - length (k :: f ++ pr_redirs rs ++ s)) [k]) (f ++ pr_redirs rs ++ s)).
    { rewrite <- (skip_word f (pr_redirs rs ++ s) Hf) at 3. subst k. destruct (fd =? 0); [by apply get_symbol|].
      unfold gettoken. rewrite (bind_Ret (gets skip_ws) _ _ (c_gt :: f ++ pr_redirs rs ++ s) (c_gt :: f ++ pr_redirs rs ++ s)) by done.
      destruct Hf as [Hne Hw]. destruct f as [|x f]; [done|]. apply Forall_cons in Hw as [Hx _].
      change (strchr _ c_gt) with false. cbn [app]. cbn [Z.eqb c_gt]. destruct (x =? c_gt) eqn:Ex; [|done].
      apply Z.eqb_eq in Ex. by subst x. }
    rewrite (bind_Ret _ _ _ _ _ Hget). rewrite (bind_Ret _ _ _ _ _ (get_word f (pr_redirs rs ++ s) Hf ltac:(destruct (pr_redirs rs ++ s); [done|by destruct Hstop]))).
    cbn [fst snd]. change (tok_a =? tok_a) with true. cbn [negb]. cbv zeta. rewrite Hsk, (bind_Ret _ _ _ _ _ E).
    eexists. split; [reflexivity|]. rewrite map_app, Hrs'. subst k. unfold O_RDONLY in *.
    destruct Hm as [[-> ->]|[-> ->]]; done.
Qed.

Lemma redirs_run rs s :
  Forall rt_ok rs → ends_exec s → ∃ rs', redirs N (pr_redirs rs ++ s) = Ret rs' s ∧ map rerase rs' = rs.
Proof. intros Hrs Hs. by apply (parse_redirs rs s (length (pr_redirs rs ++ s)) Hrs Hs). Qed.

(** A word is no redirection. *)
Lemma redirs_word w s : word_ok w → redirs N (w ++ s) = Ret [] (w ++ s).
Proof.
  intros Hw. change (redirs N (w ++ s)) with (parseredirs N (length (w ++ s)) (w ++ s)).
  assert (E : ∀ fuel, parseredirs N fuel (w ++ s) = Ret [] (w ++ s)); [|apply E]. intros fuel.
  destruct fuel as [|fuel]; cbn [parseredirs]; rewrite (bind_Ret _ _ _ _ _ (peek_at _ _ (skip_word w s Hw)));
    (destruct Hw as [Hne Hw]; destruct w as [|c w]; [done|]; apply Forall_cons in Hw as [Hc _]; cbn [app];
     assert (Hs : strchr [c_lt; c_gt] c = false) by (unfold wordc in Hc; cbn in Hc |- *; unfold c_lt, c_gt; lia); by rewrite Hs).
Qed.

Lemma parse_args ws rs s fuel argc :
  Forall word_ok ws → Forall rt_ok rs → ends_exec s → 0 <= argc → argc + Z.of_nat (length ws) <= 9 →
  let inp := match ws with [] => s | _ => pr_words ws ++ pr_redirs rs ++ s end in
  (length inp < fuel)%nat →
  ∃ a, parseargs N fuel argc inp = Ret a s ∧ map t_text a.1 = ws ∧ map rerase a.2 = match ws with [] => [] | _ => rs end.
Proof.
  intros Hws Hrs Hs. revert fuel argc. induction Hws as [|w ws Hw Hws IH]; intros fuel argc H0 Hargc inp Hf; subst inp;
    (destruct fuel as [|fuel]; [lia|]); cbn [parseargs].
  - destruct (redirs_stop [] s Hs) as [Hsk _]. cbn [pr_redirs map concat app] in Hsk. rewrite (bind_Ret _ _ _ _ _ (peek_at _ _ Hsk)).
    destruct s as [|c s]; [by eexists|]. cbn [follows] in Hs. rewrite Hs. by eexists.
  - cbn [pr_words] in *. rewrite <- app_assoc in *. set (rest := spaced ws ++ pr_redirs rs ++ s) in *.
    rewrite (bind_Ret _ _ _ _ _ (peek_at _ _ (skip_word w rest Hw))).
    assert (Hhd : match w ++ rest with c :: _ => strchr [c_bar; c_rpar; c_amp; c_semi] c | [] => false end = false).
    { destruct Hw as [Hne Hw]. destruct w as [|c w]; [done|]. apply Forall_cons in Hw as [Hc _]. cbn [app].
      unfold wordc in Hc. cbn in Hc |- *. unfold c_bar, c_rpar, c_amp, c_semi. lia. }
    rewrite Hhd. destruct (redirs_stop rs s Hs) as [Hsk Hstop].
    assert (Hst : match rest with c :: _ => wordc c = false | [] => True end).
    { subst rest. destruct ws; [|done]. cbn. destruct (pr_redirs rs ++ s); [done|by destruct Hstop]. }
    rewrite (bind_Ret _ _ _ _ _ (get_word w rest Hw Hst)). cbn [fst snd]. change (tok_a =? 0) with false. change (tok_a =? tok_a) with true. cbn [negb].
    cbn [length] in Hargc. unfold MAXARGS. rewrite (proj2 (Z.leb_gt _ _)) by lia.
    destruct ws as [|w' ws].
    + subst rest. change (spaced [] ++ pr_redirs rs ++ s) with (pr_redirs rs ++ s) in *. rewrite Hsk.
      destruct (redirs_run rs s Hrs Hs) as (rs' & E & Hrs'). rewrite (bind_Ret _ _ _ _ _ E).
      rewrite !length_app in Hf. destruct (IH fuel (argc + 1) ltac:(lia) ltac:(cbn; lia)) as (a & Ea & Hw' & Hr'); [destruct Hw as [Hne _]; destruct w; [done|cbn in Hf; lia]|].
      rewrite (bind_Ret _ _ _ _ _ Ea). eexists. split; [reflexivity|]. cbn [fst snd map]. rewrite Hw', map_app, Hr', Hrs', app_nil_r. done.
    + assert (Hw' : word_ok w') by (by inversion Hws). assert (Er : skip_ws rest = pr_words (w' :: ws) ++ pr_redirs rs ++ s).
      { subst rest. unfold spaced, pr_words. cbn [map concat app]. cbn [skip_ws]. change (strchr whitespace 32) with true. cbn [negb].
        rewrite <- !app_assoc. by apply skip_word. }
      assert (Hlen : (length (pr_words (w' :: ws) ++ pr_redirs rs ++ s) < length (w ++ rest))%nat).
      { rewrite <- Er, length_app. pose proof (suffix_length _ _ (skip_ws_suffix rest)). destruct Hw as [Hne _]. destruct w; [done|cbn [length]; lia]. }
      rewrite Er. assert (En : redirs N (pr_words (w' :: ws) ++ pr_redirs rs ++ s) = Ret [] (pr_words (w' :: ws) ++ pr_redirs rs ++ s)).
      { unfold pr_words. rewrite <- app_assoc. by apply redirs_word. }
      rewrite (bind_Ret _ _ _ _ _ En). destruct (IH fuel (argc + 1) ltac:(lia) ltac:(lia)) as (a & Ea & Ha & Hr'); [lia|].
      rewrite (bind_Ret _ _ _ _ _ Ea). eexists. split; [reflexivity|]. cbn [fst snd map app]. by rewrite Ha.
Qed.

(** *** Redirections around a command, ampersands after it *)

Definition wrap (a : ast) (r : rtext) : ast := ARedir a r.1.1 r.1.2 r.2.
Fixpoint base_of (a : ast) : ast := match a with ARedir a _ _ _ => base_of a | _ => a end.
Fixpoint redirs_of (a : ast) : list rtext :=
  match a with ARedir a f mode fd => redirs_of a ++ [(f, mode, fd)] | _ => [] end.

Lemma wrap_base a : foldl wrap (base_of a) (redirs_of a) = a.
Proof. induction a as [argv|a IH f mode fd|l _ r _|l _ r _|a _]; try done. cbn [base_of redirs_of]. by rewrite foldl_app, IH. Qed.

Lemma print_base a : print 3 a = print 3 (base_of a) ++ pr_redirs (redirs_of a).
Proof.
  induction a as [argv|a IH f mode fd|l _ r _|l _ r _|a _]; cbn [base_of redirs_of]; try by rewrite app_nil_r.
  cbn [print]. unfold pr_redirs in *. rewrite IH, map_app, concat_app, <- !app_assoc. cbn. by rewrite !app_nil_r.
Qed.

Lemma redirs_of_ok a : ast_ok a → Forall rt_ok (redirs_of a).
Proof.
  induction a as [argv|a IH f mode fd|l _ r _|l _ r _|a _]; cbn [redirs_of ast_ok]; try by constructor.
  intros (Ha & Hf & Hm). apply Forall_app. split; [auto|]. constructor; [by split|constructor].
Qed.

Lemma erase_redircmds c rs : erase (redircmds c rs) = foldl wrap (erase c) (map rerase rs).
Proof. unfold redircmds. revert c. induction rs as [|r rs IH]; intros c; cbn [foldl map]; [done|]. by rewrite IH. Qed.

Fixpoint backs (a : ast) : nat := match a with ABack a => S (backs a) | _ => 0 end.
Fixpoint unback (a : ast) : ast := match a with ABack a => unback a | _ => a end.

Fixpoint abacks (k : nat) (a : ast) : ast := match k with O => a | S k => ABack (abacks k a) end.

Lemma back_again k a : abacks k (ABack a) = ABack (abacks k a).
Proof. induction k as [|k IH]; [done|]. cbn [abacks]. by rewrite IH. Qed.

Lemma iter_unback a : abacks (backs a) (unback a) = a.
Proof. induction a as [argv|a _ f mode fd|l _ r _|l _ r _|a IH]; try done. cbn [backs unback abacks]. by f_equal. Qed.

Definition is_list (a : ast) : bool := match a with AList _ _ => true | _ => false end.

Lemma print_back a : print 1 a = print 2 (unback a) ++ replicate (backs a) c_amp.
Proof.
  induction a as [argv|a _ f mode fd|l _ r _|l _ r _|a IH]; cbn [backs unback]; try by rewrite app_nil_r.
  cbn [print paren Nat.ltb Nat.leb]. rewrite IH, <- app_assoc. by rewrite <- replicate_S_end.
Qed.

Lemma print_not_list a : is_list a = false → print 0 a = print 1 a.
Proof. by destruct a. Qed.

Lemma parse_backs k c s fuel :
  ends_line s ∨ (∃ s', s = c_semi :: s') → (length (replicate k c_amp ++ s) <= fuel)%nat →
  ∃ c', parseback N fuel c (replicate k c_amp ++ s) = Ret c' s ∧ erase c' = abacks k (erase c).
Proof.
  intros Hs. revert fuel c. induction k as [|k IH]; intros fuel c Hf; cbn [replicate app] in *.
  - assert (Hsk : skip_ws s = s ∧ match s with x :: _ => strchr [c_amp] x | [] => false end = false).
    { destruct Hs as [Hs|[s' ->]]; [|done]. destruct s as [|x s]; [done|]. cbn [follows] in Hs.
      assert (Hx : x = c_rpar) by (cbn in Hs; unfold c_rpar in *; lia). by subst x. }
    destruct Hsk as [Hsk Hb]. exists c. split; [|done].
    destruct fuel as [|fuel]; cbn [parseback]; rewrite (bind_Ret _ _ _ _ _ (peek_at _ _ Hsk)), Hb; done.
  - destruct fuel as [|fuel]; [cbn in Hf; lia|]. cbn [parseback].
    rewrite (bind_Ret _ _ _ _ _ (peek_at _ (c_amp :: replicate k c_amp ++ s) (skip_symbol c_amp _ eq_refl))).
    change (strchr [c_amp] c_amp) with true. cbn [negb]. rewrite (bind_Ret _ _ _ _ _ (get_symbol c_amp _ eq_refl)).
    replace (skip_ws (replicate k c_amp ++ s)) with (replicate k c_amp ++ s).
    + destruct (IH fuel (BACK c)) as (c' & E & He); [cbn [length] in Hf; lia|]. exists c'. split; [exact E|].
      rewrite He. cbn [erase abacks]. apply back_again.
    + destruct k; [|done]. cbn. destruct Hs as [Hs|[s' ->]]; [|done]. destruct s as [|x s]; [done|]. cbn [follows] in Hs.
      assert (Hx : x = c_rpar) by (cbn in Hs; unfold c_rpar in *; lia). by subst x.
Qed.

(** *** One level of the grammar at a time *)

Definition reads_exec (a : ast) : Prop := ∀ fuel s, ends_exec s → (4 * length (print 3 a ++ s) + 2 <= fuel)%nat →
  ∃ c, parseexec N fuel (print 3 a ++ s) = Ret c s ∧ erase c = a.
Definition reads_pipe (a : ast) : Prop := ∀ fuel s, ends_pipe s → (4 * length (print 2 a ++ s) + 3 <= fuel)%nat →
  ∃ c, parsepipe N fuel (print 2 a ++ s) = Ret c s ∧ erase c = a.
Definition reads_line (a : ast) : Prop := ∀ fuel s, ends_line s → (4 * length (print 0 a ++ s) + 4 <= fuel)%nat →
  ∃ c, parseline N fuel (print 0 a ++ s) = Ret c s ∧ erase c = a.

Lemma exec_simple ws rs fuel s :
  Forall word_ok ws → (length ws <= 9)%nat → Forall rt_ok rs → ends_exec s →
  ∃ c, parseexec N (S fuel) ((pr_words ws ++ pr_redirs rs) ++ s) = Ret c s ∧ erase c = foldl wrap (AExec ws) rs.
Proof.
  intros Hws Hlen Hrs Hs. cbn [parseexec]. rewrite <- app_assoc. destruct (redirs_stop rs s Hs) as [Hsk Hstop]. destruct ws as [|w ws].
  - cbn [pr_words app]. rewrite (bind_Ret _ _ _ _ _ (peek_at _ _ Hsk)).
    replace (match pr_redirs rs ++ s with c :: _ => strchr [c_lpar] c | [] => false end) with false by (destruct (pr_redirs rs ++ s); [done|by destruct Hstop]).
    destruct (redirs_run rs s Hrs Hs) as (rs' & E & Hr). rewrite (bind_Ret _ _ _ _ _ E). unfold get. rewrite (bind_Ret _ _ s s s) by done.
    destruct (parse_args [] [] s (S (length s)) 0) as (a & Ea & Ha & Hr'); [constructor|constructor|done|lia|cbn; lia|lia|].
    rewrite (bind_Ret _ _ _ _ _ Ea). eexists. split; [reflexivity|].
    rewrite erase_redircmds, map_app, Hr, Hr', app_nil_r. cbn [erase]. by rewrite Ha.
  - assert (Hw : word_ok w) by (by inversion Hws). set (inp := pr_words (w :: ws) ++ pr_redirs rs ++ s).
    assert (Hinp : inp = w ++ spaced ws ++ pr_redirs rs ++ s) by (subst inp; unfold pr_words; by rewrite <- app_assoc).
    assert (Hskip : skip_ws inp = inp) by (rewrite Hinp; by apply skip_word). rewrite (bind_Ret _ _ _ _ _ (peek_at _ _ Hskip)).
    assert (Hhd : match inp with c :: _ => strchr [c_lpar] c | [] => false end = false).
    { rewrite Hinp. destruct Hw as [Hne Hw]. destruct w as [|c w]; [done|]. apply Forall_cons in Hw as [Hc _]. cbn [app].
      unfold wordc in Hc. cbn in Hc |- *. unfold c_lpar. lia. }
    rewrite Hhd. assert (En : redirs N inp = Ret [] inp) by (rewrite Hinp; by apply redirs_word). rewrite (bind_Ret _ _ _ _ _ En).
    unfold get. rewrite (bind_Ret _ _ inp inp inp) by done.
    destruct (parse_args (w :: ws) rs s (S (length inp)) 0) as (a & Ea & Ha & Hr'); [done|done|done|lia|cbn in *; lia|fold inp; lia|].
    fold inp in Ea. rewrite (bind_Ret _ _ _ _ _ Ea). eexists. split; [reflexivity|].
    rewrite erase_redircmds. cbn [app erase]. by rewrite Ha, Hr'.
Qed.

Lemma exec_block b rs fuel s :
  reads_line b → Forall rt_ok rs → ends_exec s → skip_ws (print 0 b ++ c_rpar :: pr_redirs rs ++ s) = print 0 b ++ c_rpar :: pr_redirs rs ++ s →
  let inp := (c_lpar :: print 0 b ++ [c_rpar]) ++ pr_redirs rs ++ s in
  (4 * length inp + 2 <= fuel)%nat →
  ∃ c, parseexec N fuel inp = Ret c s ∧ erase c = foldl wrap b rs.
Proof.
  intros Hb Hrs Hs Hskip inp Hf. subst inp. cbn [app] in *. rewrite <- app_assoc in *. cbn [app length] in *.
  destruct fuel as [|[|fuel]]; [lia..|]. cbn [parseexec].
  rewrite (bind_Ret _ _ _ _ _ (peek_at _ _ (skip_symbol c_lpar _ eq_refl))). change (strchr [c_lpar] c_lpar) with true. cbv iota. cbn [parseblock].
  rewrite (bind_Ret _ _ _ _ _ (peek_at _ _ (skip_symbol c_lpar _ eq_refl))). change (strchr [c_lpar] c_lpar) with true. cbn [negb].
  rewrite (bind_Ret _ _ _ _ _ (get_symbol c_lpar _ eq_refl)), Hskip.
  destruct (Hb fuel (c_rpar :: pr_redirs rs ++ s)) as (c & E & Hc); [done|lia|]. rewrite (bind_Ret _ _ _ _ _ E).
  rewrite (bind_Ret _ _ _ _ _ (peek_at _ _ (skip_symbol c_rpar _ eq_refl))). change (strchr [c_rpar] c_rpar) with true. cbn [negb].
  rewrite (bind_Ret _ _ _ _ _ (get_symbol c_rpar _ eq_refl)). destruct (redirs_stop rs s Hs) as [Hsk _]. rewrite Hsk.
  destruct (redirs_run rs s Hrs Hs) as (rs' & Er & Hr). rewrite (bind_Ret _ _ _ _ _ Er). eexists. split; [reflexivity|].
  by rewrite erase_redircmds, Hc, Hr.
Qed.

(** Printed commands do not begin with white space. *)
Lemma print_skip a : ∀ lvl s, ast_ok a → skip_ws s = s → skip_ws (print lvl a ++ s) = print lvl a ++ s.
Proof.
  assert (Hpar : ∀ b t s, skip_ws (t ++ s) = t ++ s → skip_ws (paren b t ++ s) = paren b t ++ s) by (intros [] t s Hs; done).
  induction a as [argv|a IH f mode fd|l IHl r IHr|l IHl r IHr|a IH]; intros lvl s Ha Hs; cbn [print ast_ok] in *.
  - destruct argv as [|w ws]; [done|]. destruct Ha as [Hw _]. apply Forall_cons in Hw as [Hw _]. cbn [pr_words]. rewrite <- app_assoc. by apply skip_word.
  - destruct Ha as (Ha & _ & _). rewrite <- app_assoc. apply IH; [done|]. unfold pr_redir. by destruct (fd =? 0).
  - apply Hpar. rewrite <- app_assoc. apply IHl; [tauto|done].
  - apply Hpar. rewrite <- app_assoc. apply IHl; [tauto|done].
  - apply Hpar. rewrite <- app_assoc. by apply IH.
Qed.

Lemma follows_weaken toks toks' s : follows toks s → (∀ c, strchr toks c = true → strchr toks' c = true) → follows toks' s.
Proof. intros Hs Hsub. destruct s; [done|]. by apply Hsub. Qed.

Lemma pipe_step l r : ast_ok r → reads_exec l → reads_pipe r → reads_pipe (APipe l r).
Proof.
  intros Hr Hl IHr fuel s Hs Hf. cbn [print paren Nat.ltb Nat.leb] in *. rewrite <- app_assoc in *. cbn [app] in *.
  rewrite length_app in Hf. cbn [length] in Hf. destruct fuel as [|fuel]; [lia|]. cbn [parsepipe].
  destruct (Hl fuel (c_bar :: print 2 r ++ s)) as (c & E & Hc); [done|rewrite length_app; cbn [length]; lia|].
  rewrite (bind_Ret _ _ _ _ _ E). rewrite (bind_Ret _ _ _ _ _ (peek_at _ _ (skip_symbol c_bar _ eq_refl))).
  change (strchr [c_bar] c_bar) with true. cbn [negb]. rewrite (bind_Ret _ _ _ _ _ (get_symbol c_bar _ eq_refl)).
  destruct (follows_symbols _ s Hs) as [Hsk _]; [intros x Hx; cbn in Hx |- *; unfold c_rpar, c_amp, c_semi in *; lia|].
  rewrite print_skip by done. destruct (IHr fuel s Hs) as (c' & E' & Hc'); [lia|]. rewrite (bind_Ret _ _ _ _ _ E').
  eexists. split; [reflexivity|]. cbn [erase]. by rewrite Hc, Hc'.
Qed.

Lemma pipe_of_exec a : reads_exec a → print 2 a = print 3 a → reads_pipe a.
Proof.
  intros Ha Hp fuel s Hs Hf. rewrite Hp in *. destruct fuel as [|fuel]; [lia|]. cbn [parsepipe].
  assert (Hse : ends_exec s) by (eapply follows_weaken; [exact Hs|]; intros x Hx; cbn in Hx |- *; unfold c_bar, c_rpar, c_amp, c_semi in *; lia).
  destruct (Ha fuel s Hse) as (c & E & Hc); [lia|]. rewrite (bind_Ret _ _ _ _ _ E).
  destruct (follows_symbols _ s Hs) as [Hsk _]; [intros x Hx; cbn in Hx |- *; unfold c_rpar, c_amp, c_semi in *; lia|].
  rewrite (bind_Ret _ _ _ _ _ (peek_at _ _ Hsk)).
  replace (match s with c :: _ => strchr [c_bar] c | [] => false end) with false.
  - cbn [negb]. by exists c.
  - destruct s as [|x s]; [done|]. cbn [follows] in Hs. symmetry. cbn in Hs |- *. unfold c_bar, c_rpar, c_amp, c_semi in *. lia.
Qed.

(** A line up to its semicolon or its end. *)
Lemma line_head a fuel s :
  reads_pipe (unback a) → ends_line s ∨ (∃ s', s = c_semi :: s') → (4 * length (print 1 a ++ s) + 3 <= fuel)%nat →
  ∃ c, (c ← parsepipe N fuel; t ← get; parseback N (length t) c) (print 1 a ++ s) = Ret c s ∧ erase c = a.
Proof.
  intros Ha Hs Hf. rewrite print_back, <- app_assoc in *.
  destruct (Ha fuel (replicate (backs a) c_amp ++ s)) as (c & E & Hc); [|lia|].
  { destruct (backs a); [|done]. cbn. destruct Hs as [Hs|[s' ->]]; [|done]. eapply follows_weaken; [exact Hs|].
    intros x Hx. cbn in Hx |- *. unfold c_rpar, c_amp, c_semi in *. lia. }
  rewrite (bind_Ret _ _ _ _ _ E). unfold get.
  destruct (parse_backs (backs a) c s (length (replicate (backs a) c_amp ++ s)) Hs ltac:(done)) as (c' & E' & Hc').
  exists c'. split; [exact E'|]. by rewrite Hc', Hc, iter_unback.
Qed.

Lemma line_list l r : ast_ok r → reads_pipe (unback l) → reads_line r → reads_line (AList l r).
Proof.
  intros Hr Hl IHr fuel s Hs Hf. cbn [print paren Nat.ltb Nat.leb] in *. rewrite <- app_assoc in *. cbn [app] in *.
  destruct fuel as [|fuel]; [lia|]. cbn [parseline].
  destruct (line_head l fuel (c_semi :: print 0 r ++ s) Hl ltac:(right; eauto) ltac:(lia)) as (c & E & Hc).
  apply bind_inv in E as (c0 & t & E0 & E). rewrite (bind_Ret _ _ _ _ _ E0). unfold get in *. rewrite (bind_Ret _ _ t t t) by done.
  rewrite (bind_Ret _ _ t t t) in E by done. rewrite (bind_Ret _ _ _ _ _ E).
  rewrite (bind_Ret _ _ _ _ _ (peek_at _ _ (skip_symbol c_semi _ eq_refl))).
  change (strchr [c_semi] c_semi) with true. cbn [negb]. rewrite (bind_Ret _ _ _ _ _ (get_symbol c_semi _ eq_refl)).
  destruct (follows_symbols _ s Hs) as [Hsk _]; [intros x Hx; cbn in Hx |- *; unfold c_rpar in *; lia|].
  rewrite print_skip by done. rewrite length_app in Hf. cbn [length] in Hf.
  destruct (IHr fuel s Hs) as (c' & E' & Hc'); [lia|]. rewrite (bind_Ret _ _ _ _ _ E').
  eexists. split; [reflexivity|]. cbn [erase]. by rewrite Hc, Hc'.
Qed.

Lemma line_single a : is_list a = false → reads_pipe (unback a) → reads_line a.
Proof.
  intros Hnl Ha fuel s Hs Hf. rewrite print_not_list in * by done. destruct fuel as [|fuel]; [lia|]. cbn [parseline].
  destruct (line_head a fuel s Ha ltac:(by left) ltac:(lia)) as (c & E & Hc).
  apply bind_inv in E as (c0 & t & E0 & E). rewrite (bind_Ret _ _ _ _ _ E0). unfold get in *. rewrite (bind_Ret _ _ t t t) by done.
  rewrite (bind_Ret _ _ t t t) in E by done. rewrite (bind_Ret _ _ _ _ _ E).
  destruct (follows_symbols _ s Hs) as [Hsk _]; [intros x Hx; cbn in Hx |- *; unfold c_rpar in *; lia|].
  rewrite (bind_Ret _ _ _ _ _ (peek_at _ _ Hsk)).
  replace (match s with c :: _ => strchr [c_semi] c | [] => false end) with false; [cbn [negb]; by exists c|].
  destruct s as [|x s]; [done|]. cbn [follows] in Hs. symmetry. cbn in Hs |- *. unfold c_rpar, c_semi in *. lia.
Qed.

Fixpoint asize (a : ast) : nat :=
  match a with
  | AExec _ => 1
  | ARedir a _ _ _ | ABack a => S (asize a)
  | APipe l r | AList l r => S (asize l + asize r)
  end.

Lemma base_of_facts a : ast_ok a → (asize (base_of a) <= asize a)%nat ∧ ast_ok (base_of a).
Proof. induction a; cbn; intros Ha; try (by split); try (split; [lia|done]). destruct Ha as (Ha & _). destruct (IHa Ha). split; [lia|done]. Qed.

Lemma unback_facts a : ast_ok a → (asize (unback a) <= asize a)%nat ∧ ast_ok (unback a).
Proof. induction a; cbn; intros Ha; try (by split); try (split; [lia|done]). destruct (IHa Ha). split; [lia|done]. Qed.

(** What is printed in parentheses. *)
Definition compound (a : ast) : bool := match a with APipe _ _ | AList _ _ | ABack _ => true | _ => false end.

Lemma print_compound a : compound a = true → print 3 a = c_lpar :: print 0 a ++ [c_rpar].
Proof. by destruct a. Qed.

Lemma exec_compound b rs : 
  compound b = true → ast_ok b → reads_line b → Forall rt_ok rs →
  ∀ fuel s, ends_exec s → (4 * length ((print 3 b ++ pr_redirs rs) ++ s) + 2 <= fuel)%nat →
  ∃ c, parseexec N fuel ((print 3 b ++ pr_redirs rs) ++ s) = Ret c s ∧ erase c = foldl wrap b rs.
Proof.
  intros Hb Hok Hl Hrs fuel s Hs Hf. rewrite print_compound in * by done. rewrite <- app_assoc in *.
  apply exec_block; [done|done|done| |done]. by apply print_skip.
Qed.

Lemma exec_of_line a : compound a = true → ast_ok a → reads_line a → reads_exec a.
Proof.
  intros Hc Ha Hl fuel s Hs Hf. rewrite <- (app_nil_r (print 3 a)) in *. by apply (exec_compound a [] Hc Ha Hl).
Qed.

Lemma exec_redir a :
  ast_ok a → compound a = false → (compound (base_of a) = true → reads_line (base_of a)) → reads_exec a.
Proof.
  intros Ha Hc Hb fuel s Hs Hf. rewrite print_base in *.
  enough (Hx : ∃ c, parseexec N fuel ((print 3 (base_of a) ++ pr_redirs (redirs_of a)) ++ s) = Ret c s ∧
    erase c = foldl wrap (base_of a) (redirs_of a)) by (by rewrite wrap_base in Hx).
  destruct (base_of_facts a Ha) as [_ Hbo]. pose proof (redirs_of_ok a Ha) as Hrs.
  destruct (compound (base_of a)) eqn:Ec; [apply exec_compound; auto|].
  assert (Hex : ∃ ws, base_of a = AExec ws).
  { clear -Ec. induction a; cbn in *; try done; [by eexists|auto]. }
  destruct Hex as [ws E]. rewrite E in *. destruct Hbo as [Hws Hlen]. destruct fuel as [|fuel]; [lia|]. by apply exec_simple.
Qed.

Lemma reads_all n a : (asize a <= n)%nat → ast_ok a → reads_exec a ∧ reads_pipe a ∧ reads_line a.
Proof.
  revert a. induction n as [|n IH]; intros a Hn Ha; [destruct a; cbn in Hn; lia|]. destruct (compound a) eqn:Hc.
  - assert (Hl : reads_line a ∧ (is_list a = true ∨ unback a ≠ a ∨ reads_pipe a)).
    { destruct a as [| |l r|l r|b]; try done; cbn [asize ast_ok] in *.
      - destruct Ha as [Hal Har]. destruct (IH l ltac:(lia) Hal) as (El & _ & _). destruct (IH r ltac:(lia) Har) as (_ & Pr & _).
        pose proof (pipe_step l r Har El Pr) as Hp. split; [by apply line_single|]. by right; right.
      - destruct Ha as [Hal Har]. destruct (unback_facts l Hal) as [Hs Hu]. destruct (IH (unback l) ltac:(lia) Hu) as (_ & Pl & _).
        destruct (IH r ltac:(lia) Har) as (_ & _ & Lr). split; [by apply line_list|by left].
      - destruct (unback_facts b Ha) as [Hs Hu]. destruct (IH (unback b) ltac:(lia) Hu) as (_ & Pb & _).
        split; [by apply line_single|]. right. left. cbn [unback]. intros E. rewrite E in Hs. cbn in Hs. lia. }
    destruct Hl as [Hl Hp]. pose proof (exec_of_line a Hc Ha Hl) as He. split_and!; [done| |done].
    destruct a as [| |l r|l r|b]; try done; [|by apply pipe_of_exec..]. by destruct Hp as [?|[?|?]].
  - assert (He : reads_exec a).
    { apply exec_redir; [done|done|]. intros Hcb. destruct (base_of_facts a Ha) as [Hs Hb].
      destruct a as [ws|b f mode fd| | |]; try done. cbn [base_of asize ast_ok] in *. destruct Ha as (Ha & _).
      destruct (base_of_facts b Ha) as [Hs' _]. by destruct (IH (base_of b) ltac:(lia) Hb) as (_ & _ & ?). }
    assert (Hp : reads_pipe a) by (apply pipe_of_exec; [done|by destruct a]). split_and!; [done|done|].
    apply line_single; [by destruct a|]. by destruct a.
Qed.
End print.

(** C35: printing and parsing: every command the shell can represent (words
    without blanks or symbols, at most nine arguments, input and output
    redirections), printed with parentheses where the grammar needs them, is
    parsed back to the same command. *)
Theorem parse_print a :
  ast_ok a → ∃ c buf, parsecmd (print 0 a) = Ret (c, buf) [] ∧ erase c = a.
Proof.
  intros Ha. destruct (reads_all (length (print 0 a)) (asize a) a ltac:(done) Ha) as (_ & _ & Hl).
  destruct (Hl (4 * length (print 0 a) + 4)%nat [] ltac:(done)) as (c & E & Hc); [rewrite app_nil_r; lia|].
  rewrite app_nil_r in E. unfold parsecmd. rewrite (bind_Ret _ _ _ _ _ E). eexists _, _. split; [reflexivity|exact Hc].
Qed.

(** "(a;b)|c<d&". *)
Lemma parse_print_witness :
  let a := ABack (APipe (AList (AExec [[97]]) (AExec [[98]])) (ARedir (AExec [[99]]) [100] 0 0)) in
  print 0 a = [40; 97; 59; 98; 41; 124; 99; 60; 100; 38] ∧ ∃ c buf, parsecmd (print 0 a) = Ret (c, buf) [] ∧ erase c = a.
Proof.
  split; [reflexivity|]. apply parse_print. cbn. unfold word_ok. repeat split; try (by left); try lia; repeat constructor; done.
Defined.

(** ">>f" opens the file exactly as ">f" does, so it overwrites it. *)
Example append_is_overwrite :
  match parsecmd [62; 62; 102], parsecmd [62; 102] with
  | Ret (c, _) _, Ret (c', _) _ => erase c = erase c'
  | _, _ => False
  end.
Proof. reflexivity. Qed.
