(* ===== verification/ShRun.v ===== *)
(** * The shell runs a command: runcmd and main of sh.c

    [runcmd] never returns: it becomes a program, or forks children and exits.
    Here it is the tree of the system calls it makes, with every outcome of the
    calls that can fail, and the descriptor table of the process, which the
    calls of the kernel (sysfile.c) change: [open], [pipe] and [dup] take the
    lowest free descriptors. *)

From S2P Require Import Prelude Param File Sh.

(** What a descriptor stands for.  A pipe is named by the place of its command
    in the whole command. *)
Inductive desc :=
| Start (k : nat)
| Opened (file : list Z) (mode : Z)
| PipeR (id : list bool)
| PipeW (id : list bool).

Definition table : Type := list (option desc).

Fixpoint free_slot (t : table) : option nat :=
  match t with
  | [] => None
  | None :: _ => Some 0%nat
  | Some _ :: t => S <$> free_slot t
  end.
Definition fdalloc (t : table) (d : desc) : option (nat * table) :=
  match free_slot t with Some fd => Some (fd, <[fd := Some d]> t) | None => None end.
Definition close (fd : nat) (t : table) : table := <[fd := None]> t.
Definition dup (fd : nat) (t : table) : table :=
  match t !! fd with
  | Some (Some d) => match fdalloc t d with Some (_, t') => t' | None => t end
  | _ => t
  end.

(** The calls of a process from here on; the first branch of a call is its
    failure. *)
Inductive act :=
| Exit
| Exec (argv : list (list Z)) (t : table) (fail : act)
| Print (fd : Z) (msg : list Z) (k : act)
| Open (file : list Z) (mode : Z) (fail ok : act)
| Pipe (fail ok : act)
| Fork (fail child parent : act)
| Wait (t : table) (k : act).

Definition str (s : string) : list Z := (λ a, Z.of_N (Ascii.N_of_ascii a)) <$> String.list_ascii_of_string s.
Definition panic_ (msg : string) : act := Print 2 (str msg ++ [10]) Exit.

(** [if(fork1() == 0) child; parent]. *)
Definition fork1 (child parent : act) : act := Fork (panic_ "fork") child parent.

Fixpoint runcmd (c : cmd) (t : table) (here : list bool) : act :=
  match c with
  | EXEC argv =>
      match argv with
      | [] => Exit
      | a :: _ => Exec (t_text <$> argv) t (Print 2 (str "exec " ++ t_text a ++ str " failed" ++ [10]) Exit)
      end
  | REDIR c r =>
      let t := close (Z.to_nat (r_fd r)) t in
      let file := t_text (r_file r) in
      let fail := Print 2 (str "open " ++ file ++ str " failed" ++ [10]) Exit in
      Open file (r_mode r) fail
        (match fdalloc t (Opened file (r_mode r)) with Some (_, t) => runcmd c t here | None => fail end)
  | LIST l r =>
      fork1 (runcmd l t (true :: here)) (Wait t (runcmd r t (false :: here)))
  | PIPE l r =>
      Pipe (panic_ "pipe")
        (match fdalloc t (PipeR here) with
         | None => panic_ "pipe"
         | Some (p0, t) =>
             match fdalloc t (PipeW here) with
             | None => panic_ "pipe"
             | Some (p1, t) =>
                 fork1 (runcmd l (close p1 (close p0 (dup p1 (close 1 t)))) (true :: here))
                   (fork1 (runcmd r (close p1 (close p0 (dup p0 (close 0 t)))) (false :: here))
                     (let t := close p1 (close p0 t) in Wait t (Wait t Exit)))
             end
         end)
  | BACK c => fork1 (runcmd c t here) Exit
  end.

(** The start of [main]: three descriptors are open. *)
Fixpoint open_console (fuel : nat) (t : table) : option table :=
  match fuel with
  | O => None
  | S fuel =>
      match fdalloc t (Opened (str "console") O_RDWR) with
      | None => Some t
      | Some (fd, t) => if (3 <=? fd)%nat then Some (close fd t) else open_console fuel t
      end
  end.

(** One line in the loop of [main]: a directory for [chdir], or a command. *)
Definition main_line (buf : list Z) : outcome (list Z) (list Z + cmd) :=
  if (byte_at buf 0 =? 99) && (byte_at buf 1 =? 100) && (byte_at buf 2 =? 32) then
    Ret (inl (drop 3 (take (length buf - 1) buf))) []
  else match parsecmd buf with
       | Ret (c, _) s => Ret (inr c) s
       | Panic msg => Panic msg
       | Fault => Fault
       | Block => Block
       | Diverge => Diverge
       end.

(** ** The meaning of a command *)

(** The three descriptors of a program. *)
Record std := Std { s_in : desc; s_out : desc; s_err : desc }.
Definition table_of (w : std) : table := [Some (s_in w); Some (s_out w); Some (s_err w)] ++ replicate 13 None.

(** A program that runs, or a shell that waits for its children. *)
Inductive event := Runs (argv : list (list Z)) (w : std) | Waits (w : std).

Definition redirect (fd : Z) (d : desc) (w : std) : std :=
  if fd =? 0 then Std d (s_out w) (s_err w) else Std (s_in w) d (s_err w).

Fixpoint wires (c : cmd) (w : std) (here : list bool) : list event :=
  match c with
  | EXEC [] => []
  | EXEC argv => [Runs (t_text <$> argv) w]
  | REDIR c r => wires c (redirect (r_fd r) (Opened (t_text (r_file r)) (r_mode r)) w) here
  | LIST l r => wires l w (true :: here) ++ Waits w :: wires r w (false :: here)
  | PIPE l r =>
      wires l (Std (s_in w) (PipeW here) (s_err w)) (true :: here) ++
      wires r (Std (PipeR here) (s_out w) (s_err w)) (false :: here) ++ [Waits w; Waits w]
  | BACK c => wires c w here
  end.

(** What a process and its children do when every call succeeds. *)
Inductive tevent := TRuns (argv : list (list Z)) (t : table) | TWaits (t : table).
Fixpoint events (a : act) : list tevent :=
  match a with
  | Exit => []
  | Exec argv t _ => [TRuns argv t]
  | Print _ _ k => events k
  | Open _ _ _ ok => events ok
  | Pipe _ ok => events ok
  | Fork _ child parent => events child ++ events parent
  | Wait t k => TWaits t :: events k
  end.
Definition concrete (e : event) : tevent := match e with Runs argv w => TRuns argv (table_of w) | Waits w => TWaits (table_of w) end.

(** As the parser makes them: redirections are of the standard input, for
    reading, or of the standard output, for writing, and there is room for the
    arguments and a null pointer in [argv]. *)
Definition redir_std (r : redir) : Prop := r_mode r = O_RDONLY ∧ r_fd r = 0 ∨ r_mode r = Z.lor O_WRONLY O_CREATE ∧ r_fd r = 1.
Fixpoint redirs_std (c : cmd) : Prop :=
  match c with
  | EXEC argv => Z.of_nat (length argv) < MAXARGS
  | REDIR c r => redir_std r ∧ redirs_std c
  | PIPE l r | LIST l r => redirs_std l ∧ redirs_std r
  | BACK c => redirs_std c
  end.

Lemma runcmd_events c w here : redirs_std c → events (runcmd c (table_of w) here) = concrete <$> wires c w here.
Proof.
  revert w here. induction c as [argv|c IH r|l IHl r IHr|l IHl r IHr|c IH]; intros w here Hc; cbn [redirs_std] in Hc.
  - by destruct argv.
  - destruct Hc as [Hfd Hc]. cbn [wires]. rewrite <- IH by done. destruct Hfd as [[_ E]|[_ E]]; cbn [runcmd events]; rewrite E; reflexivity.
  - destruct Hc as [Hl Hr]. cbn [wires]. rewrite !fmap_app, <- IHl, <- IHr by done. reflexivity.
  - destruct Hc as [Hl Hr]. cbn [wires]. rewrite fmap_app, fmap_cons, <- IHl, <- IHr by done. reflexivity.
  - cbn [wires]. rewrite <- IH by done. cbn [runcmd events fork1]. by rewrite app_nil_r.
Qed.

(** ** What the parser makes has standard redirections *)

Section yields.
Abbreviation P := (M (list Z)).

(** [m] returns values in [R] only. *)
Definition yields {A} (m : P A) (R : A → Prop) : Prop := ∀ s a s', m s = Ret a s' → R a.

Lemma yields_bind {A B} (m : P A) (f : A → P B) T R : yields m T → (∀ a, T a → yields (f a) R) → yields (m ≫= f) R.
Proof. intros Hm Hf s b s' E. apply bind_inv in E as (a & t & E1 & E2). eapply Hf; [by eapply Hm|done]. Qed.

Lemma yields_skip {A B} (m : P A) (f : A → P B) R : (∀ a, yields (f a) R) → yields (m ≫= f) R.
Proof. intros Hf. apply (yields_bind m f (λ _, True)); [done|auto]. Qed.

Lemma yields_ret {A} (a : A) R : R a → yields (mret a) R.
Proof. by intros Ha s b s' [= <- <-]. Qed.

Lemma redircmds_std c rs : redirs_std c → Forall redir_std rs → redirs_std (redircmds c rs).
Proof.
  intros Hc Hrs. revert c Hc. induction Hrs as [|r rs Hr _ IH]; intros c Hc; [done|]. apply (IH (REDIR c r)). by split.
Qed.

Lemma parseredirs_std N fuel : yields (parseredirs N fuel) (Forall redir_std).
Proof.
  induction fuel as [|fuel IH]; cbn [parseredirs]; apply yields_skip; intros b; (destruct b; cbn [negb]; [|apply yields_ret; constructor]); [done|].
  apply yields_skip. intros tok. apply yields_skip. intros f. destruct (negb _); [done|].
  apply (yields_bind _ _ (Forall redir_std)); [exact IH|]. intros rs Hrs. apply yields_ret. apply Forall_app. split; [|done].
  destruct (tok.1 =? c_lt); [apply Forall_singleton; by left|]. destruct (tok.1 =? c_gt); [apply Forall_singleton; by right|].
  destruct (tok.1 =? tok_append); [apply Forall_singleton; by right|constructor].
Qed.

Lemma redirs_all_std N : yields (redirs N) (Forall redir_std).
Proof. apply yields_skip. intros s. apply parseredirs_std. Qed.

Lemma parseargs_std N fuel argc :
  0 <= argc < MAXARGS → yields (parseargs N fuel argc) (λ a, Forall redir_std a.2 ∧ argc + Z.of_nat (length a.1) < MAXARGS).
Proof.
  assert (Hnil : ∀ argc, argc < MAXARGS → yields (mret ([], [])) (λ a : list token * list redir, Forall redir_std a.2 ∧ argc + Z.of_nat (length a.1) < MAXARGS)).
  { intros argc' Hlt. apply yields_ret. cbn [fst snd length]. split; [constructor|lia]. }
  revert argc. induction fuel as [|fuel IH]; intros argc Hargc; cbn [parseargs]; apply yields_skip; intros b; (destruct b; [apply Hnil; lia|]); [done|].
  apply yields_skip. intros t. destruct (t.1 =? 0); [apply Hnil; lia|]. destruct (negb _); [done|]. destruct (Z.leb_spec MAXARGS (argc + 1)) as [|Hlt]; [done|].
  apply (yields_bind _ _ (Forall redir_std)); [apply redirs_all_std|]. intros rs Hrs. eapply yields_bind; [apply (IH (argc + 1)); lia|]. cbn beta.
  intros more [Hm Hn]. apply yields_ret. cbn [fst snd length]. split; [by apply Forall_app|lia].
Qed.

Lemma parseback_std N fuel c : redirs_std c → yields (parseback N fuel c) redirs_std.
Proof.
  revert c. induction fuel as [|fuel IH]; intros c Hc; cbn [parseback]; apply yields_skip; intros b; (destruct b; cbn [negb]; [|by apply yields_ret]); [done|].
  apply yields_skip. intros _. by apply IH.
Qed.

Lemma parse_std N fuel :
  yields (parseline N fuel) redirs_std ∧ yields (parsepipe N fuel) redirs_std ∧ yields (parseexec N fuel) redirs_std ∧ yields (parseblock N fuel) redirs_std.
Proof.
  induction fuel as [|fuel (IHl & IHp & IHe & IHb)]; [done|]. split_and!; cbn [parseline parsepipe parseexec parseblock].
  - apply (yields_bind _ _ redirs_std); [exact IHp|]. intros c Hc. apply yields_skip. intros s.
    apply (yields_bind _ _ redirs_std); [by apply parseback_std|]. intros c' Hc'. apply yields_skip. intros b. destruct b; cbn [negb]; [|by apply yields_ret].
    apply yields_skip. intros _. apply (yields_bind _ _ redirs_std); [exact IHl|]. intros r Hr. by apply yields_ret.
  - apply (yields_bind _ _ redirs_std); [exact IHe|]. intros c Hc. apply yields_skip. intros b. destruct b; cbn [negb]; [|by apply yields_ret].
    apply yields_skip. intros _. apply (yields_bind _ _ redirs_std); [exact IHp|]. intros r Hr. by apply yields_ret.
  - apply yields_skip. intros b. destruct b; [exact IHb|]. apply (yields_bind _ _ (Forall redir_std)); [apply redirs_all_std|]. intros rs Hrs.
    apply yields_skip. intros s. eapply yields_bind; [apply parseargs_std; unfold MAXARGS; lia|]. cbn beta. intros a [Ha Hn].
    apply yields_ret, redircmds_std; [exact Hn|]. by apply Forall_app.
  - apply yields_skip. intros b. destruct b; cbn [negb]; [|done]. apply yields_skip. intros _. apply (yields_bind _ _ redirs_std); [exact IHl|]. intros c Hc.
    apply yields_skip. intros b. destruct b; cbn [negb]; [|done]. apply yields_skip. intros _.
    apply (yields_bind _ _ (Forall redir_std)); [apply redirs_all_std|]. intros rs Hrs. by apply yields_ret, redircmds_std.
Qed.

Lemma parsecmd_std s c buf s' : parsecmd s = Ret (c, buf) s' → redirs_std c.
Proof.
  intros E. unfold parsecmd in E. apply bind_inv in E as (c0 & t & E1 & E2). pose proof (proj1 (parse_std (length s) _) _ _ _ E1) as Hc.
  apply bind_inv in E2 as (b & t2 & _ & E3). apply bind_inv in E3 as (rest & t3 & _ & E4). destruct rest; [|done]. by injection E4 as <- _ _.
Qed.

(** Such a command, with words for strings, can be written down. *)
Lemma typed_erase s c : redirs_std c → cmd_ok s c → ast_ok (erase c).
Proof.
  assert (Hw : ∀ t, tok_ok s t → word_ok (t_text t)) by (by intros t (pre & post & _ & _ & Hne & Hf & _)).
  unfold cmd_ok. induction c as [argv|c IH r|l IHl r IHr|l IHl r IHr|c IH]; cbn [redirs_std strings erase ast_ok]; intros Hs Ht.
  - split; [|rewrite length_map; unfold MAXARGS in Hs; lia]. apply Forall_map. by apply (Forall_impl _ _ _ Ht).
  - destruct Hs as [Hr Hs]. apply Forall_app in Ht as [Ht Hf]. apply Forall_cons in Hf as [Hf _]. split_and!; [auto|auto|done].
  - destruct Hs as [H1 H2]. apply Forall_app in Ht as [T1 T2]. auto.
  - destruct Hs as [H1 H2]. apply Forall_app in Ht as [T1 T2]. auto.
  - auto.
Qed.

(** C34: the parser's results are well formed.  A command that [parsecmd] returns
    is one of those that can be written and read back: every [argv] has room
    for its null pointer, every redirection opens the standard input for
    reading or the standard output for writing, and every string is a word of
    the line, at the place the token says, not empty and without blanks or
    symbols. *)
Theorem parsecmd_typed s c buf s' :
  parsecmd s = Ret (c, buf) s' → ast_ok (erase c) ∧ cmd_ok s c ∧ redirs_std c.
Proof.
  intros E. pose proof (parsecmd_std _ _ _ _ E) as Hs. enough (Hc : cmd_ok s c) by (split_and!; [by apply (typed_erase s)|done|done]).
  unfold parsecmd in E. apply bind_inv in E as (c0 & t & E1 & E2).
  pose proof (proj1 (parse_ok s (4 * length s + 4)) s ltac:(done) ltac:(done)) as Hp. unfold shrinks, runs in Hp. rewrite E1 in Hp. destruct Hp as [_ Hp].
  apply bind_inv in E2 as (b & t2 & _ & E3). apply bind_inv in E3 as (rest & t3 & _ & E4). destruct rest; [|done]. by injection E4 as <- _ _.
Qed.

(** "echo a>b|wc". *)
Lemma parsecmd_typed_witness :
  ∃ c buf s', parsecmd [101; 99; 104; 111; 32; 97; 62; 98; 124; 119; 99] = Ret (c, buf) s' ∧ ast_ok (erase c).
Proof.
  destruct (parsecmd [101; 99; 104; 111; 32; 97; 62; 98; 124; 119; 99]) as [[c buf] s'| | | |] eqn:E; [|by vm_compute in E..].
  exists c, buf, s'. split; [reflexivity|]. exact (proj1 (parsecmd_typed _ c buf s' E)).
Defined.
End yields.

(** ** Pipes *)

Definition holds (t : table) (d : desc) : Prop := Some d ∈ t.
Definition ev_table (e : tevent) : table := match e with TRuns _ t | TWaits t => t end.

(** The ends of pipes made below [here]. *)
Definition inner (here : list bool) (d : desc) : Prop := ∃ l, d = PipeR (l ++ here) ∨ d = PipeW (l ++ here).
Definition std_has (w : std) (d : desc) : Prop := d = s_in w ∨ d = s_out w ∨ d = s_err w.

Lemma holds_table_of w d : holds (table_of w) d ↔ std_has w d.
Proof.
  unfold holds, table_of, std_has. split.
  - intros Hd. repeat (apply elem_of_cons in Hd as [[= ->]|Hd]; [auto|]). by apply elem_of_replicate in Hd as [? _].
  - intros [->|[->| ->]]; set_solver.
Qed.

(** A process of a command has descriptors the command was given, files it
    opens, and pipes of its own. *)
Lemma wires_from c w here e d :
  e ∈ wires c w here → holds (ev_table (concrete e)) d → std_has w d ∨ (∃ f m, d = Opened f m) ∨ inner here d.
Proof.
  assert (Hin : ∀ b l here, inner (b :: here) l → inner here l).
  { intros b l h (l' & Hl). exists (l' ++ [b]). by rewrite <- app_assoc. }
  revert w here. induction c as [argv|c IH r|l IHl r IHr|l IHl r IHr|c IH]; intros w here He Hd.
  - destruct argv; [by apply elem_of_nil in He|]. apply list_elem_of_singleton in He as ->. left. by apply holds_table_of.
  - cbn [wires] in He. destruct (IH _ _ He Hd) as [Hs|Hs]; [|auto]. unfold redirect in Hs.
    destruct (r_fd r =? 0), Hs as [->|[->| ->]]; cbn; (left; unfold std_has; tauto) || (right; left; by eauto).
  - cbn [wires] in He. apply elem_of_app in He as [He|He]; [|apply elem_of_app in He as [He|He]].
    + destruct (IHl _ _ He Hd) as [[->|[->| ->]]|[Hs|Hs%Hin]]; [left; by left|right; right; exists []; by right|left; right; by right|auto|auto].
    + destruct (IHr _ _ He Hd) as [[->|[->| ->]]|[Hs|Hs%Hin]]; [right; right; exists []; by left|left; right; by left|left; right; by right|auto|auto].
    + left. apply holds_table_of. apply elem_of_cons in He as [->|He%list_elem_of_singleton]; [done|by subst e].
  - cbn [wires] in He. apply elem_of_app in He as [He|He]; [|apply elem_of_cons in He as [->|He]].
    + destruct (IHl _ _ He Hd) as [Hs|[Hs|Hs%Hin]]; auto.
    + left. by apply holds_table_of.
    + destruct (IHr _ _ He Hd) as [Hs|[Hs|Hs%Hin]]; auto.
  - by apply (IH w here).
Qed.

(** C36: a command line the parser accepts is run as it reads: the programs that
    run, with exactly three descriptors open, and the shells that wait, are
    those of the meaning of the command, [wires]; and for a pipe nobody but the
    processes of its left side holds the write end, so that its reader sees the
    end of the input when they are done. *)
Theorem runcmd_wires s c buf s' w here :
  parsecmd s = Ret (c, buf) s' → (∀ d, std_has w d → ¬ inner here d) →
  events (runcmd c (table_of w) here) = concrete <$> wires c w here ∧
  match c with
  | PIPE l r =>
      ∃ rest, events (runcmd c (table_of w) here) =
        events (runcmd l (table_of (Std (s_in w) (PipeW here) (s_err w))) (true :: here)) ++ rest ∧
      ∀ e, e ∈ rest → ¬ holds (ev_table e) (PipeW here)
  | _ => True
  end.
Proof.
  intros Hp Hw. pose proof (parsecmd_std _ _ _ _ Hp) as Hc. split; [by apply runcmd_events|]. destruct c as [| |l r| |]; try done.
  destruct Hc as [Hl Hr]. rewrite (runcmd_events (PIPE l r)), (runcmd_events l) by done. cbn [wires]. rewrite fmap_app. eexists. split; [reflexivity|].
  intros e He Hh. apply list_elem_of_fmap in He as (e0 & -> & He). apply elem_of_app in He as [He|He].
  - destruct (wires_from _ _ _ _ _ He Hh) as [Hs|[(f & m & ?)|(l' & [?|E])]]; [|done|done|].
    + destruct Hs as [?|[Hs|Hs]]; [done|cbn in Hs|cbn in Hs]; (apply (Hw (PipeW here)); [rewrite Hs; unfold std_has; tauto|exists []; by right]).
    + injection E as E. apply (f_equal length) in E. rewrite length_app in E. cbn [length] in E. lia.
  - assert (Hs : std_has w (PipeW here)) by (apply holds_table_of; apply elem_of_cons in He as [->|He%list_elem_of_singleton]; [done|by subst e0]).
    apply (Hw _ Hs). exists []. by right.
Qed.

Definition ex_line : list Z := str "cat < in | grep x > out" ++ [10].
Definition ex_std : std := Std (Start 0) (Start 1) (Start 2).

(** Two programs: [cat] reads the file and writes the pipe, [grep] reads the
    pipe and writes the other file; then the shell waits twice. *)
Example runcmd_pipeline :
  match parsecmd ex_line with
  | Ret (c, _) _ => wires c ex_std [] =
      [Runs [str "cat"] (Std (Opened (str "in") O_RDONLY) (PipeW []) (Start 2));
       Runs [str "grep"; str "x"] (Std (PipeR []) (Opened (str "out") (Z.lor O_WRONLY O_CREATE)) (Start 2));
       Waits ex_std; Waits ex_std]
  | _ => False
  end.
Proof. vm_compute. reflexivity. Qed.

Lemma runcmd_wires_witness :
  ∃ c buf s', parsecmd ex_line = Ret (c, buf) s' ∧ events (runcmd c (table_of ex_std) []) = concrete <$> wires c ex_std [].
Proof.
  assert (Hp : ∃ c buf s', parsecmd ex_line = Ret (c, buf) s') by (eexists _, _, _; vm_compute; reflexivity).
  destruct Hp as (c & buf & s' & Hp). exists c, buf, s'. split; [exact Hp|]. refine (proj1 (runcmd_wires ex_line c buf s' ex_std [] Hp _)).
  intros d [->|[->| ->]] (l & [?|?]); done.
Defined.

(** [main] leaves the descriptors 0, 1 and 2 open and the others as they were. *)
Lemma open_console_spec a b c t :
  ∃ a' b' c', open_console 4 (a :: b :: c :: t) = Some (Some a' :: Some b' :: Some c' :: t).
Proof.
  assert (Hstep : ∀ fuel a b c, open_console (S fuel) (Some a :: Some b :: Some c :: t) = Some (Some a :: Some b :: Some c :: t)).
  { intros fuel a0 b0 c0. cbn [open_console]. generalize (Opened (str "console") O_RDWR). intros d. unfold fdalloc. cbn [free_slot].
    destruct (free_slot t) as [k|] eqn:Ek; [|done]. cbn. enough (E : <[k := None]> (<[k := Some d]> t) = t) by (unfold close; cbn; by f_equal; do 3 f_equal).
    rewrite list_insert_insert_eq. apply list_insert_id. clear -Ek. revert k Ek.
    induction t as [|[x|] t' IH]; intros k Ek; cbn in Ek; [done| |by injection Ek as <-].
    destruct (free_slot t') as [j|]; [|done]. injection Ek as <-. by apply IH. }
  set (d := Opened (str "console") O_RDWR).
  assert (H1 : ∀ fuel b c, open_console (S fuel) (None :: b :: c :: t) = open_console fuel (Some d :: b :: c :: t)) by done.
  assert (H2 : ∀ fuel a c, open_console (S fuel) (Some a :: None :: c :: t) = open_console fuel (Some a :: Some d :: c :: t)) by done.
  assert (H3 : ∀ fuel a b, open_console (S fuel) (Some a :: Some b :: None :: t) = open_console fuel (Some a :: Some b :: Some d :: t)) by done.
  destruct a as [a|], b as [b|], c as [c|]; rewrite ?H1, ?H2, ?H3, Hstep; by eexists _, _, _.
Qed.
