(* ===== verification/UserProgs.v ===== *)
(** * User programs: wc.c, cat.c, echo.c, ls.c, rm.c, mkdir.c, ln.c, kill.c and
    the main function of grep.c

    A descriptor is what [read] will deliver from it: the pieces that arrive,
    and whether the end is an error.  What the system calls find in the file
    system is a parameter of the programs.  Output is the list of the bytes
    written to descriptor 1, or of the texts written with their descriptors. *)

From S2P Require Import Prelude Param StringC Ulib Grep Sh ShRun.

(** What is left to read; [i_error]: after the pieces, [read] returns -1 and
    not 0. *)
Record input := Input { i_chunks : list (list Z); i_error : bool }.

(** [read(fd, buf, sizeof(buf))] with its buffer of 512 bytes. *)
Definition read512 (chunks : list (list Z)) : list Z * list (list Z) := read_chunk 512 chunks.

(** ** wc.c *)

Record counts := Counts { l_ : Z; w_ : Z; c_ : Z; inword : bool }.

Definition wc_spaces : list Z := [32; 13; 9; 10; 11].

Definition wc_byte (st : counts) (b : Z) : counts :=
  let c := i32 (c_ st + 1) in
  let l := if b =? 10 then i32 (l_ st + 1) else l_ st in
  if existsb (Z.eqb b) wc_spaces then Counts l (w_ st) c false
  else if negb (inword st) then Counts l (i32 (w_ st + 1)) c true
  else Counts l (w_ st) c (inword st).

Fixpoint wc_loop (fuel : nat) (st : counts) (chunks : list (list Z)) : option counts :=
  match fuel with
  | O => None
  | S fuel =>
      let '(got, chunks) := read512 chunks in
      match got with
      | [] => Some st
      | _ => wc_loop fuel (foldl wc_byte st got) chunks
      end
  end.

(** The counts that are printed, or [inl] for the read error. *)
Definition wc (fuel : nat) (i : input) : option (unit + Z * Z * Z) :=
  st ← wc_loop fuel (Counts 0 0 0 false) (i_chunks i);
  Some (if i_error i then inl tt else inr (l_ st, w_ st, c_ st)).

(** ** cat.c *)

Inductive cat_end := CatDone | CatWriteError | CatReadError.

(** [writes]: how many bytes the coming calls of [write] take; the calls after
    them take all. *)
Fixpoint cat_loop (fuel : nat) (writes : list Z) (i : input) : option (list Z * cat_end) :=
  match fuel with
  | O => None
  | S fuel =>
      let '(got, chunks) := read512 (i_chunks i) in
      match got with
      | [] => Some ([], if i_error i then CatReadError else CatDone)
      | _ =>
          let n := Z.of_nat (length got) in
          let '(k, writes) := match writes with [] => (n, []) | k :: writes => (k, writes) end in
          if negb (k =? n) then Some (take (Z.to_nat k) got, CatWriteError)
          else '(out, e) ← cat_loop fuel writes (Input chunks (i_error i)); Some (got ++ out, e)
      end
  end.

Definition cat_message (e : cat_end) : list Z :=
  match e with
  | CatDone => []
  | CatWriteError => str "cat: write error" ++ [10]
  | CatReadError => str "cat: read error" ++ [10]
  end.

(** The loop of [main] over the files; an error ends the program. *)
Fixpoint cat_files (fuel : nat) (open_ : list Z → option input) (argv : list (list Z)) : option (list Z) :=
  match argv with
  | [] => Some []
  | a :: argv =>
      match open_ a with
      | None => Some (str "cat: cannot open " ++ a ++ [10])
      | Some i =>
          '(out, e) ← cat_loop fuel [] i;
          match e with
          | CatDone => more ← cat_files fuel open_ argv; Some (out ++ more)
          | _ => Some (out ++ cat_message e)
          end
      end
  end.

(** ** echo.c *)

Fixpoint echo_ (argv : list (list Z)) : list Z :=
  match argv with
  | [] => []
  | a :: argv => a ++ (match argv with [] => [10] | _ => [32] end) ++ echo_ argv
  end.

(** ** ls.c *)

(** The loop that goes back from the end of the path; the result is [p] after
    the increment, as an offset. *)
Fixpoint last_slash (p : nat) (path : list Z) : nat :=
  match p with
  | O => O
  | S q => if byte_at path q =? 47 then p else last_slash q path
  end.

Definition fmtname (path : list Z) : list Z :=
  let p := drop (last_slash (length path) path) path in
  if (DIRSIZ <=? length p)%nat then p
  else p ++ replicate (DIRSIZ - length p) 32.

(** [printf("%d")]. *)
Definition dec (x : Z) : list Z := int_str (i32 x) 10 true.

(** The loop of wc's [main]. *)
Definition wc_line (name : list Z) (r : unit + Z * Z * Z) : list Z :=
  match r with
  | inl _ => str "wc: read error" ++ [10]
  | inr (l, w, c) => dec l ++ [32] ++ dec w ++ [32] ++ dec c ++ [32] ++ name ++ [10]
  end.
Fixpoint wc_files (fuel : nat) (open_ : list Z → option input) (argv : list (list Z)) : option (list Z) :=
  match argv with
  | [] => Some []
  | a :: argv =>
      match open_ a with
      | None => Some (str "wc: cannot open " ++ a ++ [10])
      | Some i =>
          r ← wc fuel i;
          match r with
          | inl _ => Some (wc_line a r)
          | inr _ => more ← wc_files fuel open_ argv; Some (wc_line a r ++ more)
          end
      end
  end.
Definition wc_main (fuel : nat) (open_ : list Z → option input) (stdin : input) (args : list (list Z)) : option (list Z) :=
  match args with
  | [] => r ← wc fuel stdin; Some (wc_line [] r)
  | _ => wc_files fuel open_ args
  end.
Definition cat_main (fuel : nat) (open_ : list Z → option input) (stdin : input) (args : list (list Z)) : option (list Z) :=
  match args with
  | [] => '(out, e) ← cat_loop fuel [] stdin; Some (out ++ cat_message e)
  | _ => cat_files fuel open_ args
  end.

(** [getcmd] of sh.c, on the memory and the descriptors of Ulib.v. *)
Definition getcmd (buf nbuf : Z) : M uio Z :=
  putcs 2 (str "$ ") ;;
  liftio (Ulib.memset buf 0 nbuf) ;;
  gets_ buf nbuf ;;
  c ← liftio (load buf);
  mret (if c =? 0 then -1 else 0).

(** [struct stat] as far as it is used, and [struct dirent]. *)
Record ls_stat := LsStat { st_type : Z; st_ino : Z; st_size : Z }.
Record ls_dirent := LsDirent { de_inum : Z; de_name : list Z }.

(** What a path leads to: a failed [open]; a failed [fstat]; or the result of
    [fstat] and the entries [read] delivers, 16 bytes each. *)
Inductive ls_file := NotFound | NoStat | Found (st : ls_stat) (entries : list ls_dirent).

(** [printf(1, "%s %d %d %d\n", fmtname(path), st.type, st.ino, st.size)]. *)
Definition ls_line (path : list Z) (st : ls_stat) : Z * list Z :=
  (1, fmtname path ++ [32] ++ dec (st_type st) ++ [32] ++ dec (st_ino st) ++ [32] ++ dec (st_size st) ++ [10]).

(** The loop over the directory; [name] is moved behind the slash with a NUL
    after it, so that the string ends with the name. *)
Fixpoint ls_entries (stat_ : list Z → option ls_stat) (path : list Z) (l : list ls_dirent) : list (Z * list Z) :=
  match l with
  | [] => []
  | de :: l =>
      if de_inum de =? 0 then ls_entries stat_ path l else
      let buf := path ++ 47 :: cstring (take DIRSIZ (de_name de) ++ [0]) in
      match stat_ buf with
      | None => (1, str "ls: cannot stat " ++ buf ++ [10]) :: ls_entries stat_ path l
      | Some st => ls_line buf st :: ls_entries stat_ path l
      end
  end.

Definition ls (open_ : list Z → ls_file) (stat_ : list Z → option ls_stat) (path : list Z) : list (Z * list Z) :=
  match open_ path with
  | NotFound => [(2, str "ls: cannot open " ++ path ++ [10])]
  | NoStat => [(2, str "ls: cannot stat " ++ path ++ [10])]
  | Found st entries =>
      if st_type st =? T_FILE then [ls_line path st]
      else if st_type st =? T_DIR then
        if (512 <? length path + 1 + DIRSIZ + 1)%nat then [(1, str "ls: path too long" ++ [10])]
        else ls_entries stat_ path entries
      else []
  end.

(** [main] with the arguments after the name of the program. *)
Definition ls_main (open_ : list Z → ls_file) (stat_ : list Z → option ls_stat) (args : list (list Z)) : list (Z * list Z) :=
  match args with
  | [] => ls open_ stat_ [46]
  | _ => concat (ls open_ stat_ <$> args)
  end.

(** ** rm.c, mkdir.c, ln.c, kill.c

    [call] is the system call on a state: it fails, or returns the new state. *)

Section calls.
Context {F : Type}.

Fixpoint until_fails (call : list Z → F → option F) (message : list Z → list Z) (args : list (list Z)) (s : F) : F * list (Z * list Z) :=
  match args with
  | [] => (s, [])
  | a :: args => match call a s with Some s => until_fails call message args s | None => (s, [(2, message a)]) end
  end.

Definition rm_main (unlink : list Z → F → option F) (args : list (list Z)) (s : F) : F * list (Z * list Z) :=
  match args with
  | [] => (s, [(2, str "Usage: rm files..." ++ [10])])
  | _ => until_fails unlink (λ a, str "rm: " ++ a ++ str " failed to delete" ++ [10]) args s
  end.

Definition mkdir_main (mkdir : list Z → F → option F) (args : list (list Z)) (s : F) : F * list (Z * list Z) :=
  match args with
  | [] => (s, [(2, str "Usage: mkdir files..." ++ [10])])
  | _ => until_fails mkdir (λ a, str "mkdir: " ++ a ++ str " failed to create" ++ [10]) args s
  end.

Definition ln_main (link : list Z → list Z → F → option F) (args : list (list Z)) (s : F) : F * list (Z * list Z) :=
  match args with
  | [old; new] => match link old new s with Some s => (s, []) | None => (s, [(2, str "link " ++ old ++ [32] ++ new ++ str ": failed" ++ [10])]) end
  | _ => (s, [(2, str "Usage: ln old new" ++ [10])])
  end.

(** [kill] goes on after a failure. *)
Definition kill_main (atoi : list Z → Z) (kill : Z → F → option F) (args : list (list Z)) (s : F) : F * list (Z * list Z) :=
  match args with
  | [] => (s, [(2, str "usage: kill pid..." ++ [10])])
  | _ => (foldl (λ s a, default s (kill (atoi a) s)) s args, [])
  end.
End calls.

(** ** grep.c: main *)

Fixpoint grep_files (open_ : list Z → option (list (list Z))) (pattern : list Z) (files : list (list Z)) : option (list Z) :=
  match files with
  | [] => Some []
  | a :: files =>
      match open_ a with
      | None => Some (str "grep: cannot open " ++ a ++ [10])
      | Some chunks => out ← grep pattern chunks; more ← grep_files open_ pattern files; Some (out ++ more)
      end
  end.

Definition grep_main (open_ : list Z → option (list (list Z))) (stdin : list (list Z)) (args : list (list Z)) : option (Z * list Z) :=
  match args with
  | [] => Some (2, str "usage: grep pattern [file ...]" ++ [10])
  | [pattern] => out ← grep pattern stdin; Some (1, out)
  | pattern :: files => out ← grep_files open_ pattern files; Some (1, out)
  end.

(** ** What they compute *)

(** A word starts at a character that is not a space, at the beginning or after
    a space. *)
Definition is_space (b : Z) : bool := existsb (Z.eqb b) wc_spaces.
Fixpoint word_starts (after_word : bool) (s : list Z) : Z :=
  match s with
  | [] => 0
  | b :: s => (if negb (is_space b) && negb after_word then 1 else 0) + word_starts (negb (is_space b)) s
  end.
Definition newlines (s : list Z) : Z := Z.of_nat (length (List.filter (Z.eqb 10) s)).

Definition full (chunks : list (list Z)) : Prop := Forall (λ c, c ≠ []) chunks.

Lemma read512_spec chunks got rest :
  full chunks → read512 chunks = (got, rest) → concat chunks = got ++ concat rest ∧ full rest ∧ (got = [] → chunks = []).
Proof.
  unfold read512, full. intros Hf. destruct chunks as [|c chunks]; cbn [read_chunk]; [by intros [= <- <-]|].
  apply Forall_cons in Hf as [Hc Hf]. destruct (length c <=? 512)%nat eqn:El; intros [= <- <-]; [done|].
  apply Nat.leb_gt in El. cbn [concat]. rewrite app_assoc, take_drop. split_and!; [done| |].
  - constructor; [|done]. intros E. apply (f_equal length) in E. rewrite length_drop in E. cbn [length] in E. lia.
  - intros E. apply (f_equal length) in E. rewrite length_take in E. cbn [length] in E. lia.
Qed.

Lemma newlines_cons b s : newlines (b :: s) = (if b =? 10 then 1 else 0) + newlines s.
Proof. unfold newlines. cbn [List.filter]. rewrite (Z.eqb_sym 10 b). destruct (b =? 10); cbn [length]; cbv iota; lia. Qed.

(** The loop of [wc] over one buffer. *)
Lemma wc_buf_spec s : ∀ l w c iw,
  0 <= l → 0 <= w → 0 <= c → l + Z.of_nat (length s) < 2147483648 → w + Z.of_nat (length s) < 2147483648 → c + Z.of_nat (length s) < 2147483648 →
  foldl wc_byte (Counts l w c iw) s =
    Counts (l + newlines s) (w + word_starts iw s) (c + Z.of_nat (length s)) (match last s with Some b => negb (is_space b) | None => iw end).
Proof.
  induction s as [|b s IH]; intros l w c iw Hl Hw Hc Hl' Hw' Hc'; [cbn; change (newlines []) with 0; f_equal; lia|]. cbn [length] in *. cbn [foldl].
  assert (Hb : wc_byte (Counts l w c iw) b =
    Counts (l + if b =? 10 then 1 else 0) (w + if negb (is_space b) && negb iw then 1 else 0) (c + 1) (negb (is_space b))).
  { unfold wc_byte. cbn [l_ w_ c_ inword]. rewrite !i32_id by lia. fold (is_space b). destruct (b =? 10), (is_space b), iw; cbn; f_equal; lia. }
  rewrite Hb, newlines_cons, last_cons. cbn [word_starts].
  rewrite IH by (destruct (b =? 10), (negb (is_space b) && negb iw); lia). f_equal; [lia|lia|lia|]. by destruct (last s).
Qed.

Lemma word_starts_app s t : ∀ iw, word_starts iw (s ++ t) = word_starts iw s + word_starts (match last s with Some b => negb (is_space b) | None => iw end) t.
Proof. induction s as [|b s IH]; intros iw; [done|]. cbn [app word_starts]. rewrite IH, last_cons. destruct (last s); lia. Qed.

Lemma wc_loop_spec fuel : ∀ st chunks,
  full chunks → (length (concat chunks) < fuel)%nat → wc_loop fuel st chunks = Some (foldl wc_byte st (concat chunks)).
Proof.
  induction fuel as [|fuel IH]; intros st chunks Hf Hl; [lia|]. cbn [wc_loop]. destruct (read512 chunks) as [got rest] eqn:Er.
  destruct (read512_spec _ _ _ Hf Er) as (Ec & Hr & He). rewrite Ec, foldl_app. destruct got as [|b got].
  - rewrite (He eq_refl) in Er, Ec. cbn in Er. by injection Er as <-.
  - apply IH; [done|]. rewrite Ec, length_app in Hl. cbn [length] in Hl. lia.
Qed.

(** [wc] counts the lines, words and characters of the whole input, however it
    arrives in pieces. *)
Theorem wc_counts i fuel :
  full (i_chunks i) → (length (concat (i_chunks i)) < fuel)%nat → Z.of_nat (length (concat (i_chunks i))) < 2147483648 →
  wc fuel i = Some (if i_error i then inl tt else
    let s := concat (i_chunks i) in inr (newlines s, word_starts false s, Z.of_nat (length s))).
Proof. intros Hf Hl Hs. unfold wc. rewrite (wc_loop_spec fuel _ _ Hf Hl). cbn [mbind option_bind]. by rewrite wc_buf_spec by lia. Qed.

Lemma cat_loop_all fuel : ∀ i,
  full (i_chunks i) → (length (concat (i_chunks i)) < fuel)%nat →
  cat_loop fuel [] i = Some (concat (i_chunks i), if i_error i then CatReadError else CatDone).
Proof.
  induction fuel as [|fuel IH]; intros [chunks err] Hf Hl; cbn [i_chunks i_error] in *; [lia|]. cbn [cat_loop i_chunks i_error].
  destruct (read512 chunks) as [got rest] eqn:Er. destruct (read512_spec _ _ _ Hf Er) as (Ec & Hr & He). destruct got as [|b got].
  - by rewrite (He eq_refl).
  - rewrite Z.eqb_refl. cbn [negb]. rewrite (IH (Input rest err)); cbn [i_chunks i_error mbind option_bind]; [by rewrite Ec|done|].
    rewrite Ec, length_app in Hl. cbn [length] in Hl. lia.
Qed.

(** When a write is short, what went out is the start of the input. *)
Lemma cat_loop_prefix fuel : ∀ writes i out e,
  full (i_chunks i) → cat_loop fuel writes i = Some (out, e) → out `prefix_of` concat (i_chunks i).
Proof.
  induction fuel as [|fuel IH]; intros writes [chunks err] out e Hf E; [done|]. cbn [cat_loop i_chunks i_error] in *.
  destruct (read512 chunks) as [got rest] eqn:Er. destruct (read512_spec _ _ _ Hf Er) as (Ec & Hr & _). rewrite Ec. destruct got as [|b got].
  - injection E as <- _. apply prefix_nil.
  - destruct (match writes with [] => _ | k :: writes => _ end) as [k writes']. destruct (negb _).
    + injection E as <- _. etrans; [apply prefix_take|by apply prefix_app_r].
    + destruct (cat_loop fuel writes' (Input rest err)) as [[out' e']|] eqn:E'; [|done]. injection E as <- _. change (b :: got ++ out') with ((b :: got) ++ out'). apply prefix_app. by apply (IH _ (Input rest err) _ _ Hr E').
Qed.

(** [cat] of files that can be opened and read writes their contents one after
    the other; nothing follows a file that cannot be opened. *)
Theorem cat_files_correct fuel open_ argv content :
  (∀ a, a ∈ argv → ∃ chunks, open_ a = Some (Input chunks false) ∧ full chunks ∧ concat chunks = content a ∧ (length (content a) < fuel)%nat) →
  ∀ bad, open_ bad = None →
  cat_files fuel open_ argv = Some (concat (content <$> argv)) ∧
  cat_files fuel open_ (argv ++ [bad]) = Some (concat (content <$> argv) ++ str "cat: cannot open " ++ bad ++ [10]).
Proof.
  intros Ho bad Hbad. induction argv as [|a argv IH]; cbn [cat_files app fmap list_fmap concat]; [by rewrite Hbad|].
  destruct (Ho a) as (chunks & Ea & Hf & Ec & Hl); [set_solver|]. destruct IH as [IH1 IH2]; [set_solver|]. rewrite Ea, cat_loop_all by (cbn; congruence).
  cbn [mbind option_bind i_chunks i_error]. rewrite IH1, IH2. cbn [mbind option_bind]. by rewrite Ec, <- app_assoc.
Qed.

Lemma last_slash_spec dir name : ∀ n, (n <= length name)%nat → Forall (λ b, b ≠ 47) name →
  last_slash (length dir + 1 + n) (dir ++ 47 :: name) = (length dir + 1)%nat.
Proof.
  induction n as [|n IH]; intros Hn Hs.
  - rewrite Nat.add_0_r, Nat.add_comm. cbn [last_slash Nat.add]. unfold byte_at. by rewrite list_lookup_middle.
  - rewrite Nat.add_succ_r. cbn [last_slash]. destruct (lookup_lt_is_Some_2 name n) as [x Hx]; [lia|].
    unfold byte_at at 1. rewrite lookup_app_r by lia. replace (length dir + 1 + n - length dir)%nat with (S n) by lia. change ((47 :: name) !! S n) with (name !! n).
    rewrite Hx. cbn. rewrite (proj2 (Z.eqb_neq x 47)) by (by apply (Forall_lookup_1 _ _ _ _ Hs Hx)). apply IH; [lia|done].
Qed.

(** The name [ls] shows is the last element of the path, in a column of
    [DIRSIZ] characters. *)
Lemma fmtname_spec dir name :
  Forall (λ b, b ≠ 47) name → (length name <= DIRSIZ)%nat →
  fmtname (dir ++ 47 :: name) = name ++ replicate (DIRSIZ - length name) 32.
Proof.
  intros Hs Hl. unfold fmtname. rewrite length_app. cbn [length]. replace (length dir + S (length name))%nat with (length dir + 1 + length name)%nat by lia.
  rewrite last_slash_spec by done. rewrite drop_app, drop_ge, app_nil_l by lia. replace (length dir + 1 - length dir)%nat with 1%nat by lia. cbn [drop]. rewrite drop_0.
  destruct (DIRSIZ <=? length name)%nat eqn:E; [|done]. apply Nat.leb_le in E. replace (DIRSIZ - length name)%nat with 0%nat by lia. by rewrite app_nil_r.
Qed.

(** ** ls lists a directory *)

Lemma cstring_end l : Forall (λ b, b ≠ 0) l → cstring (l ++ [0]) = l.
Proof. induction 1 as [|b l Hb _ IH]; [done|]. cbn. by rewrite (proj2 (Z.eqb_neq _ _)), IH. Qed.

Lemma cstring_pad l r : Forall (λ b, b ≠ 0) l → cstring (l ++ 0 :: r) = l.
Proof. induction 1 as [|b l Hb _ IH]; [done|]. cbn. by rewrite (proj2 (Z.eqb_neq _ _)), IH. Qed.

(** The bytes of a name in a directory entry: the name, and NULs up to
    [DIRSIZ]. *)
Definition entry_bytes (name : list Z) : list Z := name ++ replicate (DIRSIZ - length name) 0.

Lemma entry_string name :
  Forall (λ b, b ≠ 0) name → (length name <= DIRSIZ)%nat → cstring (take DIRSIZ (entry_bytes name) ++ [0]) = name.
Proof.
  intros Hn Hl. unfold entry_bytes. rewrite take_ge by (rewrite length_app, length_replicate; lia).
  destruct (DIRSIZ - length name)%nat; cbn [replicate]; [rewrite app_nil_r; by apply cstring_end|]. rewrite <- app_assoc. by apply cstring_pad.
Qed.

Definition name_ok (name : list Z) : Prop := Forall (λ b, b ≠ 0 ∧ b ≠ 47) name ∧ (length name <= DIRSIZ)%nat.

(** [ls] of a directory whose path fits prints one line for every entry in use,
    in their order: the name in a column of [DIRSIZ] characters, and the type,
    number and size of the file the entry names. *)
Theorem ls_lists_directory open_ stat_ path st (entries : list (Z * list Z)) (info : list Z → ls_stat) :
  open_ path = Found st ((λ e, LsDirent e.1 (entry_bytes e.2)) <$> entries) → st_type st = T_DIR → (length path <= 496)%nat →
  (∀ e, e ∈ entries → e.1 ≠ 0 → name_ok e.2 ∧ stat_ (path ++ 47 :: e.2) = Some (info e.2)) →
  ls open_ stat_ path =
    (λ e, (1, e.2 ++ replicate (DIRSIZ - length e.2) 32 ++ [32] ++ dec (st_type (info e.2)) ++ [32] ++ dec (st_ino (info e.2)) ++ [32] ++ dec (st_size (info e.2)) ++ [10]))
      <$> List.filter (λ e, negb (e.1 =? 0)) entries.
Proof.
  intros Ho Ht Hl He. unfold ls. rewrite Ho, Ht. cbn [Z.eqb T_DIR T_FILE]. change (T_DIR =? T_FILE) with false. change (T_DIR =? T_DIR) with true. cbv iota.
  rewrite (proj2 (Nat.ltb_ge _ _)) by (unfold DIRSIZ; lia). clear Ho Ht.
  induction entries as [|e entries IH]; cbn [fmap list_fmap ls_entries List.filter]; [done|]. cbn [de_inum de_name].
  specialize (IH ltac:(intros e' He'; apply He; set_solver)).
  destruct (Z.eqb_spec e.1 0) as [E0|E0]; cbn [negb]; [done|]. destruct (He e) as [[Hn Hd] Hs]; [set_solver|done|].
  rewrite entry_string by (done || (apply (Forall_impl _ _ _ Hn); tauto)). rewrite Hs. cbn [fmap list_fmap]. f_equal; [|exact IH]. unfold ls_line. f_equal.
  rewrite fmtname_spec by (done || (apply (Forall_impl _ _ _ Hn); tauto)). by rewrite <- app_assoc.
Qed.

(** [rm] and [mkdir] do the files up to the first failure, and name it. *)
Lemma until_fails_split {F} (call : list Z → F → option F) message args s :
  ∃ k s', foldl (λ o a, s ← o; call a s) (Some s) (take k args) = Some s' ∧
    until_fails call message args s = (s', match drop k args with [] => [] | a :: _ => [(2, message a)] end) ∧
    ∀ a, head (drop k args) = Some a → call a s' = None.
Proof.
  revert s. induction args as [|a args IH]; intros s; cbn [until_fails]; [by exists 0%nat, s|].
  destruct (call a s) as [s1|] eqn:E; [|exists 0%nat, s; split_and!; [done|done|by intros ? [= <-]]].
  destruct (IH s1) as (k & s' & H1 & H2 & H3). exists (S k), s'. cbn. by rewrite E.
Qed.
