(* ===== verification/Net.v ===== *)
(** * The network: eth.c, arp.c, ipv4.c, icmp.c, tcp.c, http.c and the rings of
    i8254.c

    A received frame and a frame under construction are lists of bytes, from
    the start of the Ethernet header; the C structs are packed, so a field is
    at a fixed offset.  The frame under construction is a page from [kalloc]
    with unknown contents.  The card is its transmit ring; a frame handed to
    it is recorded with the address of the buffer it is copied to. *)

From S2P Require Import Prelude Param.

(** ** Byte order: eth.c *)

Definition N2H_ushort (value : Z) : Z := u16 (Z.shiftl (Z.land value 0xFF) 8 + Z.shiftr value 8).
Definition H2N_ushort (value : Z) : Z := u16 (Z.shiftl (Z.land value 0xFF) 8 + Z.shiftr value 8).
Definition H2N_uint (value : Z) : Z :=
  u32 (Z.shiftl (Z.land value 0xF) 24 + Z.shiftl (Z.land value 0xF0) 8 + Z.shiftr (Z.land value 0xF00) 8 +
       Z.shiftr (Z.land value 0xF000) 24).
Definition N2H_uint (value : Z) : Z :=
  u32 (Z.shiftl (Z.land value 0xFF) 24 + Z.shiftl (Z.land value 0xFF00) 8 + Z.shiftr (Z.land value 0xFF0000) 8 +
       Z.shiftr (Z.land value 0xFF000000) 24).

(** ** Offsets of the packed headers in a frame: pkts_hdr.h *)

Definition sizeof_eth : nat := 14.
Definition eth_dst_mac : nat := 0.
Definition eth_src_mac : nat := 6.
Definition eth_type : nat := 12.
Definition sizeof_arp : nat := 30.
Definition arp_hrd_type : nat := 0.
Definition arp_pro_type : nat := 2.
Definition arp_hrd_len : nat := 4.
Definition arp_pro_len : nat := 5.
Definition arp_op : nat := 6.
Definition arp_src_mac : nat := 8.
Definition arp_src_ip : nat := 14.
Definition arp_dst_mac : nat := 18.
Definition arp_dst_ip : nat := 24.
Definition sizeof_ipv4 : nat := 20.
Definition ip_ver : nat := 0.
Definition ip_srv : nat := 1.
Definition ip_total_len : nat := 2.
Definition ip_ident : nat := 4.
Definition ip_fragment : nat := 6.
Definition ip_ttl : nat := 8.
Definition ip_protocol : nat := 9.
Definition ip_chk_sum : nat := 10.
Definition ip_src : nat := 12.
Definition ip_dst : nat := 16.
Definition sizeof_icmp : nat := 64.
Definition icmp_type : nat := 0.
Definition icmp_code : nat := 1.
Definition icmp_chk_sum : nat := 2.
Definition icmp_id : nat := 4.
Definition icmp_seq_num : nat := 6.
Definition icmp_time_stamp : nat := 8.
Definition icmp_data : nat := 16.
Definition sizeof_tcp : nat := 20.
Definition tcp_src_port : nat := 0.
Definition tcp_dst_port : nat := 2.
Definition tcp_seq_num : nat := 4.
Definition tcp_ack_num : nat := 8.
Definition tcp_code_bits : nat := 12.
Definition tcp_window : nat := 14.
Definition tcp_chk_off : nat := 16.
Definition tcp_urgent_ptr : nat := 18.

(** arp.h, ipv4.h, icmp.h, tcp.h, i8254.h *)
Definition ARP_TABLE_MAX : Z := 64.
Definition ARP_HARDWARE_TYPE : Z := 0x0100.
Definition ARP_PROTOCOL_TYPE : Z := 0x0008.
Definition ARP_OPS_REQUEST : Z := 0x0100.
Definition ARP_OPS_REPLY : Z := 0x0200.
Definition ARP_UPDATED_TABLE : Z := 1.
Definition ARP_CREATED_REPLY : Z := 2.
Definition IPV4_TYPE_ICMP : Z := 1.
Definition IPV4_TYPE_TCP : Z := 6.
Definition ICMP_TYPE_ECHO_REQUEST : Z := 8.
Definition ICMP_TYPE_ECHO_REPLY : Z := 0.
Definition TCP_CODEBITS_ACK : Z := 0x10.
Definition TCP_CODEBITS_PSH : Z := 0x8.
Definition TCP_CODEBITS_SYN : Z := 0x2.
Definition TCP_CODEBITS_FIN : Z := 0x1.
Definition I8254_SEND_DESC_NUM : Z := 256.
Definition I8254_RECV_DESC_NUM : Z := 256.

(** [struct arp_entry] and [struct i8254_send_desc]; the padding of the
    descriptor, which is always zero, is left out. *)
Record arp_entry := ArpEntry { a_ip : list Z; a_mac : list Z; a_use : Z }.
Record send_desc := SendDesc { d_addr : Z; d_len : Z; d_cso : Z; d_cmd : Z; d_sta : Z; d_css : Z; d_special : Z }.
(** [struct i8254_recv_desc]. *)
Record recv_desc := RecvDesc { rd_addr : Z; rd_len : Z; rd_chk_sum : Z; rd_status : Z; rd_errors : Z; rd_special : Z }.

(** Free pages, the globals of the network code and the card: its registers
    by offset, the descriptors, and what was copied to which buffer. *)
Record net := Net {
  n_pages : list Z;
  arp_table : list arp_entry;
  ip_id : Z;
  send_id : Z;
  seq_num : Z;
  fin_flag : Z;
  regs : gmap Z Z;
  txdesc : list send_desc;
  rxdesc : list recv_desc;
  dma : list (Z * list Z);
}.

Definition set_pages v n := Net v (arp_table n) (ip_id n) (send_id n) (seq_num n) (fin_flag n) (regs n) (txdesc n) (rxdesc n) (dma n).
Definition set_arp v n := Net (n_pages n) v (ip_id n) (send_id n) (seq_num n) (fin_flag n) (regs n) (txdesc n) (rxdesc n) (dma n).
Definition set_ip_id v n := Net (n_pages n) (arp_table n) v (send_id n) (seq_num n) (fin_flag n) (regs n) (txdesc n) (rxdesc n) (dma n).
Definition set_send_id v n := Net (n_pages n) (arp_table n) (ip_id n) v (seq_num n) (fin_flag n) (regs n) (txdesc n) (rxdesc n) (dma n).
Definition set_seq_num v n := Net (n_pages n) (arp_table n) (ip_id n) (send_id n) v (fin_flag n) (regs n) (txdesc n) (rxdesc n) (dma n).
Definition set_fin v n := Net (n_pages n) (arp_table n) (ip_id n) (send_id n) (seq_num n) v (regs n) (txdesc n) (rxdesc n) (dma n).
Definition set_reg o v n := Net (n_pages n) (arp_table n) (ip_id n) (send_id n) (seq_num n) (fin_flag n) (<[o := v]> (regs n)) (txdesc n) (rxdesc n) (dma n).
Definition set_txdesc v n := Net (n_pages n) (arp_table n) (ip_id n) (send_id n) (seq_num n) (fin_flag n) (regs n) v (rxdesc n) (dma n).
Definition set_rxdesc v n := Net (n_pages n) (arp_table n) (ip_id n) (send_id n) (seq_num n) (fin_flag n) (regs n) (txdesc n) v (dma n).
Definition set_dma v n := Net (n_pages n) (arp_table n) (ip_id n) (send_id n) (seq_num n) (fin_flag n) (regs n) (txdesc n) (rxdesc n) v.

(** The registers of the card that the code names. *)
Definition EERD : Z := 0x14.
Definition ICS : Z := 0xC8.
Definition IMS : Z := 0xD0.
Definition RCTL : Z := 0x100.
Definition TCTL : Z := 0x400.
Definition TIPG : Z := 0x410.
Definition RDBAL : Z := 0x2800.
Definition RDBAH : Z := 0x2804.
Definition RDLEN : Z := 0x2808.
Definition RDH : Z := 0x2810.
Definition RDT : Z := 0x2818.
Definition RXDCTL : Z := 0x2828.
Definition TDBAL : Z := 0x3800.
Definition TDBAH : Z := 0x3804.
Definition TDLEN : Z := 0x3808.
Definition TDH : Z := 0x3810.
Definition TDT : Z := 0x3818.
Definition TXDCTL : Z := 0x3828.
Definition MTA : Z := 0x5200.
Definition RAL : Z := 0x5400.
Definition RAH : Z := 0x5404.

(** Their bits, from i8254.h. *)
Definition I8254_RCTL_EN : Z := 0x2.
Definition I8254_RCTL_UPE : Z := 0x8.
Definition I8254_RCTL_MPE : Z := 0x10.
Definition I8254_RCTL_BAM : Z := 0x8000.
Definition I8254_RCTL_BSIZE : Z := 0.
Definition I8254_RCTL_SECRC : Z := 0x4000000.
Definition I8254_TCTL_EN : Z := 0x2.
Definition I8254_TCTL_PSP : Z := 0x8.
Definition I8254_TCTL_CT : Z := Z.shiftl 0xF 4.
Definition I8254_TCTL_COLD : Z := Z.shiftl 0x40 12.
Definition I8254_RAH_AS_DEST : Z := 0.
Definition I8254_RAH_AV : Z := 0x80000000.
Definition I8254_IMS_LSC : Z := 0x4.
Definition I8254_IMS_RXSEQ : Z := 0x8.
Definition I8254_IMS_RXDMT0 : Z := 0x10.
Definition I8254_IMS_RXO : Z := 0x40.
Definition I8254_IMS_RXT0 : Z := 0x80.
Definition I8254_TXDCTL_WTHRESH : Z := 0x10000.
Definition I8254_TXDCTL_GRAN_DESC : Z := 0x1000000.

Definition reg (o : Z) (n : net) : Z := default 0 (regs n !! o).
Definition tdh (n : net) : Z := reg TDH n.
Definition tdt (n : net) : Z := reg TDT n.

Section net.
(** The card's address, our address, the contents of a page from [kalloc]. *)
Context (mac_addr my_ip junk : list Z).
Abbreviation T := (M net).

(** [kalloc] and [kfree]; the code uses the page without a test for 0. *)
Definition kalloc_page : T Z :=
  p ← gets n_pages;
  match p with
  | [] => fault
  | a :: p => modify (set_pages p) ;; mret a
  end.
Definition kfree_page (a : Z) : T unit := modify (λ n, set_pages (a :: n_pages n) n).

(** ** The card: i8254.c *)

Definition rd (o : Z) : T Z := gets (reg o).
Definition wr (o v : Z) : T unit := modify (set_reg o v).
Definition ors (l : list Z) : Z := foldr Z.lor 0 l.

Definition i8254_send (pkt : list Z) : T Z :=
  n ← get;
  let len := Z.of_nat (length pkt) in
  let tx_available := i32 (I8254_SEND_DESC_NUM - u32 (I8254_SEND_DESC_NUM - tdh n + tdt n) mod I8254_SEND_DESC_NUM) in
  let index := tdt n mod I8254_SEND_DESC_NUM in
  if 0 <? tx_available then
    d ← of_option (txdesc n !! Z.to_nat index);
    modify (λ n, set_dma (dma n ++ [(P2V (d_addr d), pkt)]) n) ;;
    modify (set_txdesc (<[Z.to_nat index := SendDesc (d_addr d) (u16 len) 0 0xb 0 0 0]> (txdesc n))) ;;
    t ← rd TDT;
    wr TDT (u32 (t + 1) mod I8254_SEND_DESC_NUM) ;;
    mret len
  else mret (-1).

(** The loops that give the descriptors their buffers, from descriptor [i]
    on; they stop when memory runs out. *)
Definition at_addr (a : Z) (d : send_desc) : send_desc :=
  SendDesc a (d_len d) (d_cso d) (d_cmd d) (d_sta d) (d_css d) (d_special d).
Fixpoint init_bufs (k i : nat) : T unit :=
  match k with
  | O => mret tt
  | S k =>
      p ← gets n_pages;
      match p with
      | [] => mret tt
      | a :: p =>
          modify (set_pages p) ;;
          modify (λ n, set_txdesc (alter (at_addr (V2P a)) i (txdesc n)) n) ;;
          modify (λ n, set_txdesc (alter (at_addr (V2P (u32 (a + 0x800)))) (S i) (txdesc n)) n) ;;
          init_bufs k (S i)
      end
  end.
Definition rat_addr (a : Z) (d : recv_desc) : recv_desc :=
  RecvDesc a (rd_len d) (rd_chk_sum d) (rd_status d) (rd_errors d) (rd_special d).
Fixpoint init_rbufs (k i : nat) : T unit :=
  match k with
  | O => mret tt
  | S k =>
      p ← gets n_pages;
      match p with
      | [] => mret tt
      | a :: p =>
          modify (set_pages p) ;;
          modify (λ n, set_rxdesc (alter (rat_addr (V2P a)) i (rxdesc n)) n) ;;
          modify (λ n, set_rxdesc (alter (rat_addr (V2P (u32 (a + 0x800)))) (S i) (rxdesc n)) n) ;;
          init_rbufs k (S i)
      end
  end.

(** [i8254_init_send]; [ring] are the addresses the descriptor page holds
    before. *)
Definition i8254_init_send (ring : list Z) : T unit :=
  wr TXDCTL (ors [I8254_TXDCTL_WTHRESH; I8254_TXDCTL_GRAN_DESC]) ;;
  tx_desc_addr ← kalloc_page;
  wr TDBAL (V2P tx_desc_addr) ;;
  wr TDBAH 0 ;;
  wr TDLEN (16 * I8254_SEND_DESC_NUM) ;;
  wr TDH 0 ;;
  wr TDT 0 ;;
  modify (set_txdesc (map (λ a, SendDesc a 0 0 0 0 0 0) ring)) ;;
  init_bufs (Z.to_nat (I8254_SEND_DESC_NUM / 2)) 0 ;;
  wr TCTL (ors [I8254_TCTL_EN; I8254_TCTL_PSP; I8254_TCTL_COLD; I8254_TCTL_CT]) ;;
  wr TIPG (ors [10; Z.shiftl 10 10; Z.shiftl 10 20]).

(** [i8254_read_eeprom], once the card has set the done bit; [eeprom] is the
    contents of the chip. *)
Definition i8254_read_eeprom (eeprom : Z → Z) (addr : Z) : T Z :=
  wr EERD (Z.lor (Z.shiftl (Z.land addr 0xFF) 8) 1) ;;
  mret (Z.land (eeprom addr) 0xFFFF).

Fixpoint clear_mta (k : nat) (i : Z) : T unit :=
  match k with
  | O => mret tt
  | S k => wr (MTA + 4 * i) 0 ;; clear_mta k (i + 1)
  end.

(** [i8254_init_recv]; the result is what it stores in [mac_addr]. *)
Definition i8254_init_recv (eeprom : Z → Z) (ring : list Z) : T (list Z) :=
  data_l ← i8254_read_eeprom eeprom 0;
  data_m ← i8254_read_eeprom eeprom 1;
  data_h ← i8254_read_eeprom eeprom 2;
  let mac := [Z.land data_l 0xFF; u8 (Z.shiftr data_l 8); Z.land data_m 0xFF; u8 (Z.shiftr data_m 8);
              Z.land data_h 0xFF; u8 (Z.shiftr data_h 8)] in
  wr RAL (u32 (Z.lor data_l (Z.shiftl data_m 16))) ;;
  wr RAH (ors [data_h; I8254_RAH_AS_DEST; I8254_RAH_AV]) ;;
  clear_mta 128 0 ;;
  let ims := ors [I8254_IMS_RXT0; I8254_IMS_RXDMT0; I8254_IMS_RXSEQ; I8254_IMS_LSC; I8254_IMS_RXO] in
  wr IMS ims ;;
  wr ICS ims ;;
  wr RXDCTL 0 ;;
  wr RCTL (ors [I8254_RCTL_UPE; I8254_RCTL_MPE; I8254_RCTL_BAM; I8254_RCTL_BSIZE; I8254_RCTL_SECRC]) ;;
  recv_desc_addr ← kalloc_page;
  wr RDBAL (V2P recv_desc_addr) ;;
  wr RDBAH 0 ;;
  wr RDLEN (16 * I8254_RECV_DESC_NUM) ;;
  wr RDH 0 ;;
  wr RDT I8254_RECV_DESC_NUM ;;
  modify (set_rxdesc (map (λ a, RecvDesc a 0 0 0 0 0) ring)) ;;
  init_rbufs (Z.to_nat (I8254_RECV_DESC_NUM / 2)) 0 ;;
  r ← rd RCTL;
  wr RCTL (Z.lor r I8254_RCTL_EN) ;;
  mret mac.

(** ** ARP *)

(** [arp_table_search(ip)] from entry [i] on with [empty] so far. *)
Fixpoint arp_search (t : list arp_entry) (i empty : Z) (ip : list Z) : Z :=
  match t with
  | [] => empty - 1
  | e :: t =>
      if decide (a_ip e = ip) then i
      else arp_search t (i + 1) (if (a_use e =? 0) && (empty =? 1) then - i else empty) ip
  end.
Definition arp_table_search (t : list arp_entry) (ip : list Z) : Z := arp_search t 0 1 ip.

Definition arp_table_update (recv : list Z) (t : list arp_entry) : list arp_entry :=
  let ip := slice arp_src_ip 4 recv in
  let mac := slice arp_src_mac 6 recv in
  let index := arp_table_search t ip in
  if -1 <? index then alter (λ e, ArpEntry (a_ip e) mac (a_use e)) (Z.to_nat index) t
  else alter (λ _, ArpEntry ip mac 1) (Z.to_nat (- (index + 1))) t.

(** The common part of [arp_broadcast] and [arp_reply_pkt_create]. *)
Definition arp_fill (dst_eth dst_mac dst_ip : list Z) (op : Z) (send : list Z) : list Z :=
  let s := splice eth_type [0x08; 0x06] send in
  let s := splice eth_dst_mac dst_eth s in
  let s := splice eth_src_mac mac_addr s in
  let s := put_le (sizeof_eth + arp_hrd_type) 2 ARP_HARDWARE_TYPE s in
  let s := put_le (sizeof_eth + arp_pro_type) 2 ARP_PROTOCOL_TYPE s in
  let s := splice (sizeof_eth + arp_hrd_len) [6] s in
  let s := splice (sizeof_eth + arp_pro_len) [4] s in
  let s := put_le (sizeof_eth + arp_op) 2 op s in
  let s := splice (sizeof_eth + arp_dst_mac) dst_mac s in
  let s := splice (sizeof_eth + arp_dst_ip) dst_ip s in
  let s := splice (sizeof_eth + arp_src_mac) mac_addr s in
  let s := splice (sizeof_eth + arp_src_ip) my_ip s in
  take (sizeof_eth + sizeof_arp) s.
Definition arp_broadcast (ip : Z) : list Z :=
  arp_fill (replicate 6 0xff) (replicate 6 0) [10; 0; 1; u8 ip] ARP_OPS_REQUEST junk.
(** [arp_recv] begins at the ARP header. *)
Definition arp_reply_pkt_create (arp_recv : list Z) : list Z :=
  arp_fill (slice arp_src_mac 6 arp_recv) (slice arp_src_mac 6 arp_recv) (slice arp_src_ip 4 arp_recv) ARP_OPS_REPLY junk.

Definition arp_proc (p : list Z) : T Z :=
  if negb (get_le arp_hrd_type 2 p =? ARP_HARDWARE_TYPE) then mret (-1) else
  if negb (get_le arp_pro_type 2 p =? ARP_PROTOCOL_TYPE) then mret (-1) else
  if negb (byte_at p arp_hrd_len =? 6) then mret (-1) else
  if negb (byte_at p arp_pro_len =? 4) then mret (-1) else
  if negb (bool_decide (my_ip = slice arp_dst_ip 4 p)) && negb (bool_decide (my_ip = slice arp_src_ip 4 p)) then mret (-1) else
  if (get_le arp_op 2 p =? ARP_OPS_REQUEST) && bool_decide (my_ip = slice arp_dst_ip 4 p) then
    send ← kalloc_page;
    i8254_send (arp_reply_pkt_create p) ;;
    kfree_page send ;;
    mret ARP_CREATED_REPLY
  else if (get_le arp_op 2 p =? ARP_OPS_REPLY) && bool_decide (my_ip = slice arp_dst_ip 4 p) then
    modify (λ n, set_arp (arp_table_update p (arp_table n)) n) ;;
    mret ARP_UPDATED_TABLE
  else mret (-1).

(** [arp_scan]; a send that fails is retried. *)
Fixpoint arp_scan (k : nat) (i : Z) : T unit :=
  match k with
  | O => mret tt
  | S k =>
      send ← kalloc_page;
      res ← i8254_send (arp_broadcast i);
      if res =? -1 then diverge else
      kfree_page send ;;
      arp_scan k (i + 1)
  end.

(** ** Checksums *)

(** The 16-bit word at an offset, high byte first. *)
Definition word_at (b : list Z) (o : nat) : Z := Z.shiftl (byte_at b o) 8 + byte_at b (o + 1).

(** The loop over [n] words that folds the carry as it goes. *)
Fixpoint sum_words (b : list Z) (o n : nat) (chk_sum : Z) : Z :=
  match n with
  | O => chk_sum
  | S n =>
      let c := u32 (chk_sum + word_at b o) in
      sum_words b (o + 2) n (if 0xFFFF <? c then Z.land c 0xFFFF + 1 else c)
  end.
Definition ipv4_chksum (b : list Z) (addr : nat) : Z :=
  let len := u8 (Z.land (byte_at b addr) 0xF * 2) in
  u16 (Z.lnot (sum_words b addr (Z.to_nat len) 0)).
Definition icmp_chksum (b : list Z) (addr : nat) : Z := u16 (Z.lnot (sum_words b addr 32 0)).

(** The loop without folding, of [tcp_chksum]. *)
Fixpoint add_words (b : list Z) (o n : nat) (chk_sum : Z) : Z :=
  match n with
  | O => chk_sum
  | S n => add_words b (o + 2) n (u32 (chk_sum + word_at b o))
  end.
Definition tcp_chksum (b : list Z) (addr : nat) : Z :=
  let tcp_len := H2N_ushort (u16 (N2H_ushort (get_le (addr + ip_total_len) 2 b) - Z.of_nat sizeof_ipv4)) in
  let tcp_dummy := my_ip ++ slice (addr + ip_src) 4 b ++ [0; IPV4_TYPE_TCP] ++ le_bytes 2 tcp_len in
  let chk_sum := add_words tcp_dummy 0 6 0 in
  let chk_sum := add_words b (addr + sizeof_ipv4) (Z.to_nat (N2H_ushort tcp_len / 2)) chk_sum in
  let chk_sum := u32 (chk_sum + Z.shiftr chk_sum 16) in
  u16 (Z.lnot chk_sum).

(** ** ICMP *)

(** The offset of what follows the IP header of a received frame. *)
Definition ip_payload (recv : list Z) : nat :=
  (sizeof_eth + Z.to_nat (Z.land (byte_at recv (sizeof_eth + ip_ver)) 0xF * 4))%nat.

(** The Ethernet and IP headers of a reply, up to the checksum. *)
Definition reply_headers (recv send : list Z) (payload fragment protocol : Z) (id : Z) : list Z :=
  let ip := sizeof_eth in
  let s := splice eth_dst_mac (slice eth_src_mac 6 recv) send in
  let s := splice eth_src_mac mac_addr s in
  let s := splice eth_type [0x08; 0x00] s in
  let s := splice (ip + ip_ver) [Z.shiftl 4 4 + Z.land (Z.of_nat sizeof_ipv4 / 4) 0xF] s in
  let s := splice (ip + ip_srv) [0] s in
  let s := put_le (ip + ip_total_len) 2 (H2N_ushort (u16 payload)) s in
  let s := put_le (ip + ip_ident) 2 id s in
  let s := put_le (ip + ip_fragment) 2 (H2N_ushort fragment) s in
  let s := splice (ip + ip_ttl) [255] s in
  let s := splice (ip + ip_protocol) [protocol] s in
  let s := splice (ip + ip_src) my_ip s in
  let s := splice (ip + ip_dst) (slice (ip + ip_src) 4 recv) s in
  let s := put_le (ip + ip_chk_sum) 2 0 s in
  put_le (ip + ip_chk_sum) 2 (H2N_ushort (ipv4_chksum s ip)) s.

(** The ICMP part of the reply after the headers [h], from the message at
    offset [r] of the request. *)
Definition icmp_fill (recv h : list Z) (r : nat) : list Z :=
  let ic := (sizeof_eth + sizeof_ipv4)%nat in
  let s := splice (ic + icmp_type) [ICMP_TYPE_ECHO_REPLY] h in
  let s := splice (ic + icmp_code) [0] s in
  let s := put_le (ic + icmp_id) 2 (get_le (r + icmp_id) 2 recv) s in
  let s := put_le (ic + icmp_seq_num) 2 (get_le (r + icmp_seq_num) 2 recv) s in
  let s := splice (ic + icmp_time_stamp) (slice (r + icmp_time_stamp) 8 recv) s in
  let s := splice (ic + icmp_data) (slice (r + icmp_data) 48 recv) s in
  let s := put_le (ic + icmp_chk_sum) 2 0 s in
  let s := put_le (ic + icmp_chk_sum) 2 (H2N_ushort (icmp_chksum s ic)) s in
  take (ic + sizeof_icmp) s.
Definition icmp_reply_pkt_create (recv send : list Z) (id : Z) : list Z :=
  icmp_fill recv (reply_headers recv send (Z.of_nat (sizeof_ipv4 + sizeof_icmp)) 0x4000 1 id) (ip_payload recv).

(** [ipv4_send->id = send_id; send_id++]. *)
Definition next_id : T Z := id ← gets send_id; modify (set_send_id (u16 (id + 1))) ;; mret id.

Definition icmp_proc (recv : list Z) : T unit :=
  let r := ip_payload recv in
  if byte_at recv (r + icmp_code) =? 0 then
    if byte_at recv (r + icmp_type) =? ICMP_TYPE_ECHO_REQUEST then
      send_addr ← kalloc_page;
      id ← next_id;
      i8254_send (icmp_reply_pkt_create recv junk id) ;;
      kfree_page send_addr
    else mret tt
  else mret tt.

(** ** TCP and HTTP *)

(** [tcp_pkt_create]: the page [send] after it, and the size to send. *)
Definition tcp_pkt_create (recv send : list Z) (pkt_type payload_size id seq : Z) : list Z :=
  let r := ip_payload recv in
  let t := (sizeof_eth + sizeof_ipv4)%nat in
  let s := reply_headers recv send (Z.of_nat sizeof_ipv4 + Z.of_nat sizeof_tcp + payload_size) 0 IPV4_TYPE_TCP id in
  let s := put_le (t + tcp_src_port) 2 (get_le (r + tcp_dst_port) 2 recv) s in
  let s := put_le (t + tcp_dst_port) 2 (get_le (r + tcp_src_port) 2 recv) s in
  let s := put_le (t + tcp_seq_num) 4 (H2N_uint seq) s in
  let s := put_le (t + tcp_ack_num) 4 (u32 (get_le (r + tcp_seq_num) 4 recv + Z.shiftl 1 24)) s in
  let s := splice (t + tcp_code_bits) [Z.shiftl 5 4; u8 pkt_type] s in
  let s := put_le (t + tcp_window) 2 (H2N_ushort 14480) s in
  let s := put_le (t + tcp_urgent_ptr) 2 0 s in
  let s := put_le (t + tcp_chk_off) 2 0 s in
  put_le (t + tcp_chk_off) 2 (H2N_ushort (u16 (tcp_chksum s sizeof_eth + 8))) s.
Definition tcp_size (payload_size : Z) : nat := (sizeof_eth + sizeof_ipv4 + sizeof_tcp + Z.to_nat payload_size)%nat.

(** "HTTP/1.0 200 OK \r\n", "Content-Type: text/html \r\n",
    "\r\nHello World!\r\n" *)
Definition http_response : list Z :=
  [72; 84; 84; 80; 47; 49; 46; 48; 32; 50; 48; 48; 32; 79; 75; 32; 13; 10] ++
  [67; 111; 110; 116; 101; 110; 116; 45; 84; 121; 112; 101; 58; 32; 116; 101; 120; 116; 47; 104; 116; 109; 108; 32; 13; 10] ++
  [13; 10; 72; 101; 108; 108; 111; 32; 87; 111; 114; 108; 100; 33; 13; 10].
(** [http_proc] into the payload at [o] of the page; the size of the payload. *)
Definition http_fill (o : nat) (send : list Z) : list Z :=
  let len := length http_response in
  let s := splice o http_response send in
  if Nat.odd len then splice (o + len) [0] s else s.
Definition http_proc (o : nat) (send : list Z) : T (list Z * Z) :=
  modify (set_fin 1) ;; mret (http_fill o send, Z.of_nat (length http_response)).

(** A packet made in [page] with the next identification, and sent. *)
Definition tcp_make (recv page : list Z) (pkt_type payload_size : Z) : T (list Z) :=
  id ← next_id;
  seq ← gets seq_num;
  mret (tcp_pkt_create recv page pkt_type payload_size id seq).

Definition tcp_proc (recv : list Z) : T unit :=
  let bits := byte_at recv (ip_payload recv + tcp_code_bits + 1) in
  send_addr ← kalloc_page;
  (if negb (Z.land bits TCP_CODEBITS_SYN =? 0) then
     page ← tcp_make recv junk (Z.lor TCP_CODEBITS_ACK TCP_CODEBITS_SYN) 0;
     i8254_send (take (tcp_size 0) page) ;;
     modify (λ n, set_seq_num (u32 (seq_num n + 1)) n)
   else if bits =? Z.lor TCP_CODEBITS_PSH TCP_CODEBITS_ACK then
     (* both branches of the test for GET send the same *)
     page ← tcp_make recv junk TCP_CODEBITS_ACK 0;
     i8254_send (take (tcp_size 0) page) ;;
     r ← http_proc (sizeof_eth + sizeof_ipv4 + sizeof_tcp) page;
     page ← tcp_make recv r.1 (Z.lor TCP_CODEBITS_ACK TCP_CODEBITS_PSH) r.2;
     i8254_send (take (tcp_size r.2) page) ;;
     modify (λ n, set_seq_num (u32 (seq_num n + 1)) n)
   else if bits =? TCP_CODEBITS_ACK then
     f ← gets fin_flag;
     if f =? 1 then
       page ← tcp_make recv junk TCP_CODEBITS_FIN 0;
       i8254_send (take (tcp_size 0) page) ;;
       modify (set_fin 0)
     else mret tt
   else mret tt) ;;
  kfree_page send_addr.

(** ** IPv4 and Ethernet *)

Definition ipv4_proc (recv : list Z) : T unit :=
  id ← gets ip_id;
  let pid := get_le (sizeof_eth + ip_ident) 2 recv in
  if negb (id =? pid) && negb (bool_decide (my_ip = slice (sizeof_eth + ip_src) 4 recv)) then
    modify (set_ip_id pid) ;;
    let proto := byte_at recv (sizeof_eth + ip_protocol) in
    if proto =? IPV4_TYPE_ICMP then icmp_proc recv
    else if proto =? IPV4_TYPE_TCP then tcp_proc recv
    else mret tt
  else mret tt.

Definition eth_proc (recv : list Z) : T unit :=
  if (byte_at recv eth_type =? 0x08) && (byte_at recv (eth_type + 1) =? 0x06) then
    arp_proc (drop sizeof_eth recv) ;; mret tt
  else if (byte_at recv eth_type =? 0x08) && (byte_at recv (eth_type + 1) =? 0x00) then ipv4_proc recv
  else mret tt.

(** One round of the loop of [i8254_recv]; [buffer] is the memory the card has
    filled at an address.  A descriptor outside the ring is a fault. *)
Definition i8254_recv_round (buffer : Z → list Z) : T unit :=
  t ← rd RDT;
  h ← rd RDH;
  (if 0 <? u32 (I8254_RECV_DESC_NUM - t + h) mod I8254_RECV_DESC_NUM then
     ds ← gets rxdesc;
     d ← of_option (ds !! Z.to_nat t);
     wr RDT (u32 (t + 1) mod I8254_RECV_DESC_NUM) ;;
     eth_proc (buffer (P2V (rd_addr d)))
   else mret tt) ;;
  t ← rd RDT;
  h ← rd RDH;
  if t =? h then wr RDT (u32 (t - 1)) else mret tt.
End net.

(** ** Replies *)

(** The sum of [n] words, and the test a receiver makes (RFC 1071): the words
    with the checksum among them add up to zero in one's complement. *)
Fixpoint words_sum (b : list Z) (o n : nat) : Z :=
  match n with
  | O => 0
  | S n => word_at b o + words_sum b (o + 2) n
  end.
Definition chk_valid (b : list Z) (o n : nat) : Prop := words_sum b o n mod 65535 = 0.

Lemma byte_at_range b i : bytes_ok b → 0 <= byte_at b i < 256.
Proof.
  intros Hb. unfold byte_at. destruct (b !! i) as [x|] eqn:E; [|cbn; lia]. by apply (Forall_lookup_1 _ _ _ _ Hb E).
Qed.

Lemma word_at_eq b o : word_at b o = byte_at b o * 256 + byte_at b (o + 1).
Proof. unfold word_at. by rewrite Z.shiftl_mul_pow2. Qed.

Lemma sum_words_spec b o n acc :
  bytes_ok b → 0 <= acc <= 65535 →
  0 <= sum_words b o n acc <= 65535 ∧ sum_words b o n acc mod 65535 = (acc + words_sum b o n) mod 65535.
Proof.
  intros Hb. revert o acc. induction n as [|n IH]; intros o acc Ha; cbn [sum_words words_sum]; [split; [lia|f_equal; lia]|].
  pose proof (byte_at_range b o Hb). pose proof (byte_at_range b (o + 1) Hb). rewrite (word_at_eq b o) in *.
  assert (Hw : 0 <= byte_at b o * 256 + byte_at b (o + 1) <= 65535) by lia. set (w := byte_at b o * 256 + byte_at b (o + 1)) in *. clearbody w.
  replace (u32 (acc + w)) with (acc + w) by (unfold u32; rewrite Z.mod_small; lia).
  destruct (65535 <? acc + w) eqn:E.
  - replace (Z.land (acc + w) 65535) with ((acc + w) mod 65536) by (change 65535 with (Z.ones 16); by rewrite Z.land_ones).
    destruct (IH (o + 2)%nat ((acc + w) mod 65536 + 1)) as [H1 H2]; [dlia|]. split; [done|]. rewrite H2.
    replace ((acc + w) mod 65536) with (acc + w - 65536) by dlia.
    replace (acc + (w + words_sum b (o + 2) n)) with (acc + w - 65536 + 1 + words_sum b (o + 2) n + 1 * 65535) by lia.
    by rewrite Z.mod_add.
  - destruct (IH (o + 2)%nat (acc + w)) as [H1 H2]; [lia|]. split; [done|]. rewrite H2. f_equal. lia.
Qed.

Lemma words_sum_ext b b' o n :
  (∀ i, (o <= i < o + 2 * n)%nat → byte_at b i = byte_at b' i) → words_sum b o n = words_sum b' o n.
Proof.
  revert o. induction n as [|n IH]; intros o Hi; cbn [words_sum]; [done|]. rewrite !word_at_eq, !(Hi _) by lia.
  f_equal. apply IH. intros i Hi'. apply Hi. lia.
Qed.

Lemma words_sum_slice b b' o n : slice o (2 * n) b = slice o (2 * n) b' → words_sum b o n = words_sum b' o n.
Proof.
  intros Hs. apply words_sum_ext. intros i Hi. unfold byte_at.
  replace i with (o + (i - o))%nat by lia. rewrite <- !(lookup_slice o (2 * n)) by lia. by rewrite Hs.
Qed.

Lemma swap_bytes c : 0 <= c < 65536 → le_bytes 2 (H2N_ushort c) = [c / 256; c mod 256].
Proof.
  intros Hc. unfold H2N_ushort. change 0xFF with (Z.ones 8). rewrite Z.land_ones, Z.shiftl_mul_pow2, Z.shiftr_div_pow2 by lia.
  change (2 ^ 8) with 256. unfold u16. cbn [le_bytes]. f_equal; [dlia|]. f_equal. dlia.
Qed.

(** Storing a checksum over a zero word. *)
Lemma words_sum_store b o n k c :
  0 <= c < 65536 → (k < n)%nat → (o + 2 * k + 2 <= length b)%nat → word_at b (o + 2 * k) = 0 →
  words_sum (put_le (o + 2 * k) 2 (H2N_ushort c) b) o n = words_sum b o n + c.
Proof.
  intros Hc Hk Hl Hz. unfold put_le. rewrite swap_bytes by done. set (p := (o + 2 * k)%nat) in *.
  assert (Hw : ∀ q, word_at (splice p [c / 256; c mod 256] b) q = if decide (q = p) then c
    else if decide (q + 1 = p \/ q = p + 1)%nat then word_at (splice p [c / 256; c mod 256] b) q else word_at b q).
  { intros q. destruct (decide (q = p)) as [->|Hne].
    - rewrite word_at_eq, !byte_at_splice by (cbn [length]; lia). cbn [length]. rewrite !decide_True by lia.
      rewrite Nat.sub_diag. replace (p + 1 - p)%nat with 1%nat by lia. cbn. dlia.
    - case_decide; [done|]. rewrite !word_at_eq, !byte_at_splice by (cbn [length]; lia). cbn [length]. rewrite !decide_False by lia. done. }
  assert (Hsum : ∀ n' o' d, (o' = o + 2 * d)%nat → (n' + d = n)%nat →
    words_sum (splice p [c / 256; c mod 256] b) o' n' = words_sum b o' n' + (if decide (d <= k)%nat then c else 0)).
  { induction n' as [|n' IH]; intros o' d Ho Hn; cbn [words_sum]; [rewrite decide_False by lia; lia|].
    rewrite (IH (o' + 2)%nat (S d)) by lia. rewrite Hw. destruct (decide (o' = p)) as [->|Hne].
    - rewrite Hz. assert (d = k) by lia. subst d. rewrite decide_False, decide_True by lia. lia.
    - rewrite decide_False by lia. repeat case_decide; lia. }
  rewrite (Hsum n o 0%nat) by lia. rewrite decide_True by lia. done.
Qed.

Lemma word_at_zero b p : slice p 2 b = [0; 0] → word_at b p = 0.
Proof.
  intros Hz. rewrite word_at_eq. unfold byte_at. rewrite <- (lookup_slice p 2 b 1) by lia.
  replace (b !! p) with (slice p 2 b !! 0%nat) by (rewrite lookup_slice by lia; f_equal; lia). by rewrite Hz.
Qed.

(** A checksum computed with its own field zero makes the sum valid. *)
Lemma chk_store b o n k :
  bytes_ok b → (k < n)%nat → (o + 2 * k + 2 <= length b)%nat → word_at b (o + 2 * k) = 0 →
  chk_valid (put_le (o + 2 * k) 2 (H2N_ushort (u16 (Z.lnot (sum_words b o n 0)))) b) o n.
Proof.
  intros Hb Hk Hl Hz. destruct (sum_words_spec b o n 0 Hb ltac:(lia)) as [Hr1 Hr2]. rewrite Z.add_0_l in Hr2.
  assert (Hc : u16 (Z.lnot (sum_words b o n 0)) = 65535 - sum_words b o n 0).
  { revert Hr1. generalize (sum_words b o n 0). clear. intros w Hw. unfold Z.lnot, u16. dlia. }
  unfold chk_valid. rewrite words_sum_store, Hc; [|rewrite Hc; lia|done|done|done].
  rewrite Z.add_comm, Z.add_mod, <- Hr2, <- Z.add_mod by done. replace (65535 - _ + _) with 65535 by lia. done.
Qed.

Lemma slice_split o a b l : slice o (a + b) l = slice o a l ++ slice (o + a) b l.
Proof. unfold slice. by rewrite <- drop_drop, take_take_drop. Qed.

Lemma slice_take m o n l : (o + n <= m)%nat → slice o n (take m l) = slice o n l.
Proof. intros Hm. unfold slice. rewrite skipn_firstn_comm, take_take. f_equal. lia. Qed.

Lemma bytes_of_field o n b : bytes_ok b → (o + n <= length b)%nat → le_bytes n (get_le o n b) = slice o n b.
Proof.
  intros Hb Hl. unfold get_le. rewrite <- (slice_length o n b Hl) at 1. apply le_bytes_val. by apply slice_ok.
Qed.

Section replies.
Context (mac_addr my_ip : list Z) (Hmac : length mac_addr = 6%nat) (Hip : length my_ip = 4%nat).
Context (mac_ok : bytes_ok mac_addr) (ip_ok : bytes_ok my_ip).
Context (N : nat) (HN : (98 <= N)%nat).

(** A page with bytes in it. *)
Definition page (s : list Z) : Prop := length s = N ∧ bytes_ok s.

Lemma page_splice off new s : page s → (off + length new <= N)%nat → bytes_ok new → page (splice off new s).
Proof. intros [Hl Hb] Ho Hn. split; [rewrite splice_length; lia|by apply splice_ok]. Qed.

Lemma page_put off n v s : page s → (off + n <= N)%nat → page (put_le off n v s).
Proof. intros Hs Ho. apply page_splice; [done|by rewrite le_bytes_length|apply le_bytes_ok]. Qed.

Lemma get_same off new s o n :
  page s → (off + length new <= N)%nat → o = off → n = length new → slice o n (splice off new s) = new.
Proof. intros [Hl _] Ho -> ->. apply slice_splice_same. lia. Qed.

Lemma get_other off new s o n :
  page s → (off + length new <= N)%nat → (o + n <= off ∨ off + length new <= o)%nat → slice o n (splice off new s) = slice o n s.
Proof. intros [Hl _] Ho Hd. apply slice_splice_other; lia. Qed.

Lemma slice_byte s o x : slice o 1 s = [x] → byte_at s o = x.
Proof. intros Hs. unfold byte_at. rewrite <- (Nat.add_0_r o), <- (lookup_slice o 1) by lia. by rewrite Hs. Qed.

Ltac off_lia := unfold sizeof_eth, sizeof_ipv4, sizeof_icmp, sizeof_tcp, eth_dst_mac, eth_src_mac, eth_type, ip_ver, ip_srv, ip_total_len, ip_ident,
  ip_fragment, ip_ttl, ip_protocol, ip_chk_sum, ip_src, ip_dst, icmp_type, icmp_code, icmp_chk_sum, icmp_id, icmp_seq_num,
  icmp_time_stamp, icmp_data, tcp_src_port, tcp_dst_port, tcp_seq_num, tcp_ack_num, tcp_code_bits, tcp_window, tcp_chk_off,
  tcp_urgent_ptr in *; rewrite ?le_bytes_length, ?Hmac, ?Hip in *; cbn [length] in *; lia.

(** The bytes of the headers before the checksum. *)
Lemma reply_headers_spec recv send payload fragment protocol id :
  page send → bytes_ok recv → (40 <= length recv)%nat → is_u8 protocol →
  let h := reply_headers mac_addr my_ip recv send payload fragment protocol id in
  page h ∧ slice 0 6 h = slice 6 6 recv ∧ slice 6 6 h = mac_addr ∧ slice 12 2 h = [8; 0] ∧ byte_at h 14 = 0x45 ∧
  byte_at h 23 = protocol ∧ slice 26 4 h = my_ip ∧ slice 30 4 h = slice 26 4 recv ∧ chk_valid h 14 10.
Proof.
  intros Hs Hr Hl Hp. unfold reply_headers. cbv zeta.
  assert (Hm : length (slice eth_src_mac 6 recv) = 6%nat) by (apply slice_length; off_lia).
  assert (Hd : length (slice (sizeof_eth + ip_src) 4 recv) = 4%nat) by (apply slice_length; off_lia).
  set (s1 := splice eth_dst_mac (slice eth_src_mac 6 recv) send).
  assert (P1 : page s1) by (apply page_splice; [done|rewrite Hm; off_lia|by apply slice_ok]).
  set (s2 := splice eth_src_mac mac_addr s1). assert (P2 : page s2) by (apply page_splice; [done|off_lia|done]).
  set (s3 := splice eth_type [0x08; 0x00] s2). assert (P3 : page s3) by (apply page_splice; [done|off_lia|by repeat constructor]).
  set (s4 := splice (sizeof_eth + ip_ver) _ s3). assert (P4 : page s4) by (apply page_splice; [done|off_lia|by repeat constructor]).
  set (s5 := splice (sizeof_eth + ip_srv) [0] s4). assert (P5 : page s5) by (apply page_splice; [done|off_lia|by repeat constructor]).
  set (s6 := put_le (sizeof_eth + ip_total_len) 2 _ s5). assert (P6 : page s6) by (apply page_put; [done|off_lia]).
  set (s7 := put_le (sizeof_eth + ip_ident) 2 _ s6). assert (P7 : page s7) by (apply page_put; [done|off_lia]).
  set (s8 := put_le (sizeof_eth + ip_fragment) 2 _ s7). assert (P8 : page s8) by (apply page_put; [done|off_lia]).
  set (s9 := splice (sizeof_eth + ip_ttl) [255] s8). assert (P9 : page s9) by (apply page_splice; [done|off_lia|by repeat constructor]).
  set (s10 := splice (sizeof_eth + ip_protocol) [protocol] s9). assert (P10 : page s10) by (apply page_splice; [done|off_lia|by apply Forall_singleton]).
  set (s11 := splice (sizeof_eth + ip_src) my_ip s10). assert (P11 : page s11) by (apply page_splice; [done|off_lia|done]).
  set (s12 := splice (sizeof_eth + ip_dst) _ s11). assert (P12 : page s12) by (apply page_splice; [done|rewrite Hd; off_lia|by apply slice_ok]).
  set (s13 := put_le (sizeof_eth + ip_chk_sum) 2 0 s12). assert (P13 : page s13) by (apply page_put; [done|off_lia]).
  set (c := ipv4_chksum s13 sizeof_eth). set (h := put_le (sizeof_eth + ip_chk_sum) 2 (H2N_ushort c) s13).
  assert (Ph : page h) by (apply page_put; [done|off_lia]).
  assert (Hv : slice 14 1 s13 = [0x45]).
  { subst s13 s12 s11 s10 s9 s8 s7 s6 s5. unfold put_le. do 9 (rewrite get_other by (done || rewrite ?Hd; off_lia)).
    subst s4. apply get_same; [done|off_lia|off_lia|done]. }
  split_and!; [exact Ph|..].
  - subst h s13 s12 s11 s10 s9 s8 s7 s6 s5 s4 s3 s2. unfold put_le. do 13 (rewrite get_other by (done || rewrite ?Hd; off_lia)).
    subst s1. apply (get_same eth_dst_mac (slice eth_src_mac 6 recv)); [done|rewrite Hm; off_lia|off_lia|by rewrite Hm].
  - subst h s13 s12 s11 s10 s9 s8 s7 s6 s5 s4 s3. unfold put_le. do 12 (rewrite get_other by (done || rewrite ?Hd; off_lia)).
    subst s2. apply get_same; [done|off_lia|off_lia|by rewrite Hmac].
  - subst h s13 s12 s11 s10 s9 s8 s7 s6 s5 s4. unfold put_le. do 11 (rewrite get_other by (done || rewrite ?Hd; off_lia)).
    subst s3. apply get_same; [done|off_lia|off_lia|done].
  - apply slice_byte. subst h. unfold put_le. by rewrite get_other by (done || off_lia).
  - apply slice_byte. subst h s13 s12 s11. unfold put_le. do 4 (rewrite get_other by (done || rewrite ?Hd; off_lia)).
    subst s10. apply get_same; [done|off_lia|off_lia|done].
  - subst h s13 s12. unfold put_le. do 3 (rewrite get_other by (done || rewrite ?Hd; off_lia)).
    subst s11. apply get_same; [done|off_lia|off_lia|by rewrite Hip].
  - subst h s13. unfold put_le. do 2 (rewrite get_other by (done || off_lia)).
    subst s12. apply (get_same _ (slice (sizeof_eth + ip_src) 4 recv)); [done|rewrite Hd; off_lia|off_lia|by rewrite Hd].
  - subst h c. unfold ipv4_chksum. change sizeof_eth with 14%nat at 2 3. rewrite (slice_byte _ _ _ Hv).
    change (Z.to_nat (u8 (Z.land 0x45 0xF * 2))) with 10%nat. apply (chk_store s13 14 10 5); [by destruct P13|lia|destruct P13; off_lia|].
    apply word_at_zero. subst s13. unfold put_le. apply get_same; [done|off_lia|off_lia|done].
Qed.

(** The checksum of an ICMP message at offset 34. *)
Lemma icmp_sum_valid s :
  page s →
  chk_valid (take 98 (put_le (34 + icmp_chk_sum) 2 (H2N_ushort (icmp_chksum (put_le (34 + icmp_chk_sum) 2 0 s) 34))
    (put_le (34 + icmp_chk_sum) 2 0 s))) 34 32.
Proof.
  intros Hs. assert (P7 : page (put_le (34 + icmp_chk_sum) 2 0 s)) by (apply page_put; [done|off_lia]).
  unfold chk_valid. rewrite (words_sum_slice _ (put_le (34 + icmp_chk_sum) 2 (H2N_ushort (icmp_chksum (put_le (34 + icmp_chk_sum) 2 0 s) 34))
    (put_le (34 + icmp_chk_sum) 2 0 s)) 34 32) by (apply slice_take; lia).
  unfold icmp_chksum. change (34 + icmp_chk_sum)%nat with (34 + 2 * 1)%nat in *.
  apply (chk_store (put_le (34 + 2 * 1) 2 0 s) 34 32 1); [by destruct P7|lia|destruct P7; lia|]. apply word_at_zero. unfold put_le.
  apply get_same; [done|off_lia|off_lia|done].
Qed.

Lemma icmp_fill_spec recv h r :
  page h → bytes_ok recv → (r + 64 <= length recv)%nat →
  length (icmp_fill recv h r) = 98%nat ∧
  (∀ o n, (o + n <= 34)%nat → slice o n (icmp_fill recv h r) = slice o n h) ∧
  slice 34 2 (icmp_fill recv h r) = [ICMP_TYPE_ECHO_REPLY; 0] ∧
  slice 38 60 (icmp_fill recv h r) = slice (r + 4) 60 recv ∧ chk_valid (icmp_fill recv h r) 34 32.
Proof.
  intros Ph Hr Hpay. unfold icmp_fill. cbv zeta. change (sizeof_eth + sizeof_ipv4)%nat with 34%nat.
  assert (Ht : length (slice (r + icmp_time_stamp) 8 recv) = 8%nat) by (apply slice_length; off_lia).
  assert (Hd : length (slice (r + icmp_data) 48 recv) = 48%nat) by (apply slice_length; off_lia).
  set (s1 := splice (34 + icmp_type) _ h). assert (P1 : page s1) by (apply page_splice; [done|off_lia|by repeat constructor]).
  set (s2 := splice (34 + icmp_code) [0] s1). assert (P2 : page s2) by (apply page_splice; [done|off_lia|by repeat constructor]).
  set (s3 := put_le (34 + icmp_id) 2 _ s2). assert (P3 : page s3) by (apply page_put; [done|off_lia]).
  set (s4 := put_le (34 + icmp_seq_num) 2 _ s3). assert (P4 : page s4) by (apply page_put; [done|off_lia]).
  set (s5 := splice (34 + icmp_time_stamp) _ s4). assert (P5 : page s5) by (apply page_splice; [done|rewrite Ht; off_lia|by apply slice_ok]).
  set (s6 := splice (34 + icmp_data) _ s5). assert (P6 : page s6) by (apply page_splice; [done|rewrite Hd; off_lia|by apply slice_ok]).
  set (s7 := put_le (34 + icmp_chk_sum) 2 0 s6). assert (P7 : page s7) by (apply page_put; [done|off_lia]).
  set (s8 := put_le (34 + icmp_chk_sum) 2 _ s7). assert (P8 : page s8) by (apply page_put; [done|off_lia]).
  assert (Hhead : ∀ o n, (o + n <= 34)%nat → slice o n (take 98 s8) = slice o n h).
  { intros o n Hon. rewrite slice_take by lia. subst s8 s7 s6 s5 s4 s3 s2 s1. unfold put_le.
    do 8 (rewrite get_other by (done || rewrite ?Ht, ?Hd; off_lia)). done. }
  change (34 + sizeof_icmp)%nat with 98%nat. split_and!; [|exact Hhead|..].
  - rewrite length_take. destruct P8 as [-> _]. lia.
  - rewrite slice_take by lia. rewrite (slice_split 34 1 1). subst s8 s7 s6 s5 s4 s3. unfold put_le.
    do 6 (rewrite (get_other _ _ _ 34 1) by (done || rewrite ?Ht, ?Hd; off_lia)). do 6 (rewrite (get_other _ _ _ (34 + 1) 1) by (done || rewrite ?Ht, ?Hd; off_lia)).
    subst s2. rewrite (get_other _ _ _ 34 1) by (done || off_lia). rewrite (get_same _ [0] s1 (34 + 1)) by (done || off_lia).
    subst s1. by rewrite (get_same _ [ICMP_TYPE_ECHO_REPLY] h 34) by (done || off_lia).
  - rewrite slice_take by lia. rewrite (slice_split 38 2 58), (slice_split (38 + 2) 2 56), (slice_split (38 + 2 + 2) 8 48).
    rewrite (slice_split (r + 4) 2 58), (slice_split (r + 4 + 2) 2 56), (slice_split (r + 4 + 2 + 2) 8 48).
    subst s8 s7. f_equal; [|f_equal; [|f_equal]]; unfold put_le; do 2 (rewrite get_other by (done || off_lia)).
    + subst s6 s5 s4. unfold put_le. do 3 (rewrite get_other by (done || rewrite ?Ht, ?Hd; off_lia)). subst s3. unfold put_le.
      rewrite bytes_of_field by (done || off_lia). apply get_same; [done|rewrite slice_length; off_lia|off_lia|rewrite slice_length; off_lia].
    + subst s6 s5. do 2 (rewrite get_other by (done || rewrite ?Ht, ?Hd; off_lia)). subst s4. unfold put_le.
      rewrite bytes_of_field by (done || off_lia). unfold icmp_seq_num. rewrite <- Nat.add_assoc.
      apply get_same; [done|rewrite slice_length; off_lia|off_lia|rewrite slice_length; off_lia].
    + subst s6. rewrite get_other by (done || rewrite ?Ht, ?Hd; off_lia). subst s5. rewrite <- !Nat.add_assoc.
      apply (get_same _ (slice (r + icmp_time_stamp) 8 recv)); [done|rewrite Ht; off_lia|off_lia|by rewrite Ht].
    + subst s6. rewrite <- !Nat.add_assoc. apply (get_same _ (slice (r + icmp_data) 48 recv)); [done|rewrite Hd; off_lia|off_lia|by rewrite Hd].
  - by apply icmp_sum_valid.
Qed.

(** C37: the answer to an echo request: whatever the request holds, the frame
    goes back to the sender's hardware and protocol address with our own as
    its source, carries the request's identifier, sequence number, time stamp
    and data, and both its IP header and its ICMP message pass the receiver's
    checksum test. *)
Theorem icmp_reply_correct recv send id :
  page send → bytes_ok recv → (142 <= length recv)%nat →
  let f := icmp_reply_pkt_create mac_addr my_ip recv send id in
  let r := ip_payload recv in
  length f = 98%nat ∧ slice 0 6 f = slice 6 6 recv ∧ slice 6 6 f = mac_addr ∧ slice 12 2 f = [8; 0] ∧
  slice 26 4 f = my_ip ∧ slice 30 4 f = slice 26 4 recv ∧ slice 34 2 f = [ICMP_TYPE_ECHO_REPLY; 0] ∧
  slice 38 60 f = slice (r + 4) 60 recv ∧ chk_valid f 14 10 ∧ chk_valid f 34 32.
Proof.
  intros Hs Hr Hl f r. subst f. unfold icmp_reply_pkt_create. fold r.
  assert (Hpay : (r + 64 <= length recv)%nat).
  { subst r. unfold ip_payload, sizeof_eth. change 0xF with (Z.ones 4). rewrite Z.land_ones by lia. change (2 ^ 4) with 16.
    clear -Hl. dlia. }
  destruct (reply_headers_spec recv send (Z.of_nat (sizeof_ipv4 + sizeof_icmp)) 0x4000 1 id Hs Hr ltac:(lia) ltac:(done))
    as (Ph & H0 & H6 & H12 & _ & _ & H26 & H30 & Hc).
  destruct (icmp_fill_spec recv _ r Ph Hr Hpay) as (Hlen & Hhead & Htc & Hdata & Hsum).
  split_and!; [exact Hlen|rewrite Hhead by lia; assumption..|exact Htc|exact Hdata| |exact Hsum].
  unfold chk_valid. rewrite (words_sum_slice _ _ 14 10 (Hhead 14%nat 20%nat ltac:(lia))). exact Hc.
Qed.
End replies.

(** ** The ARP table *)

Definition no_ip : list Z := [0; 0; 0; 0].
(** Entries that are not in use are zero. *)
Definition table_ok (t : list arp_entry) : Prop := ∀ j e, t !! j = Some e → a_use e = 0 → a_ip e = no_ip.

(** What the search finds: the first entry with the address, or else the
    first unused one, or neither. *)
Lemma search_cases ip t i empty :
  let r := arp_search t i empty ip in
  (∃ j e, t !! j = Some e ∧ a_ip e = ip ∧ (∀ k e, (k < j)%nat → t !! k = Some e → a_ip e ≠ ip) ∧ r = i + Z.of_nat j) ∨
  (∀ k e, t !! k = Some e → a_ip e ≠ ip) ∧
  ((∃ j e, t !! j = Some e ∧ a_use e = 0 ∧ (empty = 1 → 0 <= i → r = - (i + Z.of_nat j) - 1)) ∨
   ((∀ k e, t !! k = Some e → a_use e ≠ 0) ∧ r = empty - 1)).
Proof.
  cbv zeta. assert (Hset : ∀ t i empty, empty ≠ 1 → (∀ k e, t !! k = Some e → a_ip e ≠ ip) → arp_search t i empty ip = empty - 1).
  { clear. induction t as [|e t IH]; intros i empty Hne Hno; cbn [arp_search]; [done|]. rewrite decide_False by exact (Hno 0%nat e eq_refl).
    rewrite (proj2 (Z.eqb_neq empty 1) Hne), andb_false_r. apply IH; [done|]. intros k. exact (Hno (S k)). }
  revert i empty. induction t as [|e t IH]; intros i empty; cbn [arp_search].
  { right. split; [done|]. right. done. }
  destruct (decide (a_ip e = ip)) as [He|He].
  { left. exists 0%nat, e. split_and!; [done|done|lia|lia]. }
  assert (Hshift : (∀ k x, t !! k = Some x → a_ip x ≠ ip) → ∀ k x, (e :: t) !! k = Some x → a_ip x ≠ ip).
  { intros Hno [|k] x; [by intros [= <-]|apply Hno]. }
  destruct (IH (i + 1) (if (a_use e =? 0) && (empty =? 1) then - i else empty)) as [(j & x & Hj & Hx & Hf & Hr)|[Hno Hr]].
  - left. exists (S j), x. split_and!; [done|done| |lia]. intros [|k] y Hk; [by intros [= <-]|apply Hf; lia].
  - right. split; [by apply Hshift|]. destruct (a_use e =? 0) eqn:Eu.
    + left. exists 0%nat, e. split_and!; [done|lia|]. intros -> Hi. cbn [andb Z.eqb Pos.eqb] in *. rewrite Hset; [lia|lia|done].
    + destruct Hr as [(j & x & Hj & Hx & Hr)|[Hu Hr]].
      * left. exists (S j), x. split_and!; [done|done|]. intros -> Hi. cbn [andb] in *. rewrite Hr by lia. lia.
      * right. split; [|done]. intros [|k] y; [intros [= <-]; lia|apply Hu].
Qed.

Lemma search_at ip t j e :
  t !! j = Some e → a_ip e = ip → (∀ k e, (k < j)%nat → t !! k = Some e → a_ip e ≠ ip) → arp_table_search t ip = Z.of_nat j.
Proof.
  intros Hj He Hf. unfold arp_table_search. destruct (search_cases ip t 0 1) as [(j' & e' & Hj' & He' & Hf' & ->)|[Hno _]].
  - destruct (lt_eq_lt_dec j j') as [[Hlt| ->]|Hlt]; [by destruct (Hf' j e Hlt Hj He)|lia|by destruct (Hf j' e' Hlt Hj' He')].
  - by destruct (Hno j e Hj He).
Qed.

(** After an ARP reply from an address other than 0.0.0.0, if the table
    knew the address or had an unused entry, looking the address up gives the
    hardware address just received, and every entry in use for another
    address is as it was. *)
Theorem arp_learns recv t :
  let ip := slice arp_src_ip 4 recv in
  let mac := slice arp_src_mac 6 recv in
  let t' := arp_table_update recv t in
  table_ok t → ip ≠ no_ip → (∃ j e, t !! j = Some e ∧ (a_ip e = ip ∨ a_use e = 0)) →
  (∃ j e, arp_table_search t' ip = Z.of_nat j ∧ t' !! j = Some e ∧ a_ip e = ip ∧ a_mac e = mac) ∧
  (∀ j e, t !! j = Some e → a_use e ≠ 0 → a_ip e ≠ ip → t' !! j = Some e).
Proof.
  intros ip mac t' Hok Hip Hroom. subst t'. unfold arp_table_update. fold ip mac. cbv zeta.
  destruct (search_cases ip t 0 1) as [(j & e & Hj & He & Hf & Hr)|[Hno Hr]]; fold (arp_table_search t ip) in Hr.
  - rewrite Hr, (proj2 (Z.ltb_lt _ _)) by lia. rewrite Z.add_0_l, Nat2Z.id. split.
    + assert (Hj' : alter (λ e, ArpEntry (a_ip e) mac (a_use e)) j t !! j = Some (ArpEntry (a_ip e) mac (a_use e))) by by rewrite list_lookup_alter_eq, Hj.
      exists j, (ArpEntry (a_ip e) mac (a_use e)). split_and!; [|done|done|done]. apply (search_at ip _ j _ Hj' He).
      intros k x Hk. rewrite list_lookup_alter_ne by lia. by apply Hf.
    + intros k x Hk Hu Hne. rewrite list_lookup_alter_ne; [done|]. intros ->. congruence.
  - destruct Hr as [(j & e & Hj & Hu & Hr)|[Hu _]].
    + rewrite (Hr eq_refl ltac:(lia)), (proj2 (Z.ltb_ge _ _)) by lia. replace (Z.to_nat (- (- (0 + Z.of_nat j) - 1 + 1))) with j by lia. split.
      * assert (Hj' : alter (λ _, ArpEntry ip mac 1) j t !! j = Some (ArpEntry ip mac 1)) by by rewrite list_lookup_alter_eq, Hj.
        exists j, (ArpEntry ip mac 1). split_and!; [|done|done|done]. apply (search_at ip _ j _ Hj' eq_refl).
        intros k x Hk. rewrite list_lookup_alter_ne by lia. apply Hno.
      * intros k x Hk Hux Hne. rewrite list_lookup_alter_ne; [done|]. intros ->. congruence.
    + destruct Hroom as (j & e & Hj & [He|He]); [by destruct (Hno j e Hj He)|by destruct (Hu j e Hj He)].
Qed.

Definition ex_reply : list Z := [0; 1; 8; 0; 6; 4; 0; 2] ++ [1; 2; 3; 4; 5; 6] ++ [10; 0; 1; 2] ++ replicate 12 0.

Lemma arp_learns_witness :
  ∃ e, arp_table_search (arp_table_update ex_reply (replicate 64 (ArpEntry no_ip (replicate 6 0) 0))) [10; 0; 1; 2] = 0 ∧
    arp_table_update ex_reply (replicate 64 (ArpEntry no_ip (replicate 6 0) 0)) !! 0%nat = Some e ∧ a_mac e = [1; 2; 3; 4; 5; 6].
Proof.
  destruct (arp_learns ex_reply (replicate 64 (ArpEntry no_ip (replicate 6 0) 0))) as [(j & e & Hs & Hj & _ & Hm) _].
  - intros j e Hj. apply lookup_replicate in Hj as [-> _]. done.
  - done.
  - exists 0%nat, (ArpEntry no_ip (replicate 6 0) 0). split; [done|by right].
  - change (slice arp_src_ip 4 ex_reply) with [10; 0; 1; 2] in Hs.
    assert (E : arp_table_search (arp_table_update ex_reply (replicate 64 (ArpEntry no_ip (replicate 6 0) 0))) [10; 0; 1; 2] = 0)
      by (vm_compute; reflexivity).
    rewrite E in Hs. assert (j = 0%nat) as -> by lia. exists e. split_and!; [exact E|exact Hj|exact Hm].
Defined.

(** When all 64 entries are in use, the search says 0 for a new address, and
    the update gives the hardware address to the wrong entry. *)
Example arp_full_table :
  arp_table_update ex_reply (replicate 64 (ArpEntry [10; 0; 1; 9] (replicate 6 9) 1)) !! 0%nat =
  Some (ArpEntry [10; 0; 1; 9] [1; 2; 3; 4; 5; 6] 1).
Proof. vm_compute. reflexivity. Qed.

(** ** The transmit ring *)

(** The ring test of [i8254_send] never fails: for all positions of head
    and tail the frame is accepted, and when 255 frames are pending the next
    one makes the tail catch up with the head, so that the ring looks empty
    and its frames are lost. *)
Theorem i8254_send_never_full pkt n :
  0 <= tdh n < 256 → 0 <= tdt n < 256 → length (txdesc n) = 256%nat →
  (∃ n', i8254_send pkt n = Ret (Z.of_nat (length pkt)) n' ∧ tdt n' = (tdt n + 1) mod 256 ∧ tdh n' = tdh n) ∧
  ((tdt n - tdh n) mod 256 = 255 → ∃ r n', i8254_send pkt n = Ret r n' ∧ tdt n' = tdh n').
Proof.
  intros Hh Ht Hl. assert (Hrun : ∃ n', i8254_send pkt n = Ret (Z.of_nat (length pkt)) n' ∧ tdt n' = (tdt n + 1) mod 256 ∧ tdh n' = tdh n).
  { unfold i8254_send, get. rewrite (bind_Ret _ _ n n n) by done. cbv zeta. unfold I8254_SEND_DESC_NUM.
    rewrite (proj2 (Z.ltb_lt 0 _)) by (unfold i32, u32; dlia). rewrite (Z.mod_small (tdt n) 256) by lia.
    destruct (lookup_lt_is_Some_2 (txdesc n) (Z.to_nat (tdt n))) as [d Hd]; [lia|]. rewrite (bind_Ret _ _ n d n) by by rewrite Hd.
    eexists. split; [reflexivity|]. unfold tdt, tdh, reg. cbn. rewrite lookup_insert_eq, lookup_insert_ne by done. cbn.
    split; [|done]. fold (reg TDT n). fold (tdt n). unfold u32. dlia. }
  split; [exact Hrun|]. intros Hfull. destruct Hrun as (n' & E & Et & Eh). exists (Z.of_nat (length pkt)), n'. split; [exact E|]. rewrite Et, Eh. dlia.
Qed.

Definition ex_net : net := Net [4096] [] (-1) 0 0 0 {[ TDH := 1; TDT := 0 ]} (replicate 256 (SendDesc 0 0 0 0 0 0 0)) [] [].

Lemma i8254_send_never_full_witness : ∃ r n', i8254_send [1; 2; 3] ex_net = Ret r n' ∧ tdt n' = tdh n'.
Proof.
  apply (i8254_send_never_full [1; 2; 3] ex_net); [vm_compute; split; [discriminate|reflexivity]|vm_compute; split; [discriminate|reflexivity]|reflexivity|vm_compute; reflexivity].
Defined.

(** An echo request for 10.0.1.10 from 10.0.1.2. *)
Definition ex_request : list Z :=
  replicate 6 9 ++ replicate 6 7 ++ [8; 0] ++ [0x45; 0; 0; 84; 0; 1; 0; 0; 64; 1; 0; 0; 10; 0; 1; 2; 10; 0; 1; 10] ++
  [8; 0; 0; 0; 1; 2; 3; 4] ++ replicate 120 5.

Lemma icmp_reply_correct_witness :
  let f := icmp_reply_pkt_create (replicate 6 9) [10; 0; 1; 10] ex_request (replicate 100 1) 0 in
  slice 30 4 f = [10; 0; 1; 2] ∧ slice 38 4 f = [1; 2; 3; 4] ∧ chk_valid f 14 10 ∧ chk_valid f 34 32.
Proof.
  assert (Hb : ∀ l : list Z, forallb (λ x, (0 <=? x) && (x <? 256)) l = true → bytes_ok l).
  { intros l Hl. apply Forall_forall. intros x Hx. rewrite forallb_forall in Hl. specialize (Hl x (proj1 (list_elem_of_In _ _) Hx)).
    unfold is_u8. lia. }
  destruct (icmp_reply_correct (replicate 6 9) [10; 0; 1; 10] eq_refl eq_refl (Hb (replicate 6 9) eq_refl) (Hb [10; 0; 1; 10] eq_refl) 100 ltac:(lia)
    ex_request (replicate 100 1) 0) as (_ & _ & _ & _ & _ & Hd & _ & He & H1 & H2); [|by apply Hb|cbn; lia|].
  - split; [done|by apply Hb].
  - cbv zeta. split_and!; [exact Hd|reflexivity|exact H1|exact H2].
Defined.

(** Sequence numbers from 16 on are not put into network order. *)
Example H2N_uint_wrong : H2N_uint 16 = 0x1000 ∧ N2H_uint 16 = 0x10000000.
Proof. done. Qed.

(** The TCP checksum covers our own address instead of the receiver's, and
    8 is added to it: it is right for a peer whose address ends in 2, such as
    10.0.1.2, and wrong for 10.0.1.3. *)
Definition ex_syn (last : Z) : list Z :=
  replicate 6 9 ++ replicate 6 7 ++ [8; 0] ++ [0x45; 0; 0; 40; 0; 1; 0; 0; 64; 6; 0; 0; 10; 0; 1; last; 10; 0; 1; 10] ++
  [0x30; 0x39; 0; 80; 0; 0; 0; 1; 0; 0; 0; 0; 0x50; 2; 0; 0; 0; 0; 0; 0] ++ replicate 90 0.
Definition tcp_sum (last : Z) : Z :=
  let f := tcp_pkt_create (replicate 6 9) [10; 0; 1; 10] (ex_syn last) (replicate 100 1) 0x12 0 0 0 in
  (words_sum ([10; 0; 1; 10; 10; 0; 1; last; 0; 6; 0; 20] ++ slice 34 20 f) 0 16) mod 65535.
Example tcp_checksum_peer : tcp_sum 2 = 0 ∧ tcp_sum 3 ≠ 0.
Proof. vm_compute. split; [reflexivity|discriminate]. Qed.

(** The loop that hands out buffers steps over the descriptors one by one
    while it fills two at a time: from descriptor [i + k + 1] on, none gets a
    buffer. *)
Lemma init_bufs_reach k i n u n' :
  init_bufs k i n = Ret u n' → ∀ j, (i + k < j)%nat → txdesc n' !! j = txdesc n !! j.
Proof.
  revert i n. induction k as [|k IH]; intros i n Hrun j Hj; cbn [init_bufs] in Hrun; [by injection Hrun as _ <-|].
  apply bind_inv in Hrun as (p & n1 & [= <- <-] & Hrun). destruct (n_pages n) as [|a p]; [by injection Hrun as _ <-|].
  do 3 (apply bind_inv in Hrun as (? & ? & [= <- <-] & Hrun)).
  rewrite (IH _ _ Hrun j ltac:(lia)). cbn. rewrite !list_lookup_alter_ne by lia. done.
Qed.

(** So [i8254_init_send] leaves descriptors 129 to 255 with whatever address
    the descriptor page held. *)
Lemma init_send_buffers ring n u n' j a :
  i8254_init_send ring n = Ret u n' → (128 < j)%nat → ring !! j = Some a → ∃ d, txdesc n' !! j = Some d ∧ d_addr d = a.
Proof.
  unfold i8254_init_send. intros Hrun Hj Ha. do 7 (apply bind_inv in Hrun as (? & ? & _ & Hrun)).
  apply bind_inv in Hrun as (v & n2 & [= <- <-] & Hrun). apply bind_inv in Hrun as (v' & n3 & E & Hrun).
  apply bind_inv in Hrun as (v2 & n4 & [= <- <-] & Hrun). injection Hrun as _ <-. cbn [txdesc set_reg].
  rewrite (init_bufs_reach _ _ _ _ _ E j) by (change (Z.to_nat (I8254_SEND_DESC_NUM / 2)) with 128%nat; lia).
  cbn [txdesc set_txdesc]. change (map ?f ring) with (f <$> ring). rewrite list_lookup_fmap, Ha. eexists. done.
Qed.

(** After [i8254_init_recv] the tail is 256: the first frame that arrives
    makes [i8254_recv] read a descriptor past the end of the ring of 256. *)
Lemma first_frame_out_of_ring mac_addr my_ip junk buffer n :
  reg RDT n = 256 → 0 < reg RDH n < 256 → length (rxdesc n) = 256%nat →
  i8254_recv_round mac_addr my_ip junk buffer n = Fault.
Proof.
  intros Ht Hh Hl. unfold i8254_recv_round, rd. rewrite (bind_Ret _ _ n (reg RDT n) n), (bind_Ret _ _ n (reg RDH n) n) by done.
  rewrite Ht. unfold mbind at 1, M_bind at 1. rewrite (proj2 (Z.ltb_lt 0 _)) by (unfold I8254_RECV_DESC_NUM, u32; dlia).
  unfold gets. rewrite (bind_Ret _ _ n (rxdesc n) n) by done.
  assert (Hn : rxdesc n !! Z.to_nat 256 = None) by (apply lookup_ge_None_2; rewrite Hl; lia). unfold mbind, M_bind. by rewrite Hn.
Qed.
