(* ===== verification/Pci.v ===== *)
(** * The PCI bus: pci.c, and i8254_init of i8254.c

    [pci_init] looks at every function of every device through the two ports of
    the bus, a parameter (the class [PciBus]); [PciBusOk] says that the first
    port selects a register of configuration space and the second reads and
    writes it.  What is printed is a list of events. *)

From S2P Require Import Prelude Param Net.

Record pci_dev := PciDev {
  bus_num : Z; device_num : Z; function_num : Z; device_id : Z; vendor_id : Z;
  base_class : Z; sub_class : Z; interface : Z; revision_id : Z; bar0 : Z; bar1 : Z;
}.

Definition I8254_DEVICE_ID : Z := 0x100E.
Definition I8254_VENDOR_ID : Z := 0x8086.
Definition PCI_CMD_BUS_MASTER : Z := 4.

Inductive message :=
| DeviceFound (bus device function : Z)
| Ids (device vendor : Z)
| Classes (base sub interface revision : Z)
| NicFound
| MessageControl (data : Z).

(** Double-word reads and writes of the ports. *)
Class PciBus (D : Type) := { inl_ : Z → D → Z * D; outl_ : Z → Z → D → D }.

Record pci (D : Type) := Pci { bus : D; dev : pci_dev; base_addr : Z; intr_addr : Z; intr_word : Z; nic : net; printed : list message }.
Arguments Pci {D} bus dev base_addr intr_addr intr_word nic printed.
Arguments bus {D} p.
Arguments dev {D} p.
Arguments base_addr {D} p.
Arguments intr_addr {D} p.
Arguments intr_word {D} p.
Arguments nic {D} p.
Arguments printed {D} p.

Section code.
Context {D : Type} `{PciBus D}.
Abbreviation B := (M (pci D)).

Definition set_bus d (s : pci D) : pci D := Pci d (dev s) (base_addr s) (intr_addr s) (intr_word s) (nic s) (printed s).
Definition set_dev v (s : pci D) : pci D := Pci (bus s) v (base_addr s) (intr_addr s) (intr_word s) (nic s) (printed s).
Definition set_base v (s : pci D) : pci D := Pci (bus s) (dev s) v (intr_addr s) (intr_word s) (nic s) (printed s).
Definition set_intr a v (s : pci D) : pci D := Pci (bus s) (dev s) (base_addr s) a v (nic s) (printed s).
Definition say (m : message) : B unit := modify (λ s, Pci (bus s) (dev s) (base_addr s) (intr_addr s) (intr_word s) (nic s) (printed s ++ [m])).

(** Code of the driver in Net.v. *)
Definition on_nic {X} (f : M net X) : B X := λ s,
  match f (nic s) with
  | Ret a n => Ret a (Pci (bus s) (dev s) (base_addr s) (intr_addr s) (intr_word s) n (printed s))
  | Panic msg => Panic msg
  | Fault => Fault
  | Block => Block
  | Diverge => Diverge
  end.

Definition pci_write_config (config : Z) : B unit := modify (λ s, set_bus (outl_ 0xCF8 config (bus s)) s).
Definition pci_write_data (config : Z) : B unit := modify (λ s, set_bus (outl_ 0xCFC config (bus s)) s).
Definition pci_read_config : B Z := λ s, let '(v, d) := inl_ 0xCFC (bus s) in Ret v (set_bus d s).

Definition config_addr (bus_num device_num function_num reg_addr : Z) : Z :=
  Z.lor (Z.lor (Z.lor (Z.lor (Z.shiftl (Z.land bus_num 0xFF) 16) (Z.shiftl (Z.land device_num 0x1F) 11)) (Z.shiftl (Z.land function_num 0x7) 8))
    (Z.land reg_addr 0xFC)) 0x80000000.

Definition pci_access_config (bus_num device_num function_num reg_addr : Z) : B Z :=
  pci_write_config (config_addr bus_num device_num function_num reg_addr) ;;
  pci_read_config.

Definition pci_write_config_register (bus_num device_num function_num reg_addr data : Z) : B unit :=
  pci_write_config (config_addr bus_num device_num function_num reg_addr) ;;
  pci_write_data data.

(** ** i8254_init *)

Definition IMC : Z := 0xD8.
Definition CTRL : Z := 0.
Definition I8254_CTRL_SLU : Z := 0x40.
Definition I8254_CTRL_ILOS : Z := 0x80.
Definition I8254_CTRL_RST : Z := 0x4000000.
Definition I8254_CTRL_VME : Z := 0x40000000.
Definition I8254_CTRL_PHY_RST : Z := 0x80000000.

(** [~ x] of a 32-bit word. *)
Definition not32 (x : Z) : Z := u32 (- x - 1).

(** A read and a write of the control register. *)
Definition on_ctrl (f : Z → Z) : M net unit := c ← rd CTRL; wr CTRL (f c).

Section nic.
(** The EEPROM of the card and what the pages of the rings held. *)
Context (eeprom : Z → Z) (recv_ring send_ring : list Z).

Definition i8254_init (d : pci_dev) : B unit :=
  cmd_reg ← pci_access_config (bus_num d) (device_num d) (function_num d) 0x04;
  pci_write_config_register (bus_num d) (device_num d) (function_num d) 0x04 (Z.lor cmd_reg PCI_CMD_BUS_MASTER) ;;
  modify (set_base (u32 (bar0 d + PCI_VP_OFFSET))) ;;
  on_nic (wr IMC 0xFFFFFFFF) ;;
  on_nic (on_ctrl (λ c, Z.lor c I8254_CTRL_RST)) ;;
  on_nic (wr IMC 0xFFFFFFFF) ;;
  on_nic (on_ctrl (λ c, Z.lor c I8254_CTRL_SLU)) ;;
  on_nic (on_ctrl (λ c, Z.land c (Z.lor (Z.lor (not32 I8254_CTRL_PHY_RST) (not32 I8254_CTRL_VME)) (not32 I8254_CTRL_ILOS)))) ;;
  p ← on_nic kalloc_page;
  modify (set_intr p 0) ;;
  _ ← on_nic (i8254_init_recv eeprom recv_ring);
  on_nic (i8254_init_send send_ring) ;;
  on_nic (wr IMC 0).
End nic.

(** The interrupt handler marks a word of memory. *)
Definition i8254_intr : B unit := modify (λ s, set_intr (intr_addr s) 0xEEEEEE s).

(** ** pci_init *)

Section scan.
(** [i8254_init(&dev)]. *)
Context (nic_init : pci_dev → B unit).

Definition pci_init_device (bus_num device_num function_num : Z) : B unit :=
  say (DeviceFound bus_num device_num function_num) ;;
  data ← pci_access_config bus_num device_num function_num 0;
  let device_id := Z.shiftr data 16 in
  let vendor_id := Z.land data 0xFFFF in
  say (Ids device_id vendor_id) ;;
  data ← pci_access_config bus_num device_num function_num 0x8;
  let base := Z.shiftr data 24 in
  let sub := Z.land (Z.shiftr data 16) 0xFF in
  let intf := Z.land (Z.shiftr data 8) 0xFF in
  let rev := Z.land data 0xFF in
  say (Classes base sub intf rev) ;;
  b0 ← pci_access_config bus_num device_num function_num 0x10;
  b1 ← pci_access_config bus_num device_num function_num 0x14;
  let d := PciDev (u8 bus_num) (u8 device_num) (u8 function_num) device_id vendor_id (u8 base) (u8 sub) (u8 intf) (u8 rev) b0 b1 in
  modify (set_dev d) ;;
  if (device_id =? I8254_DEVICE_ID) && (vendor_id =? I8254_VENDOR_ID) then
    say NicFound ;;
    data ← pci_access_config bus_num device_num function_num 0xF0;
    say (MessageControl data) ;;
    nic_init d
  else mret tt.

Definition pci_init : B unit :=
  for_ 256 0 (λ i, for_ 32 0 (λ j, for_ 8 0 (λ k,
    let '(i, j, k) := (Z.of_nat i, Z.of_nat j, Z.of_nat k) in
    data ← pci_access_config i j k 0;
    if negb (Z.land data 0xFFFF =? 0xFFFF) then pci_init_device i j k else mret tt))).
End scan.
End code.

(** ** Configuration space *)

Class PciBusOk (D : Type) `{PciBus D} := {
  pb_sel : D → Z;
  cfg : D → Z → Z;
  pb_select v d : pb_sel (outl_ 0xCF8 v d) = v ∧ cfg (outl_ 0xCF8 v d) = cfg d;
  pb_read d v d' : inl_ 0xCFC d = (v, d') → v = cfg d (pb_sel d) ∧ cfg d' = cfg d;
  pb_write v d a : a ≠ pb_sel d → cfg (outl_ 0xCFC v d) a = cfg d a;
}.

(** A configuration address as a number. *)
Lemma config_addr_value b d f r :
  0 <= b < 256 → 0 <= d < 32 → 0 <= f < 8 → 0 <= r < 256 → r mod 4 = 0 →
  config_addr b d f r = 2147483648 + b * 65536 + d * 2048 + f * 256 + r.
Proof.
  intros Hb Hd Hf Hr Hm. unfold config_addr. change 0xFF with (Z.ones 8). change 0x1F with (Z.ones 5). change 0x7 with (Z.ones 3).
  rewrite !Z.land_ones by lia. rewrite !Z.mod_small by (cbn; lia).
  assert (Er : Z.land r 0xFC = r).
  { assert (Hall : forallb (λ i, Z.land (4 * Z.of_nat i) 0xFC =? 4 * Z.of_nat i) (seq 0 64) = true) by (by vm_compute).
    assert (H4 : 0 <= r / 4 < 64) by dlia. rewrite forallb_forall in Hall. specialize (Hall (Z.to_nat (r / 4)) ltac:(apply in_seq; lia)). apply Z.eqb_eq in Hall.
    rewrite Z2Nat.id in Hall by dlia. replace (4 * (r / 4)) with r in Hall by dlia. done. }
  rewrite Er, !(Z.lor_comm _ 0x80000000), <- !Z.lor_assoc. change 0x80000000 with (Z.shiftl 1 31).
  rewrite (lor_low f 8 r), (lor_low d 11), (lor_low b 16), (lor_low 1 31) by lia. change (Z.shiftl 1 31) with 2147483648. lia.
Qed.

(** Different registers have different addresses. *)
Lemma config_addr_inj b d f r b' d' f' r' :
  0 <= b < 256 → 0 <= d < 32 → 0 <= f < 8 → 0 <= r < 256 → r mod 4 = 0 →
  0 <= b' < 256 → 0 <= d' < 32 → 0 <= f' < 8 → 0 <= r' < 256 → r' mod 4 = 0 →
  config_addr b d f r = config_addr b' d' f' r' → b = b' ∧ d = d' ∧ f = f' ∧ r = r'.
Proof. intros. rewrite !config_addr_value in * by done. lia. Qed.

Section scan_spec.
Context {D : Type} `{PciBus D} `{!PciBusOk D}.

Lemma pci_access_config_spec b d f r (s : pci D) :
  ∃ d', pci_access_config b d f r s = Ret (cfg (bus s) (config_addr b d f r)) (set_bus d' s) ∧ cfg d' = cfg (bus s).
Proof.
  unfold pci_access_config. rewrite (bind_Ret _ _ _ tt (set_bus (outl_ 0xCF8 (config_addr b d f r) (bus s)) s)) by done.
  unfold pci_read_config. cbn [bus set_bus]. destruct (inl_ 0xCFC _) as [v d'] eqn:E. destruct (pb_read _ _ _ E) as [-> Hc].
  destruct (pb_select (config_addr b d f r) (bus s)) as [Hs Hc']. exists d'. rewrite Hs, Hc'. split; [done|]. by rewrite Hc, Hc'.
Qed.

(** What the scan prints and passes on for one function. *)
Definition dev_at (c : Z → Z) (b d f : Z) : pci_dev :=
  let v := c (config_addr b d f 0) in
  let w := c (config_addr b d f 8) in
  PciDev b d f (Z.shiftr v 16) (Z.land v 0xFFFF) (u8 (Z.shiftr w 24)) (u8 (Z.land (Z.shiftr w 16) 0xFF)) (u8 (Z.land (Z.shiftr w 8) 0xFF)) (u8 (Z.land w 0xFF))
    (c (config_addr b d f 0x10)) (c (config_addr b d f 0x14)).
Definition is_nic (p : pci_dev) : bool := (device_id p =? I8254_DEVICE_ID) && (vendor_id p =? I8254_VENDOR_ID).

(** [says d] is what the driver prints when it is started on [d]. *)
Context (nic_init : pci_dev → M (pci D) unit) (says : pci_dev → list message).

(** The driver returns and changes nothing in configuration space but the
    command register. *)
Definition keeps_config (c c' : Z → Z) : Prop :=
  ∀ b d f r, 0 <= b < 256 → 0 <= d < 32 → 0 <= f < 8 → r ∈ [0; 8; 0x10; 0x14; 0xF0] → c' (config_addr b d f r) = c (config_addr b d f r).
Context (nic_returns : ∀ d s, ∃ s', nic_init d s = Ret tt s' ∧ printed s' = printed s ++ says d ∧ keeps_config (cfg (bus s)) (cfg (bus s'))).

Definition messages_of (c : Z → Z) (b d f : Z) : list message :=
  let p := dev_at c b d f in
  let w := c (config_addr b d f 8) in
  if vendor_id p =? 0xFFFF then [] else
  [DeviceFound b d f; Ids (device_id p) (vendor_id p);
   Classes (Z.shiftr w 24) (Z.land (Z.shiftr w 16) 0xFF) (Z.land (Z.shiftr w 8) 0xFF) (Z.land w 0xFF)] ++
  (if is_nic p then [NicFound; MessageControl (c (config_addr b d f 0xF0))] ++ says p else []).

Lemma pci_init_device_spec b d f s :
  0 <= b < 256 → 0 <= d < 32 → 0 <= f < 8 → vendor_id (dev_at (cfg (bus s)) b d f) ≠ 0xFFFF →
  ∃ s', pci_init_device nic_init b d f s = Ret tt s' ∧ printed s' = printed s ++ messages_of (cfg (bus s)) b d f ∧ keeps_config (cfg (bus s)) (cfg (bus s')).
Proof.
  intros Hb Hd Hf Hv. unfold pci_init_device, messages_of. rewrite (proj2 (Z.eqb_neq _ _)) by done. set (c := cfg (bus s)) in *.
  unfold say. rewrite (bind_Ret _ _ _ tt (Pci (bus s) (dev s) (base_addr s) (intr_addr s) (intr_word s) (nic s) (printed s ++ [DeviceFound b d f]))) by done.
  set (s1 := Pci _ _ _ _ _ _ _). destruct (pci_access_config_spec b d f 0 s1) as (d2 & E2 & C2). rewrite (bind_Ret _ _ _ _ _ E2). cbn zeta.
  change (bus s1) with (bus s). fold c. change (cfg (bus s1)) with c in C2. rewrite (bind_Ret _ _ _ tt _) by done. cbn [bus dev base_addr intr_addr intr_word nic printed set_bus s1].
  set (s3 := Pci _ _ _ _ _ _ _). destruct (pci_access_config_spec b d f 8 s3) as (d4 & E4 & C4). rewrite (bind_Ret _ _ _ _ _ E4).
  change (cfg (bus s3)) with (cfg d2) in *. rewrite C2 in *. rewrite (bind_Ret _ _ _ tt _) by done. cbn [bus dev base_addr intr_addr intr_word nic printed set_bus s3].
  set (s5 := Pci _ _ _ _ _ _ _). destruct (pci_access_config_spec b d f 0x10 s5) as (d6 & E6 & C6). rewrite (bind_Ret _ _ _ _ _ E6).
  change (cfg (bus s5)) with (cfg d4) in *. rewrite C4 in *.
  destruct (pci_access_config_spec b d f 0x14 (set_bus d6 s5)) as (d7 & E7 & C7). rewrite (bind_Ret _ _ _ _ _ E7). cbn [bus set_bus] in *. rewrite C6 in *.
  rewrite (bind_Ret _ _ _ tt _) by done. rewrite !u8_id by lia. set (p := PciDev b d f _ _ _ _ _ _ _ _). change (dev_at c b d f) with p in *.
  change (Z.shiftr (c (config_addr b d f 0)) 16) with (device_id p). change (Z.land (c (config_addr b d f 0)) 65535) with (vendor_id p). fold (is_nic p).
  destruct (is_nic p) eqn:En.
  - rewrite (bind_Ret _ _ _ tt _) by done. cbn [bus dev base_addr intr_addr intr_word nic printed set_bus set_dev s5]. set (s8 := Pci _ _ _ _ _ _ _).
    destruct (pci_access_config_spec b d f 0xF0 s8) as (d9 & E9 & C9). rewrite (bind_Ret _ _ _ _ _ E9), (bind_Ret _ _ _ tt _) by done.
    change (cfg (bus s8)) with (cfg d7) in *. rewrite C7 in *. cbn [bus dev base_addr intr_addr intr_word nic printed set_bus s8]. set (s10 := Pci _ _ _ _ _ _ _).
    destruct (nic_returns p s10) as (s' & E & Hpr & Hk). exists s'. split; [done|]. rewrite Hpr. subst s10. cbn [printed bus] in *. rewrite C9 in Hk.
    split; [by rewrite <- !app_assoc|done].
  - eexists. split; [done|]. cbn [printed bus set_bus set_dev s5]. split; [by rewrite <- !app_assoc|]. by rewrite C7.
Qed.

Lemma keeps_trans c c1 c2 : keeps_config c c1 → keeps_config c1 c2 → keeps_config c c2.
Proof. intros H1 H2 b d f r Hb Hd Hf Hr. by rewrite H2, H1. Qed.

Lemma messages_of_keeps c c' b d f :
  keeps_config c c' → 0 <= b < 256 → 0 <= d < 32 → 0 <= f < 8 → messages_of c' b d f = messages_of c b d f.
Proof. intros Hk Hb Hd Hf. unfold messages_of, dev_at. by rewrite !(Hk b d f) by (done || set_solver). Qed.

(** A loop whose rounds print. *)
Lemma for_prints c (body : nat → M (pci D) unit) out n : ∀ i s,
  keeps_config c (cfg (bus s)) →
  (∀ j t, (i <= j < i + n)%nat → keeps_config c (cfg (bus t)) →
    ∃ t', body j t = Ret tt t' ∧ printed t' = printed t ++ out j ∧ keeps_config c (cfg (bus t'))) →
  ∃ s', for_ n i body s = Ret tt s' ∧ printed s' = printed s ++ concat (out <$> seq i n) ∧ keeps_config c (cfg (bus s')).
Proof.
  induction n as [|n IH]; intros i s Hk Hb; cbn [for_ seq fmap list_fmap concat]; [by exists s; rewrite app_nil_r|].
  destruct (Hb i s) as (s1 & E1 & P1 & K1); [lia|done|]. rewrite (bind_Ret _ _ _ _ _ E1).
  destruct (IH (S i) s1 K1) as (s' & E & P & K); [intros j t Hj; apply Hb; lia|]. exists s'. rewrite P, P1, <- app_assoc. done.
Qed.

(** The scan finds every function that answers, in the order of its number, reads
    its identity, class and base addresses, and starts the driver on the network
    cards and on nothing else. *)
Theorem pci_init_finds s :
  let c := cfg (bus s) in
  ∃ s', pci_init nic_init s = Ret tt s' ∧ keeps_config c (cfg (bus s')) ∧
    printed s' = printed s ++
      concat ((λ b, concat ((λ d, concat ((λ f, messages_of c (Z.of_nat b) (Z.of_nat d) (Z.of_nat f)) <$> seq 0 8)) <$> seq 0 32)) <$> seq 0 256).
Proof.
  intros c. assert (Hc : keeps_config c c) by done. unfold pci_init.
  match goal with |- ∃ s', for_ 256 0 ?body s = _ ∧ _ ∧ _ = _ ++ concat (?out <$> _) => destruct (for_prints c body out 256 0 s Hc) as (s' & E & P & K) end;
    [|exists s'; by split_and!].
  intros b t Hb Ht. match goal with |- ∃ t', for_ 32 0 ?body t = _ ∧ _ = _ ++ concat (?out <$> _) ∧ _ => apply (for_prints c body out 32 0 t Ht) end.
  intros d t1 Hd Ht1. match goal with |- ∃ t', for_ 8 0 ?body t1 = _ ∧ _ = _ ++ concat (?out <$> _) ∧ _ => apply (for_prints c body out 8 0 t1 Ht1) end.
  intros f t2 Hf Ht2. cbn zeta beta iota.
  destruct (pci_access_config_spec (Z.of_nat b) (Z.of_nat d) (Z.of_nat f) 0 t2) as (d' & E & C). rewrite (bind_Ret _ _ _ _ _ E).
  rewrite <- (messages_of_keeps c (cfg (bus t2))) by (done || lia).
  destruct (negb _) eqn:Ev.
  - apply negb_true_iff, Z.eqb_neq in Ev. destruct (pci_init_device_spec (Z.of_nat b) (Z.of_nat d) (Z.of_nat f) (set_bus d' t2)) as (t' & E' & P' & K'); [lia..| |].
    { cbn [bus set_bus]. by rewrite C. }
    cbn [bus printed set_bus] in *. rewrite C in *. exists t'. split_and!; [done|done|by apply (keeps_trans c (cfg (bus t2)))].
  - apply negb_false_iff in Ev. exists (set_bus d' t2). split; [done|]. cbn [bus printed set_bus]. rewrite C. split; [|done].
    unfold messages_of. change (vendor_id (dev_at ?c ?b ?d ?f)) with (Z.land (c (config_addr b d f 0)) 0xFFFF). by rewrite Ev, app_nil_r.
Qed.
End scan_spec.

(** The driver's own changes of configuration space are in the command register,
    so that it may be called in the middle of the scan. *)
Lemma i8254_init_keeps_config {D} `{PciBus D} `{!PciBusOk D} eeprom rr sr d (s s' : pci D) :
  0 <= bus_num d < 256 → 0 <= device_num d < 32 → 0 <= function_num d < 8 →
  i8254_init eeprom rr sr d s = Ret tt s' → keeps_config (cfg (bus s)) (cfg (bus s')).
Proof.
  intros Hb Hd Hf E. unfold i8254_init in E.
  assert (Hnic : ∀ X (f : M net X) (t : pci D) x t', on_nic f t = Ret x t' → bus t' = bus t) by (intros X f t x t' Ef; unfold on_nic in Ef; destruct (f (nic t)); [|done..]; by injection Ef as _ <-).
  destruct (pci_access_config_spec (bus_num d) (device_num d) (function_num d) 4 s) as (d1 & E1 & C1). rewrite (bind_Ret _ _ _ _ _ E1) in E.
  set (a := config_addr (bus_num d) (device_num d) (function_num d) 4) in *.
  set (s1 := set_bus (outl_ 0xCFC (Z.lor (cfg (bus s) a) PCI_CMD_BUS_MASTER) (outl_ 0xCF8 a d1)) (set_bus d1 s)).
  rewrite (bind_Ret _ _ _ tt s1), (bind_Ret _ _ _ tt _) in E by done.
  assert (Hs : bus s' = bus s1).
  { apply bind_inv in E as (? & t1 & F1%Hnic & E). apply bind_inv in E as (? & t2 & F2%Hnic & E). apply bind_inv in E as (? & t3 & F3%Hnic & E).
    apply bind_inv in E as (? & t4 & F4%Hnic & E). apply bind_inv in E as (? & t5 & F5%Hnic & E). apply bind_inv in E as (? & t6 & F6%Hnic & E).
    apply bind_inv in E as (? & t7 & [= _ <-] & E). apply bind_inv in E as (? & t8 & F8%Hnic & E). apply bind_inv in E as (? & t9 & F9%Hnic & E).
    apply Hnic in E. cbn [bus set_intr set_base] in *. congruence. }
  intros b' d' f' r Hb' Hd' Hf' Hr. rewrite Hs. cbn [bus set_bus s1]. destruct (pb_select a d1) as [Hsel Hcfg]. rewrite pb_write; [by rewrite Hcfg, C1|].
  assert (Hr' : 0 <= r < 256 ∧ r mod 4 = 0 ∧ r ≠ 4) by (repeat (apply elem_of_cons in Hr as [->|Hr]; [done|]); by apply elem_of_nil in Hr).
  rewrite Hsel. intros Ea. apply config_addr_inj in Ea as (_ & _ & _ & Er); (done || by apply Hr').
Qed.

(** The mask that should clear three bits of the control register is all ones. *)
Lemma ctrl_mask_clears_nothing :
  Z.lor (Z.lor (not32 I8254_CTRL_PHY_RST) (not32 I8254_CTRL_VME)) (not32 I8254_CTRL_ILOS) = 0xFFFFFFFF.
Proof. done. Qed.

(** ** A bus with one network card *)

Record toy_bus := ToyBus { tb_sel : Z; tb_cfg : gmap Z Z }.
#[export] Instance toy_pci : PciBus toy_bus := {|
  inl_ p t := (default 0xFFFFFFFF (tb_cfg t !! tb_sel t), t);
  outl_ p v t := if p =? 0xCF8 then ToyBus v (tb_cfg t) else ToyBus (tb_sel t) (<[tb_sel t := v]> (tb_cfg t));
|}.
#[export] Program Instance toy_pci_ok : PciBusOk toy_bus := {| pb_sel := tb_sel; cfg t a := default 0xFFFFFFFF (tb_cfg t !! a) |}.
Next Obligation. done. Qed.
Next Obligation. intros d v d' E. cbn in E. by injection E as <- <-. Qed.
Next Obligation. intros v d a Ha. change (default 4294967295 (<[tb_sel d := v]> (tb_cfg d) !! a) = default 4294967295 (tb_cfg d !! a)). by rewrite lookup_insert_ne. Qed.

(** Bus 0, device 3, function 0. *)
Definition toy_machine : pci toy_bus :=
  Pci (ToyBus 0 (<[config_addr 0 3 0 0 := 0x100E8086]> (<[config_addr 0 3 0 0x10 := 0x81000000]> ∅))) (PciDev 0 0 0 0 0 0 0 0 0 0 0) 0 0 0
    (Net [] [] 0 0 0 0 ∅ [] [] []) [].

Lemma pci_init_finds_witness :
  ∃ s', pci_init (λ _, mret tt) toy_machine = Ret tt s' ∧
    [DeviceFound 0 3 0; Ids 0x100E 0x8086; Classes 0xFF 0xFF 0xFF 0xFF; NicFound; MessageControl 0xFFFFFFFF] `sublist_of` printed s'.
Proof.
  destruct (pci_init_finds (λ _, mret tt) (λ _, []) ltac:(intros d s; exists s; split; [done|]; by rewrite app_nil_r) toy_machine) as (s' & E & _ & P).
  exists s'. split; [exact E|]. rewrite P. cbn [printed toy_machine app].
  assert (Hin : ∀ (X : Type) (f : nat → list X) n k l, (k < n)%nat → l `sublist_of` f k → l `sublist_of` concat (f <$> seq 0 n)).
  { intros X f n k l Hk Hl. rewrite <- (Nat.sub_add k n), Nat.add_comm, seq_app, fmap_app, concat_app by lia.
    apply sublist_inserts_l. destruct (n - k)%nat as [|m] eqn:Em; [lia|]. cbn. by apply sublist_inserts_r. }
  apply (Hin _ _ _ 0%nat); [lia|]. apply (Hin _ _ _ 3%nat); [lia|]. apply (Hin _ _ _ 0%nat); [lia|]. vm_compute. repeat constructor.
Defined.
