(* ===== verification/MpUefi.v ===== *)
(** * Finding the processors: mp_uefi.c

    [mpinit_uefi] walks the MADT, the table in which the firmware lists local
    APICs (one per CPU) and I/O APICs.  The table is the list of its bytes;
    reading behind it is a [Fault]. *)

From S2P Require Import Prelude Param.

(** [sizeof(struct uefi_madt)], and the offsets of [len] and [lapic_addr]. *)
Definition sizeof_madt : nat := 44.
Definition MADT_LEN : nat := 4.
Definition MADT_LAPIC_ADDR : nat := 36.

(** [lapic], [ncpu], the [apicid] of each of [cpus], and [ioapicid]. *)
Record mps := Mps { mp_lapic : Z; ncpu : Z; apicids : list Z; ioapicid : Z }.

Section madt.
(** The bytes of the table. *)
Context (madt : list Z).

Definition madt_len : Z := get_le MADT_LEN 4 madt.
Definition madt_byte (i : Z) : M mps Z := of_option (madt !! Z.to_nat i).

(** The loop from offset [i] on; an entry of a type the [switch] does not know
    leaves [i] as it is. *)
Fixpoint madt_loop (fuel : nat) (i : Z) : M mps unit :=
  if madt_len <=? i then mret tt else
  match fuel with
  | O => diverge
  | S fuel =>
      t ← madt_byte i;
      if t =? 0 then
        id ← madt_byte (i + 3);
        modify (λ s, if ncpu s <? Z.of_nat NCPU then Mps (mp_lapic s) (ncpu s + 1) (<[Z.to_nat (ncpu s) := id]> (apicids s)) (ioapicid s) else s) ;;
        len ← madt_byte (i + 1);
        madt_loop fuel (u32 (i + len))
      else if t =? 1 then
        id ← madt_byte (i + 2);
        modify (λ s, Mps (mp_lapic s) (ncpu s) (apicids s) id) ;;
        len ← madt_byte (i + 1);
        madt_loop fuel (u32 (i + len))
      else if (t =? 2) || (t =? 4) then
        len ← madt_byte (i + 1);
        madt_loop fuel (u32 (i + len))
      else if t =? 5 then madt_loop fuel (u32 (i + 0xC))
      else madt_loop fuel i
  end.

Definition mpinit_uefi (fuel : nat) : M mps unit :=
  modify (λ s, Mps (get_le MADT_LAPIC_ADDR 4 madt) 0 (apicids s) (ioapicid s)) ;;
  madt_loop fuel (Z.of_nat sizeof_madt).
End madt.

(** ** What it finds *)

(** An entry the loop knows: its type, its length in the second byte, and room
    for the fields read. *)
Definition entry_ok (e : list Z) : Prop :=
  (e !! 0%nat ∈ [Some 0; Some 1; Some 2; Some 4] ∧ e !! 1%nat = Some (Z.of_nat (length e)) ∨ e !! 0%nat = Some 5 ∧ length e = 12%nat) ∧
  (4 <= length e)%nat.

(** The local APIC ids and the I/O APIC ids, in order. *)
Definition lapic_id (e : list Z) : option Z := if decide (e !! 0%nat = Some 0) then e !! 3%nat else None.
Definition ioapic_id (e : list Z) : option Z := if decide (e !! 0%nat = Some 1) then e !! 2%nat else None.

(** [cpus] and [ncpu] after ids [ids], from [n] CPUs. *)
Definition add_cpu (s : mps) (id : Z) : mps :=
  if ncpu s <? Z.of_nat NCPU then Mps (mp_lapic s) (ncpu s + 1) (<[Z.to_nat (ncpu s) := id]> (apicids s)) (ioapicid s) else s.
Definition see_entry (s : mps) (e : list Z) : mps :=
  match lapic_id e, ioapic_id e with
  | Some id, _ => add_cpu s id
  | None, Some id => Mps (mp_lapic s) (ncpu s) (apicids s) id
  | None, None => s
  end.

Lemma madt_byte_in madt pre e rest k v i s :
  madt = pre ++ e ++ rest → e !! k = Some v → i = Z.of_nat (length pre) + Z.of_nat k → madt_byte madt i s = Ret v s.
Proof.
  intros -> Hk ->. unfold madt_byte. rewrite <- Nat2Z.inj_add, Nat2Z.id, lookup_app_r by lia.
  replace (length pre + k - length pre)%nat with k by lia. by rewrite lookup_app_l, Hk by (by apply lookup_lt_Some in Hk).
Qed.

Lemma bind_modify {A} f (k : unit → M mps A) s : (modify f ≫= k) s = k tt (f s).
Proof. done. Qed.

(** One entry: the state it leaves, and the loop goes on behind it. *)
Lemma madt_entry madt pre e rest fuel s :
  madt = pre ++ e ++ rest → entry_ok e → madt_len madt = Z.of_nat (length madt) →
  madt_loop madt (S fuel) (Z.of_nat (length pre)) s =
  madt_loop madt fuel (u32 (Z.of_nat (length pre) + Z.of_nat (length e))) (see_entry s e).
Proof.
  intros Em [He H4] Hlen. cbn [madt_loop]. rewrite Hlen, (proj2 (Z.leb_gt _ _)) by (rewrite Em, !length_app; lia).
  destruct (lookup_lt_is_Some_2 e 3 ltac:(lia)) as [id3 H3]. destruct (lookup_lt_is_Some_2 e 2 ltac:(lia)) as [id2 H2].
  assert (Hget : ∀ k v s, e !! k = Some v → madt_byte madt (Z.of_nat (length pre) + Z.of_nat k) s = Ret v s).
  { intros k v s' Hk. by apply (madt_byte_in madt pre e rest k). }
  pose proof (Hget 0%nat) as G0. rewrite Z.add_0_r in G0. pose proof (Hget 1%nat) as G1.
  pose proof (Hget 2%nat) as G2. pose proof (Hget 3%nat) as G3. clear Hget.
  change (Z.of_nat 1) with 1 in G1. change (Z.of_nat 2) with 2 in G2. change (Z.of_nat 3) with 3 in G3. unfold see_entry, lapic_id, ioapic_id.
  assert (Hcase : ∃ t, e !! 0%nat = Some t ∧ (t ∈ [0; 1; 2; 4] ∧ e !! 1%nat = Some (Z.of_nat (length e)) ∨ t = 5 ∧ length e = 12%nat)).
  { destruct He as [[Ht H1]|[Ht Hl]]; [|by eauto 10]. repeat (apply elem_of_cons in Ht as [Ht|Ht]; [rewrite Ht; eexists; split; [reflexivity|]; left; split; [set_solver|done]|]). by apply not_elem_of_nil in Ht. }
  destruct Hcase as (t & Ht & Hcase). rewrite (bind_Ret _ _ _ _ _ (G0 t s Ht)), Ht, H3, H2. destruct Hcase as [[Hin H1]|[-> Hl]].
  - repeat (apply elem_of_cons in Hin as [->|Hin]); [..|by apply not_elem_of_nil in Hin]; cbn [Z.eqb Pos.eqb orb].
    + rewrite decide_True by done. rewrite (bind_Ret _ _ _ _ _ (G3 _ s H3)), bind_modify, (bind_Ret _ _ _ _ _ (G1 _ _ H1)). done.
    + rewrite decide_False, decide_True by done. rewrite (bind_Ret _ _ _ _ _ (G2 _ s H2)), bind_modify, (bind_Ret _ _ _ _ _ (G1 _ _ H1)). done.
    + rewrite !decide_False by done. by rewrite (bind_Ret _ _ _ _ _ (G1 _ _ H1)).
    + rewrite !decide_False by done. by rewrite (bind_Ret _ _ _ _ _ (G1 _ _ H1)).
  - cbn [Z.eqb Pos.eqb orb]. rewrite !decide_False by done. by rewrite Hl.
Qed.

Lemma madt_loop_spec madt pre es fuel s :
  madt = pre ++ concat es → Forall entry_ok es → madt_len madt = Z.of_nat (length madt) → Z.of_nat (length madt) < 4294967296 →
  (length es <= fuel)%nat → madt_loop madt fuel (Z.of_nat (length pre)) s = Ret tt (foldl see_entry s es).
Proof.
  intros Em Hes Hlen Hmax. revert pre fuel s Em. induction Hes as [|e es He _ IH]; intros pre fuel s Em Hf.
  { destruct fuel; cbn [madt_loop]; rewrite Hlen, Em, app_nil_r, Z.leb_refl; done. }
  cbn [concat length foldl] in *. destruct fuel as [|fuel]; [lia|]. rewrite (madt_entry madt pre e (concat es)) by done.
  assert (length madt = (length pre + (length e + length (concat es)))%nat) by (by rewrite Em, !length_app).
  rewrite u32_id, <- Nat2Z.inj_add, <- length_app by lia. apply IH; [by rewrite <- app_assoc|lia].
Qed.

(** The processors among the entries, the first [NCPU] of them. *)
Lemma see_entries es s :
  0 <= ncpu s → length (apicids s) = NCPU →
  let ids := omap lapic_id es in
  ncpu (foldl see_entry s es) = Z.max (ncpu s) (Z.min (Z.of_nat NCPU) (ncpu s + Z.of_nat (length ids))) ∧
  (∀ k id, ids !! k = Some id → (Z.to_nat (ncpu s) + k < NCPU)%nat → apicids (foldl see_entry s es) !! (Z.to_nat (ncpu s) + k)%nat = Some id) ∧
  (∀ j, (j < Z.to_nat (ncpu s))%nat → apicids (foldl see_entry s es) !! j = apicids s !! j) ∧
  ioapicid (foldl see_entry s es) = default (ioapicid s) (last (omap ioapic_id es)) ∧
  mp_lapic (foldl see_entry s es) = mp_lapic s.
Proof.
  revert s. induction es as [|e es IH]; intros s Hn Hl; cbn [foldl omap list_omap].
  { cbn [length]. split_and!; try done. lia. }
  unfold see_entry at 2 4 6 8 10. destruct (lapic_id e) as [id|] eqn:El.
  - assert (Ei : ioapic_id e = None).
    { unfold lapic_id, ioapic_id in *. destruct (decide (e !! 0%nat = Some 0)) as [E|]; [|done]. by rewrite decide_False by (rewrite E; done). }
    rewrite Ei. unfold add_cpu. destruct (ncpu s <? Z.of_nat NCPU) eqn:E.
    + destruct (IH (Mps (mp_lapic s) (ncpu s + 1) (<[Z.to_nat (ncpu s):=id]> (apicids s)) (ioapicid s))) as (I1 & I2 & I3 & I4 & I5); cbn [ncpu apicids ioapicid mp_lapic] in *; [lia|by rewrite length_insert|].
      split_and!; [rewrite I1; cbn [length]; lia| | |done|done].
      * intros k id' Hk Hlt. destruct k as [|k]; cbn in Hk; simplify_eq.
        -- rewrite Nat.add_0_r, I3, list_lookup_insert_eq by lia. done.
        -- replace (Z.to_nat (ncpu s) + S k)%nat with (Z.to_nat (ncpu s + 1) + k)%nat in * by lia. by apply I2.
      * intros j Hj. rewrite I3, list_lookup_insert_ne by lia. done.
    + destruct (IH s Hn Hl) as (I1 & I2 & I3 & I4 & I5). split_and!; [rewrite I1; cbn [length]; lia| |done|done|done].
      intros k id' Hk Hlt. lia.
  - destruct (ioapic_id e) as [id|] eqn:Ei; [|by apply IH].
    destruct (IH (Mps (mp_lapic s) (ncpu s) (apicids s) id) Hn Hl) as (I1 & I2 & I3 & I4 & I5). cbn [ncpu apicids ioapicid mp_lapic] in *.
    split_and!; try done. rewrite I4, last_cons. by destruct (last (omap ioapic_id es)).
Qed.

(** C40: finding the processors in the firmware's table.  On a table whose
    entries are of the types the loop knows, [mpinit_uefi] returns after one
    round per entry; [ncpu] is the number of local APIC entries, at most
    [NCPU], [cpus] has their ids in order, and [ioapicid] is that of the last
    I/O APIC entry. *)
Theorem mpinit_finds_cpus madt hdr es s fuel :
  madt = hdr ++ concat es → length hdr = sizeof_madt → Forall entry_ok es →
  madt_len madt = Z.of_nat (length madt) → Z.of_nat (length madt) < 4294967296 →
  length (apicids s) = NCPU → (length es <= fuel)%nat →
  ∃ s', mpinit_uefi madt fuel s = Ret tt s' ∧
    ncpu s' = Z.min (Z.of_nat NCPU) (Z.of_nat (length (omap lapic_id es))) ∧
    (∀ k id, omap lapic_id es !! k = Some id → (k < NCPU)%nat → apicids s' !! k = Some id) ∧
    ioapicid s' = default (ioapicid s) (last (omap ioapic_id es)) ∧
    mp_lapic s' = get_le MADT_LAPIC_ADDR 4 madt.
Proof.
  intros Em Hh Hes Hlen Hmax Hl Hf. set (s1 := Mps (get_le MADT_LAPIC_ADDR 4 madt) 0 (apicids s) (ioapicid s)).
  exists (foldl see_entry s1 es). split.
  - unfold mpinit_uefi. rewrite bind_modify, <- Hh. by apply madt_loop_spec.
  - destruct (see_entries es s1 ltac:(done) Hl) as (I1 & I2 & I3 & I4 & I5). cbn [ncpu apicids ioapicid mp_lapic s1] in *.
    split_and!; [lia|done|done|done].
Qed.

(** An entry of another type is never left: the loop runs for ever. *)
Lemma madt_unknown_type_hangs madt i s fuel :
  0 <= i < madt_len madt → (∃ t, madt !! Z.to_nat i = Some t ∧ t ∉ [0; 1; 2; 4; 5]) → madt_loop madt fuel i s = Diverge.
Proof.
  intros Hi (t & Ht & Hn). induction fuel as [|fuel IH]; cbn [madt_loop]; rewrite (proj2 (Z.leb_gt _ _)) by lia; [done|].
  assert (E : madt_byte madt i s = Ret t s) by (unfold madt_byte; by rewrite Ht). rewrite (bind_Ret _ _ _ _ _ E).
  rewrite !(proj2 (Z.eqb_neq t _)) by (intros ->; apply Hn; set_solver). exact IH.
Qed.

(** Two CPUs, the second disabled (flags 0), and an I/O APIC. *)
Definition example_hdr : list Z :=
  [65; 80; 73; 67] ++ le_bytes 4 72 ++ replicate 28 0 ++ le_bytes 4 0xFEE00000 ++ le_bytes 4 1.
Definition example_entries : list (list Z) :=
  [[0; 8; 0; 0; 1; 0; 0; 0]; [0; 8; 1; 1; 0; 0; 0; 0]; [1; 12; 7; 0; 0; 0; 0xC0; 0xFE; 0; 0; 0; 0]].

Lemma mpinit_finds_cpus_witness :
  ∃ s', mpinit_uefi (example_hdr ++ concat example_entries) 3 (Mps 0 0 (replicate NCPU 0) 0) = Ret tt s' ∧ ncpu s' = 2 ∧ ioapicid s' = 7.
Proof.
  destruct (mpinit_finds_cpus (example_hdr ++ concat example_entries) example_hdr example_entries (Mps 0 0 (replicate NCPU 0) 0) 3)
    as (s' & E & Hn & _ & Hi & _).
  - reflexivity.
  - reflexivity.
  - repeat constructor; try (left; split; [set_solver|reflexivity]); cbn; lia.
  - reflexivity.
  - reflexivity.
  - reflexivity.
  - cbn. lia.
  - exists s'. split; [exact E|]. split; [rewrite Hn; reflexivity|rewrite Hi; reflexivity].
Defined.
