(* ===== verification/Loader.v ===== *)
(** * The UEFI loader: relocate.c and file_loader.c of MyLoaderPkg

    [RelocateELF] reads the kernel's ELF file through the firmware and copies
    its segments to their physical addresses.  The firmware is a parameter, the
    class [Firmware]; [FirmwareOk] states what the UEFI specification says of
    the services used.  Memory is a map from the addresses of the pages the
    firmware has handed out to bytes: touching any other address is a [Fault].
    Messages on the console are left out.  Also [set_gdt] of loader.c. *)

From S2P Require Import Prelude.

Definition u64 (x : Z) : Z := x mod 18446744073709551616.
Definition EFI_ERROR (st : Z) : bool := 9223372036854775808 <=? st.
Definition PT_LOAD : Z := 1.

(** Fields of [Elf32_Ehdr] and [Elf32_Phdr]. *)
Definition e_entry (d : list Z) : Z := get_le 24 4 d.
Definition e_phoff (d : list Z) : Z := get_le 28 4 d.
Definition e_phnum (d : list Z) : Z := get_le 44 2 d.
Definition sizeof_Ehdr : nat := 52.
Record Phdr := MkPhdr { p_type : Z; p_offset : Z; p_paddr : Z; p_filesz : Z; p_memsz : Z; p_align : Z }.
Definition sizeof_Phdr : nat := 32.
Definition phdr_of (d : list Z) : Phdr :=
  MkPhdr (get_le 0 4 d) (get_le 4 4 d) (get_le 12 4 d) (get_le 16 4 d) (get_le 20 4 d) (get_le 28 4 d).

(** The services: each returns a status first.  The page allocators also tell
    what the pages contain. *)
Class Firmware (F : Type) := {
  LocateProtocol : F → Z * F;
  OpenVolume : F → Z * F;
  Open : list Z → F → Z * F;
  GetInfo : F → Z * Z * F;
  AllocateAnyPages : Z → F → Z * Z * list Z * F;
  AllocateAddress : Z → Z → F → Z * list Z * F;
  Read : Z → F → Z * list Z * F;
  FreePages : Z → Z → F → F;
}.

Record ld (F : Type) := Ld { lmem : gmap Z Z; fw : F }.
Arguments Ld {F} lmem fw.
Arguments lmem {F} l.
Arguments fw {F} l.

(** Bytes in memory. *)
Definition bytes_at (a : Z) (n : nat) (m : gmap Z Z) : option (list Z) := mapM (λ k, m !! (a + Z.of_nat k)) (seq 0 n).
Fixpoint set_bytes (a : Z) (l : list Z) (m : gmap Z Z) : gmap Z Z :=
  match l with
  | [] => m
  | x :: l => set_bytes (a + 1) l (<[a := x]> m)
  end.
Definition drop_bytes (a : Z) (n : nat) (m : gmap Z Z) : gmap Z Z :=
  filter (λ p, ¬ (a <= p.1 < a + Z.of_nat n)) m.

Section loader.
Context {F : Type} `{Firmware F}.

Definition call {A} (f : F → A * F) : M (ld F) A := λ s, let '(r, g) := f (fw s) in Ret r (Ld (lmem s) g).
Definition mem_read (a : Z) (n : nat) : M (ld F) (list Z) := λ s, of_option (bytes_at a n (lmem s)) s.
Definition CopyMem_to (a : Z) (l : list Z) : M (ld F) unit :=
  λ s, match bytes_at a (length l) (lmem s) with Some _ => Ret tt (Ld (set_bytes a l (lmem s)) (fw s)) | None => Fault end.
Definition CopyMem (dst src : Z) (n : nat) : M (ld F) unit := l ← mem_read src n; CopyMem_to dst l.
Definition SetMem (dst : Z) (n : nat) (v : Z) : M (ld F) unit := CopyMem_to dst (replicate n v).
Definition new_pages (a : Z) (l : list Z) : M (ld F) unit := modify (λ s, Ld (set_bytes a l (lmem s)) (fw s)).

(** The address and the number of pages, or the status of the call that failed. *)
Definition LoadFile (FileName : list Z) : M (ld F) (Z + Z * Z) :=
  st ← call LocateProtocol;
  if EFI_ERROR st then mret (inl st) else
  st ← call OpenVolume;
  if EFI_ERROR st then mret (inl st) else
  st ← call (Open FileName);
  if EFI_ERROR st then mret (inl st) else
  r ← call GetInfo;
  if EFI_ERROR r.1 then mret (inl r.1) else
  let FileSize := r.2 in
  let FilePageSize := u64 (FileSize + 4095) / 4096 in
  a ← call (AllocateAnyPages FilePageSize);
  if EFI_ERROR a.1.1 then mret (inl a.1.1) else
  let FileAddr := a.1.2 in
  new_pages FileAddr a.2 ;;
  r ← call (Read FileSize);
  if EFI_ERROR r.1 then mret (inl r.1) else
  CopyMem_to FileAddr r.2 ;;
  mret (inr (FileAddr, FilePageSize)).

Definition read_phdr (tab : Z) (i : nat) : M (ld F) Phdr :=
  d ← mem_read (u64 (tab + Z.of_nat (sizeof_Phdr * i))) sizeof_Phdr; mret (phdr_of d).

(** [end_address] of a segment, rounded up to its alignment. *)
Definition segment_end (p : Phdr) : Z :=
  let mask := u32 (p_align p - 1) in
  Z.land (u64 (p_paddr p + p_memsz p + mask)) (Z.lxor 18446744073709551615 mask).

(** The first loop: the range all segments lie in. *)
Fixpoint extent (n i : nat) (tab : Z) (acc : option (Z * Z)) : M (ld F) (option (Z * Z)) :=
  match n with
  | O => mret acc
  | S n =>
      p ← read_phdr tab i;
      extent n (S i) tab
        (if p_type p =? PT_LOAD then
           match acc with
           | None => Some (p_paddr p, segment_end p)
           | Some (lo, hi) => Some ((if p_paddr p <? lo then p_paddr p else lo), (if hi <? segment_end p then segment_end p else hi))
           end
         else acc)
  end.

(** The second loop: copy and clear each segment. *)
Fixpoint load_segments (n i : nat) (tab buf : Z) : M (ld F) unit :=
  match n with
  | O => mret tt
  | S n =>
      p ← read_phdr tab i;
      (if p_type p =? PT_LOAD then
         CopyMem (p_paddr p) (u64 (buf + p_offset p)) (Z.to_nat (p_filesz p)) ;;
         when (p_filesz p <? p_memsz p) (SetMem (u64 (p_paddr p + p_filesz p)) (Z.to_nat (p_memsz p - p_filesz p)) 0)
       else mret tt) ;;
      load_segments n (S i) tab buf
  end.

(** The kernel's entry point, or the status of the call that failed.  Without a
    segment to load the range is not initialised. *)
Definition RelocateELF (KernelPath : list Z) : M (ld F) (Z + Z) :=
  r ← LoadFile KernelPath;
  match r with
  | inl st => mret (inl st)
  | inr (BufferAddress, BufferPageSize) =>
      Ehdr ← mem_read BufferAddress sizeof_Ehdr;
      let tab := u64 (BufferAddress + e_phoff Ehdr) in
      let n := Z.to_nat (e_phnum Ehdr) in
      r ← extent n 0 tab None;
      match r with
      | None => fault
      | Some (lo, hi) =>
          let page_size := u64 (hi - lo) / 4096 + 1 in
          a ← call (AllocateAddress lo page_size);
          if EFI_ERROR a.1 then mret (inl a.1) else
          new_pages lo a.2 ;;
          load_segments n 0 tab BufferAddress ;;
          Ehdr ← mem_read BufferAddress sizeof_Ehdr;
          modify (λ s, Ld (drop_bytes BufferAddress (Z.to_nat (BufferPageSize * 4096)) (lmem s)) (FreePages BufferAddress BufferPageSize (fw s))) ;;
          mret (inr (e_entry Ehdr))
      end
  end.
End loader.

(** ** What the firmware promises *)

(** [held] are the addresses of the pages handed out, [volume] the files of the
    volume by name and [opened] the name of the file opened last. *)
Class FirmwareOk (F : Type) `{Firmware F} := {
  held : F → Z → Prop;
  volume : F → list Z → list Z;
  opened : F → list Z;
  fw_locate f st f' : LocateProtocol f = (st, f') → volume f' = volume f ∧ ∀ x, held f' x ↔ held f x;
  fw_volume f st f' : OpenVolume f = (st, f') → volume f' = volume f ∧ ∀ x, held f' x ↔ held f x;
  fw_open n f st f' : Open n f = (st, f') → volume f' = volume f ∧ (∀ x, held f' x ↔ held f x) ∧ (EFI_ERROR st = false → opened f' = n);
  fw_info f st z f' : GetInfo f = (st, z, f') → volume f' = volume f ∧ opened f' = opened f ∧ (∀ x, held f' x ↔ held f x) ∧
    (EFI_ERROR st = false → z = Z.of_nat (length (volume f (opened f))));
  fw_any n f st a l f' : AllocateAnyPages n f = (st, a, l, f') → EFI_ERROR st = false →
    volume f' = volume f ∧ opened f' = opened f ∧ Z.of_nat (length l) = n * 4096 ∧ 0 <= a ∧ a + n * 4096 < 18446744073709551616 ∧
    (∀ x, a <= x < a + n * 4096 → ¬ held f x) ∧ (∀ x, held f' x ↔ held f x ∨ a <= x < a + n * 4096);
  fw_address a n f st l f' : AllocateAddress a n f = (st, l, f') → EFI_ERROR st = false →
    volume f' = volume f ∧ Z.of_nat (length l) = n * 4096 ∧ (∀ x, a <= x < a + n * 4096 → ¬ held f x) ∧
    (∀ x, held f' x ↔ held f x ∨ a <= x < a + n * 4096);
  fw_read n f st l f' : Read n f = (st, l, f') → volume f' = volume f ∧ (∀ x, held f' x ↔ held f x) ∧
    (EFI_ERROR st = false → l = take (Z.to_nat n) (volume f (opened f)));
}.

(** ** Memory lemmas *)

Lemma lookup_set_bytes a l m x :
  set_bytes a l m !! x = if decide (a <= x < a + Z.of_nat (length l)) then l !! Z.to_nat (x - a) else m !! x.
Proof.
  revert a m. induction l as [|y l IH]; intros a m; cbn [set_bytes length]; [rewrite decide_False by lia; done|].
  rewrite IH. destruct (decide (x = a)) as [->|Hne].
  - rewrite decide_False, decide_True, Z.sub_diag, lookup_insert_eq by lia. done.
  - destruct (decide (a + 1 <= x < a + 1 + Z.of_nat (length l))).
    + rewrite decide_True by lia. replace (Z.to_nat (x - a)) with (S (Z.to_nat (x - (a + 1)))) by lia. done.
    + rewrite decide_False by lia. by rewrite lookup_insert_ne.
Qed.

Lemma lookup_drop_bytes a n m x :
  drop_bytes a n m !! x = if decide (a <= x < a + Z.of_nat n) then None else m !! x.
Proof.
  unfold drop_bytes. case_decide as Hx.
  - apply map_lookup_filter_None. right. intros v _ Hv. by apply Hv.
  - destruct (m !! x) as [v|] eqn:E.
    + by apply map_lookup_filter_Some.
    + apply map_lookup_filter_None. by left.
Qed.

(** [l] lies at [a]. *)
Definition at_mem (m : gmap Z Z) (a : Z) (l : list Z) : Prop := ∀ k x, l !! k = Some x → m !! (a + Z.of_nat k) = Some x.

Lemma bytes_at_Some a n m l : length l = n → (bytes_at a n m = Some l ↔ at_mem m a l).
Proof.
  intros Hl. unfold bytes_at. rewrite mapM_Some. split.
  - intros Hf k x Hx. pose proof (lookup_lt_Some _ _ _ Hx) as Hk. destruct (Forall2_lookup_r _ _ _ _ _ Hf Hx) as (j & Hj & E).
    rewrite lookup_seq_lt in Hj by lia. injection Hj as <-. exact E.
  - intros Ha. apply Forall2_same_length_lookup. rewrite length_seq. split; [done|]. intros k j x Hj Hx.
    apply lookup_seq in Hj as [-> _]. by apply Ha.
Qed.

Lemma at_mem_slice m a l off n : at_mem m a l → (off + n <= length l)%nat → at_mem m (a + Z.of_nat off) (slice off n l).
Proof.
  intros Ha Hl k x Hx. unfold slice in Hx. apply lookup_take_Some in Hx as [Hx Hk]. rewrite lookup_drop in Hx.
  apply Ha in Hx. rewrite <- Hx. f_equal. lia.
Qed.

Section spec.
Context {F : Type} `{FirmwareOk F}.
Implicit Types s : ld F.

(** The bytes of the model are in pages the firmware handed out. *)
Definition owned s : Prop := ∀ x v, lmem s !! x = Some v → held (fw s) x.

Lemma mem_read_spec a n l s (Q : list Z → ld F → Prop) :
  at_mem (lmem s) a l → length l = n → Q l s → wp (mem_read a n) Q s.
Proof. intros Ha Hl HQ. unfold wp, mem_read. rewrite (proj2 (bytes_at_Some a n (lmem s) l Hl) Ha). done. Qed.

Lemma CopyMem_to_spec a l s (Q : unit → ld F → Prop) :
  (∀ x, a <= x < a + Z.of_nat (length l) → is_Some (lmem s !! x)) → Q tt (Ld (set_bytes a l (lmem s)) (fw s)) → wp (CopyMem_to a l) Q s.
Proof.
  intros Hx HQ. unfold wp, CopyMem_to. destruct (bytes_at a (length l) (lmem s)) as [l'|] eqn:E; [done|].
  exfalso. unfold bytes_at in E. apply mapM_None in E. apply Exists_exists in E as (k & Hk & E). apply elem_of_seq in Hk.
  destruct (Hx (a + Z.of_nat k)) as [v Hv]; [lia|]. congruence.
Qed.

(** What [LoadFile] leaves: the file in pages of its own. *)
Record file_loaded s (file : list Z) (a n : Z) s' : Prop := {
  fl_file : at_mem (lmem s') a file;
  fl_owned : owned s';
  fl_range : 0 <= a ∧ a + n * 4096 < 18446744073709551616 ∧ Z.of_nat (length file) <= n * 4096;
  fl_pages x : a <= x < a + n * 4096 → held (fw s') x;
  fl_keep x : ¬ (a <= x < a + n * 4096) → lmem s' !! x = lmem s !! x;
  fl_fresh x : a <= x < a + n * 4096 → lmem s !! x = None;
}.

Lemma LoadFile_spec s path :
  owned s → Z.of_nat (length (volume (fw s) path)) < 4294967296 →
  wp (LoadFile path) (λ r s', match r with inl st => EFI_ERROR st = true | inr (a, n) => file_loaded s (volume (fw s) path) a n s' end) s.
Proof.
  intros Ho Hsz. set (file := volume (fw s) path) in *. unfold LoadFile. rewrite wp_bind. unfold call at 1, wp at 1.
  destruct (LocateProtocol (fw s)) as [st0 f0] eqn:E0. destruct (fw_locate _ _ _ E0) as (V0 & H0').
  destruct (EFI_ERROR st0) eqn:X0; [by rewrite wp_ret|]. rewrite wp_bind. unfold call at 1, wp at 1. cbn [fw lmem].
  destruct (OpenVolume f0) as [st1 f1] eqn:E1. destruct (fw_volume _ _ _ E1) as (V1 & H1').
  destruct (EFI_ERROR st1) eqn:X1; [by rewrite wp_ret|]. rewrite wp_bind. unfold call at 1, wp at 1. cbn [fw lmem].
  destruct (Open path f1) as [st2 f2] eqn:E2. destruct (fw_open _ _ _ _ E2) as (V2 & H2' & O2).
  destruct (EFI_ERROR st2) eqn:X2; [by rewrite wp_ret|]. rewrite wp_bind. unfold call at 1, wp at 1. cbn [fw lmem].
  destruct (GetInfo f2) as [[st3 z] f3] eqn:E3. destruct (fw_info _ _ _ _ E3) as (V3 & O3 & H3' & Z3). cbn [fst snd].
  destruct (EFI_ERROR st3) eqn:X3; [by rewrite wp_ret|]. rewrite O2 in * by done. specialize (Z3 eq_refl).
  assert (Ef : volume f2 path = file) by (unfold file; by rewrite V2, V1, V0). rewrite Ef in Z3. subst z.
  cbv zeta. assert (Eu : u64 (Z.of_nat (length file) + 4095) = Z.of_nat (length file) + 4095) by (unfold u64; apply Z.mod_small; lia).
  rewrite Eu. set (n := (Z.of_nat (length file) + 4095) / 4096). assert (Hn : Z.of_nat (length file) <= n * 4096) by (unfold n; dlia).
  rewrite wp_bind. unfold call at 1, wp at 1. cbn [fw lmem].
  destruct (AllocateAnyPages n f3) as [[[st4 a] l] f4] eqn:E4. cbn [fst snd]. destruct (EFI_ERROR st4) eqn:X4; [by rewrite wp_ret|].
  destruct (fw_any _ _ _ _ _ _ E4 X4) as (V4 & O4 & Hl & Ha & Hb & Hfresh & H4'). rewrite wp_bind. unfold new_pages. rewrite wp_modify.
  rewrite wp_bind. unfold call at 1, wp at 1. cbn [fw lmem]. destruct (Read (Z.of_nat (length file)) f4) as [[st5 l5] f5] eqn:E5. cbn [fst snd].
  destruct (fw_read _ _ _ _ _ E5) as (V5 & H5' & L5). destruct (EFI_ERROR st5) eqn:X5; [by rewrite wp_ret|].
  rewrite L5 by done. rewrite O4, O3, V4, V3, Ef. rewrite take_ge by lia. rewrite wp_bind. apply CopyMem_to_spec.
  { intros x Hx. cbn [lmem]. rewrite lookup_set_bytes. rewrite decide_True by lia. apply lookup_lt_is_Some. lia. }
  rewrite wp_ret. cbn [lmem fw].
  assert (Hheld : ∀ x, held f5 x ↔ held (fw s) x ∨ a <= x < a + n * 4096) by (intros x; by rewrite H5', H4', H3', H2', H1', H0').
  split; cbn [lmem fw].
  - intros k x Hx. pose proof (lookup_lt_Some _ _ _ Hx). rewrite lookup_set_bytes, decide_True by lia. rewrite <- Hx. f_equal. lia.
  - intros x v. cbn [lmem fw]. rewrite !lookup_set_bytes, Hheld. repeat case_decide; [intros _; right; lia|intros _; right; lia|]. intros Hv. left. by apply (Ho x v).
  - lia.
  - intros x Hx. rewrite Hheld. by right.
  - intros x Hx. rewrite !lookup_set_bytes, !decide_False by lia. done.
  - intros x Hx. destruct (lmem s !! x) as [v|] eqn:Ev; [|done]. destruct (Hfresh x Hx). rewrite H3', H2', H1', H0'. by apply (Ho x v).
Qed.

(** ** ELF files *)

Definition phdr (file : list Z) (i : nat) : Phdr := phdr_of (slice (Z.to_nat (e_phoff file) + 32 * i) 32 file).
Definition loads (file : list Z) (i : nat) : Prop := (i < Z.to_nat (e_phnum file))%nat ∧ p_type (phdr file i) = PT_LOAD.
Definition in_segment (p : Phdr) (x : Z) : Prop := p_paddr p <= x < p_paddr p + p_memsz p.

(** A file the loader can load. *)
Record elf_ok (file : list Z) : Prop := {
  ek_bytes : bytes_ok file;
  ek_size : (52 <= length file)%nat ∧ Z.of_nat (length file) < 4294967296;
  ek_table : e_phoff file + 32 * e_phnum file <= Z.of_nat (length file);
  ek_seg i : loads file i → let p := phdr file i in
    p_offset p + p_filesz p <= Z.of_nat (length file) ∧ p_filesz p <= p_memsz p ∧ ∃ e, 0 <= e < 32 ∧ p_align p = 2 ^ e;
  ek_apart i j x : loads file i → loads file j → in_segment (phdr file i) x → in_segment (phdr file j) x → i = j;
  ek_some : ∃ i, loads file i;
}.

Lemma field_range o d : bytes_ok d → (o + 4 <= length d)%nat → 0 <= get_le o 4 d < 4294967296.
Proof. intros Hd Hl. by apply (get_le_range o 4 d). Qed.

Lemma phdr_range file i : bytes_ok file → (Z.to_nat (e_phoff file) + 32 * i + 32 <= length file)%nat → let p := phdr file i in
  0 <= p_offset p < 4294967296 ∧ 0 <= p_paddr p < 4294967296 ∧ 0 <= p_filesz p < 4294967296 ∧ 0 <= p_memsz p < 4294967296.
Proof.
  intros Hb Hl. pose proof (slice_ok (Z.to_nat (e_phoff file) + 32 * i) 32 file Hb) as Hs.
  split_and!; apply field_range; try done; rewrite slice_length by lia; lia.
Qed.

Lemma segment_end_ge p e :
  0 <= e < 32 → p_align p = 2 ^ e → 0 <= p_paddr p < 4294967296 → 0 <= p_memsz p < 4294967296 →
  p_paddr p + p_memsz p <= segment_end p < 17179869184.
Proof.
  intros He Ha Hp Hm. unfold segment_end. assert (Hpow : 0 < 2 ^ e < 4294967296).
  { split; [by apply Z.pow_pos_nonneg; lia|]. change 4294967296 with (2 ^ 32). apply Z.pow_lt_mono_r; lia. }
  assert (Emask : u32 (p_align p - 1) = Z.ones e) by (rewrite Ha, u32_id, Z.ones_equiv by lia; lia). rewrite Emask.
  assert (Hones : Z.ones e = 2 ^ e - 1) by (rewrite Z.ones_equiv; lia).
  set (y := p_paddr p + p_memsz p + Z.ones e). assert (Ey : u64 y = y) by (unfold u64; apply Z.mod_small; unfold y; lia). rewrite Ey.
  assert (El : Z.land y (Z.lxor 18446744073709551615 (Z.ones e)) = y / 2 ^ e * 2 ^ e).
  { rewrite <- Z.shiftl_mul_pow2, <- Z.shiftr_div_pow2, <- Z.ldiff_ones_r by lia. apply Z.bits_inj'. intros k Hk.
    change 18446744073709551615 with (Z.ones 64). rewrite Z.land_spec, Z.lxor_spec, Z.ldiff_spec.
    destruct (decide (k < 64)); [rewrite (Z.ones_spec_low 64) by lia; by destruct (Z.testbit y k), (Z.testbit (Z.ones e) k)|].
    assert (Hz : Z.testbit y k = false); [|by rewrite Hz]. destruct (decide (y = 0)) as [->|Hy]; [apply Z.bits_0|].
    apply (Z.bits_above_log2 y); [unfold y; lia|]. apply Z.log2_lt_pow2; [unfold y; lia|]. apply (Z.lt_le_trans _ (2 ^ 64)); [unfold y; lia|apply Z.pow_le_mono_r; lia]. }
  rewrite El. pose proof (Z.div_mod y (2 ^ e) ltac:(lia)). pose proof (Z.mod_pos_bound y (2 ^ e) ltac:(lia)). unfold y in *. lia.
Qed.

(** ** The loops *)

Section run.
Context (file : list Z) (buf : Z).
Hypothesis Helf : elf_ok file.
Hypothesis Hbuf : 0 <= buf ∧ buf + Z.of_nat (length file) < 18446744073709551616.

Lemma elf_range : 0 <= e_phoff file ∧ 0 <= e_phnum file ∧ (Z.to_nat (e_phoff file) + 32 * Z.to_nat (e_phnum file) <= length file)%nat.
Proof using Helf.
  destruct Helf as [Hb [Hs _] Ht _ _ _]. pose proof (get_le_range 28 4 file Hb ltac:(lia)) as H1. pose proof (get_le_range 44 2 file Hb ltac:(lia)) as H2.
  unfold e_phoff, e_phnum in *. lia.
Qed.

Definition tab : Z := buf + e_phoff file.

Lemma read_phdr_spec s i (Q : Phdr → ld F → Prop) :
  at_mem (lmem s) buf file → (i < Z.to_nat (e_phnum file))%nat → Q (phdr file i) s → wp (read_phdr tab i) Q s.
Proof using Helf Hbuf.
  intros Hm Hi HQ. destruct elf_range as (R1 & R2 & R3). unfold read_phdr. rewrite wp_bind. unfold sizeof_Phdr.
  assert (Ea : u64 (tab + Z.of_nat (32 * i)) = buf + Z.of_nat (Z.to_nat (e_phoff file) + 32 * i)) by (unfold u64, tab; rewrite Z.mod_small by lia; lia).
  rewrite Ea. apply (mem_read_spec _ _ (slice (Z.to_nat (e_phoff file) + 32 * i) 32 file)); [apply at_mem_slice; [done|lia]|apply slice_length; lia|].
  by rewrite wp_ret.
Qed.

(** The range covers the segment. *)
Definition covers (r : option (Z * Z)) (p : Phdr) : Prop :=
  match r with Some (lo, hi) => lo <= p_paddr p ∧ p_paddr p + p_memsz p <= hi | None => False end.
Definition wider (r r' : option (Z * Z)) : Prop :=
  match r, r' with Some (lo, hi), Some (lo', hi') => lo' <= lo ∧ hi <= hi' | Some _, None => False | None, _ => True end.
Definition sane (r : option (Z * Z)) : Prop := match r with Some (lo, hi) => 0 <= lo ∧ lo <= hi < 17179869184 | None => True end.

Lemma extent_spec n : ∀ i acc s (Q : option (Z * Z) → ld F → Prop),
  at_mem (lmem s) buf file → (i + n <= Z.to_nat (e_phnum file))%nat → sane acc →
  (∀ r, sane r → wider acc r → (∀ j, (i <= j < i + n)%nat → loads file j → covers r (phdr file j)) → Q r s) → wp (extent n i tab acc) Q s.
Proof using Helf Hbuf.
  induction n as [|n IH]; intros i acc s Q Hm Hn Hs HQ; cbn [extent].
  { rewrite wp_ret. apply HQ; [done|by destruct acc as [[]|]; cbn; try lia|lia]. }
  rewrite wp_bind. apply read_phdr_spec; [done|lia|]. destruct (decide (p_type (phdr file i) = PT_LOAD)) as [El|Nl].
  - assert (Hl : loads file i) by (split; [lia|done]). rewrite (proj2 (Z.eqb_eq _ _) El). destruct elf_range as (R1 & R2 & R3).
    destruct (ek_seg file Helf i Hl) as (S1 & S2 & e & He & Ha). destruct (phdr_range file i (ek_bytes _ Helf)) as (P1 & P2 & P3 & P4); [lia|].
    pose proof (segment_end_ge _ e He Ha P2 P4) as Hend. set (acc' := match acc with None => _ | Some _ => _ end).
    assert (Hacc : sane acc' ∧ wider acc acc' ∧ covers acc' (phdr file i)).
    { subst acc'. unfold sane, wider, covers in *. destruct acc as [[lo hi]|]; [|lia].
      destruct (Z.ltb_spec (p_paddr (phdr file i)) lo), (Z.ltb_spec hi (segment_end (phdr file i))); lia. }
    destruct Hacc as (A1 & A2 & A3). apply (IH (S i) acc' s); [done|lia|done|]. intros r Hr Hw Hc. apply HQ; [done| |].
    + unfold wider in *. destruct acc as [[lo hi]|], acc' as [[lo' hi']|], r as [[]|]; try done; lia.
    + intros j Hj Hlj. destruct (decide (j = i)) as [->|]; [|apply Hc; [lia|done]]. unfold covers, wider in *. destruct acc' as [[lo' hi']|], r as [[]|]; try done; lia.
  - rewrite (proj2 (Z.eqb_neq _ _) Nl). apply (IH (S i) acc s); [done|lia|done|]. intros r Hr Hw Hc. apply HQ; [done|done|].
    intros j Hj Hlj. destruct (decide (j = i)) as [->|]; [by destruct Hlj|apply Hc; [lia|done]].
Qed.

(** The segment is in memory: bytes of the file, then zeros. *)
Definition loaded (m : gmap Z Z) (p : Phdr) : Prop :=
  ∀ k, 0 <= k < p_memsz p → m !! (p_paddr p + k) = Some (if k <? p_filesz p then byte_at file (Z.to_nat (p_offset p + k)) else 0).

Definition segs (i n : nat) (x : Z) : Prop := ∃ j, (i <= j < i + n)%nat ∧ loads file j ∧ in_segment (phdr file j) x.

(** Memory the segments can be copied to. *)
Record room (m : gmap Z Z) : Prop := {
  rm_file : at_mem m buf file;
  rm_seg i x : loads file i → in_segment (phdr file i) x → is_Some (m !! x) ∧ ¬ (buf <= x < buf + Z.of_nat (length file));
}.

Lemma load_one s i (Q : unit → ld F → Prop) :
  room (lmem s) → loads file i →
  (∀ m', room m' → loaded m' (phdr file i) → (∀ x, ¬ in_segment (phdr file i) x → m' !! x = lmem s !! x) → Q tt (Ld m' (fw s))) →
  wp (CopyMem (p_paddr (phdr file i)) (u64 (buf + p_offset (phdr file i))) (Z.to_nat (p_filesz (phdr file i))) ;;
      when (p_filesz (phdr file i) <? p_memsz (phdr file i))
        (SetMem (u64 (p_paddr (phdr file i) + p_filesz (phdr file i))) (Z.to_nat (p_memsz (phdr file i) - p_filesz (phdr file i))) 0)) Q s.
Proof using Helf Hbuf.
  intros [Hm Hseg] Hl HQ. destruct (ek_seg file Helf i Hl) as (S1 & S2 & _). destruct elf_range as (R1 & R2 & R3).
  destruct (phdr_range file i (ek_bytes _ Helf)) as (P1 & P2 & P3 & P4); [destruct Hl; lia|]. set (p := phdr file i) in *.
  assert (Eo : u64 (buf + p_offset p) = buf + Z.of_nat (Z.to_nat (p_offset p))) by (unfold u64; rewrite Z.mod_small by lia; lia).
  assert (Ez : u64 (p_paddr p + p_filesz p) = p_paddr p + p_filesz p) by (unfold u64; apply Z.mod_small; lia). rewrite Eo, Ez.
  set (l := slice (Z.to_nat (p_offset p)) (Z.to_nat (p_filesz p)) file). assert (Hll : length l = Z.to_nat (p_filesz p)) by (apply slice_length; lia).
  assert (Hin : ∀ x, in_segment p x → is_Some (lmem s !! x)) by (intros x Hx; by apply (Hseg i)).
  set (m1 := set_bytes (p_paddr p) l (lmem s)). set (z := replicate (Z.to_nat (p_memsz p - p_filesz p)) 0).
  assert (Hz : length z = Z.to_nat (p_memsz p - p_filesz p)) by apply length_replicate.
  set (m2 := set_bytes (p_paddr p + p_filesz p) z m1).
  assert (H2 : ∀ x, m2 !! x = if decide (in_segment p x) then Some (if x - p_paddr p <? p_filesz p then byte_at file (Z.to_nat (p_offset p + (x - p_paddr p))) else 0) else lmem s !! x).
  { intros x. unfold m2, m1. rewrite !lookup_set_bytes, Hz, Hll. unfold in_segment. destruct (Z.ltb_spec (x - p_paddr p) (p_filesz p)).
    - rewrite (decide_False (P := p_paddr p + p_filesz p <= x < _)) by lia. destruct (decide (p_paddr p <= x < p_paddr p + p_memsz p)); [|by rewrite decide_False by lia].
      rewrite decide_True by lia. unfold l. rewrite lookup_slice by lia. unfold byte_at.
      replace (Z.to_nat (p_offset p + (x - p_paddr p))) with (Z.to_nat (p_offset p) + Z.to_nat (x - p_paddr p))%nat by lia.
      destruct (lookup_lt_is_Some_2 file (Z.to_nat (p_offset p) + Z.to_nat (x - p_paddr p))) as [v ->]; [lia|done].
    - destruct (decide (p_paddr p <= x < p_paddr p + p_memsz p)).
      + rewrite decide_True by lia. unfold z. apply lookup_replicate_2. lia.
      + rewrite !decide_False by lia. done. }
  assert (Hend : Q tt (Ld m2 (fw s))).
  { apply HQ.
    - split.
      + intros k x Hx. rewrite H2. rewrite decide_False; [by apply Hm|]. intros Hin'. apply lookup_lt_Some in Hx. destruct (Hseg i _ Hl Hin') as [_ Hno]. lia.
      + intros j x Hj Hx. destruct (Hseg j x Hj Hx) as [Hs Hno]. split; [|done]. rewrite H2. case_decide; [eauto|done].
    - intros k Hk. rewrite H2, decide_True by (unfold in_segment; lia). by replace (p_paddr p + k - p_paddr p) with k by lia.
    - intros x Hx. by rewrite H2, decide_False. }
  rewrite wp_bind. unfold CopyMem. rewrite wp_bind. apply (mem_read_spec _ _ l); [apply at_mem_slice; [done|lia]|done|].
  apply CopyMem_to_spec; [intros x Hx; apply Hin; unfold in_segment; lia|]. fold m1. rewrite wp_when. destruct (Z.ltb_spec (p_filesz p) (p_memsz p)).
  - apply CopyMem_to_spec; [|exact Hend]. fold z. rewrite Hz. intros x Hx. cbn [lmem]. unfold m1. rewrite lookup_set_bytes, decide_False by lia. apply Hin. unfold in_segment. lia.
  - replace m1 with m2; [exact Hend|]. unfold m2, z. replace (Z.to_nat (p_memsz p - p_filesz p)) with 0%nat by lia. done.
Qed.

Lemma load_segments_spec n : ∀ i s (Q : unit → ld F → Prop),
  room (lmem s) → (i + n <= Z.to_nat (e_phnum file))%nat →
  (∀ m', room m' → (∀ j, (i <= j < i + n)%nat → loads file j → loaded m' (phdr file j)) → (∀ x, ¬ segs i n x → m' !! x = lmem s !! x) → Q tt (Ld m' (fw s))) →
  wp (load_segments n i tab buf) Q s.
Proof using Helf Hbuf.
  induction n as [|n IH]; intros i s Q Hr Hn HQ; cbn [load_segments].
  { rewrite wp_ret. destruct s as [m f]. apply HQ; [done|lia|done]. }
  rewrite wp_bind. apply read_phdr_spec; [apply Hr|lia|]. rewrite wp_bind. destruct (decide (p_type (phdr file i) = PT_LOAD)) as [El|Nl].
  - rewrite (proj2 (Z.eqb_eq _ _) El). assert (Hl : loads file i) by (split; [lia|done]). apply load_one; [done|done|]. intros m1 Hr1 Hl1 Hf1.
    apply (IH (S i) (Ld m1 (fw s))); [done|lia|]. cbn [lmem fw]. intros m2 Hr2 Hl2 Hf2. apply HQ; [done| |].
    + intros j Hj Hlj. destruct (decide (j = i)) as [->|]; [|apply Hl2; [lia|done]]. intros k Hk. rewrite <- (Hl1 k Hk). apply Hf2.
      intros (j & Hj' & Hlj' & Hx). assert (j = i) as -> by (apply (ek_apart file Helf j i _ Hlj' Hl Hx); unfold in_segment; lia). lia.
    + intros x Hx. rewrite Hf2, Hf1; [done| |].
      * intros Hin. apply Hx. exists i. split; [lia|done].
      * intros (j & Hj & Hlj & Hin). apply Hx. exists j. split; [lia|done].
  - rewrite (proj2 (Z.eqb_neq _ _) Nl), wp_ret. apply (IH (S i) s); [done|lia|]. intros m2 Hr2 Hl2 Hf2. apply HQ; [done| |].
    + intros j Hj Hlj. destruct (decide (j = i)) as [->|]; [by destruct Hlj|apply Hl2; [lia|done]].
    + intros x Hx. apply Hf2. intros (j & Hj & Hlj & Hin). apply Hx. exists j. split; [lia|done].
Qed.
End run.

Lemma get_header o n file : (o + n <= 52)%nat → get_le o n (slice 0 52 file) = get_le o n file.
Proof. intros Hn. unfold get_le. rewrite slice_slice by lia. done. Qed.

(** C25: loading the kernel either reports the error of a firmware service, or
    returns the entry point of the ELF file with every loadable segment at its
    physical address, the bytes of the file followed by zeros up to its size in
    memory; no access leaves the pages allocated for it, and no byte that was in
    use before has changed. *)
Theorem RelocateELF_correct s path :
  owned s → elf_ok (volume (fw s) path) →
  wp (RelocateELF path) (λ r s',
    match r with
    | inl st => EFI_ERROR st = true
    | inr entry => entry = e_entry (volume (fw s) path) ∧
        (∀ i, loads (volume (fw s) path) i → loaded (volume (fw s) path) (lmem s') (phdr (volume (fw s) path) i)) ∧
        ∀ x v, lmem s !! x = Some v → lmem s' !! x = Some v
    end) s.
Proof.
  intros Ho Helf. set (file := volume (fw s) path) in *. destruct (ek_size _ Helf) as [Hs1 Hs2]. unfold RelocateELF. rewrite wp_bind.
  eapply wp_mono; [apply LoadFile_spec; [done|exact Hs2]|]. cbv beta. fold file. intros [st|[a n]] s1; [by rewrite wp_ret|].
  intros [L1 L2 (L3 & L4 & L5) L6 L7 L8]. assert (Hbuf : 0 <= a ∧ a + Z.of_nat (length file) < 18446744073709551616) by lia.
  destruct (elf_range file Helf) as (R1 & R2 & R3).
  assert (Hh : at_mem (lmem s1) a (slice 0 52 file)) by (replace a with (a + Z.of_nat 0) by lia; apply at_mem_slice; [done|lia]).
  assert (Hhl : length (slice 0 52 file) = 52%nat) by (apply slice_length; lia).
  rewrite wp_bind. apply (mem_read_spec _ _ (slice 0 52 file)); [done|done|]. cbv zeta. unfold e_phoff, e_phnum. rewrite !get_header by lia.
  fold (e_phoff file) (e_phnum file). assert (Et : u64 (a + e_phoff file) = tab file a) by (unfold u64, tab; apply Z.mod_small; lia). rewrite Et.
  rewrite wp_bind. apply (extent_spec file a Helf Hbuf); [done|lia|done|]. intros r Hr _ Hc. destruct (ek_some _ Helf) as [i0 Hi0].
  destruct r as [[lo hi]|]; [|destruct (Hc i0); [destruct Hi0; lia|done]]. unfold sane in Hr. set (pg := u64 (hi - lo) / 4096 + 1).
  assert (Hpg : hi - lo < pg * 4096) by (unfold pg, u64; rewrite Z.mod_small by lia; dlia).
  rewrite wp_bind. unfold call at 1, wp at 1. destruct (AllocateAddress lo pg (fw s1)) as [[st l] f2] eqn:Ea. cbn [fst snd].
  destruct (EFI_ERROR st) eqn:Ee; [by rewrite wp_ret|]. destruct (fw_address _ _ _ _ _ _ Ea Ee) as (_ & Hl & Hfresh & _).
  assert (Hseg : ∀ i x, loads file i → in_segment (phdr file i) x → lo <= x < lo + pg * 4096).
  { intros i x Hi Hx. specialize (Hc i ltac:(destruct Hi; lia) Hi). unfold covers, in_segment in *. lia. }
  assert (Hout : ∀ x, a <= x < a + n * 4096 → ¬ lo <= x < lo + pg * 4096) by (intros x Hx Hx'; by apply (Hfresh x Hx'), L6).
  rewrite wp_bind. unfold new_pages. rewrite wp_modify. cbn [lmem fw]. rewrite wp_bind. apply (load_segments_spec file a Helf Hbuf); [|lia|].
  { split; cbn [lmem].
    - intros k x Hx. pose proof (lookup_lt_Some _ _ _ Hx). rewrite lookup_set_bytes, decide_False; [by apply L1|]. rewrite Hl. apply Hout. lia.
    - intros i x Hi Hx. specialize (Hseg i x Hi Hx). split; [|intros Hx'; apply (Hout x); lia]. rewrite lookup_set_bytes, decide_True by lia. apply lookup_lt_is_Some. lia. }
  cbn [lmem fw]. intros m3 [Hm3 _] Hld Hfr. rewrite wp_bind. apply (mem_read_spec _ _ (slice 0 52 file)); [|done|].
  { replace a with (a + Z.of_nat 0) by lia. apply at_mem_slice; [done|lia]. }
  rewrite wp_bind, wp_modify, wp_ret. cbn [lmem fw]. unfold e_entry. rewrite get_header by lia. split_and!; [done| |].
  - intros i Hi k Hk. assert (Hx : in_segment (phdr file i) (p_paddr (phdr file i) + k)) by (unfold in_segment; lia).
    rewrite lookup_drop_bytes, decide_False; [apply Hld; [destruct Hi; lia|done|done]|]. specialize (Hseg i _ Hi Hx). intros Hx'. apply (Hout (p_paddr (phdr file i) + k)); lia.
  - intros x v Hv. assert (Hx : ¬ (a <= x < a + n * 4096)) by (intros Hx; by rewrite L8 in Hv by done).
    assert (Hv1 : lmem s1 !! x = Some v) by (by rewrite L7). assert (Hx2 : ¬ lo <= x < lo + pg * 4096) by (intros Hx2; by apply (Hfresh x Hx2), (L2 x v)).
    rewrite lookup_drop_bytes, decide_False by lia. rewrite Hfr; [|intros (j & _ & Hj & Hjx); by apply Hx2, (Hseg j)].
    rewrite lookup_set_bytes, decide_False; [done|]. rewrite Hl. done.
Qed.
End spec.

(** ** A firmware *)

(** Pages handed out as ranges; any pages come from above all of them. *)
Record simfw := SimFw { sf_volume : list Z → list Z; sf_opened : list Z; sf_held : list (Z * Z) }.

Definition sf_fail : Z := 9223372036854775817.
Definition sf_top (l : list (Z * Z)) : Z := foldr (λ r acc, Z.max acc (r.1 + r.2)) 16777216 l.
Definition sf_apart (a n : Z) (l : list (Z * Z)) : bool := forallb (λ r, (a + n <=? r.1) || (r.1 + r.2 <=? a)) l.

#[export] Instance simfw_firmware : Firmware simfw := {
  LocateProtocol f := (0, f);
  OpenVolume f := (0, f);
  Open n f := (0, SimFw (sf_volume f) n (sf_held f));
  GetInfo f := (0, Z.of_nat (length (sf_volume f (sf_opened f))), f);
  AllocateAnyPages n f :=
    let a := sf_top (sf_held f) in
    if (0 <=? n) && (a + n * 4096 <? 18446744073709551616) then
      (0, a, replicate (Z.to_nat (n * 4096)) 255, SimFw (sf_volume f) (sf_opened f) ((a, n * 4096) :: sf_held f))
    else (sf_fail, 0, [], f);
  AllocateAddress a n f :=
    if (0 <=? n) && sf_apart a (n * 4096) (sf_held f) then
      (0, replicate (Z.to_nat (n * 4096)) 255, SimFw (sf_volume f) (sf_opened f) ((a, n * 4096) :: sf_held f))
    else (sf_fail, [], f);
  Read n f := (0, take (Z.to_nat n) (sf_volume f (sf_opened f)), f);
  FreePages a n f := SimFw (sf_volume f) (sf_opened f) (filter (λ r, r.1 ≠ a) (sf_held f));
}.

Definition sf_holds (l : list (Z * Z)) (x : Z) : Prop := ∃ r, r ∈ l ∧ r.1 <= x < r.1 + r.2.

Lemma sf_top_spec l : 16777216 <= sf_top l ∧ ∀ x, sf_holds l x → x < sf_top l.
Proof.
  induction l as [|r l [IH1 IH2]]; cbn [sf_top foldr].
  - split; [lia|]. by intros x (r & Hr%elem_of_nil & _).
  - fold (sf_top l). split; [lia|]. intros x (r' & Hr & Hx). apply elem_of_cons in Hr as [->|Hr]; [lia|]. specialize (IH2 x ltac:(by exists r')). lia.
Qed.

Lemma sf_holds_cons a n l x : sf_holds ((a, n) :: l) x ↔ sf_holds l x ∨ a <= x < a + n.
Proof.
  split.
  - intros (r & Hr & Hx). apply elem_of_cons in Hr as [->|Hr]; [by right|left; by exists r].
  - intros [(r & Hr & Hx)|Hx]; [exists r; split; [set_solver|done]|exists (a, n); split; [set_solver|done]].
Qed.

#[export, refine] Instance simfw_ok : FirmwareOk simfw := {
  held f := sf_holds (sf_held f); volume := sf_volume; opened := sf_opened;
}.
Proof.
  - by intros f st f' [= <- <-].
  - by intros f st f' [= <- <-].
  - by intros n f st f' [= <- <-].
  - by intros f st z f' [= <- <- <-].
  - intros n f st a l f'. cbn [AllocateAnyPages simfw_firmware]. destruct (_ && _) eqn:E; [|by intros [= <- _ _ _]].
    intros [= <- <- <- <-] _. apply andb_true_iff in E as [E1 E2]. destruct (sf_top_spec (sf_held f)) as [T1 T2].
    split_and!; [done|done|rewrite length_replicate; lia|lia|lia| |intros x; apply sf_holds_cons].
    intros x Hx Hh. specialize (T2 x Hh). lia.
  - intros a n f st l f'. cbn [AllocateAddress simfw_firmware]. destruct (_ && _) eqn:E; [|by intros [= <- _ _]].
    intros [= <- <- <-] _. apply andb_true_iff in E as [E1 E2].
    split_and!; [done|rewrite length_replicate; lia| |intros x; apply sf_holds_cons].
    intros x Hx (r & Hr & Hrx). unfold sf_apart in E2. rewrite forallb_forall in E2. apply list_elem_of_In in Hr. specialize (E2 r Hr). lia.
  - by intros n f st l f' [= <- <- <-].
Defined.

(** A file with one segment: three bytes of data and two zeros. *)
Definition ex_elf : list Z :=
  replicate 24 0 ++ le_bytes 4 0x10000c ++ le_bytes 4 52 ++ replicate 12 0 ++ le_bytes 2 1 ++ replicate 6 0 ++
  (le_bytes 4 1 ++ le_bytes 4 84 ++ le_bytes 4 0 ++ le_bytes 4 0x100000 ++ le_bytes 4 3 ++ le_bytes 4 5 ++ le_bytes 4 0 ++ le_bytes 4 4096) ++ [7; 8; 9].
Definition ex_ld : ld simfw := Ld ∅ (SimFw (λ _, ex_elf) [] []).

Lemma ex_elf_ok : elf_ok ex_elf.
Proof.
  assert (Hl : ∀ i, loads ex_elf i → i = 0%nat) by (intros i [Hi _]; change (Z.to_nat (e_phnum ex_elf)) with 1%nat in Hi; lia).
  split.
  - repeat (apply Forall_app_2; [try apply le_bytes_ok; try (apply Forall_replicate; unfold is_u8; lia)|]).
    + repeat (apply Forall_app_2; [apply le_bytes_ok|]). apply le_bytes_ok.
    + repeat constructor; unfold is_u8; lia.
  - vm_compute. split; [repeat constructor|reflexivity].
  - vm_compute. discriminate.
  - intros i ->%Hl. split_and!; [vm_compute; discriminate|vm_compute; discriminate|]. exists 12. split; [lia|reflexivity].
  - intros i j x ->%Hl ->%Hl. done.
  - exists 0%nat. split; [vm_compute; repeat constructor|reflexivity].
Qed.

Lemma RelocateELF_correct_witness :
  wp (RelocateELF [107]) (λ r s',
    match r with
    | inl st => EFI_ERROR st = true
    | inr entry => entry = e_entry (volume (fw ex_ld) [107]) ∧
        (∀ i, loads (volume (fw ex_ld) [107]) i → loaded (volume (fw ex_ld) [107]) (lmem s') (phdr (volume (fw ex_ld) [107]) i)) ∧
        ∀ x v, lmem ex_ld !! x = Some v → lmem s' !! x = Some v
    end) ex_ld.
Proof. apply (RelocateELF_correct ex_ld [107]); [by intros x v Hx|exact ex_elf_ok]. Defined.

(** The run succeeds: the entry point, and the last byte of the segment. *)
Example RelocateELF_runs :
  match RelocateELF [107] ex_ld with Ret (inr e) s => (e, lmem s !! 0x100002, lmem s !! 0x100004) | _ => (0, None, None) end =
  (0x10000c, Some 9, Some 0).
Proof. vm_compute. reflexivity. Qed.

(** ** Segment descriptors: set_gdt of loader.c *)

Record gdt := Gdt { limit : Z; base1 : Z; base2 : Z; access_byte : Z; flags : Z; base3 : Z }.

Definition set_gdt (type base lim : Z) : gdt :=
  Gdt (Z.land (Z.shiftr lim 12) 0xFFFF) (Z.land base 0xFFFF) (Z.land (Z.shiftr base 16) 0xFF) (u8 (Z.lor 0x90 type))
    (Z.lor 0xC0 (Z.land (Z.shiftr lim 28) 0xF)) (Z.land (Z.shiftr base 24) 0xFF).

(** The processor reads back the base and, in pages, the limit. *)
Lemma set_gdt_decodes type base lim :
  0 <= base < 4294967296 → 0 <= lim < 4294967296 →
  let g := set_gdt type base lim in
  base1 g + 65536 * base2 g + 16777216 * base3 g = base ∧ limit g + 65536 * Z.land (flags g) 0xF = lim / 4096.
Proof.
  intros Hb Hl. unfold set_gdt. cbn [base1 base2 base3 limit flags].
  change 0xFFFF with (Z.ones 16). change 0xFF with (Z.ones 8). change 0xF with (Z.ones 4).
  rewrite (Z.land_lor_distr_l 192), <- Z.land_assoc, Z.land_diag. change (Z.land 192 (Z.ones 4)) with 0. rewrite Z.lor_0_l.
  rewrite !Z.land_ones, !Z.shiftr_div_pow2 by lia.
  change (2 ^ 4) with 16. change (2 ^ 8) with 256. change (2 ^ 12) with 4096. change (2 ^ 16) with 65536. change (2 ^ 24) with 16777216. change (2 ^ 28) with 268435456. dlia.
Qed.
